(* ===== verification/_CoqProject ===== *)
-Q . S2P
Prelude.v
BitIO.v
BitIOBlocks.v
BitIOInsert.v
BitIOCodec.v
BitStream.v
BitIOText.v
BitIONumbers.v
BitIOBest.v
BitIOTheorems.v
Serialize.v
AssetTypes.v
DigiAssetRules.v
RulesCodec.v
RulesEncoder.v
RulesSafety.v
RulesTheorems.v
OpReturn.v
KYC.v
KYCTheorems.v
Base58.v
Blob.v
UniqueTaskQueue.v
CString.v
Sql.v
Cid.v
SHA256.v
Ripemd160.v
Database.v
DigiDollar.v
DigiAsset.v
AssetIdTheorems.v
UtxoStore.v
UtxoTheorems.v
DigiByteTransaction.v
TransactionDecode.v
Transfer.v
TransferTheorems.v
RulesCheck.v
LoadTheorems.v
TransactionBuilder.v
BuilderTheorems.v
IssuanceTheorems.v
ChainTables.v
ChainDatabase.v
ChainUpdate.v
RewindTheorems.v
ChainAnalyzer.v
PruneLemmas.v
PruneTheorems.v
AtomicityTheorems.v
AnalyzerTheorems.v
IpfsQueue.v
IpfsTheorems.v
DigiByteDomain.v
StoragePlan.v
StoragePlanTheorems.v
PoolDatabase.v
PoolText.v
PoolServer.v
PoolPayout.v
PoolTheorems.v
PoolVerifier.v
PoolDiscovery.v
PoolDiscoveryTheorems.v
PoolPayoutTheorems.v
AssetWallet.v
WalletMethods.v
WalletAmounts.v
ConfigFile.v
ConfigTheorems.v
WalletTheorems.v
SpendTheorems.v
RpcCache.v
RpcServer.v
CacheTheorems.v
RpcTheorems.v
RequestTheorems.v
PoolClient.v
PoolClientTheorems.v
