(* ===== verification/Prelude.v ===== *)
(** * DigiAsset for Windows: verification development

    The program follows the DigiByte block chain, decodes the DigiAsset layer
    that asset transactions carry in an OP_RETURN output, keeps the result in an
    SQLite database and downloads the assets' metadata over IPFS.  A second
    program, the pool server, pays the nodes that store these files.  This
    library models the core of both (the C++ code under src/src/ and src/pool/)
    as executable Rocq functions and proves what makes it correct.  This file is
    its root: outcomes of C++
    calls, the state and exception monad, machine integers and bit lists, and
    the lemmas and hint databases the other files share.

    ** How the program works, and where it is modelled

    - Bits.  The asset layer is a bit stream.  [BitIO] is the object of
      BitIO.cpp word by word, with the list of bits it stands for; [BitIOBlocks]
      and [BitIOInsert] are the operations on runs of bits, [BitIOCodec]
      the text and number encodings.  [BitStream] is the
      interface the clients are verified against: contracts [reads], [emits],
      [built] and [reader], closed under the monad.  [BitIOText],
      [BitIONumbers], [BitIOBest] and [BitIOTheorems] hold the theorems.
    - Values.  [Serialize] (serialize.h), [AssetTypes] (DigiAssetTypes, the
      constants, DigiByteCore_Types), [Base58], [Blob], [Cid] (content ids of
      IPFS.cpp), [SHA256] (against the standard, which its module [Fips] states
      on its own), [Ripemd160], [UniqueTaskQueue].
    - Rules of an asset.  [DigiAssetRules] is DigiAssetRules.cpp; [RulesCodec]
      and [RulesEncoder] relate the encoder and the decoding constructor,
      [RulesSafety] treats arbitrary chain data, [RulesTheorems] collects.
    - Identities.  [OpReturn], [KYC] and [KYCTheorems] are KYC.cpp.
    - An asset.  [DigiAsset] decodes an issuance, computes the asset id
      ([AssetIdTheorems]) and checks the rules of a transfer ([RulesCheck]).
      [Database] is the interface of the look-ups it needs, [DigiDollar] the
      stable-coin layer.
    - A transaction.  [DigiByteTransaction] and [TransactionDecode] load a
      transaction and replay its transfer instructions, [TransactionBuilder]
      writes them; [Transfer], [TransferTheorems], [LoadTheorems] and
      [BuilderTheorems] show that units are conserved and that the builder and
      the engine agree; [IssuanceTheorems] follows an issuance from the new
      asset through its payload to the asset and the outputs an indexer makes
      of it.
    - The chain database.  [UtxoStore] is the table of outputs with its cache
      ([UtxoTheorems]); [ChainTables] has the rows of the other tables and the
      prepared statements, [ChainDatabase] the operations of Database.cpp,
      [ChainUpdate] storing a transaction ([addToDatabase]) and the instance of
      the look-up interface that reads the stored chain.
    - The analyzer.  [ChainAnalyzer] is the thread of ChainAnalyzer.cpp: block
      loop, rewind after a fork, pruning, recovery.  [RewindTheorems],
      [PruneLemmas], [PruneTheorems], [AtomicityTheorems] and
      [AnalyzerTheorems] show which tables a rewind restores and which it
      leaves, that pruning cannot be observed, that a block is stored as a whole
      or rolled back, and that the loop reaches the tip or the first block that
      cannot be indexed.
    - IPFS.  [IpfsQueue] is the job queue and its workers, [IpfsTheorems] the
      order of the jobs of one group in all interleavings, and what breaks it; [DigiByteDomain] is what arriving metadata does to the domains.
    - The pool server (src/pool/).  [Sql] has the statements of SQLite on lists
      of rows (also used by the chain database), [CString] the text functions.
      [StoragePlan] is StoragePlan.h and PayoutMath.h: who holds which file, and
      with what weight a node is paid ([StoragePlanTheorems]).  [PoolDatabase]
      is PoolDatabase.cpp: nodes, scores, storage challenges, permanent files
      and the payout ledger.  [PoolText] and [PoolServer] are PoolServer.cpp:
      the parsers, the handlers and the routing of a request.  [PoolPayout] is
      the payout of PoolDashboard.cpp with the request to Core; [PoolVerifier]
      a round of PoolVerifier.cpp; [PoolDiscovery] the directory of pools,
      gossip, and announcements in transactions.  The threads of the program
      (requests, verifier, dashboard, discovery) share the database; the
      interleavings are the relations [PoolTheorems.step] (challenges and
      registrations), [PoolPayoutTheorems.tick] (payouts, time and crashes) and
      [discovery_step] (the directory).  [PoolTheorems], [PoolPayoutTheorems]
      and [PoolDiscoveryTheorems] show that a registered payout address is
      guarded, a challenge is judged once, money leaves at most once per period
      whatever Core answers, and that what strangers send is bounded and
      harmless.
    - The wallet.  [AssetWallet] is AssetWallet.cpp: the coins that carry
      assets, the choice of inputs, amounts in text, funding through Core with
      its locks, signing and sending with its retries.  [WalletMethods] has the
      RPC methods that use it (sendasset, burnasset, sendmanyassets,
      reissueasset); they end in [TransactionBuilder] and so in the transfer
      engine.  [WalletAmounts] shows that amounts are read as they are printed,
      [WalletTheorems] that a send is not repeated once Core may have taken the
      transaction, never spends the
      assets of a coin that the fee is taken from, and gives its locks back,
      [SpendTheorems] that the chosen coins suffice and that the assets arrive
      where an indexer reads them.
    - The RPC server.  [ConfigFile] is Config.cpp with its text file
      ([ConfigTheorems]: settings survive a rewrite, and so do the comments).
      [RpcCache] is RPC/Response.cpp and RPC/Cache.cpp; [CacheTheorems] relates
      it to the history of additions and chain events.  [RpcServer] is
      RPC/Server.cpp from the bytes a client sends to the reply: headers,
      credentials, body, the list of methods, the cache, the handlers and Core
      as an interface ([RpcWorld]).  [RpcTheorems] shows that nothing is
      carried out without the credentials and the permission of the settings,
      [RequestTheorems] that a request is read the same in whatever pieces it
      arrives.

    - A node and its pool.  [PoolClient] is the node's side of a storage pool
      (src/src/PermanentStoragePool/): settings, prices, the walk over the
      permanent list, keepalives, the answer to a storage challenge and the
      list of bad assets.  [PoolClientTheorems] puts it together with
      [PoolServer]: a node that stores what it was given passes the challenge.

    A theorem that is one of the library's claims carries a comment with its
    number.  Beside them there are lemmas about behaviour that is not what the
    code means to do (a batch left open, a job handed out twice and the like);
    each says so in its comment.

    ** Conventions

    A C++ call ends in an [outcome]: a value, an exception, undefined behaviour,
    or [Fuel] when a bound of the model was too small.  A member function is a
    computation of [M S A] on the state [S] it changes; state changed before an
    exception stays changed.  Integers are [Z] with the reduction of their
    width written where the code can leave it ([u64], [u32], [i32], ...); a
    double is a [spec_float] of the Standard Library; a [std::string] is the
    list of its bytes in a [string].

    Fuel is needed only where the recursion is not structural.  Each bound is
    computed from the data and is proved to be enough: the decoders of the bit
    stream use the number of unread bits, the transfer engine the same, base 58
    the length of its input, a rewind the stored height, the block loop the list
    of the answers of the chain it meets, the searches in a text its length,
    the reading of a request the bytes and pieces that arrive, the eviction of
    the RPC cache its number of entries.  No
    theorem says only what holds if a call returns: [decoders_safe],
    [rules_decode_safe], [transfer_terminates], [rewind_finds_fork] and
    [sync_reaches_tip] state that it does.

    ** What is assumed

    SQLite statements succeed and do what SQL says; a table is the list of its
    rows in rowid order.  DigiByte Core, the IPFS node, other pools and the JSON
    reader are interfaces (the classes [Sqlite], [Kubo], [Swarm], [Web],
    [JsonReader], [ChainRpc], [CoreWallet], [JsonLib], [RpcWorld] and
    [PoolWorld], functions of a snapshot, or arguments of the steps), and what the theorems say holds for every instance; the clock is
    an argument where the code reads it.  A method that holds one lock for its
    whole body, or is one statement of SQLite, is one step; a pause of IPFS
    jobs, which is neither, is two; adding and removing an IPFS job are taken as
    one step each. Interleavings are sequences of such steps.

    ** What is not modelled

    The vendored libraries (sqlite3, jsonrpccpp, curl headers); sockets and
    thread pools, the HTTP client of Core and IPFS; the RPC methods that format
    one query each as JSON, and issueasset (its parameters are JSON; the issuance
    it builds and encodes is [TransactionBuilder]); console, log and the graphical interface; the pool's statistics page, geolocation and start;
    [DigiAssetRules::getVoteOptions] and the [toJSON] members (downloads and JSON); schema migrations of the database. *)

From Stdlib Require Export ZArith Lia Ascii.
From Stdlib Require String.
From stdpp Require Export base list list_numbers numbers gmap strings sets.

#[global] Open Scope Z_scope.

(** ** Outcomes of C++ code

    A C++ call ends normally, by an exception, or it has undefined behaviour
    (an out-of-range [operator[]], an over-wide shift).  [Fuel] is the outcome
    of a loop of the model whose bound was too small; the theorems show that
    it does not occur. *)
Inductive exn : Type :=
  | out_of_range (what : string)
  | invalid_argument (what : string)
  | length_error
  | class_exception (cls : string) (what : string).

Inductive outcome (A : Type) : Type :=
  | Ok (a : A)
  | Throw (e : exn)
  | UB
  | Fuel.
Arguments Ok {_} _.
Arguments Throw {_} _.
Arguments UB {_}.
Arguments Fuel {_}.

#[global] Instance exn_eq_dec : EqDecision exn.
Proof. solve_decision. Defined.

Definition is_ok {A} (o : outcome A) : bool :=
  match o with Ok _ => true | _ => false end.
Definition is_throw {A} (o : outcome A) : bool :=
  match o with Throw _ => true | _ => false end.

#[global] Instance outcome_ret : MRet outcome := fun A a => Ok a.
#[global] Instance outcome_bind : MBind outcome := fun A B f m =>
  match m with Ok a => f a | Throw e => Throw e | UB => UB | Fuel => Fuel end.

(** ** The state and exception monad

    A C++ exception does not roll the object back: the state reached when it
    was thrown is what a handler sees, so it is kept in every outcome. *)
Definition M (S A : Type) : Type := S -> outcome A * S.

#[global] Instance M_ret {S} : MRet (M S) := fun A a s => (Ok a, s).
#[global] Instance M_bind {S} : MBind (M S) := fun A B f m s =>
  match m s with
  | (Ok a, s') => f a s'
  | (Throw e, s') => (Throw e, s')
  | (UB, s') => (UB, s')
  | (Fuel, s') => (Fuel, s')
  end.

Definition get {S} : M S S := fun s => (Ok s, s).
Definition put {S} (s : S) : M S unit := fun _ => (Ok tt, s).
Definition modify {S} (f : S -> S) : M S unit := fun s => (Ok tt, f s).
Definition gets {S A} (f : S -> A) : M S A := fun s => (Ok (f s), s).
Definition throw {S A} (e : exn) : M S A := fun s => (Throw e, s).
Definition undefined {S A} : M S A := fun s => (UB, s).
Definition out_of_fuel {S A} : M S A := fun s => (Fuel, s).

(** [lift o]: a computation that does not touch the object. *)
Definition lift {S A} (o : outcome A) : M S A := fun s => (o, s).

(** [try m h]: [h] runs on the state the exception left behind. *)
Definition try_catch {S A} (m : M S A) (h : exn -> M S A) : M S A := fun s =>
  match m s with
  | (Throw e, s') => h e s'
  | r => r
  end.

Definition when {S} (b : bool) (m : M S unit) : M S unit :=
  if b then m else mret tt.

(** [exec m s]: run [m] on a local object and keep the object. *)
Definition exec {S A} (m : M S A) (s : S) : outcome S :=
  match m s with
  | (Ok _, s') => Ok s'
  | (Throw e, _) => Throw e
  | (UB, _) => UB
  | (Fuel, _) => Fuel
  end.

(** A range-based [for] loop over a container that the body does not change. *)
Fixpoint for_each {S A} (l : list A) (f : A -> M S unit) : M S unit :=
  match l with
  | [] => mret tt
  | x :: l => f x;; for_each l f
  end.

(** [vector::operator[]] with a [size_t] index. *)
Definition vec_at {S A} (l : list A) (i : Z) : M S A :=
  if 0 <=? i then
    match l !! Z.to_nat i with Some a => mret a | None => undefined end
  else undefined.

(** ** Unsigned machine integers *)
Definition two64 : Z := 18446744073709551616.
Definition two32 : Z := 4294967296.
Definition u64 (z : Z) : Z := z mod two64.
Definition u32 (z : Z) : Z := z mod two32.
Definition u16 (z : Z) : Z := z mod 65536.
Definition u8 (z : Z) : Z := z mod 256.
Definition shl64 (x n : Z) : Z := u64 (Z.shiftl x n).
Definition shr64 (x n : Z) : Z := Z.shiftr x n.
Definition not64 (x : Z) : Z := two64 - 1 - x.

(** [int32_t] conversion of a wider value (two's complement). *)
Definition i32 (z : Z) : Z := (z + 2147483648) mod two32 - 2147483648.

Lemma two64_pow : two64 = 2 ^ 64.
Proof. reflexivity. Qed.

Lemma u64_small z : 0 <= z < two64 -> u64 z = z.
Proof. apply Z.mod_small. Qed.
Lemma u64_range z : 0 <= u64 z < two64.
Proof. apply Z.mod_pos_bound. reflexivity. Qed.
Lemma u32_small z : 0 <= z < two32 -> u32 z = z.
Proof. apply Z.mod_small. Qed.
Lemma u32_range z : 0 <= u32 z < two32.
Proof. apply Z.mod_pos_bound. reflexivity. Qed.
Lemma i32_small z : - 2147483648 <= z < 2147483648 -> i32 z = z.
Proof. intros. unfold i32. rewrite Z.mod_small; unfold two32; lia. Qed.
Lemma u16_range z : 0 <= u16 z < 65536.
Proof. apply Z.mod_pos_bound. reflexivity. Qed.

Lemma testbit_u64 z i :
  0 <= i -> Z.testbit (u64 z) i = Z.testbit z i && (i <? 64).
Proof.
  intros Hi. unfold u64. rewrite two64_pow.
  destruct (Z.ltb_spec i 64).
  - rewrite Z.mod_pow2_bits_low by lia. by rewrite andb_true_r.
  - rewrite Z.mod_pow2_bits_high by lia. by rewrite andb_false_r.
Qed.

Lemma testbit_shl64 x n i :
  0 <= i -> Z.testbit (shl64 x n) i = Z.testbit x (i - n) && (i <? 64).
Proof. intros. unfold shl64. by rewrite testbit_u64, Z.shiftl_spec by lia. Qed.

Lemma testbit_shr64 x n i : 0 <= i -> Z.testbit (shr64 x n) i = Z.testbit x (i + n).
Proof. intros. unfold shr64. by rewrite Z.shiftr_spec by lia. Qed.

Lemma testbit_high x n i : 0 <= x < 2 ^ n -> n <= i -> Z.testbit x i = false.
Proof.
  intros [H0 H1] Hi.
  destruct (Z.lt_ge_cases n 0); [rewrite Z.pow_neg_r in H1; lia|].
  rewrite <- (Z.mod_small x (2 ^ n)) by lia.
  apply Z.mod_pow2_bits_high. lia.
Qed.

Lemma testbit_not64 x i :
  0 <= x < two64 -> 0 <= i ->
  Z.testbit (not64 x) i = negb (Z.testbit x i) && (i <? 64).
Proof.
  intros Hx Hi. unfold not64.
  replace (two64 - 1 - x) with (u64 (Z.lnot x)).
  - rewrite testbit_u64, Z.lnot_spec by lia. done.
  - unfold u64. replace (Z.lnot x) with (- x - 1) by (pose proof (Z.add_lnot_diag x); lia).
    symmetry. apply (Z.mod_unique_pos _ _ (-1)); lia.
Qed.

(** A word of [n] bits is determined by its low [n] bits. *)
Lemma bits_inj_bounded n x y :
  0 <= x < 2 ^ n -> 0 <= y < 2 ^ n ->
  (forall i, 0 <= i < n -> Z.testbit x i = Z.testbit y i) -> x = y.
Proof.
  intros Hx Hy H. apply Z.bits_inj'. intros i Hi.
  destruct (Z.lt_ge_cases i n); [by apply H|].
  by rewrite (testbit_high x n), (testbit_high y n) by lia.
Qed.

Lemma bits_bound x n :
  0 <= n -> 0 <= x -> (forall i, n <= i -> Z.testbit x i = false) -> x < 2 ^ n.
Proof.
  intros Hn Hx H.
  destruct (Z.eq_dec x 0) as [->|]; [lia|].
  destruct (Z.lt_ge_cases x (2 ^ n)) as [|Hge]; [done|].
  assert (n <= Z.log2 x) as Hl by (rewrite <- (Z.log2_pow2 n) by lia; by apply Z.log2_le_mono).
  specialize (H _ Hl). rewrite Z.bit_log2 in H by lia. done.
Qed.

Create Rewrite HintDb bits.
#[export] Hint Rewrite testbit_u64 testbit_shl64 testbit_shr64 Z.land_spec Z.lor_spec
  Z.lxor_spec Z.shiftr_spec Z.shiftl_spec Z.ldiff_spec using lia : bits.

(** ** Tabulated lists and big-endian bit strings

    [tab n f] is [f 0; ...; f (n-1)]; two tabulations are compared pointwise,
    which turns every statement about packed bits into one about a single
    bit. *)
Definition tab {A} (n : Z) (f : Z -> A) : list A := f <$> seqZ 0 n.

(** The [n] low bits of [v], most significant first. *)
Definition Zbits (n v : Z) : list bool := tab n (fun j => Z.testbit v (n - 1 - j)).

(** The number a bit string denotes, most significant bit first. *)
Definition bitsZ (l : list bool) : Z := foldl (fun acc b => 2 * acc + Z.b2z b) 0 l.

Section tab.
Context {A : Type}.
Implicit Types (f g : Z -> A) (n m : Z).

Lemma length_tab n f : length (tab n f) = Z.to_nat n.
Proof. unfold tab. by rewrite length_fmap, length_seqZ. Qed.

Lemma lookup_tab n f i :
  tab n f !! i = if decide (Z.of_nat i < n) then Some (f (Z.of_nat i)) else None.
Proof.
  unfold tab. rewrite list_lookup_fmap.
  case_decide.
  - rewrite lookup_seqZ_lt by lia. done.
  - rewrite lookup_seqZ_ge by lia. done.
Qed.

Lemma tab_ext n f g : (forall i, 0 <= i < n -> f i = g i) -> tab n f = tab n g.
Proof.
  intros H. apply list_eq. intros i. rewrite !lookup_tab.
  case_decide; [|done]. by rewrite H by lia.
Qed.

Lemma tab_app n m f :
  0 <= n -> 0 <= m -> tab (n + m) f = tab n f ++ tab m (fun i => f (n + i)).
Proof.
  intros Hn Hm. apply list_eq. intros i.
  destruct (decide (Z.of_nat i < n)).
  - rewrite lookup_app_l by (rewrite length_tab; lia).
    rewrite !lookup_tab. repeat case_decide; done || lia.
  - rewrite lookup_app_r by (rewrite length_tab; lia).
    rewrite length_tab, !lookup_tab. repeat case_decide; try (done || lia).
    f_equal. f_equal. lia.
Qed.

Lemma tab_nil n f : n <= 0 -> tab n f = [].
Proof. intros. apply nil_length_inv. rewrite length_tab. lia. Qed.

Lemma take_tab n m f : 0 <= m <= n -> take (Z.to_nat m) (tab n f) = tab m f.
Proof.
  intros H. replace n with (m + (n - m)) by lia.
  rewrite tab_app, take_app_length' by (rewrite ?length_tab; lia). done.
Qed.

Lemma drop_tab n m f :
  0 <= m <= n -> drop (Z.to_nat m) (tab n f) = tab (n - m) (fun i => f (m + i)).
Proof.
  intros H. replace n with (m + (n - m)) at 1 by lia.
  rewrite tab_app, drop_app_length' by (rewrite ?length_tab; lia). done.
Qed.
End tab.

Lemma length_Zbits n v : length (Zbits n v) = Z.to_nat n.
Proof. apply length_tab. Qed.

Lemma Zbits_app n m v :
  0 <= n -> 0 <= m -> Zbits (n + m) v = Zbits n (Z.shiftr v m) ++ Zbits m v.
Proof.
  intros. unfold Zbits. rewrite tab_app by lia.
  f_equal; apply tab_ext; intros i Hi.
  - rewrite Z.shiftr_spec by lia. f_equal. lia.
  - f_equal. lia.
Qed.

Lemma Zbits_S n v : 0 <= n -> Zbits (n + 1) v = Zbits n (Z.shiftr v 1) ++ [Z.testbit v 0].
Proof. intros. rewrite Zbits_app by lia. done. Qed.

Lemma bitsZ_snoc l b : bitsZ (l ++ [b]) = 2 * bitsZ l + Z.b2z b.
Proof. unfold bitsZ. by rewrite foldl_app. Qed.

Lemma bitsZ_range l : 0 <= bitsZ l < 2 ^ Z.of_nat (length l).
Proof.
  induction l as [|b l IH] using rev_ind; [done|].
  rewrite bitsZ_snoc, length_app. simpl.
  rewrite Nat2Z.inj_add, Z.pow_add_r by lia. change (2 ^ Z.of_nat 1) with 2.
  destruct b; simpl; lia.
Qed.

Lemma bitsZ_Zbits n v : 0 <= v < 2 ^ n -> bitsZ (Zbits n v) = v.
Proof.
  intros Hv. destruct (Z.lt_ge_cases n 0); [rewrite Z.pow_neg_r in Hv; lia|].
  revert v Hv. pattern n. apply natlike_ind; [..|done]; clear n H.
  - intros v Hv. assert (v = 0) as -> by (simpl in Hv; lia). done.
  - intros n Hn IH v Hv. unfold Z.succ in *. rewrite Zbits_S, bitsZ_snoc by lia.
    rewrite Z.pow_add_r in Hv by lia.
    rewrite IH.
    + rewrite Z.bit0_odd, <- Z.div2_spec. symmetry. apply Z.div2_odd.
    + rewrite Z.shiftr_div_pow2 by lia. change (2 ^ 1) with 2 in *.
      split; [apply Z.div_pos; lia | apply Z.div_lt_upper_bound; lia].
Qed.

Lemma bitsZ_div2 l b : Z.shiftr (bitsZ (l ++ [b])) 1 = bitsZ l.
Proof.
  rewrite bitsZ_snoc, Z.shiftr_div_pow2 by lia. change (2 ^ 1) with 2.
  symmetry. apply (Z.div_unique _ _ _ (Z.b2z b)); destruct b; simpl; lia.
Qed.

Lemma Zbits_bitsZ l : Zbits (Z.of_nat (length l)) (bitsZ l) = l.
Proof.
  induction l as [|b l IH] using rev_ind; [done|].
  rewrite length_app, Nat2Z.inj_add. change (Z.of_nat (length [b])) with 1.
  rewrite Zbits_S, bitsZ_div2, IH by lia. f_equal. f_equal.
  rewrite bitsZ_snoc, Z.bit0_odd, Z.odd_add, Z.odd_mul. by destruct b.
Qed.

(** The bridge from single bits to numbers. *)
Lemma bitsZ_tab n f r :
  0 <= n -> 0 <= r < 2 ^ n ->
  (forall j, 0 <= j < n -> Z.testbit r j = f (n - 1 - j)) -> bitsZ (tab n f) = r.
Proof.
  intros Hn Hr H. rewrite <- (bitsZ_Zbits n r) by done. f_equal.
  apply tab_ext. intros i Hi. rewrite H by lia. f_equal. lia.
Qed.

Lemma bitsZ_app l k : bitsZ (l ++ k) = bitsZ l * 2 ^ Z.of_nat (length k) + bitsZ k.
Proof.
  induction k as [|b k IH] using rev_ind.
  - rewrite app_nil_r. simpl. unfold bitsZ at 3. simpl. lia.
  - rewrite app_assoc, !bitsZ_snoc, IH, length_app, Nat2Z.inj_add, Z.pow_add_r by lia.
    change (2 ^ Z.of_nat (length [b])) with 2. lia.
Qed.

(** Rewrite with an equation whose left-hand side occurs up to conversion,
    as an application of the same head function. *)
Ltac rewrite_conv f H :=
  match type of H with
  | _ = ?rhs =>
      match goal with
      | |- context [f ?a ?b ?c ?d] => replace (f a b c d) with rhs by (symmetry; exact H)
      | |- context [f ?a ?b ?c] => replace (f a b c) with rhs by (symmetry; exact H)
      | |- context [f ?a ?b] => replace (f a b) with rhs by (symmetry; exact H)
      | |- context [f ?a] => replace (f a) with rhs by (symmetry; exact H)
      end
  end.

(** ** Stepping through monadic code *)
Section steps.
Context {S A B : Type}.
Implicit Types (m : M S A) (f : A -> M S B) (s : S).

Lemma bind_ok m f s a s' : m s = (Ok a, s') -> (m ≫= f) s = f a s'.
Proof. intros H. unfold mbind, M_bind. by rewrite H. Qed.

Lemma bind_throw m f s e s' : m s = (Throw e, s') -> (m ≫= f) s = (Throw e, s').
Proof. intros H. unfold mbind, M_bind. by rewrite H. Qed.

Lemma bind_ub m f s s' : m s = (UB, s') -> (m ≫= f) s = (UB, s').
Proof. intros H. unfold mbind, M_bind. by rewrite H. Qed.

(** A run that ends normally went through its first computation. *)
Lemma bind_ok_inv m f s b s' :
  (m ≫= f) s = (Ok b, s') -> exists a s1, m s = (Ok a, s1) /\ f a s1 = (Ok b, s').
Proof.
  unfold mbind, M_bind. destruct (m s) as [[a| | |] s1]; try done. eauto.
Qed.
End steps.

(** One step of a run whose first computation ends as [H] says. *)
Tactic Notation "step" uconstr(H) := rewrite (bind_ok _ _ _ _ _ H); cbn beta.
Tactic Notation "step_by" tactic3(tac) := erewrite bind_ok by tac; cbn beta.

(** ** What a computation leaves alone

    [m] keeps the part [k] of the state, however it ends. *)
Section keeps.
Context {S K : Type} (k : S -> K).
Implicit Types (s : S).

Definition keeps {A} (m : M S A) : Prop := forall s, k (snd (m s)) = k s.

Lemma keeps_pure {A} (m : M S A) : (forall s, snd (m s) = s) -> keeps m.
Proof. intros H s. by rewrite H. Qed.
Lemma keeps_ret {A} (a : A) : keeps (mret a).
Proof. done. Qed.
Lemma keeps_throw {A} e : keeps (throw (A := A) e).
Proof. done. Qed.
Lemma keeps_undefined {A} : keeps (undefined (A := A)).
Proof. done. Qed.
Lemma keeps_lift {A} (o : outcome A) : keeps (lift o).
Proof. done. Qed.
Lemma keeps_get : keeps get.
Proof. done. Qed.
Lemma keeps_gets {A} (f : S -> A) : keeps (gets f).
Proof. done. Qed.
Lemma keeps_vec_at {A} (l : list A) i : keeps (vec_at l i).
Proof. intros s. unfold vec_at. by repeat case_match. Qed.
Lemma keeps_modify f : (forall s, k (f s) = k s) -> keeps (modify f).
Proof. intros H s. apply H. Qed.

Lemma keeps_bind {A B} (m : M S A) (f : A -> M S B) : keeps m -> (forall a, keeps (f a)) -> keeps (m ≫= f).
Proof.
  intros Hm Hf s. unfold mbind, M_bind. specialize (Hm s). destruct (m s) as [[a| | |] s']; cbn in *; [by rewrite Hf|done..].
Qed.

Lemma keeps_when b (m : M S unit) : keeps m -> keeps (when b m).
Proof. intros Hm. by destruct b. Qed.

Lemma keeps_try_catch {A} (m : M S A) h : keeps m -> (forall e, keeps (h e)) -> keeps (try_catch m h).
Proof.
  intros Hm Hh s. unfold try_catch. specialize (Hm s). destruct (m s) as [[a| | |] s']; cbn in *; [done| |done..].
  by rewrite Hh.
Qed.

Lemma keeps_for_each {A} (l : list A) (f : A -> M S unit) : (forall x, keeps (f x)) -> keeps (for_each l f).
Proof. intros Hf. induction l as [|x l IH]; cbn [for_each]; [apply keeps_ret|]. by apply keeps_bind. Qed.
End keeps.

Create HintDb keeps.
#[export] Hint Resolve keeps_ret keeps_throw keeps_undefined keeps_lift keeps_get keeps_gets keeps_vec_at : keeps.

(** Splits a computation into its statements. *)
Ltac keeps_step :=
  match goal with
  | |- keeps _ (mbind _ _) => apply keeps_bind; [|intros ?]
  | |- keeps _ (for_each _ _) => apply keeps_for_each; intros ?
  | |- keeps _ (when _ _) => apply keeps_when
  | |- keeps _ (try_catch _ _) => apply keeps_try_catch; [|intros ?]
  | |- keeps _ (modify _) => apply keeps_modify; done
  | |- keeps _ (match ?x with _ => _ end) => destruct x
  | |- keeps _ _ => solve [auto with keeps]
  end.
Ltac keeps_all := repeat (cbv beta zeta; keeps_step).
