(* ===== verification/BitIO.v ===== *)
(** BitIO: the random-access bit stream of src/src/BitIO.cpp.

    This file holds the object (a vector of 64-bit words, a cursor and a bit
    count), its word-level operations as the code performs them (masks, shifts
    and the two-word split), the invariant that ties the word vector to the bit
    count, and the abstract view [abs] of the object as a list of bits. *)

From S2P Require Import Prelude.

Ltac Zify.zify_post_hook ::= Z.div_mod_to_equations.

(** ** The object *)
Record BitIO := mkBitIO {
  _bits : list Z;
  _position : Z;
  _length : Z
}.

Definition BITIO_SIZEOF_LONG : Z := 64.
Definition BITIO_FILL_ZEROS : Z := 0.
Definition BITIO_FILL_ONES : Z := 1.
Definition BITIO_FILL_RANDOM : Z := 2.

Definition empty_BitIO : BitIO := mkBitIO [] 0 0.

Definition set_bits (l : list Z) (b : BitIO) : BitIO :=
  mkBitIO l (_position b) (_length b).
Definition set_position (p : Z) (b : BitIO) : BitIO :=
  mkBitIO (_bits b) p (_length b).
Definition set_length (n : Z) (b : BitIO) : BitIO :=
  mkBitIO (_bits b) (_position b) n.

(** ** Masks *)
Definition makeRightMask (length : Z) : Z :=
  if length =? 64 then 18446744073709551615 else u64 (shl64 1 length - 1).
Definition makeCenterMask (length shiftLeft : Z) : Z :=
  shl64 (makeRightMask length) shiftLeft.
Definition makeLeftMask (length : Z) : Z :=
  not64 (makeRightMask (BITIO_SIZEOF_LONG - length)).

(** ** Positions *)
Definition getLongIndex (b : BitIO) : Z := _position b / BITIO_SIZEOF_LONG.
Definition getBitIndex (b : BitIO) : Z := _position b mod BITIO_SIZEOF_LONG.
(** [_bits.size() - 1] wraps for an empty vector only. *)
Definition getEndLongIndex (b : BitIO) : Z :=
  match _bits b with [] => two64 - 1 | _ => Z.of_nat (length (_bits b)) - 1 end.
Definition getEndBitIndex (b : BitIO) : Z := _length b mod BITIO_SIZEOF_LONG.
Definition getPosition (b : BitIO) : Z := _position b.
Definition getLength (b : BitIO) : Z := _length b.
Definition getNumberOfBitLeft (b : BitIO) : Z := u64 (_length b - _position b).

(** [vector::resize]: truncates, or grows with value-initialised words. *)
Definition resize_words (n : Z) (l : list Z) : list Z := resize (Z.to_nat n) 0 l.
Definition resizeIfNeeded : M BitIO unit :=
  modify (fun b =>
    let newLongLength :=
      _length b / BITIO_SIZEOF_LONG
      + (if _length b mod BITIO_SIZEOF_LONG =? 0 then 0 else 1) in
    set_bits (resize_words newLongLength (_bits b)) b).

(** ** Error checking *)
Definition checkLength {S} (length max : Z) : M S unit :=
  if length =? 0 then throw (out_of_range "length can not be zero")
  else if max <? length then throw (out_of_range "length must be smaller than data type")
  else mret tt.

(** [1 << length] is undefined for a shift wider than the word. *)
Definition checkValueSize {S} (value length : Z) : M S unit :=
  if length =? 0 then throw (out_of_range "value must be smaller than length bits")
  else if length =? BITIO_SIZEOF_LONG then mret tt
  else if BITIO_SIZEOF_LONG <? length then undefined
  else if shl64 1 length <=? value
    then throw (out_of_range "value must be smaller than length bits")
  else mret tt.

Definition invalidLength {S A} : M S A := throw (out_of_range "invalid length provided").
Definition invalidCharacter {S A} : M S A :=
  throw (out_of_range "invalid character for encoding method").
Definition invalidOpCode {S A} : M S A :=
  throw (out_of_range "invalid op_return data length header").
Definition invalidEncoder {S A} : M S A :=
  throw (out_of_range "invalid encoder selected").

Definition checkAvailableBits (length : Z) : M BitIO unit :=
  b ← get;
  if _length b <? u64 (_position b + length)
  then throw (out_of_range "not enough bits left") else mret tt.

(** The [int64_t] and the [uint64_t] overload test the same two bounds. *)
Definition checkValueRange {S} (value min max : Z) : M S unit :=
  if value <? min then throw (out_of_range "value is to small")
  else if max <? value then throw (out_of_range "value is to large")
  else mret tt.

Definition checkPosition (position : Z) : M BitIO unit :=
  b ← get;
  if _length b <? position
  then throw (out_of_range "position must be inside the data") else mret tt.

(** ** Cursor movement *)
Definition movePositionTo (bitIndex : Z) : M BitIO unit :=
  checkPosition bitIndex;; modify (set_position bitIndex).
Definition movePositionBy (amount : Z) : M BitIO unit :=
  b ← get; movePositionTo (u64 (_position b + amount)).
Definition movePositionToBeginning : M BitIO unit := modify (set_position 0).
Definition movePositionToEnd : M BitIO unit :=
  modify (fun b => set_position (_length b) b).

(** ** Reading *)
Definition getBits (length : Z) : M BitIO Z :=
  checkLength length BITIO_SIZEOF_LONG;;
  checkAvailableBits length;;
  b ← get;
  let lI := getLongIndex b in
  let numberOfBitsLeftInLong := BITIO_SIZEOF_LONG - getBitIndex b in
  put (set_position (_position b + length) b);;
  let captureLength := Z.min numberOfBitsLeftInLong length in
  let shift := numberOfBitsLeftInLong - captureLength in
  w ← vec_at (_bits b) lI;
  let result := Z.land (shr64 w shift) (makeRightMask captureLength) in
  if captureLength =? length then mret result
  else
    let captureLength := length - captureLength in
    let result := shl64 result captureLength in
    let shift := BITIO_SIZEOF_LONG - captureLength in
    w ← vec_at (_bits b) (lI + 1);
    mret (Z.lor result (shr64 w shift)).

Definition checkBits (value length : Z) : M BitIO bool :=
  left ← gets getNumberOfBitLeft;
  if left <? length then mret false
  else
    nextBits ← getBits length;
    modify (fun b => set_position (_position b - length) b);;
    mret (nextBits =? value).

(** ** Writing *)

(** [_bits[i] = w] on an existing element; anything else is undefined. *)
Definition write_word (i w : Z) : M BitIO unit :=
  b ← get;
  if (0 <=? i) && (i <? Z.of_nat (length (_bits b)))
  then put (set_bits (<[Z.to_nat i := w]> (_bits b)) b)
  else undefined.

Definition push_word (w : Z) : M BitIO unit :=
  modify (fun b => set_bits (_bits b ++ [w]) b).

(** [if (_bits.size() == i) _bits.push_back(0);] *)
Definition push_if_full (i : Z) : M BitIO unit :=
  b ← get;
  when (Z.of_nat (length (_bits b)) =? i) (push_word 0).

(** [_bits[i] = f(_bits[i])] *)
Definition update_word (i : Z) (f : Z -> Z) : M BitIO unit :=
  b ← get; w ← vec_at (_bits b) i; write_word i (f w).

Definition setBits (value length : Z) : M BitIO unit :=
  checkLength length BITIO_SIZEOF_LONG;;
  checkValueSize value length;;
  b ← get;
  let lI := getLongIndex b in
  let numberOfBitsLeftInLong := BITIO_SIZEOF_LONG - getBitIndex b in
  put (mkBitIO (_bits b) (_position b + length) (Z.max (_length b) (_position b + length)));;
  if (numberOfBitsLeftInLong =? BITIO_SIZEOF_LONG) && (length =? BITIO_SIZEOF_LONG)
  then write_word lI value
  else
    push_if_full lI;;
    let setLength := Z.min numberOfBitsLeftInLong length in
    let mask := not64 (makeCenterMask setLength (numberOfBitsLeftInLong - setLength)) in
    let valueShifted :=
      if setLength =? length then shl64 value (numberOfBitsLeftInLong - setLength)
      else shr64 value (length - setLength) in
    update_word lI (fun w => Z.lor (Z.land w mask) valueShifted);;
    if setLength =? length then mret tt
    else
      push_if_full (lI + 1);;
      let setLength := length - setLength in
      let mask := not64 (makeCenterMask setLength (BITIO_SIZEOF_LONG - setLength)) in
      update_word (lI + 1) (fun w =>
        Z.lor (Z.land w mask) (shl64 value (BITIO_SIZEOF_LONG - setLength))).

Definition appendBits (value length : Z) : M BitIO unit :=
  checkLength length BITIO_SIZEOF_LONG;;
  checkValueSize value length;;
  b ← get;
  let lI := getEndLongIndex b in
  let numberOfBitsLeftInLong := BITIO_SIZEOF_LONG - getEndBitIndex b in
  put (set_length (_length b + length) b);;
  if numberOfBitsLeftInLong =? BITIO_SIZEOF_LONG
  then push_word (shl64 value (BITIO_SIZEOF_LONG - length))
  else if length <=? numberOfBitsLeftInLong
  then update_word lI (fun w => Z.lor w (shl64 value (numberOfBitsLeftInLong - length)))
  else
    update_word lI (fun w => Z.lor w (shr64 value (length - numberOfBitsLeftInLong)));;
    push_word (shl64 value (BITIO_SIZEOF_LONG - (length - numberOfBitsLeftInLong))).

Definition appendZeros (count : Z) : M BitIO unit :=
  modify (fun b => set_length (u64 (_length b + count)) b);; resizeIfNeeded.

(** ** Inserting

    The words from the cursor on are shifted back, from the last word down to
    the one after the cursor's; the cursor's word is rebuilt from the part left
    of the cursor and the part that moved. *)
Definition words_down (first last : Z) : list Z := rev (seqZ first (last - first + 1)).

Definition shift_words_back (lIEnd length : Z) : M BitIO unit :=
  b ← get;
  for_each (words_down (lIEnd + 1) (getEndLongIndex b)) (fun lI =>
    b ← get;
    w ← vec_at (_bits b) lI;
    w1 ← vec_at (_bits b) (lI - 1);
    write_word lI (Z.lor (shr64 w length) (shl64 w1 (BITIO_SIZEOF_LONG - length)))).

Definition move_words_back (lIEnd offsetAmount : Z) : M BitIO unit :=
  b ← get;
  for_each (words_down (lIEnd + offsetAmount) (getEndLongIndex b)) (fun lI =>
    b ← get;
    w ← vec_at (_bits b) (lI - offsetAmount);
    write_word lI w).

Definition notMovingPart (bI w : Z) : Z :=
  if bI =? 0 then 0 else Z.land w (makeLeftMask bI).

Definition insertBits (value length : Z) : M BitIO unit :=
  checkValueSize value length;;
  modify (fun b => set_length (_length b + length) b);;
  resizeIfNeeded;;
  lIEnd ← gets getLongIndex;
  (if length =? BITIO_SIZEOF_LONG then move_words_back lIEnd 1
   else
     shift_words_back lIEnd length;;
     bI ← gets getBitIndex;
     update_word lIEnd (fun w =>
       let movedPart :=
         if BITIO_SIZEOF_LONG - bI <? length then 0
         else Z.land (shr64 w length) (makeRightMask (BITIO_SIZEOF_LONG - bI - length)) in
       Z.lor (notMovingPart bI w) movedPart));;
  setBits value length.

(** ** Operations on two objects

    [fst] is [*this], [snd] the argument; the argument's cursor is used for
    reading and put back at the end. *)
Definition on_this {A} (m : M BitIO A) : M (BitIO * BitIO) A := fun s =>
  let '(o, b) := m s.1 in (o, (b, s.2)).
Definition on_value {A} (m : M BitIO A) : M (BitIO * BitIO) A := fun s =>
  let '(o, v) := m s.2 in (o, (s.1, v)).

(** [while (size_t remaining = value.getNumberOfBitLeft())]: every turn moves a
    block of at most a word from the argument to [*this]. *)
Fixpoint copy_blocks (fuel : nat) (store : Z -> Z -> M BitIO unit) (length : Z)
    : M (BitIO * BitIO) unit :=
  match fuel with
  | O => out_of_fuel
  | S fuel =>
      remaining ← on_value (gets getNumberOfBitLeft);
      if remaining =? 0 then mret tt
      else
        let length := Z.min remaining length in
        block ← on_value (getBits length);
        on_this (store block length);;
        copy_blocks fuel store BITIO_SIZEOF_LONG
  end.
Definition block_fuel (value : BitIO) : nat := S (S (S (Z.to_nat (_length value / 64)))).

Definition setBits_BitIO : M (BitIO * BitIO) unit :=
  valuePointerStartPosition ← on_value (gets getPosition);
  b ← on_this get; value ← on_value get;
  let minLength := _position b + _length value in
  when (_length b <? minLength)
    (on_this (modify (set_length minLength);; resizeIfNeeded));;
  on_value (movePositionTo 0);;
  b ← on_this get;
  copy_blocks (block_fuel value) setBits (BITIO_SIZEOF_LONG - getEndBitIndex b);;
  on_value (movePositionTo valuePointerStartPosition).

Definition appendBits_BitIO : M (BitIO * BitIO) unit :=
  valuePointerStartPosition ← on_value (gets getPosition);
  on_value (movePositionTo 0);;
  b ← on_this get; value ← on_value get;
  copy_blocks (block_fuel value) appendBits (BITIO_SIZEOF_LONG - getEndBitIndex b);;
  on_value (movePositionTo valuePointerStartPosition).

(** The leftover bits after the whole-word move: shift the words behind the
    cursor's, then rebuild the one or two words around the gap. *)
Definition open_partial_word (lIEnd offsetAmount length : Z) : M BitIO unit :=
  shift_words_back lIEnd length;;
  bI ← gets getBitIndex;
  let moved w :=
    if BITIO_SIZEOF_LONG <? bI + length then 0
    else Z.land (shr64 w length) (makeRightMask (BITIO_SIZEOF_LONG - (bI + length))) in
  if offsetAmount =? 0
  then update_word lIEnd (fun w => Z.lor (notMovingPart bI w) (moved w))
  else
    b ← get;
    w ← vec_at (_bits b) lIEnd;
    write_word (lIEnd - offsetAmount) (notMovingPart bI w);;
    update_word lIEnd moved.

Definition insertBits_BitIO : M (BitIO * BitIO) unit :=
  valuePointerStartPosition ← on_value (gets getPosition);
  on_value (movePositionTo 0);;
  value ← on_value get;
  on_this (modify (fun b => set_length (_length b + _length value) b));;
  on_this resizeIfNeeded;;
  lIEnd ← on_this (gets getLongIndex);
  let offsetAmount := _length value / BITIO_SIZEOF_LONG in
  on_this (when (0 <? offsetAmount) (move_words_back lIEnd offsetAmount));;
  on_this (when (negb (_length value mod BITIO_SIZEOF_LONG =? 0))
    (open_partial_word (lIEnd + offsetAmount) offsetAmount
       (_length value mod BITIO_SIZEOF_LONG)));;
  setBits_BitIO;;
  on_value (movePositionTo valuePointerStartPosition).

(** A call that passes a local object by reference and drops it afterwards. *)
Definition with_value (value : BitIO) (m : M (BitIO * BitIO) unit) : M BitIO unit :=
  fun b => let '(o, s) := m (b, value) in (o, s.1).

(** ** Copying and padding *)
Fixpoint copy_loop (fuel : nat) (length copyLength : Z) : M (BitIO * BitIO) unit :=
  match fuel with
  | O => out_of_fuel
  | S fuel =>
      if length =? 0 then mret tt
      else
        let copyLength := if length <? BITIO_SIZEOF_LONG then length else copyLength in
        block ← on_this (getBits copyLength);
        on_value (appendBits block copyLength);;
        copy_loop fuel (length - copyLength) copyLength
  end.

(** The local [result] is the second object of the loop.  A request that is
    longer than the stream fails after at most [_length] bits. *)
Definition copyBits (length : Z) : M BitIO BitIO := fun b =>
  match copy_loop (S (S (Z.to_nat (Z.min length (_length b) / 64)))) length
          BITIO_SIZEOF_LONG (b, empty_BitIO) with
  | (Ok _, (b', result)) => (Ok result, b')
  | (Throw e, (b', _)) => (Throw e, b')
  | (UB, (b', _)) => (UB, b')
  | (Fuel, (b', _)) => (Fuel, b')
  end.

(** [rand k] is the [k]-th draw of [getRandomLong] in the call. *)
Fixpoint pad_words (fuel : nat) (rand : Z -> Z) (fillStyle lI neededExtraBits draw fillMask : Z)
    : M BitIO unit :=
  match fuel with
  | O => out_of_fuel
  | S fuel =>
      if neededExtraBits =? 0 then mret tt
      else
        let lI := lI + 1 in
        let fillMask := if fillStyle =? BITIO_FILL_RANDOM then rand draw else fillMask in
        if BITIO_SIZEOF_LONG <=? neededExtraBits
        then
          write_word lI fillMask;;
          pad_words fuel rand fillStyle lI (neededExtraBits - BITIO_SIZEOF_LONG)
            (draw + 1) fillMask
        else
          write_word lI (Z.land (makeLeftMask neededExtraBits) fillMask);;
          pad_words fuel rand fillStyle lI 0 (draw + 1) fillMask
  end.

Definition padWidth (rand : Z -> Z) (multiple fillStyle : Z) : M BitIO unit :=
  if multiple <=? 1 then mret tt
  else
    len ← gets getLength;
    let bitsPastMultiple := len mod multiple in
    if bitsPastMultiple =? 0 then mret tt
    else
      let neededExtraBits := multiple - bitsPastMultiple in
      modify (set_length (len + neededExtraBits));;
      resizeIfNeeded;;
      if fillStyle =? BITIO_FILL_ZEROS then mret tt
      else
        let fillMask :=
          if fillStyle =? BITIO_FILL_RANDOM then rand 0 else 18446744073709551615 in
        let position := len in
        let lI := position / BITIO_SIZEOF_LONG in
        let bitsLeftInLong := BITIO_SIZEOF_LONG - position mod BITIO_SIZEOF_LONG in
        let bitsToChange := Z.min neededExtraBits bitsLeftInLong in
        update_word lI (fun w =>
          Z.lor w (Z.land (makeCenterMask bitsToChange (bitsLeftInLong - bitsToChange)) fillMask));;
        pad_words (S (S (Z.to_nat (neededExtraBits / 64)))) rand fillStyle lI
          (neededExtraBits - bitsToChange) 1 fillMask.

(** ** Construction from bytes *)
Fixpoint load_bytes (data : list Z) (temp offset : Z) (bits : list Z) : list Z :=
  match data with
  | [] => if offset =? BITIO_SIZEOF_LONG then bits else bits ++ [temp]
  | BI :: data =>
      let offset := offset - 8 in
      let temp := Z.lor temp (shl64 BI offset) in
      if offset =? 0 then load_bytes data 0 BITIO_SIZEOF_LONG (bits ++ [temp])
      else load_bytes data temp offset bits
  end.

Definition BitIO_of_bytes (data : list Z) (length : Z) : outcome BitIO :=
  let size := Z.of_nat (List.length data) in
  (if length =? 0 then mret (8 * size)
   else if length mod 8 =? 0
     then if size =? length / 8 then mret length
          else Throw (out_of_range "incorrect length provided")
     else
       match last data with
       | None => UB
       | Some back =>
           if 0 <? Z.land back (makeRightMask (8 - length mod 8))
           then Throw (out_of_range "invalid length provided")
           else if size =? length / 8 + 1 then mret length
           else Throw (out_of_range "incorrect length provided")
       end) ≫= fun len => Ok (mkBitIO (load_bytes data 0 BITIO_SIZEOF_LONG []) 0 len).

(** ** Representation invariant and abstract view *)
Definition bitOf (l : list Z) (i : Z) : bool :=
  Z.testbit (default 0 (l !! Z.to_nat (i / 64))) (63 - i mod 64).
Definition bitAt (b : BitIO) (i : Z) : bool := bitOf (_bits b) i.

(** The bits of the stream, first bit first, and the ones not yet read. *)
Definition abs (b : BitIO) : list bool := tab (_length b) (bitAt b).
Definition rest (b : BitIO) : list bool := drop (Z.to_nat (_position b)) (abs b).

Record wf (b : BitIO) : Prop := {
  wf_position : 0 <= _position b <= _length b;
  wf_size : Z.of_nat (length (_bits b)) = (_length b + 63) / 64;
  wf_words : Forall (fun w => 0 <= w < two64) (_bits b);
  wf_padding : forall i, _length b <= i -> bitAt b i = false
}.

(** The bit count leaves room for one more word below [SIZE_MAX]. *)
Definition fits (b : BitIO) : Prop := _length b < two64 - 64.

Create HintDb bitio.

(** ** Words and bits *)
Lemma bitOf_insert l k w i :
  0 <= i -> 0 <= k < Z.of_nat (length l) ->
  bitOf (<[Z.to_nat k := w]> l) i =
    if decide (i / 64 = k) then Z.testbit w (63 - i mod 64) else bitOf l i.
Proof.
  intros Hi Hk. unfold bitOf. case_decide as E.
  - rewrite E, list_lookup_insert_eq by lia. done.
  - rewrite list_lookup_insert_ne; [done|]. intros Heq. apply E. lia.
Qed.

Lemma bitOf_snoc l w i :
  0 <= i ->
  bitOf (l ++ [w]) i =
    if decide (i / 64 = Z.of_nat (length l)) then Z.testbit w (63 - i mod 64) else bitOf l i.
Proof.
  intros Hi. unfold bitOf. case_decide as E.
  - rewrite lookup_app_r by lia.
    replace (Z.to_nat (i / 64) - length l)%nat with 0%nat by lia. done.
  - destruct (Z.lt_ge_cases (i / 64) (Z.of_nat (length l))).
    + rewrite lookup_app_l by lia. done.
    + rewrite !lookup_ge_None_2 by (rewrite ?length_app; simpl; lia). done.
Qed.

Lemma bitOf_beyond l i : 0 <= i -> Z.of_nat (length l) <= i / 64 -> bitOf l i = false.
Proof.
  intros Hi Hl. unfold bitOf. rewrite lookup_ge_None_2 by lia. apply Z.testbit_0_l.
Qed.

Lemma bitOf_resize l n i :
  0 <= i -> Z.of_nat (length l) <= n -> bitOf (resize_words n l) i = bitOf l i.
Proof.
  intros Hi Hn. unfold bitOf, resize_words. rewrite resize_ge by lia.
  destruct (Z.lt_ge_cases (i / 64) (Z.of_nat (length l))).
  - rewrite lookup_app_l by lia. done.
  - rewrite lookup_app_r by lia. rewrite (lookup_ge_None_2 l) by lia.
    destruct (_ !! _) eqn:E; [|done]. apply lookup_replicate in E as [-> _]. done.
Qed.

Lemma wf_word b k w : wf b -> _bits b !! k = Some w -> 0 <= w < two64.
Proof. intros H E. eapply (Forall_lookup_1 _ _ _ _ (wf_words b H)); eauto. Qed.

Lemma word_lookup l k :
  0 <= k < Z.of_nat (length l) -> l !! Z.to_nat k = Some (default 0 (l !! Z.to_nat k)).
Proof.
  intros Hk. destruct (l !! Z.to_nat k) eqn:E; [done|].
  apply lookup_ge_None in E. lia.
Qed.

Lemma bitOf_word l k j :
  0 <= k -> 0 <= j < 64 -> Z.testbit (default 0 (l !! Z.to_nat k)) j = bitOf l (64 * k + 63 - j).
Proof.
  intros. unfold bitOf. replace ((64 * k + 63 - j) / 64) with k by lia. f_equal. lia.
Qed.

Lemma default_word_range b k : wf b -> 0 <= default 0 (_bits b !! k) < two64.
Proof.
  intros H. destruct (_bits b !! k) eqn:E; simpl; [by eapply wf_word|]. unfold two64; lia.
Qed.

Lemma length_abs b : length (abs b) = Z.to_nat (_length b).
Proof. apply length_tab. Qed.

Lemma length_abs_Z b : wf b -> Z.of_nat (length (abs b)) = _length b.
Proof. intros [? _ _ _]. rewrite length_abs. lia. Qed.

(** ** Reading *)
Lemma rest_tab b :
  wf b -> rest b = tab (_length b - _position b) (fun i => bitAt b (_position b + i)).
Proof. intros [H _ _ _]. unfold rest, abs. by rewrite drop_tab by lia. Qed.

Lemma length_rest b : wf b -> Z.of_nat (length (rest b)) = _length b - _position b.
Proof. intros H. rewrite rest_tab, length_tab by done. pose proof (wf_position b H). lia. Qed.

Lemma getNumberOfBitLeft_rest b :
  wf b -> fits b -> getNumberOfBitLeft b = Z.of_nat (length (rest b)).
Proof.
  intros H Hf. unfold getNumberOfBitLeft. rewrite length_rest by done.
  pose proof (wf_position b H). unfold fits in Hf. apply u64_small. lia.
Qed.

Lemma makeRightMask_spec n j :
  0 <= n <= 64 -> 0 <= j -> Z.testbit (makeRightMask n) j = (j <? n).
Proof.
  intros Hn Hj. assert (makeRightMask n = Z.ones n) as ->.
  { unfold makeRightMask. destruct (Z.eqb_spec n 64) as [->|]; [done|].
    unfold shl64. rewrite Z.shiftl_1_l, Z.ones_equiv, Z.sub_1_r.
    assert (0 < 2 ^ n < two64) by (rewrite two64_pow; split;
      [apply Z.pow_pos_nonneg | apply Z.pow_lt_mono_r]; lia).
    rewrite (u64_small (2 ^ n)), u64_small by lia. done. }
  rewrite Z.testbit_ones_nonneg by lia. done.
Qed.

Lemma makeCenterMask_spec n s j :
  0 <= n <= 64 -> 0 <= s -> 0 <= j ->
  Z.testbit (makeCenterMask n s) j = (s <=? j) && (j <? n + s) && (j <? 64).
Proof.
  intros. unfold makeCenterMask. rewrite testbit_shl64 by done.
  destruct (Z.leb_spec s j); simpl.
  - rewrite makeRightMask_spec by lia. f_equal. lia.
  - rewrite Z.testbit_neg_r by lia. done.
Qed.

Lemma makeCenterMask_range n s : 0 <= makeCenterMask n s < two64.
Proof. apply u64_range. Qed.

Lemma makeRightMask_range n : 0 <= makeRightMask n < two64.
Proof.
  unfold makeRightMask. destruct (Z.eqb_spec n 64); [unfold two64; lia | apply u64_range].
Qed.

Lemma makeLeftMask_spec n j :
  0 <= n <= 64 -> 0 <= j -> Z.testbit (makeLeftMask n) j = (64 - n <=? j) && (j <? 64).
Proof.
  intros. unfold makeLeftMask, BITIO_SIZEOF_LONG.
  rewrite testbit_not64, makeRightMask_spec by (lia || apply makeRightMask_range).
  f_equal. lia.
Qed.

#[export] Hint Rewrite makeRightMask_spec makeCenterMask_spec makeLeftMask_spec using lia : bits.

(** A number given by its bits: the range follows from the bits too. *)
Lemma bitsZ_tab_bits n f r :
  0 <= n -> 0 <= r ->
  (forall j, 0 <= j -> Z.testbit r j = (j <? n) && f (n - 1 - j)) -> bitsZ (tab n f) = r.
Proof.
  intros Hn Hr H. apply bitsZ_tab; [done| |].
  - split; [done|]. apply bits_bound; [done..|]. intros i Hi. rewrite H by lia.
    destruct (Z.ltb_spec i n); [lia|done].
  - intros j Hj. rewrite H by lia. destruct (Z.ltb_spec j n); [done|lia].
Qed.

(** The two shapes of a read: inside one word, or across two. *)
Lemma one_word_value l k r n :
  0 <= k -> 0 <= r -> 0 <= n -> r + n <= 64 ->
  bitsZ (tab n (fun i => bitOf l (64 * k + r + i)))
  = Z.land (shr64 (default 0 (l !! Z.to_nat k)) (64 - r - n)) (makeRightMask n).
Proof.
  intros Hk Hr Hn Hrn. apply bitsZ_tab_bits; [done| |].
  - apply Z.land_nonneg. right. apply makeRightMask_range.
  - intros j Hj. rewrite Z.land_spec, testbit_shr64, makeRightMask_spec, andb_comm by lia.
    destruct (Z.ltb_spec j n); simpl; [|done].
    rewrite bitOf_word by lia. f_equal. lia.
Qed.

Lemma two_word_value l k r n :
  0 <= k -> 0 <= r < 64 -> n <= 64 < r + n ->
  Forall (fun w => 0 <= w < two64) l ->
  bitsZ (tab n (fun i => bitOf l (64 * k + r + i)))
  = Z.lor (shl64 (Z.land (shr64 (default 0 (l !! Z.to_nat k)) (64 - r - (64 - r)))
                    (makeRightMask (64 - r))) (n - (64 - r)))
      (shr64 (default 0 (l !! Z.to_nat (k + 1))) (64 - (n - (64 - r)))).
Proof.
  intros Hk Hr Hrn Hl.
  assert (0 <= default 0 (l !! Z.to_nat (k + 1)) < 2 ^ 64) as Hw.
  { destruct (l !! _) eqn:E; simpl; [|lia]. by apply (Forall_lookup_1 _ _ _ _ Hl E). }
  apply bitsZ_tab_bits; [lia| |].
  - apply Z.lor_nonneg. split; [apply u64_range|apply Z.shiftr_nonneg; lia].
  - intros j Hj. rewrite Z.lor_spec, testbit_shl64, testbit_shr64, Z.land_spec by lia.
    destruct (Z.lt_ge_cases j (n - (64 - r))).
    + rewrite (Z.testbit_neg_r _ (j - _)), Z.testbit_neg_r by lia.
      destruct (Z.ltb_spec j n); [simpl|lia].
      rewrite bitOf_word by lia. f_equal. lia.
    + rewrite makeRightMask_spec, testbit_shr64 by lia.
      rewrite (testbit_high (default 0 (l !! Z.to_nat (k + 1))) 64), orb_false_r by lia.
      destruct (Z.ltb_spec j n); simpl.
      * destruct (Z.ltb_spec (j - (n - (64 - r))) (64 - r)); [|lia].
        destruct (Z.ltb_spec j 64); [|lia].
        rewrite !andb_true_r, bitOf_word by lia. f_equal. lia.
      * destruct (Z.ltb_spec (j - (n - (64 - r))) (64 - r)); [lia|].
        by rewrite andb_false_r.
Qed.

Ltac run_m := unfold mbind, M_bind, get, put, gets, modify, mret, M_ret, throw, undefined in *; simpl.

Lemma vec_at_word l k (b : BitIO) :
  0 <= k < Z.of_nat (length l) -> vec_at l k b = (Ok (default 0 (l !! Z.to_nat k)), b).
Proof.
  intros Hk. unfold vec_at. destruct (Z.leb_spec 0 k); [|lia].
  by rewrite word_lookup by done.
Qed.

Lemma checkLength_ok {S} n (s : S) :
  1 <= n <= 64 -> checkLength n BITIO_SIZEOF_LONG s = (Ok tt, s).
Proof.
  intros Hn. unfold checkLength, BITIO_SIZEOF_LONG. destruct (Z.eqb_spec n 0); [lia|].
  destruct (Z.ltb_spec 64 n); [lia|done].
Qed.

Lemma checkLength_error {S} n (s : S) :
  0 <= n -> ~ 1 <= n <= 64 ->
  exists what, checkLength n BITIO_SIZEOF_LONG s = (Throw (out_of_range what), s).
Proof.
  intros H0 Hn. unfold checkLength, BITIO_SIZEOF_LONG. destruct (Z.eqb_spec n 0); [by eexists|].
  destruct (Z.ltb_spec 64 n); [by eexists|lia].
Qed.

Lemma checkAvailableBits_ok b n :
  0 <= _position b -> 0 <= n -> fits b -> _position b + n <= _length b ->
  checkAvailableBits n b = (Ok tt, b).
Proof.
  unfold fits, two64. intros. unfold checkAvailableBits. run_m.
  rewrite u64_small by (unfold two64; lia).
  destruct (Z.ltb_spec (_length b) (_position b + n)); [lia|done].
Qed.

Lemma checkAvailableBits_error b n :
  wf b -> fits b -> 0 <= n <= 64 -> _length b < _position b + n ->
  checkAvailableBits n b = (Throw (out_of_range "not enough bits left"), b).
Proof.
  unfold fits, two64. intros [Hp _ _ _] ? ? ?. unfold checkAvailableBits. run_m.
  rewrite u64_small by (unfold two64; lia).
  destruct (Z.ltb_spec (_length b) (_position b + n)); [done|lia].
Qed.

(** [getBits] returns the next [n] bits as a number and moves the cursor. *)
Lemma getBits_run b n :
  wf b -> fits b -> 1 <= n <= 64 -> _position b + n <= _length b ->
  getBits n b = (Ok (bitsZ (tab n (fun i => bitAt b (_position b + i)))),
                 set_position (_position b + n) b).
Proof.
  intros Hwf Hf Hn Hle. pose proof Hwf as [Hp Hs Hw _].
  unfold getBits. run_m. rewrite checkLength_ok, checkAvailableBits_ok by (done || lia).
  unfold getLongIndex, getBitIndex, BITIO_SIZEOF_LONG.
  set (k := _position b / 64). set (r := _position b mod 64).
  replace (_position b) with (64 * k + r) in * by lia.
  rewrite vec_at_word by lia. unfold bitAt.
  destruct (Z.eqb_spec (Z.min (64 - r) n) n).
  - rewrite Z.min_r by lia. by rewrite one_word_value by lia.
  - rewrite Z.min_l by lia. rewrite vec_at_word by lia. by rewrite two_word_value by (done || lia).
Qed.

Lemma getBits_error b n :
  wf b -> fits b -> 0 <= n -> ~ (1 <= n <= 64 /\ _position b + n <= _length b) ->
  exists what, getBits n b = (Throw (out_of_range what), b).
Proof.
  intros Hwf Hf Hn Hbad. unfold getBits. run_m.
  destruct (decide (1 <= n <= 64)) as [H|H].
  - rewrite checkLength_ok by done. rewrite checkAvailableBits_error by (done || lia). eauto.
  - destruct (checkLength_error n b Hn H) as [what ->]. eauto.
Qed.

Lemma wf_set_position b p : wf b -> 0 <= p <= _length b -> wf (set_position p b).
Proof. intros [] Hp. by constructor. Qed.

Lemma abs_set_position b p : abs (set_position p b) = abs b.
Proof. done. Qed.

Lemma rest_set_position b n :
  wf b -> 0 <= n -> rest (set_position (_position b + n) b) = drop (Z.to_nat n) (rest b).
Proof.
  intros Hwf Hn. pose proof (wf_position b Hwf). unfold rest. rewrite abs_set_position, drop_drop.
  f_equal. simpl. lia.
Qed.

(** The reader's view: when the unread bits start with the [n]-bit code of
    [v], [getBits n] returns [v] and leaves the bits after it. *)
Lemma getBits_rest b n v r :
  wf b -> fits b -> 1 <= n <= 64 -> 0 <= v < 2 ^ n -> rest b = Zbits n v ++ r ->
  getBits n b = (Ok v, set_position (_position b + n) b)
  /\ wf (set_position (_position b + n) b)
  /\ rest (set_position (_position b + n) b) = r.
Proof.
  intros Hwf Hf Hn Hv Hr.
  assert (_position b + n <= _length b) as Hle.
  { pose proof (length_rest b Hwf) as Hl. rewrite Hr, length_app, length_Zbits in Hl. lia. }
  rewrite getBits_run by done.
  pose proof (rest_tab b Hwf) as Ht. rewrite Hr in Ht.
  apply (f_equal (take (Z.to_nat n))) in Ht.
  rewrite take_app_length', take_tab in Ht by (rewrite ?length_Zbits; lia).
  rewrite <- Ht, bitsZ_Zbits by done.
  split_and!; [done| |].
  - apply wf_set_position; [done|]. pose proof (wf_position b Hwf). lia.
  - rewrite rest_set_position by (done || lia).
    by rewrite Hr, drop_app_length' by (rewrite length_Zbits; lia).
Qed.

(** ** Writing *)

Lemma shl64_1_pow n : 0 <= n < 64 -> shl64 1 n = 2 ^ n.
Proof.
  intros. unfold shl64. rewrite Z.shiftl_1_l. apply u64_small. rewrite two64_pow.
  split; [apply Z.pow_nonneg | apply Z.pow_lt_mono_r]; lia.
Qed.

Lemma checkValueSize_ok {S} v n (s : S) :
  1 <= n <= 64 -> 0 <= v < 2 ^ n -> checkValueSize v n s = (Ok tt, s).
Proof.
  intros Hn Hv. unfold checkValueSize, BITIO_SIZEOF_LONG. destruct (Z.eqb_spec n 0); [lia|].
  destruct (Z.eqb_spec n 64); [done|]. destruct (Z.ltb_spec 64 n); [lia|].
  rewrite shl64_1_pow by lia. destruct (Z.leb_spec (2 ^ n) v); [lia|done].
Qed.

Lemma checkValueSize_error {S} v n (s : S) :
  0 <= n < 64 -> 2 ^ n <= v ->
  checkValueSize v n s = (Throw (out_of_range "value must be smaller than length bits"), s).
Proof.
  intros Hn Hv. unfold checkValueSize, BITIO_SIZEOF_LONG. destruct (Z.eqb_spec n 0); [done|].
  destruct (Z.eqb_spec n 64); [lia|]. destruct (Z.ltb_spec 64 n); [lia|].
  rewrite shl64_1_pow by lia. destruct (Z.leb_spec (2 ^ n) v); [done|lia].
Qed.

(** [b'] holds the bits of [b] followed by [l]; the cursor did not move. *)
Definition appended (b : BitIO) (l : list bool) (b' : BitIO) : Prop :=
  wf b' /\ _position b' = _position b /\ abs b' = abs b ++ l
  /\ _length b' = _length b + Z.of_nat (length l).

(** It is enough to know every single bit of the new word vector. *)
Lemma appended_bits b bits n f :
  wf b -> 0 <= n ->
  Z.of_nat (length bits) = (_length b + n + 63) / 64 ->
  Forall (fun w => 0 <= w < two64) bits ->
  (forall i, 0 <= i -> bitOf bits i =
     if decide (i < _length b) then bitAt b i
     else if decide (i < _length b + n) then f (i - _length b) else false) ->
  appended b (tab n f) (mkBitIO bits (_position b) (_length b + n)).
Proof.
  intros Hwf Hn Hsize Hw Hbits. pose proof (wf_position b Hwf). split_and!; simpl.
  - constructor; simpl; [lia|done|done|]. intros i Hi. unfold bitAt. simpl.
    rewrite Hbits by lia. repeat case_decide; done || lia.
  - done.
  - unfold abs. simpl. rewrite tab_app by lia. f_equal; apply tab_ext; intros i Hi;
      unfold bitAt; simpl; rewrite Hbits by lia; repeat case_decide; try (done || lia).
    f_equal. lia.
  - rewrite length_tab. lia.
Qed.

Lemma shl64_range x n : 0 <= shl64 x n < 2 ^ 64.
Proof. rewrite <- two64_pow. apply u64_range. Qed.

Lemma lor_range x y : 0 <= x < two64 -> 0 <= y < two64 -> 0 <= Z.lor x y < two64.
Proof.
  rewrite two64_pow. intros. assert (0 <= Z.lor x y) by (apply Z.lor_nonneg; lia).
  split; [done|]. apply bits_bound; [lia|done|]. intros i Hi.
  rewrite Z.lor_spec, !(testbit_high _ 64) by lia. done.
Qed.

Lemma land_range x y : 0 <= x < two64 -> 0 <= Z.land x y < two64.
Proof.
  rewrite two64_pow. intros. assert (0 <= Z.land x y) by (apply Z.land_nonneg; lia).
  split; [done|]. apply bits_bound; [lia|done|]. intros i Hi.
  rewrite Z.land_spec, (testbit_high x 64) by lia. done.
Qed.

Lemma shr64_range x n : 0 <= n -> 0 <= x < two64 -> 0 <= shr64 x n < two64.
Proof.
  intros Hn Hx. unfold shr64. split; [apply Z.shiftr_nonneg; lia|].
  rewrite Z.shiftr_div_pow2 by lia. apply Z.div_lt_upper_bound; [apply Z.pow_pos_nonneg; lia|].
  pose proof (Z.pow_pos_nonneg 2 n). nia.
Qed.

Lemma u64_range' z : 0 <= u64 z < two64.
Proof. apply u64_range. Qed.
Lemma shl64_range' x n : 0 <= shl64 x n < two64.
Proof. apply u64_range. Qed.

#[export] Hint Resolve lor_range land_range shr64_range shl64_range' u64_range'
  makeRightMask_range makeCenterMask_range default_word_range : bitio.

Lemma write_word_ok b k w :
  0 <= k < Z.of_nat (length (_bits b)) ->
  write_word k w b = (Ok tt, set_bits (<[Z.to_nat k := w]> (_bits b)) b).
Proof.
  intros Hk. unfold write_word. run_m.
  destruct (Z.leb_spec 0 k), (Z.ltb_spec k (Z.of_nat (length (_bits b)))); simpl; done || lia.
Qed.

Lemma update_word_ok b k f :
  0 <= k < Z.of_nat (length (_bits b)) ->
  update_word k f b
  = (Ok tt, set_bits (<[Z.to_nat k := f (default 0 (_bits b !! Z.to_nat k))]> (_bits b)) b).
Proof.
  intros Hk. unfold update_word. run_m. rewrite vec_at_word by done. by rewrite write_word_ok.
Qed.

Lemma Forall_words_insert l k w :
  Forall (fun w => 0 <= w < two64) l -> 0 <= w < two64 ->
  Forall (fun w => 0 <= w < two64) (<[k := w]> l).
Proof. intros. by apply Forall_insert. Qed.

Lemma Forall_words_snoc l w :
  Forall (fun w => 0 <= w < two64) l -> 0 <= w < two64 ->
  Forall (fun w => 0 <= w < two64) (l ++ [w]).
Proof. intros. apply Forall_app. split; [done|]. by apply Forall_singleton. Qed.
#[export] Hint Resolve Forall_words_insert Forall_words_snoc wf_words : bitio.

Lemma getEndLongIndex_last b :
  wf b -> 0 < _length b -> getEndLongIndex b = Z.of_nat (length (_bits b)) - 1.
Proof.
  intros [Hp Hs _ _] Hl. unfold getEndLongIndex. destruct (_bits b); [simpl in Hs; lia|done].
Qed.

Section appendBits.
Context (b : BitIO) (v n : Z).
Context (Hwf : wf b) (Hn : 1 <= n <= 64) (Hv : 0 <= v < 2 ^ n).
Let e := _length b mod 64.

Local Lemma v_range : 0 <= v < two64.
Proof.
  split; [lia|]. rewrite two64_pow. eapply Z.lt_le_trans; [apply Hv|].
  apply Z.pow_le_mono_r; lia.
Qed.

Local Lemma append_aligned :
  e = 0 ->
  appended b (Zbits n v)
    (mkBitIO (_bits b ++ [shl64 v (64 - n)]) (_position b) (_length b + n)).
Proof.
  intros He. pose proof Hwf as [Hp Hs Hw Hpad]. subst e. apply appended_bits; auto with bitio.
  - lia.
  - rewrite length_app. simpl. lia.
  - intros i Hi. rewrite bitOf_snoc by done. fold (bitAt b i). repeat case_decide; try lia; auto.
    + rewrite testbit_shl64 by lia. destruct (Z.ltb_spec (63 - i mod 64) 64); [|lia].
      rewrite andb_true_r. f_equal. lia.
    + rewrite testbit_shl64 by lia. rewrite Z.testbit_neg_r by lia. done.
    + by rewrite Hpad by lia.
Qed.

Local Lemma append_inside w :
  e <> 0 -> n <= 64 - e -> w = default 0 (_bits b !! Z.to_nat (_length b / 64)) ->
  appended b (Zbits n v)
    (mkBitIO (<[Z.to_nat (_length b / 64) := Z.lor w (shl64 v (64 - e - n))]> (_bits b))
       (_position b) (_length b + n)).
Proof.
  intros He Hle ->. pose proof Hwf as [Hp Hs Hw Hpad]. subst e. apply appended_bits; auto with bitio.
  - lia.
  - rewrite length_insert. lia.
  - intros i Hi. rewrite bitOf_insert by lia. case_decide as E.
    + rewrite Z.lor_spec, bitOf_word, testbit_shl64 by lia.
      replace (64 * (_length b / 64) + 63 - (63 - i mod 64)) with i by lia. fold (bitAt b i).
      destruct (Z.ltb_spec (63 - i mod 64) 64); [|lia]. rewrite andb_true_r.
      repeat case_decide; try lia.
      * rewrite (testbit_high v n), orb_false_r by lia. done.
      * rewrite Hpad by lia. simpl. f_equal. lia.
      * rewrite Hpad, Z.testbit_neg_r by lia. done.
    + fold (bitAt b i). repeat case_decide; try lia; [done|]. by apply Hpad; lia.
Qed.

Local Lemma append_across w :
  e <> 0 -> 64 - e < n -> w = default 0 (_bits b !! Z.to_nat (_length b / 64)) ->
  appended b (Zbits n v)
    (mkBitIO (<[Z.to_nat (_length b / 64) := Z.lor w (shr64 v (n - (64 - e)))]> (_bits b)
              ++ [shl64 v (64 - (n - (64 - e)))])
       (_position b) (_length b + n)).
Proof.
  intros He Hlt ->. pose proof Hwf as [Hp Hs Hw Hpad]. pose proof v_range. subst e.
  assert (0 <= n - (64 - _length b mod 64)) by lia.
  apply appended_bits; auto 6 with bitio.
  - lia.
  - rewrite length_app, length_insert. simpl. lia.
  - intros i Hi. rewrite bitOf_snoc, length_insert by lia. case_decide as E.
    + rewrite testbit_shl64 by lia. destruct (Z.ltb_spec (63 - i mod 64) 64); [|lia].
      rewrite andb_true_r. repeat case_decide; try lia.
      * f_equal. lia.
      * by rewrite Z.testbit_neg_r by lia.
    + rewrite bitOf_insert by lia. case_decide as E'.
      * rewrite Z.lor_spec, bitOf_word, testbit_shr64 by lia.
        replace (64 * (_length b / 64) + 63 - (63 - i mod 64)) with i by lia. fold (bitAt b i).
        repeat case_decide; try lia.
        -- rewrite (testbit_high v n), orb_false_r by lia. done.
        -- rewrite Hpad by lia. simpl. f_equal. lia.
      * fold (bitAt b i). repeat case_decide; try lia; [done|]. by apply Hpad; lia.
Qed.

Lemma appendBits_run :
  exists b', appendBits v n b = (Ok tt, b') /\ appended b (Zbits n v) b'.
Proof.
  unfold appendBits. run_m. rewrite checkLength_ok, checkValueSize_ok by done.
  unfold getEndBitIndex, BITIO_SIZEOF_LONG. fold e. pose proof Hwf as [Hp Hs _ _].
  destruct (Z.eqb_spec (64 - e) 64).
  { eexists. split; [done|]. apply append_aligned. lia. }
  assert (getEndLongIndex b = _length b / 64) as Hend
    by (rewrite getEndLongIndex_last by (done || lia); lia).
  assert (0 <= _length b / 64 < Z.of_nat (length (_bits b))) by lia.
  rewrite Hend. destruct (Z.leb_spec n (64 - e)).
  - rewrite update_word_ok by done. eexists. split; [done|]. apply append_inside; done || lia.
  - rewrite update_word_ok by done. eexists. split; [done|]. apply append_across; done || lia.
Qed.
End appendBits.

(** *** Overwriting *)

(** [b'] is [b] with [l] written over position [p], extended when [l] reaches
    past the end. *)
Definition overwritten (b : BitIO) (p : Z) (l : list bool) (b' : BitIO) : Prop :=
  wf b' /\ _position b' = p + Z.of_nat (length l)
  /\ _length b' = Z.max (_length b) (p + Z.of_nat (length l))
  /\ abs b' = take (Z.to_nat p) (abs b) ++ l ++ drop (Z.to_nat p + length l) (abs b).

Definition grow (k : Z) (l : list Z) : list Z :=
  if Z.of_nat (length l) =? k then l ++ [0] else l.

Lemma push_if_full_run k b :
  push_if_full k b = (Ok tt, set_bits (grow k (_bits b)) b).
Proof.
  unfold push_if_full, grow, when, push_word. run_m.
  destruct (Z.eqb_spec (Z.of_nat (length (_bits b))) k); [done|]. by destruct b.
Qed.

Lemma bitOf_grow k l i : 0 <= i -> bitOf (grow k l) i = bitOf l i.
Proof.
  intros Hi. unfold grow. destruct (Z.eqb_spec (Z.of_nat (length l)) k); [|done].
  rewrite bitOf_snoc by done. case_decide; [|done].
  rewrite Z.testbit_0_l, bitOf_beyond by lia. done.
Qed.

Lemma length_grow k l :
  Z.of_nat (length (grow k l)) = if Z.of_nat (length l) =? k then k + 1 else Z.of_nat (length l).
Proof.
  unfold grow. destruct (Z.eqb_spec (Z.of_nat (length l)) k); [|done].
  rewrite length_app. simpl. lia.
Qed.

Lemma Forall_words_grow k l :
  Forall (fun w => 0 <= w < two64) l -> Forall (fun w => 0 <= w < two64) (grow k l).
Proof.
  intros H. unfold grow. destruct (Z.eqb_spec (Z.of_nat (length l)) k); [|done].
  apply Forall_words_snoc; [done|]. unfold two64; lia.
Qed.

(** One masked word update [w' = (w & ~(1..1 << s)) | piece], where [piece]
    only has bits under the mask. *)
Lemma masked_update_bit w m s piece j :
  0 <= w < two64 -> 0 <= m <= 64 -> 0 <= s -> m + s <= 64 -> 0 <= j < 64 ->
  (forall i, 0 <= i -> ~ (s <= i < s + m) -> Z.testbit piece i = false) ->
  Z.testbit (Z.lor (Z.land w (not64 (makeCenterMask m s))) piece) j
  = if decide (s <= j < s + m) then Z.testbit piece j else Z.testbit w j.
Proof.
  intros Hw Hm Hs Hms Hj Hp.
  rewrite Z.lor_spec, Z.land_spec, testbit_not64, makeCenterMask_spec
    by (lia || apply makeCenterMask_range).
  destruct (Z.leb_spec s j), (Z.ltb_spec j (m + s)), (Z.ltb_spec j 64); simpl; try lia;
    case_decide; try lia; rewrite ?andb_false_r, ?andb_true_r; try done;
    rewrite Hp by lia; by rewrite orb_false_r.
Qed.

Lemma masked_update_range w m s piece :
  0 <= w < two64 -> 0 <= piece < two64 ->
  0 <= Z.lor (Z.land w (not64 (makeCenterMask m s))) piece < two64.
Proof. auto with bitio. Qed.
#[export] Hint Resolve Forall_words_grow masked_update_range : bitio.

Definition bits_set (l : list Z) (p n : Z) (f : Z -> bool) (l' : list Z) : Prop :=
  Forall (fun w => 0 <= w < two64) l'
  /\ forall i, 0 <= i ->
       bitOf l' i = if decide (p <= i < p + n) then f (i - p) else bitOf l i.

Lemma overwritten_bits b p n f l' :
  wf b -> 0 <= p <= _length b -> 0 <= n ->
  Z.of_nat (length l') = (Z.max (_length b) (p + n) + 63) / 64 ->
  bits_set (_bits b) p n f l' ->
  overwritten b p (tab n f) (mkBitIO l' (p + n) (Z.max (_length b) (p + n))).
Proof.
  intros Hwf Hp Hn Hsize [Hw Hbits]. pose proof (wf_position b Hwf).
  unfold overwritten. rewrite length_tab, !Z2Nat.id by lia. split_and!; simpl; [|lia..|].
  - constructor; simpl; [lia|done|done|]. intros i Hi. unfold bitAt. simpl.
    rewrite Hbits by lia. case_decide; [lia|]. apply (wf_padding b Hwf). lia.
  - apply list_eq. intros i. unfold abs at 1. simpl. rewrite lookup_tab. unfold bitAt. simpl.
    destruct (decide (Z.of_nat i < p)).
    { rewrite lookup_app_l by (rewrite length_take, length_abs; lia).
      rewrite lookup_take_lt by lia. unfold abs. rewrite lookup_tab, Hbits by lia.
      repeat case_decide; done || lia. }
    rewrite lookup_app_r by (rewrite length_take, length_abs; lia).
    rewrite length_take, length_abs.
    replace (i - _ `min` _)%nat with (i - Z.to_nat p)%nat by lia.
    destruct (decide (Z.of_nat i < p + n)).
    + rewrite lookup_app_l, lookup_tab by (rewrite length_tab; lia).
      rewrite Hbits by lia. repeat case_decide; try lia. do 2 f_equal. lia.
    + rewrite lookup_app_r, length_tab by (rewrite length_tab; lia).
      rewrite lookup_drop. unfold abs. rewrite lookup_tab.
      replace (Z.to_nat p + Z.to_nat n + (i - Z.to_nat p - Z.to_nat n))%nat with i by lia.
      rewrite Hbits by lia. repeat case_decide; try lia; try done.
Qed.

Lemma Forall_default_word l j :
  Forall (fun w => 0 <= w < two64) l -> 0 <= default 0 (l !! j) < two64.
Proof.
  intros Hl. destruct (l !! j) eqn:E; simpl.
  - apply (Forall_lookup_1 _ _ _ _ Hl E).
  - unfold two64; lia.
Qed.

Lemma bits_set_app l p m n f l1 l2 :
  0 <= m -> 0 <= n -> bits_set l p m f l1 -> bits_set l1 (p + m) n (fun j => f (m + j)) l2 ->
  bits_set l p (m + n) f l2.
Proof.
  intros Hm Hn [_ H1] [Hw H2]. split; [done|]. intros i Hi.
  rewrite H2, H1 by done. repeat case_decide; try lia; try done. f_equal. lia.
Qed.

Section setBits.
Context (l0 : list Z) (v n p k r : Z).
Context (Hl0 : Forall (fun w => 0 <= w < two64) l0) (Hreach : k <= Z.of_nat (length l0)).
Context (Hn : 1 <= n <= 64) (Hv : 0 <= v < 2 ^ n).
Context (Hpk : p = 64 * k + r) (Hr : 0 <= r < 64) (Hk : 0 <= k).
Let f := fun j => Z.testbit v (n - 1 - j).

Lemma set_aligned :
  r = 0 -> n = 64 -> k < Z.of_nat (length l0) ->
  bits_set l0 p n f (<[Z.to_nat k := v]> l0).
Proof.
  intros Hr0 Hn64 Hlt.
  split. { apply Forall_words_insert; [done|]. rewrite two64_pow, <- Hn64. done. }
  intros i Hi. unfold f. rewrite bitOf_insert by lia. repeat case_decide; try lia; [|done].
  f_equal. lia.
Qed.

(** The first word, whether or not the write ends in it. *)
Lemma set_first_word m :
  1 <= m -> m <= n -> r + m <= 64 ->
  let l := grow k l0 in
  let piece := if m =? n then shl64 v (64 - r - m) else shr64 v (n - m) in
  (m = n \/ m = 64 - r) ->
  bits_set l0 p m f
    (<[Z.to_nat k := Z.lor (Z.land (default 0 (l !! Z.to_nat k))
          (not64 (makeCenterMask m (64 - r - m)))) piece]> l).
Proof.
  intros Hm Hmn Hrm l piece Hcase.
  assert (Forall (fun w => 0 <= w < two64) l) as Hl by (subst l; auto with bitio).
  assert (k < Z.of_nat (length l)).
  { subst l. rewrite length_grow. destruct (Z.eqb_spec (Z.of_nat (length l0)) k); lia. }
  assert (forall i, 0 <= i -> Z.testbit piece i =
            (64 - r - m <=? i) && (i <? 64 - r) && Z.testbit v (i - (64 - r - m) + (n - m))) as Hpiece.
  { intros i Hi. subst piece. destruct (Z.eqb_spec m n).
    - rewrite testbit_shl64 by lia.
      destruct (Z.leb_spec (64 - r - m) i); simpl; [|by rewrite Z.testbit_neg_r by lia].
      destruct (Z.ltb_spec i (64 - r)); simpl.
      + destruct (Z.ltb_spec i 64); [|lia]. rewrite andb_true_r. f_equal. lia.
      + by rewrite (testbit_high v n) by lia.
    - rewrite testbit_shr64 by lia. destruct Hcase as [|Hcase]; [lia|].
      destruct (Z.leb_spec (64 - r - m) i), (Z.ltb_spec i (64 - r)); simpl; try lia.
      + f_equal. lia.
      + rewrite (testbit_high v n) by lia. done. }
  split.
  { assert (0 <= piece < two64); [|auto using Forall_default_word with bitio].
    subst piece. destruct (m =? n); [apply u64_range|].
    apply shr64_range; [lia|]. rewrite two64_pow. split; [lia|].
    eapply Z.lt_le_trans; [apply Hv|]. apply Z.pow_le_mono_r; lia. }
  intros i Hi. rewrite bitOf_insert by lia. case_decide as E.
  - rewrite masked_update_bit; [|auto using Forall_default_word|lia..|].
    + rewrite bitOf_word by lia. unfold f. repeat case_decide; try lia.
      * rewrite Hpiece by lia.
        destruct (Z.leb_spec (64 - r - m) (63 - i mod 64)),
          (Z.ltb_spec (63 - i mod 64) (64 - r)); try lia. simpl. f_equal. lia.
      * subst l. rewrite bitOf_grow by lia. f_equal. lia.
    + intros j Hj Hout. rewrite Hpiece by lia.
      destruct (Z.leb_spec (64 - r - m) j), (Z.ltb_spec j (64 - r)); simpl; done || lia.
  - subst l. rewrite bitOf_grow by done. case_decide; [lia|done].
Qed.

Lemma set_first_word_end : 
  r + n <= 64 ->
  bits_set l0 p n f
    (<[Z.to_nat k := Z.lor (Z.land (default 0 (grow k l0 !! Z.to_nat k))
          (not64 (makeCenterMask n (64 - r - n)))) (shl64 v (64 - r - n))]> (grow k l0)).
Proof.
  intros. pose proof (set_first_word n) as H1. simpl in H1.
  rewrite Z.eqb_refl in H1. apply H1; lia || auto.
Qed.
End setBits.

Lemma shl64_mod v m : 0 <= m <= 64 -> shl64 (v mod 2 ^ m) (64 - m) = shl64 v (64 - m).
Proof.
  intros Hm. apply (bits_inj_bounded 64); [apply shl64_range..|]. intros i Hi.
  rewrite !testbit_shl64 by lia. f_equal. destruct (Z.lt_ge_cases i (64 - m)).
  - by rewrite !Z.testbit_neg_r by lia.
  - by rewrite Z.mod_pow2_bits_low by lia.
Qed.

(** The second word of a write that crosses a word boundary. *)
Lemma set_second_word l v n m k :
  Forall (fun w => 0 <= w < two64) l -> 0 <= k -> k <= Z.of_nat (length l) ->
  1 <= m <= 64 -> m <= n ->
  bits_set l (64 * k) m (fun j => Z.testbit v (m - 1 - j))
    (<[Z.to_nat k := Z.lor (Z.land (default 0 (grow k l !! Z.to_nat k))
          (not64 (makeCenterMask m (64 - m)))) (shl64 v (64 - m))]> (grow k l)).
Proof.
  intros Hl Hk Hkl Hm Hmn. rewrite <- (shl64_mod v m) by lia.
  assert (0 <= v mod 2 ^ m < 2 ^ m) by (apply Z.mod_pos_bound, Z.pow_pos_nonneg; lia).
  destruct (set_first_word_end l (v mod 2 ^ m) m (64 * k) k 0) as [Hw Hb]; try done || lia.
  rewrite Z.sub_0_r in *. split; [done|]. intros i Hi. rewrite Hb by done.
  case_decide; [|done]. by rewrite Z.mod_pow2_bits_low by lia.
Qed.

Lemma length_masked k l w : length (<[Z.to_nat k := w]> (grow k l)) = length (grow k l).
Proof. apply length_insert. Qed.

(** The write that is not a whole aligned word: first word, then the spill. *)
Lemma setBits_masked b v n p k r :
  wf b -> 1 <= n <= 64 -> 0 <= v < 2 ^ n -> 0 <= p <= _length b ->
  p = 64 * k + r -> 0 <= r < 64 ->
  exists l',
    (push_if_full k;;
     let m := Z.min (64 - r) n in
     let mask := not64 (makeCenterMask m (64 - r - m)) in
     let valueShifted := if m =? n then shl64 v (64 - r - m) else shr64 v (n - m) in
     update_word k (fun w => Z.lor (Z.land w mask) valueShifted);;
     if m =? n then mret tt
     else
       push_if_full (k + 1);;
       let m := n - m in
       let mask := not64 (makeCenterMask m (64 - m)) in
       update_word (k + 1) (fun w => Z.lor (Z.land w mask) (shl64 v (64 - m))))
      (mkBitIO (_bits b) (p + n) (Z.max (_length b) (p + n)))
    = (Ok tt, mkBitIO l' (p + n) (Z.max (_length b) (p + n)))
    /\ bits_set (_bits b) p n (fun j => Z.testbit v (n - 1 - j)) l'
    /\ Z.of_nat (length l') = (Z.max (_length b) (p + n) + 63) / 64.
Proof.
  intros Hwf Hn Hv Hp Hpk Hr. pose proof (wf_size b Hwf) as Hs.
  pose proof (wf_words b Hwf) as Hw. pose proof (length_grow k (_bits b)) as Hg.
  run_m. rewrite push_if_full_run. simpl.
  assert (k < Z.of_nat (length (grow k (_bits b)))) as Hlt
    by (destruct (Z.eqb_spec (Z.of_nat (length (_bits b))) k); lia).
  rewrite update_word_ok by (simpl; lia). simpl.
  pose proof (set_first_word (_bits b) v n p k r Hw) as Hfirst.
  destruct (Z.eqb_spec (Z.min (64 - r) n) n) as [Em|Em].
  - rewrite Em in *. eexists. split; [done|]. split.
    + apply set_first_word_end; done || lia.
    + rewrite length_insert. destruct (Z.eqb_spec (Z.of_nat (length (_bits b))) k); lia.
  - assert (64 - r < n) by lia. rewrite Z.min_l in * by lia.
    assert (k <= Z.of_nat (length (_bits b))) as Hreach by (clear Hg Hlt; lia).
    specialize (Hfirst Hreach Hn Hv Hpk Hr ltac:(lia) (64 - r)
      ltac:(lia) ltac:(lia) ltac:(lia) (or_intror eq_refl)).
    destruct (Z.eqb_spec (64 - r) n); [lia|].
    rewrite push_if_full_run. simpl.
    set (l1 := <[Z.to_nat k := _]> (grow k (_bits b))) in *.
    assert (length l1 = length (grow k (_bits b))) as Hl1 by apply length_insert.
    pose proof (length_grow (k + 1) l1) as Hg1. rewrite Hl1 in Hg1.
    assert (Z.of_nat (length (grow (k + 1) l1)) = (Z.max (_length b) (p + n) + 63) / 64) as Hsize.
    { rewrite Hg1, Hg. destruct (Z.eqb_spec (Z.of_nat (length (_bits b))) k);
        [subst k; rewrite Z.eqb_refl; lia|].
      destruct (Z.eqb_spec (Z.of_nat (length (_bits b))) (k + 1)); lia. }
    rewrite update_word_ok by (simpl; lia). simpl.
    eexists. split; [done|]. rewrite length_insert. split; [|done].
    replace n with ((64 - r) + (n - (64 - r))) at 1 by lia.
    eapply (bits_set_app _ _ _ _ _ _ _); [lia|lia|apply Hfirst|].
    replace (p + (64 - r)) with (64 * (k + 1)) by lia.
    destruct (set_second_word l1 v n (n - (64 - r)) (k + 1)) as [Hw2 Hb2];
      [apply Hfirst|lia|rewrite Hl1; lia|lia|lia|].
    split; [done|]. intros i Hi. rewrite Hb2 by done. case_decide; [|done]. f_equal. lia.
Qed.

(** [setBits] overwrites [length] bits at the cursor and extends the stream
    when it reaches past the end. *)
Lemma setBits_run b v n :
  wf b -> 1 <= n <= 64 -> 0 <= v < 2 ^ n ->
  ~ (n = 64 /\ _position b = 64 * Z.of_nat (length (_bits b))) ->
  exists b', setBits v n b = (Ok tt, b') /\ overwritten b (_position b) (Zbits n v) b'.
Proof.
  intros Hwf Hn Hv Hgap. pose proof Hwf as [Hp Hs Hw _].
  unfold setBits. unfold mbind at 1 2 3 4, M_bind. unfold get, put.
  rewrite checkLength_ok, checkValueSize_ok by done.
  unfold getLongIndex, getBitIndex, BITIO_SIZEOF_LONG.
  destruct (setBits_masked b v n (_position b) (_position b / 64) (_position b mod 64))
    as (l' & Hrun & Hset & Hsize); try done || lia.
  destruct (Z.eqb_spec (64 - _position b mod 64) 64) as [Ha|Ha],
    (Z.eqb_spec n 64) as [Hn64|Hn64]; simpl;
    [|eexists; split; [exact Hrun|]; apply overwritten_bits; done || lia..].
  rewrite write_word_ok by (simpl; lia). eexists. split; [done|].
  apply overwritten_bits; [done|lia|lia|rewrite length_insert; simpl; lia|].
  apply (set_aligned _ v n _ _ (_position b mod 64)); done || lia.
Qed.

(** The one gap: a whole word written at a word-aligned end of the stream is
    stored without growing the vector. *)
Lemma setBits_at_end_undefined b v :
  wf b -> 0 <= v < 2 ^ 64 -> _position b = 64 * Z.of_nat (length (_bits b)) ->
  fst (setBits v 64 b) = UB.
Proof.
  intros Hwf Hv Hp. unfold setBits. unfold mbind at 1 2 3 4, M_bind. unfold get, put.
  rewrite checkLength_ok, checkValueSize_ok by done || lia.
  unfold getLongIndex, getBitIndex, BITIO_SIZEOF_LONG.
  destruct (Z.eqb_spec (64 - _position b mod 64) 64); [|lia]. simpl.
  unfold write_word. run_m.
  destruct (Z.leb_spec 0 (_position b / 64)),
    (Z.ltb_spec (_position b / 64) (Z.of_nat (length (_bits b)))); simpl; done || lia.
Qed.
