(* ===== verification/BitIOBlocks.v ===== *)
(** BitIOBlocks: the operations of src/src/BitIO.cpp that move whole runs of
    bits (append, overwrite and insert from another stream, copy, pad, load
    from bytes), each against its effect on the abstract bit list. *)

From S2P Require Import Prelude.
From S2P Require Import BitIO.

Ltac Zify.zify_post_hook ::= Z.div_mod_to_equations.

Lemma on_this_ok {A} (m : M BitIO A) b v o b' :
  m b = (o, b') -> on_this m (b, v) = (o, (b', v)).
Proof. intros H. unfold on_this. cbn [fst snd]. by rewrite H. Qed.

Lemma on_value_ok {A} (m : M BitIO A) b v o v' :
  m v = (o, v') -> on_value m (b, v) = (o, (b, v')).
Proof. intros H. unfold on_value. cbn [fst snd]. by rewrite H. Qed.

Lemma appended_nil b : wf b -> appended b [] b.
Proof. intros H. split_and!; [done..| |simpl; lia]. by rewrite app_nil_r. Qed.

Lemma appended_trans b l1 b1 l2 b2 :
  appended b l1 b1 -> appended b1 l2 b2 -> appended b (l1 ++ l2) b2.
Proof.
  intros (_ & Hp1 & Ha1 & Hl1) (Hw2 & Hp2 & Ha2 & Hl2). split_and!; [done|congruence| |].
  - by rewrite Ha2, Ha1, app_assoc.
  - rewrite Hl2, Hl1, length_app. lia.
Qed.

Lemma overwritten_trans b p l1 b1 l2 b2 :
  wf b -> 0 <= p <= _length b ->
  overwritten b p l1 b1 -> overwritten b1 (p + Z.of_nat (length l1)) l2 b2 ->
  overwritten b p (l1 ++ l2) b2.
Proof.
  intros Hwf Hp (Hw1 & Hp1 & Hl1 & Ha1) (Hw2 & Hp2 & Hl2 & Ha2).
  pose proof (length_abs b).
  unfold overwritten. rewrite length_app. split_and!; [done|lia|lia|].
  replace (Z.to_nat (p + Z.of_nat (length l1))) with (Z.to_nat p + length l1)%nat in * by lia.
  assert (take (Z.to_nat p + length l1) (abs b1) = take (Z.to_nat p) (abs b) ++ l1) as Ht.
  { rewrite Ha1, app_assoc. apply take_app_length'. rewrite length_app, length_take. lia. }
  rewrite Ha2, Ht, <- !app_assoc. do 3 f_equal. rewrite Ha1, app_assoc.
  rewrite drop_app_ge by (rewrite length_app, length_take; lia).
  rewrite length_app, length_take, drop_drop. f_equal. lia.
Qed.

Lemma Zbits_bitsZ_tab n f : 0 <= n -> Zbits n (bitsZ (tab n f)) = tab n f.
Proof.
  intros. rewrite <- (Zbits_bitsZ (tab n f)) at 2. rewrite length_tab. f_equal. lia.
Qed.

Lemma bitsZ_tab_range n f : 0 <= n -> 0 <= bitsZ (tab n f) < 2 ^ n.
Proof.
  intros. pose proof (bitsZ_range (tab n f)) as H1. rewrite length_tab in H1.
  by rewrite Z2Nat.id in H1.
Qed.

Lemma rest_take b n :
  wf b -> 0 <= n <= _length b - _position b ->
  take (Z.to_nat n) (rest b) = tab n (fun i => bitAt b (_position b + i)).
Proof. intros. rewrite rest_tab, take_tab by (done || lia). done. Qed.

Lemma rest_all b : wf b -> rest b = [] <-> _position b = _length b.
Proof.
  intros H. pose proof (length_rest b H). pose proof (wf_position b H). split.
  - intros E. rewrite E in *. simpl in *. lia.
  - intros E. apply nil_length_inv. lia.
Qed.

(** ** The block loop

    [store] is given the next block of the argument at every turn; what it does
    to [*this] is described by the relation [R]. *)
Section copy_blocks.
Context (store : Z -> Z -> M BitIO unit) (R : BitIO -> list bool -> BitIO -> Prop).
Context (ok : BitIO -> Prop).
Context (R_wf : forall b l b', ok b -> R b l b' -> ok b').
Context (R_nil : forall b, ok b -> R b [] b).
Context (R_trans : forall b l1 b1 l2 b2, ok b -> R b l1 b1 -> R b1 l2 b2 -> R b (l1 ++ l2) b2).
(** [len]: the size of the first block, [space b len]: what [store] needs. *)
Context (space : BitIO -> Z -> Z -> Prop).
Context (store_ok : forall b v n rem,
  ok b -> 1 <= n <= 64 -> 0 <= v < 2 ^ n -> n <= rem -> space b n rem ->
  exists b', store v n b = (Ok tt, b') /\ R b (Zbits n v) b'
             /\ (forall n', 1 <= n' <= 64 -> n' <= rem - n -> space b' n' (rem - n))).

Definition turns (remaining len : Z) : Z :=
  (remaining - Z.min remaining len + 63) / 64 + (if remaining =? 0 then 1 else 2).

Lemma copy_blocks_run fuel : forall b v len,
  ok b -> wf v -> fits v -> 1 <= len <= 64 ->
  turns (_length v - _position v) len <= Z.of_nat fuel ->
  (_position v < _length v ->
   space b (Z.min (_length v - _position v) len) (_length v - _position v)) ->
  exists b', copy_blocks fuel store len (b, v) = (Ok tt, (b', set_position (_length v) v))
             /\ R b (rest v) b'.
Proof.
  induction fuel as [|fuel IH]; intros b v len Hb Hv Hf Hlen Hfuel Hspace.
  { exfalso. unfold turns in Hfuel. pose proof (wf_position v Hv).
    destruct (Z.eqb_spec (_length v - _position v) 0); lia. }
  pose proof (wf_position v Hv) as Hp. pose proof (length_rest v Hv) as Hlr.
  simpl. unfold on_value, on_this. run_m.
  rewrite getNumberOfBitLeft_rest, Hlr by done.
  destruct (Z.eqb_spec (_length v - _position v) 0) as [H0|H0].
  { exists b. assert (_position v = _length v) as E by lia.
    split; [by destruct v; simpl in *; subst|].
    apply (rest_all v Hv) in E. rewrite E. by apply R_nil. }
  remember (Z.min (_length v - _position v) len) as n eqn:En.
  assert (1 <= n <= 64 /\ n <= _length v - _position v) as [Hn1 Hn2] by lia.
  cbn [fst snd]. rewrite getBits_run by (done || lia). simpl.
  pose proof (bitsZ_tab_range n (fun i => bitAt v (_position v + i))) as Hrange.
  destruct (store_ok b (bitsZ (tab n (fun i => bitAt v (_position v + i)))) n
              (_length v - _position v)) as (b1 & -> & HR & Hsp);
    [done|lia|apply Hrange; lia|lia|apply Hspace; lia|].
  rewrite Zbits_bitsZ_tab, <- rest_take in HR by (done || lia).
  destruct (IH b1 (set_position (_position v + n) v) 64) as (b2 & Hrun & HR2);
    [by eapply R_wf|by apply wf_set_position; [|lia]|done|lia|..].
  - unfold turns in *. simpl. destruct (Z.eqb_spec (_length v - _position v) 0); [lia|].
    destruct (Z.eqb_spec (_length v - (_position v + n)) 0); lia.
  - simpl. intros Hlt. replace (_length v - (_position v + n)) with
      (_length v - _position v - n) by lia. apply Hsp; lia.
  - exists b2. split; [exact Hrun|].
    rewrite <- (take_drop (Z.to_nat n) (rest v)).
    eapply R_trans; [done|exact HR|]. by rewrite <- rest_set_position by (done || lia).
Qed.
End copy_blocks.

#[global] Arguments copy_blocks : simpl never.
#[global] Arguments block_fuel : simpl never.
#[global] Arguments resizeIfNeeded : simpl never.

Lemma block_fuel_enough v len :
  wf v -> 1 <= len <= 64 -> turns (_length v) len <= Z.of_nat (block_fuel v).
Proof.
  intros Hv Hl. pose proof (wf_position v Hv). unfold turns, block_fuel.
  destruct (Z.eqb_spec (_length v) 0); lia.
Qed.

Lemma first_block_range b : 1 <= BITIO_SIZEOF_LONG - getEndBitIndex b <= 64.
Proof. unfold getEndBitIndex, BITIO_SIZEOF_LONG. lia. Qed.

Lemma movePositionTo_ok b p :
  0 <= p <= _length b -> movePositionTo p b = (Ok tt, set_position p b).
Proof.
  intros Hp. unfold movePositionTo, checkPosition. run_m.
  destruct (Z.ltb_spec (_length b) p); [lia|done].
Qed.

Lemma set_position_same b : set_position (_position b) b = b.
Proof. by destruct b. Qed.

Lemma rest_start b : rest (set_position 0 b) = abs b.
Proof. done. Qed.

(** [appendBits(BitIO&)] appends all bits of the argument, whatever its cursor,
    and leaves the argument as it was. *)
Lemma appendBits_BitIO_run b v :
  wf b -> wf v -> fits v ->
  exists b', appendBits_BitIO (b, v) = (Ok tt, (b', v)) /\ appended b (abs v) b'.
Proof.
  intros Hb Hv Hf. pose proof (wf_position v Hv).
  unfold appendBits_BitIO, on_value, on_this. run_m.
  rewrite movePositionTo_ok by lia. simpl.
  destruct (copy_blocks_run appendBits appended wf) with
    (space := fun (_ : BitIO) (_ _ : Z) => True) (fuel := block_fuel (set_position 0 v))
    (b := b) (v := set_position 0 v) (len := BITIO_SIZEOF_LONG - getEndBitIndex b)
    as (b' & Hrun & Happ).
  - by intros b1 l b2 _ [].
  - apply appended_nil.
  - intros. by eapply appended_trans.
  - intros b1 x n rem Hb1 Hn Hx _ _.
    destruct (appendBits_run b1 x n) as (b2 & Hr & Ha); eauto.
  - done.
  - apply wf_set_position; [done|lia].
  - done.
  - apply first_block_range.
  - simpl. rewrite Z.sub_0_r. apply (block_fuel_enough (set_position 0 v)).
    + apply wf_set_position; [done|lia].
    + apply first_block_range.
  - done.
  - simpl in Hrun. rewrite Hrun. unfold getPosition.
    rewrite movePositionTo_ok by (simpl; lia).
    exists b'. split; [|done]. by destruct v.
Qed.

(** ** Growing *)
Definition zeros (n : Z) : list bool := tab n (fun _ => false).

Lemma new_long_length m :
  0 <= m -> m / 64 + (if m mod 64 =? 0 then 0 else 1) = (m + 63) / 64.
Proof. intros. destruct (Z.eqb_spec (m mod 64) 0); lia. Qed.

(** [_length = m; resizeIfNeeded()] with [m] at least the old count. *)
Definition grown (m : Z) (b : BitIO) : BitIO :=
  mkBitIO (resize_words ((m + 63) / 64) (_bits b)) (_position b) m.

Lemma resizeIfNeeded_run m b :
  0 <= m -> resizeIfNeeded (set_length m b) = (Ok tt, grown m b).
Proof.
  intros Hm. unfold resizeIfNeeded, modify, grown. simpl.
  unfold BITIO_SIZEOF_LONG. by rewrite new_long_length.
Qed.

Lemma Forall_words_resize n l :
  Forall (fun w => 0 <= w < two64) l ->
  Forall (fun w => 0 <= w < two64) (resize_words n l).
Proof. intros. unfold resize_words. apply Forall_resize; [unfold two64; lia|done]. Qed.
#[export] Hint Resolve Forall_words_resize : bitio.

Lemma length_resize_words n l : length (resize_words n l) = Z.to_nat n.
Proof. apply length_resize. Qed.

Lemma grown_appended m b :
  wf b -> _length b <= m -> appended b (zeros (m - _length b)) (grown m b).
Proof.
  intros Hwf Hm. pose proof (wf_position b Hwf). pose proof (wf_size b Hwf).
  pose proof (appended_bits b (resize_words ((m + 63) / 64) (_bits b)) (m - _length b)
    (fun _ => false)) as H1.
  replace (_length b + (m - _length b)) with m in H1 by lia.
  apply H1; auto with bitio; [lia|rewrite length_resize_words; lia|].
  intros i Hi. rewrite bitOf_resize by lia. fold (bitAt b i).
  repeat case_decide; try done; by apply wf_padding; [|lia].
Qed.

Lemma appendZeros_run b n :
  wf b -> 0 <= n -> _length b + n < two64 ->
  exists b', appendZeros n b = (Ok tt, b') /\ appended b (zeros n) b'.
Proof.
  intros Hwf Hn Hb. pose proof (wf_position b Hwf). unfold appendZeros. run_m.
  rewrite u64_small by lia. rewrite resizeIfNeeded_run by lia. eexists. split; [done|].
  pose proof (grown_appended (_length b + n) b Hwf) as H1.
  replace (_length b + n - _length b) with n in H1 by lia. apply H1. lia.
Qed.

(** Writing over a stream that was first grown is writing over the stream. *)
Lemma overwritten_grown b m p l b' :
  wf b -> 0 <= p <= _length b -> _length b <= m -> m <= p + Z.of_nat (length l) ->
  overwritten (grown m b) p l b' -> overwritten b p l b'.
Proof.
  intros Hwf Hp Hm Hl (Hw & Hpos & Hlen & Ha).
  destruct (grown_appended m b Hwf Hm) as (_ & _ & Hg & _).
  pose proof (length_abs b). simpl in Hlen. split_and!; [done|done|lia|].
  rewrite Ha, Hg, take_app_le by lia.
  rewrite !drop_ge; [done|lia|]. rewrite length_app. unfold zeros. rewrite length_tab. lia.
Qed.

Lemma setBits_keeps_room b l b' rem :
  overwritten b (_position b) l b' -> wf b ->
  _position b + rem <= 64 * Z.of_nat (length (_bits b)) ->
  _position b' + (rem - Z.of_nat (length l)) <= 64 * Z.of_nat (length (_bits b')).
Proof.
  intros (Hw & Hp & Hl & _) Hwf Hr. rewrite (wf_size b' Hw). rewrite (wf_size b Hwf) in Hr.
  rewrite Hl, Hp. lia.
Qed.

(** [setBits(BitIO&)] once the words it writes to exist. *)
Lemma set_blocks_run b v len :
  wf b -> wf v -> fits v -> 1 <= len <= 64 ->
  _position b + _length v <= 64 * Z.of_nat (length (_bits b)) ->
  exists b', copy_blocks (block_fuel v) setBits len (b, set_position 0 v)
             = (Ok tt, (b', set_position (_length v) v))
             /\ overwritten b (_position b) (abs v) b'.
Proof.
  intros Hb Hv Hf Hlen Hroom. pose proof (wf_position v Hv).
  apply (copy_blocks_run setBits (fun b l b' => overwritten b (_position b) l b') wf) with
    (space := fun b _ rem => _position b + rem <= 64 * Z.of_nat (length (_bits b)))
    (fuel := block_fuel v) (v := set_position 0 v).
  - by intros b1 l b2 _ [].
  - intros b1 Hb1. pose proof (wf_position b1 Hb1). unfold overwritten. simpl.
    split_and!; [done|lia|lia|]. rewrite Nat.add_0_r. by rewrite take_drop.
  - intros b1 l1 b2 l2 b3 Hb1 H1 H2. pose proof H1 as (_ & Hp & _).
    rewrite Hp in H2. eapply overwritten_trans; eauto using wf_position.
  - intros b1 x n rem Hb1 Hn Hx Hrem Hsp.
    destruct (setBits_run b1 x n) as (b2 & Hr & Ho); [done..|lia|].
    exists b2. split_and!; [done..|]. intros n' _ _.
    pose proof (setBits_keeps_room _ _ _ rem Ho Hb1 Hsp) as Hk.
    rewrite length_Zbits in Hk. lia.
  - done.
  - apply wf_set_position; [done|lia].
  - done.
  - done.
  - simpl. rewrite Z.sub_0_r. by apply block_fuel_enough.
  - simpl. intros. lia.
Qed.

(** [setBits(BitIO&)] overwrites from the cursor with all bits of the argument. *)
Lemma setBits_BitIO_run b v :
  wf b -> wf v -> fits v ->
  exists b', setBits_BitIO (b, v) = (Ok tt, (b', v))
             /\ overwritten b (_position b) (abs v) b'.
Proof.
  intros Hb Hv Hf. pose proof (wf_position v Hv). pose proof (wf_position b Hb).
  pose proof (length_abs_Z v Hv).
  set (m := _position b + _length v).
  set (b0 := if _length b <? m then grown m b else b).
  assert (wf b0 /\ _position b0 = _position b /\ m <= 64 * Z.of_nat (length (_bits b0)))
    as (Hb0 & Hp0 & Hroom).
  { subst b0. destruct (Z.ltb_spec (_length b) m).
    - destruct (grown_appended m b Hb) as (Hw & Hp & _); [lia|].
      split_and!; [done|done|]. rewrite (wf_size _ Hw). simpl. lia.
    - split_and!; [done|done|]. rewrite (wf_size b Hb). lia. }
  destruct (set_blocks_run b0 v (BITIO_SIZEOF_LONG - getEndBitIndex b0)) as (b' & Hrun & Ho);
    [done|done|done|apply first_block_range|rewrite Hp0; done|].
  exists b'. split.
  - unfold setBits_BitIO. do 3 step_by reflexivity. cbn [fst snd]. fold m.
    assert (when (_length b <? m) (on_this (modify (set_length m);; resizeIfNeeded)) (b, v)
            = (Ok tt, (b0, v))) as Hgrow.
    { subst b0. destruct (_length b <? m); [|done]. unfold when, on_this. cbn [fst snd].
      step_by reflexivity. by rewrite resizeIfNeeded_run by lia. }
    step Hgrow.
    step_by (unfold on_value; cbn [fst snd]; rewrite movePositionTo_ok by lia; reflexivity).
    step_by reflexivity. step Hrun.
    unfold on_value. cbn [fst snd]. rewrite movePositionTo_ok by (unfold getPosition; simpl; lia). by destruct v.
  - rewrite Hp0 in Ho. subst b0. destruct (Z.ltb_spec (_length b) m); [|done].
    eapply overwritten_grown; [done| | | |exact Ho]; lia.
Qed.

(** ** Copying *)
Lemma copy_loop_run fuel : forall n cl b r,
  wf b -> fits b -> wf r -> 0 <= n -> _position b + n <= _length b ->
  (cl = 64 \/ n = 0) -> (n + 63) / 64 + 1 <= Z.of_nat fuel ->
  exists r', copy_loop fuel n cl (b, r) = (Ok tt, (set_position (_position b + n) b, r'))
             /\ appended r (take (Z.to_nat n) (rest b)) r'.
Proof.
  induction fuel as [|fuel IH]; intros n cl b r Hb Hf Hr Hn Hle Hcl Hfuel; [lia|].
  pose proof (wf_position b Hb). cbn [copy_loop]; cbv zeta.
  destruct (Z.eqb_spec n 0) as [->|H0].
  { exists r. rewrite Z.add_0_r, set_position_same. split; [done|]. by apply appended_nil. }
  destruct Hcl as [->|]; [|done]. unfold BITIO_SIZEOF_LONG.
  remember (if n <? 64 then n else 64) as c eqn:Ec.
  assert (1 <= c <= 64 /\ c <= n /\ (n - c = 0 \/ c = 64)) as (Hc1 & Hc2 & Hc3)
    by (destruct (Z.ltb_spec n 64); lia).
  pose proof (bitsZ_tab_range c (fun i => bitAt b (_position b + i))) as Hrange.
  step_by (unfold on_this; cbn [fst snd]; rewrite getBits_run by (done || lia); reflexivity).
  destruct (appendBits_run r (bitsZ (tab c (fun i => bitAt b (_position b + i)))) c)
    as (r1 & Hrun & Happ); [done|lia|apply Hrange; lia|].
  step_by (unfold on_value; cbn [fst snd]; rewrite Hrun; reflexivity).
  rewrite Zbits_bitsZ_tab, <- rest_take in Happ by (done || lia).
  destruct (IH (n - c) c (set_position (_position b + c) b) r1) as (r2 & Hrun2 & Happ2);
    [by apply wf_set_position; [|lia]|done|by destruct Happ|lia|simpl; lia|lia|lia|].
  exists r2. split.
  - rewrite Hrun2. do 2 f_equal. unfold set_position. simpl. f_equal. lia.
  - rewrite rest_set_position in Happ2 by (done || lia).
    replace (take (Z.to_nat n) (rest b)) with
      (take (Z.to_nat c) (rest b) ++ take (Z.to_nat (n - c)) (drop (Z.to_nat c) (rest b))).
    + by eapply appended_trans.
    + rewrite take_take_drop. f_equal. lia.
Qed.

Lemma wf_empty : wf empty_BitIO.
Proof.
  constructor; simpl; [lia|done|constructor|]. intros i Hi. unfold bitAt. simpl.
  apply bitOf_beyond; simpl; lia.
Qed.
#[export] Hint Resolve wf_empty : bitio.

Lemma copyBits_run b n :
  wf b -> fits b -> 0 <= n -> _position b + n <= _length b ->
  exists r, copyBits n b = (Ok r, set_position (_position b + n) b)
            /\ appended empty_BitIO (take (Z.to_nat n) (rest b)) r.
Proof.
  intros Hb Hf Hn Hle. pose proof (wf_position b Hb).
  destruct (copy_loop_run (S (S (Z.to_nat (Z.min n (_length b) / 64)))) n 64 b empty_BitIO)
    as (r & Hrun & Happ); auto with bitio; [lia|].
  exists r. split; [|done]. unfold copyBits, BITIO_SIZEOF_LONG. by rewrite Hrun.
Qed.

(** What [appended] means for a fresh object. *)
Lemma appended_fresh l r :
  appended empty_BitIO l r -> wf r /\ _position r = 0 /\ abs r = l /\ rest r = l
                              /\ _length r = Z.of_nat (length l).
Proof.
  intros (Hw & Hp & Ha & Hl). simpl in *. split_and!; try done.
  unfold rest. by rewrite Hp, Ha.
Qed.

(** ** Padding *)
Section padding.
Context (rand : Z -> Z) (Hrand : forall k, 0 <= rand k < two64).

Definition fill_ok (style mask : Z) : Prop :=
  0 <= mask < two64 /\ (style <> BITIO_FILL_RANDOM -> mask = 18446744073709551615).

Lemma all_ones_bit i : 0 <= i < 64 -> Z.testbit 18446744073709551615 i = true.
Proof. intros. change 18446744073709551615 with (Z.ones 64). apply Z.ones_spec_low. lia. Qed.

(** One word of padding over zero bits. *)
Lemma pad_word_bits l k n mask (m := if 64 <=? n then mask else Z.land (makeLeftMask n) mask) :
  0 <= k < Z.of_nat (length l) -> 1 <= n -> 0 <= mask < two64 ->
  Forall (fun w => 0 <= w < two64) l ->
  (forall i, 64 * k <= i -> bitOf l i = false) ->
  bits_set l (64 * k) (Z.min n 64) (fun j => Z.testbit mask (63 - j)) (<[Z.to_nat k := m]> l).
Proof.
  intros Hk Hn Hm Hl Hz.
  assert (0 <= m < two64) as Hmr.
  { subst m. destruct (64 <=? n); [done|]. rewrite Z.land_comm. by apply land_range. }
  split; [auto with bitio|]. intros i Hi. rewrite bitOf_insert by lia.
  case_decide as E.
  - subst m. destruct (Z.leb_spec 64 n).
    + case_decide; [f_equal; lia|lia].
    + rewrite Z.land_spec, makeLeftMask_spec by lia.
      destruct (Z.leb_spec (64 - n) (63 - i mod 64)), (Z.ltb_spec (63 - i mod 64) 64);
        simpl; case_decide; try lia; [f_equal; lia|by rewrite Hz by lia].
  - case_decide; [lia|done].
Qed.

Lemma pad_words_run style fuel : forall lI n draw mask b,
  fill_ok style mask -> 0 <= n -> 0 <= lI -> (n + 63) / 64 + 1 <= Z.of_nat fuel ->
  Forall (fun w => 0 <= w < two64) (_bits b) ->
  64 * (lI + 1) + n <= 64 * Z.of_nat (length (_bits b)) ->
  (forall i, 64 * (lI + 1) <= i -> bitOf (_bits b) i = false) ->
  exists l' f, pad_words fuel rand style lI n draw mask b = (Ok tt, set_bits l' b)
    /\ bits_set (_bits b) (64 * (lI + 1)) n f l'
    /\ length l' = length (_bits b)
    /\ (style <> BITIO_FILL_RANDOM -> forall j, 0 <= j < n -> f j = true).
Proof using Hrand.
  induction fuel as [|fuel IH]; intros lI n draw mask b Hmask Hn HlI Hfuel Hw Hroom Hz; [lia|].
  cbn [pad_words]; cbv zeta. destruct (Z.eqb_spec n 0) as [->|H0].
  { exists (_bits b), (fun _ => true). split_and!; try done; [by destruct b|].
    split; [done|]. intros i Hi. case_decide; [lia|done]. }
  set (mask1 := if style =? BITIO_FILL_RANDOM then rand draw else mask).
  assert (fill_ok style mask1) as Hm1.
  { subst mask1. destruct (Z.eqb_spec style BITIO_FILL_RANDOM); [by split|done]. }
  pose proof (pad_word_bits (_bits b) (lI + 1) n mask1 ltac:(lia) ltac:(lia) (proj1 Hm1) Hw Hz)
    as Hset.
  unfold BITIO_SIZEOF_LONG.
  set (n' := if 64 <=? n then n - 64 else 0).
  set (w := if 64 <=? n then mask1 else Z.land (makeLeftMask n) mask1) in *.
  destruct (IH (lI + 1) n' (draw + 1) mask1 (set_bits (<[Z.to_nat (lI + 1) := w]> (_bits b)) b))
    as (l' & f & Hrun & Hset' & Hlen & Hones).
  - done.
  - subst n'. destruct (Z.leb_spec 64 n); lia.
  - lia.
  - subst n'. destruct (Z.leb_spec 64 n); lia.
  - apply Hset.
  - simpl. rewrite length_insert. subst n'. destruct (Z.leb_spec 64 n); lia.
  - simpl. intros i Hi. rewrite (proj2 Hset) by lia. case_decide; [lia|]. apply Hz. lia.
  - exists l', (fun j => if decide (j < 64) then Z.testbit mask1 (63 - j) else f (j - 64)).
    simpl in Hlen; rewrite length_insert in Hlen. split_and!; [|split; [apply Hset'|]|done|].
    + subst n' w. destruct (64 <=? n); step_by (apply write_word_ok; simpl; lia);
        rewrite Hrun; by destruct b.
    + intros i Hi. rewrite (proj2 Hset') by done. simpl. rewrite (proj2 Hset) by done.
      subst n'. destruct (Z.leb_spec 64 n); repeat case_decide; try lia; try done;
        f_equal; lia.
    + intros Hs j Hj. case_decide.
      * rewrite (proj2 Hm1 Hs). apply all_ones_bit. lia.
      * apply Hones; [done|]. subst n'. destruct (Z.leb_spec 64 n); lia.
Qed.
End padding.

Lemma elem_of_tab {A} n (f : Z -> A) x : x ∈ tab n f -> exists j, 0 <= j < n /\ f j = x.
Proof.
  intros Hx. apply list_elem_of_lookup in Hx as [i Hi]. rewrite lookup_tab in Hi.
  case_decide; [|done]. simplify_eq. exists (Z.of_nat i). split; [lia|done].
Qed.

Lemma round_up_mod len m :
  0 < m -> (len + (m - len mod m)) mod m = 0.
Proof.
  intros Hm. rewrite (Z.div_mod len m) at 1 by lia.
  replace (m * (len / m) + len mod m + (m - len mod m)) with ((len / m + 1) * m) by ring.
  apply Z.mod_mul. lia.
Qed.

(** The bits written after the first partial word and the padding loop. *)
Lemma pad_fill_run rand style b n (c := Z.min n (64 - _length b mod 64))
    (mask := if style =? BITIO_FILL_RANDOM then rand 0 else 18446744073709551615) :
  (forall k, 0 <= rand k < two64) -> wf b -> 1 <= n ->
  exists l f,
    (update_word (_length b / 64) (fun w =>
       Z.lor w (Z.land (makeCenterMask c (64 - _length b mod 64 - c)) mask));;
     pad_words (S (S (Z.to_nat (n / 64)))) rand style (_length b / 64) (n - c) 1 mask)
      (grown (_length b + n) b)
    = (Ok tt, mkBitIO l (_position b) (_length b + n))
    /\ appended b (tab n f) (mkBitIO l (_position b) (_length b + n))
    /\ (style <> BITIO_FILL_RANDOM -> forall j, 0 <= j < n -> f j = true).
Proof.
  intros Hrand Hb Hn. pose proof (wf_position b Hb). pose proof (wf_size b Hb).
  destruct (grown_appended (_length b + n) b Hb ltac:(lia)) as (Hg & _ & _ & _).
  pose proof (wf_size _ Hg) as Hgs. simpl in Hgs.
  assert (fill_ok style mask) as Hmask.
  { subst mask. destruct (Z.eqb_spec style BITIO_FILL_RANDOM); [by split|].
    split; [unfold two64; lia|done]. }
  assert (1 <= c <= 64 /\ c <= n /\ c <= 64 - _length b mod 64
          /\ (c = n \/ c = 64 - _length b mod 64)) as (Hc1 & Hc2 & Hc3 & Hc4) by (subst c; lia).
  clearbody c mask.
  set (k := _length b / 64) in *. set (r := _length b mod 64) in *.
  assert (_length b = 64 * k + r /\ 0 <= r < 64) as [Hk Hr] by (subst k r; lia). clearbody k r.
  set (l0 := resize_words ((_length b + n + 63) / 64) (_bits b)) in *.
  assert (forall i, 0 <= i -> bitOf l0 i = bitAt b i) as Hl0
    by (intros; apply bitOf_resize; lia).
  set (w1 := Z.lor (default 0 (l0 !! Z.to_nat k)) (Z.land (makeCenterMask c (64 - r - c)) mask)).
  assert (0 <= w1 < two64) as Hw1.
  { subst w1. apply lor_range; [|apply land_range, makeCenterMask_range].
    apply (default_word_range (grown (_length b + n) b)). done. }
  assert (bits_set l0 (_length b) c (fun j => Z.testbit mask (63 - r - j))
            (<[Z.to_nat k := w1]> l0)) as Hset1.
  { split; [apply Forall_words_insert; [apply Hg|done]|]. intros i Hi.
    rewrite bitOf_insert by lia. case_decide as E; [|case_decide; [lia|done]].
    subst w1. rewrite Z.lor_spec, Z.land_spec, makeCenterMask_spec, bitOf_word by lia.
    replace (64 * k + 63 - (63 - i mod 64)) with i by lia.
    destruct (Z.leb_spec (64 - r - c) (63 - i mod 64)),
      (Z.ltb_spec (63 - i mod 64) (c + (64 - r - c))), (Z.ltb_spec (63 - i mod 64) 64);
      simpl; case_decide; try lia; try by rewrite orb_false_r.
    rewrite Hl0 by lia. rewrite wf_padding by (done || lia). simpl. f_equal. lia. }
  destruct (pad_words_run rand Hrand style (S (S (Z.to_nat (n / 64)))) k (n - c) 1 mask
    (mkBitIO (<[Z.to_nat k := w1]> l0) (_position b) (_length b + n)))
    as (l' & f & Hrun & Hset2 & Hlen & Hones); [done|lia|lia|lia|apply Hset1|..].
  { simpl. rewrite length_insert. lia. }
  { simpl. intros i Hi. rewrite (proj2 Hset1) by lia. case_decide; [lia|].
    rewrite Hl0 by lia. apply wf_padding; [done|lia]. }
  simpl in Hset2, Hlen. rewrite length_insert in Hlen.
  exists l', (fun j => if decide (j < c) then Z.testbit mask (63 - r - j) else f (j - c)).
  split_and!.
  - step_by (apply update_word_ok; simpl; fold l0; lia). exact Hrun.
  - apply appended_bits; [done|lia|rewrite Hlen; done|apply Hset2|]. intros i Hi.
    rewrite (proj2 Hset2), (proj2 Hset1), Hl0 by done.
    repeat case_decide; try lia; try done; try (f_equal; lia).
    by apply wf_padding; [|lia].
  - intros Hs j Hj. case_decide.
    + rewrite (proj2 Hmask Hs). apply all_ones_bit. lia.
    + apply Hones; [done|lia].
Qed.

Lemma padWidth_run rand multiple style b :
  (forall k, 0 <= rand k < two64) -> wf b -> 1 < multiple ->
  exists l b', padWidth rand multiple style b = (Ok tt, b') /\ appended b l b'
    /\ _length b' mod multiple = 0 /\ Z.of_nat (length l) < multiple
    /\ (style = BITIO_FILL_ZEROS -> forall x, x ∈ l -> x = false)
    /\ (style = BITIO_FILL_ONES -> forall x, x ∈ l -> x = true).
Proof.
  intros Hrand Hb Hm. pose proof (wf_position b Hb).
  pose proof (Z.mod_pos_bound (_length b) multiple ltac:(lia)) as Hmod.
  unfold padWidth. destruct (Z.leb_spec multiple 1); [lia|].
  step_by reflexivity. unfold getLength.
  destruct (Z.eqb_spec (_length b mod multiple) 0) as [E|E].
  { exists [], b. split_and!; [done|by apply appended_nil|done|simpl; lia|..];
      intros _ x Hx; by apply not_elem_of_nil in Hx. }
  pose proof (round_up_mod (_length b) multiple ltac:(lia)) as Hdiv.
  remember (multiple - _length b mod multiple) as n eqn:En.
  assert (1 <= n < multiple) as Hn by lia.
  step_by reflexivity. step_by (rewrite resizeIfNeeded_run by lia; reflexivity).
  destruct (Z.eqb_spec style BITIO_FILL_ZEROS) as [->|Hz].
  - pose proof (grown_appended (_length b + n) b Hb ltac:(lia)) as Hg.
    replace (_length b + n - _length b) with n in Hg by lia.
    exists (zeros n), (grown (_length b + n) b). split_and!; try done.
    + unfold zeros. rewrite length_tab. lia.
    + intros _ x Hx. apply elem_of_tab in Hx as (j & _ & <-). done.
  - destruct (pad_fill_run rand style b n Hrand Hb ltac:(lia)) as (l & f & Hrun & Happ & Hones).
    exists (tab n f), (mkBitIO l (_position b) (_length b + n)).
    split_and!; [exact Hrun|done|done|rewrite length_tab; lia|done|].
    intros -> x Hx. apply elem_of_tab in Hx as (j & Hj & <-). by apply Hones.
Qed.
