(* ===== verification/BitIOInsert.v ===== *)
(** BitIOInsert: insertion of bits at the cursor (both overloads of
    [BitIO::insertBits]) and construction from bytes. *)

From S2P Require Import Prelude.
From S2P Require Import BitIO.
From S2P Require Import BitIOBlocks.

Ltac Zify.zify_post_hook ::= Z.div_mod_to_equations.

(** ** Descending word loops *)
Lemma words_down_cons first last :
  first <= last -> words_down first last = last :: words_down first (last - 1).
Proof.
  intros H. unfold words_down.
  replace (last - first + 1) with ((last - 1 - first + 1) + 1) by lia.
  rewrite seqZ_app by lia. rewrite rev_app_distr. simpl. f_equal. lia.
Qed.

Lemma words_down_nil first last : last < first -> words_down first last = [].
Proof. intros H. unfold words_down. by rewrite seqZ_nil by lia. Qed.

Section down_loop.
Context (body : Z -> M BitIO unit) (G : list Z -> Z -> Z) (first : Z).
Context (Hfirst : 0 <= first).
(** Turn [k] stores [G words k], which depends on the words up to [k] only. *)
Context (body_ok : forall b k, first <= k < Z.of_nat (length (_bits b)) ->
  body k b = (Ok tt, set_bits (<[Z.to_nat k := G (_bits b) k]> (_bits b)) b)).
Context (G_local : forall l l' k, first <= k -> length l = length l' ->
  (forall j, (j <= Z.to_nat k)%nat -> l !! j = l' !! j) -> G l k = G l' k).

Lemma down_loop_run n : forall b last,
  last = first + Z.of_nat n - 1 -> last < Z.of_nat (length (_bits b)) ->
  exists l', for_each (words_down first last) body b = (Ok tt, set_bits l' b)
    /\ length l' = length (_bits b)
    /\ forall k : nat, l' !! k =
         if decide (first <= Z.of_nat k <= last) then Some (G (_bits b) (Z.of_nat k))
         else _bits b !! k.
Proof.
  induction n as [|n IH]; intros b last Hlast Hlen.
  - rewrite words_down_nil by lia. exists (_bits b). split_and!; [by destruct b|done|].
    intros k. case_decide; [lia|done].
  - rewrite words_down_cons by lia. cbn [for_each].
    step (body_ok b last ltac:(lia)).
    destruct (IH (set_bits (<[Z.to_nat last := G (_bits b) last]> (_bits b)) b) (last - 1))
      as (l' & Hrun & Hl & Hk); [lia|simpl; rewrite length_insert; lia|].
    exists l'. rewrite Hrun. simpl in Hl, Hk. rewrite length_insert in Hl.
    split_and!; [by destruct b|done|]. intros k. rewrite Hk.
    destruct (decide (first <= Z.of_nat k <= last - 1)).
    + rewrite decide_True by lia. f_equal. apply G_local; [lia|by rewrite length_insert|].
      intros j Hj. apply list_lookup_insert_ne. lia.
    + destruct (decide (Z.of_nat k = last)) as [<-|Hne].
      * rewrite decide_True, Nat2Z.id by lia. rewrite list_lookup_insert_eq by lia. done.
      * rewrite decide_False by lia. apply list_lookup_insert_ne. lia.
Qed.
End down_loop.

Lemma getEndLongIndex_run b :
  0 < Z.of_nat (length (_bits b)) ->
  getEndLongIndex b = Z.of_nat (length (_bits b)) - 1.
Proof. unfold getEndLongIndex. destruct (_bits b); simpl; [lia|done]. Qed.

Lemma default_lookup_eq (l l' : list Z) k k' :
  l !! k = l' !! k' -> default 0 (l !! k) = default 0 (l' !! k').
Proof. by intros ->. Qed.

(** Two words shifted into one, seen from the bits. *)
Lemma shifted_word_bit (l : list Z) k n r :
  1 <= k -> 1 <= n < 64 -> 0 <= r < 64 -> Forall (fun w => 0 <= w < two64) l ->
  Z.testbit (Z.lor (shr64 (default 0 (l !! Z.to_nat k)) n)
               (shl64 (default 0 (l !! Z.to_nat (k - 1))) (64 - n))) (63 - r)
  = bitOf l (64 * k + r - n).
Proof.
  intros Hk Hn Hr Hl. rewrite Z.lor_spec, testbit_shr64, testbit_shl64 by lia.
  destruct (Z.ltb_spec (63 - r) 64); [|lia]. rewrite andb_true_r.
  destruct (Z.lt_ge_cases r n).
  - rewrite (testbit_high (default 0 (l !! Z.to_nat k)) 64), orb_false_l;
      [|rewrite <- two64_pow; by apply Forall_default_word|lia].
    rewrite bitOf_word by lia. f_equal. lia.
  - rewrite (Z.testbit_neg_r _ (63 - r - (64 - n))), orb_false_r by lia.
    rewrite bitOf_word by lia. f_equal. lia.
Qed.

Lemma bitOf_lookup (l l' : list Z) (i k : Z) :
  0 <= i -> 0 <= k -> l !! Z.to_nat (i / 64) = l' !! Z.to_nat k ->
  bitOf l i = bitOf l' (64 * k + i mod 64).
Proof.
  intros Hi Hk H. unfold bitOf. rewrite H.
  replace ((64 * k + i mod 64) / 64) with k by lia. f_equal. lia.
Qed.

(** [shift_words_back]: bits from word [lIEnd + 1] on come from [length] bits
    earlier. *)
Lemma shift_words_back_run b k n :
  0 <= k < Z.of_nat (length (_bits b)) -> 1 <= n < 64 ->
  Forall (fun w => 0 <= w < two64) (_bits b) ->
  exists l', shift_words_back k n b = (Ok tt, set_bits l' b)
    /\ length l' = length (_bits b) /\ Forall (fun w => 0 <= w < two64) l'
    /\ (forall i, 0 <= i < 64 * (k + 1) -> bitOf l' i = bitOf (_bits b) i)
    /\ (forall i, 64 * (k + 1) <= i < 64 * Z.of_nat (length l') ->
          bitOf l' i = bitOf (_bits b) (i - n)).
Proof.
  intros Hk Hn Hw.
  set (G := fun (l : list Z) lI => Z.lor (shr64 (default 0 (l !! Z.to_nat lI)) n)
                          (shl64 (default 0 (l !! Z.to_nat (lI - 1))) (64 - n))).
  destruct (down_loop_run (fun lI =>
      b ← get;
      w ← vec_at (_bits b) lI;
      w1 ← vec_at (_bits b) (lI - 1);
      write_word lI (Z.lor (shr64 w n) (shl64 w1 (BITIO_SIZEOF_LONG - n)))) G (k + 1))
    with (n := Z.to_nat (Z.of_nat (length (_bits b)) - 1 - k)) (b := b)
         (last := Z.of_nat (length (_bits b)) - 1)
    as (l' & Hrun & Hlen & Hl'); [lia|..].
  - intros b1 j Hj. step_by reflexivity. do 2 step_by (apply vec_at_word; lia).
    apply write_word_ok. lia.
  - intros l l1 j Hj Hll H. unfold G. f_equal; do 2 f_equal; apply H; lia.
  - lia.
  - lia.
  - exists l'. unfold shift_words_back. step_by reflexivity.
    rewrite getEndLongIndex_run by lia. split_and!; [exact Hrun|done|..].
    + apply Forall_lookup. intros j w Hj. rewrite Hl' in Hj. case_decide.
      * simplify_eq. unfold G. apply lor_range; [|apply u64_range].
        apply shr64_range; [lia|]. by apply Forall_default_word.
      * by apply (Forall_lookup_1 _ _ _ _ Hw Hj).
    + intros i Hi. unfold bitOf. rewrite Hl', decide_False by lia. done.
    + intros i Hi. unfold bitOf at 1. rewrite Hl', decide_True by lia.
      simpl. rewrite Z2Nat.id by lia. unfold G. rewrite shifted_word_bit by (done || lia).
      f_equal. lia.
Qed.

Lemma move_words_back_run b k off :
  0 <= k -> 1 <= off -> k + off <= Z.of_nat (length (_bits b)) ->
  Forall (fun w => 0 <= w < two64) (_bits b) ->
  exists l', move_words_back k off b = (Ok tt, set_bits l' b)
    /\ length l' = length (_bits b) /\ Forall (fun w => 0 <= w < two64) l'
    /\ (forall i, 0 <= i < 64 * (k + off) -> bitOf l' i = bitOf (_bits b) i)
    /\ (forall i, 64 * (k + off) <= i < 64 * Z.of_nat (length l') ->
          bitOf l' i = bitOf (_bits b) (i - 64 * off)).
Proof.
  intros Hk Hoff Hroom Hw.
  set (G := fun (l : list Z) lI => default 0 (l !! Z.to_nat (lI - off))).
  destruct (down_loop_run (fun lI =>
      b ← get; w ← vec_at (_bits b) (lI - off); write_word lI w) G (k + off))
    with (n := Z.to_nat (Z.of_nat (length (_bits b)) - (k + off))) (b := b)
         (last := Z.of_nat (length (_bits b)) - 1)
    as (l' & Hrun & Hlen & Hl'); [lia|..].
  - intros b1 j Hj. step_by reflexivity. step_by (apply vec_at_word; lia).
    apply write_word_ok. lia.
  - intros l l1 j Hj Hll H. unfold G. f_equal. apply H. lia.
  - lia.
  - lia.
  - exists l'. unfold move_words_back. step_by reflexivity.
    rewrite getEndLongIndex_run by lia. split_and!; [exact Hrun|done|..].
    + apply Forall_lookup. intros j w Hj. rewrite Hl' in Hj. case_decide.
      * simplify_eq. by apply Forall_default_word.
      * by apply (Forall_lookup_1 _ _ _ _ Hw Hj).
    + intros i Hi. unfold bitOf. rewrite Hl', decide_False by lia. done.
    + intros i Hi. unfold bitOf at 1. rewrite Hl', decide_True by lia.
      simpl. rewrite Z2Nat.id by lia. unfold G. rewrite bitOf_word by lia. f_equal. lia.
Qed.

(** ** The gap *)

(** [l'] has the words of [l] with a gap of [m] bits opened at [p]; the bits in
    the gap do not matter. *)
Definition opened (l : list Z) (p m : Z) (l' : list Z) : Prop :=
  length l' = length l /\ Forall (fun w => 0 <= w < two64) l'
  /\ (forall i, 0 <= i < p -> bitOf l' i = bitOf l i)
  /\ (forall i, p + m <= i < 64 * Z.of_nat (length l) -> bitOf l' i = bitOf l (i - m)).

(** The cursor's word: the bits left of the cursor and the ones that moved. *)
Lemma moved_bits w n r bI :
  0 <= w < two64 -> 1 <= n -> 0 <= bI -> bI + n <= 64 -> 0 <= r < 64 ->
  Z.testbit (Z.land (shr64 w n) (makeRightMask (64 - (bI + n)))) (63 - r)
  = if decide (bI + n <= r) then Z.testbit w (63 - (r - n)) else false.
Proof.
  intros Hw Hn HbI Hle Hr. rewrite Z.land_spec, testbit_shr64, makeRightMask_spec by lia.
  destruct (Z.ltb_spec (63 - r) (64 - (bI + n))); case_decide; try lia.
  - rewrite andb_true_r. f_equal. lia.
Qed.

Lemma notMovingPart_bits w bI r :
  0 <= bI < 64 -> 0 <= r < 64 ->
  Z.testbit (notMovingPart bI w) (63 - r) = (r <? bI) && Z.testbit w (63 - r).
Proof.
  intros HbI Hr. unfold notMovingPart. destruct (Z.eqb_spec bI 0) as [->|].
  - rewrite Z.testbit_0_l. destruct (Z.ltb_spec r 0); [lia|done].
  - rewrite Z.land_spec, makeLeftMask_spec, andb_comm by lia. f_equal.
    destruct (Z.leb_spec (64 - bI) (63 - r)), (Z.ltb_spec (63 - r) 64), (Z.ltb_spec r bI);
      simpl; lia || done.
Qed.

Lemma notMovingPart_range bI w : 0 <= w < two64 -> 0 <= notMovingPart bI w < two64.
Proof.
  intros. unfold notMovingPart. destruct (bI =? 0); [unfold two64; lia|by apply land_range].
Qed.
#[export] Hint Resolve notMovingPart_range Forall_default_word : bitio.

(** Writing the gap gives the insertion. *)
Definition inserted (b : BitIO) (l : list bool) (b' : BitIO) : Prop :=
  wf b' /\ _position b' = _position b + Z.of_nat (length l)
  /\ _length b' = _length b + Z.of_nat (length l)
  /\ abs b' = take (Z.to_nat (_position b)) (abs b) ++ l
              ++ drop (Z.to_nat (_position b)) (abs b).

Lemma grown_bit m b i : wf b -> _length b <= m -> 0 <= i ->
  bitOf (_bits (grown m b)) i = bitAt b i.
Proof.
  intros Hb Hm Hi. pose proof (wf_size b Hb). pose proof (wf_position b Hb).
  apply bitOf_resize; lia.
Qed.

Section opened.
Context (b : BitIO) (m : Z) (l' : list Z).
Context (Hb : wf b) (Hm : 0 <= m).
Context (Ho : opened (_bits (grown (_length b + m) b)) (_position b) m l').
Let b1 := mkBitIO l' (_position b) (_length b + m).

Lemma opened_wf : wf b1 /\ take (Z.to_nat (_position b)) (abs b1)
                           = take (Z.to_nat (_position b)) (abs b)
  /\ drop (Z.to_nat (_position b + m)) (abs b1) = drop (Z.to_nat (_position b)) (abs b).
Proof.
  destruct Ho as (Hlen & Hw & Hlow & Hhigh). pose proof (wf_position b Hb).
  destruct (grown_appended (_length b + m) b Hb ltac:(lia)) as (Hg & _).
  pose proof (wf_size _ Hg) as Hs. rewrite <- Hlen in Hs, Hhigh. simpl in Hs.
  split_and!.
  - constructor; simpl; [lia|done|done|]. intros i Hi. unfold bitAt. simpl.
    destruct (Z.lt_ge_cases i (64 * Z.of_nat (length l'))).
    + rewrite Hhigh, grown_bit by (done || lia). apply wf_padding; [done|lia].
    + apply bitOf_beyond; lia.
  - unfold abs, b1. simpl. rewrite !take_tab by lia. apply tab_ext. intros i Hi.
    unfold bitAt at 1. simpl. rewrite Hlow, grown_bit by (done || lia). done.
  - unfold abs, b1. simpl. rewrite !drop_tab by lia.
    replace (_length b + m - (_position b + m)) with (_length b - _position b) by lia.
    apply tab_ext. intros i Hi. unfold bitAt at 1. simpl.
    rewrite Hhigh, grown_bit by (done || lia). f_equal. lia.
Qed.

Lemma opened_overwritten l b' :
  Z.of_nat (length l) = m -> overwritten b1 (_position b) l b' -> inserted b l b'.
Proof.
  intros Hl (Hw & Hp & Hlen & Ha). destruct opened_wf as (_ & Ht & Hd).
  pose proof (wf_position b Hb). simpl in Hlen. split_and!; [done|lia|lia|].
  rewrite Ha, Ht. do 2 f_equal. rewrite <- Hd. f_equal. lia.
Qed.
End opened.

(** ** [insertBits(value, length)] *)
Section insertBits.
Context (b : BitIO) (v n : Z).
Context (Hb : wf b) (Hn : 1 <= n <= 64) (Hv : 0 <= v < 2 ^ n).
Let b0 := grown (_length b + n) b.
Let p := _position b.
Let k := p / 64.

Lemma insert_bounds :
  wf b0 /\ 0 <= k /\ 64 * k <= p < 64 * k + 64
  /\ p + n <= 64 * Z.of_nat (length (_bits b0)) /\ _position b0 = p.
Proof.
  pose proof (wf_position b Hb).
  destruct (grown_appended (_length b + n) b Hb ltac:(lia)) as (Hg & _).
  pose proof (wf_size _ Hg) as Hs. simpl in Hs. subst b0 p k. simpl.
  split_and!; done || lia.
Qed.

Lemma open_gap_word :
  n = 64 -> exists l', move_words_back k 1 b0 = (Ok tt, set_bits l' b0)
                       /\ opened (_bits b0) p n l'.
Proof.
  intros Hn64. destruct insert_bounds as (Hg & Hk & Hpk & Hroom & _).
  destruct (move_words_back_run b0 k 1) as (l' & Hrun & Hlen & Hw & Hlow & Hhigh);
    [lia|lia|lia|apply Hg|].
  exists l'. split; [done|]. split_and!; [done|done|..]; intros i Hi.
  - apply Hlow. lia.
  - rewrite Hhigh by lia. f_equal. lia.
Qed.

Lemma open_gap_bits :
  n < 64 ->
  exists l',
    (shift_words_back k n;;
     bI ← gets getBitIndex;
     update_word k (fun w =>
       let movedPart :=
         if BITIO_SIZEOF_LONG - bI <? n then 0
         else Z.land (shr64 w n) (makeRightMask (BITIO_SIZEOF_LONG - bI - n)) in
       Z.lor (notMovingPart bI w) movedPart)) b0 = (Ok tt, set_bits l' b0)
    /\ opened (_bits b0) p n l'.
Proof.
  intros Hn64. destruct insert_bounds as (Hg & Hk & Hpk & Hroom & Hp0).
  destruct (shift_words_back_run b0 k n) as (l1 & Hrun & Hlen & Hw & Hlow & Hhigh);
    [lia|lia|apply Hg|].
  set (bI := p mod 64). assert (p = 64 * k + bI /\ 0 <= bI < 64) as [HpI HbI]
    by (subst bI k; lia). clearbody bI.
  set (w := default 0 (l1 !! Z.to_nat k)).
  set (moved := if 64 - bI <? n then 0 else Z.land (shr64 w n) (makeRightMask (64 - bI - n))).
  assert (0 <= w < two64) as Hwr by (by apply Forall_default_word).
  assert (0 <= moved < two64) as Hmr.
  { subst moved. destruct (64 - bI <? n); [unfold two64; lia|].
    apply land_range, shr64_range; [lia|done]. }
  exists (<[Z.to_nat k := Z.lor (notMovingPart bI w) moved]> l1). split.
  { step Hrun. step_by reflexivity. unfold getBitIndex, BITIO_SIZEOF_LONG. simpl.
    rewrite update_word_ok by (simpl; lia). simpl. fold p.
    replace (p mod 64) with bI by lia. done. }
  split_and!.
  - by rewrite length_insert.
  - auto with bitio.
  - intros i Hi. rewrite bitOf_insert by lia. case_decide as E; [|apply Hlow; lia].
    rewrite Z.lor_spec, notMovingPart_bits by lia.
    destruct (Z.ltb_spec (i mod 64) bI); [|lia]. subst w. rewrite andb_true_l.
    replace (Z.testbit moved (63 - i mod 64)) with false.
    + rewrite orb_false_r, bitOf_word by lia. rewrite Hlow by lia. f_equal. lia.
    + subst moved. destruct (Z.ltb_spec (64 - bI) n); [by rewrite Z.testbit_0_l|].
      rewrite <- Z.sub_add_distr, moved_bits by (done || lia). by rewrite decide_False by lia.
  - intros i Hi. rewrite bitOf_insert by lia. case_decide as E; [|apply Hhigh; lia].
    rewrite Z.lor_spec, notMovingPart_bits by lia.
    destruct (Z.ltb_spec (i mod 64) bI); [lia|]. subst moved w.
    destruct (Z.ltb_spec (64 - bI) n); [lia|].
    rewrite <- Z.sub_add_distr, moved_bits by (done || lia).
    rewrite decide_True, andb_false_l, orb_false_l, bitOf_word by lia.
    rewrite Hlow by lia. f_equal. lia.
Qed.

(** [insertBits] moves everything from the cursor on back by [length] bits
    and writes the value into the gap. *)
Lemma insertBits_run :
  exists b', insertBits v n b = (Ok tt, b') /\ inserted b (Zbits n v) b'.
Proof.
  destruct insert_bounds as (Hg & Hk & Hpk & Hroom & Hp0). pose proof (wf_position b Hb).
  assert (exists l', ((if n =? BITIO_SIZEOF_LONG then move_words_back k 1
     else shift_words_back k n;;
       bI ← gets getBitIndex;
       update_word k (fun w =>
         let movedPart :=
           if BITIO_SIZEOF_LONG - bI <? n then 0
           else Z.land (shr64 w n) (makeRightMask (BITIO_SIZEOF_LONG - bI - n)) in
         Z.lor (notMovingPart bI w) movedPart)) b0 = (Ok tt, set_bits l' b0))
     /\ opened (_bits b0) p n l') as (l' & Hrun & Ho).
  { unfold BITIO_SIZEOF_LONG at 1. destruct (Z.eqb_spec n 64);
      [by apply open_gap_word|apply open_gap_bits; lia]. }
  destruct (opened_wf b n l' Hb ltac:(lia) Ho) as (Hw1 & _).
  destruct (setBits_run (mkBitIO l' p (_length b + n)) v n) as (b' & Hset & Hov);
    [done|done|done|simpl; destruct Ho as (-> & _); lia|].
  exists b'. split.
  - unfold insertBits. step (checkValueSize_ok v n b ltac:(lia) Hv).
    step_by reflexivity. step_by (rewrite resizeIfNeeded_run by lia; reflexivity).
    step_by reflexivity. step Hrun. exact Hset.
  - apply (opened_overwritten b n l' Hb ltac:(lia) Ho); [|exact Hov].
    rewrite length_Zbits. lia.
Qed.
End insertBits.

(** ** [insertBits(BitIO&)] *)

Section open_partial.
Context (b : BitIO) (l0 : list Z) (k off s p bI : Z).
Context (Hl1 : Forall (fun w => 0 <= w < two64) (_bits b)).
Context (Hk : 0 <= k) (Hoff : 0 <= off) (Hs : 1 <= s < 64).
Context (Hroom : k + off < Z.of_nat (length (_bits b))).
Context (Hp : _position b = p) (Hpk : p = 64 * k + bI) (HbI : 0 <= bI < 64).
Context (Hlow : forall i, 0 <= i < 64 * (k + off) -> bitOf (_bits b) i = bitOf l0 i).
Context (Hhigh : forall i, 64 * (k + off) <= i < 64 * Z.of_nat (length (_bits b)) ->
                   bitOf (_bits b) i = bitOf l0 (i - 64 * off)).
Context (Hlen0 : length l0 = length (_bits b)).

Let moved (w : Z) :=
  if 64 <? bI + s then 0 else Z.land (shr64 w s) (makeRightMask (64 - (bI + s))).

Lemma moved_range w : 0 <= w < two64 -> 0 <= moved w < two64.
Proof.
  intros. unfold moved. destruct (64 <? bI + s); [unfold two64; lia|].
  apply land_range, shr64_range; [lia|done].
Qed.

Lemma moved_testbit w r :
  0 <= w < two64 -> 0 <= r < 64 ->
  Z.testbit (moved w) (63 - r)
  = if decide (bI + s <= r) then Z.testbit w (63 - (r - s)) else false.
Proof.
  intros Hw Hr. unfold moved. destruct (Z.ltb_spec 64 (bI + s)).
  - rewrite Z.testbit_0_l. by rewrite decide_False by lia.
  - by rewrite moved_bits by (done || lia).
Qed.

Lemma open_partial_word_run :
  exists l', open_partial_word (k + off) off s b = (Ok tt, set_bits l' b)
             /\ opened l0 p (64 * off + s) l'.
Proof.
  destruct (shift_words_back_run b (k + off) s) as (l2 & Hrun & Hlen & Hw & Hlow2 & Hhigh2);
    [lia|done|done|].
  set (w := default 0 (l2 !! Z.to_nat (k + off))).
  assert (0 <= w < two64) as Hwr by (by apply Forall_default_word).
  pose proof (moved_range w Hwr) as Hmr.
  assert (forall r, 0 <= r < 64 -> Z.testbit w (63 - r) = bitOf l0 (64 * k + r)) as Hwbit.
  { intros r Hr. subst w. rewrite bitOf_word by lia. rewrite Hlow2, Hhigh by lia. f_equal. lia. }
  assert (forall i, 64 * (k + off + 1) <= i < 64 * Z.of_nat (length l2) ->
            bitOf l2 i = bitOf l0 (i - (64 * off + s))) as Htail.
  { intros i Hi. rewrite Hhigh2, Hhigh by lia. f_equal. lia. }
  unfold open_partial_word. setoid_rewrite (bind_ok _ _ _ _ _ Hrun). cbn beta.
  unfold getBitIndex, BITIO_SIZEOF_LONG.
  setoid_rewrite (bind_ok _ _ _ bI _); [|unfold gets; simpl; do 2 f_equal; lia]. cbn beta zeta.
  destruct (Z.eqb_spec off 0) as [H0|H0].
  - eexists. split; [rewrite update_word_ok by (simpl; lia); simpl; fold w; done|].
    fold w. fold (moved w). split_and!; [rewrite length_insert; congruence|auto with bitio|..];
      intros i Hi; rewrite bitOf_insert by lia; case_decide as E.
    + rewrite Z.lor_spec, notMovingPart_bits, moved_testbit by lia.
      destruct (Z.ltb_spec (i mod 64) bI); [|lia]. rewrite decide_False by lia.
      rewrite orb_false_r, andb_true_l, Hwbit by lia. f_equal. lia.
    + rewrite Hlow2, Hlow by lia. done.
    + rewrite Z.lor_spec, notMovingPart_bits, moved_testbit by lia.
      destruct (Z.ltb_spec (i mod 64) bI); [lia|]. rewrite decide_True by lia.
      rewrite andb_false_l, orb_false_l, Hwbit by lia. f_equal. lia.
    + apply Htail. lia.
  - exists (<[Z.to_nat (k + off) := moved w]> (<[Z.to_nat k := notMovingPart bI w]> l2)). split.
    { step_by reflexivity. simpl. step_by (apply vec_at_word; lia). fold w.
      replace (k + off - off) with k by lia.
      step_by (apply write_word_ok; simpl; lia). rewrite update_word_ok by
        (simpl; rewrite length_insert; lia). simpl.
      rewrite list_lookup_insert_ne by lia. done. }
    split_and!; [rewrite !length_insert; congruence|auto with bitio|..]; intros i Hi;
      rewrite bitOf_insert by (rewrite ?length_insert; lia); case_decide as E.
    + lia.
    + rewrite bitOf_insert by lia. case_decide.
      * rewrite notMovingPart_bits by lia. destruct (Z.ltb_spec (i mod 64) bI); [|lia].
        rewrite andb_true_l, Hwbit by lia. f_equal. lia.
      * rewrite Hlow2, Hlow by lia. done.
    + rewrite moved_testbit by lia. rewrite decide_True, Hwbit by lia. f_equal. lia.
    + rewrite bitOf_insert by lia. case_decide; [lia|]. apply Htail. lia.
Qed.
End open_partial.

Section insertBits_BitIO.
Context (b v : BitIO).
Context (Hb : wf b) (Hv : wf v) (Hf : fits v).
Let m := _length v.
Let b0 := grown (_length b + m) b.
Let p := _position b.
Let k := p / 64.

(** Both steps together open a gap as long as the argument. *)
Lemma open_gap_run :
  exists l1 l2,
    when (0 <? m / 64) (move_words_back k (m / 64)) b0 = (Ok tt, set_bits l1 b0)
    /\ when (negb (m mod 64 =? 0)) (open_partial_word (k + m / 64) (m / 64) (m mod 64))
         (set_bits l1 b0) = (Ok tt, set_bits l2 b0)
    /\ opened (_bits b0) p m l2.
Proof.
  pose proof (wf_position b Hb). pose proof (wf_position v Hv).
  destruct (grown_appended (_length b + m) b Hb ltac:(subst m; lia)) as (Hg & _).
  assert (Z.of_nat (length (_bits b0)) = (_length b + m + 63) / 64) as Hs by exact (wf_size _ Hg).
  set (off := m / 64). set (s := m mod 64).
  assert (m = 64 * off + s /\ 0 <= off /\ 0 <= s < 64) as (Hm & Hoff & Hsr) by (subst off s m; lia).
  assert (0 <= k /\ p = 64 * k + p mod 64) as [Hk Hpk] by (subst k p; lia).
  assert (p + m <= 64 * Z.of_nat (length (_bits b0))) as Hroom by (subst p; lia).
  assert (0 <= m) by (subst m; lia). clearbody off s m.
  assert (exists l1, when (0 <? off) (move_words_back k off) b0 = (Ok tt, set_bits l1 b0)
    /\ length l1 = length (_bits b0) /\ Forall (fun w => 0 <= w < two64) l1
    /\ (forall i, 0 <= i < 64 * (k + off) -> bitOf l1 i = bitOf (_bits b0) i)
    /\ (forall i, 64 * (k + off) <= i < 64 * Z.of_nat (length l1) ->
          bitOf l1 i = bitOf (_bits b0) (i - 64 * off)))
    as (l1 & Hrun1 & Hlen1 & Hw1 & Hlow & Hhigh).
  { destruct (Z.ltb_spec 0 off).
    - apply move_words_back_run; [done|lia|lia|apply Hg].
    - exists (_bits b0). split_and!; [done|done|apply Hg|done|]. intros i Hi. f_equal. lia. }
  exists l1. destruct (Z.eqb_spec s 0) as [Hs0|Hs0].
  - exists l1. split; [done|]. split; [done|]. split_and!; [done|done|..]; intros i Hi.
    + destruct (Z.lt_ge_cases i (64 * (k + off))); [apply Hlow; lia|].
      rewrite Hhigh by lia. f_equal. lia.
    + rewrite Hhigh by lia. f_equal. lia.
  - destruct (open_partial_word_run (set_bits l1 b0) (_bits b0) k off s p (p mod 64))
      as (l2 & Hrun2 & Ho); simpl; try first [done | lia | congruence].
    exists l2. split_and!; [done|exact Hrun2|]. rewrite <- Hm in Ho; exact Ho.
Qed.

Lemma insertBits_BitIO_run :
  exists b', insertBits_BitIO (b, v) = (Ok tt, (b', v)) /\ inserted b (abs v) b'.
Proof.
  pose proof (wf_position v Hv). pose proof (wf_position b Hb).
  destruct open_gap_run as (l1 & l2 & Hrun1 & Hrun2 & Ho).
  assert (0 <= m) as Hm by (subst m; lia).
  destruct (opened_wf b m l2 Hb Hm Ho) as (Hw2 & _).
  destruct (setBits_BitIO_run (mkBitIO l2 p (_length b + m)) (set_position 0 v))
    as (b' & Hset & Hov); [done|by apply wf_set_position; [|lia]|done|].
  exists b'. split.
  - unfold insertBits_BitIO. step_by reflexivity.
    step_by (unfold on_value; cbn [fst snd]; rewrite movePositionTo_ok by lia; reflexivity).
    do 2 step_by reflexivity.
    step_by (unfold on_this; cbn [fst snd]; change (_length (set_position 0 v)) with m; rewrite resizeIfNeeded_run by lia; reflexivity).
    step_by reflexivity. unfold BITIO_SIZEOF_LONG.
    step_by (exact (on_this_ok _ _ (set_position 0 v) _ _ Hrun1)).
    step_by (exact (on_this_ok _ _ (set_position 0 v) _ _ Hrun2)).
    step Hset. unfold on_value, getPosition. cbn [fst snd].
    rewrite movePositionTo_ok by (simpl; lia). by destruct v.
  - eapply (opened_overwritten b m l2 Hb Hm Ho); [|exact Hov].
    exact (length_abs_Z v Hv).
Qed.
End insertBits_BitIO.
