(* ===== verification/BitIOCodec.v ===== *)
(** The encoders and decoders built on BitIO: the string encodings (alpha,
    packed UTF-8, hex, 3B40 and the "best string" selection), the
    fixed-precision integers, the Bitcoin script pushes, the xBit codes and the
    doubles of src/src/BitIO.cpp.  A [static BitIO make...] returns [outcome BitIO]; a
    member [get...] is a computation on the object it reads.

    Strings are the bytes of the [std::string]; [tolower] is the one of the
    "C" locale. *)

From Stdlib Require Import Floats.SpecFloat.
From S2P Require Import Prelude.
From S2P Require Import BitIO.

Ltac Zify.zify_post_hook ::= Z.div_mod_to_equations.

(** ** Characters *)
Definition byteZ (c : ascii) : Z := Z.of_N (N_of_ascii c).
Definition charZ (v : Z) : ascii := ascii_of_N (Z.to_N (v mod 256)).

Definition BITIO_CHARSET_3B40 : string := "0123456789abcdefghijklmnopqrstuvwxyz#$&.".
Definition BITIO_CHARSET_ALPHA : string := "0123456789abcdefghijklmnopqrstuvwxyz $%*+-./:".
Definition BITIO_CHARSET_HEX : string := "0123456789abcdef".

Definition BITIO_ENCODE_ALPHA : Z := 0.
Definition BITIO_ENCODE_UTF8 : Z := 1.
Definition BITIO_ENCODE_HEX : Z := 2.
Definition BITIO_ENCODE_3B40 : Z := 3.
Definition BITIO_BITCOIN_TYPE_DATA : Z := -2.
Definition BITIO_BITCOIN_OP_RETURN : Z := 106.

Definition chars (s : string) : list ascii := String.list_ascii_of_string s.
Definition str (l : list ascii) : string := String.string_of_list_ascii l.

(** [std::string::find] of one character. *)
Fixpoint find_char (c : ascii) (l : list ascii) : option Z :=
  match l with
  | [] => None
  | d :: l => if Ascii.eqb c d then Some 0 else Z.succ <$> find_char c l
  end.

Definition getCharSetPos {S} (character : ascii) (charSet : string) : M S Z :=
  match find_char character (chars charSet) with
  | Some i => mret i
  | None => invalidCharacter
  end.

(** [std::string::operator[]] const: the terminating zero is readable,
    everything beyond it is not. *)
Definition char_at {S} (charSet : string) (i : Z) : M S ascii :=
  match chars charSet !! Z.to_nat i with
  | Some c => mret c
  | None => if i =? Z.of_nat (length (chars charSet)) then mret Ascii.zero else undefined
  end.

Definition tolower (c : ascii) : ascii :=
  let v := byteZ c in if (65 <=? v) && (v <=? 90) then charZ (v + 32) else c.

Definition stringLength (message : string) : Z :=
  Z.of_nat (length (filter (fun c => Z.land (byteZ c) 192 <> 128) (chars message))).

Definition pow10 {S} (exponent : Z) : M S Z :=
  checkValueRange exponent 0 18;; mret (10 ^ exponent).

(** ** Reading [count] items: [for (i = 0; i < count; i++)] with a body that
    appends to [result].  Every body reads at least one bit, so the bits left
    bound the number of turns before the stream throws. *)
Fixpoint read_items {A} (fuel : nat) (count : Z) (item : M BitIO (list A)) : M BitIO (list A) :=
  if count <=? 0 then mret []
  else match fuel with
  | O => out_of_fuel
  | S fuel => x ← item; l ← read_items fuel (count - 1) item; mret (x ++ l)
  end.

Definition for_items {A} (count : Z) (item : M BitIO (list A)) : M BitIO (list A) :=
  b ← get; read_items (S (Z.to_nat (_length b - _position b))) count item.

(** ** Alpha *)
Fixpoint alpha_chars (message : list ascii) (charI val : Z) : M BitIO (Z * Z) :=
  match message with
  | [] => mret (charI, val)
  | c :: message =>
      pos ← getCharSetPos c BITIO_CHARSET_ALPHA;
      let val := u64 (val * 45 + pos) in
      if charI mod 2 =? 1
      then appendBits val 11;; alpha_chars message (charI + 1) 0
      else alpha_chars message (charI + 1) val
  end.

Definition makeAlphaString (message : string) : outcome BitIO :=
  exec ('(charI, val) ← alpha_chars (chars message) 0 0;
        when (charI mod 2 =? 1) (appendBits val 6)) empty_BitIO.

Definition getAlphaString (length : Z) : M BitIO string :=
  result ← for_items (length / 2)
    (v ← getBits 11;
     c ← char_at BITIO_CHARSET_ALPHA (v / 45);
     d ← char_at BITIO_CHARSET_ALPHA (v mod 45);
     mret [c; d]);
  if length mod 2 =? 1
  then v ← getBits 6; c ← char_at BITIO_CHARSET_ALPHA v; mret (str (result ++ [c]))
  else mret (str result).

(** ** Packed UTF-8 *)
Fixpoint utf8_bytes (message : list ascii) (remainingBytes bitLength block : Z)
    : M BitIO unit :=
  match message with
  | [] => mret tt
  | c :: message =>
      let byte := byteZ c in
      if Z.land byte 128 =? 0 then
        if remainingBytes =? 0
        then appendBits byte 8;; utf8_bytes message remainingBytes bitLength block
        else invalidCharacter
      else if remainingBytes =? 0 then
        if byte <? 223 then utf8_bytes message 2 13 (Z.land byte 127)
        else if byte <? 239 then utf8_bytes message 3 19 (Z.land byte 127)
        else if byte <? 247 then utf8_bytes message 4 24 (Z.lor (Z.land byte 7) 56)
        else invalidCharacter
      else
        let remainingBytes := remainingBytes - 1 in
        let block := Z.lor (shl64 block 6) (Z.land byte 63) in
        if remainingBytes =? 1
        then appendBits block bitLength;; utf8_bytes message 0 bitLength block
        else utf8_bytes message remainingBytes bitLength block
  end.

Definition makeUTF8String (message : string) : outcome BitIO :=
  exec (utf8_bytes (chars message) 0 0 0) empty_BitIO.

Definition utf8_item : M BitIO (list ascii) :=
  h1 ← getBits 1;
  if h1 =? 0 then v ← getBits 7; mret [charZ v]
  else
    h2 ← getBits 1;
    if h2 =? 0 then
      v1 ← getBits 5; v2 ← getBits 6;
      mret [charZ (Z.lor 192 v1); charZ (Z.lor 128 v2)]
    else
      h3 ← getBits 1;
      if h3 =? 0 then
        v1 ← getBits 4; v2 ← getBits 6; v3 ← getBits 6;
        mret [charZ (Z.lor 224 v1); charZ (Z.lor 128 v2); charZ (Z.lor 128 v3)]
      else
        v1 ← getBits 3; v2 ← getBits 6; v3 ← getBits 6; v4 ← getBits 6;
        mret [charZ (Z.lor 240 v1); charZ (Z.lor 128 v2); charZ (Z.lor 128 v3);
              charZ (Z.lor 128 v4)].

Definition getUTF8String (length : Z) : M BitIO string :=
  result ← for_items length utf8_item; mret (str result).

(** ** Hex *)
Definition makeHexString (message : string) : outcome BitIO :=
  exec (for_each (chars message) (fun c =>
          pos ← getCharSetPos (tolower c) BITIO_CHARSET_HEX; appendBits pos 4)) empty_BitIO.

Definition getHexString (length : Z) : M BitIO string :=
  result ← for_items length
    (v ← getBits 4; c ← char_at BITIO_CHARSET_HEX v; mret [c]);
  mret (str result).

(** ** 3B40 *)
Fixpoint b40_chars (message : list ascii) (charI val : Z) : M BitIO (Z * Z) :=
  match message with
  | [] => mret (charI, val)
  | c :: message =>
      pos ← getCharSetPos c BITIO_CHARSET_3B40;
      let val := u64 (val * 40 + pos) in
      if charI mod 3 =? 2
      then appendBits val 16;; b40_chars message (charI + 1) 0
      else b40_chars message (charI + 1) val
  end.

Definition make3B40String (message : string) : outcome BitIO :=
  exec ('(charI, val) ← b40_chars (chars message) 0 0;
        when (charI mod 3 =? 1) (appendBits val 5);;
        when (charI mod 3 =? 2) (appendBits val 11)) empty_BitIO.

Definition get3B40String (length : Z) : M BitIO string :=
  result ← for_items (length / 3)
    (v ← getBits 16;
     c ← char_at BITIO_CHARSET_3B40 (v / 1600);
     let v := v mod 1600 in
     d ← char_at BITIO_CHARSET_3B40 (v / 40);
     e ← char_at BITIO_CHARSET_3B40 (v mod 40);
     mret [c; d; e]);
  if length mod 3 =? 1
  then v ← getBits 5; c ← char_at BITIO_CHARSET_3B40 v; mret (str (result ++ [c]))
  else if length mod 3 =? 2
  then
    v ← getBits 11;
    c ← char_at BITIO_CHARSET_3B40 (v / 40);
    d ← char_at BITIO_CHARSET_3B40 (v mod 40);
    mret (str (result ++ [c; d]))
  else mret (str result).

(** ** xBit codes *)
Record xBitValue := mk_xBitValue { depth : Z; key : Z; xBitLength : Z }.

Definition xBitValue_eqb (a b : xBitValue) : bool :=
  (depth a =? depth b) && (key a =? key b).

Definition verify {S} (x : xBitValue) : M S unit :=
  if key x =? 0 then throw (out_of_range "key can not be zero")
  else if xBitLength x =? 0 then throw (out_of_range "xBitLength must be greater than zero")
  else if xBitLength x =? 64 then mret tt
  else if 64 <? xBitLength x then undefined
  else if shl64 1 (xBitLength x) <=? key x
  then throw (out_of_range "value must fit in xBitLength bits")
  else mret tt.

Definition makeXBit (value : xBitValue) : outcome BitIO :=
  exec (verify value;;
        appendZeros (u64 (depth value * xBitLength value));;
        appendBits (key value) (xBitLength value)) empty_BitIO.

Fixpoint xbit_loop (fuel : nat) (xLength depth : Z) : M BitIO xBitValue :=
  match fuel with
  | O => out_of_fuel
  | S fuel =>
      key ← getBits xLength;
      let depth := u64 (depth + 1) in
      if key =? 0 then xbit_loop fuel xLength depth
      else mret (mk_xBitValue (u64 (depth - 1)) key xLength)
  end.

Definition getXBit (xLength : Z) : M BitIO xBitValue :=
  b ← get; xbit_loop (S (Z.to_nat (_length b - _position b))) xLength 0.

(** ** Best string *)
Record stringHeaderOption := mk_option { header : xBitValue; encoder : Z }.

Definition defaultHeaderOptions : list stringHeaderOption :=
  [ mk_option (mk_xBitValue 0 1 2) BITIO_ENCODE_ALPHA;
    mk_option (mk_xBitValue 0 2 2) BITIO_ENCODE_3B40;
    mk_option (mk_xBitValue 0 3 2) BITIO_ENCODE_UTF8;
    mk_option (mk_xBitValue 1 1 2) BITIO_ENCODE_HEX ].

(** The [switch] of makeBestString; [None] is its default branch. *)
Definition encode_with (encoder : Z) (message : string) : option (outcome BitIO) :=
  if encoder =? BITIO_ENCODE_ALPHA then Some (makeAlphaString message)
  else if encoder =? BITIO_ENCODE_UTF8 then Some (makeUTF8String message)
  else if encoder =? BITIO_ENCODE_HEX then Some (makeHexString message)
  else if encoder =? BITIO_ENCODE_3B40 then Some (make3B40String message)
  else None.

(** The body of the [try] for one option, up to the comparison: the encoded
    string, and whether the encoder was invalid. *)
Definition try_option (message : string) (characterCount lengthBits : Z)
    (headerOption : stringHeaderOption) : outcome (BitIO * bool) :=
  result ← makeXBit (header headerOption);
  result ← exec (appendBits characterCount lengthBits) result;
  match encode_with (encoder headerOption) message with
  | Some made =>
      temp ← made;
      result ← exec (with_value temp appendBits_BitIO) result; mret (result, false)
  | None =>
      result ← exec (with_value empty_BitIO appendBits_BitIO) result; mret (result, true)
  end.

(** [best] is [None] while [bestLength] is [SIZE_MAX]. *)
Fixpoint best_loop (message : string) (characterCount lengthBits : Z)
    (options : list stringHeaderOption) (best : option BitIO) : outcome (option BitIO) :=
  match options with
  | [] => Ok best
  | headerOption :: options =>
      match try_option message characterCount lengthBits headerOption with
      | Ok (_, true) => Throw (out_of_range "invalid encoder selected")
      | Ok (result, false) =>
          let best :=
            match best with
            | Some b => if getLength result <? getLength b then Some result else Some b
            | None => if getLength result <? two64 - 1 then Some result else None
            end in
          best_loop message characterCount lengthBits options best
      | Throw _ => best_loop message characterCount lengthBits options best
      | UB => UB
      | Fuel => Fuel
      end
  end.

Definition makeBestString (message : string) (lengthBits : Z)
    (headerOptions : list stringHeaderOption) : outcome BitIO :=
  let characterCount := stringLength message in
  match checkValueSize characterCount lengthBits tt with
  | (Ok _, _) =>
      best ← best_loop message characterCount lengthBits headerOptions None;
      match best with
      | Some best => mret best
      | None => Throw (out_of_range "invalid character for encoding method")
      end
  | (Throw e, _) => Throw e
  | (UB, _) => UB
  | (Fuel, _) => Fuel
  end.

(** [front()] of an empty vector is undefined. *)
Definition getBestString (lengthBits : Z) (headerOptions : list stringHeaderOption)
    : M BitIO string :=
  match headerOptions with
  | [] => undefined
  | front :: _ =>
      h ← getXBit (xBitLength (header front));
      length ← getBits lengthBits;
      match list_find (fun o => xBitValue_eqb (header o) h = true) headerOptions with
      | Some (_, o) =>
          if encoder o =? BITIO_ENCODE_ALPHA then getAlphaString length
          else if encoder o =? BITIO_ENCODE_UTF8 then getUTF8String length
          else if encoder o =? BITIO_ENCODE_HEX then getHexString length
          else if encoder o =? BITIO_ENCODE_3B40 then get3B40String length
          else invalidEncoder
      | None => invalidEncoder
      end
  end.

(** ** Fixed precision *)
Fixpoint strip_zeros (fuel : nat) (value exponent : Z) : M BitIO (Z * Z) :=
  match fuel with
  | O => out_of_fuel
  | S fuel =>
      if value mod 10 =? 0 then strip_zeros fuel (value / 10) (exponent + 1)
      else mret (value, exponent)
  end.

(** A 64-bit value has at most 19 trailing decimal zeros. *)
Definition makeFixedPrecision (value : Z) : outcome BitIO :=
  exec (
    checkValueRange value 0 18014398509481983;;
    if value <? 32 then appendBits value 8
    else
      '(value, exponent) ← strip_zeros 20 value 0;
      '(value, exponent) ←
        (if 4398046511103 <? value
         then p ← pow10 exponent; mret (u64 (value * p), 0)
         else mret (value, exponent));
      '(value, exponent) ←
        (if (7 <? exponent) && (33554431 <? value)
         then p ← pow10 (u64 (exponent - 7)); mret (u64 (value * p), 7)
         else mret (value, exponent));
      if 4398046511103 <? value then appendBits 3 2;; appendBits value 54
      else if 17179869183 <? value then
        appendBits 5 3;; appendBits value 42;; appendBits exponent 3
      else if 33554431 <? value then
        appendBits 4 3;; appendBits value 34;; appendBits exponent 3
      else if 131071 <? value then
        appendBits 3 3;; appendBits value 25;; appendBits exponent 4
      else if 511 <? value then
        appendBits 2 3;; appendBits value 17;; appendBits exponent 4
      else
        appendBits 1 3;; appendBits value 9;; appendBits exponent 4) empty_BitIO.

Definition getFixedPrecision : M BitIO Z :=
  l ← getBits 3;
  let length := l + 1 in
  length ← (if 7 <=? length then movePositionBy (-1);; mret 7 else mret length);
  '(mantissa, exponent) ←
    (if length =? 1 then m ← getBits 5; mret (m, 0)
     else if length <? 5 then
       m ← getBits (length * 8 - 7); e ← getBits 4; mret (m, e)
     else if length <? 7 then
       m ← getBits (length * 8 - 6); e ← getBits 3; mret (m, e)
     else m ← getBits 54; mret (m, 0));
  p ← pow10 exponent;
  mret (u64 (mantissa * p)).

(** ** Bitcoin script pushes *)
Definition makeBitcoin_int (value : Z) (includeOpReturn : bool) : outcome BitIO :=
  exec (
    checkValueRange value (-1) 16;;
    let value := if 0 <? value then value + 80 else value in
    let value := if value =? -1 then 79 else value in
    when includeOpReturn (appendBits BITIO_BITCOIN_OP_RETURN 8);;
    appendBits value 8) empty_BitIO.

Definition makeBitcoin_bytes (value : list Z) (includeOpReturn : bool) : outcome BitIO :=
  let size := Z.of_nat (length value) in
  exec (
    when includeOpReturn (appendBits BITIO_BITCOIN_OP_RETURN 8);;
    (if 65535 <? size then appendBits 78 8;; appendBits size 32
     else if 255 <? size then appendBits 77 8;; appendBits size 16
     else if 75 <? size then appendBits 76 8;; appendBits size 8
     else appendBits size 8);;
    for_each value (fun i => appendBits i 8)) empty_BitIO.

(** The overload that alters its argument. *)
Definition makeBitcoin_BitIO (includeOpReturn : bool) : M BitIO unit :=
  len ← gets getLength;
  when (negb (len mod 8 =? 0)) invalidLength;;
  let length := len / 8 in
  when (4294967295 <? length) invalidLength;;
  movePositionToBeginning;;
  (if 65535 <? length then insertBits (Z.lor (shl64 78 32) length) 40
   else if 255 <? length then insertBits (Z.lor (shl64 77 16) length) 24
   else if 75 <? length then insertBits (Z.lor (shl64 76 8) length) 16
   else insertBits length 8);;
  movePositionToBeginning;;
  when includeOpReturn (insertBits BITIO_BITCOIN_OP_RETURN 8).

Definition checkIsBitcoinOpReturn : M BitIO bool :=
  pos ← gets getPosition;
  try_catch
    (v ← getBits 8;
     let isOpReturn := v =? BITIO_BITCOIN_OP_RETURN in
     when (negb isOpReturn) (movePositionTo pos);;
     mret isOpReturn)
    (fun _ => movePositionTo pos;; mret false).

Definition getBitcoinDataHeader : M BitIO Z :=
  opCode ← getBits 8;
  if opCode =? 0 then mret 0
  else if opCode =? 80 then invalidOpCode
  else if (79 <=? opCode) && (opCode <=? 96) then mret (opCode - 80)
  else
    movePositionBy (-8);;
    if (1 <=? opCode) && (opCode <=? 78) then mret BITIO_BITCOIN_TYPE_DATA
    else invalidOpCode.

(** The opcode and length that start both readers of a data push. *)
Definition push_length : M BitIO Z :=
  opCode ← getBits 8;
  if (opCode =? 0) || (79 <=? opCode) then invalidOpCode
  else if opCode =? 76 then getBits 8
  else if opCode =? 77 then getBits 16
  else if opCode =? 78 then getBits 32
  else mret opCode.

Definition getBitcoinData : M BitIO (list Z) :=
  length ← push_length; for_items length (v ← getBits 8; mret [v]).

Definition copyBitcoinData : M BitIO BitIO :=
  length ← push_length; copyBits (length * 8).

(** ** Doubles

    The value is a [spec_float] of the Standard Library: the product of the
    mantissa and the power of two that the code computes is exact, because the
    mantissa has at most 53 bits and the exponent is at least -1074. *)

(** [for (i < n) buffer[i] = getBits(8)] *)
Fixpoint read_buffer (n : nat) : M BitIO (list Z) :=
  match n with
  | O => mret []
  | S n => b ← getBits 8; l ← read_buffer n; mret (b :: l)
  end.

(** m = (m * 256) + buffer[...] *)
Definition mantissa_bytes (m : Z) (bytes : list Z) : Z := foldl (fun m b => u64 (m * 256 + b)) m bytes.

(** The double of a sign, an 11-bit exponent field and a 52-bit mantissa field. *)
Definition assemble_double (s : bool) (e m : Z) : spec_float :=
  let finite m e := match m with Zpos p => S754_finite s p e | _ => S754_zero s end in
  if e =? 0 then finite m (1 - 1023 - 52)
  else if e =? 2047 then if m =? 0 then S754_infinity s else S754_nan
  else finite (m + Z.shiftl 1 52) (e - 1023 - 52).

Definition getDouble (isLE : bool) : M BitIO spec_float :=
  buffer ← read_buffer 8;
  match (if isLE then rev buffer else buffer) with
  | s :: b1 :: bytes =>
      let e := Z.land s 127 * 256 + b1 in
      let m := mantissa_bytes (Z.land e 15) bytes in
      mret (assemble_double (negb (Z.shiftr s 7 =? 0)) (Z.shiftr e 4) m)
  | _ => undefined
  end.
