(* ===== verification/BitStream.v ===== *)
(** The interface of BitIO that its clients' proofs use.

    A decoder [reads m l a] when, on any stream whose unread bits start with
    [l], it returns [a] and stops right after them; an encoder [emits m l]
    when it appends [l]; [built o l] is a finished stream that holds [l].
    [reader d k m] is the safety contract of a decoder: it only moves the
    cursor, never leaves the data, never runs out of the model's fuel, has
    defined behaviour if [d], and a normal return consumed at least [k] bits.
    Each is closed under the monad's operations, so a decoder is verified by
    composing the contracts of its parts. *)

From S2P Require Import Prelude.
From S2P Require Import BitIO.
From S2P Require Import BitIOBlocks.

Ltac Zify.zify_post_hook ::= Z.div_mod_to_equations.

Definition advance (n : Z) (b : BitIO) : BitIO := set_position (_position b + n) b.

Definition reads {A} (m : M BitIO A) (l : list bool) (a : A) : Prop :=
  forall b r, wf b -> fits b -> rest b = l ++ r ->
    m b = (Ok a, advance (Z.of_nat (length l)) b).

Definition emits {A} (m : M BitIO A) (l : list bool) (a : A) : Prop :=
  forall b, wf b -> exists b', m b = (Ok a, b') /\ appended b l b'.

Definition built (o : outcome BitIO) (l : list bool) : Prop :=
  exists r, o = Ok r /\ wf r /\ _position r = 0 /\ abs r = l.

Definition reader {A} (d : bool) (k : Z) (m : M BitIO A) : Prop :=
  forall b, wf b -> fits b ->
    exists o p, m b = (o, set_position p b) /\ 0 <= p <= _length b /\ o <> Fuel
      /\ (d = true -> o <> UB) /\ (forall a, o = Ok a -> _position b + k <= p).

(** ** The cursor *)
Lemma rest_prefix b l r :
  wf b -> rest b = l ++ r -> _position b + Z.of_nat (length l) <= _length b.
Proof.
  intros Hwf Hr. pose proof (length_rest b Hwf) as H. rewrite Hr, length_app in H. lia.
Qed.

Lemma wf_advance b n :
  wf b -> 0 <= n -> _position b + n <= _length b -> wf (advance n b).
Proof. intros H Hn Hl. pose proof (wf_position b H). apply wf_set_position; [done|lia]. Qed.

Lemma rest_advance b l r :
  wf b -> rest b = l ++ r -> rest (advance (Z.of_nat (length l)) b) = r.
Proof.
  intros Hwf Hr. unfold advance. rewrite rest_set_position by (done || lia).
  by rewrite Hr, Nat2Z.id, drop_app_length.
Qed.

Lemma advance_advance b n m : advance m (advance n b) = advance (n + m) b.
Proof. unfold advance, set_position. simpl. f_equal. lia. Qed.

Lemma advance_0 b : advance 0 b = b.
Proof. unfold advance. rewrite Z.add_0_r. by destruct b. Qed.

Lemma set_position_set_position p q b : set_position p (set_position q b) = set_position p b.
Proof. done. Qed.

(** A stream whose unread bits are [l] can be made from a finished one. *)
Lemma built_rest o l :
  built o l -> exists r, o = Ok r /\ wf r /\ rest r = l /\ _position r = 0 /\ _length r = Z.of_nat (length l).
Proof.
  intros (r & -> & Hw & Hp & Ha). exists r. split_and!; try done.
  - unfold rest. by rewrite Hp, Ha.
  - rewrite <- Ha. symmetry. by apply length_abs_Z.
Qed.

(** ** Decoders *)
Section reads.
Context {A B : Type}.
Implicit Types (m : M BitIO A) (f : A -> M BitIO B) (l : list bool).

Lemma reads_ret (a : A) : reads (mret a) [] a.
Proof. intros b r _ _ _. simpl. by rewrite advance_0. Qed.

Lemma reads_bind m f l1 l2 a (b : B) :
  reads m l1 a -> reads (f a) l2 b -> reads (m ≫= f) (l1 ++ l2) b.
Proof.
  intros Hm Hf s r Hwf Hfit Hr. rewrite <- app_assoc in Hr.
  rewrite (bind_ok _ _ _ _ _ (Hm s _ Hwf Hfit Hr)).
  pose proof (rest_prefix _ _ _ Hwf Hr).
  rewrite (Hf _ r); [|by apply wf_advance; [|lia|]|done|by apply rest_advance].
  by rewrite advance_advance, length_app, Nat2Z.inj_add.
Qed.

Lemma reads_bind_ret m f l a (b : B) :
  reads m l a -> reads (f a) [] b -> reads (m ≫= f) l b.
Proof. intros H1 H2. rewrite <- (app_nil_r l). by eapply reads_bind. Qed.

Lemma reads_bind_nil m f l a (b : B) :
  reads m [] a -> reads (f a) l b -> reads (m ≫= f) l b.
Proof. intros H1 H2. rewrite <- (app_nil_l l). by eapply reads_bind. Qed.

Lemma reads_eq m l l' (a a' : A) : reads m l a -> l = l' -> a = a' -> reads m l' a'.
Proof. by intros ? -> ->. Qed.

(** Read a whole finished stream. *)
Lemma reads_built m l a o :
  reads m l a -> built o l -> Z.of_nat (length l) < two64 - 64 ->
  exists r, o = Ok r /\ fst (m r) = Ok a.
Proof.
  intros Hm Ho Hl. destruct (built_rest o l Ho) as (r & -> & Hw & Hr & _ & Hlen).
  exists r. split; [done|]. rewrite (Hm r []); [done|done|unfold fits; lia|by rewrite app_nil_r].
Qed.
End reads.

Lemma reads_getBits n v : 1 <= n <= 64 -> 0 <= v < 2 ^ n -> reads (getBits n) (Zbits n v) v.
Proof.
  intros Hn Hv b r Hwf Hf Hr.
  destruct (getBits_rest b n v r Hwf Hf Hn Hv Hr) as (H & _ & _). rewrite H.
  unfold advance. by rewrite length_Zbits, Z2Nat.id by lia.
Qed.

Lemma reads_getBits_list l :
  1 <= Z.of_nat (length l) <= 64 -> reads (getBits (Z.of_nat (length l))) l (bitsZ l).
Proof.
  intros Hl. rewrite <- (Zbits_bitsZ l) at 2. apply reads_getBits; [done|apply bitsZ_range].
Qed.

(** ** Encoders *)
Lemma emits_ret {A} (a : A) : emits (mret a) [] a.
Proof. intros b Hb. exists b. split; [done|by apply appended_nil]. Qed.

Lemma emits_bind {A B} (m : M BitIO A) (f : A -> M BitIO B) l1 l2 a b :
  emits m l1 a -> emits (f a) l2 b -> emits (m ≫= f) (l1 ++ l2) b.
Proof.
  intros Hm Hf s Hs. destruct (Hm s Hs) as (s1 & H1 & A1).
  destruct (Hf s1) as (s2 & H2 & A2); [apply A1|].
  exists s2. rewrite (bind_ok _ _ _ _ _ H1). split; [done|by eapply appended_trans].
Qed.

Lemma emits_bind_ret {A B} (m : M BitIO A) (f : A -> M BitIO B) l a b :
  emits m [] a -> emits (f a) l b -> emits (m ≫= f) l b.
Proof. apply (emits_bind m f [] l). Qed.

Lemma emits_appendBits v n : 1 <= n <= 64 -> 0 <= v < 2 ^ n -> emits (appendBits v n) (Zbits n v) tt.
Proof. intros Hn Hv b Hb. by apply appendBits_run. Qed.

Lemma emits_for_each {A} (l : list A) (f : A -> M BitIO unit) (g : A -> list bool) :
  (forall x, x ∈ l -> emits (f x) (g x) tt) -> emits (for_each l f) (concat (map g l)) tt.
Proof.
  induction l as [|x l IH]; intros H; [apply emits_ret|].
  apply (emits_bind _ _ _ _ tt).
  - apply H. left.
  - apply IH. intros y Hy. apply H. by right.
Qed.

Lemma emits_when (c : bool) (m : M BitIO unit) l :
  (c = true -> emits m l tt) -> emits (when c m) (if c then l else []) tt.
Proof. destruct c; intros H; [by apply H|apply emits_ret]. Qed.

Lemma emits_built {A} (m : M BitIO A) l a : emits m l a -> built (exec m empty_BitIO) l.
Proof.
  intros Hm. destruct (Hm empty_BitIO wf_empty) as (r & Hr & Ha).
  destruct (appended_fresh _ _ Ha) as (H1 & H2 & H3 & _ & _).
  exists r. unfold exec. rewrite Hr. done.
Qed.

Lemma emits_with_value v :
  wf v -> fits v -> emits (with_value v appendBits_BitIO) (abs v) tt.
Proof.
  intros Hv Hf b Hb. destruct (appendBits_BitIO_run b v Hb Hv Hf) as (b' & Hrun & Ha).
  exists b'. unfold with_value. rewrite Hrun. done.
Qed.

(** ** Safety of decoders *)
Section reader.
Context {A B : Type}.
Implicit Types (m : M BitIO A) (f : A -> M BitIO B).

Lemma reader_ret d (a : A) : reader d 0 (mret a : M BitIO A).
Proof.
  intros b Hwf _. exists (Ok a), (_position b). split_and!; try done.
  - by destruct b.
  - apply (wf_position b Hwf).
  - apply (wf_position b Hwf).
  - intros. lia.
Qed.

Lemma reader_throw d k e : reader d k (throw e : M BitIO A).
Proof.
  intros b Hwf _. exists (Throw e), (_position b). split_and!; try done.
  - by destruct b.
  - apply (wf_position b Hwf).
  - apply (wf_position b Hwf).
Qed.

Lemma reader_undefined k : reader false k (undefined : M BitIO A).
Proof.
  intros b Hwf _. exists UB, (_position b). split_and!; try done.
  - by destruct b.
  - apply (wf_position b Hwf).
  - apply (wf_position b Hwf).
Qed.

Lemma reader_bind d k1 k2 m f :
  reader d k1 m -> (forall a, reader d k2 (f a)) -> reader d (k1 + k2) (m ≫= f).
Proof.
  intros Hm Hf b Hwf Hfit. destruct (Hm b Hwf Hfit) as (o & p & Hrun & Hp & Hfu & Hub & Hk).
  unfold mbind, M_bind. rewrite Hrun. destruct o as [a|e| |]; try done.
  - destruct (Hf a (set_position p b)) as (o' & q & Hrun' & Hq & Hfu' & Hub' & Hk');
      [by apply wf_set_position|done|].
    exists o', q. rewrite Hrun'. split_and!; try done; try (simpl in Hq; lia).
    intros a' Ha'. specialize (Hk a eq_refl). specialize (Hk' a' Ha'). simpl in Hk'. lia.
  - exists (Throw e), p. split_and!; try done; lia.
  - exists UB, p. split_and!; first [lia | done | intros Hd; by destruct (Hub Hd)].
Qed.

Lemma reader_weaken d k k' m : reader d k m -> k' <= k -> reader d k' m.
Proof.
  intros H Hk b Hwf Hf. destruct (H b Hwf Hf) as (o & p & ? & ? & ? & ? & Ha).
  exists o, p. split_and!; try done; try lia. intros a Ho. specialize (Ha a Ho). lia.
Qed.

Lemma reader_defined d k m : reader true k m -> reader d k m.
Proof.
  intros H b Hwf Hf. destruct (H b Hwf Hf) as (o & p & ? & ? & ? & Hu & ?).
  exists o, p. split_and!; try done; try lia. intros _. by apply Hu.
Qed.

Lemma reader_bind' d k m f :
  reader d k m -> (forall a, reader d 0 (f a)) -> reader d k (m ≫= f).
Proof. intros H1 H2. rewrite <- (Z.add_0_r k). by apply reader_bind. Qed.

Lemma reader_if d k (c : bool) m1 m2 :
  reader d k m1 -> reader d k m2 -> reader d k (if c then m1 else m2).
Proof. by destruct c. Qed.

Lemma reader_if_known d k (c : bool) m1 m2 :
  (c = true -> reader d k m1) -> (c = false -> reader d k m2) -> reader d k (if c then m1 else m2).
Proof. destruct c; auto. Qed.
End reader.

Lemma reader_getBits d n : 0 <= n -> reader d n (getBits n).
Proof.
  intros Hn b Hwf Hf. pose proof (wf_position b Hwf).
  destruct (decide (1 <= n <= 64 /\ _position b + n <= _length b)) as [[H1 H2]|Hbad].
  - rewrite getBits_run by done. eexists (Ok _), _. split_and!; try done; lia.
  - destruct (getBits_error b n Hwf Hf Hn Hbad) as [what ->].
    exists (Throw (out_of_range what)), (_position b). split_and!; try done; try lia. by destruct b.
Qed.

(** What every decoder's return value satisfies. *)
Definition returns {A} (m : M BitIO A) (P : A -> Prop) : Prop :=
  forall b a, wf b -> fits b -> fst (m b) = Ok a -> P a.

Lemma getBits_range n : 1 <= n <= 64 -> returns (getBits n) (fun v => 0 <= v < 2 ^ n).
Proof.
  intros Hn b v Hwf Hf Hv.
  destruct (decide (_position b + n <= _length b)) as [H2|Hbad].
  - rewrite getBits_run in Hv by done. simpl in Hv. simplify_eq. apply bitsZ_tab_range. lia.
  - destruct (getBits_error b n Hwf Hf) as [what Hw]; [lia|lia|]. by rewrite Hw in Hv.
Qed.

(** The bind rule for safety when the continuation needs what the first
    decoder promises of its value. *)
Lemma reader_bind_returns {A B} d k1 k2 (m : M BitIO A) (f : A -> M BitIO B) P :
  reader d k1 m -> returns m P -> (forall a, P a -> reader d k2 (f a)) ->
  reader d (k1 + k2) (m ≫= f).
Proof.
  intros Hm HP Hf b Hwf Hfit. destruct (Hm b Hwf Hfit) as (o & p & Hrun & Hp & Hfu & Hub & Hk).
  unfold mbind, M_bind. rewrite Hrun. destruct o as [a|e| |]; try done.
  - assert (P a) as Pa by (apply (HP b a Hwf Hfit); by rewrite Hrun).
    destruct (Hf a Pa (set_position p b)) as (o' & q & Hrun' & Hq & Hfu' & Hub' & Hk');
      [by apply wf_set_position|done|].
    exists o', q. rewrite Hrun'. split_and!; try done; try (simpl in Hq; lia).
    intros a' Ha'. specialize (Hk a eq_refl). specialize (Hk' a' Ha'). simpl in Hk'. lia.
  - exists (Throw e), p. split_and!; try done; lia.
  - exists UB, p. split_and!; first [lia | done | intros Hd; by destruct (Hub Hd)].
Qed.

(** Bits of a value spliced from two fields. *)
Lemma Zbits_split n m v :
  0 <= n -> 0 <= m -> Zbits (n + m) v = Zbits n (Z.shiftr v m) ++ Zbits m v.
Proof. apply Zbits_app. Qed.

Lemma Zbits_mod n v : 0 <= n -> Zbits n (v mod 2 ^ n) = Zbits n v.
Proof.
  intros Hn. apply tab_ext. intros i Hi. apply Z.mod_pow2_bits_low. lia.
Qed.

Create HintDb streams.
#[export] Hint Resolve reads_ret emits_ret reader_ret reader_throw reader_undefined : streams.
