(* ===== verification/BitIOText.v ===== *)
(** Theorems about the text encodings of BitIOCodec.v: each decoder inverts
    its encoder on the texts the encoding covers, encoders reject the others,
    and decoders are safe on every input. *)

From S2P Require Import Prelude.
From S2P Require Import BitIO.
From S2P Require Import BitIOBlocks.
From S2P Require Import BitIOCodec.
From S2P Require Import BitStream.

Ltac Zify.zify_post_hook ::= Z.div_mod_to_equations.

(** ** Characters and character sets *)
Lemma str_chars s : str (chars s) = s.
Proof. apply String.string_of_list_ascii_of_string. Qed.
Lemma chars_str l : chars (str l) = l.
Proof. apply String.list_ascii_of_string_of_list_ascii. Qed.

Lemma byteZ_range c : 0 <= byteZ c < 256.
Proof. unfold byteZ. pose proof (N_ascii_bounded c). lia. Qed.
Lemma charZ_byteZ c : charZ (byteZ c) = c.
Proof.
  unfold charZ. rewrite Z.mod_small by apply byteZ_range. unfold byteZ.
  by rewrite N2Z.id, ascii_N_embedding.
Qed.

Lemma find_char_Some c l i :
  find_char c l = Some i -> 0 <= i < Z.of_nat (length l) /\ l !! Z.to_nat i = Some c.
Proof.
  revert i. induction l as [|d l IH]; intros i H; simpl in H; [done|].
  destruct (Ascii.eqb_spec c d) as [->|_].
  - simplify_eq. simpl. split; [lia|done].
  - apply fmap_Some in H as (j & Hj & ->). destruct (IH j Hj) as [H1 H2]. simpl. split; [lia|].
    replace (Z.to_nat (Z.succ j)) with (S (Z.to_nat j)) by lia. done.
Qed.

Lemma find_char_elem c l : is_Some (find_char c l) <-> c ∈ l.
Proof.
  induction l as [|d l IH]; simpl.
  - split; [by intros []|by intros ?%elem_of_nil].
  - rewrite elem_of_cons. destruct (Ascii.eqb_spec c d) as [->|Hne].
    + split; [by left|eauto].
    + rewrite <- IH, fmap_is_Some. split; [by right|by intros [?|?]].
Qed.

Section charset.
Context {S : Type} (cs : string).

Lemma getCharSetPos_ok c (s : S) :
  c ∈ chars cs -> exists i, getCharSetPos c cs s = (Ok i, s)
    /\ 0 <= i < Z.of_nat (length (chars cs)) /\ forall (s' : S), char_at cs i s' = (Ok c, s').
Proof.
  intros [i Hi]%find_char_elem. exists i. destruct (find_char_Some c _ i Hi) as [Hr Hl].
  unfold getCharSetPos, char_at. rewrite Hi, Hl. done.
Qed.

Lemma getCharSetPos_error c (s : S) :
  c ∉ chars cs ->
  getCharSetPos c cs s = (Throw (out_of_range "invalid character for encoding method"), s).
Proof.
  intros Hc. unfold getCharSetPos. destruct (find_char c (chars cs)) eqn:E; [|done].
  exfalso. apply Hc, find_char_elem. by rewrite E.
Qed.
End charset.

(** The code of a character of a set. *)
Definition code_of (cs : string) (c : ascii) : Z := default 0 (find_char c (chars cs)).

Section codes.
Context (cs : string).

Lemma code_of_range c : c ∈ chars cs -> 0 <= code_of cs c < Z.of_nat (length (chars cs)).
Proof.
  intros [i Hi]%find_char_elem. unfold code_of. rewrite Hi. by apply find_char_Some in Hi as [? _].
Qed.

Lemma emits_getCharSetPos c :
  c ∈ chars cs -> emits (getCharSetPos c cs) [] (code_of cs c).
Proof.
  intros [i Hi]%find_char_elem b Hb. exists b. unfold getCharSetPos, code_of. rewrite Hi.
  split; [done|by apply appended_nil].
Qed.

Lemma reads_char_at c : c ∈ chars cs -> reads (char_at cs (code_of cs c)) [] c.
Proof.
  intros [i Hi]%find_char_elem b r Hb Hf Hr. unfold code_of, char_at. rewrite Hi. simpl.
  destruct (find_char_Some _ _ _ Hi) as [_ ->]. simpl. by rewrite advance_0.
Qed.

Lemma reader_char_at i :
  0 <= i <= Z.of_nat (length (chars cs)) -> reader true 0 (char_at cs i).
Proof.
  intros Hi. unfold char_at. destruct (chars cs !! Z.to_nat i) eqn:E; [apply reader_ret|].
  apply lookup_ge_None in E. destruct (Z.eqb_spec i (Z.of_nat (length (chars cs)))); [|lia].
  apply reader_ret.
Qed.

Lemma reader_char_at_any i : reader false 0 (char_at cs i).
Proof.
  unfold char_at. destruct (chars cs !! Z.to_nat i); [apply reader_ret|].
  apply reader_if; [apply reader_ret|apply reader_undefined].
Qed.
End codes.

(** ** Loops over items *)
Section items.
Context {A : Type} (item : M BitIO (list A)).

Lemma reads_read_items codes : forall fuel,
  Forall (fun c => reads item c.1 c.2) codes -> (length codes <= fuel)%nat ->
  reads (read_items fuel (Z.of_nat (length codes)) item) (concat codes.*1) (concat codes.*2).
Proof.
  induction codes as [|[l x] codes IH]; intros fuel Hc Hf.
  - destruct fuel; apply reads_ret.
  - inversion_clear Hc. destruct fuel as [|fuel]; [simpl in Hf; lia|].
    cbn [read_items]. rewrite (proj2 (Z.leb_gt _ _)) by (cbn [length]; lia).
    replace (Z.of_nat (length ((l, x) :: codes)) - 1) with (Z.of_nat (length codes))
      by (cbn [length]; lia).
    eapply reads_bind; [done|].
    eapply reads_bind_ret; [apply IH; [done|simpl in Hf; lia]|apply reads_ret].
Qed.

Lemma concat_length_ge {B} (ls : list (list B)) :
  Forall (fun l => l <> []) ls -> (length ls <= length (concat ls))%nat.
Proof.
  induction 1 as [|l ls Hl _ IH]; [done|]. simpl. rewrite length_app.
  destruct l; [done|simpl; lia].
Qed.

Lemma reads_for_items codes :
  Forall (fun c => c.1 <> [] /\ reads item c.1 c.2) codes ->
  reads (for_items (Z.of_nat (length codes)) item) (concat codes.*1) (concat codes.*2).
Proof.
  intros Hc b r Hwf Hf Hr. unfold for_items, mbind, M_bind, get.
  pose proof (rest_prefix _ _ _ Hwf Hr) as Hl.
  assert (length codes <= length (concat codes.*1))%nat as Hn.
  { rewrite <- (length_fmap fst). apply concat_length_ge. rewrite Forall_fmap.
    eapply Forall_impl; [exact Hc|]. by intros ? []. }
  eapply reads_read_items; [|lia|done..].
  eapply Forall_impl; [exact Hc|]. by intros ? [].
Qed.

Lemma reader_read_items d fuel : forall count b,
  reader d 1 item -> wf b -> fits b -> _length b - _position b < Z.of_nat fuel ->
  exists o p, read_items fuel count item b = (o, set_position p b)
    /\ 0 <= p <= _length b /\ o <> Fuel /\ (d = true -> o <> UB)
    /\ (forall a, o = Ok a -> _position b <= p).
Proof.
  induction fuel as [|fuel IH]; intros count b Hi Hwf Hfit Hf;
    pose proof (wf_position b Hwf); [lia|].
  cbn [read_items]. destruct (count <=? 0).
  { exists (Ok []), (_position b). split_and!; first [lia|done|by destruct b]. }
  destruct (Hi b Hwf Hfit) as (o & p & Hrun & Hp & Hfu & Hub & Hk).
  unfold mbind, M_bind. rewrite Hrun. destruct o as [a|e| |]; try done.
  - specialize (Hk a eq_refl).
    destruct (IH (count - 1) (set_position p b)) as (o & q & -> & Hq & Hfu' & Hub' & Hk');
      [done|by apply wf_set_position|done|simpl; lia|].
    simpl in Hq, Hk'. destruct o as [l|e| |]; [exists (Ok (a ++ l))|exists (Throw e)|exists UB|done];
      exists q; split_and!; first [lia | done | intros Hd; by destruct (Hub' Hd) | intros; specialize (Hk' _ eq_refl); lia].
  - exists (Throw e), p. split_and!; try done; lia.
  - exists UB, p. split_and!; first [lia | done | intros Hd; by destruct (Hub Hd)].
Qed.

Lemma reader_for_items d count : reader d 1 item -> reader d 0 (for_items count item).
Proof.
  intros Hi b Hwf Hfit. unfold for_items, mbind at 1, M_bind, get.
  destruct (reader_read_items d (S (Z.to_nat (_length b - _position b))) count b)
    as (o & p & ? & ? & ? & ? & H'); [done..|lia|].
  exists o, p. split_and!; try done; try lia. intros a Ha. specialize (H' a Ha). lia.
Qed.
End items.

(** ** Hex *)
Lemma hex_items (l : list ascii) :
  Forall (fun c => c ∈ chars BITIO_CHARSET_HEX) l ->
  Forall (fun c => c.1 <> [] /\ reads
    (v ← getBits 4; c ← char_at BITIO_CHARSET_HEX v; mret [c]) c.1 c.2)
    (map (fun c => (Zbits 4 (code_of BITIO_CHARSET_HEX c), [c])) l).
Proof.
  intros Hl. apply Forall_map. eapply Forall_impl; [exact Hl|]. intros c Hc.
  pose proof (code_of_range _ _ Hc) as Hr. simpl in *. split; [done|].
  eapply reads_bind_ret; [by apply reads_getBits; [|simpl in Hr; lia]|].
  eapply reads_bind_ret; [by apply reads_char_at|apply reads_ret].
Qed.

Lemma tolower_hex c : c ∈ chars BITIO_CHARSET_HEX -> tolower c = c.
Proof.
  intros Hc. assert (Forall (fun c => tolower c = c) (chars BITIO_CHARSET_HEX)) as H
    by (repeat constructor).
  exact (proj1 (Forall_forall _ _) H c Hc).
Qed.

Lemma concat_singletons {B} (l : list B) : concat (map (fun x => [x]) l) = l.
Proof. induction l; simpl; congruence. Qed.

Lemma fmap_map_fst {B C D} (f : B -> C) (g : B -> D) l : (map (fun x => (f x, g x)) l).*1 = map f l.
Proof. induction l as [|x l IH]; [done|]. cbn. by rewrite <- IH. Qed.
Lemma fmap_map_snd {B C D} (f : B -> C) (g : B -> D) l : (map (fun x => (f x, g x)) l).*2 = map g l.
Proof. induction l as [|x l IH]; [done|]. cbn. by rewrite <- IH. Qed.

Definition hex_code (message : string) : list bool :=
  concat (map (fun c => Zbits 4 (code_of BITIO_CHARSET_HEX c)) (map tolower (chars message))).

Lemma makeHexString_built s :
  Forall (fun c => tolower c ∈ chars BITIO_CHARSET_HEX) (chars s) ->
  built (makeHexString s) (hex_code s).
Proof.
  intros Hs. unfold makeHexString, hex_code. rewrite map_map.
  eapply emits_built. apply emits_for_each. intros c Hc.
  apply (proj1 (Forall_forall _ _) Hs) in Hc. pose proof (code_of_range _ _ Hc) as Hr.
  simpl in Hr. eapply emits_bind_ret; [by apply emits_getCharSetPos|].
  apply emits_appendBits; lia.
Qed.

Lemma getHexString_reads s :
  Forall (fun c => tolower c ∈ chars BITIO_CHARSET_HEX) (chars s) ->
  reads (getHexString (Z.of_nat (length (chars s)))) (hex_code s) (str (map tolower (chars s))).
Proof.
  intros Hs. unfold getHexString, hex_code.
  assert (Forall (fun c => c ∈ chars BITIO_CHARSET_HEX) (map tolower (chars s))) as Hs'
    by (by apply Forall_map).
  eapply reads_bind_ret.
  - pose proof (reads_for_items _ _ (hex_items _ Hs')) as H.
    rewrite fmap_map_fst, fmap_map_snd, concat_singletons, !length_map in H. exact H.
  - apply reads_ret.
Qed.

(** ** Alpha *)
Lemma pair_ind {B} (P : list B -> Prop) :
  P [] -> (forall c, P [c]) -> (forall c d l, P l -> P (c :: d :: l)) -> forall l, P l.
Proof. intros H0 H1 H2. fix IH 1. intros [|c [|d l]]; [done|done|]. apply H2, IH. Qed.

Lemma triple_ind {B} (P : list B -> Prop) :
  P [] -> (forall c, P [c]) -> (forall c d, P [c; d]) ->
  (forall c d e l, P l -> P (c :: d :: e :: l)) -> forall l, P l.
Proof.
  intros H0 H1 H2 H3. fix IH 1. intros [|c [|d [|e l]]]; [done|done|done|]. apply H3, IH.
Qed.

Definition is_alpha (c : ascii) : Prop := c ∈ chars BITIO_CHARSET_ALPHA.
Definition alpha_val (c : ascii) : Z := code_of BITIO_CHARSET_ALPHA c.

Lemma alpha_val_range c : is_alpha c -> 0 <= alpha_val c < 45.
Proof. apply (code_of_range BITIO_CHARSET_ALPHA). Qed.

Definition alpha_pair : M BitIO (list ascii) :=
  v ← getBits 11;
  c ← char_at BITIO_CHARSET_ALPHA (v / 45);
  d ← char_at BITIO_CHARSET_ALPHA (v mod 45);
  mret [c; d].

(** The pairs of a text, and what is left of an odd one. *)
Fixpoint alpha_pairs (l : list ascii) : list (list bool * list ascii) :=
  match l with
  | c :: d :: l => (Zbits 11 (alpha_val c * 45 + alpha_val d), [c; d]) :: alpha_pairs l
  | _ => []
  end.
Fixpoint odd_tail (l : list ascii) : list ascii :=
  match l with c :: d :: l => odd_tail l | l => l end.
Definition alpha_code (l : list ascii) : list bool :=
  concat (alpha_pairs l).*1 ++
  match odd_tail l with [c] => Zbits 6 (alpha_val c) | _ => [] end.

Lemma alpha_pairs_items l :
  Forall is_alpha l ->
  Forall (fun c => c.1 <> [] /\ reads alpha_pair c.1 c.2) (alpha_pairs l).
Proof.
  induction l as [|c|c d l IH] using pair_ind; [constructor..|]. intros Hl.
  inversion_clear Hl as [|? ? Hc Hl']. inversion_clear Hl' as [|? ? Hd Hl].
  constructor; [|by apply IH]. simpl. split; [done|].
  pose proof (alpha_val_range c Hc). pose proof (alpha_val_range d Hd).
  eapply reads_bind_ret; [apply reads_getBits; lia|].
  replace ((alpha_val c * 45 + alpha_val d) / 45) with (alpha_val c) by lia.
  replace ((alpha_val c * 45 + alpha_val d) mod 45) with (alpha_val d) by lia.
  eapply reads_bind_ret; [by apply reads_char_at|].
  eapply reads_bind_ret; [by apply reads_char_at|apply reads_ret].
Qed.

Lemma alpha_pairs_text l : concat (alpha_pairs l).*2 ++ odd_tail l = l.
Proof.
  induction l as [|c|c d l IH] using pair_ind; [done..|].
  cbn [alpha_pairs odd_tail fmap list_fmap concat snd app]. by rewrite IH.
Qed.

Lemma alpha_pairs_length l (n := Z.of_nat (length (alpha_pairs l))) :
  (odd_tail l = [] /\ Z.of_nat (length l) = 2 * n)
  \/ (exists c, odd_tail l = [c] /\ c ∈ l /\ Z.of_nat (length l) = 2 * n + 1).
Proof.
  subst n. induction l as [|c|c d l IH] using pair_ind.
  - by left.
  - right. exists c. split_and!; [done|by left|done].
  - cbn [alpha_pairs odd_tail length]. destruct IH as [[-> IH]|(x & -> & Hx & IH)].
    + left. split; [done|lia].
    + right. exists x. split_and!; [done|by do 2 right|lia].
Qed.

Lemma emits_alpha_chars l : forall k,
  Forall is_alpha l -> k mod 2 = 0 ->
  emits (alpha_chars l k 0) (concat (alpha_pairs l).*1)
    (k + Z.of_nat (length l), match odd_tail l with [c] => alpha_val c | _ => 0 end).
Proof.
  induction l as [|c|c d l IH] using pair_ind; intros k Hl Hk.
  - simpl. rewrite Z.add_0_r. apply emits_ret.
  - inversion_clear Hl. pose proof (alpha_val_range c ltac:(done)).
    cbn [alpha_chars]. eapply emits_bind_ret; [by apply emits_getCharSetPos|]. rewrite Hk. simpl.
    rewrite u64_small by (unfold two64, alpha_val in *; lia). apply emits_ret.
  - inversion_clear Hl as [|? ? Hc Hl']. inversion_clear Hl' as [|? ? Hd Hl].
    pose proof (alpha_val_range c Hc). pose proof (alpha_val_range d Hd).
    cbn [alpha_chars]. eapply emits_bind_ret; [by apply emits_getCharSetPos|]. cbv zeta.
    rewrite (proj2 (Z.eqb_neq (k mod 2) 1)) by lia.
    eapply emits_bind_ret; [by apply emits_getCharSetPos|].
    rewrite (proj2 (Z.eqb_eq _ 1)) by lia.
    change (code_of BITIO_CHARSET_ALPHA) with alpha_val.
    rewrite !u64_small by (unfold two64; rewrite ?u64_small by (unfold two64; lia); lia).
    cbn [alpha_pairs fmap list_fmap concat fst].
    eapply emits_bind; [apply emits_appendBits; lia|]. cbn [odd_tail].
    replace (k + Z.of_nat (length (c :: d :: l))) with (k + 1 + 1 + Z.of_nat (length l))
      by (cbn [length]; lia).
    apply IH; [done|lia].
Qed.

Lemma makeAlphaString_built s :
  Forall is_alpha (chars s) -> built (makeAlphaString s) (alpha_code (chars s)).
Proof.
  intros Hs. eapply emits_built. eapply emits_bind; [by apply emits_alpha_chars|].
  cbn beta iota. unfold when.
  destruct (alpha_pairs_length (chars s)) as [[-> Hl]|(c & -> & Hc & Hl)].
  - rewrite (proj2 (Z.eqb_neq _ 1)) by lia. apply emits_ret.
  - rewrite (proj2 (Z.eqb_eq _ 1)) by lia.
    apply (proj1 (Forall_forall _ _) Hs) in Hc. apply alpha_val_range in Hc.
    apply emits_appendBits; lia.
Qed.

Lemma getAlphaString_reads s :
  Forall is_alpha (chars s) ->
  reads (getAlphaString (Z.of_nat (length (chars s)))) (alpha_code (chars s)) s.
Proof.
  intros Hs. unfold getAlphaString.
  pose proof (reads_for_items _ _ (alpha_pairs_items _ Hs)) as Hp.
  pose proof (alpha_pairs_text (chars s)) as Ht. unfold alpha_code.
  destruct (alpha_pairs_length (chars s)) as [[Et Hl]|(c & Et & Hc & Hl)]; rewrite Et in *.
  - replace (Z.of_nat (length (chars s)) / 2) with (Z.of_nat (length (alpha_pairs (chars s)))) by lia.
    eapply reads_bind; [exact Hp|]. rewrite (proj2 (Z.eqb_neq _ 1)) by lia.
    rewrite app_nil_r in Ht. rewrite Ht, str_chars. apply reads_ret.
  - replace (Z.of_nat (length (chars s)) / 2) with (Z.of_nat (length (alpha_pairs (chars s)))) by lia.
    eapply reads_bind; [exact Hp|]. rewrite (proj2 (Z.eqb_eq _ 1)) by lia.
    apply (proj1 (Forall_forall _ _) Hs) in Hc. pose proof (alpha_val_range c Hc).
    eapply reads_bind_ret; [apply reads_getBits; lia|].
    eapply reads_bind_ret; [by apply reads_char_at|].
    rewrite Ht, str_chars. apply reads_ret.
Qed.

(** ** 3B40 *)
Definition is_b40 (c : ascii) : Prop := c ∈ chars BITIO_CHARSET_3B40.
Definition b40_val (c : ascii) : Z := code_of BITIO_CHARSET_3B40 c.

Lemma b40_val_range c : is_b40 c -> 0 <= b40_val c < 40.
Proof. apply (code_of_range BITIO_CHARSET_3B40). Qed.

Definition b40_triple : M BitIO (list ascii) :=
  v ← getBits 16;
  c ← char_at BITIO_CHARSET_3B40 (v / 1600);
  let v := v mod 1600 in
  d ← char_at BITIO_CHARSET_3B40 (v / 40);
  e ← char_at BITIO_CHARSET_3B40 (v mod 40);
  mret [c; d; e].

Fixpoint b40_triples (l : list ascii) : list (list bool * list ascii) :=
  match l with
  | c :: d :: e :: l =>
      (Zbits 16 ((b40_val c * 40 + b40_val d) * 40 + b40_val e), [c; d; e]) :: b40_triples l
  | _ => []
  end.
Fixpoint b40_tail (l : list ascii) : list ascii :=
  match l with c :: d :: e :: l => b40_tail l | l => l end.
Definition b40_tail_val (l : list ascii) : Z :=
  match l with [c] => b40_val c | [c; d] => b40_val c * 40 + b40_val d | _ => 0 end.
Definition b40_tail_code (l : list ascii) : list bool :=
  match l with
  | [c] => Zbits 5 (b40_val c) | [c; d] => Zbits 11 (b40_val c * 40 + b40_val d) | _ => []
  end.
Definition b40_code (l : list ascii) : list bool :=
  concat (b40_triples l).*1 ++ b40_tail_code (b40_tail l).

Lemma b40_triples_items l :
  Forall is_b40 l ->
  Forall (fun c => c.1 <> [] /\ reads b40_triple c.1 c.2) (b40_triples l).
Proof.
  induction l as [|c|c d|c d e l IH] using triple_ind; [constructor..|]. intros Hl.
  inversion_clear Hl as [|? ? Hc Hl']. inversion_clear Hl' as [|? ? Hd Hl].
  inversion_clear Hl as [|? ? He Hl']. constructor; [|by apply IH]. simpl. split; [done|].
  pose proof (b40_val_range c Hc). pose proof (b40_val_range d Hd). pose proof (b40_val_range e He).
  eapply reads_bind_ret; [apply reads_getBits; lia|]. cbv zeta.
  remember (b40_val c) as x eqn:Ex. remember (b40_val d) as y eqn:Ey. remember (b40_val e) as z eqn:Ez.
  replace (((x * 40 + y) * 40 + z) / 1600) with x by lia.
  replace (((x * 40 + y) * 40 + z) mod 1600) with (y * 40 + z) by lia.
  replace ((y * 40 + z) / 40) with y by lia.
  replace ((y * 40 + z) mod 40) with z by lia. subst x y z.
  do 3 (eapply reads_bind_ret; [by apply reads_char_at|]). apply reads_ret.
Qed.

Lemma b40_triples_text l : concat (b40_triples l).*2 ++ b40_tail l = l.
Proof.
  induction l as [|c|c d|c d e l IH] using triple_ind; [done..|].
  cbn [b40_triples b40_tail fmap list_fmap concat snd app]. by rewrite IH.
Qed.

Lemma b40_triples_length l (n := Z.of_nat (length (b40_triples l))) :
  (b40_tail l = [] /\ Z.of_nat (length l) = 3 * n)
  \/ (exists c, b40_tail l = [c] /\ c ∈ l /\ Z.of_nat (length l) = 3 * n + 1)
  \/ (exists c d, b40_tail l = [c; d] /\ c ∈ l /\ d ∈ l /\ Z.of_nat (length l) = 3 * n + 2).
Proof.
  subst n. induction l as [|c|c d|c d e l IH] using triple_ind.
  - by left.
  - right. left. exists c. split_and!; [done|by left|done].
  - right. right. exists c, d. split_and!; [done|by left|by right; left|done].
  - cbn [b40_triples b40_tail length].
    destruct IH as [[-> IH]|[(x & -> & Hx & IH)|(x & y & -> & Hx & Hy & IH)]].
    + left. split; [done|lia].
    + right. left. exists x. split_and!; [done|by do 3 right|lia].
    + right. right. exists x, y. split_and!; [done|by do 3 right|by do 3 right|lia].
Qed.

Lemma emits_b40_chars l : forall k,
  Forall is_b40 l -> k mod 3 = 0 ->
  emits (b40_chars l k 0) (concat (b40_triples l).*1)
    (k + Z.of_nat (length l), b40_tail_val (b40_tail l)).
Proof.
  induction l as [|c|c d|c d e l IH] using triple_ind; intros k Hl Hk.
  - simpl. rewrite Z.add_0_r. apply emits_ret.
  - inversion_clear Hl. pose proof (b40_val_range c ltac:(done)).
    cbn [b40_chars]. eapply emits_bind_ret; [by apply emits_getCharSetPos|]. rewrite Hk. simpl.
    rewrite u64_small by (unfold two64, b40_val in *; lia). apply emits_ret.
  - inversion_clear Hl as [|? ? Hc Hl']. inversion_clear Hl' as [|? ? Hd Hl].
    pose proof (b40_val_range c Hc). pose proof (b40_val_range d Hd).
    cbn [b40_chars]. eapply emits_bind_ret; [by apply emits_getCharSetPos|]. cbv zeta.
    rewrite (proj2 (Z.eqb_neq (k mod 3) 2)) by lia.
    eapply emits_bind_ret; [by apply emits_getCharSetPos|].
    rewrite (proj2 (Z.eqb_neq _ 2)) by lia.
    change (code_of BITIO_CHARSET_3B40) with b40_val.
    rewrite !u64_small by (unfold two64; rewrite ?u64_small by (unfold two64; lia); lia).
    replace (k + 1 + 1) with (k + Z.of_nat (length [c; d])) by (cbn [length]; lia). apply emits_ret.
  - inversion_clear Hl as [|? ? Hc Hl']. inversion_clear Hl' as [|? ? Hd Hl].
    inversion_clear Hl as [|? ? He Hl'].
    pose proof (b40_val_range c Hc). pose proof (b40_val_range d Hd). pose proof (b40_val_range e He).
    cbn [b40_chars]. eapply emits_bind_ret; [by apply emits_getCharSetPos|]. cbv zeta.
    rewrite (proj2 (Z.eqb_neq (k mod 3) 2)) by lia.
    eapply emits_bind_ret; [by apply emits_getCharSetPos|].
    rewrite (proj2 (Z.eqb_neq _ 2)) by lia.
    eapply emits_bind_ret; [by apply emits_getCharSetPos|].
    rewrite (proj2 (Z.eqb_eq _ 2)) by lia.
    change (code_of BITIO_CHARSET_3B40) with b40_val.
    remember (b40_val c) as x eqn:Ex. remember (b40_val d) as y eqn:Ey. remember (b40_val e) as z eqn:Ez.
    rewrite (u64_small (0 * 40 + x)) by (unfold two64; lia).
    rewrite (u64_small ((0 * 40 + x) * 40 + y)) by (unfold two64; lia).
    rewrite u64_small by (unfold two64; lia).
    cbn [b40_triples fmap list_fmap concat fst].
    rewrite <- Ex, <- Ey, <- Ez. change (0 * 40) with 0. rewrite Z.add_0_l.
    eapply emits_bind; [apply emits_appendBits; lia|]. cbn [b40_tail].
    replace (k + Z.of_nat (length (c :: d :: e :: l))) with (k + 1 + 1 + 1 + Z.of_nat (length l))
      by (cbn [length]; lia).
    apply IH; [done|lia].
Qed.

(** A single last character has five bits, which hold 32 of the 40 codes. *)
Definition b40_tail_fits (s : string) : Prop :=
  match b40_tail (chars s) with [c] => b40_val c < 32 | _ => True end.

Lemma make3B40String_built s :
  Forall is_b40 (chars s) -> b40_tail_fits s -> built (make3B40String s) (b40_code (chars s)).
Proof.
  intros Hs Ht. unfold b40_tail_fits in Ht.
  eapply emits_built. eapply emits_bind; [by apply emits_b40_chars|].
  cbn beta iota. unfold when. unfold b40_code. revert Ht.
  destruct (b40_triples_length (chars s)) as [[-> Hl]|[(c & -> & Hc & Hl)|(c & d & -> & Hc & Hd & Hl)]]; intros Ht.
  - rewrite (proj2 (Z.eqb_neq _ 1)), (proj2 (Z.eqb_neq _ 2)) by lia.
    eapply emits_bind_ret; apply emits_ret.
  - rewrite (proj2 (Z.eqb_eq _ 1)), (proj2 (Z.eqb_neq _ 2)) by lia.
    apply (proj1 (Forall_forall _ _) Hs) in Hc. apply b40_val_range in Hc.
    rewrite <- (app_nil_r (b40_tail_code _)).
    eapply emits_bind; [apply emits_appendBits; simpl; lia|apply emits_ret].
  - rewrite (proj2 (Z.eqb_neq _ 1)), (proj2 (Z.eqb_eq _ 2)) by lia.
    apply (proj1 (Forall_forall _ _) Hs) in Hc, Hd. apply b40_val_range in Hc, Hd.
    eapply emits_bind_ret; [apply emits_ret|]. apply emits_appendBits; simpl; lia.
Qed.

Lemma get3B40String_reads s :
  Forall is_b40 (chars s) -> b40_tail_fits s ->
  reads (get3B40String (Z.of_nat (length (chars s)))) (b40_code (chars s)) s.
Proof.
  intros Hs Hfit. unfold get3B40String, b40_tail_fits in *.
  pose proof (reads_for_items _ _ (b40_triples_items _ Hs)) as Hp.
  pose proof (b40_triples_text (chars s)) as Ht. unfold b40_code.
  destruct (b40_triples_length (chars s)) as [[Et Hl]|[(c & Et & Hc & Hl)|(c & d & Et & Hc & Hd & Hl)]];
    rewrite Et in *;
    replace (Z.of_nat (length (chars s)) / 3) with (Z.of_nat (length (b40_triples (chars s)))) by lia;
    (eapply reads_bind; [exact Hp|]).
  - rewrite (proj2 (Z.eqb_neq _ 1)), (proj2 (Z.eqb_neq _ 2)) by lia.
    rewrite app_nil_r in Ht. rewrite Ht, str_chars. apply reads_ret.
  - rewrite (proj2 (Z.eqb_eq _ 1)) by lia.
    apply (proj1 (Forall_forall _ _) Hs) in Hc. pose proof (b40_val_range c Hc).
    eapply reads_bind_ret; [apply reads_getBits; lia|].
    eapply reads_bind_ret; [by apply reads_char_at|]. rewrite Ht, str_chars. apply reads_ret.
  - rewrite (proj2 (Z.eqb_neq _ 1)), (proj2 (Z.eqb_eq _ 2)) by lia.
    apply (proj1 (Forall_forall _ _) Hs) in Hc, Hd.
    pose proof (b40_val_range c Hc). pose proof (b40_val_range d Hd).
    eapply reads_bind_ret; [apply reads_getBits; lia|].
    replace ((b40_val c * 40 + b40_val d) / 40) with (b40_val c) by lia.
    replace ((b40_val c * 40 + b40_val d) mod 40) with (b40_val d) by lia.
    do 2 (eapply reads_bind_ret; [by apply reads_char_at|]). rewrite Ht, str_chars. apply reads_ret.
Qed.

(** ** Packed UTF-8 *)
Definition is_cont (c : ascii) : Prop := 128 <= byteZ c < 192.

(** The byte sequences the packed form carries: those of UTF-8 except the
    two-byte ones with lead 0xDF and the three-byte ones with lead 0xEF. *)
Inductive packed_char : list ascii -> Prop :=
  | packed1 c : byteZ c < 128 -> packed_char [c]
  | packed2 c d : 192 <= byteZ c < 223 -> is_cont d -> packed_char [c; d]
  | packed3 c d e : 224 <= byteZ c < 239 -> is_cont d -> is_cont e -> packed_char [c; d; e]
  | packed4 c d e f :
      240 <= byteZ c < 247 -> is_cont d -> is_cont e -> is_cont f -> packed_char [c; d; e; f].

Definition packed_code (l : list ascii) : list bool :=
  match l with
  | [c] => Zbits 8 (byteZ c)
  | [c; d] => Zbits 7 (Z.land (byteZ c) 127) ++ Zbits 6 (byteZ d)
  | [c; d; e] => Zbits 7 (Z.land (byteZ c) 127) ++ Zbits 6 (byteZ d) ++ Zbits 6 (byteZ e)
  | [c; d; e; f] =>
      Zbits 6 (Z.lor (Z.land (byteZ c) 7) 56) ++ Zbits 6 (byteZ d) ++ Zbits 6 (byteZ e)
      ++ Zbits 6 (byteZ f)
  | _ => []
  end.

(** Facts about single bytes hold by evaluation on all 256 of them. *)
Lemma byte_forall (P : Z -> bool) c : forallb P (seqZ 0 256) = true -> P (byteZ c) = true.
Proof.
  intros H. apply (proj1 (forallb_forall _ _) H). apply list_elem_of_In, elem_of_seqZ.
  apply byteZ_range.
Qed.

Lemma byte_forall_in lo hi (P : Z -> bool) c :
  forallb (fun b => negb ((lo <=? b) && (b <? hi)) || P b) (seqZ 0 256) = true ->
  lo <= byteZ c < hi -> P (byteZ c) = true.
Proof.
  intros H Hc. apply (byte_forall _ c) in H. simpl in H.
  destruct (Z.leb_spec lo (byteZ c)), (Z.ltb_spec (byteZ c) hi); simpl in H; try lia. done.
Qed.

Definition bits_eqb (l k : list bool) : bool := bool_decide (l = k).

Ltac byte_fact lo hi P H :=
  match type of H with _ <= byteZ ?c < _ =>
    let F := fresh in
    assert (F : P (byteZ c) = true) by
      (apply (byte_forall_in lo hi P c); [vm_compute; reflexivity | exact H]);
    cbv beta in F; rewrite ?andb_true_iff, ?bool_decide_eq_true, ?Z.eqb_eq, ?Z.eqb_neq,
      ?Z.ltb_lt, ?negb_true_iff in F
  end.

Lemma cont_fact c :
  is_cont c -> Z.land (byteZ c) 128 <> 0 /\ Zbits 6 (byteZ c) = Zbits 6 (Z.land (byteZ c) 63)
    /\ 0 <= Z.land (byteZ c) 63 < 64 /\ Z.lor 128 (Z.land (byteZ c) 63) = byteZ c.
Proof.
  intros H. unfold is_cont in H.
  byte_fact 128 192 (fun b => bool_decide (Z.land b 128 <> 0 /\ Zbits 6 b = Zbits 6 (Z.land b 63)
    /\ 0 <= Z.land b 63 < 64 /\ Z.lor 128 (Z.land b 63) = b)) H. tauto.
Qed.

Lemma lead1_fact c :
  byteZ c < 128 -> Z.land (byteZ c) 128 = 0 /\ Zbits 8 (byteZ c) = [false] ++ Zbits 7 (byteZ c).
Proof.
  intros H. assert (0 <= byteZ c < 128) as H' by (pose proof (byteZ_range c); lia).
  byte_fact 0 128 (fun b => bool_decide (Z.land b 128 = 0 /\ Zbits 8 b = [false] ++ Zbits 7 b)) H'. tauto.
Qed.

Lemma lead2_fact c :
  192 <= byteZ c < 223 -> Z.land (byteZ c) 128 <> 0 /\ 0 <= Z.land (byteZ c) 127 < 128
  /\ Zbits 7 (Z.land (byteZ c) 127) = [true; false] ++ Zbits 5 (Z.land (byteZ c) 31)
  /\ 0 <= Z.land (byteZ c) 31 < 32 /\ Z.lor 192 (Z.land (byteZ c) 31) = byteZ c.
Proof.
  intros H.
  byte_fact 192 223 (fun b => bool_decide (Z.land b 128 <> 0 /\ 0 <= Z.land b 127 < 128
    /\ Zbits 7 (Z.land b 127) = [true; false] ++ Zbits 5 (Z.land b 31)
    /\ 0 <= Z.land b 31 < 32 /\ Z.lor 192 (Z.land b 31) = b)) H. tauto.
Qed.

Lemma lead3_fact c :
  224 <= byteZ c < 239 -> Z.land (byteZ c) 128 <> 0 /\ 0 <= Z.land (byteZ c) 127 < 128
  /\ Zbits 7 (Z.land (byteZ c) 127) = [true; true; false] ++ Zbits 4 (Z.land (byteZ c) 15)
  /\ 0 <= Z.land (byteZ c) 15 < 16 /\ Z.lor 224 (Z.land (byteZ c) 15) = byteZ c.
Proof.
  intros H.
  byte_fact 224 239 (fun b => bool_decide (Z.land b 128 <> 0 /\ 0 <= Z.land b 127 < 128
    /\ Zbits 7 (Z.land b 127) = [true; true; false] ++ Zbits 4 (Z.land b 15)
    /\ 0 <= Z.land b 15 < 16 /\ Z.lor 224 (Z.land b 15) = b)) H. tauto.
Qed.

Lemma lead4_fact c :
  240 <= byteZ c < 247 -> Z.land (byteZ c) 128 <> 0 /\ 0 <= Z.lor (Z.land (byteZ c) 7) 56 < 64
  /\ Zbits 6 (Z.lor (Z.land (byteZ c) 7) 56) = [true; true; true] ++ Zbits 3 (Z.land (byteZ c) 7)
  /\ 0 <= Z.land (byteZ c) 7 < 8 /\ Z.lor 240 (Z.land (byteZ c) 7) = byteZ c.
Proof.
  intros H.
  byte_fact 240 247 (fun b => bool_decide (Z.land b 128 <> 0 /\ 0 <= Z.lor (Z.land b 7) 56 < 64
    /\ Zbits 6 (Z.lor (Z.land b 7) 56) = [true; true; true] ++ Zbits 3 (Z.land b 7)
    /\ 0 <= Z.land b 7 < 8 /\ Z.lor 240 (Z.land b 7) = b)) H. tauto.
Qed.

(** One continuation byte pushed into the block. *)
Lemma pack6 n x y (v := Z.lor (shl64 x 6) (Z.land y 63)) :
  0 <= n <= 58 -> 0 <= x < 2 ^ n ->
  0 <= v < 2 ^ (n + 6) /\ Zbits (n + 6) v = Zbits n x ++ Zbits 6 y.
Proof.
  intros Hn Hx.
  assert (forall i, 6 <= i -> Z.testbit (Z.land y 63) i = false) as Hy.
  { intros i Hi. rewrite Z.land_spec, (testbit_high 63 6) by lia. apply andb_false_r. }
  assert (0 <= v) as H0.
  { apply Z.lor_nonneg. split; [apply u64_range|]. apply Z.land_nonneg. lia. }
  assert (forall i, 0 <= i -> Z.testbit v (i + 6) = Z.testbit x i && (i <? 58)) as Hhi.
  { intros i Hi. unfold v. rewrite Z.lor_spec, Hy, orb_false_r, testbit_shl64 by lia.
    replace (i + 6 - 6) with i by lia. by destruct (Z.ltb_spec (i + 6) 64), (Z.ltb_spec i 58); try lia. }
  split; [split; [done|]|].
  - apply bits_bound; [lia|done|]. intros i Hi. replace i with (i - 6 + 6) by lia.
    rewrite Hhi, (testbit_high x n) by lia. done.
  - rewrite Zbits_app by lia. f_equal; apply tab_ext; intros i Hi.
    + rewrite Z.shiftr_spec, Hhi by lia. destruct (Z.ltb_spec (n - 1 - i) 58); [by rewrite andb_true_r|lia].
    + unfold v. rewrite Z.lor_spec, testbit_shl64 by lia. rewrite (Z.testbit_neg_r x) by lia. simpl.
      rewrite Z.land_spec. change 63 with (Z.ones 6). rewrite Z.ones_spec_low by lia. apply andb_true_r.
Qed.

Lemma packed_code_emitted cs rest l bl blk :
  packed_char cs -> (forall bl blk, emits (utf8_bytes rest 0 bl blk) l tt) ->
  emits (utf8_bytes (cs ++ rest) 0 bl blk) (packed_code cs ++ l) tt.
Proof.
  intros Hcs Hrest. destruct Hcs as [c H|c d H Hd|c d e H Hd He|c d e f H Hd He Hf];
    cbn [app utf8_bytes packed_code]; cbv zeta.
  - destruct (lead1_fact c H) as [-> _]. pose proof (byteZ_range c).
    eapply emits_bind; [apply emits_appendBits; lia|apply Hrest].
  - destruct (lead2_fact c H) as (Hc & Hr & _), (cont_fact d Hd) as (Hd0 & _).
    apply Z.eqb_neq in Hc, Hd0. rewrite Hc, Hd0. change (0 =? 0) with true. cbv iota.
    rewrite (proj2 (Z.ltb_lt _ 223)) by lia. change (2 =? 0) with false. cbv iota.
    change (2 - 1 =? 1) with true. cbv iota.
    destruct (pack6 7 (Z.land (byteZ c) 127) (byteZ d)) as [Hv <-]; [lia|lia|].
    eapply emits_bind; [by apply emits_appendBits|apply Hrest].
  - destruct (lead3_fact c H) as (Hc & Hr & _), (cont_fact d Hd) as (Hd0 & _),
      (cont_fact e He) as (He0 & _).
    apply Z.eqb_neq in Hc, Hd0, He0. rewrite Hc, Hd0, He0. change (0 =? 0) with true. cbv iota.
    rewrite (proj2 (Z.ltb_ge _ 223)), (proj2 (Z.ltb_lt _ 239)) by lia.
    change (3 =? 0) with false. change (3 - 1 =? 1) with false. cbv iota.
    change (3 - 1 =? 0) with false. change (3 - 1 - 1 =? 1) with true. cbv iota.
    destruct (pack6 7 (Z.land (byteZ c) 127) (byteZ d)) as [Hv Hb]; [lia|lia|].
    destruct (pack6 (7 + 6) _ (byteZ e) ltac:(lia) Hv) as [Hw Hb2].
    rewrite app_assoc, <- Hb, <- Hb2.
    eapply emits_bind; [by apply emits_appendBits|apply Hrest].
  - destruct (lead4_fact c H) as (Hc & Hr & _), (cont_fact d Hd) as (Hd0 & _),
      (cont_fact e He) as (He0 & _), (cont_fact f Hf) as (Hf0 & _).
    apply Z.eqb_neq in Hc, Hd0, He0, Hf0. rewrite Hc, Hd0, He0, Hf0. change (0 =? 0) with true. cbv iota.
    rewrite (proj2 (Z.ltb_ge _ 223)), (proj2 (Z.ltb_ge _ 239)), (proj2 (Z.ltb_lt _ 247)) by lia.
    change (4 =? 0) with false. change (4 - 1 =? 1) with false. cbv iota.
    change (4 - 1 =? 0) with false. change (4 - 1 - 1 =? 1) with false. cbv iota.
    change (4 - 1 - 1 =? 0) with false. change (4 - 1 - 1 - 1 =? 1) with true. cbv iota.
    destruct (pack6 6 (Z.lor (Z.land (byteZ c) 7) 56) (byteZ d)) as [Hv Hb]; [lia|lia|].
    destruct (pack6 (6 + 6) _ (byteZ e) ltac:(lia) Hv) as [Hw Hb2].
    destruct (pack6 (6 + 6 + 6) _ (byteZ f) ltac:(lia) Hw) as [Hx Hb3].
    rewrite !app_assoc, <- Hb, <- Hb2, <- Hb3.
    eapply emits_bind; [by apply emits_appendBits|apply Hrest].
Qed.

Lemma makeUTF8String_built css :
  Forall packed_char css ->
  built (makeUTF8String (str (concat css))) (concat (map packed_code css)).
Proof.
  intros Hcs. unfold makeUTF8String. rewrite chars_str. eapply emits_built.
  assert (forall bl blk, emits (utf8_bytes (concat css) 0 bl blk) (concat (map packed_code css)) tt)
    as H; [|apply H].
  induction Hcs as [|cs css Hc _ IH]; intros bl blk; [apply emits_ret|].
  by apply packed_code_emitted.
Qed.

Lemma reads_bit (v : bool) : reads (getBits 1) [v] (Z.b2z v).
Proof. destruct v; [by apply (reads_getBits 1 1)|by apply (reads_getBits 1 0)]. Qed.

Lemma reads_bit_bind {B} (v : bool) (f : Z -> M BitIO B) l b :
  reads (f (Z.b2z v)) l b -> reads (x ← getBits 1; f x) (v :: l) b.
Proof. intros H. apply (reads_bind _ _ [v] l (Z.b2z v)); [apply reads_bit|done]. Qed.

Lemma charZ_eq v c : v = byteZ c -> charZ v = c.
Proof. intros ->. apply charZ_byteZ. Qed.

Lemma reads_cont c : is_cont c -> reads (getBits 6) (Zbits 6 (byteZ c)) (Z.land (byteZ c) 63).
Proof. intros (_ & -> & Hr & _)%cont_fact. by apply reads_getBits. Qed.

Lemma packed_code_read cs : packed_char cs -> reads utf8_item (packed_code cs) cs.
Proof.
  intros Hcs. unfold utf8_item.
  destruct Hcs as [c H|c d H Hd|c d e H Hd He|c d e f H Hd He Hf]; unfold packed_code.
  - destruct (lead1_fact c H) as [_ ->]. pose proof (byteZ_range c).
    apply (reads_bit_bind false).
    eapply reads_bind_ret; [apply reads_getBits; lia|].
    rewrite charZ_byteZ. apply reads_ret.
  - destruct (lead2_fact c H) as (_ & _ & -> & Hr & Hv). rewrite <- app_assoc.
    pose proof (cont_fact d Hd) as (_ & _ & _ & Hvd).
    apply (reads_bit_bind true), (reads_bit_bind false).
    eapply reads_bind; [by apply reads_getBits|].
    eapply reads_bind_ret; [by apply reads_cont|].
    rewrite (charZ_eq _ c Hv), (charZ_eq _ d Hvd). apply reads_ret.
  - destruct (lead3_fact c H) as (_ & _ & -> & Hr & Hv). rewrite <- app_assoc.
    pose proof (cont_fact d Hd) as (_ & _ & _ & Hvd). pose proof (cont_fact e He) as (_ & _ & _ & Hve).
    apply (reads_bit_bind true), (reads_bit_bind true), (reads_bit_bind false).
    eapply reads_bind; [by apply reads_getBits|].
    eapply reads_bind; [by apply reads_cont|].
    eapply reads_bind_ret; [by apply reads_cont|].
    rewrite (charZ_eq _ c Hv), (charZ_eq _ d Hvd), (charZ_eq _ e Hve). apply reads_ret.
  - destruct (lead4_fact c H) as (_ & _ & -> & Hr & Hv). rewrite <- app_assoc.
    pose proof (cont_fact d Hd) as (_ & _ & _ & Hvd). pose proof (cont_fact e He) as (_ & _ & _ & Hve).
    pose proof (cont_fact f Hf) as (_ & _ & _ & Hvf).
    do 3 apply (reads_bit_bind true).
    eapply reads_bind; [by apply reads_getBits|].
    do 2 (eapply reads_bind; [by apply reads_cont|]).
    eapply reads_bind_ret; [by apply reads_cont|].
    rewrite (charZ_eq _ c Hv), (charZ_eq _ d Hvd), (charZ_eq _ e Hve), (charZ_eq _ f Hvf).
    apply reads_ret.
Qed.

Lemma packed_code_nonempty cs : packed_char cs -> packed_code cs <> [].
Proof. by destruct 1. Qed.

Lemma getUTF8String_reads css :
  Forall packed_char css ->
  reads (getUTF8String (Z.of_nat (length css))) (concat (map packed_code css)) (str (concat css)).
Proof.
  intros Hcs. unfold getUTF8String.
  assert (Forall (fun c => c.1 <> [] /\ reads utf8_item c.1 c.2)
            (map (fun cs => (packed_code cs, cs)) css)) as Hi.
  { apply Forall_map. eapply Forall_impl; [exact Hcs|]. intros cs Hc. simpl.
    split; [by apply packed_code_nonempty|by apply packed_code_read]. }
  pose proof (reads_for_items _ _ Hi) as H.
  rewrite fmap_map_fst, fmap_map_snd, length_map, map_id in H.
  eapply reads_bind_ret; [exact H|apply reads_ret].
Qed.
