(* ===== verification/BitIONumbers.v ===== *)
(** Theorems about the number and script encodings of BitIOCodec.v:
    fixed-precision integers, xBit codes and Bitcoin data pushes. *)

From S2P Require Import Prelude.
From S2P Require Import BitIO.
From S2P Require Import BitIOBlocks.
From S2P Require Import BitIOInsert.
From S2P Require Import BitIOCodec.
From S2P Require Import BitStream.
From S2P Require Import BitIOText.

Ltac Zify.zify_post_hook ::= Z.div_mod_to_equations.

(** ** Fixed precision *)
Lemma strip_zeros_run fuel : forall v e (b : BitIO),
  0 < v -> v < 10 ^ Z.of_nat fuel -> 0 <= e ->
  exists v' k, strip_zeros fuel v e b = (Ok (v', e + k), b)
    /\ 0 <= k /\ v = v' * 10 ^ k /\ 0 < v' /\ v' mod 10 <> 0.
Proof.
  induction fuel as [|fuel IH]; intros v e b Hv Hf He; [simpl in Hf; lia|].
  cbn [strip_zeros]. destruct (Z.eqb_spec (v mod 10) 0).
  - rewrite Nat2Z.inj_succ, Z.pow_succ_r in Hf by lia.
    destruct (IH (v / 10) (e + 1) b) as (v' & k & Hrun & Hk & Hv' & H1 & H2); [lia..|].
    exists v', (k + 1). rewrite Hrun. split_and!; try done; try lia.
    + by rewrite Z.add_assoc, (Z.add_comm _ k), Z.add_assoc, (Z.add_comm k e).
    + rewrite Z.pow_add_r by lia. change (10 ^ 1) with 10. lia.
  - exists v, 0. rewrite Z.add_0_r. split_and!; try done; lia.
Qed.

(** The bits of a mantissa and exponent, by the size of the mantissa. *)
Definition fixed_code (value exponent : Z) : list bool :=
  if 4398046511103 <? value then Zbits 2 3 ++ Zbits 54 value
  else if 17179869183 <? value then Zbits 3 5 ++ Zbits 42 value ++ Zbits 3 exponent
  else if 33554431 <? value then Zbits 3 4 ++ Zbits 34 value ++ Zbits 3 exponent
  else if 131071 <? value then Zbits 3 3 ++ Zbits 25 value ++ Zbits 4 exponent
  else if 511 <? value then Zbits 3 2 ++ Zbits 17 value ++ Zbits 4 exponent
  else Zbits 3 1 ++ Zbits 9 value ++ Zbits 4 exponent.

(** The pairs that fit the chosen form. *)
Definition fixed_fits (value exponent : Z) : Prop :=
  0 <= value /\ 0 <= exponent /\
  if 4398046511103 <? value then value < 2 ^ 54 /\ exponent = 0
  else if 33554431 <? value then exponent <= 7
  else exponent <= 15.

Definition emit_fixed (value exponent : Z) : M BitIO unit :=
  if 4398046511103 <? value then appendBits 3 2;; appendBits value 54
  else if 17179869183 <? value then
    appendBits 5 3;; appendBits value 42;; appendBits exponent 3
  else if 33554431 <? value then
    appendBits 4 3;; appendBits value 34;; appendBits exponent 3
  else if 131071 <? value then
    appendBits 3 3;; appendBits value 25;; appendBits exponent 4
  else if 511 <? value then
    appendBits 2 3;; appendBits value 17;; appendBits exponent 4
  else
    appendBits 1 3;; appendBits value 9;; appendBits exponent 4.

Lemma emits_fixed v e : fixed_fits v e -> emits (emit_fixed v e) (fixed_code v e) tt.
Proof.
  unfold fixed_fits, emit_fixed, fixed_code. intros (Hv & He & Hfit).
  revert Hfit.
  repeat match goal with |- context [?a <? v] => destruct (Z.ltb_spec a v) end; try lia;
    intros Hfit;
    repeat (eapply emits_bind; [apply emits_appendBits; lia|]); apply emits_appendBits; lia.
Qed.

Lemma pow10_run {S} e (s : S) : 0 <= e <= 18 -> pow10 e s = (Ok (10 ^ e), s).
Proof.
  intros He. unfold pow10, checkValueRange. destruct (Z.ltb_spec e 0); [lia|].
  destruct (Z.ltb_spec 18 e); [lia|done].
Qed.

Lemma reads_pow10 e : 0 <= e <= 18 -> reads (pow10 e) [] (10 ^ e).
Proof.
  intros He b r _ _ _. rewrite pow10_run by done. simpl. by rewrite advance_0.
Qed.

(** Moving the cursor back over bits just read. *)
Lemma movePositionBy_back b n k :
  wf b -> fits b -> 0 <= n <= k -> _position b + k <= _length b ->
  movePositionBy (- n) (advance k b) = (Ok tt, advance (k - n) b).
Proof.
  intros Hwf Hf Hn Hl. pose proof (wf_position b Hwf). unfold fits, two64 in Hf.
  unfold movePositionBy, mbind, M_bind, get. simpl.
  rewrite u64_small by (unfold two64; lia).
  rewrite movePositionTo_ok by (simpl; lia).
  unfold advance, set_position. simpl. do 2 f_equal. lia.
Qed.

(** The two-bit prefix of the seven-byte form: three bits are read and one is
    given back. *)
Lemma reads_fixed7 {B} (f : Z -> M BitIO B) v w :
  reads (f 7) (Zbits 54 v) w ->
  reads (l ← getBits 3;
         length ← (if 7 <=? l + 1 then movePositionBy (-1);; mret 7 else mret (l + 1)); f length)
    (Zbits 2 3 ++ Zbits 54 v) w.
Proof.
  intros Hf b r Hwf Hfit Hr.
  pose proof (rest_prefix _ _ _ Hwf Hr) as Hl. rewrite length_app, !length_Zbits in Hl.
  assert (Hbits : reads (getBits 3) ([true; true] ++ Zbits 1 (Z.shiftr v 53))
                    (bitsZ ([true; true] ++ Zbits 1 (Z.shiftr v 53)))) by (by apply reads_getBits_list).
  assert (7 <= bitsZ ([true; true] ++ Zbits 1 (Z.shiftr v 53)) + 1) as H7.
  { change (Zbits 1 (Z.shiftr v 53)) with [Z.testbit (Z.shiftr v 53) 0].
    by destruct (Z.testbit (Z.shiftr v 53) 0). }
  rewrite (bind_ok _ _ _ _ _ (Hbits b (Zbits 53 v ++ r) Hwf Hfit ltac:(
    rewrite Hr; change 54 with (1 + 53); rewrite (Zbits_app 1 53) by lia; by rewrite <- !app_assoc))).
  rewrite (proj2 (Z.leb_le 7 _)) by done.
  change (length ([true; true] ++ Zbits 1 (Z.shiftr v 53))) with 3%nat.
  pose proof (movePositionBy_back b 1 3 Hwf Hfit ltac:(lia) ltac:(lia)) as Hback.
  change (- (1)) with (-1) in Hback. change (3 - 1) with (Z.of_nat (length (Zbits 2 3))) in Hback.
  rewrite (bind_ok _ _ _ _ _ (bind_ok _ _ _ _ _ Hback)).
  rewrite <- app_assoc in Hr.
  rewrite (Hf _ r); [|apply wf_advance; [done|lia|simpl; lia]|done|by apply rest_advance].
  by rewrite advance_advance, length_app, Nat2Z.inj_add.
Qed.

Lemma reads_fixed v e :
  fixed_fits v e -> v * 10 ^ e < two64 ->
  (v <= 4398046511103 -> 0 <= e) ->
  reads getFixedPrecision (fixed_code v e) (v * 10 ^ e).
Proof.
  unfold fixed_fits, fixed_code, getFixedPrecision. intros (Hv & He & Hfit) Hw _.
  assert (0 <= v * 10 ^ e) by (apply Z.mul_nonneg_nonneg; [|apply Z.pow_nonneg]; lia).
  revert Hfit. destruct (Z.ltb_spec 4398046511103 v).
  { intros [Hf ->]. apply reads_fixed7. cbn.
    eapply reads_bind_ret; [eapply reads_bind_ret; [apply reads_getBits; lia|apply reads_ret]|].
    cbn beta iota. eapply reads_bind_ret; [by apply reads_pow10|].
    rewrite u64_small by (unfold two64 in *; lia). apply reads_ret. }
  repeat match goal with |- context [?a <? v] => destruct (Z.ltb_spec a v) end; try lia;
    intros Hfit; (eapply reads_bind; [apply reads_getBits; lia|]); cbn;
    (eapply reads_bind_nil; [apply reads_ret|]); cbn;
    (eapply reads_bind_ret;
      [eapply reads_bind; [apply reads_getBits; lia|];
       eapply reads_bind_ret; [apply reads_getBits; lia|apply reads_ret]|]);
    cbn beta iota; (eapply reads_bind_ret; [apply reads_pow10; lia|]);
    rewrite u64_small by (unfold two64 in *; lia); apply reads_ret.
Qed.

Lemma pow10_bound k n : 0 <= n -> 10 ^ k < 10 ^ n -> k < n.
Proof.
  intros Hn H. destruct (Z.lt_ge_cases k n); [done|].
  pose proof (Z.pow_le_mono_r 10 n k ltac:(lia) ltac:(lia)). lia.
Qed.

(** The encoder's choice of mantissa and exponent: the amount is preserved and
    the pair fits its form, for every amount up to [2^54 - 1] but [10^16]. *)
Lemma fixed_choice v (k : Z) (value := v * 10 ^ k) :
  0 <= k -> 0 < v -> v mod 10 <> 0 -> 32 <= value <= 18014398509481983 -> value <> 10 ^ 16 ->
  let '(m1, e1) := if 4398046511103 <? v then (u64 (v * 10 ^ k), 0) else (v, k) in
  let '(m, e) := if (7 <? e1) && (33554431 <? m1)
                 then (u64 (m1 * 10 ^ (e1 - 7)), 7) else (m1, e1) in
  fixed_fits m e /\ m * 10 ^ e = value.
Proof.
  intros Hk Hv Hmod Hval H16. subst value. unfold fixed_fits.
  assert (0 < 10 ^ k) by (apply Z.pow_pos_nonneg; lia).
  assert (k < 17) as Hk17 by (apply pow10_bound; [lia|]; change (10 ^ 17) with 100000000000000000; nia).
  destruct (Z.ltb_spec 4398046511103 v) as [Hbig|Hsmall].
  - rewrite u64_small by (unfold two64; lia). change (7 <? 0) with false. cbv iota beta.
    assert (4398046511103 < v * 10 ^ k) by nia.
    simpl. rewrite (proj2 (Z.ltb_lt 4398046511103 _)) by done. split_and!; lia.
  - destruct (Z.ltb_spec 7 k) as [Hk7|Hk7], (Z.ltb_spec 33554431 v) as [Hm|Hm]; cbv iota beta; simpl.
    + assert (10 ^ k = 10 ^ (k - 7) * 10 ^ 7) as Hp by (rewrite <- Z.pow_add_r by lia; f_equal; lia).
      change (10 ^ 7) with 10000000 in Hp.
      assert (0 < 10 ^ (k - 7)) by (apply Z.pow_pos_nonneg; lia).
      assert (0 <= v * 10 ^ (k - 7) <= 1801439850) by nia.
      rewrite u64_small by (unfold two64; lia).
      assert (33554431 < v * 10 ^ (k - 7)) by nia.
      rewrite (proj2 (Z.ltb_ge 4398046511103 _)), (proj2 (Z.ltb_lt 33554431 _)) by lia.
      split_and!; first [lia | nia].
    + rewrite (proj2 (Z.ltb_ge 4398046511103 _)), (proj2 (Z.ltb_ge 33554431 _)) by lia.
      split_and!; try lia. assert (k <> 16); [|lia]. intros ->. change (10 ^ 16) with 10000000000000000 in *.
      lia.
    + rewrite (proj2 (Z.ltb_ge 4398046511103 _)), (proj2 (Z.ltb_lt 33554431 _)) by lia.
      split_and!; lia.
    + rewrite (proj2 (Z.ltb_ge 4398046511103 _)), (proj2 (Z.ltb_ge 33554431 _)) by lia.
      split_and!; lia.
Qed.

Lemma makeFixedPrecision_small value :
  0 <= value < 32 -> makeFixedPrecision value = exec (appendBits value 8) empty_BitIO.
Proof.
  intros Hv. unfold makeFixedPrecision, checkValueRange.
  destruct (Z.ltb_spec value 0); [lia|]. destruct (Z.ltb_spec 18014398509481983 value); [lia|].
  destruct (Z.ltb_spec value 32); [done|lia].
Qed.

Lemma makeFixedPrecision_large value :
  32 <= value <= 18014398509481983 -> value <> 10 ^ 16 ->
  exists m e, makeFixedPrecision value = exec (emit_fixed m e) empty_BitIO
    /\ fixed_fits m e /\ m * 10 ^ e = value.
Proof.
  intros Hv H16.
  destruct (strip_zeros_run 20 value 0 empty_BitIO) as (v & k & Hrun & Hk & Heq & Hv0 & Hmod); [lia| |lia|].
  { change (10 ^ Z.of_nat 20) with 100000000000000000000. lia. }
  pose proof (fixed_choice v k Hk Hv0 Hmod) as Hc. rewrite <- Heq in Hc. specialize (Hc Hv H16).
  assert (0 < 10 ^ k) by (apply Z.pow_pos_nonneg; lia).
  assert (k < 17) as Hk17 by (apply pow10_bound; [lia|]; change (10 ^ 17) with 100000000000000000; nia).
  unfold makeFixedPrecision, checkValueRange.
  destruct (Z.ltb_spec value 0); [lia|]. destruct (Z.ltb_spec 18014398509481983 value); [lia|].
  destruct (Z.ltb_spec value 32); [lia|]. unfold exec.
  step_by reflexivity. step Hrun. cbn beta iota. rewrite Z.add_0_l.
  destruct (4398046511103 <? v).
  - step_by (rewrite (bind_ok _ _ _ _ _ (pow10_run k empty_BitIO ltac:(lia))); reflexivity).
    rewrite <- Heq in *. cbv iota beta in Hc. change (7 <? 0) with false in *. cbv iota beta in Hc.
    cbn [andb]. step_by reflexivity. cbn beta iota. by exists (u64 value), 0.
  - step_by reflexivity. cbn beta iota. destruct (Z.ltb_spec 7 k) as [Hk7|Hk7]; cbn [andb] in *.
    + destruct (33554431 <? v); cbv iota beta in Hc.
      * step_by (rewrite u64_small by (unfold two64; lia);
          rewrite (bind_ok _ _ _ _ _ (pow10_run (k - 7) empty_BitIO ltac:(lia))); reflexivity).
        by exists (u64 (v * 10 ^ (k - 7))), 7.
      * step_by reflexivity. by exists v, k.
    + step_by reflexivity. by exists v, k.
Qed.

Lemma reads_fixed1 value :
  0 <= value < 32 -> reads getFixedPrecision (Zbits 8 value) value.
Proof.
  intros Hv. change 8 with (3 + 5). rewrite Zbits_app by lia.
  assert (Z.shiftr value 5 = 0) as -> by (rewrite Z.shiftr_div_pow2 by lia; lia).
  unfold getFixedPrecision. eapply reads_bind; [apply reads_getBits; lia|]. cbn.
  eapply reads_bind_nil; [apply reads_ret|]. cbn.
  eapply reads_bind_ret; [eapply reads_bind_ret; [apply reads_getBits; lia|apply reads_ret]|].
  cbn beta iota. eapply reads_bind_ret; [by apply (reads_pow10 0)|].
  rewrite u64_small by (unfold two64; lia). replace (value * 10 ^ 0) with value by lia. apply reads_ret.
Qed.

Lemma fixed_precision_codec value :
  0 <= value <= 18014398509481983 -> value <> 10 ^ 16 ->
  exists l, built (makeFixedPrecision value) l /\ reads getFixedPrecision l value
            /\ (length l <= 56)%nat.
Proof.
  intros Hv H16. destruct (Z.lt_ge_cases value 32).
  - exists (Zbits 8 value). rewrite makeFixedPrecision_small by lia. split_and!.
    + eapply emits_built. apply emits_appendBits; lia.
    + apply reads_fixed1. lia.
    + rewrite length_Zbits. lia.
  - destruct (makeFixedPrecision_large value) as (m & e & -> & Hfit & Hm); [lia|done|].
    exists (fixed_code m e). split_and!.
    + eapply emits_built. by apply emits_fixed.
    + rewrite <- Hm. apply reads_fixed; [done|unfold two64; lia|by intros _; apply Hfit].
    + unfold fixed_code. repeat case_match; rewrite !length_app, !length_Zbits; lia.
Qed.

Lemma reader_movePositionBy_back d n :
  0 <= n <= 64 -> reader d (- n) (movePositionBy (- n)).
Proof.
  intros Hn b Hwf Hf. pose proof (wf_position b Hwf). unfold fits, two64 in Hf.
  unfold movePositionBy, movePositionTo, checkPosition, mbind, M_bind, get, modify.
  destruct (Z.ltb_spec (_length b) (u64 (_position b + - n))).
  - exists (Throw (out_of_range "position must be inside the data")), (_position b).
    split_and!; first [done | lia | by destruct b].
  - exists (Ok tt), (_position b - n).
    assert (u64 (_position b + - n) = _position b - n) as Hu by (unfold u64, two64 in *; lia).
    rewrite Hu. split_and!; try done; unfold u64, two64 in *; lia.
Qed.

Lemma reader_pow10 d e : reader d 0 (pow10 e).
Proof.
  unfold pow10, checkValueRange. apply (reader_bind d 0 0); [|intros; apply reader_ret].
  repeat (apply reader_if; [apply reader_throw|]). apply reader_ret.
Qed.

Lemma returns_bind_ret {A B} (m : M BitIO A) (b : B) : returns (m;; mret b) (fun x => x = b).
Proof.
  intros s x _ _. unfold mbind, M_bind, mret, M_ret. destruct (m s) as [[] ?]; by intros [= ->].
Qed.
Lemma returns_ret {B} (b : B) : returns (mret b : M BitIO B) (fun x => x = b).
Proof. intros s x _ _. by intros [= ->]. Qed.

(** The amounts the encoder refuses. *)
Lemma makeFixedPrecision_refused value :
  0 <= value < two64 -> ~ (value <= 18014398509481983 /\ value <> 10 ^ 16) ->
  exists what, makeFixedPrecision value = Throw (out_of_range what).
Proof.
  intros Hv H. destruct (Z.eq_dec value (10 ^ 16)) as [->|]; [eexists; vm_compute; reflexivity|].
  exists "value is to large"%string. unfold makeFixedPrecision, checkValueRange.
  destruct (Z.ltb_spec value 0); [lia|].
  destruct (Z.ltb_spec 18014398509481983 value); [done|lia].
Qed.

(** The mantissa and exponent that follow the length prefix. *)
Definition fixed_parts (length : Z) : M BitIO (Z * Z) :=
  if length =? 1 then m ← getBits 5; mret (m, 0)
  else if length <? 5 then
    m ← getBits (length * 8 - 7); e ← getBits 4; mret (m, e)
  else if length <? 7 then
    m ← getBits (length * 8 - 6); e ← getBits 3; mret (m, e)
  else m ← getBits 54; mret (m, 0).

Lemma reader_fixed_parts d length :
  1 <= length <= 7 -> reader d (if length =? 7 then 54 else 5) (fixed_parts length).
Proof.
  intros Hl. unfold fixed_parts.
  destruct (Z.eqb_spec length 7) as [->|]; simpl.
  { apply (reader_weaken d (54 + 0)); [|lia].
    apply reader_bind; [by apply reader_getBits|intros; apply reader_ret]. }
  destruct (Z.eqb_spec length 1) as [->|].
  { apply (reader_weaken d (5 + 0)); [|lia].
    apply reader_bind; [by apply reader_getBits|intros; apply reader_ret]. }
  destruct (Z.ltb_spec length 5); [|destruct (Z.ltb_spec length 7); [|lia]].
  - apply (reader_weaken d (length * 8 - 7 + (4 + 0))); [|lia].
    apply reader_bind; [apply reader_getBits; lia|intros].
    apply reader_bind; [by apply reader_getBits|intros; apply reader_ret].
  - apply (reader_weaken d (length * 8 - 6 + (3 + 0))); [|lia].
    apply reader_bind; [apply reader_getBits; lia|intros].
    apply reader_bind; [by apply reader_getBits|intros; apply reader_ret].
Qed.

(** Every decoded amount consumes at least one byte. *)
Lemma reader_getFixedPrecision d : reader d 8 getFixedPrecision.
Proof.
  unfold getFixedPrecision.
  assert (forall k n, reader d k (fixed_parts n) ->
    reader d k ('(m, e) ← fixed_parts n; p ← pow10 e; mret (u64 (m * p)))) as Htail.
  { intros k n H. apply reader_bind'; [exact H|]. intros [m e].
    apply reader_bind'; [apply reader_pow10|intros; apply reader_ret]. }
  apply (reader_weaken d (3 + 5)); [|lia].
  apply (reader_bind_returns _ _ _ _ _ _ (reader_getBits d 3 ltac:(lia)) (getBits_range 3 ltac:(lia))).
  intros l Hl. change (2 ^ 3) with 8 in Hl. destruct (Z.leb_spec 7 (l + 1)).
  - apply (reader_weaken d (-1 + 0 + 54)); [|lia].
    eapply reader_bind_returns; [|apply returns_bind_ret|].
    + apply reader_bind; [by apply (reader_movePositionBy_back d 1)|intros; apply reader_ret].
    + intros k ->. apply Htail. by apply (reader_fixed_parts d 7).
  - apply (reader_weaken d (0 + 5)); [|lia].
    eapply reader_bind_returns; [apply reader_ret|apply returns_ret|].
    intros k ->. apply Htail.
    eapply reader_weaken; [apply (reader_fixed_parts d (l + 1)); lia|]. case_match; lia.
Qed.

(** ** xBit codes *)
Lemma zeros_app n m : 0 <= n -> 0 <= m -> zeros (n + m) = zeros n ++ zeros m.
Proof. intros. unfold zeros. by rewrite tab_app by lia. Qed.
Lemma zeros_Zbits n : zeros n = Zbits n 0.
Proof. unfold zeros, Zbits. apply tab_ext. intros. by rewrite Z.testbit_0_l. Qed.
Lemma length_zeros n : length (zeros n) = Z.to_nat n.
Proof. apply length_tab. Qed.

Definition xbit_code (x : xBitValue) : list bool :=
  zeros (depth x * xBitLength x) ++ Zbits (xBitLength x) (key x).

(** The values an xBit code can hold. *)
Definition xbit_valid (x : xBitValue) : Prop :=
  0 <= depth x /\ 1 <= xBitLength x <= 64 /\ 1 <= key x < 2 ^ xBitLength x
  /\ depth x * xBitLength x < two64 - 128.

Lemma verify_ok {S} x (s : S) : xbit_valid x -> verify x s = (Ok tt, s).
Proof.
  intros (Hd & Hl & Hk & _). unfold verify.
  destruct (Z.eqb_spec (key x) 0); [lia|]. destruct (Z.eqb_spec (xBitLength x) 0); [lia|].
  destruct (Z.eqb_spec (xBitLength x) 64); [done|]. destruct (Z.ltb_spec 64 (xBitLength x)); [lia|].
  rewrite shl64_1_pow by lia. destruct (Z.leb_spec (2 ^ xBitLength x) (key x)); [lia|done].
Qed.

Lemma makeXBit_built x : xbit_valid x -> built (makeXBit x) (xbit_code x).
Proof.
  intros Hx. pose proof Hx as (Hd & Hl & Hk & Hb).
  assert (0 <= depth x * xBitLength x) by (apply Z.mul_nonneg_nonneg; lia).
  unfold makeXBit, exec. step (verify_ok x empty_BitIO Hx).
  rewrite u64_small by lia.
  destruct (appendZeros_run empty_BitIO (depth x * xBitLength x) wf_empty) as (b1 & H1 & A1); [done|simpl; lia|].
  step H1.
  destruct (appendBits_run b1 (key x) (xBitLength x)) as (b2 & H2 & A2); [apply A1|lia..|].
  rewrite H2. exists b2. pose proof (appended_trans _ _ _ _ _ A1 A2) as A.
  apply appended_fresh in A as (? & ? & ? & _). done.
Qed.

Lemma xbit_loop_reads n fuel : forall d b r x k,
  1 <= x <= 64 -> 1 <= k < 2 ^ x -> 0 <= d -> d + Z.of_nat n < two64 - 1 ->
  wf b -> fits b -> rest b = (zeros (Z.of_nat n * x) ++ Zbits x k) ++ r -> (n < fuel)%nat ->
  xbit_loop fuel x d b =
    (Ok (mk_xBitValue (d + Z.of_nat n) k x),
     advance (Z.of_nat (length (zeros (Z.of_nat n * x) ++ Zbits x k))) b).
Proof.
  revert fuel. induction n as [|n IH]; intros [|fuel] d b r x k Hx Hk Hd Hn Hwf Hf Hr Hfuel; try lia;
    cbn [xbit_loop].
  - change (Z.of_nat 0) with 0 in *. rewrite Z.mul_0_l in *. change (zeros 0) with (@nil bool) in *. cbn [app] in *.
    step (reads_getBits x k Hx ltac:(lia) b r Hwf Hf Hr).
    cbv zeta. rewrite (proj2 (Z.eqb_neq k 0)) by lia. unfold mret, M_ret. do 4 f_equal.
    unfold u64, two64 in *. lia.
  - assert (zeros (Z.of_nat (S n) * x) = Zbits x 0 ++ zeros (Z.of_nat n * x)) as Hz.
    { rewrite <- zeros_Zbits, <- zeros_app by lia. f_equal. lia. }
    rewrite Hz, <- !app_assoc in Hr.
    step (reads_getBits x 0 Hx ltac:(split; [lia|apply Z.pow_pos_nonneg; lia]) b _ Hwf Hf Hr).
    cbv zeta. change (0 =? 0) with true. cbv iota.
    pose proof (rest_prefix _ _ _ Hwf Hr).
    rewrite (IH fuel (u64 (d + 1)) _ r x k); try done; try (unfold u64, two64 in *; lia).
    + rewrite advance_advance, Hz, <- app_assoc, (length_app (Zbits x 0)). do 2 f_equal.
      * f_equal. unfold u64, two64 in *. lia.
      * f_equal. lia.
    + apply wf_advance; [done|lia|done].
    + rewrite <- app_assoc. by apply rest_advance.
Qed.

Lemma getXBit_reads x : xbit_valid x -> reads (getXBit (xBitLength x)) (xbit_code x) x.
Proof.
  intros (Hd & Hl & Hk & Hb) b r Hwf Hf Hr. unfold getXBit, mbind, M_bind, get.
  pose proof (rest_prefix _ _ _ Hwf Hr) as Hlen. unfold xbit_code in *.
  replace (depth x * xBitLength x) with (Z.of_nat (Z.to_nat (depth x)) * xBitLength x) in * by lia.
  rewrite length_app, length_zeros, length_Zbits in Hlen.
  assert (depth x <= depth x * xBitLength x) by nia.
  rewrite (xbit_loop_reads (Z.to_nat (depth x)) _ 0 b r _ (key x)); try done; try lia.
  destruct x as [dx kx lx]; simpl in *. do 3 f_equal. lia.
Qed.

Lemma reader_xbit_loop d fuel : forall x n b,
  0 <= x -> wf b -> fits b -> _length b - _position b < Z.of_nat fuel ->
  exists o p, xbit_loop fuel x n b = (o, set_position p b)
      /\ 0 <= p <= _length b /\ o <> Fuel /\ (d = true -> o <> UB)
      /\ (forall a, o = Ok a -> _position b + x <= p).
Proof.
  induction fuel as [|fuel IH]; intros x n b Hx Hwf Hf Hfuel; pose proof (wf_position b Hwf); [lia|].
  cbn [xbit_loop]. destruct (decide (1 <= x <= 64 /\ _position b + x <= _length b)) as [[H1 H2]|Hbad].
  - rewrite (bind_ok _ _ _ _ _ (getBits_run b x Hwf Hf H1 H2)). cbv zeta.
    case_match.
    + destruct (IH x (u64 (n + 1)) (set_position (_position b + x) b)) as (o & p & -> & Hp & ? & ? & Hk);
        [lia|by apply wf_set_position; [|lia]|done|simpl; lia|].
      exists o, p. split_and!; try done; try (simpl in Hp; lia).
      intros a Ha. specialize (Hk a Ha). simpl in Hk. lia.
    + eexists (Ok _), _. split_and!; try done; lia.
  - destruct (getBits_error b x Hwf Hf Hx Hbad) as [what Hw].
    rewrite (bind_throw _ _ _ _ _ Hw). exists (Throw (out_of_range what)), (_position b).
    split_and!; try done; try lia. by destruct b.
Qed.

Lemma reader_getXBit d x : 0 <= x -> reader d x (getXBit x).
Proof.
  intros Hx b Hwf Hf. unfold getXBit, mbind, M_bind, get. apply reader_xbit_loop; try done; lia.
Qed.

(** ** Bitcoin pushes *)
Definition push_code (n : Z) : list bool :=
  if 65535 <? n then Zbits 8 78 ++ Zbits 32 n
  else if 255 <? n then Zbits 8 77 ++ Zbits 16 n
  else if 75 <? n then Zbits 8 76 ++ Zbits 8 n
  else Zbits 8 n.

Definition op_return_code (includeOpReturn : bool) : list bool :=
  if includeOpReturn then Zbits 8 106 else [].

Definition bytes_code (l : list Z) : list bool := concat (map (Zbits 8) l).
Definition is_byte (v : Z) : Prop := 0 <= v < 256.

Lemma reads_push_length n :
  1 <= n < two32 -> reads push_length (push_code n) n.
Proof.
  unfold two32. intros Hn. unfold push_code, push_length.
  repeat match goal with |- context [?a <? n] => destruct (Z.ltb_spec a n) end.
  1-3: eapply reads_bind; [by apply reads_getBits|]; cbn; apply reads_getBits; lia.
  eapply reads_bind_ret; [apply reads_getBits; lia|].
  repeat match goal with |- context [n =? ?a] => destruct (Z.eqb_spec n a); [lia|] end.
  destruct (Z.leb_spec 79 n); [lia|]. apply reads_ret.
Qed.

Lemma reads_bytes l :
  Forall is_byte l ->
  reads (for_items (Z.of_nat (length l)) (v ← getBits 8; mret [v])) (bytes_code l) l.
Proof.
  intros Hl.
  assert (Forall (fun c => c.1 <> [] /\ reads (v ← getBits 8; mret [v]) c.1 c.2)
    (map (fun v => (Zbits 8 v, [v])) l)) as Hi.
  { apply Forall_map. eapply Forall_impl; [exact Hl|]. intros v Hv. unfold is_byte in Hv. simpl.
    split; [done|]. eapply reads_bind_ret; [apply reads_getBits; lia|apply reads_ret]. }
  pose proof (reads_for_items _ _ Hi) as H.
  by rewrite fmap_map_fst, fmap_map_snd, length_map, concat_singletons in H.
Qed.

Lemma emits_push n : 0 <= n < two32 -> emits
    (if 65535 <? n then appendBits 78 8;; appendBits n 32
     else if 255 <? n then appendBits 77 8;; appendBits n 16
     else if 75 <? n then appendBits 76 8;; appendBits n 8
     else appendBits n 8) (push_code n) tt.
Proof.
  unfold two32, push_code. intros Hn.
  repeat match goal with |- context [?a <? n] => destruct (Z.ltb_spec a n) end;
    repeat (eapply emits_bind; [by apply emits_appendBits|]); apply emits_appendBits; lia.
Qed.

Lemma makeBitcoin_bytes_built l op :
  Forall is_byte l -> Z.of_nat (length l) < two32 ->
  built (makeBitcoin_bytes l op) (op_return_code op ++ push_code (Z.of_nat (length l)) ++ bytes_code l).
Proof.
  intros Hl Hn. unfold makeBitcoin_bytes. eapply emits_built.
  eapply emits_bind; [apply emits_when; intros; by apply emits_appendBits|].
  eapply emits_bind; [apply emits_push; lia|].
  apply emits_for_each. intros v Hv. apply (proj1 (Forall_forall _ _) Hl) in Hv.
  unfold is_byte in Hv. apply emits_appendBits; lia.
Qed.

Lemma getBitcoinData_reads l :
  Forall is_byte l -> 1 <= Z.of_nat (length l) < two32 ->
  reads getBitcoinData (push_code (Z.of_nat (length l)) ++ bytes_code l) l.
Proof.
  intros Hl Hn. unfold getBitcoinData.
  eapply reads_bind; [by apply reads_push_length|by apply reads_bytes].
Qed.

(** The header in front of a stream: what [makeBitcoin(BitIO&)] produces. *)
Lemma push_word n :
  0 <= n < two32 ->
  (65535 < n -> Zbits 40 (Z.lor (shl64 78 32) n) = push_code n /\ 0 <= Z.lor (shl64 78 32) n < 2 ^ 40)
  /\ (255 < n <= 65535 -> Zbits 24 (Z.lor (shl64 77 16) n) = push_code n
      /\ 0 <= Z.lor (shl64 77 16) n < 2 ^ 24)
  /\ (75 < n <= 255 -> Zbits 16 (Z.lor (shl64 76 8) n) = push_code n
      /\ 0 <= Z.lor (shl64 76 8) n < 2 ^ 16).
Proof.
  assert (forall k w m, 0 <= m <= 32 -> 0 <= k < 2 ^ m -> 0 <= w < 2 ^ 8 ->
    Zbits (8 + m) (Z.lor (shl64 w m) k) = Zbits 8 w ++ Zbits m k
    /\ 0 <= Z.lor (shl64 w m) k < 2 ^ (8 + m)) as Hor.
  { intros k w m Hm Hk Hw. split.
    - rewrite Zbits_app by lia. f_equal; apply tab_ext; intros i Hi.
      + rewrite Z.shiftr_spec, Z.lor_spec, testbit_shl64, (testbit_high k m) by lia.
        rewrite orb_false_r. replace (8 - 1 - i + m - m) with (8 - 1 - i) by lia.
        destruct (Z.ltb_spec (8 - 1 - i + m) 64); [by rewrite andb_true_r|lia].
      + rewrite Z.lor_spec, testbit_shl64, (Z.testbit_neg_r w) by lia. done.
    - assert (0 <= Z.lor (shl64 w m) k) by (apply Z.lor_nonneg; split; [apply u64_range|lia]).
      split; [done|]. apply bits_bound; [lia|done|]. intros i Hi.
      rewrite Z.lor_spec, testbit_shl64, (testbit_high k m), (testbit_high w 8) by lia. done. }
  unfold two32. intros Hn. split_and!; intros Hr; unfold push_code.
  - rewrite (proj2 (Z.ltb_lt 65535 n)) by lia. apply (Hor n 78 32); lia.
  - rewrite (proj2 (Z.ltb_ge 65535 n)), (proj2 (Z.ltb_lt 255 n)) by lia. apply (Hor n 77 16); lia.
  - rewrite (proj2 (Z.ltb_ge 65535 n)), (proj2 (Z.ltb_ge 255 n)), (proj2 (Z.ltb_lt 75 n)) by lia.
    apply (Hor n 76 8); lia.
Qed.

Lemma insert_front v n b :
  wf b -> 1 <= n <= 64 -> 0 <= v < 2 ^ n -> exists b',
  insertBits v n (set_position 0 b) = (Ok tt, b') /\ wf b' /\ abs b' = Zbits n v ++ abs b
  /\ _length b' = _length b + n /\ _position b' = n.
Proof.
  intros Hb Hn Hv. pose proof (wf_position b Hb).
  destruct (insertBits_run (set_position 0 b) v n) as (b' & Hrun & Hw & Hp & Hl & Ha);
    [apply wf_set_position; [done|lia]|done|done|].
  rewrite length_Zbits in Hp, Hl. simpl in Hp, Hl, Ha.
  exists b'. split_and!; try done; try lia.
Qed.

(** [makeBitcoin(BitIO&)]: the length header, and the OP_RETURN code, in
    front of the data. *)
Lemma makeBitcoin_BitIO_run b op (n := _length b / 8) :
  wf b -> _length b mod 8 = 0 -> n < two32 ->
  exists b', makeBitcoin_BitIO op b = (Ok tt, b') /\ wf b'
    /\ abs b' = op_return_code op ++ push_code n ++ abs b
    /\ _position b' = (if op then 8 else 0).
Proof.
  intros Hb Hmod Hn. pose proof (wf_position b Hb). unfold two32 in Hn.
  unfold makeBitcoin_BitIO, when. step_by reflexivity.
  unfold getLength. rewrite Hmod. change (negb (0 =? 0)) with false. cbv iota.
  step_by reflexivity. cbv zeta. fold n.
  destruct (Z.ltb_spec 4294967295 n); [lia|]. step_by reflexivity. step_by reflexivity.
  assert (exists b1,
    (if 65535 <? n then insertBits (Z.lor (shl64 78 32) n) 40
     else if 255 <? n then insertBits (Z.lor (shl64 77 16) n) 24
     else if 75 <? n then insertBits (Z.lor (shl64 76 8) n) 16
     else insertBits n 8) (set_position 0 b) = (Ok tt, b1)
    /\ wf b1 /\ abs b1 = push_code n ++ abs b) as (b1 & Hrun1 & Hw1 & Ha1).
  { assert (0 <= n) as Hn0 by (subst n; lia). clearbody n. destruct (push_word n) as (H1 & H2 & H3); [unfold two32; lia|].
    destruct (Z.ltb_spec 65535 n); [|destruct (Z.ltb_spec 255 n); [|destruct (Z.ltb_spec 75 n)]].
    - destruct H1 as [<- Hv]; [lia|]. destruct (insert_front _ 40 b Hb ltac:(lia) Hv) as (b1 & ? & ? & ? & _). eauto.
    - destruct H2 as [<- Hv]; [lia|]. destruct (insert_front _ 24 b Hb ltac:(lia) Hv) as (b1 & ? & ? & ? & _). eauto.
    - destruct H3 as [<- Hv]; [lia|]. destruct (insert_front _ 16 b Hb ltac:(lia) Hv) as (b1 & ? & ? & ? & _). eauto.
    - destruct (insert_front n 8 b Hb ltac:(lia)) as (b1 & ? & ? & Ha & _); [lia|].
      exists b1. split_and!; try done. rewrite Ha. unfold push_code.
      by rewrite (proj2 (Z.ltb_ge 65535 n)), (proj2 (Z.ltb_ge 255 n)), (proj2 (Z.ltb_ge 75 n)) by lia. }
  step Hrun1. step_by reflexivity. destruct op.
  - destruct (insert_front BITIO_BITCOIN_OP_RETURN 8 b1 Hw1 ltac:(lia)) as (b2 & Hrun2 & Hw2 & Ha2 & _ & Hp2); [done|].
    exists b2. split_and!; try done. by rewrite Ha2, Ha1.
  - exists (set_position 0 b1). split_and!; try done.
    apply wf_set_position; [done|]. pose proof (wf_position b1 Hw1). lia.
Qed.

(** [copyBitcoinData] returns the pushed bytes as a stream of their own. *)
Lemma copyBitcoinData_run b l r n :
  wf b -> fits b -> 1 <= n < two32 -> Z.of_nat (length l) = 8 * n ->
  rest b = push_code n ++ l ++ r ->
  exists res, copyBitcoinData b = (Ok res, advance (Z.of_nat (length (push_code n ++ l))) b)
    /\ wf res /\ abs res = l /\ _position res = 0.
Proof.
  intros Hb Hf Hn Hl Hr. unfold copyBitcoinData.
  step (reads_push_length n Hn b _ Hb Hf Hr).
  pose proof (rest_prefix _ _ _ Hb Hr). pose proof (rest_advance _ _ _ Hb Hr) as Hr1.
  set (b1 := advance (Z.of_nat (length (push_code n))) b) in *.
  assert (wf b1) as Hw1 by (apply wf_advance; [done|lia|done]).
  destruct (copyBits_run b1 (n * 8)) as (res & Hrun & Ha); [done|done|lia| |].
  { pose proof (rest_prefix _ _ _ Hw1 Hr1). lia. }
  apply appended_fresh in Ha as (? & ? & Ha & _ & _). exists res.
  rewrite Hrun. split_and!; try done.
  - f_equal. unfold b1. rewrite length_app, Nat2Z.inj_add, Hl.
    unfold advance, set_position. simpl. f_equal. lia.
  - rewrite Ha, Hr1. apply take_app_length'. lia.
Qed.

(** ** OP_RETURN detection *)
Lemma checkIsBitcoinOpReturn_run b :
  wf b -> fits b ->
  checkIsBitcoinOpReturn b
  = if bool_decide (take 8 (rest b) = Zbits 8 BITIO_BITCOIN_OP_RETURN)
    then (Ok true, advance 8 b) else (Ok false, b).
Proof.
  intros Hwf Hf. pose proof (wf_position b Hwf). pose proof (length_rest b Hwf) as Hlen.
  assert (movePositionTo (_position b) b = (Ok tt, b)) as Hback
    by (rewrite movePositionTo_ok by lia; by destruct b).
  unfold checkIsBitcoinOpReturn. step_by reflexivity. unfold getPosition, try_catch.
  destruct (decide (_position b + 8 <= _length b)) as [Hle|Hgt].
  - pose proof (rest_take b 8 Hwf ltac:(lia)) as Ht. change (Z.to_nat 8) with 8%nat in Ht.
    rewrite (bind_ok _ _ _ _ _ (getBits_run b 8 Hwf Hf ltac:(lia) Hle)), <- Ht. cbv zeta.
    assert (length (take 8 (rest b)) = 8%nat) as H8 by (rewrite length_take; lia).
    case_bool_decide as Heq.
    + rewrite Heq. unfold when, BITIO_BITCOIN_OP_RETURN. rewrite bitsZ_Zbits by lia. done.
    + destruct (Z.eqb_spec (bitsZ (take 8 (rest b))) BITIO_BITCOIN_OP_RETURN) as [E|E].
      * exfalso. apply Heq. rewrite <- E, <- (Zbits_bitsZ (take 8 (rest b))) at 1. by rewrite H8.
      * unfold when. simpl. unfold mbind, M_bind.
        rewrite movePositionTo_ok by (simpl; lia). simpl. by destruct b.
  - destruct (getBits_error b 8 Hwf Hf) as [what Hw]; [lia|lia|].
    rewrite (bind_throw _ _ _ _ _ Hw). step Hback.
    rewrite bool_decide_eq_false_2; [done|]. intros E. apply (f_equal length) in E.
    rewrite length_take in E. change (length (Zbits 8 BITIO_BITCOIN_OP_RETURN)) with 8%nat in E. lia.
Qed.

(** ** Safety of the script readers *)
Lemma reader_push_length d : reader d 8 push_length.
Proof.
  apply (reader_weaken d (8 + 0)); [|lia]. apply reader_bind; [by apply reader_getBits|]. intros op.
  apply reader_if; [apply reader_throw|].
  do 3 (apply reader_if; [eapply reader_weaken; [apply reader_getBits; lia|lia]|]).
  apply reader_ret.
Qed.

Lemma reader_getBitcoinData d : reader d 8 getBitcoinData.
Proof.
  apply (reader_weaken d (8 + 0)); [|lia]. apply reader_bind; [apply reader_push_length|]. intros n.
  apply reader_for_items. apply (reader_weaken d (8 + 0)); [|lia].
  apply reader_bind; [by apply reader_getBits|intros; apply reader_ret].
Qed.

Lemma reader_getBitcoinDataHeader d : reader d 0 getBitcoinDataHeader.
Proof.
  apply (reader_weaken d (8 + -8)); [|lia]. apply reader_bind; [by apply reader_getBits|]. intros op.
  apply reader_if; [apply (reader_weaken d 0); [apply reader_ret|lia]|].
  apply reader_if; [apply reader_throw|].
  apply reader_if; [apply (reader_weaken d 0); [apply reader_ret|lia]|].
  apply (reader_weaken d (-8 + 0)); [|lia].
  apply reader_bind; [by apply (reader_movePositionBy_back d 8)|]. intros _.
  apply reader_if; [apply reader_ret|apply reader_throw].
Qed.

(** ** Small integers in a script *)
Lemma makeBitcoin_int_built v op :
  -1 <= v <= 16 ->
  built (makeBitcoin_int v op) (op_return_code op ++ Zbits 8 (if v =? 0 then 0 else v + 80)).
Proof.
  intros Hv. unfold makeBitcoin_int. eapply emits_built.
  eapply emits_bind_ret.
  { intros b Hb. exists b. unfold checkValueRange.
    rewrite (proj2 (Z.ltb_ge v (-1))), (proj2 (Z.ltb_ge 16 v)) by lia.
    split; [done|by apply appended_nil]. }
  cbv zeta. eapply emits_bind; [apply emits_when; intros; by apply emits_appendBits|].
  assert ((if (if 0 <? v then v + 80 else v) =? -1 then 79 else if 0 <? v then v + 80 else v)
          = (if v =? 0 then 0 else v + 80)) as ->.
  { repeat case_match; lia. }
  apply emits_appendBits; [lia|case_match; lia].
Qed.

Lemma getBitcoinDataHeader_reads v :
  -1 <= v <= 16 -> reads getBitcoinDataHeader (Zbits 8 (if v =? 0 then 0 else v + 80)) v.
Proof.
  intros Hv. unfold getBitcoinDataHeader.
  eapply reads_bind_ret; [apply reads_getBits; [lia|case_match; lia]|].
  destruct (Z.eqb_spec v 0) as [->|]; [apply reads_ret|].
  rewrite (proj2 (Z.eqb_neq (v + 80) 0)), (proj2 (Z.eqb_neq (v + 80) 80)) by lia.
  rewrite (proj2 (Z.leb_le 79 (v + 80))), (proj2 (Z.leb_le (v + 80) 96)) by lia. simpl.
  replace (v + 80 - 80) with v by lia. apply reads_ret.
Qed.

(** The header of a data push is recognised and left in place. *)
Lemma getBitcoinDataHeader_data b n l :
  wf b -> fits b -> 1 <= n < two32 -> rest b = push_code n ++ l ->
  getBitcoinDataHeader b = (Ok BITIO_BITCOIN_TYPE_DATA, b).
Proof.
  intros Hwf Hf Hn Hr. unfold two32 in Hn.
  assert (exists op l', push_code n ++ l = Zbits 8 op ++ l' /\ 1 <= op <= 78) as (op & l' & Hop & Hr8).
  { unfold push_code. repeat case_match; rewrite <- ?app_assoc; [exists 78|exists 77|exists 76|exists n];
      eexists; (split; [reflexivity|lia]). }
  rewrite Hop in Hr. unfold getBitcoinDataHeader.
  pose proof (rest_prefix _ _ _ Hwf Hr) as Hle. rewrite length_Zbits in Hle.
  step (reads_getBits 8 op ltac:(lia) ltac:(lia) b l' Hwf Hf Hr).
  rewrite (proj2 (Z.eqb_neq op 0)), (proj2 (Z.eqb_neq op 80)), (proj2 (Z.leb_gt 79 op)) by lia.
  cbn [andb]. rewrite length_Zbits. change (Z.of_nat (Z.to_nat 8)) with 8.
  step (movePositionBy_back b 8 8 Hwf Hf ltac:(lia) ltac:(lia)).
  rewrite (proj2 (Z.leb_le 1 op)), (proj2 (Z.leb_le op 78)) by lia. simpl. by rewrite advance_0.
Qed.
