(* ===== verification/BitIOBest.v ===== *)
(** Theorems about [makeBestString]/[getBestString]: which texts every
    encoder accepts, and that the stream chosen among the default options
    decodes to the text. *)

From S2P Require Import Prelude.
From S2P Require Import BitIO.
From S2P Require Import BitIOBlocks.
From S2P Require Import BitIOCodec.
From S2P Require Import BitStream.
From S2P Require Import BitIOText.
From S2P Require Import BitIONumbers.

Ltac Zify.zify_post_hook ::= Z.div_mod_to_equations.

(** ** Encoders that fail *)
Definition fails {A} (m : M BitIO A) : Prop :=
  forall b, wf b -> exists e b', m b = (Throw e, b').

Section fails.
Context {A B : Type}.
Implicit Types (m : M BitIO A) (f : A -> M BitIO B).

Lemma fails_bind_l m f : fails m -> fails (m ≫= f).
Proof. intros H b Hb. destruct (H b Hb) as (e & b' & Hr). exists e, b'. by apply bind_throw. Qed.

Lemma fails_bind_r m f l a : emits m l a -> fails (f a) -> fails (m ≫= f).
Proof.
  intros Hm Hf b Hb. destruct (Hm b Hb) as (b1 & Hr & Ha).
  destruct (Hf b1) as (e & b' & Hr'); [apply Ha|]. exists e, b'. by rewrite (bind_ok _ _ _ _ _ Hr).
Qed.

Lemma fails_exec m : fails m -> exists e, exec m empty_BitIO = Throw e.
Proof. intros H. destruct (H empty_BitIO wf_empty) as (e & b' & Hr). exists e. unfold exec. by rewrite Hr. Qed.
End fails.

Lemma fails_getCharSetPos c cs : c ∉ chars cs -> fails (getCharSetPos c cs).
Proof. intros Hc b _. do 2 eexists. by apply getCharSetPos_error. Qed.

Lemma fails_appendBits v n : 1 <= n < 64 -> 2 ^ n <= v -> fails (appendBits v n).
Proof.
  intros Hn Hv b Hb. unfold appendBits. do 2 eexists.
  step_by (apply checkLength_ok; lia). by rewrite (bind_throw _ _ _ _ _ (checkValueSize_error v n b ltac:(lia) Hv)).
Qed.

#[local] Instance is_alpha_dec c : Decision (is_alpha c).
Proof. unfold is_alpha. apply _. Defined.
#[local] Instance is_b40_dec c : Decision (is_b40 c).
Proof. unfold is_b40. apply _. Defined.
#[export] Instance b40_tail_fits_dec s : Decision (b40_tail_fits s).
Proof. unfold b40_tail_fits. destruct (b40_tail (chars s)) as [|? [|]]; apply _. Defined.

Lemma alpha_chars_fails l : forall k,
  ~ Forall is_alpha l -> k mod 2 = 0 -> fails (alpha_chars l k 0).
Proof.
  induction l as [|c|c d l IH] using pair_ind; intros k Hl Hk.
  - by destruct Hl.
  - apply fails_bind_l, fails_getCharSetPos. intros Hc. apply Hl. constructor; [done|constructor].
  - cbn [alpha_chars]. cbv zeta. destruct (decide (is_alpha c)) as [Hc|Hc];
      [|by apply fails_bind_l, fails_getCharSetPos].
    eapply fails_bind_r; [by apply emits_getCharSetPos|]. rewrite (proj2 (Z.eqb_neq (k mod 2) 1)) by lia.
    destruct (decide (is_alpha d)) as [Hd|Hd]; [|by apply fails_bind_l, fails_getCharSetPos].
    eapply fails_bind_r; [by apply emits_getCharSetPos|]. rewrite (proj2 (Z.eqb_eq _ 1)) by lia.
    change (code_of BITIO_CHARSET_ALPHA) with alpha_val.
    pose proof (alpha_val_range c Hc). pose proof (alpha_val_range d Hd).
    rewrite !u64_small by (unfold two64; rewrite ?u64_small by (unfold two64; lia); lia).
    eapply fails_bind_r; [apply emits_appendBits; lia|].
    apply IH; [|lia]. intros Hf. apply Hl. do 2 (constructor; [done|]). done.
Qed.

Lemma makeAlphaString_error s :
  ~ Forall is_alpha (chars s) -> exists e, makeAlphaString s = Throw e.
Proof. intros H. apply fails_exec, fails_bind_l. by apply alpha_chars_fails. Qed.

Lemma b40_chars_fails l : forall k,
  ~ Forall is_b40 l -> k mod 3 = 0 -> fails (b40_chars l k 0).
Proof.
  induction l as [|c|c d|c d e l IH] using triple_ind; intros k Hl Hk.
  - by destruct Hl.
  - apply fails_bind_l, fails_getCharSetPos. intros Hc. apply Hl. constructor; [done|constructor].
  - cbn [b40_chars]. cbv zeta. destruct (decide (is_b40 c)) as [Hc|Hc];
      [|by apply fails_bind_l, fails_getCharSetPos].
    eapply fails_bind_r; [by apply emits_getCharSetPos|]. rewrite (proj2 (Z.eqb_neq (k mod 3) 2)) by lia.
    apply fails_bind_l, fails_getCharSetPos. intros Hd. apply Hl. do 2 (constructor; [done|]). constructor.
  - cbn [b40_chars]. cbv zeta. destruct (decide (is_b40 c)) as [Hc|Hc];
      [|by apply fails_bind_l, fails_getCharSetPos].
    eapply fails_bind_r; [by apply emits_getCharSetPos|]. rewrite (proj2 (Z.eqb_neq (k mod 3) 2)) by lia.
    destruct (decide (is_b40 d)) as [Hd|Hd]; [|by apply fails_bind_l, fails_getCharSetPos].
    eapply fails_bind_r; [by apply emits_getCharSetPos|]. rewrite (proj2 (Z.eqb_neq _ 2)) by lia.
    destruct (decide (is_b40 e)) as [He|He]; [|by apply fails_bind_l, fails_getCharSetPos].
    eapply fails_bind_r; [by apply emits_getCharSetPos|]. rewrite (proj2 (Z.eqb_eq _ 2)) by lia.
    change (code_of BITIO_CHARSET_3B40) with b40_val.
    pose proof (b40_val_range c Hc). pose proof (b40_val_range d Hd). pose proof (b40_val_range e He).
    rewrite (u64_small (0 * 40 + b40_val c)) by (unfold two64; lia).
    rewrite (u64_small ((0 * 40 + b40_val c) * 40 + b40_val d)) by (unfold two64; lia).
    rewrite u64_small by (unfold two64; lia).
    eapply fails_bind_r; [apply emits_appendBits; lia|].
    apply IH; [|lia]. intros Hf. apply Hl. do 3 (constructor; [done|]). done.
Qed.

Lemma make3B40String_error s :
  ~ (Forall is_b40 (chars s) /\ b40_tail_fits s) -> exists e, make3B40String s = Throw e.
Proof.
  intros H. apply fails_exec. destruct (decide (Forall is_b40 (chars s))) as [Hs|Hs].
  - assert (~ b40_tail_fits s) as Ht by tauto. unfold b40_tail_fits in Ht.
    eapply fails_bind_r; [by apply emits_b40_chars|]. cbn beta iota.
    destruct (b40_triples_length (chars s)) as [[E _]|[(c & E & Hc & Hl)|(c & d & E & _)]];
      rewrite E in *; try tauto.
    apply fails_bind_l. unfold when. rewrite (proj2 (Z.eqb_eq _ 1)) by lia.
    apply fails_appendBits; [lia|]. simpl. lia.
  - apply fails_bind_l. by apply b40_chars_fails.
Qed.

Definition is_hex (c : ascii) : Prop := tolower c ∈ chars BITIO_CHARSET_HEX.

Lemma makeHexString_error s : ~ Forall is_hex (chars s) -> exists e, makeHexString s = Throw e.
Proof.
  intros H. apply fails_exec. induction (chars s) as [|c l IH]; [by destruct H|].
  cbn [for_each]. destruct (decide (tolower c ∈ chars BITIO_CHARSET_HEX)) as [Hc|Hc].
  - pose proof (code_of_range _ _ Hc) as Hr. simpl in Hr.
    eapply fails_bind_r.
    + eapply emits_bind_ret; [by apply emits_getCharSetPos|]. apply emits_appendBits; lia.
    + apply IH. intros Hl. apply H. by constructor.
  - by apply fails_bind_l, fails_bind_l, fails_getCharSetPos.
Qed.

(** ** Character counts *)
Lemma stringLength_app l k :
  stringLength (str (l ++ k)) = stringLength (str l) + stringLength (str k).
Proof. unfold stringLength. rewrite !chars_str, filter_app, length_app. lia. Qed.

Lemma count_byte c :
  stringLength (str [c]) = if Z.land (byteZ c) 192 =? 128 then 0 else 1.
Proof.
  unfold stringLength. rewrite chars_str. cbn [filter list_filter].
  destruct (Z.eqb_spec (Z.land (byteZ c) 192) 128); case_decide; done.
Qed.

Lemma count_cont c : is_cont c -> stringLength (str [c]) = 0.
Proof.
  intros H. rewrite count_byte. unfold is_cont in H.
  byte_fact 128 192 (fun b => Z.land b 192 =? 128) H. by rewrite H0.
Qed.

Lemma count_lead c : byteZ c < 128 \/ 192 <= byteZ c < 256 -> stringLength (str [c]) = 1.
Proof.
  intros H. rewrite count_byte. pose proof (byteZ_range c).
  assert ((128 <=? byteZ c) && (byteZ c <? 192) || negb (Z.land (byteZ c) 192 =? 128) = true) as Hb
    by (apply (byte_forall (fun b => (128 <=? b) && (b <? 192) || negb (Z.land b 192 =? 128)));
        vm_compute; reflexivity).
  destruct (Z.leb_spec 128 (byteZ c)), (Z.ltb_spec (byteZ c) 192); simpl in Hb; try lia;
    by destruct (Z.land (byteZ c) 192 =? 128).
Qed.

Lemma count_cons c l : stringLength (str (c :: l)) = stringLength (str [c]) + stringLength (str l).
Proof. apply (stringLength_app [c] l). Qed.

Lemma count_conts l : Forall is_cont l -> stringLength (str l) = 0.
Proof. induction 1 as [|c l Hc _ IH]; [done|]. by rewrite count_cons, count_cont, IH. Qed.

Lemma count_packed cs : packed_char cs -> stringLength (str cs) = 1.
Proof.
  intros H. assert (exists c l, cs = c :: l /\ (byteZ c < 128 \/ 192 <= byteZ c < 256) /\ Forall is_cont l)
    as (c & l & -> & Hc & Hl).
  { destruct H; do 2 eexists; (split; [reflexivity|split; [lia|auto 6 using List.Forall_nil, List.Forall_cons]]). }
  by rewrite count_cons, count_lead, count_conts.
Qed.

Lemma stringLength_packed css :
  Forall packed_char css -> stringLength (str (concat css)) = Z.of_nat (length css).
Proof.
  induction 1 as [|cs css Hc _ IH]; [done|]. cbn [concat length].
  rewrite stringLength_app, count_packed, IH by done. lia.
Qed.

Lemma stringLength_ascii s :
  Forall (fun c => byteZ c < 128) (chars s) -> stringLength s = Z.of_nat (length (chars s)).
Proof.
  rewrite <- (str_chars s) at 2. induction 1 as [|c l Hc _ IH]; [done|].
  change (c :: l) with ([c] ++ l). rewrite stringLength_app, count_lead, IH, length_app by auto.
  simpl length. lia.
Qed.

Lemma charset_ascii cs s :
  forallb (fun c => byteZ c <? 128) (chars cs) = true ->
  Forall (fun c => c ∈ chars cs) (chars s) -> Forall (fun c => byteZ c < 128) (chars s).
Proof.
  intros H Hs. eapply Forall_impl; [exact Hs|]. intros c Hc.
  apply (proj1 (forallb_forall _ _) H c) in Hc || apply Z.ltb_lt.
  apply (proj1 (forallb_forall _ _) H). by apply list_elem_of_In.
Qed.

(** ** Code lengths *)
Lemma length_concat_le {B} (k : nat) (ls : list (list B)) :
  Forall (fun l => (length l <= k)%nat) ls -> (length (concat ls) <= k * length ls)%nat.
Proof. induction 1; simpl; [lia|]. rewrite length_app. lia. Qed.

Lemma length_alpha_code l : (length (alpha_code l) <= 24 * length l)%nat.
Proof.
  unfold alpha_code. rewrite length_app.
  assert (length (match odd_tail l with [c] => Zbits 6 (alpha_val c) | _ => [] end)
          <= 6 * length (odd_tail l))%nat.
  { destruct (odd_tail l) as [|c [|]]; simpl; lia. }
  assert (length (concat (alpha_pairs l).*1) <= 11 * length (alpha_pairs l))%nat.
  { rewrite <- (length_fmap fst). apply length_concat_le.
    clear. induction l as [|c|c d l IH] using pair_ind; [constructor..|].
    cbn [alpha_pairs fmap list_fmap fst]. constructor; [rewrite length_Zbits; lia|done]. }
  destruct (alpha_pairs_length l) as [[E Hl]|(c & E & _ & Hl)]; rewrite E in *; simpl in *; lia.
Qed.

Lemma length_b40_code l : (length (b40_code l) <= 24 * length l)%nat.
Proof.
  unfold b40_code. rewrite length_app.
  assert (length (b40_tail_code (b40_tail l)) <= 11 * length (b40_tail l))%nat.
  { destruct (b40_tail l) as [|c [|d [|]]]; simpl; lia. }
  assert (length (concat (b40_triples l).*1) <= 16 * length (b40_triples l))%nat.
  { rewrite <- (length_fmap fst). apply length_concat_le.
    clear. induction l as [|c|c d|c d e l IH] using triple_ind; [constructor..|].
    cbn [b40_triples fmap list_fmap fst]. constructor; [rewrite length_Zbits; lia|done]. }
  destruct (b40_triples_length l) as [[E Hl]|[(c & E & _ & Hl)|(c & d & E & _ & _ & Hl)]];
    rewrite E in *; simpl in *; lia.
Qed.

Lemma length_hex_code s : (length (hex_code s) <= 24 * length (chars s))%nat.
Proof.
  unfold hex_code. etrans; [apply (length_concat_le 4)|rewrite !length_map; lia].
  apply Forall_map, Forall_forall. intros c _. by rewrite length_Zbits.
Qed.

Lemma length_packed_code css :
  Forall packed_char css -> (length (concat (map packed_code css)) <= 24 * length css)%nat.
Proof.
  intros H. etrans; [apply (length_concat_le 24)|by rewrite length_map].
  apply Forall_map. eapply Forall_impl; [exact H|]. intros cs Hc.
  destruct Hc; cbn [packed_code]; rewrite ?length_app, !length_Zbits; lia.
Qed.

Lemma packed_length css :
  Forall packed_char css -> (length css <= length (concat css))%nat.
Proof.
  induction 1 as [|cs css Hc _ IH]; [done|]. cbn [concat]. rewrite length_app.
  destruct Hc; simpl; lia.
Qed.

(** ** One option *)
Section best.
Context (css : list (list ascii)) (lengthBits : Z).
Context (Hcss : Forall packed_char css) (Hlb : 1 <= lengthBits <= 64).
Context (message := str (concat css)) (count := Z.of_nat (length css)).
Context (Hcount : count < 2 ^ lengthBits).
Context (Hsize : Z.of_nat (length (concat css)) < 2 ^ 58).
(** hexadecimal text has no upper-case digits *)
Context (Hlower : Forall is_hex (concat css) -> Forall (fun c => tolower c = c) (concat css)).

Definition good (r : BitIO) : Prop :=
  wf r /\ _position r = 0 /\ _length r < 2 ^ 63
  /\ reads (getBestString lengthBits defaultHeaderOptions) (abs r) message.

Lemma chars_message : chars message = concat css.
Proof. apply chars_str. Qed.

Lemma count_message : stringLength message = count.
Proof. by apply stringLength_packed. Qed.

Lemma try_option_ok opt o l :
  xbit_valid (header opt) -> Z.of_nat (length (xbit_code (header opt))) <= 1024 ->
  encode_with (encoder opt) message = Some o -> built o l ->
  (length l <= 24 * length (concat css))%nat ->
  reads (getBestString lengthBits defaultHeaderOptions)
    (xbit_code (header opt) ++ Zbits lengthBits count ++ l) message ->
  exists r, try_option message count lengthBits opt = Ok (r, false) /\ good r.
Proof.
  intros Hx Hxl He (t & -> & Hwt & Hpt & Hat) Hl Hreads. unfold try_option.
  destruct (makeXBit_built _ Hx) as (h & -> & Hwh & Hph & Hah).
  destruct (appendBits_run h count lengthBits) as (h1 & Hr1 & A1); [done|lia|unfold count in *; lia|].
  pose proof (length_abs_Z t Hwt) as Hlt. rewrite Hat in Hlt.
  assert (fits t) as Hft by (unfold fits, two64; lia).
  destruct (emits_with_value t Hwt Hft h1) as (h2 & Hr2 & A2); [apply A1|].
  exists h2. unfold mbind, outcome_bind, exec. rewrite Hr1, He, Hr2. split; [done|].
  destruct (appended_trans _ _ _ _ _ A1 A2) as (Hw2 & Hp2 & Ha2 & Hl2).
  split_and!; [done|lia| |].
  - rewrite Hl2, Hat, length_app, length_Zbits. rewrite <- (length_abs_Z h Hwh), Hah. lia.
  - by rewrite Ha2, Hah, Hat.
Qed.

Lemma try_option_throws opt e :
  xbit_valid (header opt) -> encode_with (encoder opt) message = Some (Throw e) ->
  try_option message count lengthBits opt = Throw e.
Proof.
  intros Hx He. unfold try_option.
  destruct (makeXBit_built _ Hx) as (h & -> & Hwh & _ & _).
  destruct (appendBits_run h count lengthBits) as (h1 & Hr1 & A1); [done|lia|unfold count in *; lia|].
  unfold mbind, outcome_bind, exec. by rewrite Hr1, He.
Qed.

Lemma header_valid opt :
  opt ∈ defaultHeaderOptions -> xbit_valid (header opt)
  /\ Z.of_nat (length (xbit_code (header opt))) <= 1024.
Proof.
  intros H. unfold defaultHeaderOptions in H.
  repeat (apply elem_of_cons in H as [->|H]; [unfold xbit_valid, two64; simpl; lia|]).
  by apply elem_of_nil in H.
Qed.

Lemma ascii_count cs :
  forallb (fun c => byteZ c <? 128) (chars cs) = true ->
  Forall (fun c => c ∈ chars cs) (concat css) -> count = Z.of_nat (length (chars message)).
Proof.
  intros Hcs Hm. rewrite <- count_message. apply stringLength_ascii, (charset_ascii cs); [done|].
  by rewrite chars_message.
Qed.

Ltac read_header Hv :=
  unfold getBestString; cbn [defaultHeaderOptions header xBitLength];
  (eapply reads_bind; [exact (getXBit_reads _ Hv)|]);
  (eapply reads_bind; [apply reads_getBits; [done|unfold count in *; lia]|]); cbn.

Lemma alpha_option :
  let o := mk_option (mk_xBitValue 0 1 2) BITIO_ENCODE_ALPHA in
  (exists r, try_option message count lengthBits o = Ok (r, false) /\ good r)
  \/ (exists e, try_option message count lengthBits o = Throw e).
Proof.
  intros o. destruct (header_valid o) as [Hv Hl]; [by left|].
  destruct (decide (Forall is_alpha (chars message))) as [Hm|Hm].
  - left. eapply (try_option_ok o _ (alpha_code (chars message))); [done|done|reflexivity| |..].
    + by apply makeAlphaString_built.
    + rewrite <- chars_message. apply length_alpha_code.
    + subst o. read_header Hv. rewrite (ascii_count BITIO_CHARSET_ALPHA); [|done|by rewrite <- chars_message].
      by apply getAlphaString_reads.
  - right. destruct (makeAlphaString_error message Hm) as [e He]. exists e.
    apply try_option_throws; [done|]. by rewrite <- He.
Qed.

Lemma b40_option :
  let o := mk_option (mk_xBitValue 0 2 2) BITIO_ENCODE_3B40 in
  (exists r, try_option message count lengthBits o = Ok (r, false) /\ good r)
  \/ (exists e, try_option message count lengthBits o = Throw e).
Proof.
  intros o. destruct (header_valid o) as [Hv Hl]; [by do 1 right; left|].
  destruct (decide (Forall is_b40 (chars message))) as [Hm|Hm];
    [destruct (decide (b40_tail_fits message)) as [Ht|Ht]|].
  - left. eapply (try_option_ok o _ (b40_code (chars message))); [done|done|reflexivity| |..].
    + by apply make3B40String_built.
    + rewrite <- chars_message. apply length_b40_code.
    + subst o. read_header Hv. rewrite (ascii_count BITIO_CHARSET_3B40); [|done|by rewrite <- chars_message].
      by apply get3B40String_reads.
  - right. destruct (make3B40String_error message) as [e He]; [tauto|]. exists e.
    apply try_option_throws; [done|]. by rewrite <- He.
  - right. destruct (make3B40String_error message) as [e He]; [tauto|]. exists e.
    apply try_option_throws; [done|]. by rewrite <- He.
Qed.

Lemma utf8_option :
  let o := mk_option (mk_xBitValue 0 3 2) BITIO_ENCODE_UTF8 in
  exists r, try_option message count lengthBits o = Ok (r, false) /\ good r.
Proof.
  intros o. destruct (header_valid o) as [Hv Hl]; [by do 2 right; left|].
  eapply (try_option_ok o _ (concat (map packed_code css))); [done|done|reflexivity| |..].
  - by apply makeUTF8String_built.
  - pose proof (length_packed_code css Hcss). pose proof (packed_length css Hcss). lia.
  - subst o. read_header Hv. by apply getUTF8String_reads.
Qed.

Lemma hex_option :
  let o := mk_option (mk_xBitValue 1 1 2) BITIO_ENCODE_HEX in
  (exists r, try_option message count lengthBits o = Ok (r, false) /\ good r)
  \/ (exists e, try_option message count lengthBits o = Throw e).
Proof.
  intros o. destruct (header_valid o) as [Hv Hl]; [by do 3 right; left|].
  destruct (decide (Forall (fun c => tolower c ∈ chars BITIO_CHARSET_HEX) (chars message))) as [Hm|Hm].
  - left. eapply (try_option_ok o _ (hex_code message)); [done|done|reflexivity| |..].
    + by apply makeHexString_built.
    + rewrite <- chars_message. apply length_hex_code.
    + assert (map tolower (chars message) = chars message) as Hid.
      { rewrite chars_message in *. specialize (Hlower Hm). clear -Hlower.
        induction Hlower; simpl; congruence. }
      subst o. read_header Hv.
      rewrite (ascii_count BITIO_CHARSET_HEX); [|done|].
      * pose proof (getHexString_reads message Hm) as H. by rewrite Hid, str_chars in H.
      * rewrite <- chars_message, <- Hid. by apply Forall_map.
  - right. destruct (makeHexString_error message Hm) as [e He]. exists e.
    apply try_option_throws; [done|]. by rewrite <- He.
Qed.

(** The loop keeps a good stream once it has one. *)
Lemma best_loop_good opts best :
  Forall (fun o => (exists r, try_option message count lengthBits o = Ok (r, false) /\ good r)
                   \/ (exists e, try_option message count lengthBits o = Throw e)) opts ->
  (forall r, best = Some r -> good r) ->
  exists best', best_loop message count lengthBits opts best = Ok best'
    /\ (forall r, best' = Some r -> good r)
    /\ (is_Some best \/ Exists (fun o => exists r, try_option message count lengthBits o = Ok (r, false)) opts
        -> is_Some best').
Proof.
  intros Ho. revert best.
  induction Ho as [|o opts [(r & Hr & Hg)|(e & He)] _ IH]; intros best Hb.
  - exists best. split_and!; [done|done|]. intros [?|H]; [done|by inversion H].
  - cbn [best_loop]. rewrite Hr. pose proof Hg as (_ & _ & Hlen & _).
    set (best1 := match best with
                  | Some b => if getLength r <? getLength b then Some r else Some b
                  | None => if getLength r <? two64 - 1 then Some r else None end).
    assert (is_Some best1 /\ forall x, best1 = Some x -> good x) as [Hs Hg1].
    { subst best1. destruct best as [b|].
      - case_match; (split; [eauto|]); intros x [= <-]; [done|by apply Hb].
      - unfold getLength. rewrite (proj2 (Z.ltb_lt _ _)) by (unfold two64; lia).
        split; [eauto|]. by intros x [= <-]. }
    destruct (IH best1 Hg1) as (b' & ? & ? & Hsome). exists b'. split_and!; try done. auto.
  - cbn [best_loop]. rewrite He. destruct (IH best Hb) as (b' & ? & ? & Hsome).
    exists b'. split_and!; try done. intros [?|Hex]; [auto|]. apply Hsome. right.
    apply Exists_cons in Hex as [(r & Hr)|?]; [congruence|done].
Qed.

Lemma makeBestString_default :
  exists r, makeBestString message lengthBits defaultHeaderOptions = Ok r /\ good r.
Proof.
  unfold makeBestString. rewrite count_message.
  rewrite checkValueSize_ok by (done || (unfold count in *; lia)).
  destruct (best_loop_good defaultHeaderOptions None) as (best & -> & Hg & Hs).
  - do 4 (apply List.Forall_cons; [first [apply alpha_option|apply b40_option|left; apply utf8_option|apply hex_option]|]).
    apply List.Forall_nil.
  - done.
  - destruct Hs as [r ->]; [right; do 2 right; left; destruct utf8_option as (r & Hr & _); by exists r|].
    exists r. split; [done|by apply Hg].
Qed.
End best.
