(* ===== verification/BitIOTheorems.v ===== *)
(** The properties of BitIO: every operation of the word-level code against
    the list-of-bits view, the encodings as inverse pairs, and the safety of
    all decoders on arbitrary input. *)

From S2P Require Import Prelude.
From S2P Require Import BitIO.
From S2P Require Import BitIOBlocks.
From S2P Require Import BitIOInsert.
From S2P Require Import BitIOCodec.
From S2P Require Import BitStream.
From S2P Require Import BitIOText.
From S2P Require Import BitIONumbers.
From S2P Require Import BitIOBest.

Ltac Zify.zify_post_hook ::= Z.div_mod_to_equations.

(** ** Construction from bytes *)
Definition partial_words (bits : list Z) (temp offset : Z) : list Z :=
  if offset =? 64 then bits else bits ++ [temp].

Definition partial_stream (bits : list Z) (temp offset : Z) : BitIO :=
  mkBitIO (partial_words bits temp offset) 0 (64 * Z.of_nat (length bits) + (64 - offset)).

Lemma bitOf_partial bits temp offset i :
  0 <= i -> (offset = 64 -> temp = 0) ->
  bitOf (partial_words bits temp offset) i =
    if decide (i / 64 = Z.of_nat (length bits)) then Z.testbit temp (63 - i mod 64) else bitOf bits i.
Proof.
  intros Hi H64. unfold partial_words. destruct (Z.eqb_spec offset 64) as [E|E].
  - case_decide as Hd; [|done]. rewrite H64, Z.testbit_0_l by done. apply bitOf_beyond; lia.
  - rewrite bitOf_snoc by done. by repeat case_decide.
Qed.

Lemma load_byte bits temp offset BI (temp' := Z.lor temp (shl64 BI (offset - 8))) :
  wf (partial_stream bits temp offset) -> is_byte BI ->
  offset mod 8 = 0 -> 8 <= offset <= 64 -> (offset = 64 -> temp = 0) ->
  let b' := if offset =? 8 then partial_stream (bits ++ [temp']) 0 64
            else partial_stream bits temp' (offset - 8) in
  appended (partial_stream bits temp offset) (Zbits 8 BI) b'.
Proof.
  intros Hwf HB Hmod Hoff H64 b'. unfold is_byte in HB.
  set (b := partial_stream bits temp offset) in *.
  pose proof (wf_words b Hwf) as Hww. simpl in Hww.
  assert (Forall (fun w => 0 <= w < two64) bits /\ 0 <= temp < two64) as [Hb Ht].
  { unfold partial_words in Hww. destruct (Z.eqb_spec offset 64) as [E|E].
    - split; [done|]. rewrite H64 by done. unfold two64. lia.
    - apply Forall_app in Hww as [? H1]. by apply Forall_cons_1 in H1 as [? _]. }
  assert (0 <= temp' < two64) as Ht' by (apply lor_range; [done|apply u64_range]).
  assert (b' = mkBitIO (bits ++ [temp']) 0 (_length b + 8)) as ->.
  { subst b' b. unfold partial_stream, partial_words. destruct (Z.eqb_spec offset 8) as [->|E].
    - change (64 =? 64) with true. cbv iota. f_equal. rewrite length_app. simpl. lia.
    - destruct (Z.eqb_spec (offset - 8) 64); [lia|]. f_equal. simpl. lia. }
  apply (appended_bits b (bits ++ [temp']) 8 (fun j => Z.testbit BI (8 - 1 - j))); [done|lia| | |].
  - rewrite length_app. unfold b, partial_stream. simpl. lia.
  - apply Forall_app. split; [done|]. by apply Forall_singleton.
  - intros i Hi. rewrite bitOf_snoc by done. 
    change (_length b) with (64 * Z.of_nat (length bits) + (64 - offset)).
    change (bitAt b i) with (bitOf (partial_words bits temp offset) i).
    rewrite bitOf_partial by done.
    set (n := Z.of_nat (length bits)) in *.
    assert (forall j, i / 64 = n -> j = 63 - i mod 64 -> Z.testbit temp' j =
      Z.testbit temp j || Z.testbit BI (j - (offset - 8))) as Hbit.
    { intros j Hn ->. unfold temp'. rewrite Z.lor_spec, testbit_shl64 by lia. f_equal.
      destruct (Z.ltb_spec (63 - i mod 64) 64); [by rewrite andb_true_r|lia]. }
    assert (forall j, i / 64 = n -> j = 63 - i mod 64 -> 64 * n + (64 - offset) <= i -> Z.testbit temp j = false) as Hz.
    { intros j Hn -> Hge. pose proof (wf_padding b Hwf i) as Hp. unfold bitAt, b in Hp. cbn [partial_stream _bits _length] in Hp.
      rewrite bitOf_partial in Hp by done. rewrite decide_True in Hp by done. apply Hp. fold n. lia. }
    destruct (decide (i / 64 = n)) as [Hn|Hn].
    + rewrite (Hbit _ Hn eq_refl).
      destruct (decide (i < 64 * n + (64 - offset))).
      * rewrite (testbit_high BI 8) by lia. by rewrite orb_false_r.
      * rewrite (Hz _ Hn eq_refl) by lia. simpl. case_decide.
        -- f_equal. lia.
        -- apply Z.testbit_neg_r. lia.
    + destruct (decide (i < 64 * n + (64 - offset))).
      * done.
      * rewrite bitOf_beyond by (fold n; lia). case_decide; [lia|done].
Qed.

Lemma load_bytes_run data : forall bits temp offset,
  Forall is_byte data -> wf (partial_stream bits temp offset) ->
  offset mod 8 = 0 -> 8 <= offset <= 64 -> (offset = 64 -> temp = 0) ->
  appended (partial_stream bits temp offset) (bytes_code data)
    (mkBitIO (load_bytes data temp offset bits) 0
       (_length (partial_stream bits temp offset) + 8 * Z.of_nat (length data))).
Proof.
  induction data as [|BI data IH]; intros bits temp offset Hd Hwf Hmod Hoff H64.
  - cbn [load_bytes length]. rewrite Z.add_0_r. by apply appended_nil.
  - inversion_clear Hd as [|? ? HB Hd']. cbn [load_bytes]. cbv zeta.
    pose proof (load_byte bits temp offset BI Hwf HB Hmod Hoff H64) as Ha. cbv zeta in Ha.
    change (bytes_code (BI :: data)) with (Zbits 8 BI ++ bytes_code data).
    eapply appended_trans; [exact Ha|]. destruct Ha as (Hw & _ & _ & Hlen).
    rewrite length_Zbits in Hlen. destruct (Z.eqb_spec offset 8) as [->|E].
    + change (8 - 8 =? 0) with true. change (8 - 8) with 0 in *. cbv iota.
      match goal with |- appended ?b _ (mkBitIO ?w 0 ?n) => replace n with (_length b + 8 * Z.of_nat (length data)) by (cbn [length]; lia) end.
      by apply IH.
    + destruct (Z.eqb_spec (offset - 8) 0); [lia|].
      match goal with |- appended ?b _ (mkBitIO ?w 0 ?n) => replace n with (_length b + 8 * Z.of_nat (length data)) by (cbn [length]; lia) end.
      apply IH; try done; lia.
Qed.

Lemma of_bytes_run data :
  Forall is_byte data ->
  appended empty_BitIO (bytes_code data)
    (mkBitIO (load_bytes data 0 64 []) 0 (8 * Z.of_nat (length data))).
Proof. intros H. apply (load_bytes_run data [] 0 64); try done. apply wf_empty. Qed.

Lemma length_bytes_code data : length (bytes_code data) = (8 * length data)%nat.
Proof.
  induction data as [|v data IH]; [done|].
  change (bytes_code (v :: data)) with (Zbits 8 v ++ bytes_code data).
  rewrite length_app, IH, length_Zbits. cbn [length]. lia.
Qed.

(** A shorter bit count over the same words: the bits cut off must be zero. *)
Lemma wf_shorten b n :
  wf b -> _position b = 0 -> 0 <= n <= _length b -> (n + 63) / 64 = (_length b + 63) / 64 ->
  (forall i, n <= i < _length b -> bitAt b i = false) ->
  wf (mkBitIO (_bits b) 0 n) /\ abs (mkBitIO (_bits b) 0 n) = take (Z.to_nat n) (abs b).
Proof.
  intros Hwf Hp Hn Hs Hz. split.
  - constructor; simpl; [lia|by rewrite Hs, (wf_size b Hwf)|by apply wf_words|].
    intros i Hi. destruct (Z.lt_ge_cases i (_length b)); [by apply Hz|by apply (wf_padding b Hwf)].
  - unfold abs. simpl. by rewrite take_tab by lia.
Qed.

Lemma low_bits_clear back r :
  is_byte back -> 1 <= r < 8 -> (0 <? Z.land back (makeRightMask (8 - r))) = false ->
  forall j, 0 <= j < 8 - r -> Z.testbit back j = false.
Proof.
  intros Hb Hr Hl j Hj. unfold is_byte in Hb.
  assert (Z.land back (makeRightMask (8 - r)) = 0) as H0.
  { assert (0 <= Z.land back (makeRightMask (8 - r))) by (apply Z.land_nonneg; lia).
    apply Z.ltb_ge in Hl. lia. }
  apply (f_equal (fun z => Z.testbit z j)) in H0.
  rewrite Z.land_spec, makeRightMask_spec, Z.testbit_0_l in H0 by lia.
  destruct (Z.ltb_spec j (8 - r)); [|lia]. by rewrite andb_true_r in H0.
Qed.

Lemma bytes_code_snoc data back :
  bytes_code (data ++ [back]) = bytes_code data ++ Zbits 8 back.
Proof. unfold bytes_code. rewrite map_app, concat_app. cbn [map concat]. by rewrite app_nil_r. Qed.

(** The bits of the last byte, by their index in the stream. *)
Lemma bytes_code_last data back j :
  0 <= j < 8 ->
  bytes_code (data ++ [back]) !! Z.to_nat (8 * Z.of_nat (length data) + (7 - j)) = Some (Z.testbit back j).
Proof.
  intros Hj. rewrite bytes_code_snoc, lookup_app_r by (rewrite length_bytes_code; lia).
  rewrite length_bytes_code. unfold Zbits. rewrite lookup_tab. case_decide; [|lia].
  do 2 f_equal. lia.
Qed.

Lemma bitAt_abs b i :
  0 <= i < _length b -> abs b !! Z.to_nat i = Some (bitAt b i).
Proof. intros Hi. unfold abs. rewrite lookup_tab. case_decide; [|lia]. do 2 f_equal. lia. Qed.

Lemma of_bytes_exact data len :
  Forall is_byte data -> 0 < len -> Z.of_nat (length data) = (len + 7) / 8 ->
  (forall i, len <= i < 8 * Z.of_nat (length data) -> bytes_code data !! Z.to_nat i = Some false) ->
  let b := mkBitIO (load_bytes data 0 64 []) 0 len in
  wf b /\ abs b = take (Z.to_nat len) (bytes_code data)
  /\ bytes_code data = abs b ++ zeros (8 * Z.of_nat (length data) - len).
Proof.
  intros Hd Hlen Hs Hz. destruct (appended_fresh _ _ (of_bytes_run data Hd)) as (Hw & Hp & Ha & _ & _).
  set (b0 := mkBitIO (load_bytes data 0 64 []) 0 (8 * Z.of_nat (length data))) in *.
  destruct (wf_shorten b0 len Hw Hp) as [Hw' Ha'].
  - simpl. lia.
  - simpl. lia.
  - intros i Hi. simpl in Hi. pose proof (bitAt_abs b0 i ltac:(simpl; lia)) as Hb.
    rewrite Ha, Hz in Hb by lia. by inversion Hb.
  - rewrite Ha in Ha'. split_and!; [done|done|]. simpl in Ha'. rewrite Ha'.
    rewrite <- (take_drop (Z.to_nat len) (bytes_code data)) at 1. f_equal.
    apply list_eq. intros i. rewrite lookup_drop. unfold zeros. rewrite lookup_tab. case_decide.
    + rewrite <- Hz with (i := len + Z.of_nat i) by lia. f_equal. lia.
    + apply lookup_ge_None. rewrite length_bytes_code. lia.
Qed.

Lemma low_bits_set back r :
  is_byte back -> 1 <= r < 8 -> (0 <? Z.land back (makeRightMask (8 - r))) = true ->
  exists j, 0 <= j < 8 - r /\ Z.testbit back j = true.
Proof.
  intros Hb Hr Hl. apply Z.ltb_lt in Hl. set (x := Z.land back (makeRightMask (8 - r))) in *.
  pose proof (Z.bit_log2 x Hl) as Hbit. exists (Z.log2 x). pose proof (Z.log2_nonneg x).
  unfold x in Hbit at 1. rewrite Z.land_spec, makeRightMask_spec in Hbit by lia.
  apply andb_true_iff in Hbit as [? ?%Z.ltb_lt]. split; [lia|done].
Qed.

(** constructing a stream from bytes: with no bit count it holds the bytes, most
    significant bit first; a bit count that agrees with the number of bytes keeps
    that many bits and is refused when a dropped bit is set; any other count is
    refused, and an empty vector with a partial count is undefined. *)
Theorem BitIO_of_bytes_spec data len :
  Forall is_byte data -> 0 <= len ->
  let size := Z.of_nat (length data) in
  match BitIO_of_bytes data len with
  | Ok b => wf b /\ _position b = 0
      /\ (len = 0 -> abs b = bytes_code data)
      /\ (len <> 0 -> size = (len + 7) / 8 /\ abs b = take (Z.to_nat len) (bytes_code data))
      /\ bytes_code data = abs b ++ zeros (8 * size - _length b)
  | Throw e => len <> 0 /\ (size <> (len + 7) / 8 \/ exists i, len <= i < 8 * size
      /\ bytes_code data !! Z.to_nat i = Some true)
  | UB => data = [] /\ len mod 8 <> 0
  | Fuel => False
  end.
Proof.
  intros Hd Hlen size. unfold BitIO_of_bytes. fold size.
  destruct (Z.eqb_spec len 0) as [->|H0]; [|destruct (Z.eqb_spec (len mod 8) 0) as [Hm|Hm]].
  - simpl. destruct (appended_fresh _ _ (of_bytes_run data Hd)) as (Hw & Hp & Ha & _ & _).
    fold size in Hw, Ha. split_and!; try done. unfold BITIO_SIZEOF_LONG.
    replace (8 * size - 8 * size) with 0 by lia. by rewrite Ha, app_nil_r.
  - destruct (Z.eqb_spec size (len / 8)) as [Hs|Hs]; simpl; [|split; [done|left; lia]].
    destruct (of_bytes_exact data len) as (Hw & Ha & Hz); [done|lia|fold size; lia|fold size; lia|].
    split_and!; try done. intros _. split; [lia|done].
  - destruct data as [|back data _] using rev_ind; [done|].
    rewrite last_snoc. assert (is_byte back) as Hb by (rewrite Forall_app, Forall_singleton in Hd; tauto).
    assert (size = Z.of_nat (length data) + 1) as Hsz by (subst size; rewrite length_app; simpl; lia).
    clearbody size.
    destruct (0 <? Z.land back (makeRightMask (8 - len mod 8))) eqn:El; simpl.
    + split; [done|]. destruct (decide (size = (len + 7) / 8)) as [Hs|Hs]; [right|by left].
      destruct (low_bits_set back (len mod 8) Hb ltac:(lia) El) as (j & Hj & Hbit).
      exists (8 * Z.of_nat (length data) + (7 - j)). split; [lia|].
      by rewrite bytes_code_last, Hbit by lia.
    + destruct (Z.eqb_spec size (len / 8 + 1)) as [Hs|Hs]; simpl; [|split; [done|left; lia]].
      pose proof (low_bits_clear back (len mod 8) Hb ltac:(lia) El) as Hclear.
      assert (Z.of_nat (length (data ++ [back])) = size) as Hl by (rewrite length_app; simpl; lia).
      destruct (of_bytes_exact (data ++ [back]) len) as (Hw & Ha & Hz); [done|lia|lia| |].
      { rewrite Hl. intros i Hi. rewrite <- (Hclear (7 - (i - 8 * Z.of_nat (length data)))) by lia.
        rewrite <- bytes_code_last with (data := data) by lia. f_equal. lia. }
      rewrite Hl in Hz. split_and!; try done. intros _. split; [lia|done].
Qed.

(** ** Reading *)
Lemma take_rest_tab b n :
  wf b -> 0 <= n <= _length b - _position b ->
  tab n (fun i => bitAt b (_position b + i)) = take (Z.to_nat n) (rest b).
Proof. intros. by rewrite rest_take. Qed.

(** [getBits n] returns the next [n] bits of the stream as a number, first bit most
    significant, and moves the cursor behind them, across word borders as well;
    for a length of 0, above 64 or beyond the end it throws out_of_range and the
    object, cursor included, is unchanged. *)
Theorem getBits_spec b n :
  wf b -> fits b -> 0 <= n ->
  if bool_decide (1 <= n <= 64 /\ n <= Z.of_nat (length (rest b)))
  then getBits n b = (Ok (bitsZ (take (Z.to_nat n) (rest b))), advance n b)
  else exists what, getBits n b = (Throw (out_of_range what), b).
Proof.
  intros Hwf Hf Hn. pose proof (length_rest b Hwf) as Hl. case_bool_decide as H.
  - rewrite getBits_run by (done || lia). by rewrite take_rest_tab by (done || lia).
  - apply getBits_error; [done|done|done|lia].
Qed.

(** [checkBits] compares without moving the cursor: it answers false when fewer bits
    are left, the comparison with the next bits otherwise, and leaves the object
    as it was; only a length of 0 or above 64 makes it throw. *)
Theorem checkBits_spec b v n :
  wf b -> fits b -> 0 <= n ->
  if bool_decide (Z.of_nat (length (rest b)) < n) then checkBits v n b = (Ok false, b)
  else if bool_decide (1 <= n <= 64)
  then checkBits v n b = (Ok (bitsZ (take (Z.to_nat n) (rest b)) =? v), b)
  else exists what, checkBits v n b = (Throw (out_of_range what), b).
Proof.
  intros Hwf Hf Hn. pose proof (length_rest b Hwf) as Hl. pose proof (wf_position b Hwf) as Hp.
  unfold fits, two64 in Hf.
  assert (getNumberOfBitLeft b = Z.of_nat (length (rest b))) as Hleft.
  { unfold getNumberOfBitLeft. rewrite u64_small by (unfold two64; lia). lia. }
  unfold checkBits. step_by reflexivity. rewrite Hleft.
  destruct (Z.ltb_spec (Z.of_nat (length (rest b))) n).
  { by rewrite bool_decide_eq_true_2. }
  rewrite bool_decide_eq_false_2 by lia. case_bool_decide as H1.
  - step (getBits_run b n Hwf ltac:(done) H1 ltac:(lia)). unfold modify, mbind, M_bind, mret, M_ret.
    rewrite take_rest_tab by (done || lia). f_equal. unfold set_position. simpl.
    replace (_position b + n - n) with (_position b) by lia. by destruct b.
  - destruct (getBits_error b n Hwf ltac:(done) Hn ltac:(lia)) as [what Hw]. exists what.
    by apply bind_throw.
Qed.

(** ** Writing *)
Lemma checkValueSize_zero {S} v (s : S) :
  checkValueSize v 0 s = (Throw (out_of_range "value must be smaller than length bits"), s).
Proof. done. Qed.

(** [appendBits v n] adds the [n]-bit code of [v] at the end of the stream and leaves
    the cursor alone; it throws, changing nothing, for a length outside 1..64 or
    a value that needs more bits. *)
Theorem appendBits_spec b v n :
  wf b -> 0 <= v < two64 -> 0 <= n ->
  if bool_decide (1 <= n <= 64 /\ v < 2 ^ n)
  then exists b', appendBits v n b = (Ok tt, b') /\ wf b' /\ abs b' = abs b ++ Zbits n v
         /\ _position b' = _position b
  else exists what, appendBits v n b = (Throw (out_of_range what), b).
Proof.
  intros Hwf Hv Hn. case_bool_decide as H.
  - destruct (appendBits_run b v n Hwf ltac:(lia) ltac:(lia)) as (b' & Hr & Hw & Hp & Ha & _). eauto.
  - unfold appendBits. destruct (decide (1 <= n <= 64)) as [H1|H1].
    + step (checkLength_ok n b H1). rewrite (bind_throw _ _ _ _ _ (checkValueSize_error v n b ltac:(
        destruct (Z.eq_dec n 64) as [->|]; [exfalso; apply H; split; [done|apply Hv]|lia]) ltac:(lia))). eauto.
    + destruct (checkLength_error n b Hn H1) as [what Hw]. exists what. by apply bind_throw.
Qed.

(** [setBits v n] overwrites the bits at the cursor, extends the stream when the value
    reaches past its end and moves the cursor behind the value; it throws,
    changing nothing, for a bad length or value.  The exception to the rule is a
    64-bit value at an end of the stream that is word-aligned, which stores
    outside the vector. *)
Theorem setBits_spec b v n :
  wf b -> 0 <= v < two64 -> 0 <= n ->
  if bool_decide (1 <= n <= 64 /\ v < 2 ^ n)
  then if bool_decide (n = 64 /\ _position b = 64 * Z.of_nat (length (_bits b)))
       then fst (setBits v n b) = UB
       else exists b', setBits v n b = (Ok tt, b') /\ wf b'
              /\ _position b' = _position b + n
              /\ abs b' = take (Z.to_nat (_position b)) (abs b) ++ Zbits n v
                            ++ drop (Z.to_nat (_position b + n)) (abs b)
  else exists what, setBits v n b = (Throw (out_of_range what), b).
Proof.
  intros Hwf Hv Hn. pose proof (wf_position b Hwf). case_bool_decide as H1; [case_bool_decide as H2|].
  - destruct H2 as [-> Hp]. by apply setBits_at_end_undefined.
  - destruct (setBits_run b v n Hwf ltac:(lia) ltac:(lia) H2) as (b' & Hr & Hw & Hp & Hl & Ha).
    rewrite length_Zbits in Hp, Ha. exists b'. split_and!; try done; try lia.
    rewrite Ha. do 3 f_equal. lia.
  - unfold setBits. destruct (decide (1 <= n <= 64)) as [H2|H2].
    + step (checkLength_ok n b H2). rewrite (bind_throw _ _ _ _ _ (checkValueSize_error v n b ltac:(
        destruct (Z.eq_dec n 64) as [->|]; [exfalso; apply H1; split; [done|apply Hv]|lia]) ltac:(lia))). eauto.
    + destruct (checkLength_error n b Hn H2) as [what Hw]. exists what. by apply bind_throw.
Qed.

(** [insertBits v n] puts the [n]-bit code of [v] in at the cursor: everything from the
    cursor on moves back by [n] bits, across words, and the cursor ends behind
    the value; a value or a zero length that does not fit throws and changes
    nothing. *)
Theorem insertBits_spec b v n :
  wf b -> 0 <= v < two64 -> 0 <= n <= 64 ->
  if bool_decide (1 <= n /\ v < 2 ^ n)
  then exists b', insertBits v n b = (Ok tt, b') /\ wf b' /\ _position b' = _position b + n
         /\ abs b' = take (Z.to_nat (_position b)) (abs b) ++ Zbits n v
                       ++ drop (Z.to_nat (_position b)) (abs b)
  else exists what, insertBits v n b = (Throw (out_of_range what), b).
Proof.
  intros Hwf Hv Hn. case_bool_decide as H1.
  - destruct (insertBits_run b v n Hwf ltac:(lia) ltac:(lia)) as (b' & Hr & Hw & Hp & Hl & Ha).
    rewrite length_Zbits in Hp. exists b'. split_and!; try done. lia.
  - unfold insertBits. eexists.
    apply bind_throw. destruct (Z.eq_dec n 0) as [->|Hn0]; [apply checkValueSize_zero|].
    apply checkValueSize_error; [|lia].
    destruct (Z.eq_dec n 64) as [->|]; [exfalso; apply H1; split; [lia|apply Hv]|lia].
Qed.

(** the overloads that take a whole stream append, overwrite or insert all of its bits,
    wherever its cursor stands, block by block, and give the argument back
    unchanged. *)
Theorem stream_operations_spec b v :
  wf b -> wf v -> fits v ->
  (exists b', appendBits_BitIO (b, v) = (Ok tt, (b', v)) /\ wf b'
     /\ abs b' = abs b ++ abs v /\ _position b' = _position b)
  /\ (exists b', setBits_BitIO (b, v) = (Ok tt, (b', v)) /\ wf b'
     /\ abs b' = take (Z.to_nat (_position b)) (abs b) ++ abs v
                   ++ drop (Z.to_nat (_position b) + length (abs v)) (abs b)
     /\ _position b' = _position b + _length v)
  /\ (exists b', insertBits_BitIO (b, v) = (Ok tt, (b', v)) /\ wf b'
     /\ abs b' = take (Z.to_nat (_position b)) (abs b) ++ abs v
                   ++ drop (Z.to_nat (_position b)) (abs b)
     /\ _position b' = _position b + _length v).
Proof.
  intros Hb Hv Hf. pose proof (length_abs_Z v Hv) as Hl. split_and!.
  - destruct (appendBits_BitIO_run b v Hb Hv Hf) as (b' & Hr & ? & ? & ? & _). eauto.
  - destruct (setBits_BitIO_run b v Hb Hv Hf) as (b' & Hr & ? & ? & ? & ?).
    exists b'. split_and!; try done. lia.
  - destruct (insertBits_BitIO_run b v Hb Hv Hf) as (b' & Hr & ? & ? & ? & ?).
    exists b'. split_and!; try done. lia.
Qed.

(** [copyBits n] returns the next [n] bits as a fresh stream with the cursor at its
    start and moves the cursor of the source behind them; [padWidth m] extends
    the stream by fewer than [m] bits to a multiple of [m], with zeros, ones or
    random bits as asked, keeping what was there and the cursor. *)
Theorem copy_and_pad_spec (rand : Z -> Z) b n multiple style :
  (forall k, 0 <= rand k < two64) -> wf b -> fits b ->
  0 <= n <= Z.of_nat (length (rest b)) -> 1 < multiple ->
  (exists r, copyBits n b = (Ok r, advance n b) /\ wf r /\ _position r = 0
     /\ abs r = take (Z.to_nat n) (rest b))
  /\ (exists l b', padWidth rand multiple style b = (Ok tt, b') /\ wf b'
     /\ abs b' = abs b ++ l /\ _position b' = _position b
     /\ _length b' mod multiple = 0 /\ Z.of_nat (length l) < multiple
     /\ (style = BITIO_FILL_ZEROS -> forall x, x ∈ l -> x = false)
     /\ (style = BITIO_FILL_ONES -> forall x, x ∈ l -> x = true)).
Proof.
  intros Hrand Hb Hf Hn Hm. pose proof (length_rest b Hb). split.
  - destruct (copyBits_run b n Hb Hf) as (r & Hr & Ha); [lia|lia|].
    apply appended_fresh in Ha as (? & ? & ? & _). exists r. done.
  - destruct (padWidth_run rand multiple style b Hrand Hb Hm) as (l & b' & Hr & (? & ? & ? & _) & ?).
    exists l, b'. split_and!; try done; tauto.
Qed.

(** ** Encodings *)

(** the character-set encodings accept exactly their texts and the decoder, given the
    number of characters, returns the text: alpha and 3B40 unchanged, hex in
    lower case.  A text outside the set makes the encoder throw, and so does a
    3B40 text whose single last character has a code above 31. *)
Theorem charset_codecs_roundtrip s (n := Z.of_nat (length (chars s))) :
  (if bool_decide (Forall (fun c => c ∈ chars BITIO_CHARSET_ALPHA) (chars s))
   then exists l, built (makeAlphaString s) l /\ reads (getAlphaString n) l s
   else exists e, makeAlphaString s = Throw e)
  /\ (if bool_decide (Forall (fun c => c ∈ chars BITIO_CHARSET_3B40) (chars s) /\ b40_tail_fits s)
      then exists l, built (make3B40String s) l /\ reads (get3B40String n) l s
      else exists e, make3B40String s = Throw e)
  /\ (if bool_decide (Forall (fun c => tolower c ∈ chars BITIO_CHARSET_HEX) (chars s))
      then exists l, built (makeHexString s) l
             /\ reads (getHexString n) l (str (map tolower (chars s)))
      else exists e, makeHexString s = Throw e).
Proof.
  split_and!; case_bool_decide as H.
  - exists (alpha_code (chars s)). split; [by apply makeAlphaString_built|by apply getAlphaString_reads].
  - by apply makeAlphaString_error.
  - destruct H. exists (b40_code (chars s)).
    split; [by apply make3B40String_built|by apply get3B40String_reads].
  - by apply make3B40String_error.
  - exists (hex_code s). split; [by apply makeHexString_built|by apply getHexString_reads].
  - by apply makeHexString_error.
Qed.

(** packed UTF-8: for a text made of UTF-8 sequences (except those with lead byte 0xDF
    or 0xEF) [stringLength] counts the code points, and decoding that many code
    points from the encoding gives the text back byte for byte. *)
Theorem utf8_roundtrip css :
  Forall packed_char css ->
  let message := str (concat css) in
  stringLength message = Z.of_nat (length css)
  /\ exists l, built (makeUTF8String message) l /\ reads (getUTF8String (stringLength message)) l message.
Proof.
  intros H message. pose proof (stringLength_packed css H) as Hl. split; [done|].
  exists (concat (map packed_code css)). unfold message. rewrite Hl.
  split; [by apply makeUTF8String_built|by apply getUTF8String_reads].
Qed.

(** with the default options [makeBestString] succeeds on every such text whose length
    fits the length field, and [getBestString] reads it back, whichever encoder
    was the shortest; hexadecimal text must be in lower case. *)
Theorem bestString_roundtrip css lengthBits :
  Forall packed_char css -> 1 <= lengthBits <= 64 ->
  Z.of_nat (length css) < 2 ^ lengthBits -> Z.of_nat (length (concat css)) < 2 ^ 58 ->
  (Forall is_hex (concat css) -> Forall (fun c => tolower c = c) (concat css)) ->
  let message := str (concat css) in
  exists r, makeBestString message lengthBits defaultHeaderOptions = Ok r /\ wf r
    /\ getBestString lengthBits defaultHeaderOptions r = (Ok message, set_position (_length r) r).
Proof.
  intros H Hlb Hc Hs Hlow message.
  destruct (makeBestString_default css lengthBits H Hlb Hc Hs Hlow) as (r & Hr & Hw & Hp & Hl & Hreads).
  exists r. split_and!; [done|done|]. rewrite (Hreads r []); [|done|unfold fits, two64; lia|].
  - unfold advance. rewrite Hp. by rewrite length_abs_Z.
  - unfold rest. by rewrite Hp, app_nil_r.
Qed.

(** Fixed-precision integers: every amount up to 2^54 - 1 other than 10^16 is encoded
    in at most seven bytes and decoded to itself; 10^16 and larger amounts than
    2^54 - 1 are refused. *)
Theorem fixed_precision_roundtrip value :
  0 <= value < two64 ->
  if bool_decide (value <= 18014398509481983 /\ value <> 10 ^ 16)
  then exists l, built (makeFixedPrecision value) l /\ (length l <= 56)%nat
         /\ reads getFixedPrecision l value
  else exists what, makeFixedPrecision value = Throw (out_of_range what).
Proof.
  intros Hv. case_bool_decide as H.
  - destruct (fixed_precision_codec value) as (l & ? & ? & ?); [lia|tauto|]. eauto.
  - by apply makeFixedPrecision_refused.
Qed.

(** xBit codes: a valid value (key of the given width, not zero) is written as depth
    times that many zeros and the key, and read back with its depth. *)
Theorem xbit_roundtrip x :
  xbit_valid x ->
  built (makeXBit x) (zeros (depth x * xBitLength x) ++ Zbits (xBitLength x) (key x))
  /\ reads (getXBit (xBitLength x)) (zeros (depth x * xBitLength x) ++ Zbits (xBitLength x) (key x)) x.
Proof. intros H. split; [by apply makeXBit_built|by apply getXBit_reads]. Qed.

(** Bitcoin pushes: the bytes overload and the stream overload of [makeBitcoin] write
    the same header, length and data; [checkIsBitcoinOpReturn] accepts exactly
    the OP_RETURN byte and otherwise restores the cursor; [getBitcoinDataHeader]
    recognises a push and leaves it in place; [getBitcoinData] and
    [copyBitcoinData] both return the pushed data. *)
Theorem bitcoin_push_roundtrip data :
  Forall is_byte data -> 1 <= Z.of_nat (length data) < two32 ->
  let push := push_code (Z.of_nat (length data)) ++ bytes_code data in
  (forall op, built (makeBitcoin_bytes data op) (op_return_code op ++ push))
  /\ (forall op, exists b', makeBitcoin_BitIO op (mkBitIO (load_bytes data 0 64 []) 0 (8 * Z.of_nat (length data)))
        = (Ok tt, b') /\ abs b' = op_return_code op ++ push)
  /\ reads getBitcoinData push data
  /\ (forall b r, wf b -> fits b -> rest b = push ++ r ->
        getBitcoinDataHeader b = (Ok BITIO_BITCOIN_TYPE_DATA, b)
        /\ exists res, copyBitcoinData b = (Ok res, advance (Z.of_nat (length push)) b)
             /\ abs res = bytes_code data /\ _position res = 0)
  /\ (forall b, wf b -> fits b ->
        checkIsBitcoinOpReturn b
        = if bool_decide (take 8 (rest b) = op_return_code true)
          then (Ok true, advance 8 b) else (Ok false, b)).
Proof.
  intros Hd Hn push. split_and!.
  - intros op. apply makeBitcoin_bytes_built; [done|lia].
  - intros op. destruct (appended_fresh _ _ (of_bytes_run data Hd)) as (Hw & _ & Ha & _ & _).
    match type of Hw with wf ?b => set (b0 := b) in * end.
    assert (_length b0 / 8 = Z.of_nat (length data)) as Hdiv by (simpl; lia).
    destruct (makeBitcoin_BitIO_run b0 op Hw) as (b' & Hr & _ & Hb' & _); [simpl; lia|lia|].
    rewrite Hdiv, Ha in Hb'. eauto.
  - by apply getBitcoinData_reads.
  - intros b r Hw Hf Hr. unfold push in Hr. rewrite <- app_assoc in Hr. split.
    + by eapply getBitcoinDataHeader_data.
    + destruct (copyBitcoinData_run b (bytes_code data) r (Z.of_nat (length data)))
        as (res & ? & ? & ? & ?); [done|done|done|rewrite length_bytes_code; lia|done|]. eauto.
  - intros b Hw Hf. by apply checkIsBitcoinOpReturn_run.
Qed.

(** ** Safety of the decoders *)
Lemma reader_getHexString n : reader true 0 (getHexString n).
Proof.
  apply reader_bind'; [|intros; apply reader_ret]. apply reader_for_items.
  apply (reader_weaken _ (4 + 0)); [|lia].
  apply (reader_bind_returns _ _ _ _ _ _ (reader_getBits true 4 ltac:(lia)) (getBits_range 4 ltac:(lia))).
  intros v Hv. apply reader_bind'; [apply reader_char_at; simpl; lia|intros; apply reader_ret].
Qed.

Lemma reader_getUTF8String n : reader true 0 (getUTF8String n).
Proof.
  apply reader_bind'; [|intros; apply reader_ret]. apply reader_for_items. unfold utf8_item.
  assert (forall k (f : Z -> M BitIO (list ascii)), 0 <= k ->
    (forall v, reader true 0 (f v)) -> reader true 0 (x ← getBits k; f x)) as Hstep.
  { intros k f Hk Hf. apply (reader_weaken _ (k + 0)); [|lia]. apply reader_bind; [by apply reader_getBits|done]. }
  apply (reader_bind' true 1); [by apply reader_getBits|]. intros h1.
  repeat first [apply reader_ret | apply reader_if | (apply Hstep; [lia|intros])].
Qed.

(** The items of both texts stay inside their tables (the terminating zero
    included); only a trailing code of six or eleven bits may be beyond it. *)
Lemma reader_getAlphaString n : reader (n mod 2 =? 0) 0 (getAlphaString n).
Proof.
  apply (reader_bind _ 0 0).
  - apply reader_defined, reader_for_items. apply (reader_weaken _ (11 + 0)); [|lia].
    apply (reader_bind_returns _ _ _ _ _ _ (reader_getBits true 11 ltac:(lia)) (getBits_range 11 ltac:(lia))). intros v Hv.
    assert (Z.of_nat (length (chars BITIO_CHARSET_ALPHA)) = 45) as E by done.
    do 2 (apply reader_bind'; [apply reader_char_at; rewrite E; lia|intros ?]). apply reader_ret.
  - intros l. apply reader_if_known; [|intros _; apply reader_ret].
    intros Hodd. rewrite (proj2 (Z.eqb_neq (n mod 2) 0)) by lia.
    apply (reader_weaken _ (6 + 0)); [|lia]. apply reader_bind; [by apply reader_getBits|]. intros v.
    apply reader_bind'; [apply reader_char_at_any|intros; apply reader_ret].
Qed.

Lemma reader_get3B40String n : reader (negb (n mod 3 =? 2)) 0 (get3B40String n).
Proof.
  assert (Z.of_nat (length (chars BITIO_CHARSET_3B40)) = 40) as E by done.
  apply (reader_bind _ 0 0).
  - apply reader_defined, reader_for_items. apply (reader_weaken _ (16 + 0)); [|lia].
    apply (reader_bind_returns _ _ _ _ _ _ (reader_getBits true 16 ltac:(lia)) (getBits_range 16 ltac:(lia))). intros v Hv.
    do 3 (apply reader_bind'; [apply reader_char_at; rewrite E; lia|intros ?]). apply reader_ret.
  - intros l. apply reader_if_known; intros H1; [|apply reader_if_known; intros H2; [|apply reader_ret]].
    + apply reader_defined, (reader_weaken _ (5 + 0)); [|lia].
      apply (reader_bind_returns _ _ _ _ _ _ (reader_getBits true 5 ltac:(lia)) (getBits_range 5 ltac:(lia))). intros v Hv.
      apply reader_bind'; [apply reader_char_at; rewrite E; lia|intros; apply reader_ret].
    + rewrite (proj2 (Z.eqb_eq (n mod 3) 2)) by lia. apply (reader_weaken _ (11 + 0)); [|lia].
      apply reader_bind; [by apply reader_getBits|]. intros v.
      do 2 (apply reader_bind'; [apply reader_char_at_any|intros ?]). apply reader_ret.
Qed.

Lemma reader_allowed d k m : reader d k m -> reader (A := string) false k m.
Proof.
  intros Hm b Hw Hf. destruct (Hm b Hw Hf) as (o & p & H1 & H2 & H3 & _ & H4). by exists o, p.
Qed.

Lemma reader_getBestString lengthBits front options :
  0 <= lengthBits -> 0 <= xBitLength (header front) ->
  reader false 0 (getBestString lengthBits (front :: options)).
Proof.
  intros Hl Hx. unfold getBestString.
  apply (reader_weaken _ (xBitLength (header front) + 0)); [|lia].
  apply reader_bind; [by apply reader_getXBit|]. intros h.
  apply (reader_weaken _ (lengthBits + 0)); [|lia].
  apply reader_bind; [by apply reader_getBits|]. intros n.
  destruct (list_find _ _) as [[? o]|]; [|apply reader_throw].
  repeat (apply reader_if;
    [first [eapply reader_allowed, reader_getAlphaString | eapply reader_allowed, reader_get3B40String
           | apply reader_defined, reader_getUTF8String | apply reader_defined, reader_getHexString]|]).
  apply reader_throw.
Qed.

(** C39: decoding arbitrary data ends and moves nothing but the cursor: on every
    well-formed stream each decoder returns or throws, and keeps the cursor
    inside the data. Numbers, pushes, hex and UTF-8 texts are free of undefined
    behaviour, and amounts, xBit codes and pushes consume at least their
    shortest encoding. An alpha text is free of it when its length is even, a
    3B40 text when its length is not 2 modulo 3; a trailing code of the other
    lengths may be beyond the character table ([alpha_tail_undefined],
    [b40_tail_undefined]), also in a best string, whose length is in the data. *)
Theorem decoders_safe (n : Z) (front : stringHeaderOption) options :
  0 <= n -> 0 <= xBitLength (header front) ->
  reader true n (getBits n) /\ reader true n (getXBit n)
  /\ reader true 0 (getHexString n) /\ reader true 0 (getUTF8String n)
  /\ reader true 8 getFixedPrecision
  /\ reader true 0 getBitcoinDataHeader /\ reader true 8 getBitcoinData
  /\ reader (n mod 2 =? 0) 0 (getAlphaString n) /\ reader (negb (n mod 3 =? 2)) 0 (get3B40String n)
  /\ reader false 0 (getBestString n (front :: options)).
Proof.
  intros Hn Hx. split_and!.
  - by apply reader_getBits.
  - by apply reader_getXBit.
  - apply reader_getHexString.
  - apply reader_getUTF8String.
  - apply reader_getFixedPrecision.
  - apply reader_getBitcoinDataHeader.
  - apply reader_getBitcoinData.
  - apply reader_getAlphaString.
  - apply reader_get3B40String.
  - by apply reader_getBestString.
Qed.

(** ** Concrete instances *)
Definition sample (data : list Z) (p : Z) : BitIO :=
  set_position p (mkBitIO (load_bytes data 0 64 []) 0 (8 * Z.of_nat (length data))).

Lemma wf_sample data p :
  forallb (fun v => (0 <=? v) && (v <? 256)) data = true ->
  0 <= p <= 8 * Z.of_nat (length data) -> wf (sample data p).
Proof.
  intros H Hp. assert (Forall is_byte data) as Hd.
  { apply Forall_forall. intros v Hv%list_elem_of_In.
    apply (proj1 (forallb_forall _ _) H) in Hv. unfold is_byte. lia. }
  apply wf_set_position; [by apply (appended_fresh _ _ (of_bytes_run data Hd))|done].
Qed.

Lemma is_byte_list data :
  forallb (fun v => (0 <=? v) && (v <? 256)) data = true -> Forall is_byte data.
Proof.
  intros H. apply Forall_forall. intros v Hv%list_elem_of_In.
  apply (proj1 (forallb_forall _ _) H) in Hv. unfold is_byte. lia.
Qed.

Lemma BitIO_of_bytes_spec_witness :
  Forall is_byte [165; 240] /\ exists b, BitIO_of_bytes [165; 240] 12 = Ok b /\ wf b
    /\ abs b = Zbits 12 2655.
Proof.
  assert (Forall is_byte [165; 240]) as Hd by (by apply is_byte_list).
  pose proof (BitIO_of_bytes_spec [165; 240] 12 Hd ltac:(lia)) as (Hw & Hp & _ & Hb & _).
  split; [exact Hd|]. eexists. split; [reflexivity|]. split; [exact Hw|].
  destruct Hb as [_ ->]; [discriminate|]. reflexivity.
Defined.

Lemma getBits_spec_witness :
  wf (sample [165; 240; 1] 4) /\ fits (sample [165; 240; 1] 4)
  /\ getBits 8 (sample [165; 240; 1] 4) = (Ok 95, sample [165; 240; 1] 12).
Proof.
  assert (wf (sample [165; 240; 1] 4)) as Hw by (by apply wf_sample).
  split; [exact Hw|]. split; [reflexivity|].
  pose proof (getBits_spec (sample [165; 240; 1] 4) 8 Hw eq_refl ltac:(lia)) as H.
  rewrite bool_decide_eq_true_2 in H by (vm_compute; split; [split|]; discriminate).
  rewrite H. vm_compute. reflexivity.
Defined.

Lemma checkBits_spec_witness :
  wf (sample [165] 0) /\ checkBits 10 4 (sample [165] 0) = (Ok true, sample [165] 0).
Proof.
  assert (wf (sample [165] 0)) as Hw by (by apply wf_sample).
  split; [exact Hw|].
  pose proof (checkBits_spec (sample [165] 0) 10 4 Hw eq_refl ltac:(lia)) as H.
  rewrite bool_decide_eq_false_2, bool_decide_eq_true_2 in H by (lia || (vm_compute; discriminate)).
  rewrite H. vm_compute. reflexivity.
Defined.

Lemma appendBits_spec_witness :
  wf (sample [165] 0) /\ exists b', appendBits 5 3 (sample [165] 0) = (Ok tt, b')
    /\ wf b' /\ abs b' = abs (sample [165] 0) ++ Zbits 3 5 /\ _position b' = 0.
Proof.
  assert (wf (sample [165] 0)) as Hw by (by apply wf_sample).
  split; [exact Hw|].
  pose proof (appendBits_spec (sample [165] 0) 5 3 Hw ltac:(unfold two64; lia) ltac:(lia)) as H.
  rewrite bool_decide_eq_true_2 in H by lia. exact H.
Defined.

Lemma setBits_spec_witness :
  wf (sample [165] 6) /\ exists b', setBits 5 3 (sample [165] 6) = (Ok tt, b') /\ wf b'
    /\ _position b' = 9
    /\ abs b' = take 6 (abs (sample [165] 6)) ++ Zbits 3 5 ++ drop 9 (abs (sample [165] 6)).
Proof.
  assert (wf (sample [165] 6)) as Hw by (by apply wf_sample).
  split; [exact Hw|].
  pose proof (setBits_spec (sample [165] 6) 5 3 Hw ltac:(unfold two64; lia) ltac:(lia)) as H.
  rewrite bool_decide_eq_true_2, bool_decide_eq_false_2 in H by lia. exact H.
Defined.

Lemma insertBits_spec_witness :
  wf (sample [165] 4) /\ exists b', insertBits 5 3 (sample [165] 4) = (Ok tt, b') /\ wf b'
    /\ _position b' = 7
    /\ abs b' = take 4 (abs (sample [165] 4)) ++ Zbits 3 5 ++ drop 4 (abs (sample [165] 4)).
Proof.
  assert (wf (sample [165] 4)) as Hw by (by apply wf_sample).
  split; [exact Hw|].
  pose proof (insertBits_spec (sample [165] 4) 5 3 Hw ltac:(unfold two64; lia) ltac:(lia)) as H.
  rewrite bool_decide_eq_true_2 in H by lia. exact H.
Defined.

Lemma stream_operations_spec_witness :
  wf (sample [165] 4) /\ wf (sample [240] 0) /\ exists b',
    insertBits_BitIO (sample [165] 4, sample [240] 0) = (Ok tt, (b', sample [240] 0))
    /\ abs b' = take 4 (abs (sample [165] 4)) ++ abs (sample [240] 0) ++ drop 4 (abs (sample [165] 4)).
Proof.
  assert (wf (sample [165] 4)) as Hb by (by apply wf_sample).
  assert (wf (sample [240] 0)) as Hv by (by apply wf_sample).
  split; [exact Hb|]. split; [exact Hv|].
  destruct (stream_operations_spec (sample [165] 4) (sample [240] 0) Hb Hv eq_refl)
    as (_ & _ & b' & H & _ & Ha & _).
  exists b'. split; [exact H|exact Ha].
Defined.

Lemma copy_and_pad_spec_witness :
  wf (sample [165; 15] 4) /\ exists l b',
    padWidth (fun _ => 7) 12 BITIO_FILL_ONES (sample [165; 15] 4) = (Ok tt, b')
    /\ abs b' = abs (sample [165; 15] 4) ++ l /\ _length b' mod 12 = 0.
Proof.
  assert (wf (sample [165; 15] 4)) as Hw by (by apply wf_sample).
  split; [exact Hw|].
  destruct (copy_and_pad_spec (fun _ => 7) (sample [165; 15] 4) 8 12 BITIO_FILL_ONES) as
    (_ & l & b' & H & _ & Ha & _ & Hm & _); [intros; unfold two64; lia|exact Hw|reflexivity|split; vm_compute; discriminate|lia|].
  exists l, b'. split; [exact H|]. split; [exact Ha|exact Hm].
Defined.

Lemma utf8_roundtrip_witness :
  Forall packed_char [["195"%char; "169"%char]; ["a"%char]]
  /\ stringLength (str ["195"%char; "169"%char; "a"%char]) = 2.
Proof.
  assert (Forall packed_char [["195"%char; "169"%char]; ["a"%char]]) as H.
  { apply List.Forall_cons; [apply packed2; [vm_compute|vm_compute]; split; discriminate || reflexivity|].
    apply List.Forall_cons; [apply packed1; reflexivity|apply List.Forall_nil]. }
  split; [exact H|]. exact (proj1 (utf8_roundtrip _ H)).
Defined.

Lemma bestString_roundtrip_witness :
  exists r, makeBestString (str ["h"%char; "i"%char]) 8 defaultHeaderOptions = Ok r
    /\ wf r /\ getBestString 8 defaultHeaderOptions r = (Ok (str ["h"%char; "i"%char]), set_position (_length r) r).
Proof.
  assert (Forall packed_char [["h"%char]; ["i"%char]]) as H.
  { apply List.Forall_cons; [apply packed1; reflexivity|].
    apply List.Forall_cons; [apply packed1; reflexivity|apply List.Forall_nil]. }
  apply (bestString_roundtrip [["h"%char]; ["i"%char]] 8 H); [lia|reflexivity|reflexivity|].
  intros _. apply List.Forall_cons; [reflexivity|]. apply List.Forall_cons; [reflexivity|apply List.Forall_nil].
Defined.

Lemma fixed_precision_roundtrip_witness :
  exists l, built (makeFixedPrecision 1500000) l /\ (length l <= 56)%nat
    /\ reads getFixedPrecision l 1500000.
Proof.
  pose proof (fixed_precision_roundtrip 1500000 ltac:(unfold two64; lia)) as H.
  rewrite bool_decide_eq_true_2 in H by lia. exact H.
Defined.

Lemma xbit_roundtrip_witness :
  xbit_valid (mk_xBitValue 2 3 2)
  /\ built (makeXBit (mk_xBitValue 2 3 2)) [false; false; false; false; true; true].
Proof.
  assert (xbit_valid (mk_xBitValue 2 3 2)) as H by (unfold xbit_valid, two64; simpl; lia).
  split; [exact H|]. exact (proj1 (xbit_roundtrip _ H)).
Defined.

Lemma bitcoin_push_roundtrip_witness :
  Forall is_byte [1; 2; 255]
  /\ reads getBitcoinData (Zbits 8 3 ++ Zbits 8 1 ++ Zbits 8 2 ++ Zbits 8 255 ++ []) [1; 2; 255].
Proof.
  assert (Forall is_byte [1; 2; 255]) as H by (by apply is_byte_list).
  split; [exact H|].
  exact (proj1 (proj2 (proj2 (bitcoin_push_roundtrip [1; 2; 255] H ltac:(simpl; unfold two32; lia))))).
Defined.

(** Bytes that are no text, read from the sixth bit on *)
Definition noise : BitIO := sample [252; 127; 17; 3; 200; 90] 5.
Lemma decoders_safe_witness :
  wf noise /\ fits noise
  /\ (exists s p, getAlphaString 2 noise = (Ok s, set_position p noise) /\ p <= 48)
  /\ (exists e p, get3B40String 9 noise = (Throw e, set_position p noise) /\ p <= 48)
  /\ exists v p, getFixedPrecision noise = (Ok v, set_position p noise) /\ 13 <= p <= 48.
Proof.
  assert (wf noise) as Hw by (by apply wf_sample). assert (fits noise) as Hf by reflexivity.
  split; [exact Hw|]. split; [exact Hf|]. split; [|split].
  - destruct (decoders_safe 2 (mk_option (mk_xBitValue 0 1 2) 0) []) as (_ & _ & _ & _ & _ & _ & _ & Ha & _); [lia|simpl; lia|].
    destruct (Ha noise Hw Hf) as (o & p & E & Hp & _ & Hu & _). specialize (Hu eq_refl).
    assert (is_ok (getAlphaString 2 noise).1 = true) as Eo by (vm_compute; reflexivity).
    rewrite E in Eo. destruct o as [s| | |]; [|discriminate Eo..]. exists s, p. split; [exact E|apply Hp].
  - destruct (decoders_safe 9 (mk_option (mk_xBitValue 0 1 2) 0) []) as (_ & _ & _ & _ & _ & _ & _ & _ & Hb & _); [lia|simpl; lia|].
    destruct (Hb noise Hw Hf) as (o & p & E & Hp & Hfu & Hu & _). specialize (Hu eq_refl).
    assert (is_ok (get3B40String 9 noise).1 = false) as Eo by (vm_compute; reflexivity).
    rewrite E in Eo. destruct o as [s|e| |]; [discriminate Eo| |by destruct Hu|by destruct Hfu]. exists e, p. split; [exact E|apply Hp].
  - destruct (decoders_safe 2 (mk_option (mk_xBitValue 0 1 2) 0) []) as (_ & _ & _ & _ & Hx & _); [lia|simpl; lia|].
    destruct (Hx noise Hw Hf) as (o & p & E & Hp & _ & _ & Hk).
    assert (is_ok (getFixedPrecision noise).1 = true) as Eo by (vm_compute; reflexivity).
    rewrite E in Eo. destruct o as [v| | |]; [|discriminate Eo..]. exists v, p. split; [exact E|]. split; [exact (Hk v eq_refl)|apply Hp].
Defined.

(** ** Behaviour outside the round trips *)

(** Upper-case hexadecimal text chooses the hex encoder and comes back in lower case. *)
Lemma bestString_loses_case :
  exists r, makeBestString "ABCDEF" 8 defaultHeaderOptions = Ok r
    /\ fst (getBestString 8 defaultHeaderOptions r) = Ok "abcdef"%string.
Proof. eexists. split; [vm_compute; reflexivity|vm_compute; reflexivity]. Qed.

(** 10^16 needs exponent 16, which the 4-bit field does not hold. *)
Lemma makeFixedPrecision_refuses_10_16 :
  makeFixedPrecision (10 ^ 16) = Throw (out_of_range "value must be smaller than length bits").
Proof. vm_compute. reflexivity. Qed.

(** The product of mantissa and power wraps: 2^42 - 1 times 10^7. *)
Lemma getFixedPrecision_wraps :
  exists r, BitIO_of_bytes [191; 255; 255; 255; 255; 255] 0 = Ok r
    /\ fst (getFixedPrecision r) = Ok ((4398046511103 * 10 ^ 7) mod two64)
    /\ (4398046511103 * 10 ^ 7) mod two64 <> 4398046511103 * 10 ^ 7.
Proof.
  eexists. split; [vm_compute; reflexivity|].
  split; [vm_compute; reflexivity|vm_compute; discriminate].
Qed.

(** A 3B40 text whose last, single character is "w" or later is refused. *)
Lemma make3B40String_refuses_last_character :
  make3B40String "abcw" = Throw (out_of_range "value must be smaller than length bits").
Proof. vm_compute. reflexivity. Qed.

(** Tail values above the character set index outside it. *)
Lemma alpha_tail_undefined :
  exists r, BitIO_of_bytes [252] 0 = Ok r /\ fst (getAlphaString 1 r) = UB.
Proof. eexists. split; [vm_compute; reflexivity|vm_compute; reflexivity]. Qed.

Lemma b40_tail_undefined :
  exists r, BitIO_of_bytes [255; 255] 0 = Ok r /\ fst (get3B40String 2 r) = UB /\ fst (get3B40String 1 r) = Ok "v"%string.
Proof. eexists. split; [vm_compute; reflexivity|split; vm_compute; reflexivity]. Qed.

(** The two-byte sequence with lead 0xDF is taken for a three-byte one and dropped. *)
Lemma utf8_DF_dropped :
  exists r, makeUTF8String (str ["223"%char; "191"%char]) = Ok r /\ _length r = 0.
Proof. eexists. split; [vm_compute; reflexivity|vm_compute; reflexivity]. Qed.
