(* ===== verification/Serialize.v ===== *)
(** Serialize: the byte-buffer (de)serialization of src/src/serialize.h.

    [serialize buf x] is the C++ [serialize(buf, x)], which only appends to
    the buffer; [deserialize alloc data] runs on the cursor [i].  The overload
    set is a type class; its laws, [SerializeLaws], are what the clients of the
    format rely on.  [alloc n] is the environment's answer to a [resize(n)]
    of a string or vector: a refused one throws. *)

From S2P Require Import Prelude.
From S2P Require Import BitIO.
From S2P Require Import BitIOCodec.
From S2P Require Import BitIOText.

Ltac Zify.zify_post_hook ::= Z.div_mod_to_equations.

Class Serializable (T : Type) := {
  serialize : list Z -> T -> list Z;
  deserialize : (Z -> bool) -> list Z -> M Z T
}.

Definition past_end {A} : M Z A := throw (out_of_range "read past end of data").

(** ** uint8_t *)
Definition serialize_u8 (serializedData : list Z) (input : Z) : list Z := serializedData ++ [input].

Definition deserialize_u8 (serializedData : list Z) : M Z Z :=
  i ← get;
  if Z.of_nat (length serializedData) <=? i then past_end
  else output ← vec_at serializedData i; put (i + 1);; mret output.

(** ** uint64_t *)
Definition serialize_u64 (serializedData : list Z) (input : Z) : list Z :=
  foldl (fun data shift => data ++ [Z.land (shr64 input shift) 255]) serializedData
    [56; 48; 40; 32; 24; 16; 8] ++ [Z.land input 255].

Fixpoint deserialize_bytes (serializedData : list Z) (shifts : list Z) (output : Z) : M Z Z :=
  match shifts with
  | [] => mret output
  | shift :: shifts =>
      i ← get;
      byte ← vec_at serializedData i;
      put (i + 1);;
      deserialize_bytes serializedData shifts (u64 (output + shl64 byte shift))
  end.

Definition deserialize_u64 (serializedData : list Z) : M Z Z :=
  i ← get;
  if Z.of_nat (length serializedData) <? u64 (i + 8) then past_end
  else deserialize_bytes serializedData [56; 48; 40; 32; 24; 16; 8; 0] 0.

(** ** std::string *)
Definition serialize_string (serializedData : list Z) (input : string) : list Z :=
  foldl (fun data letter => serialize_u8 data (byteZ letter))
    (serialize_u64 serializedData (Z.of_nat (length (chars input)))) (chars input).

Fixpoint read_letters (fuel : nat) (serializedData : list Z) (count : Z) : M Z (list ascii) :=
  if count <=? 0 then mret []
  else match fuel with
  | O => out_of_fuel
  | S fuel =>
      i ← get;
      letter ← vec_at serializedData i;
      put (i + 1);;
      rest ← read_letters fuel serializedData (count - 1);
      mret (charZ letter :: rest)
  end.

Definition deserialize_string (alloc : Z -> bool) (serializedData : list Z) : M Z string :=
  size ← deserialize_u64 serializedData;
  i ← get;
  if Z.of_nat (length serializedData) <? u64 (i + size) then past_end
  else if alloc size
  then letters ← read_letters (S (length serializedData)) serializedData size; mret (str letters)
  else throw length_error.

(** ** std::vector *)
Section vector.
Context {T : Type} `{Serializable T}.

Definition serialize_vector (serializedData : list Z) (input : list T) : list Z :=
  foldl serialize (serialize_u64 serializedData (Z.of_nat (length input))) input.

Fixpoint read_elements (fuel : nat) (alloc : Z -> bool) (serializedData : list Z) (count : Z)
    : M Z (list T) :=
  if count <=? 0 then mret []
  else match fuel with
  | O => out_of_fuel
  | S fuel =>
      value ← deserialize alloc serializedData;
      rest ← read_elements fuel alloc serializedData (count - 1);
      mret (value :: rest)
  end.

(** Every element takes at least one byte, so the length of the data bounds
    the turns before a read past the end throws. *)
Definition deserialize_vector (alloc : Z -> bool) (serializedData : list Z) : M Z (list T) :=
  size ← deserialize_u64 serializedData;
  if alloc size then read_elements (S (length serializedData)) alloc serializedData size
  else throw length_error.
End vector.

#[export] Instance string_serializable : Serializable string := {
  serialize := serialize_string;
  deserialize := deserialize_string
}.
#[export] Instance vector_serializable {T} `{Serializable T} : Serializable (list T) := {
  serialize := serialize_vector;
  deserialize := deserialize_vector
}.

(** ** The laws *)

(** The environment grants every resize to no more elements than there are bytes. *)
Definition grants (alloc : Z -> bool) (data : list Z) : Prop :=
  forall n, 0 <= n <= Z.of_nat (length data) -> alloc n = true.

(** [d] reads [x] from the bytes [bytes], anywhere in a buffer. *)
Definition decodes {T} (d : (Z -> bool) -> list Z -> M Z T) (bytes : list Z) (x : T) : Prop :=
  forall alloc pre post, let data := pre ++ bytes ++ post in
    grants alloc data -> Z.of_nat (length data) < 2 ^ 62 ->
    d alloc data (Z.of_nat (length pre)) = (Ok x, Z.of_nat (length (pre ++ bytes))).

Class SerializeLaws (T : Type) `{Serializable T} (valid : T -> Prop) := {
  serialize_appends : forall buf x, serialize buf x = buf ++ serialize [] x;
  deserialize_serialize : forall x, valid x -> decodes deserialize (serialize [] x) x;
  serialize_nonempty : forall x, serialize [] x <> []
}.

Definition valid_u64 (x : Z) : Prop := 0 <= x < two64.
Definition valid_string (s : string) : Prop := Z.of_nat (length (chars s)) < two64.

(** ** Composition *)
Section compose.
Context {A B : Type}.

Lemma decodes_ret (a : A) : decodes (fun _ _ => mret a) [] a.
Proof. intros alloc pre post data _ _. by rewrite app_nil_r. Qed.

Lemma decodes_bind (d : (Z -> bool) -> list Z -> M Z A) (f : A -> (Z -> bool) -> list Z -> M Z B)
    b1 b2 a b :
  decodes d b1 a -> decodes (f a) b2 b ->
  decodes (fun alloc data => x ← d alloc data; f x alloc data) (b1 ++ b2) b.
Proof.
  intros Hd Hf alloc pre post data Hg Hl.
  pose proof (Hd alloc pre (b2 ++ post)) as H1. pose proof (Hf alloc (pre ++ b1) post) as H2.
  cbv zeta in H1, H2. subst data. rewrite <- !app_assoc in *.
  rewrite (bind_ok _ _ _ _ _ (H1 Hg Hl)). by apply H2.
Qed.
End compose.

Lemma lookup_middle {A} (pre post : list A) x :
  (pre ++ x :: post) !! length pre = Some x.
Proof. by rewrite list_lookup_middle. Qed.

Lemma vec_at_middle {S} (pre post : list Z) x (s : S) :
  vec_at (pre ++ x :: post) (Z.of_nat (length pre)) s = (Ok x, s).
Proof.
  unfold vec_at. rewrite (proj2 (Z.leb_le 0 _)) by lia. by rewrite Nat2Z.id, lookup_middle.
Qed.

(** *** Bytes and words *)
Lemma serialize_u8_reads x : decodes (fun _ => deserialize_u8) [x] x.
Proof.
  intros alloc pre post data Hg Hl. subst data. unfold deserialize_u8, mbind, M_bind, get, put.
  rewrite (proj2 (Z.leb_gt _ _)) by (rewrite !length_app; simpl; lia).
  change ([x] ++ post) with (x :: post). rewrite vec_at_middle.
  unfold mret, M_ret. do 2 f_equal. rewrite length_app. simpl. lia.
Qed.

Definition u64_bytes (x : Z) : list Z :=
  map (fun s => Z.land (shr64 x s) 255) [56; 48; 40; 32; 24; 16; 8] ++ [Z.land x 255].

Lemma serialize_u64_appends buf x : serialize_u64 buf x = buf ++ u64_bytes x.
Proof. unfold serialize_u64, u64_bytes. simpl. by rewrite <- !app_assoc. Qed.

Lemma length_u64_bytes x : length (u64_bytes x) = 8%nat.
Proof. reflexivity. Qed.

Lemma land_255 x : Z.land x 255 = x mod 256.
Proof. apply (Z.land_ones x 8). lia. Qed.

Lemma deserialize_bytes_run shifts : forall bytes pre post output,
  length bytes = length shifts ->
  deserialize_bytes (pre ++ bytes ++ post) shifts output (Z.of_nat (length pre))
  = (Ok (foldl (fun acc '(b, s) => u64 (acc + shl64 b s)) output (zip bytes shifts)),
     Z.of_nat (length (pre ++ bytes))).
Proof.
  induction shifts as [|s shifts IH]; intros [|b bytes] pre post output Hl; simpl in Hl; try lia.
  - by rewrite app_nil_r.
  - cbn [deserialize_bytes]. unfold mbind, M_bind, get, put.
    change ((b :: bytes) ++ post) with (b :: bytes ++ post). rewrite vec_at_middle.
    replace (Z.of_nat (length pre) + 1) with (Z.of_nat (length (pre ++ [b])))
      by (rewrite length_app; simpl; lia).
    replace (pre ++ b :: bytes ++ post) with ((pre ++ [b]) ++ bytes ++ post) by (by rewrite <- app_assoc).
    rewrite IH by lia. by rewrite <- app_assoc.
Qed.

(** Adding the byte at shift [s] to the bits above it. *)
Lemma u64_bytes_step x s :
  valid_u64 x -> 0 <= s <= 56 ->
  u64 (x / 2 ^ (s + 8) * 2 ^ (s + 8) + shl64 (Z.land (shr64 x s) 255) s) = x / 2 ^ s * 2 ^ s.
Proof.
  unfold valid_u64, shl64, shr64. intros Hx Hs.
  rewrite land_255, Z.shiftr_div_pow2, Z.shiftl_mul_pow2 by lia.
  rewrite Z.pow_add_r by lia. change (2 ^ 8) with 256.
  pose proof (Z.pow_pos_nonneg 2 s ltac:(lia) ltac:(lia)) as Hp.
  rewrite <- Z.div_div by lia.
  assert (0 <= x / 2 ^ s * 2 ^ s <= x) as Hd.
  { split; [apply Z.mul_nonneg_nonneg; [by apply Z.div_pos; lia|lia]|].
    rewrite Z.mul_comm. apply Z.mul_div_le. lia. }
  pose proof (Z.div_mod (x / 2 ^ s) 256 ltac:(lia)) as He.
  pose proof (Z.mod_pos_bound (x / 2 ^ s) 256 ltac:(lia)) as Hm.
  assert (0 <= x / 2 ^ s / 256) as Hq by (apply Z.div_pos; [apply Z.div_pos|]; lia).
  set (q := x / 2 ^ s) in *. set (r := q mod 256) in *. set (t := q / 256) in *. clearbody r t q.
  rewrite (u64_small (r * 2 ^ s)) by nia. rewrite u64_small by nia. nia.
Qed.

Lemma u64_bytes_value x :
  valid_u64 x ->
  foldl (fun acc '(b, s) => u64 (acc + shl64 b s)) 0
    (zip (u64_bytes x) [56; 48; 40; 32; 24; 16; 8; 0]) = x.
Proof.
  intros Hx. unfold u64_bytes. cbn [map app zip zip_with foldl].
  assert (forall s acc, 0 <= s <= 56 -> acc = x / 2 ^ (s + 8) * 2 ^ (s + 8) ->
    u64 (acc + shl64 (Z.land (shr64 x s) 255) s) = x / 2 ^ s * 2 ^ s) as Hs.
  { intros s acc ? ->. by apply u64_bytes_step. }
  change (Z.land x 255) with (Z.land (shr64 x 0) 255).
  rewrite (Hs 0); [by rewrite Z.div_1_r, Z.mul_1_r|lia|].
  do 6 (apply Hs; [lia|]). apply Hs; [lia|]. 
  unfold valid_u64 in Hx. by rewrite Z.div_small.
Qed.

Lemma serialize_u64_reads x :
  valid_u64 x -> decodes (fun _ => deserialize_u64) (u64_bytes x) x.
Proof.
  intros Hx alloc pre post data Hg Hl. subst data. unfold deserialize_u64.
  unfold mbind at 1, M_bind, get.
  rewrite !length_app, length_u64_bytes in *. 
  rewrite u64_small by (unfold two64; lia).
  rewrite (proj2 (Z.ltb_ge _ _)) by lia.
  rewrite deserialize_bytes_run by reflexivity.
  rewrite u64_bytes_value by done. by rewrite !length_app, length_u64_bytes.
Qed.

(** *** Strings *)
Definition string_bytes (s : string) : list Z :=
  u64_bytes (Z.of_nat (length (chars s))) ++ map byteZ (chars s).

Lemma serialize_string_appends buf s : serialize_string buf s = buf ++ string_bytes s.
Proof.
  unfold serialize_string, string_bytes. rewrite serialize_u64_appends.
  rewrite app_assoc. generalize (buf ++ u64_bytes (Z.of_nat (length (chars s)))).
  induction (chars s) as [|c l IH]; intros b; simpl; [by rewrite app_nil_r|].
  rewrite IH. unfold serialize_u8. by rewrite <- app_assoc.
Qed.

Lemma read_letters_run l : forall fuel pre post,
  (length l <= fuel)%nat ->
  read_letters fuel (pre ++ map byteZ l ++ post) (Z.of_nat (length l)) (Z.of_nat (length pre))
  = (Ok l, Z.of_nat (length (pre ++ map byteZ l))).
Proof.
  induction l as [|c l IH]; intros fuel pre post Hf.
  - simpl. rewrite app_nil_r. by destruct fuel.
  - destruct fuel as [|fuel]; [simpl in Hf; lia|]. cbn [read_letters].
    rewrite (proj2 (Z.leb_gt _ _)) by (simpl; lia).
    unfold mbind, M_bind, get, put.
    change (map byteZ (c :: l) ++ post) with (byteZ c :: map byteZ l ++ post). rewrite vec_at_middle.
    replace (Z.of_nat (length pre) + 1) with (Z.of_nat (length (pre ++ [byteZ c])))
      by (rewrite length_app; simpl; lia).
    replace (Z.of_nat (length (c :: l)) - 1) with (Z.of_nat (length l)) by (simpl; lia).
    replace (pre ++ byteZ c :: map byteZ l ++ post) with ((pre ++ [byteZ c]) ++ map byteZ l ++ post)
      by (by rewrite <- app_assoc).
    rewrite IH by (simpl in Hf; lia). rewrite charZ_byteZ. by rewrite <- app_assoc.
Qed.

Lemma deserialize_string_reads s :
  valid_string s -> decodes deserialize_string (string_bytes s) s.
Proof.
  intros Hs alloc pre post data Hg Hl. subst data. unfold string_bytes in *.
  pose proof (serialize_u64_reads (Z.of_nat (length (chars s)))) as Hn.
  assert (valid_u64 (Z.of_nat (length (chars s)))) as Hv by (unfold valid_string, valid_u64 in *; lia).
  specialize (Hn Hv alloc pre (map byteZ (chars s) ++ post)). cbv zeta in Hn.
  rewrite <- app_assoc in *. unfold deserialize_string.
  rewrite (bind_ok _ _ _ _ _ (Hn Hg Hl)). unfold mbind at 1, M_bind, get.
  assert (length (map byteZ (chars s)) = length (chars s)) as Hm by apply length_map.
  rewrite !length_app, length_u64_bytes, Hm in *.
  rewrite u64_small by (unfold two64; lia). rewrite (proj2 (Z.ltb_ge _ _)) by lia.
  rewrite Hg by (rewrite !length_app, length_u64_bytes, Hm; lia).
  pose proof (read_letters_run (chars s) (S (length (pre ++ u64_bytes (Z.of_nat (length (chars s))) ++ map byteZ (chars s) ++ post)))
    (pre ++ u64_bytes (Z.of_nat (length (chars s)))) post) as Hr.
  rewrite <- !app_assoc in Hr. rewrite !length_app, length_u64_bytes, Hm in *.
  unfold mbind, M_bind. rewrite Hr by lia. unfold mret, M_ret. by rewrite str_chars.
Qed.

#[export] Instance string_laws : SerializeLaws string valid_string.
Proof.
  assert (forall x, serialize_string [] x = string_bytes x) as He
    by (intros x; by rewrite serialize_string_appends).
  split; simpl.
  - intros buf x. by rewrite He, serialize_string_appends.
  - intros x Hx. rewrite He. by apply deserialize_string_reads.
  - intros x. by rewrite He.
Qed.

(** *** Vectors *)
Section vector_laws.
Context {T : Type} `{H : Serializable T} {valid : T -> Prop} `{!SerializeLaws T valid}.

Definition vector_bytes (l : list T) : list Z :=
  u64_bytes (Z.of_nat (length l)) ++ concat (map (serialize []) l).

Lemma serialize_vector_appends buf l : serialize_vector buf l = buf ++ vector_bytes l.
Proof.
  unfold serialize_vector, vector_bytes. rewrite serialize_u64_appends, app_assoc.
  generalize (buf ++ u64_bytes (Z.of_nat (length l))).
  induction l as [|x l IH]; intros b; cbn [foldl map concat]; [by rewrite app_nil_r|].
  rewrite IH, (serialize_appends b). by rewrite <- app_assoc.
Qed.

Lemma length_elements (l : list T) : (length l <= length (concat (map (serialize []) l)))%nat.
Proof.
  induction l as [|x l IH]; [done|]. cbn [map concat length]. rewrite length_app.
  pose proof (serialize_nonempty x). destruct (serialize [] x); [done|]. simpl. lia.
Qed.

Lemma read_elements_run alloc l : forall fuel pre post,
  Forall valid l -> (length l <= fuel)%nat ->
  let data := pre ++ concat (map (serialize []) l) ++ post in
  grants alloc data -> Z.of_nat (length data) < 2 ^ 62 ->
  read_elements fuel alloc data (Z.of_nat (length l)) (Z.of_nat (length pre))
  = (Ok l, Z.of_nat (length (pre ++ concat (map (serialize []) l)))).
Proof.
  induction l as [|x l IH]; intros fuel pre post Hv Hf data Hg Hl; subst data.
  - cbn [map concat]. rewrite app_nil_r. by destruct fuel.
  - destruct fuel as [|fuel]; [simpl in Hf; lia|]. cbn [read_elements].
    rewrite (proj2 (Z.leb_gt _ _)) by (simpl; lia).
    apply list.Forall_cons in Hv as [Hx Hv]. cbn [map concat] in *. rewrite <- app_assoc in *.
    pose proof (deserialize_serialize x Hx alloc pre (concat (map (serialize []) l) ++ post) Hg Hl) as Hd.
    rewrite (bind_ok _ _ _ _ _ Hd).
    replace (Z.of_nat (length (x :: l)) - 1) with (Z.of_nat (length l)) by (simpl; lia).
    rewrite (app_assoc pre) in *.
    pose proof (IH fuel (pre ++ serialize [] x) post Hv ltac:(simpl in Hf; lia) Hg Hl) as Hr.
    rewrite (bind_ok _ _ _ _ _ Hr). by rewrite <- app_assoc.
Qed.

Definition valid_vector (l : list T) : Prop := Z.of_nat (length l) < two64 /\ Forall valid l.

Lemma deserialize_vector_reads l :
  valid_vector l -> decodes deserialize_vector (vector_bytes l) l.
Proof.
  intros [Hn Hv] alloc pre post data Hg Hl. subst data. unfold vector_bytes in *.
  pose proof (length_elements l) as He.
  rewrite <- app_assoc in *. unfold deserialize_vector.
  pose proof (serialize_u64_reads (Z.of_nat (length l)) ltac:(unfold valid_u64; lia) alloc pre
    (concat (map (serialize []) l) ++ post) Hg Hl) as H1.
  rewrite (bind_ok _ _ _ _ _ H1).
  rewrite Hg by (rewrite !length_app; lia).
  rewrite (app_assoc pre) in *.
  pose proof (read_elements_run alloc l
    (S (length ((pre ++ u64_bytes (Z.of_nat (length l))) ++ concat (map (serialize []) l) ++ post)))
    (pre ++ u64_bytes (Z.of_nat (length l))) post Hv) as H2.
  rewrite H2; [by rewrite <- app_assoc|rewrite !length_app; lia|done|done].
Qed.

#[export] Instance vector_laws : SerializeLaws (list T) valid_vector.
Proof.
  assert (forall x, serialize_vector [] x = vector_bytes x) as He
    by (intros x; by rewrite serialize_vector_appends).
  split; simpl.
  - intros buf x. by rewrite He, serialize_vector_appends.
  - intros x Hx. rewrite He. by apply deserialize_vector_reads.
  - intros x. by rewrite He.
Qed.
End vector_laws.
