(* ===== verification/AssetTypes.v ===== *)
(** AssetTypes: the value types of src/src/DigiAssetTypes.h with their comparisons
    and byte formats (DigiAssetTypes.cpp), the constants of
    DigiAssetConstants.h, and the members of DigiByteCore_Types.h's transaction
    structures that the asset layer reads. *)

From S2P Require Import Prelude.
From S2P Require Import BitIOCodec.
From S2P Require Import Serialize.

Ltac Zify.zify_post_hook ::= Z.div_mod_to_equations.

(** ** Transactions as the wallet reports them *)
Record vin_t := mk_vin {
  txid : string;
  out_n : Z;
  scriptSig_hex : string;
  txinwitness : list string
}.
Record scriptPubKey_t := mk_scriptPubKey { script_hex : string; script_type : string; addresses : list string }.
Record vout_t := mk_vout { valueS : Z; vout_n : Z; scriptPubKey : scriptPubKey_t }.
Record getrawtransaction_t := mk_getrawtransaction {
  tx_txid : string;
  tx_version : Z;
  tx_blockhash : string;
  tx_time : Z;
  vin : list vin_t;
  vout : list vout_t
}.

(** ** Signer *)
Module Signer.
Record t := mk { address : string; weight : Z }.

Definition eqb (a b : t) : bool :=
  bool_decide (address b = address a) && (weight b =? weight a).

Definition serialize (serializedData : list Z) (input : t) : list Z :=
  serialize_u64 (serialize_string serializedData (address input)) (weight input).

Definition deserialize (alloc : Z -> bool) (serializedData : list Z) : M Z t :=
  address ← deserialize_string alloc serializedData;
  weight ← deserialize_u64 serializedData;
  mret (mk address weight).
End Signer.

(** ** ExchangeRate: the name is not compared, nor anything of two disabled ones *)
Module ExchangeRate.
Record t := mk { address : string; index : Z; name : string }.

Definition empty : t := mk "" 0 "".
Definition enabled (r : t) : bool := negb (bool_decide (address r = "")).

Definition eqb (a b : t) : bool :=
  if negb (bool_decide (address b = address a)) then false
  else if bool_decide (address b = "") then true
  else index b =? index a.

Definition neqb (a b : t) : bool :=
  if bool_decide (address b = "") && bool_decide (address a = "") then false
  else negb (bool_decide (address b = address a) && (index b =? index a)).

Definition serialize (serializedData : list Z) (input : t) : list Z :=
  serialize_string (serialize_u8 (serialize_string serializedData (address input)) (index input))
    (name input).

Definition deserialize (alloc : Z -> bool) (serializedData : list Z) : M Z t :=
  address ← deserialize_string alloc serializedData;
  index ← deserialize_u8 serializedData;
  name ← deserialize_string alloc serializedData;
  mret (mk address index name).
End ExchangeRate.

(** ** Royalty *)
Module Royalty.
Record t := mk { address : string; amount : Z }.

Definition eqb (a b : t) : bool :=
  bool_decide (address b = address a) && (amount b =? amount a).

Definition serialize (serializedData : list Z) (input : t) : list Z :=
  serialize_u64 (serialize_string serializedData (address input)) (amount input).

Definition deserialize (alloc : Z -> bool) (serializedData : list Z) : M Z t :=
  address ← deserialize_string alloc serializedData;
  amount ← deserialize_u64 serializedData;
  mret (mk address amount).
End Royalty.

(** ** VoteOption: the label is not compared *)
Module VoteOption.
Record t := mk { address : string; label : string }.

Definition eqb (a b : t) : bool := bool_decide (address b = address a).

Definition serialize (serializedData : list Z) (input : t) : list Z :=
  serialize_string (serialize_string serializedData (address input)) (label input).

Definition deserialize (alloc : Z -> bool) (serializedData : list Z) : M Z t :=
  address ← deserialize_string alloc serializedData;
  label ← deserialize_string alloc serializedData;
  mret (mk address label).
End VoteOption.

(** [vector::operator==] with the elements' [operator==]. *)
Fixpoint vector_eqb {A} (eqb : A -> A -> bool) (l k : list A) : bool :=
  match l, k with
  | [], [] => true
  | x :: l, y :: k => eqb x y && vector_eqb eqb l k
  | _, _ => false
  end.

#[export] Instance signer_eq_dec : EqDecision Signer.t.
Proof. solve_decision. Defined.
#[export] Instance rate_eq_dec : EqDecision ExchangeRate.t.
Proof. solve_decision. Defined.
#[export] Instance royalty_eq_dec : EqDecision Royalty.t.
Proof. solve_decision. Defined.
#[export] Instance option_eq_dec' : EqDecision VoteOption.t.
Proof. solve_decision. Defined.

(** ** DigiAssetConstants *)
Definition DIGIBYTE_DUST : Z := 10000.
Definition DIGIDOLLAR_ACTIVATION_HEIGHT : Z := 23869440.
Definition DIGIDOLLAR_VERSION_MARKER : Z := 0x0770.
Definition DIGIDOLLAR_VERSION_MASK : Z := 0xFFFF.
Definition DIGIDOLLAR_ORACLE_EPOCH_LENGTH : Z := 40.

Definition standardExchangeRatesCount : Z := 20.
Definition standardExchangeRates : list ExchangeRate.t := [
  ExchangeRate.mk "dgb1qunxh378eltj2jrwza5sj9grvu5xud43vqvudwh" 0 "CAD";
  ExchangeRate.mk "dgb1qunxh378eltj2jrwza5sj9grvu5xud43vqvudwh" 1 "USD";
  ExchangeRate.mk "dgb1qunxh378eltj2jrwza5sj9grvu5xud43vqvudwh" 2 "EUR";
  ExchangeRate.mk "dgb1qunxh378eltj2jrwza5sj9grvu5xud43vqvudwh" 3 "GBP";
  ExchangeRate.mk "dgb1qunxh378eltj2jrwza5sj9grvu5xud43vqvudwh" 4 "AUD";
  ExchangeRate.mk "dgb1qunxh378eltj2jrwza5sj9grvu5xud43vqvudwh" 5 "JPY";
  ExchangeRate.mk "dgb1qunxh378eltj2jrwza5sj9grvu5xud43vqvudwh" 6 "CNY";
  ExchangeRate.mk "dgb1qunxh378eltj2jrwza5sj9grvu5xud43vqvudwh" 7 "TRY";
  ExchangeRate.mk "dgb1qunxh378eltj2jrwza5sj9grvu5xud43vqvudwh" 8 "BRL";
  ExchangeRate.mk "dgb1qunxh378eltj2jrwza5sj9grvu5xud43vqvudwh" 9 "CHF";
  ExchangeRate.mk "dgb1qlk3hldeynl3prqw259u8gv0jh7w5nwppxlvt3v" 0 "BTC";
  ExchangeRate.mk "dgb1qlk3hldeynl3prqw259u8gv0jh7w5nwppxlvt3v" 1 "ETH";
  ExchangeRate.mk "dgb1qlk3hldeynl3prqw259u8gv0jh7w5nwppxlvt3v" 2 "LTC";
  ExchangeRate.mk "dgb1qlk3hldeynl3prqw259u8gv0jh7w5nwppxlvt3v" 3 "DCR";
  ExchangeRate.mk "dgb1qlk3hldeynl3prqw259u8gv0jh7w5nwppxlvt3v" 4 "ZIL";
  ExchangeRate.mk "dgb1qlk3hldeynl3prqw259u8gv0jh7w5nwppxlvt3v" 5 "RVN";
  ExchangeRate.mk "dgb1qlk3hldeynl3prqw259u8gv0jh7w5nwppxlvt3v" 6 "XVG";
  ExchangeRate.mk "dgb1qlk3hldeynl3prqw259u8gv0jh7w5nwppxlvt3v" 7 "RDD";
  ExchangeRate.mk "dgb1qlk3hldeynl3prqw259u8gv0jh7w5nwppxlvt3v" 8 "NXS";
  ExchangeRate.mk "dgb1qlk3hldeynl3prqw259u8gv0jh7w5nwppxlvt3v" 9 "POT"
].

Definition standardVoteCount : Z := 50.
Definition standardVoteAddresses : list string := [
  "D8LWk1fGksGDxZai17A5wQUVsRiV69Nk7J";
  "DBJNvWeirccgeAdZn9gV5otheutdthzWxx";
  "D9zaWjGHuVNB32G7Pf5BMmtvDifdoS3Wsq";
  "DEKQEMFHTc1M8Gs4xvY6paZ5RKtE1cbqNp";
  "D8jnQigMYwhrB6Zjs73deF5RKprUdX5uvd";
  "DELKWiuSj86pMfDb7aDaAUhLYG8D7H6JVj";
  "DHUg85Pbc6mDK3y7kaWmsqjRaWfRVGys2U";
  "D9rxXUhaDxku4ZhdkLtyZzmmGG5ViUAYds";
  "DNehqnpzLWnv7vTTxkbHsneajBEzGjvLo2";
  "DAKiRnvVCfD4imp5A41tCeoZkezzkPXB4C";
  "D69jwFMuawBkG1hii1muQESFrbZFenZrmL";
  "D7PJqwFSLmCURDNnd5cc9Ham856GwDQ9zy";
  "DFHa9HQ9BDHuDKmBPvPzBE5dsLm85prUd4";
  "DAJMr7m4ZyaCRa9Y1o8pMaAPViBhSZTENs";
  "DFXqwRzai3Khd3n1uRaYgZTq1BhAUhyu3m";
  "DSTKiCYQqpvrXME3rEFeYEsH3dZHCPU8ez";
  "DG1rJMg6zCMoiptWeEozxpuVWKGmZkiHTf";
  "DRgWqHV6d7HSxYhA5bCMvtLhuS3kbRYKo3";
  "DD9kssWTzT8s5fv4Xg3MthRNCT7RtawQSw";
  "DLLYN7hv535nXzpvZv25ySG8GdsfYNk1Bx";
  "DJQEaiT39GyJgCJK7noarscutoeWHXMLaM";
  "DEkaR4NfvWx3bq1MBw2nTcTP2JEPxKyaBX";
  "DN9vVGNYzbjqTGRRGXkjiGVTpuKRz1eYe3";
  "D6kCF8PDhwdPzSg3xeUmrDzVK9eK3nuEJj";
  "DR3F3WE78aJmHvyGA35NjkLLf5F9X8eKaz";
  "DSMdwgWYbEpPNQJ2Hs9Y89JqNmQdiwhWaq";
  "DGJCxLgqW2sbhomNZvsDGsjam8pnY2b7uA";
  "DAaQuGSbvRQA2B7zzbrQ3SRRYC9qaQVZch";
  "DJbcjvGf7wzQaAQQ9GpHP1menk6jHyCsW4";
  "DC5vxafEZQeqpqDawTyDx7nBW81V6LfrE5";
  "DKJhzwe5PzFQuUdrzJR9gUfkvk4jzvUrZU";
  "DRX7r83LHBf1cWKnBoAd8q1iN6UP833kPx";
  "DShw4ZaRmW9fyWnP3umEyZ9KyJHWR9v6BD";
  "DK9zdFCv9yz3C7jVbnTbVCZgGAd8S1Xqxk";
  "DG2Gv2aZRALtMkKtaJEQr75bFqsL3JbKmB";
  "D9zt7Xb1RgBepPrrYSRPv6N6YCUcS5CRx6";
  "DAgRoBgYaDx7g6JPRZyufvFQAQc4zdjaP1";
  "DPLi14JkyEjkbWQMQGavBARN8xo4avmuMh";
  "DU4mqG99gi77BcZoS8FaJEiHk5HRYXNEcb";
  "D6QdquB54saxViwAfL9xKiwoXaFo7UU5ec";
  "DStTMUY2U1XSLsdq9uuWgfQefPDkQJkGQC";
  "DPUV7Htc7jBwhc9z5rqoDFmKW3y1fE8xwA";
  "DEGatQLqYCD9BumaXAqTFRCYZ4vznhQXcY";
  "DCL7fkgzSSQSLvDMXqiRdnR9qQx5MjK89t";
  "DNxc93Q2rrCm92sVyrtKhCn5MMC5YtuXxK";
  "DDtWWXHe9a4EPn2EawiTDzYjq8SEKKRS6J";
  "DNr54LSpN6iAQda1QYqykqeU7j7TyLeCcA";
  "DE6eJePsjMDrTdKoi8HAGbX6Sdwh4RGTP9";
  "D5kY1eMcDfLZWznQFSjCQMUW8DiSoxhmuy";
  "D6dSnsPqcLaVvcH1MSFRMUy5KyVbnDufiX"
]%string.

(** ** The byte formats satisfy the serialization laws *)
#[export] Instance signer_serializable : Serializable Signer.t := {
  serialize := Signer.serialize; deserialize := Signer.deserialize }.
#[export] Instance rate_serializable : Serializable ExchangeRate.t := {
  serialize := ExchangeRate.serialize; deserialize := ExchangeRate.deserialize }.
#[export] Instance royalty_serializable : Serializable Royalty.t := {
  serialize := Royalty.serialize; deserialize := Royalty.deserialize }.
#[export] Instance vote_serializable : Serializable VoteOption.t := {
  serialize := VoteOption.serialize; deserialize := VoteOption.deserialize }.

Definition valid_signer (s : Signer.t) : Prop :=
  valid_string (Signer.address s) /\ valid_u64 (Signer.weight s).
Definition valid_rate (r : ExchangeRate.t) : Prop :=
  valid_string (ExchangeRate.address r) /\ valid_string (ExchangeRate.name r).
Definition valid_royalty (r : Royalty.t) : Prop :=
  valid_string (Royalty.address r) /\ valid_u64 (Royalty.amount r).
Definition valid_vote (v : VoteOption.t) : Prop :=
  valid_string (VoteOption.address v) /\ valid_string (VoteOption.label v).

(** A struct is the concatenation of its members' bytes. *)
Definition signer_bytes (s : Signer.t) : list Z :=
  string_bytes (Signer.address s) ++ u64_bytes (Signer.weight s).
Definition rate_bytes (r : ExchangeRate.t) : list Z :=
  string_bytes (ExchangeRate.address r) ++ [ExchangeRate.index r] ++ string_bytes (ExchangeRate.name r).
Definition royalty_bytes (r : Royalty.t) : list Z :=
  string_bytes (Royalty.address r) ++ u64_bytes (Royalty.amount r).
Definition vote_bytes (v : VoteOption.t) : list Z :=
  string_bytes (VoteOption.address v) ++ string_bytes (VoteOption.label v).

Lemma string_bytes_cons s l : string_bytes s ++ l <> [].
Proof. done. Qed.

(** Reading the two members of a struct one after the other. *)
Lemma reads_struct {A B C} (dA : (Z -> bool) -> list Z -> M Z A) (dB : (Z -> bool) -> list Z -> M Z B)
    (mk : A -> B -> C) b1 b2 a b :
  decodes dA b1 a -> decodes dB b2 b ->
  decodes (fun alloc data => x ← dA alloc data; y ← dB alloc data; mret (mk x y)) (b1 ++ b2) (mk a b).
Proof.
  intros Ha Hb. eapply (decodes_bind dA (fun x alloc data => y ← dB alloc data; mret (mk x y))); [done|].
  rewrite <- (app_nil_r b2).
  eapply (decodes_bind dB (fun y _ _ => mret (mk a y))); [done|apply decodes_ret].
Qed.

#[export] Hint Resolve deserialize_string_reads serialize_u64_reads serialize_u8_reads reads_struct : decodes.

(** The laws of a struct from its format [bytes]. *)
Lemma struct_laws {T} `{Serializable T} (valid : T -> Prop) (bytes : T -> list Z) :
  (forall buf x, serialize buf x = buf ++ bytes x) ->
  (forall x, bytes x <> []) ->
  (forall x, valid x -> decodes deserialize (bytes x) x) ->
  SerializeLaws T valid.
Proof.
  intros He Hn Hr. assert (forall x, serialize [] x = bytes x) as E by (intros; by rewrite He).
  split; intros; rewrite ?E; auto.
Qed.

#[export] Instance signer_laws : SerializeLaws Signer.t valid_signer.
Proof.
  apply (struct_laws _ signer_bytes); [|done|].
  - intros. simpl. unfold Signer.serialize.
    by rewrite serialize_u64_appends, serialize_string_appends, <- app_assoc.
  - intros [a w] [Ha Hw]. apply (reads_struct _ (fun _ => deserialize_u64) Signer.mk); eauto with decodes.
Qed.

#[export] Instance royalty_laws : SerializeLaws Royalty.t valid_royalty.
Proof.
  apply (struct_laws _ royalty_bytes); [|done|].
  - intros. simpl. unfold Royalty.serialize.
    by rewrite serialize_u64_appends, serialize_string_appends, <- app_assoc.
  - intros [a w] [Ha Hw]. apply (reads_struct _ (fun _ => deserialize_u64) Royalty.mk); eauto with decodes.
Qed.

#[export] Instance vote_laws : SerializeLaws VoteOption.t valid_vote.
Proof.
  apply (struct_laws _ vote_bytes); [|done|].
  - intros. simpl. unfold VoteOption.serialize.
    by rewrite !serialize_string_appends, <- app_assoc.
  - intros [a l] [Ha Hl]. apply (reads_struct _ _ VoteOption.mk); eauto with decodes.
Qed.

#[export] Instance rate_laws : SerializeLaws ExchangeRate.t valid_rate.
Proof.
  apply (struct_laws _ rate_bytes); [|done|].
  - intros. simpl. unfold ExchangeRate.serialize, serialize_u8, rate_bytes.
    by rewrite !serialize_string_appends, <- !app_assoc.
  - intros [a i nm] [Ha Hn].
    eapply (decodes_bind deserialize_string
      (fun a alloc data => i ← deserialize_u8 data; nm ← deserialize_string alloc data;
                           mret (ExchangeRate.mk a i nm))); [by apply deserialize_string_reads|].
    apply (reads_struct (fun _ => deserialize_u8) _ (ExchangeRate.mk a)); eauto with decodes.
Qed.
