(* ===== verification/DigiAssetRules.v ===== *)
(** DigiAssetRules: the transfer rules of an asset (src/src/DigiAssetRules.h and
    DigiAssetRules.cpp): the decoding constructor with its six rule decoders, the getters and
    setters, the issuing-side encoder and the database format.

    The decoding constructor works on the issuance's bit stream, on the rules
    under construction and on the database's list of watched addresses: the
    fields of [decoding].  [getVoteOptions] and [toJSON] are not modelled
    (IPFS download and JSON). *)

From S2P Require Import Prelude.
From S2P Require Import BitIO.
From S2P Require Import BitIOCodec.
From S2P Require Import Serialize.
From S2P Require Import AssetTypes.

Ltac Zify.zify_post_hook ::= Z.div_mod_to_equations.

Definition RULE_APPROVAL : Z := 0.
Definition RULE_ROYALTIES : Z := 1.
Definition RULE_GEOFENCE_ALLOWED : Z := 2.
Definition RULE_GEOFENCE_DENIED : Z := 3.
Definition RULE_VOTE : Z := 4.
Definition RULE_DEFLATION : Z := 5.
Definition RULE_ROYALTY_UNITS : Z := 9.
Definition RULE_END : Z := 15.

Definition MIN_EPOCH_VALUE : Z := 1577836800000.
Definition EXPIRE_NEVER : Z := two64 - 1.

Record DigiAssetRules := mk_rules {
  _noRules : bool;
  _rewritable : bool;
  _movable : bool;
  _signersRequired : Z;
  _signers : list Signer.t;
  _exchangeRate : ExchangeRate.t;
  _royalties : list Royalty.t;
  _countryList : list string;
  _countryListIsBan : bool;
  _expiry : Z;
  _voteOptions : list VoteOption.t;
  _deflate : Z;
  _voteLabelsCID : string
}.

(** [DigiAssetRules()] *)
Definition default_rules : DigiAssetRules :=
  mk_rules true false true 0 [] ExchangeRate.empty [] [] false EXPIRE_NEVER [] 0 "".

Definition set_noRules (x : bool) (r : DigiAssetRules) : DigiAssetRules :=
  mk_rules x (_rewritable r) (_movable r) (_signersRequired r) (_signers r) (_exchangeRate r) (_royalties r) (_countryList r) (_countryListIsBan r) (_expiry r) (_voteOptions r) (_deflate r) (_voteLabelsCID r).
Definition set_rewritable (x : bool) (r : DigiAssetRules) : DigiAssetRules :=
  mk_rules (_noRules r) x (_movable r) (_signersRequired r) (_signers r) (_exchangeRate r) (_royalties r) (_countryList r) (_countryListIsBan r) (_expiry r) (_voteOptions r) (_deflate r) (_voteLabelsCID r).
Definition set_movable (x : bool) (r : DigiAssetRules) : DigiAssetRules :=
  mk_rules (_noRules r) (_rewritable r) x (_signersRequired r) (_signers r) (_exchangeRate r) (_royalties r) (_countryList r) (_countryListIsBan r) (_expiry r) (_voteOptions r) (_deflate r) (_voteLabelsCID r).
Definition set_signersRequired (x : Z) (r : DigiAssetRules) : DigiAssetRules :=
  mk_rules (_noRules r) (_rewritable r) (_movable r) x (_signers r) (_exchangeRate r) (_royalties r) (_countryList r) (_countryListIsBan r) (_expiry r) (_voteOptions r) (_deflate r) (_voteLabelsCID r).
Definition set_signers (x : list Signer.t) (r : DigiAssetRules) : DigiAssetRules :=
  mk_rules (_noRules r) (_rewritable r) (_movable r) (_signersRequired r) x (_exchangeRate r) (_royalties r) (_countryList r) (_countryListIsBan r) (_expiry r) (_voteOptions r) (_deflate r) (_voteLabelsCID r).
Definition set_exchangeRate (x : ExchangeRate.t) (r : DigiAssetRules) : DigiAssetRules :=
  mk_rules (_noRules r) (_rewritable r) (_movable r) (_signersRequired r) (_signers r) x (_royalties r) (_countryList r) (_countryListIsBan r) (_expiry r) (_voteOptions r) (_deflate r) (_voteLabelsCID r).
Definition set_royalties (x : list Royalty.t) (r : DigiAssetRules) : DigiAssetRules :=
  mk_rules (_noRules r) (_rewritable r) (_movable r) (_signersRequired r) (_signers r) (_exchangeRate r) x (_countryList r) (_countryListIsBan r) (_expiry r) (_voteOptions r) (_deflate r) (_voteLabelsCID r).
Definition set_countryList (x : list string) (r : DigiAssetRules) : DigiAssetRules :=
  mk_rules (_noRules r) (_rewritable r) (_movable r) (_signersRequired r) (_signers r) (_exchangeRate r) (_royalties r) x (_countryListIsBan r) (_expiry r) (_voteOptions r) (_deflate r) (_voteLabelsCID r).
Definition set_countryListIsBan (x : bool) (r : DigiAssetRules) : DigiAssetRules :=
  mk_rules (_noRules r) (_rewritable r) (_movable r) (_signersRequired r) (_signers r) (_exchangeRate r) (_royalties r) (_countryList r) x (_expiry r) (_voteOptions r) (_deflate r) (_voteLabelsCID r).
Definition set_expiry (x : Z) (r : DigiAssetRules) : DigiAssetRules :=
  mk_rules (_noRules r) (_rewritable r) (_movable r) (_signersRequired r) (_signers r) (_exchangeRate r) (_royalties r) (_countryList r) (_countryListIsBan r) x (_voteOptions r) (_deflate r) (_voteLabelsCID r).
Definition set_voteOptions (x : list VoteOption.t) (r : DigiAssetRules) : DigiAssetRules :=
  mk_rules (_noRules r) (_rewritable r) (_movable r) (_signersRequired r) (_signers r) (_exchangeRate r) (_royalties r) (_countryList r) (_countryListIsBan r) (_expiry r) x (_deflate r) (_voteLabelsCID r).
Definition set_deflate (x : Z) (r : DigiAssetRules) : DigiAssetRules :=
  mk_rules (_noRules r) (_rewritable r) (_movable r) (_signersRequired r) (_signers r) (_exchangeRate r) (_royalties r) (_countryList r) (_countryListIsBan r) (_expiry r) (_voteOptions r) x (_voteLabelsCID r).
Definition set_voteLabelsCID (x : string) (r : DigiAssetRules) : DigiAssetRules :=
  mk_rules (_noRules r) (_rewritable r) (_movable r) (_signersRequired r) (_signers r) (_exchangeRate r) (_royalties r) (_countryList r) (_countryListIsBan r) (_expiry r) (_voteOptions r) (_deflate r) x.

(** ** Decoding *)
Record decoding := mk_decoding { stream : BitIO; rules : DigiAssetRules; watched : list string }.

Definition on_stream {A} (m : M BitIO A) : M decoding A := fun s =>
  let '(o, b) := m (stream s) in (o, mk_decoding b (rules s) (watched s)).
Definition on_rules (f : DigiAssetRules -> DigiAssetRules) : M decoding unit :=
  modify (fun s => mk_decoding (stream s) (f (rules s)) (watched s)).
Definition addWatchAddress (address : string) : M decoding unit :=
  modify (fun s => mk_decoding (stream s) (rules s) (watched s ++ [address])).

(** [txData.vout.size()]; [txData.vout[i]]; [...addresses[0]] *)
Definition vout_size (txData : getrawtransaction_t) : Z := Z.of_nat (length (vout txData)).
Definition vout_at {S} (txData : getrawtransaction_t) (i : Z) : M S vout_t := vec_at (vout txData) i.
Definition no_address (o : vout_t) : bool := bool_decide (addresses (scriptPubKey o) = []).
Definition first_address {S} (o : vout_t) : M S string := vec_at (addresses (scriptPubKey o)) 0.

(** [for (unsigned int i = first; i < last; i++)] *)
Definition counted (first last : Z) : list Z := seqZ first (last - first).

Definition emplace_signer (s : Signer.t) : M decoding unit :=
  on_rules (fun r => set_signers (_signers r ++ [s]) r).

Definition approval_range (txData : getrawtransaction_t) : M decoding unit :=
  on_stream (insertBits 0 1);;
  on_stream (movePositionBy (-1));;
  start ← on_stream getFixedPrecision;
  length ← on_stream getFixedPrecision;
  let start := u32 start in
  let length := u32 length in
  if vout_size txData <? u64 (start + length) then throw (out_of_range "approval range out of bounds")
  else for_each (counted start (u32 (start + length))) (fun outputNum =>
    o ← vout_at txData outputNum;
    if no_address o then throw (out_of_range "approval output has no address")
    else
      address ← first_address o;
      emplace_signer (Signer.mk address (u64 (valueS o - 600)))).

(** One output; [false]: the end marker was read. *)
Definition read_approval (txData : getrawtransaction_t) : M decoding bool :=
  temp ← on_stream getFixedPrecision;
  if temp =? 0 then mret false
  else
    let outputNum := u32 (temp - 1) in
    if vout_size txData <=? outputNum then throw (out_of_range "approval output out of bounds")
    else
      o ← vout_at txData outputNum;
      if no_address o then throw (out_of_range "approval output out of bounds")
      else
        address ← first_address o;
        weight ← on_stream getFixedPrecision;
        emplace_signer (Signer.mk address weight);;
        mret true.

Definition approval_output (txData : getrawtransaction_t) : M decoding bool :=
  on_stream (movePositionBy (-1));; read_approval txData.

Fixpoint approval_loop (fuel : nat) (txData : getrawtransaction_t) : M decoding unit :=
  match fuel with
  | O => out_of_fuel
  | S fuel =>
      isRange ← on_stream (getBits 1);
      if isRange =? 1 then approval_range txData
      else
        notDone ← approval_output txData;
        if notDone : bool then approval_loop fuel txData else mret tt
  end.

(** A bound for the loops over the stream: each turn takes at least one bit. *)
Definition unread (b : BitIO) : nat := Z.to_nat (_length b - _position b).

Definition decodeApproval (txData : getrawtransaction_t) : M decoding unit :=
  required ← on_stream getFixedPrecision;
  on_rules (set_signersRequired required);;
  fuel ← gets (fun s => S (unread (stream s)));
  approval_loop fuel txData.

Definition decodeRoyaltyUnits (txData : getrawtransaction_t) : M decoding unit :=
  standard ← on_stream (getBits 1);
  if standard =? 1 then
    erIndex ← on_stream (getBits 7);
    if standardExchangeRatesCount <=? erIndex
    then throw (out_of_range "standard exchange rate index out of bounds")
    else
      rate ← vec_at standardExchangeRates erIndex;
      on_rules (set_exchangeRate rate)
  else
    on_stream (movePositionBy (-1));;
    output ← on_stream getFixedPrecision;
    let output := u32 output in
    if vout_size txData <=? output then throw (out_of_range "royalty units output out of bounds")
    else
      o ← vout_at txData output;
      if no_address o then throw (out_of_range "royalty units output out of bounds")
      else
        address ← first_address o;
        on_rules (set_exchangeRate (ExchangeRate.mk address (u8 (u64 (valueS o - 600))) "?"));;
        addWatchAddress address.

Definition decodeRoyalties (txData : getrawtransaction_t) : M decoding unit :=
  start ← on_stream getFixedPrecision;
  length ← on_stream getFixedPrecision;
  let start := u32 start in
  let length := u32 length in
  if vout_size txData <? u32 (start + length)
  then throw (out_of_range "start plus length greater then total")
  else for_each (counted start (u32 (start + length))) (fun outputNum =>
    o ← vout_at txData outputNum;
    address ← first_address o;
    on_rules (fun r => set_royalties (_royalties r ++ [Royalty.mk address (valueS o)]) r)).

Definition toupper (c : ascii) : ascii :=
  let v := byteZ c in if (97 <=? v) && (v <=? 122) then charZ (v - 32) else c.

Fixpoint geofence_loop (fuel : nat) : M decoding unit :=
  match fuel with
  | O => out_of_fuel
  | S fuel =>
      text ← on_stream (get3B40String 3);
      let value := str (map toupper (chars text)) in
      if bool_decide (value = "...") then mret tt
      else
        on_rules (fun r => set_countryList (_countryList r ++ [value]) r);;
        geofence_loop fuel
  end.

Definition decodeGeofence : M decoding unit :=
  fuel ← gets (fun s => S (unread (stream s)));
  geofence_loop fuel.

Definition emplace_option (address : string) : M decoding unit :=
  on_rules (fun r => set_voteOptions (_voteOptions r ++ [VoteOption.mk address ""]) r).

Definition decodeVoteAndExpiry (txData : getrawtransaction_t) (cid : string) : M decoding unit :=
  rewritable ← gets (fun s => _rewritable (rules s));
  if rewritable : bool
  then throw (out_of_range "Invalid Rule Detected: Votes can not be part of rewritable rule asset")
  else
    movable ← on_stream (getBits 1);
    on_rules (set_movable (movable =? 1));;
    voteLength ← on_stream (getBits 7);
    cutoff ← on_stream getFixedPrecision;
    start ← on_stream getFixedPrecision;
    let voteStart := i32 (u64 (start - 1)) in
    (if negb (cutoff =? 0) then on_rules (set_expiry cutoff) else mret tt);;
    if voteLength =? 0 then mret tt
    else
      (if voteStart =? -1 then
        if standardVoteCount <? voteLength
        then throw (out_of_range "vote length exceeds standard address list")
        else for_each (counted 0 voteLength) (fun i =>
          address ← vec_at standardVoteAddresses i;
          emplace_option address)
      else
        if (voteStart <? 0) || (vout_size txData <? u64 (voteStart + voteLength))
        then throw (out_of_range "vote outputs out of bounds")
        else for_each (counted voteStart (u32 (voteStart + voteLength))) (fun outputNum =>
          o ← vout_at txData outputNum;
          if no_address o then throw (out_of_range "vote output has no address")
          else
            address ← first_address o;
            emplace_option address));;
      on_rules (set_voteLabelsCID cid).

Definition decodeDeflation : M decoding unit :=
  deflate ← on_stream getFixedPrecision;
  on_rules (set_deflate deflate).

(** The [switch] of the decoding constructor. *)
Definition decode_rule (txData : getrawtransaction_t) (cid : string) (ruleCode : Z) : M decoding unit :=
  if ruleCode =? RULE_END then mret tt
  else if ruleCode =? RULE_APPROVAL then decodeApproval txData
  else if ruleCode =? RULE_ROYALTY_UNITS then decodeRoyaltyUnits txData;; decodeRoyalties txData
  else if ruleCode =? RULE_ROYALTIES then decodeRoyalties txData
  else if ruleCode =? RULE_GEOFENCE_ALLOWED then on_rules (set_countryListIsBan false);; decodeGeofence
  else if ruleCode =? RULE_GEOFENCE_DENIED then on_rules (set_countryListIsBan true);; decodeGeofence
  else if ruleCode =? RULE_VOTE then decodeVoteAndExpiry txData cid
  else if ruleCode =? RULE_DEFLATION then decodeDeflation
  else throw (out_of_range "Invalid Rule Code").

Fixpoint rules_loop (fuel : nat) (txData : getrawtransaction_t) (cid : string) : M decoding unit :=
  match fuel with
  | O => out_of_fuel
  | S fuel =>
      ruleCode ← on_stream (getBits 4);
      decode_rule txData cid ruleCode;;
      if ruleCode =? RULE_END then mret tt else rules_loop fuel txData cid
  end.

(** The rest of the last byte is skipped. *)
Definition byte_align : M BitIO unit :=
  pointer ← gets getPosition;
  let extraBits := pointer mod 8 in
  when (negb (extraBits =? 0)) (movePositionBy (8 - extraBits)).

Definition decode_rules (txData : getrawtransaction_t) (cid : string) (opCode : Z) : M decoding unit :=
  if negb (opCode =? 3) && negb (opCode =? 4) then mret tt
  else
    on_rules (set_noRules false);;
    on_rules (set_rewritable (opCode =? 3));;
    fuel ← gets (fun s => S (unread (stream s)));
    rules_loop fuel txData cid;;
    on_stream byte_align.

(** The constructor: the stream is the caller's, the watched addresses the
    database's. *)
Definition DigiAssetRules_decode (txData : getrawtransaction_t) (cid : string) (opCode : Z)
    : M (BitIO * list string) DigiAssetRules := fun '(dataStream, watch) =>
  let '(o, s) := decode_rules txData cid opCode (mk_decoding dataStream default_rules watch) in
  (_ ← o; Ok (rules s), (stream s, watched s)).

(** ** Getters *)
Definition lock : DigiAssetRules -> DigiAssetRules := set_rewritable false.
Definition isRewritable (r : DigiAssetRules) : bool := _rewritable r.
Definition empty (r : DigiAssetRules) : bool := _noRules r.
Definition getExpiry (r : DigiAssetRules) : Z := _expiry r.
Definition isExpiryHeight (r : DigiAssetRules) : bool := _expiry r <? MIN_EPOCH_VALUE.
Definition expires (r : DigiAssetRules) : bool := negb (_expiry r =? EXPIRE_NEVER).

Definition getIfExpired (height time : Z) (r : DigiAssetRules) : bool :=
  if _expiry r =? EXPIRE_NEVER then false
  else if MIN_EPOCH_VALUE <=? _expiry r then _expiry r / 1000 <=? time
  else _expiry r <? height.

Definition getRequiredSignerWeight (r : DigiAssetRules) : Z := _signersRequired r.
Definition getSigners (r : DigiAssetRules) : list Signer.t := _signers r.
Definition getIfRequiresRoyalty (r : DigiAssetRules) : bool := negb (bool_decide (_royalties r = [])).
Definition getRoyaltyCurrency (r : DigiAssetRules) : ExchangeRate.t := _exchangeRate r.
Definition getRoyalties (r : DigiAssetRules) : list Royalty.t := _royalties r.
Definition getIfGeoFenced (r : DigiAssetRules) : bool :=
  _countryListIsBan r || negb (bool_decide (_countryList r = [])).

Definition getIfCountryAllowedToReceive (country : string) (r : DigiAssetRules) : bool :=
  if negb (getIfGeoFenced r) then true
  else
    let inList := existsb (fun countryInList => bool_decide (countryInList = country)) (_countryList r) in
    (negb (_countryListIsBan r) && inList) || (_countryListIsBan r && negb inList).

Definition getIfVoteRestricted (r : DigiAssetRules) : bool := negb (_movable r).
Definition getIfValidVoteAddress (address : string) (r : DigiAssetRules) : bool :=
  existsb (fun option => bool_decide (VoteOption.address option = address)) (_voteOptions r).
Definition getRequiredBurn (r : DigiAssetRules) : Z := _deflate r.
Definition getIfVote (r : DigiAssetRules) : bool := negb (bool_decide (_voteOptions r = [])).

(** ** Setters *)
Definition setRewritable (state : bool) (r : DigiAssetRules) : DigiAssetRules :=
  set_rewritable state (set_noRules false r).
Definition setRequireSigners (requiredWeight : Z) (signers : list Signer.t) (r : DigiAssetRules) :=
  set_signers signers (set_signersRequired requiredWeight (set_noRules false r)).
Definition setRequireKYC (r : DigiAssetRules) : DigiAssetRules :=
  set_countryList [] (set_countryListIsBan true (set_noRules false r)).
Definition setDoesNotRequireKYC (r : DigiAssetRules) : DigiAssetRules :=
  set_countryList [] (set_countryListIsBan false (set_noRules false r)).

Definition rules_exception (message : string) : exn := class_exception "DigiAssetRules::exception" message.

Definition setRequireKYC_countries (countries : list string) (banList : bool) (r : DigiAssetRules)
    : outcome DigiAssetRules :=
  if bool_decide (countries = []) && negb banList
  then Throw (class_exception "DigiAssetRules::exceptionInvalidRule" "Invalid Rule defined")
  else Ok (set_countryList countries (set_countryListIsBan banList (set_noRules false r))).

Definition setRoyalties (royalties : list Royalty.t) (rate : ExchangeRate.t) (r : DigiAssetRules) :=
  set_exchangeRate rate (set_royalties royalties (set_noRules false r)).
Definition setVote (voteOptions : list VoteOption.t) (expiry : Z) (movable : bool) (r : DigiAssetRules) :=
  set_movable movable (set_expiry expiry (set_voteOptions voteOptions (set_noRules false r))).
Definition setExpiry (expiry : Z) (r : DigiAssetRules) : DigiAssetRules :=
  set_expiry expiry (set_noRules false r).
Definition setDeflationary (deflateRate : Z) (r : DigiAssetRules) : DigiAssetRules :=
  set_deflate deflateRate (set_noRules false r).

Definition rules_eqb (a b : DigiAssetRules) : bool :=
  Bool.eqb (_noRules b) (_noRules a) && Bool.eqb (_rewritable b) (_rewritable a)
  && Bool.eqb (_movable b) (_movable a) && (_signersRequired b =? _signersRequired a)
  && vector_eqb Signer.eqb (_signers b) (_signers a)
  && negb (ExchangeRate.neqb (_exchangeRate b) (_exchangeRate a))
  && vector_eqb Royalty.eqb (_royalties b) (_royalties a)
  && bool_decide (_countryList b = _countryList a)
  && Bool.eqb (_countryListIsBan b) (_countryListIsBan a)
  && (_expiry b =? _expiry a)
  && vector_eqb VoteOption.eqb (_voteOptions b) (_voteOptions a)
  && (_deflate b =? _deflate a).

(** ** Encoding *)
Fixpoint is_prefix_of (options : list VoteOption.t) (standard : list string) : bool :=
  match options, standard with
  | [], _ => true
  | option :: options, address :: standard =>
      bool_decide (VoteOption.address option = address) && is_prefix_of options standard
  | _ :: _, [] => false
  end.

Definition usesStandardVoteAddresses (r : DigiAssetRules) : bool :=
  if standardVoteCount <? Z.of_nat (length (_voteOptions r)) then false
  else is_prefix_of (_voteOptions r) standardVoteAddresses.

Fixpoint find_rate (rate : ExchangeRate.t) (l : list ExchangeRate.t) (i : Z) : option Z :=
  match l with
  | [] => None
  | standard :: l =>
      if bool_decide (ExchangeRate.address standard = ExchangeRate.address rate)
         && (ExchangeRate.index standard =? ExchangeRate.index rate)
      then Some i else find_rate rate l (i + 1)
  end.

Definition standardExchangeRateIndex {S} (r : DigiAssetRules) : M S Z :=
  match find_rate (_exchangeRate r) standardExchangeRates 0 with
  | Some i => mret (u8 i)
  | None => throw (rules_exception "Royalty units must be one of the standard exchange rates(custom rate addresses would make the transaction unrelayable dust)")
  end.

Record RuleOutput := mk_RuleOutput { ro_address : string; sats : Z }.

Definition royalty_output (royalty : Royalty.t) : outcome RuleOutput :=
  if Royalty.amount royalty <? DIGIBYTE_DUST
  then Throw (rules_exception "Royalty amounts below 10000 sats can not be encoded(the output defining the price would be unrelayable dust)")
  else Ok (mk_RuleOutput (Royalty.address royalty) (Royalty.amount royalty)).

Fixpoint royalty_outputs (royalties : list Royalty.t) : outcome (list RuleOutput) :=
  match royalties with
  | [] => Ok []
  | royalty :: royalties =>
      output ← royalty_output royalty;
      outputs ← royalty_outputs royalties;
      Ok (output :: outputs)
  end.

Definition getRequiredOutputs (r : DigiAssetRules) : outcome (list RuleOutput) :=
  if _noRules r then Ok []
  else
    royalties ← royalty_outputs (_royalties r);
    Ok (map (fun signer => mk_RuleOutput (Signer.address signer) DIGIBYTE_DUST) (_signers r)
        ++ royalties
        ++ (if getIfVote r && negb (usesStandardVoteAddresses r)
            then map (fun option => mk_RuleOutput (VoteOption.address option) DIGIBYTE_DUST) (_voteOptions r)
            else [])).

(** The encoder's lambdas. *)
Definition append_stream (bits : outcome BitIO) : M BitIO unit :=
  bits ← lift bits; with_value bits appendBits_BitIO.
Definition appendFixedPrecision (value : Z) : M BitIO unit := append_stream (makeFixedPrecision value).
Definition append3B40 (text : string) : M BitIO unit := append_stream (make3B40String text).

(** The signers; returns [nextOutput]. *)
Fixpoint encode_signers (signers : list Signer.t) (nextOutput : Z) : M BitIO Z :=
  match signers with
  | [] => mret nextOutput
  | signer :: signers =>
      appendFixedPrecision (u32 (nextOutput + 1));;
      appendFixedPrecision (Signer.weight signer);;
      encode_signers signers (u32 (nextOutput + 1))
  end.

Definition encode_approval (r : DigiAssetRules) (nextOutput : Z) : M BitIO Z :=
  if 0 <? _signersRequired r then
    appendBits RULE_APPROVAL 4;;
    appendFixedPrecision (_signersRequired r);;
    nextOutput ← encode_signers (_signers r) nextOutput;
    appendBits 0 8;;
    mret nextOutput
  else mret nextOutput.

Definition encode_royalties (r : DigiAssetRules) (nextOutput : Z) : M BitIO Z :=
  if getIfRequiresRoyalty r then
    (if ExchangeRate.enabled (_exchangeRate r) then
      appendBits RULE_ROYALTY_UNITS 4;;
      appendBits 1 1;;
      index ← standardExchangeRateIndex r;
      appendBits index 7
    else appendBits RULE_ROYALTIES 4);;
    appendFixedPrecision nextOutput;;
    appendFixedPrecision (Z.of_nat (length (_royalties r)));;
    mret (u32 (nextOutput + Z.of_nat (length (_royalties r))))
  else mret nextOutput.

Definition encode_country (country : string) : M BitIO unit :=
  if negb (String.length country =? 3)%nat
  then throw (rules_exception "Country codes must be ISO 3166-1 alpha-3")
  else append3B40 (str (map tolower (chars country))).

Definition encode_geofence (r : DigiAssetRules) : M BitIO unit :=
  when (getIfGeoFenced r)
    (appendBits (if _countryListIsBan r then RULE_GEOFENCE_DENIED else RULE_GEOFENCE_ALLOWED) 4;;
     for_each (_countryList r) encode_country;;
     append3B40 "...").

Definition encode_vote (r : DigiAssetRules) (nextOutput : Z) : M BitIO Z :=
  if getIfVote r || expires r then
    if _rewritable r then throw (rules_exception "Votes and expiry can not be part of a rewritable rule asset")
    else if 127 <? Z.of_nat (length (_voteOptions r)) then throw (rules_exception "Maximum 127 vote options")
    else
      appendBits RULE_VOTE 4;;
      appendBits (if _movable r then 1 else 0) 1;;
      appendBits (Z.of_nat (length (_voteOptions r))) 7;;
      appendFixedPrecision (if expires r then _expiry r else 0);;
      if negb (getIfVote r) || usesStandardVoteAddresses r
      then appendFixedPrecision 0;; mret nextOutput
      else
        appendFixedPrecision (u32 (nextOutput + 1));;
        mret (u32 (nextOutput + Z.of_nat (length (_voteOptions r))))
  else mret nextOutput.

Definition encode_deflation (r : DigiAssetRules) : M BitIO unit :=
  when (negb (_deflate r =? 0)) (appendBits RULE_DEFLATION 4;; appendFixedPrecision (_deflate r)).

(** [while (stream.getLength() % 8 != 0) stream.appendBits(1, 1)]: at most seven turns. *)
Fixpoint pad_to_byte (fuel : nat) : M BitIO unit :=
  l ← gets getLength;
  if l mod 8 =? 0 then mret tt
  else match fuel with
  | O => out_of_fuel
  | S fuel => appendBits 1 1;; pad_to_byte fuel
  end.

Definition encode (r : DigiAssetRules) (firstRuleOutput : Z) : M BitIO unit :=
  if _noRules r then mret tt
  else
    nextOutput ← encode_approval r firstRuleOutput;
    nextOutput ← encode_royalties r nextOutput;
    encode_geofence r;;
    nextOutput ← encode_vote r nextOutput;
    encode_deflation r;;
    appendBits RULE_END 4;;
    pad_to_byte 7.

(** ** Database format *)
Definition b2z (b : bool) (weight : Z) : Z := if b then weight else 0.
Definition is_empty {A} (l : list A) : bool := match l with [] => true | _ => false end.

Definition flags1 (r : DigiAssetRules) : Z :=
  u8 (b2z (_rewritable r) 128 + b2z (_movable r) 64 + b2z (_countryListIsBan r) 32).
Definition flags2 (r : DigiAssetRules) : Z :=
  u8 (b2z (0 <? _signersRequired r) 128 + b2z (negb (is_empty (_royalties r))) 64
      + b2z (negb (is_empty (_countryList r))) 32 + b2z (negb (is_empty (_voteOptions r))) 16
      + b2z (negb (_expiry r =? EXPIRE_NEVER)) 8 + b2z (negb (_deflate r =? 0)) 4
      + b2z (ExchangeRate.enabled (_exchangeRate r)) 2
      + b2z (negb (bool_decide (_voteLabelsCID r = ""))) 1).

Definition serialize_rules (serializedData : list Z) (input : DigiAssetRules) : list Z :=
  if empty input then serializedData
  else
    let data := serialize_u8 (serialize_u8 serializedData (flags1 input)) (flags2 input) in
    let data := if 0 <? _signersRequired input
      then serialize (serialize_u64 data (_signersRequired input)) (_signers input) else data in
    let data := if negb (is_empty (_royalties input)) then serialize data (_royalties input) else data in
    let data := if negb (is_empty (_countryList input)) then serialize data (_countryList input) else data in
    let data := if negb (is_empty (_voteOptions input)) then serialize data (_voteOptions input) else data in
    let data := if negb (_expiry input =? EXPIRE_NEVER) then serialize_u64 data (_expiry input) else data in
    let data := if negb (_deflate input =? 0) then serialize_u64 data (_deflate input) else data in
    let data := if ExchangeRate.enabled (_exchangeRate input) then serialize data (_exchangeRate input) else data in
    if negb (bool_decide (_voteLabelsCID input = "")) then serialize data (_voteLabelsCID input) else data.

(** A member that is there when its flag is set. *)
Definition optional {A} (flag : bool) (d : M Z A) (set : A -> DigiAssetRules -> DigiAssetRules)
    (output : DigiAssetRules) : M Z DigiAssetRules :=
  if flag then x ← d; mret (set x output) else mret output.

(** [output] is the caller's object; what an exception leaves in it is not
    kept (every caller drops it). *)
Definition deserialize_rules (alloc : Z -> bool) (serializedData : list Z) (output : DigiAssetRules)
    : M Z DigiAssetRules :=
  if bool_decide (serializedData = []) then mret default_rules
  else
    let output := set_noRules false output in
    flags ← deserialize_u8 serializedData;
    if negb (Z.land flags 0x1f =? 0) then throw (out_of_range "Unknown serialization")
    else
      let output := set_rewritable (negb (Z.land flags 128 =? 0)) output in
      let output := set_movable (negb (Z.land flags 64 =? 0)) output in
      let output := set_countryListIsBan (negb (Z.land flags 32 =? 0)) output in
      flags ← deserialize_u8 serializedData;
      let has bit := negb (Z.land flags bit =? 0) in
      output ← optional (has 128) (deserialize_u64 serializedData) set_signersRequired output;
      output ← optional (has 128) (deserialize alloc serializedData) set_signers output;
      output ← optional (has 64) (deserialize alloc serializedData) set_royalties output;
      output ← optional (has 32) (deserialize alloc serializedData) set_countryList output;
      output ← optional (has 16) (deserialize alloc serializedData) set_voteOptions output;
      output ← optional (has 8) (deserialize_u64 serializedData) set_expiry output;
      output ← optional (has 4) (deserialize_u64 serializedData) set_deflate output;
      output ← optional (has 2) (deserialize alloc serializedData) set_exchangeRate output;
      optional (has 1) (deserialize alloc serializedData) set_voteLabelsCID output.
