(* ===== verification/RulesCodec.v ===== *)
(** RulesCodec: the bits of encoded asset rules and their decoding.

    [parses m l r r' a] is the client contract of a rule decoder: on a stream
    whose unread bits start with [l] and rules [r] it returns [a], leaves
    the rules [r'], consumes exactly [l] and watches no new address. *)

From S2P Require Import Prelude.
From S2P Require Import BitIO.
From S2P Require Import BitIOBlocks.
From S2P Require Import BitStream.
From S2P Require Import BitIOCodec.
From S2P Require Import BitIOText.
From S2P Require Import BitIONumbers.
From S2P Require Import Serialize.
From S2P Require Import AssetTypes.
From S2P Require Import DigiAssetRules.

Ltac Zify.zify_post_hook ::= Z.div_mod_to_equations.

(** ** Fixed-precision numbers and country codes as bits *)
Definition fixed_ok (v : Z) : Prop := 0 <= v <= 18014398509481983 /\ v <> 10 ^ 16.
Definition stream_bits (o : outcome BitIO) : list bool := match o with Ok b => abs b | _ => [] end.
Definition fp_code (v : Z) : list bool := stream_bits (makeFixedPrecision v).

Lemma built_bits o l : built o l -> stream_bits o = l.
Proof. by intros (r & -> & _ & _ & H). Qed.

Lemma fp_built v : fixed_ok v -> built (makeFixedPrecision v) (fp_code v).
Proof.
  intros [Hv H16]. destruct (fixed_precision_codec v Hv H16) as (l & Hb & _ & _).
  unfold fp_code. by rewrite (built_bits _ _ Hb).
Qed.

Lemma fp_reads v : fixed_ok v -> reads getFixedPrecision (fp_code v) v.
Proof.
  intros [Hv H16]. destruct (fixed_precision_codec v Hv H16) as (l & Hb & Hr & _).
  unfold fp_code. by rewrite (built_bits _ _ Hb).
Qed.

Lemma fp_length v : fixed_ok v -> (1 <= length (fp_code v) <= 56)%nat.
Proof.
  intros [Hv H16]. destruct (fixed_precision_codec v Hv H16) as (l & Hb & Hr & Hl).
  unfold fp_code. rewrite (built_bits _ _ Hb). split; [|done].
  destruct l as [|x l]; [|simpl; lia]. exfalso.
  specialize (Hr empty_BitIO [] wf_empty ltac:(unfold fits, two64; simpl; lia) eq_refl).
  discriminate.
Qed.

(** Small numbers start with a zero bit: no output number is mistaken for a
    range marker. *)
Definition small (v : Z) : Prop := 0 <= v <= 33554431.

Lemma small_fixed_ok v : small v -> fixed_ok v.
Proof. unfold small, fixed_ok. lia. Qed.

Lemma Zbits_head n m v l : 0 <= n -> 0 <= m -> exists l', Zbits (n + m) v ++ l = Zbits n (Z.shiftr v m) ++ l'.
Proof. intros. exists (Zbits m v ++ l). by rewrite Zbits_app, <- app_assoc. Qed.

Lemma fp_small_head v : small v -> exists l, fp_code v = false :: l.
Proof.
  intros Hv. unfold small in Hv. destruct (Z.lt_ge_cases v 32).
  - unfold fp_code. rewrite makeFixedPrecision_small by lia.
    rewrite (built_bits _ (Zbits 8 v)) by (eapply emits_built; apply emits_appendBits; lia).
    change 8 with (3 + 5). rewrite Zbits_app by lia.
    assert (Z.shiftr v 5 = 0) as -> by (rewrite Z.shiftr_div_pow2 by lia; lia). by eexists.
  - destruct (makeFixedPrecision_large v) as (m & e & Hm & Hfit & He); [lia|lia|].
    unfold fp_code. rewrite Hm, (built_bits _ (fixed_code m e)) by (eapply emits_built; by apply emits_fixed).
    destruct Hfit as (Hm0 & He0 & _).
    assert (0 < 10 ^ e) by (apply Z.pow_pos_nonneg; lia). assert (m <= v) by nia.
    unfold fixed_code. repeat (case_match; [try lia|]); by eexists.
Qed.

Definition country_code (country : string) : list bool := b40_code (map tolower (chars country)).
Definition end_code : list bool := b40_code (chars "...").

(** ISO 3166-1 alpha-3: three upper-case letters. *)
Definition is_letter (c : ascii) : Prop := 65 <= byteZ c <= 90.
Definition is_country (country : string) : Prop :=
  length (chars country) = 3%nat /\ Forall is_letter (chars country).

Lemma letter_lower c : is_letter c -> is_b40 (tolower c) /\ toupper (tolower c) = c /\ tolower c <> "."%char.
Proof.
  intros Hc. unfold is_letter, is_b40 in *.
  assert (forallb (fun v => let c := charZ v in
    bool_decide (tolower c ∈ chars BITIO_CHARSET_3B40) && bool_decide (toupper (tolower c) = c)
      && bool_decide (tolower c <> "."%char)) (seqZ 65 26) = true) as H by (vm_compute; reflexivity).
  rewrite forallb_forall in H. specialize (H (byteZ c)). cbv zeta in H. rewrite charZ_byteZ in H.
  assert (In (byteZ c) (seqZ 65 26)) as Hin by (apply list_elem_of_In, elem_of_seqZ; lia).
  specialize (H Hin). rewrite !andb_true_iff, !bool_decide_eq_true in H. tauto.
Qed.

Lemma three_chars (l : list ascii) : length l = 3%nat -> exists c d e, l = [c; d; e].
Proof. destruct l as [|c [|d [|e [|]]]]; try done. eauto. Qed.

Lemma lower_country_ok country :
  is_country country ->
  Forall is_b40 (chars (str (map tolower (chars country))))
  /\ b40_tail_fits (str (map tolower (chars country)))
  /\ length (chars (str (map tolower (chars country)))) = 3%nat.
Proof.
  intros [Hl Hc]. unfold b40_tail_fits. rewrite chars_str, length_map. split_and!; [..|done].
  - apply List.Forall_map. eapply Forall_impl; [exact Hc|]. intros c H. apply (letter_lower c H).
  - destruct (three_chars _ Hl) as (c & d & e & ->). done.
Qed.

Lemma end_ok : Forall is_b40 (chars "...") /\ b40_tail_fits "...".
Proof.
  split; [|done]. assert (is_b40 "."%char) by (apply (bool_decide_unpack _); vm_compute; exact I).
  repeat (apply list.Forall_cons; split; [done|]). by apply list.Forall_nil.
Qed.

(** ** The parsing contract *)
Definition parses {A} (m : M decoding A) (l : list bool) (r r' : DigiAssetRules) (a : A) : Prop :=
  forall s k, wf (stream s) -> fits (stream s) -> rest (stream s) = l ++ k -> rules s = r ->
    m s = (Ok a, mk_decoding (advance (Z.of_nat (length l)) (stream s)) r' (watched s)).

Section parses.
Context {A B : Type}.
Implicit Types (m : M decoding A) (f : A -> M decoding B) (l : list bool) (r : DigiAssetRules).

Lemma parses_ret r (a : A) : parses (mret a) [] r r a.
Proof. intros [] k _ _ _ Hr. simpl in *. by rewrite advance_0, Hr. Qed.

Lemma parses_bind m f l1 l2 r r1 r2 a (b : B) :
  parses m l1 r r1 a -> parses (f a) l2 r1 r2 b -> parses (m ≫= f) (l1 ++ l2) r r2 b.
Proof.
  intros Hm Hf s k Hwf Hfit Hrest Hr. rewrite <- app_assoc in Hrest.
  step (Hm s _ Hwf Hfit Hrest Hr). pose proof (rest_prefix _ _ _ Hwf Hrest).
  rewrite (Hf _ k); simpl.
  - by rewrite advance_advance, length_app, Nat2Z.inj_add.
  - apply wf_advance; [done|lia|done].
  - done.
  - by apply rest_advance.
  - done.
Qed.

Lemma parses_bind_nil m f l r r1 r2 a (b : B) :
  parses m [] r r1 a -> parses (f a) l r1 r2 b -> parses (m ≫= f) l r r2 b.
Proof. intros H1 H2. rewrite <- (app_nil_l l). by eapply parses_bind. Qed.

Lemma parses_bind_ret m f l r r1 r2 a (b : B) :
  parses m l r r1 a -> parses (f a) [] r1 r2 b -> parses (m ≫= f) l r r2 b.
Proof. intros H1 H2. rewrite <- (app_nil_r l). by eapply parses_bind. Qed.

Lemma parses_stream (m : M BitIO A) l r a : reads m l a -> parses (on_stream m) l r r a.
Proof.
  intros Hm s k Hwf Hfit Hrest Hr. unfold on_stream. rewrite (Hm _ k) by done. by rewrite Hr.
Qed.

Lemma parses_gets g f l r r' (a : A) (b : B) :
  (forall s, rules s = r -> g s = a) -> parses (f a) l r r' b -> parses (gets g ≫= f) l r r' b.
Proof.
  intros Hg Hf s k Hwf Hfit Hrest Hr. unfold mbind, M_bind, gets. rewrite Hg by done.
  by apply Hf with k.
Qed.

(** A loop whose fuel is one more than the number of unread bits. *)
Lemma parses_fuel (f : nat -> M decoding A) l r r' a :
  (forall fuel, (length l < fuel)%nat -> parses (f fuel) l r r' a) ->
  parses (fuel ← gets (fun s => S (unread (stream s))); f fuel) l r r' a.
Proof.
  intros Hf s k Hwf Hfit Hrest Hr. unfold mbind, M_bind, gets.
  apply Hf with k; try done. pose proof (rest_prefix _ _ _ Hwf Hrest). unfold unread. lia.
Qed.

(** One bit is looked at and given back. *)
Lemma parses_peek (f : Z -> M decoding A) m l bit r r' a :
  (forall s, f (Z.b2z bit) s = (on_stream (movePositionBy (-1));; m) s) ->
  parses m (bit :: l) r r' a -> parses (on_stream (getBits 1) ≫= f) (bit :: l) r r' a.
Proof.
  intros Hf Hm s k Hwf Hfit Hrest Hr. pose proof (rest_prefix _ _ _ Hwf Hrest) as Hp.
  assert (getBits 1 (stream s) = (Ok (Z.b2z bit), advance 1 (stream s))) as Hg.
  { apply (reads_bit bit (stream s) (l ++ k)); done. }
  unfold on_stream at 1. unfold mbind at 1, M_bind. rewrite Hg, Hf.
  unfold on_stream, mbind, M_bind. cbn [stream rules watched].
  change (movePositionBy (-1)) with (movePositionBy (- (1))).
  rewrite (movePositionBy_back (stream s) 1 1) by (done || simpl in Hp; lia).
  cbn [stream rules watched]. rewrite advance_0. destruct s. by apply Hm with k.
Qed.
End parses.

Lemma parses_rules f r : parses (on_rules f) [] r (f r) tt.
Proof. intros s k _ _ _ <-. unfold on_rules, modify. simpl. by rewrite advance_0. Qed.

Lemma parses_eq {A} (m : M decoding A) l l' r r1 r1' a :
  parses m l r r1 a -> l = l' -> r1 = r1' -> parses m l' r r1' a.
Proof. by intros ? -> ->. Qed.

(** A loop over [l] whose turns consume nothing. *)
Lemma parses_for_each {B} (l : list B) (f : B -> M decoding unit) (g : B -> DigiAssetRules -> DigiAssetRules) :
  (forall x, x ∈ l -> forall r, parses (f x) [] r (g x r) tt) ->
  forall r, parses (for_each l f) [] r (foldl (fun r x => g x r) r l) tt.
Proof.
  induction l as [|x l IH]; intros H r; [apply parses_ret|]. cbn [for_each foldl].
  eapply parses_bind_nil; [apply H; left|]. apply IH. intros y Hy. apply H. by right.
Qed.

Lemma parses_vec_at {B} (l : list B) i x r : 0 <= i -> l !! Z.to_nat i = Some x -> parses (vec_at l i) [] r r x.
Proof. intros Hi Hl. unfold vec_at. rewrite (proj2 (Z.leb_le 0 i)), Hl by done. apply parses_ret. Qed.

(** ** The outputs the rules refer to *)
Definition outputs_at (tx : getrawtransaction_t) (first : Z) (outs : list RuleOutput) : Prop :=
  forall j o, outs !! j = Some o ->
    exists v k, vout tx !! (Z.to_nat first + j)%nat = Some v
      /\ addresses (scriptPubKey v) = ro_address o :: k /\ valueS v = sats o.

Lemma outputs_at_cons tx first o outs :
  0 <= first -> outputs_at tx first (o :: outs) ->
  (exists v k, vout tx !! Z.to_nat first = Some v /\ addresses (scriptPubKey v) = ro_address o :: k
     /\ valueS v = sats o /\ first < vout_size tx)
  /\ outputs_at tx (first + 1) outs.
Proof.
  intros Hf H. split.
  - destruct (H 0%nat o eq_refl) as (v & k & Hv & Ha & Hs). rewrite Nat.add_0_r in Hv.
    exists v, k. split_and!; try done. apply lookup_lt_Some in Hv. unfold vout_size. lia.
  - intros j o' Ho. destruct (H (S j) o' Ho) as (v & k & Hv & Ha & Hs).
    exists v, k. split_and!; try done. rewrite <- Hv. f_equal. lia.
Qed.

Lemma outputs_at_app tx first l k :
  0 <= first -> outputs_at tx first (l ++ k) ->
  outputs_at tx first l /\ outputs_at tx (first + Z.of_nat (length l)) k.
Proof.
  intros Hf H. split.
  - intros j o Ho. apply H. by apply lookup_app_l_Some.
  - intros j o Ho. destruct (H (length l + j)%nat o) as (v & m & Hv & Ha & Hs).
    + by rewrite lookup_app_r, Nat.add_comm, Nat.add_sub by lia.
    + exists v, m. split_and!; try done. rewrite <- Hv. f_equal. lia.
Qed.

Lemma outputs_at_bound tx first outs :
  0 <= first -> outputs_at tx first outs -> outs <> [] ->
  first + Z.of_nat (length outs) <= vout_size tx.
Proof.
  intros Hf H Hne. destruct (lookup_lt_is_Some_2 outs (length outs - 1)) as [o Ho].
  { destruct outs; [done|simpl; lia]. }
  destruct (H _ o Ho) as (v & k & Hv & _). apply lookup_lt_Some in Hv. unfold vout_size.
  destruct outs; [done|simpl in *; lia].
Qed.

(** A counting loop whose turn [first + j] handles the element [j] of [xs]. *)
Lemma parses_counted {B} (f : Z -> M decoding unit) (g : B -> DigiAssetRules -> DigiAssetRules) xs :
  forall first r,
  (forall j x r, xs !! j = Some x -> parses (f (first + Z.of_nat j)) [] r (g x r) tt) ->
  parses (for_each (counted first (first + Z.of_nat (length xs))) f) []
    r (foldl (fun r x => g x r) r xs) tt.
Proof.
  induction xs as [|x xs IH]; intros first r Hf; unfold counted; rewrite Z.add_simpl_l.
  - apply parses_ret.
  - cbn [length]. rewrite Nat2Z.inj_succ, seqZ_cons by lia. cbn [for_each foldl].
    eapply parses_bind_nil; [rewrite <- (Z.add_0_r first); by apply (Hf 0%nat)|].
    specialize (IH (first + 1) (g x r)). unfold counted in IH.
    replace (first + 1 + Z.of_nat (length xs) - (first + 1)) with (Z.pred (Z.succ (Z.of_nat (length xs))))
      in IH by lia. apply IH. intros j y r' Hy.
    replace (first + 1 + Z.of_nat j) with (first + Z.of_nat (S j)) by lia. by apply Hf.
Qed.

(** Reading the outputs [first, first + length outs). *)
Lemma parses_outputs tx outs (f : Z -> M decoding unit)
    (g : RuleOutput -> DigiAssetRules -> DigiAssetRules) :
  (forall i v o k r, vout tx !! Z.to_nat i = Some v -> 0 <= i ->
     addresses (scriptPubKey v) = ro_address o :: k -> valueS v = sats o ->
     parses (f i) [] r (g o r) tt) ->
  forall first r, 0 <= first -> outputs_at tx first outs ->
    parses (for_each (counted first (first + Z.of_nat (length outs))) f) []
      r (foldl (fun r o => g o r) r outs) tt.
Proof.
  intros Hf first r H0 Ho. apply parses_counted. intros j o r' Hj.
  destruct (Ho j o Hj) as (v & k & Hv & Ha & Hs). eapply Hf; [|lia|exact Ha|exact Hs].
  rewrite <- Hv. f_equal. lia.
Qed.

Lemma parses_vout_at tx i v r : 0 <= i -> vout tx !! Z.to_nat i = Some v -> parses (vout_at tx i) [] r r v.
Proof. apply parses_vec_at. Qed.

Lemma parses_first_address v a k r :
  addresses (scriptPubKey v) = a :: k -> parses (first_address v) [] r r a.
Proof. intros H. unfold first_address. rewrite H. by apply parses_vec_at. Qed.

Lemma has_address v a k : addresses (scriptPubKey v) = a :: k -> no_address v = false.
Proof. intros H. unfold no_address. by rewrite H. Qed.

(** ** Approval *)
Definition signer_output (signer : Signer.t) : RuleOutput := mk_RuleOutput (Signer.address signer) DIGIBYTE_DUST.

Fixpoint signers_code (signers : list Signer.t) (next : Z) : list bool :=
  match signers with
  | [] => Zbits 8 0
  | s :: signers => fp_code (next + 1) ++ fp_code (Signer.weight s) ++ signers_code signers (next + 1)
  end.

Lemma fp_code_0 : fp_code 0 = Zbits 8 0.
Proof.
  unfold fp_code. rewrite makeFixedPrecision_small by lia.
  apply built_bits. eapply emits_built. apply emits_appendBits; lia.
Qed.

Lemma bind_assoc_run {S A B C} (m : M S A) (f : A -> M S B) (g : B -> M S C) s :
  ((m ≫= f) ≫= g) s = (m ≫= (fun a => f a ≫= g)) s.
Proof. unfold mbind, M_bind. by destruct (m s) as [[] ?]. Qed.

Lemma parses_read_approval tx s next r :
  0 <= next -> small (next + 1) -> fixed_ok (Signer.weight s) ->
  outputs_at tx next [signer_output s] ->
  parses (read_approval tx) (fp_code (next + 1) ++ fp_code (Signer.weight s))
    r (set_signers (_signers r ++ [s]) r) true.
Proof.
  intros H0 Hn Hw Ho. destruct (outputs_at_cons _ _ _ _ H0 Ho) as [(v & ks & Hv & Ha & _ & Hb) _].
  unfold small in Hn. unfold read_approval.
  eapply parses_bind; [apply parses_stream, fp_reads, small_fixed_ok; unfold small; lia|].
  rewrite (proj2 (Z.eqb_neq _ 0)) by lia. cbv zeta. replace (next + 1 - 1) with next by lia.
  rewrite u32_small by (unfold two32; lia).
  rewrite (proj2 (Z.leb_gt _ _)) by done.
  eapply parses_bind_nil; [by apply parses_vout_at|]. rewrite (has_address _ _ _ Ha).
  eapply parses_bind_nil; [by eapply parses_first_address|].
  eapply parses_bind_ret; [by apply parses_stream, fp_reads|].
  eapply parses_bind_nil; [|apply parses_ret].
  destruct s. apply (parses_rules (fun r => set_signers (_signers r ++ _) r)).
Qed.

Lemma parses_approval_end tx r : parses (read_approval tx) (Zbits 8 0) r r false.
Proof.
  rewrite <- fp_code_0. eapply parses_bind_ret; [apply parses_stream, fp_reads; by unfold fixed_ok|].
  apply parses_ret.
Qed.

(** A turn that reads an output, after the look at its first bit. *)
Lemma parses_approval_turn tx fuel l1 l2 r r1 r2 more :
  (exists l, l1 = false :: l) -> parses (read_approval tx) l1 r r1 more ->
  parses (if more then approval_loop fuel tx else mret tt) l2 r1 r2 tt ->
  parses (approval_loop (S fuel) tx) (l1 ++ l2) r r2 tt.
Proof.
  intros [l ->] H1 H2. cbn [approval_loop app]. eapply parses_peek.
  - intros s. change (Z.b2z false =? 1) with false. cbv iota. unfold approval_output.
    exact (bind_assoc_run _ (fun _ => read_approval tx) (fun more => if more : bool then _ else _) s).
  - change (false :: l ++ l2) with ((false :: l) ++ l2). by eapply parses_bind.
Qed.

Lemma parses_signers tx signers : forall next r fuel,
  0 <= next -> small (next + Z.of_nat (length signers)) ->
  Forall (fun s => fixed_ok (Signer.weight s)) signers ->
  outputs_at tx next (map signer_output signers) ->
  (length (signers_code signers next) < fuel)%nat ->
  parses (approval_loop fuel tx) (signers_code signers next) r (set_signers (_signers r ++ signers) r) tt.
Proof.
  induction signers as [|s signers IH]; intros next r fuel H0 Hn Hw Ho Hfuel;
    (destruct fuel as [|fuel]; [lia|]); cbn [signers_code] in *.
  - rewrite <- (app_nil_r (Zbits 8 0)). eapply parses_approval_turn; [by eexists|apply parses_approval_end|].
    rewrite app_nil_r. destruct r. apply parses_ret.
  - apply list.Forall_cons in Hw as [Hs Hw]. unfold small in Hn. cbn [length map] in Hn, Ho.
    pose proof (outputs_at_app tx next [signer_output s] (map signer_output signers) H0 Ho) as [Ho1 Ho2].
    assert (small (next + 1)) as Hsm by (unfold small; lia).
    destruct (fp_small_head _ Hsm) as [l Hl]. rewrite app_assoc in *.
    eapply parses_approval_turn.
    + rewrite Hl. by eexists.
    + by apply parses_read_approval.
    + rewrite length_app in Hfuel. eapply parses_eq; [apply IH|done|].
      * lia.
      * unfold small. lia.
      * done.
      * exact Ho2.
      * rewrite length_app in Hfuel. pose proof (fp_length _ (small_fixed_ok _ Hsm)). lia.
      * cbn. by rewrite <- app_assoc.
Qed.

Definition approval_code (r : DigiAssetRules) (next : Z) : list bool :=
  fp_code (_signersRequired r) ++ signers_code (_signers r) next.

Lemma parses_approval tx r0 r next :
  0 <= next -> small (next + Z.of_nat (length (_signers r))) -> fixed_ok (_signersRequired r) ->
  Forall (fun s => fixed_ok (Signer.weight s)) (_signers r) ->
  outputs_at tx next (map signer_output (_signers r)) -> _signers r0 = [] ->
  parses (decodeApproval tx) (approval_code r next) r0
    (set_signers (_signers r) (set_signersRequired (_signersRequired r) r0)) tt.
Proof.
  intros H0 Hn Hq Hw Ho Hnil. unfold decodeApproval, approval_code.
  eapply parses_bind; [by apply parses_stream, fp_reads|].
  eapply parses_bind_nil; [apply parses_rules|]. apply parses_fuel. intros fuel Hf.
  eapply parses_eq; [by apply parses_signers|done|]. cbn. by rewrite Hnil.
Qed.

(** ** Royalties *)
Definition royalty_out (royalty : Royalty.t) : RuleOutput :=
  mk_RuleOutput (Royalty.address royalty) (Royalty.amount royalty).

Definition royalty_range_code (r : DigiAssetRules) (next : Z) : list bool :=
  fp_code next ++ fp_code (Z.of_nat (length (_royalties r))).

Lemma add_royalties royalties r :
  foldl (fun r o => set_royalties (_royalties r ++ [Royalty.mk (ro_address o) (sats o)]) r) r
    (map royalty_out royalties) = set_royalties (_royalties r ++ royalties) r.
Proof.
  revert r. induction royalties as [|[] l IH]; intros r; cbn [map foldl].
  - rewrite app_nil_r. by destruct r.
  - rewrite IH. cbn. by rewrite <- app_assoc.
Qed.

Lemma parses_royalties tx r0 r next :
  0 <= next -> small (next + Z.of_nat (length (_royalties r))) ->
  outputs_at tx next (map royalty_out (_royalties r)) -> _royalties r <> [] -> _royalties r0 = [] ->
  parses (decodeRoyalties tx) (royalty_range_code r next) r0 (set_royalties (_royalties r) r0) tt.
Proof.
  intros H0 Hn Ho Hne Hnil. unfold decodeRoyalties, royalty_range_code. unfold small in Hn.
  eapply parses_bind; [apply parses_stream, fp_reads, small_fixed_ok; unfold small; lia|].
  eapply parses_bind_ret; [apply parses_stream, fp_reads, small_fixed_ok; unfold small; lia|].
  cbv zeta.
  assert (map royalty_out (_royalties r) <> []) as Hm by (by intros E%List.map_eq_nil).
  pose proof (outputs_at_bound _ _ _ H0 Ho Hm) as Hb. rewrite length_map in Hb.
  rewrite (u32_small next), (u32_small (Z.of_nat _)) by (unfold two32; lia).
  rewrite u32_small by (unfold two32; lia).
  rewrite (proj2 (Z.ltb_ge _ _)) by lia.
  rewrite <- (length_map royalty_out). eapply parses_eq.
  - apply (parses_outputs tx (map royalty_out (_royalties r)) _
      (fun o r => set_royalties (_royalties r ++ [Royalty.mk (ro_address o) (sats o)]) r)); [|done|done].
    intros i v o k r' Hv Hi Ha Hs.
    eapply parses_bind_nil; [by apply parses_vout_at|].
    eapply parses_bind_nil; [by eapply parses_first_address|]. rewrite <- Hs.
    apply (parses_rules (fun r => set_royalties (_royalties r ++ _) r)).
  - done.
  - rewrite add_royalties. by rewrite Hnil.
Qed.

Definition units_code (i : Z) : list bool := Zbits 1 1 ++ Zbits 7 i.

Lemma parses_units tx r0 i rate :
  0 <= i < 20 -> standardExchangeRates !! Z.to_nat i = Some rate ->
  parses (decodeRoyaltyUnits tx) (units_code i) r0 (set_exchangeRate rate r0) tt.
Proof.
  intros Hi Hr. unfold decodeRoyaltyUnits, units_code.
  eapply parses_bind; [apply parses_stream, reads_getBits; lia|]. cbv iota beta.
  change (1 =? 1) with true. cbv iota.
  eapply parses_bind_ret; [apply parses_stream, reads_getBits; lia|].
  rewrite (proj2 (Z.leb_gt _ _)) by (unfold standardExchangeRatesCount; lia).
  eapply parses_bind_nil; [apply parses_vec_at; [lia|done]|]. apply parses_rules.
Qed.

Lemma find_rate_spec rate l : forall i j,
  find_rate rate l i = Some j ->
  i <= j < i + Z.of_nat (length l) /\ exists s, l !! Z.to_nat (j - i) = Some s
    /\ ExchangeRate.address s = ExchangeRate.address rate /\ ExchangeRate.index s = ExchangeRate.index rate.
Proof.
  induction l as [|s l IH]; intros i j H; [done|]. cbn [find_rate] in H.
  destruct (bool_decide _ && _) eqn:E.
  - simplify_eq. apply andb_true_iff in E as [Ea Ei]. apply bool_decide_eq_true in Ea.
    apply Z.eqb_eq in Ei. cbn [length]. split; [lia|]. exists s. by rewrite Z.sub_diag.
  - destruct (IH _ _ H) as (Hj & s' & Hs & Ha). cbn [length]. split; [lia|]. exists s'.
    split; [|done]. replace (Z.to_nat (j - i)) with (S (Z.to_nat (j - (i + 1)))) by lia. done.
Qed.

(** ** Geofence *)
Definition geofence_code (countries : list string) : list bool :=
  concat (map country_code countries) ++ end_code.

Lemma reads_country country :
  is_country country ->
  reads (get3B40String 3) (country_code country) (str (map tolower (chars country))).
Proof.
  intros Hc. destruct (lower_country_ok _ Hc) as (H1 & H2 & H3).
  pose proof (get3B40String_reads _ H1 H2) as H. rewrite H3 in H. by rewrite chars_str in H.
Qed.

Lemma upper_lower country : is_country country -> str (map toupper (map tolower (chars country))) = country.
Proof.
  intros [_ Hc]. rewrite List.map_map. rewrite <- (str_chars country) at 2. f_equal.
  rewrite <- (List.map_id (chars country)) at 2. apply List.map_ext_Forall.
  eapply Forall_impl; [exact Hc|]. intros c H. apply (letter_lower c H).
Qed.

Lemma country_not_end country : is_country country -> country <> "..."%string.
Proof.
  intros [_ Hc] ->. inversion_clear Hc. unfold is_letter in *.
  revert H. vm_compute. intuition.
Qed.

Lemma parses_countries countries : forall r fuel,
  Forall is_country countries -> (length (geofence_code countries) < fuel)%nat ->
  parses (geofence_loop fuel) (geofence_code countries) r
    (set_countryList (_countryList r ++ countries) r) tt.
Proof.
  induction countries as [|c l IH]; intros r fuel Hc Hf;
    (destruct fuel as [|fuel]; [lia|]); cbn [geofence_loop].
  - unfold geofence_code. cbn [map concat app].
    eapply parses_bind_ret.
    + apply parses_stream. destruct end_ok. by apply (get3B40String_reads "...").
    + change (str (map toupper (chars "..."))) with "..."%string. rewrite app_nil_r.
      destruct r. apply parses_ret.
  - apply list.Forall_cons in Hc as [Hc Hl]. unfold geofence_code in *. cbn [map concat] in *.
    rewrite <- app_assoc in *.
    eapply parses_bind; [by apply parses_stream, reads_country|]. cbv zeta.
    rewrite chars_str, upper_lower by done. rewrite bool_decide_eq_false_2 by (by apply country_not_end).
    eapply parses_bind_nil; [apply (parses_rules (fun r => set_countryList (_countryList r ++ [c]) r))|].
    eapply parses_eq; [apply IH|done|]; [done| |by cbn; rewrite <- app_assoc].
    rewrite length_app in Hf.
    assert (length (country_code c) <> 0%nat); [|lia].
    destruct Hc as [H3 _]. unfold country_code. destruct (three_chars _ H3) as (x & y & z & ->).
    unfold b40_code. cbn [map b40_triples fmap list_fmap concat fst].
    rewrite !length_app, length_Zbits. lia.
Qed.

Lemma parses_geofence countries r0 :
  Forall is_country countries -> _countryList r0 = [] ->
  parses decodeGeofence (geofence_code countries) r0 (set_countryList countries r0) tt.
Proof.
  intros Hc Hnil. unfold decodeGeofence. apply parses_fuel. intros fuel Hf.
  eapply parses_eq; [by apply parses_countries|done|]. by rewrite Hnil.
Qed.

(** ** Votes and expiry *)
Definition relabel (options : list VoteOption.t) : list VoteOption.t :=
  map (fun o => VoteOption.mk (VoteOption.address o) "") options.
Definition vote_output (option : VoteOption.t) : RuleOutput :=
  mk_RuleOutput (VoteOption.address option) DIGIBYTE_DUST.

Definition vote_code (r : DigiAssetRules) (next : Z) : list bool :=
  Zbits 1 (if _movable r then 1 else 0) ++ Zbits 7 (Z.of_nat (length (_voteOptions r)))
  ++ fp_code (if expires r then _expiry r else 0)
  ++ fp_code (if negb (getIfVote r) || usesStandardVoteAddresses r then 0 else next + 1).

Lemma add_options options r :
  foldl (fun r o => set_voteOptions (_voteOptions r ++ [VoteOption.mk (VoteOption.address o) ""]) r) r options
  = set_voteOptions (_voteOptions r ++ relabel options) r.
Proof.
  revert r. induction options as [|o l IH]; intros r; cbn [foldl relabel map].
  - rewrite app_nil_r. by destruct r.
  - rewrite IH. cbn. by rewrite <- app_assoc.
Qed.

Lemma add_option_outputs options r :
  foldl (fun r o => set_voteOptions (_voteOptions r ++ [VoteOption.mk (ro_address o) ""]) r) r
    (map vote_output options) = set_voteOptions (_voteOptions r ++ relabel options) r.
Proof. rewrite <- add_options. by rewrite foldl_fmap. Qed.

Lemma is_prefix_of_lookup options standard j o :
  is_prefix_of options standard = true -> options !! j = Some o ->
  standard !! j = Some (VoteOption.address o).
Proof.
  revert standard j. induction options as [|o' l IH]; intros standard j Hp Hj; [done|].
  destruct standard as [|a standard]; [done|]. cbn in Hp.
  apply andb_true_iff in Hp as [Ha Hp]. apply bool_decide_eq_true in Ha.
  destruct j as [|j]; simpl in *; simplify_eq; [by f_equal|by apply IH].
Qed.

Lemma usesStandard_spec r :
  usesStandardVoteAddresses r = true ->
  Z.of_nat (length (_voteOptions r)) <= 50
  /\ forall j o, _voteOptions r !! j = Some o -> standardVoteAddresses !! j = Some (VoteOption.address o).
Proof.
  unfold usesStandardVoteAddresses, standardVoteCount. destruct (Z.ltb_spec 50 (Z.of_nat (length (_voteOptions r)))); [done|].
  intros H'. split; [done|]. intros j o. by apply is_prefix_of_lookup.
Qed.

Lemma parses_emplace_option address r :
  parses (emplace_option address) [] r (set_voteOptions (_voteOptions r ++ [VoteOption.mk address ""]) r) tt.
Proof. apply (parses_rules (fun r => set_voteOptions (_voteOptions r ++ _) r)). Qed.

(** The address list, by its two sources. *)
Lemma parses_standard_options r r0 :
  usesStandardVoteAddresses r = true ->
  parses (for_each (counted 0 (Z.of_nat (length (_voteOptions r)))) (fun i =>
    address ← vec_at standardVoteAddresses i; emplace_option address)) []
    r0 (set_voteOptions (_voteOptions r0 ++ relabel (_voteOptions r)) r0) tt.
Proof.
  intros Hs. destruct (usesStandard_spec r Hs) as [_ Hl]. rewrite <- add_options.
  pose proof (parses_counted (fun i => address ← vec_at standardVoteAddresses i; emplace_option address)
    (fun o r => set_voteOptions (_voteOptions r ++ [VoteOption.mk (VoteOption.address o) ""]) r)
    (_voteOptions r) 0 r0) as H. apply H. intros j o r' Hj.
  eapply parses_bind_nil; [apply parses_vec_at; [lia|]|apply parses_emplace_option].
  replace (Z.to_nat (0 + Z.of_nat j)) with j by lia. by apply Hl.
Qed.

Lemma parses_output_options tx options next r0 :
  0 <= next -> outputs_at tx next (map vote_output options) ->
  parses (for_each (counted next (next + Z.of_nat (length options))) (fun outputNum =>
    o ← vout_at tx outputNum;
    if no_address o then throw (out_of_range "vote output has no address")
    else address ← first_address o; emplace_option address)) []
    r0 (set_voteOptions (_voteOptions r0 ++ relabel options) r0) tt.
Proof.
  intros H0 Ho. rewrite <- add_option_outputs, <- (length_map vote_output).
  apply (parses_outputs tx (map vote_output options) _
    (fun o r => set_voteOptions (_voteOptions r ++ [VoteOption.mk (ro_address o) ""]) r)); [|done|done].
  intros i v o k r' Hv Hi Ha _.
  eapply parses_bind_nil; [by apply parses_vout_at|]. rewrite (has_address _ _ _ Ha).
  eapply parses_bind_nil; [by eapply parses_first_address|]. apply parses_emplace_option.
Qed.

(** What the vote rule leaves in the rules. *)
Definition with_vote (r : DigiAssetRules) (cid : string) (r0 : DigiAssetRules) : DigiAssetRules :=
  let r1 := set_expiry (_expiry r) (set_movable (_movable r) r0) in
  if getIfVote r then set_voteLabelsCID cid (set_voteOptions (relabel (_voteOptions r)) r1) else r1.

Definition vote_ok (r : DigiAssetRules) : Prop :=
  Z.of_nat (length (_voteOptions r)) <= 127
  /\ (expires r = true -> fixed_ok (_expiry r) /\ _expiry r <> 0).

Lemma getIfVote_false r : getIfVote r = false <-> _voteOptions r = [].
Proof. unfold getIfVote. rewrite negb_false_iff. apply bool_decide_eq_true. Qed.

Lemma getIfVote_true r : getIfVote r = true <-> _voteOptions r <> [].
Proof. unfold getIfVote. rewrite negb_true_iff. apply bool_decide_eq_false. Qed.

Lemma expires_false r : expires r = false <-> _expiry r = EXPIRE_NEVER.
Proof. unfold expires. rewrite negb_false_iff. apply Z.eqb_eq. Qed.

Lemma parses_vote tx cid r r0 next :
  0 <= next -> small (next + Z.of_nat (length (_voteOptions r)) + 1) -> vote_ok r ->
  (getIfVote r && negb (usesStandardVoteAddresses r) = true ->
     outputs_at tx next (map vote_output (_voteOptions r))) ->
  _rewritable r0 = false -> _voteOptions r0 = [] -> _expiry r0 = EXPIRE_NEVER ->
  parses (decodeVoteAndExpiry tx cid) (vote_code r next) r0 (with_vote r cid r0) tt.
Proof.
  intros H0 Hn [Hlen Hexp] Ho Hrw Hnil Hnever. unfold decodeVoteAndExpiry, vote_code.
  unfold small in Hn.
  eapply parses_gets; [intros s ->; exact Hrw|]. cbv iota.
  eapply parses_bind; [apply parses_stream, reads_getBits; [lia|destruct (_movable r); lia]|].
  eapply parses_bind_nil; [apply parses_rules|].
  eapply parses_bind; [apply parses_stream, reads_getBits; lia|].
  eapply parses_bind; [apply parses_stream, fp_reads|].
  { destruct (expires r); [by apply Hexp|]. by unfold fixed_ok. }
  eapply parses_bind_ret; [apply parses_stream, fp_reads|].
  { destruct (_ || _); [by unfold fixed_ok|]. apply small_fixed_ok. unfold small. lia. }
  assert ((if _movable r then 1 else 0) =? 1 = _movable r) as -> by (by destruct (_movable r)).
  cbv zeta. eapply (parses_bind_nil _ _ _ _ (set_expiry (_expiry r) (set_movable (_movable r) r0))).
  { destruct (expires r) eqn:E.
    - rewrite (proj2 (Z.eqb_neq _ 0)) by (by apply Hexp). apply parses_rules.
    - apply expires_false in E. rewrite E. destruct r0. cbn in Hnever. subst. apply parses_ret. }
  unfold with_vote. destruct (getIfVote r) eqn:Ev.
  - pose proof (proj1 (getIfVote_true r) Ev) as Hne.
    rewrite (proj2 (Z.eqb_neq _ 0)) by (destruct (_voteOptions r); [done|simpl; lia]).
    destruct (usesStandardVoteAddresses r) eqn:Es; cbn [negb orb].
    + destruct (usesStandard_spec r Es) as [H50 _].
      change (i32 (u64 (0 - 1)) =? -1) with true. cbv iota. unfold standardVoteCount.
      rewrite (proj2 (Z.ltb_ge 50 _)) by done.
      eapply parses_bind_nil; [by apply parses_standard_options|]. cbn. rewrite Hnil.
      apply (parses_rules (set_voteLabelsCID cid)).
    + specialize (Ho eq_refl). replace (next + 1 - 1) with next by lia.
      rewrite u64_small by (unfold two64; lia).
      assert (i32 next = next) as -> by (unfold i32, two32; lia).
      rewrite (proj2 (Z.eqb_neq next (-1))), (proj2 (Z.ltb_ge next 0)) by lia. cbn [orb].
      assert (map vote_output (_voteOptions r) <> []) as Hm by (by intros E%List.map_eq_nil).
      pose proof (outputs_at_bound _ _ _ H0 Ho Hm) as Hb. rewrite length_map in Hb.
      rewrite u64_small by (unfold two64; lia). rewrite (proj2 (Z.ltb_ge _ _)) by done.
      rewrite u32_small by (unfold two32; lia).
      eapply parses_bind_nil; [by apply parses_output_options|]. cbn. rewrite Hnil.
      apply (parses_rules (set_voteLabelsCID cid)).
  - apply getIfVote_false in Ev. rewrite Ev. apply parses_ret.
Qed.

Lemma parses_deflation r0 v :
  fixed_ok v -> parses decodeDeflation (fp_code v) r0 (set_deflate v r0) tt.
Proof.
  intros Hv. eapply parses_bind_ret; [by apply parses_stream, fp_reads|]. apply parses_rules.
Qed.
