(* ===== verification/RulesEncoder.v ===== *)
(** RulesEncoder: the bits [DigiAssetRules::encode] writes, rule by rule, and
    the composition of the rule decoders into the decoding constructor. *)

From S2P Require Import Prelude.
From S2P Require Import BitIO.
From S2P Require Import BitIOBlocks.
From S2P Require Import BitStream.
From S2P Require Import BitIOCodec.
From S2P Require Import BitIOText.
From S2P Require Import BitIONumbers.
From S2P Require Import Serialize.
From S2P Require Import AssetTypes.
From S2P Require Import DigiAssetRules.
From S2P Require Import RulesCodec.

Ltac Zify.zify_post_hook ::= Z.div_mod_to_equations.

(** ** What can be encoded *)
Record encodable (r : DigiAssetRules) (first : Z) : Prop := {
  enc_rules : _noRules r = false;
  enc_outputs : 0 <= first /\ small (first + Z.of_nat (length (_signers r))
    + Z.of_nat (length (_royalties r)) + Z.of_nat (length (_voteOptions r)) + 1);
  enc_signers : if 0 <? _signersRequired r
    then fixed_ok (_signersRequired r) /\ Forall (fun s => fixed_ok (Signer.weight s)) (_signers r)
    else _signersRequired r = 0 /\ _signers r = [];
  enc_rate : ExchangeRate.enabled (_exchangeRate r) = true ->
    _royalties r <> [] /\ is_Some (find_rate (_exchangeRate r) standardExchangeRates 0);
  enc_countries : Forall is_country (_countryList r);
  enc_vote : if getIfVote r || expires r then _rewritable r = false /\ vote_ok r else _movable r = true;
  enc_deflate : fixed_ok (_deflate r)
}.

(** ** The bits of each rule *)
Definition rule (present : bool) (nibble : Z) (l : list bool) : list bool :=
  if present then Zbits 4 nibble ++ l else [].

Fixpoint signer_entries (signers : list Signer.t) (next : Z) : list bool :=
  match signers with
  | [] => []
  | s :: signers => fp_code (next + 1) ++ fp_code (Signer.weight s) ++ signer_entries signers (next + 1)
  end.

Lemma signers_code_entries signers next :
  signers_code signers next = signer_entries signers next ++ Zbits 8 0.
Proof.
  revert next. induction signers as [|s l IH]; intros next; [done|].
  cbn [signers_code signer_entries]. by rewrite IH, <- !app_assoc.
Qed.

Definition rate_index (r : DigiAssetRules) : Z := default 0 (find_rate (_exchangeRate r) standardExchangeRates 0).

Definition approval_bits r first := rule (0 <? _signersRequired r) RULE_APPROVAL (approval_code r first).
Definition royalty_bits r next :=
  if ExchangeRate.enabled (_exchangeRate r)
  then rule (getIfRequiresRoyalty r) RULE_ROYALTY_UNITS (units_code (rate_index r) ++ royalty_range_code r next)
  else rule (getIfRequiresRoyalty r) RULE_ROYALTIES (royalty_range_code r next).
Definition geofence_bits r :=
  rule (getIfGeoFenced r) (if _countryListIsBan r then RULE_GEOFENCE_DENIED else RULE_GEOFENCE_ALLOWED)
    (geofence_code (_countryList r)).
Definition vote_bits r next := rule (getIfVote r || expires r) RULE_VOTE (vote_code r next).
Definition deflation_bits r := rule (negb (_deflate r =? 0)) RULE_DEFLATION (fp_code (_deflate r)).

Definition after_signers (r : DigiAssetRules) (first : Z) : Z := first + Z.of_nat (length (_signers r)).
Definition after_royalties (r : DigiAssetRules) (first : Z) : Z :=
  after_signers r first + Z.of_nat (length (_royalties r)).

Definition rules_code (r : DigiAssetRules) (first : Z) : list bool :=
  approval_bits r first ++ royalty_bits r (after_signers r first) ++ geofence_bits r
  ++ vote_bits r (after_royalties r first) ++ deflation_bits r ++ Zbits 4 RULE_END.

(** ** The encoder writes them *)
Lemma emits_append_stream o l :
  built o l -> Z.of_nat (length l) < two64 - 64 -> emits (append_stream o) l tt.
Proof.
  intros Hb Hl. destruct (built_rest o l Hb) as (r & -> & Hw & _ & _ & Hlen).
  destruct Hb as (r' & [= <-] & _ & _ & <-). unfold append_stream.
  change (with_value r appendBits_BitIO) with ((fun b => with_value b appendBits_BitIO) r).
  eapply emits_bind_ret.
  - intros b Hb. exists b. split; [reflexivity|by apply appended_nil].
  - apply emits_with_value; [done|unfold fits; lia].
Qed.

Lemma emits_fp v : fixed_ok v -> emits (appendFixedPrecision v) (fp_code v) tt.
Proof.
  intros Hv. apply emits_append_stream; [by apply fp_built|].
  pose proof (fp_length v Hv). unfold two64. lia.
Qed.

Lemma emits_3B40 s :
  Forall is_b40 (chars s) -> b40_tail_fits s -> length (chars s) = 3%nat ->
  emits (append3B40 s) (b40_code (chars s)) tt.
Proof.
  intros H1 H2 H3. apply emits_append_stream; [by apply make3B40String_built|].
  destruct (three_chars _ H3) as (x & y & z & ->). unfold b40_code.
  cbn [b40_triples fmap list_fmap concat fst b40_tail b40_tail_code].
  rewrite !length_app, length_Zbits. unfold two64. simpl. lia.
Qed.

Lemma emits_signers signers : forall next,
  0 <= next -> small (next + Z.of_nat (length signers)) ->
  Forall (fun s => fixed_ok (Signer.weight s)) signers ->
  emits (encode_signers signers next) (signer_entries signers next) (next + Z.of_nat (length signers)).
Proof.
  induction signers as [|s l IH]; intros next H0 Hn Hw; cbn [encode_signers signer_entries].
  - rewrite Z.add_0_r. apply emits_ret.
  - apply list.Forall_cons in Hw as [Hs Hw]. unfold small in Hn. cbn [length] in Hn.
    rewrite u32_small by (unfold two32; lia).
    eapply emits_bind; [apply emits_fp, small_fixed_ok; unfold small; lia|].
    eapply emits_bind; [by apply emits_fp|].
    replace (next + Z.of_nat (length (s :: l))) with (next + 1 + Z.of_nat (length l)) by (simpl; lia).
    apply IH; [lia|unfold small; lia|done].
Qed.

Section encode.
Context (r : DigiAssetRules) (first : Z) (Henc : encodable r first).

Lemma emits_approval : emits (encode_approval r first) (approval_bits r first) (after_signers r first).
Proof.
  destruct Henc as [_ [H0 Hn] Hs _ _ _ _]. unfold encode_approval, approval_bits, rule, after_signers, small in *.
  destruct (0 <? _signersRequired r).
  - destruct Hs as [Hq Hw]. unfold approval_code. rewrite signers_code_entries.
    eapply emits_bind; [apply emits_appendBits; unfold RULE_APPROVAL; lia|].
    eapply emits_bind; [by apply emits_fp|].
    eapply emits_bind; [apply emits_signers; [done|unfold small; lia|done]|].
    rewrite <- (app_nil_r (Zbits 8 0)).
    eapply emits_bind; [apply emits_appendBits; lia|apply emits_ret].
  - destruct Hs as [_ ->]. rewrite Z.add_0_r. apply emits_ret.
Qed.

Lemma emits_royalties :
  emits (encode_royalties r (after_signers r first)) (royalty_bits r (after_signers r first))
    (after_royalties r first).
Proof.
  destruct Henc as [_ [H0 Hn] _ Hr _ _ _].
  unfold encode_royalties, royalty_bits, after_royalties, after_signers, rule, small in *.
  destruct (getIfRequiresRoyalty r) eqn:E.
  - assert (forall l, emits (if ExchangeRate.enabled (_exchangeRate r)
        then appendBits RULE_ROYALTY_UNITS 4;; appendBits 1 1;;
             index ← standardExchangeRateIndex r; appendBits index 7
        else appendBits RULE_ROYALTIES 4) l tt ->
      emits ((if ExchangeRate.enabled (_exchangeRate r)
        then appendBits RULE_ROYALTY_UNITS 4;; appendBits 1 1;;
             index ← standardExchangeRateIndex r; appendBits index 7
        else appendBits RULE_ROYALTIES 4);;
        appendFixedPrecision (first + Z.of_nat (length (_signers r)));;
        appendFixedPrecision (Z.of_nat (length (_royalties r)));;
        mret (u32 (first + Z.of_nat (length (_signers r)) + Z.of_nat (length (_royalties r)))))
        (l ++ royalty_range_code r (first + Z.of_nat (length (_signers r))))
        (first + Z.of_nat (length (_signers r)) + Z.of_nat (length (_royalties r)))) as Hrange.
    { intros l Hl. eapply emits_bind; [exact Hl|]. unfold royalty_range_code.
      eapply emits_bind; [apply emits_fp, small_fixed_ok; unfold small; lia|].
      rewrite <- (app_nil_r (fp_code (Z.of_nat _))).
      eapply emits_bind; [apply emits_fp, small_fixed_ok; unfold small; lia|].
      rewrite u32_small by (unfold two32; lia). apply emits_ret. }
    destruct (ExchangeRate.enabled (_exchangeRate r)) eqn:Er.
    + destruct (Hr eq_refl) as [_ [i Hi]]. destruct (find_rate_spec _ _ _ _ Hi) as [Hb _].
      change (Z.of_nat (length standardExchangeRates)) with 20 in Hb.
      rewrite (app_assoc (Zbits 4 _)). apply Hrange.
      eapply emits_bind; [apply emits_appendBits; unfold RULE_ROYALTY_UNITS; lia|]. unfold units_code.
      eapply emits_bind; [apply emits_appendBits; lia|]. unfold standardExchangeRateIndex, rate_index.
      rewrite Hi. change (default 0 (Some i)) with i. unfold u8. rewrite Z.mod_small by lia.
      eapply emits_bind_ret; [apply emits_ret|]. apply emits_appendBits; lia.
    + apply Hrange. apply emits_appendBits; unfold RULE_ROYALTIES; lia.
  - unfold getIfRequiresRoyalty in E. apply negb_false_iff, bool_decide_eq_true in E. rewrite E.
    rewrite Z.add_0_r. destruct (ExchangeRate.enabled _); apply emits_ret.
Qed.

Lemma emits_geofence : emits (encode_geofence r) (geofence_bits r) tt.
Proof.
  destruct Henc as [_ _ _ _ Hc _ _]. unfold encode_geofence, geofence_bits, rule.
  apply emits_when. intros _. unfold geofence_code.
  eapply emits_bind; [apply emits_appendBits; unfold RULE_GEOFENCE_DENIED, RULE_GEOFENCE_ALLOWED; destruct (_countryListIsBan r); lia|].
  eapply emits_bind.
  - apply (emits_for_each _ _ country_code). intros c Hin.
    pose proof (proj1 (Forall_forall _ _) Hc c Hin) as Hco.
    destruct (lower_country_ok _ Hco) as (H1 & H2 & H3).
    unfold encode_country. destruct Hco as [Hl _].
    assert (String.length c = 3%nat) as ->.
    { rewrite <- Hl. unfold chars. clear. induction c; simpl; congruence. }
    cbn [Nat.eqb negb]. pose proof (emits_3B40 _ H1 H2 H3) as H. by rewrite chars_str in H.
  - destruct end_ok. by apply (emits_3B40 "...").
Qed.

Lemma emits_vote :
  exists next, emits (encode_vote r (after_royalties r first)) (vote_bits r (after_royalties r first)) next.
Proof.
  destruct Henc as [_ [H0 Hn] _ _ _ Hv _].
  unfold encode_vote, vote_bits, rule. unfold after_royalties, after_signers, small in *.
  set (next := first + Z.of_nat (length (_signers r)) + Z.of_nat (length (_royalties r))) in *.
  destruct (getIfVote r || expires r).
  - destruct Hv as [Hrw [Hlen Hexp]]. rewrite Hrw. rewrite (proj2 (Z.ltb_ge 127 _)) by done.
    unfold vote_code.
    assert (forall k, emits (if negb (getIfVote r) || usesStandardVoteAddresses r
        then appendFixedPrecision 0;; mret next
        else appendFixedPrecision (u32 (next + 1));; mret (u32 (next + Z.of_nat (length (_voteOptions r)))))
        (fp_code (if negb (getIfVote r) || usesStandardVoteAddresses r then 0 else next + 1)) k ->
      emits (appendBits RULE_VOTE 4;;
        appendBits (if _movable r then 1 else 0) 1;;
        appendBits (Z.of_nat (length (_voteOptions r))) 7;;
        appendFixedPrecision (if expires r then _expiry r else 0);;
        if negb (getIfVote r) || usesStandardVoteAddresses r
        then appendFixedPrecision 0;; mret next
        else appendFixedPrecision (u32 (next + 1));; mret (u32 (next + Z.of_nat (length (_voteOptions r)))))
        (Zbits 4 RULE_VOTE ++ Zbits 1 (if _movable r then 1 else 0)
         ++ Zbits 7 (Z.of_nat (length (_voteOptions r))) ++ fp_code (if expires r then _expiry r else 0)
         ++ fp_code (if negb (getIfVote r) || usesStandardVoteAddresses r then 0 else next + 1)) k) as Hall.
    { intros k Hk.
      eapply emits_bind; [apply emits_appendBits; unfold RULE_VOTE; lia|].
      eapply emits_bind; [apply emits_appendBits; [lia|destruct (_movable r); lia]|].
      eapply emits_bind; [apply emits_appendBits; lia|].
      eapply emits_bind; [apply emits_fp|exact Hk].
      destruct (expires r); [by apply Hexp|]. by unfold fixed_ok. }
    destruct (negb (getIfVote r) || usesStandardVoteAddresses r).
    + exists next. apply Hall. rewrite <- (app_nil_r (fp_code 0)).
      eapply emits_bind; [by apply emits_fp|apply emits_ret].
    + eexists. apply Hall. rewrite !u32_small by (unfold two32; lia).
      rewrite <- (app_nil_r (fp_code (next + 1))).
      eapply emits_bind; [apply emits_fp, small_fixed_ok; unfold small; lia|apply emits_ret].
  - exists next. apply emits_ret.
Qed.

Lemma emits_deflation : emits (encode_deflation r) (deflation_bits r) tt.
Proof.
  destruct Henc as [_ _ _ _ _ _ Hd]. apply emits_when. intros _.
  eapply emits_bind; [apply emits_appendBits; unfold RULE_DEFLATION; lia|by apply emits_fp].
Qed.
End encode.

(** ** The decoding constructor reads them *)
Lemma parses_end tx cid fuel r :
  (4 < fuel)%nat -> parses (rules_loop fuel tx cid) (Zbits 4 RULE_END) r r tt.
Proof.
  intros Hf. destruct fuel as [|fuel]; [lia|]. cbn [rules_loop].
  eapply parses_bind_ret; [apply parses_stream, reads_getBits; unfold RULE_END; lia|].
  eapply parses_bind_nil; apply parses_ret.
Qed.

Lemma parses_rule tx cid fuel (present : bool) nibble l k r r1 r2 :
  0 <= nibble < 15 ->
  (present = true -> parses (decode_rule tx cid nibble) l r r1 tt) ->
  (present = false -> r1 = r) ->
  (forall fuel, (length k < fuel)%nat -> parses (rules_loop fuel tx cid) k r1 r2 tt) ->
  (length (rule present nibble l ++ k) < fuel)%nat ->
  parses (rules_loop fuel tx cid) (rule present nibble l ++ k) r r2 tt.
Proof.
  intros Hn Hp Ha Hk Hf. unfold rule in *. destruct present.
  - destruct fuel as [|fuel]; [lia|]. cbn [rules_loop].
    rewrite !length_app, length_Zbits in Hf. rewrite <- app_assoc.
    eapply parses_bind; [apply parses_stream, reads_getBits; lia|].
    eapply parses_bind; [by apply Hp|].
    rewrite (proj2 (Z.eqb_neq _ _)) by (unfold RULE_END; lia). apply Hk. lia.
  - rewrite Ha in Hk by done. by apply Hk.
Qed.

Definition decoded_rate (r : DigiAssetRules) : ExchangeRate.t :=
  if ExchangeRate.enabled (_exchangeRate r)
  then default ExchangeRate.empty (standardExchangeRates !! Z.to_nat (rate_index r))
  else ExchangeRate.empty.

Definition decoded_rules (r : DigiAssetRules) (cid : string) : DigiAssetRules :=
  mk_rules false (_rewritable r) (_movable r) (_signersRequired r) (_signers r) (decoded_rate r)
    (_royalties r) (_countryList r) (_countryListIsBan r) (_expiry r) (relabel (_voteOptions r))
    (_deflate r) (if getIfVote r then cid else "").

(** The outputs the encoder's caller must have added. *)
Definition required_outputs (r : DigiAssetRules) : list RuleOutput :=
  map signer_output (_signers r) ++ map royalty_out (_royalties r)
  ++ (if getIfVote r && negb (usesStandardVoteAddresses r) then map vote_output (_voteOptions r) else []).

Lemma royalty_outputs_ok royalties outs :
  royalty_outputs royalties = Ok outs ->
  outs = map royalty_out royalties /\ Forall (fun x => DIGIBYTE_DUST <= Royalty.amount x) royalties.
Proof.
  revert outs. induction royalties as [|x l IH]; intros outs H; simpl in H; [by simplify_eq|].
  unfold royalty_output in H. destruct (Z.ltb_spec (Royalty.amount x) DIGIBYTE_DUST); [done|].
  simpl in H. destruct (royalty_outputs l) as [outs'| | |]; simplify_eq/=.
  destruct (IH outs' eq_refl) as [-> ?]. by split; [|apply List.Forall_cons].
Qed.

Lemma getRequiredOutputs_ok r outs :
  _noRules r = false -> getRequiredOutputs r = Ok outs -> outs = required_outputs r.
Proof.
  unfold getRequiredOutputs, required_outputs. intros -> H. simpl in H.
  destruct (royalty_outputs (_royalties r)) as [l| | |] eqn:E; simplify_eq/=.
  by destruct (royalty_outputs_ok _ _ E) as [-> _].
Qed.

Section decode.
Context (tx : getrawtransaction_t) (cid : string) (r : DigiAssetRules) (first : Z).
Context (Henc : encodable r first) (Hout : outputs_at tx first (required_outputs r)).

Lemma outputs_split :
  outputs_at tx first (map signer_output (_signers r))
  /\ outputs_at tx (after_signers r first) (map royalty_out (_royalties r))
  /\ (getIfVote r && negb (usesStandardVoteAddresses r) = true ->
      outputs_at tx (after_royalties r first) (map vote_output (_voteOptions r))).
Proof.
  destruct (enc_outputs r first Henc) as [H0 _]. unfold required_outputs in Hout.
  destruct (outputs_at_app _ _ _ _ H0 Hout) as [H1 H2]. rewrite length_map in H2.
  apply outputs_at_app in H2 as [H2 H3]; [|lia]. rewrite length_map in H3.
  split_and!; try done. intros Hv. by rewrite Hv in H3.
Qed.

Lemma parses_approval_rule k r0 r2 :
  _signersRequired r0 = 0 -> _signers r0 = [] ->
  (forall fuel, (length k < fuel)%nat ->
     parses (rules_loop fuel tx cid) k (set_signers (_signers r) (set_signersRequired (_signersRequired r) r0)) r2 tt) ->
  forall fuel, (length (approval_bits r first ++ k) < fuel)%nat ->
  parses (rules_loop fuel tx cid) (approval_bits r first ++ k) r0 r2 tt.
Proof.
  intros Hz Hnil Hk fuel Hf. pose proof (enc_signers r first Henc) as Hs.
  destruct (enc_outputs r first Henc) as [H0 Hn]. destruct outputs_split as [Ho _]. unfold small in Hn.
  eapply parses_rule; [unfold RULE_APPROVAL; lia| | |exact Hk|exact Hf]; intros E; rewrite E in Hs.
  - apply (parses_approval tx); try tauto. unfold small. lia.
  - destruct Hs as [-> ->]. destruct r0. cbn in *. by subst.
Qed.

Lemma parses_royalty_rule k r0 r2 :
  _royalties r0 = [] -> _exchangeRate r0 = ExchangeRate.empty ->
  (forall fuel, (length k < fuel)%nat ->
     parses (rules_loop fuel tx cid) k (set_royalties (_royalties r) (set_exchangeRate (decoded_rate r) r0)) r2 tt) ->
  forall fuel, (length (royalty_bits r (after_signers r first) ++ k) < fuel)%nat ->
  parses (rules_loop fuel tx cid) (royalty_bits r (after_signers r first) ++ k) r0 r2 tt.
Proof.
  intros Hnil Hrate Hk fuel Hf. pose proof (enc_rate r first Henc) as Hr.
  destruct (enc_outputs r first Henc) as [H0 Hn]. destruct outputs_split as (_ & Ho & _).
  unfold small in Hn. unfold royalty_bits, decoded_rate in *.
  assert (forall r1, _royalties r1 = [] -> getIfRequiresRoyalty r = true ->
    parses (decodeRoyalties tx) (royalty_range_code r (after_signers r first)) r1 (set_royalties (_royalties r) r1) tt)
    as Hrange.
  { intros r1 Hr1 E. apply parses_royalties; try done; unfold after_signers, small in *; try lia.
    unfold getIfRequiresRoyalty in E. by apply negb_true_iff, bool_decide_eq_false in E. }
  destruct (ExchangeRate.enabled (_exchangeRate r)).
  - destruct (Hr eq_refl) as [Hne [i Hi]]. destruct (find_rate_spec _ _ _ _ Hi) as (Hb & s & Hs & _).
    change (Z.of_nat (length standardExchangeRates)) with 20 in Hb. rewrite Z.sub_0_r in Hs.
    unfold rate_index in *. rewrite Hi in *. change (default 0 (Some i)) with i in *. rewrite Hs in *.
    eapply parses_rule; [unfold RULE_ROYALTY_UNITS; lia| | |exact Hk|exact Hf].
    + intros E. eapply (parses_bind (decodeRoyaltyUnits tx)); [apply parses_units; [lia|exact Hs]|].
      by apply Hrange.
    + unfold getIfRequiresRoyalty. intros E. apply negb_false_iff, bool_decide_eq_true in E. done.
  - eapply parses_rule; [unfold RULE_ROYALTIES; lia| | |exact Hk|exact Hf].
    + intros E. eapply parses_eq; [by apply Hrange|done|]. destruct r0. cbn in *. by subst.
    + unfold getIfRequiresRoyalty. intros E. apply negb_false_iff, bool_decide_eq_true in E. rewrite E.
      destruct r0. cbn in *. by subst.
Qed.

Lemma parses_geofence_rule k r0 r2 :
  _countryList r0 = [] -> _countryListIsBan r0 = false ->
  (forall fuel, (length k < fuel)%nat ->
     parses (rules_loop fuel tx cid) k
       (set_countryList (_countryList r) (set_countryListIsBan (_countryListIsBan r) r0)) r2 tt) ->
  forall fuel, (length (geofence_bits r ++ k) < fuel)%nat ->
  parses (rules_loop fuel tx cid) (geofence_bits r ++ k) r0 r2 tt.
Proof.
  intros Hnil Hban Hk fuel Hf. pose proof (enc_countries r first Henc) as Hc.
  unfold geofence_bits in *.
  eapply parses_rule; [destruct (_countryListIsBan r); unfold RULE_GEOFENCE_DENIED, RULE_GEOFENCE_ALLOWED; lia
    | | |exact Hk|exact Hf].
  - intros _. destruct (_countryListIsBan r);
      (eapply (parses_bind_nil (on_rules _)); [apply parses_rules|]; by apply parses_geofence).
  - unfold getIfGeoFenced. intros [-> E]%orb_false_iff. apply negb_false_iff, bool_decide_eq_true in E.
    rewrite E. destruct r0. cbn in *. by subst.
Qed.

Lemma parses_vote_rule k r0 r2 :
  _rewritable r0 = _rewritable r -> _voteOptions r0 = [] -> _expiry r0 = EXPIRE_NEVER -> _movable r0 = true ->
  (forall fuel, (length k < fuel)%nat -> parses (rules_loop fuel tx cid) k (with_vote r cid r0) r2 tt) ->
  forall fuel, (length (vote_bits r (after_royalties r first) ++ k) < fuel)%nat ->
  parses (rules_loop fuel tx cid) (vote_bits r (after_royalties r first) ++ k) r0 r2 tt.
Proof.
  intros Hrw Hnil Hexp Hmov Hk fuel Hf. pose proof (enc_vote r first Henc) as Hv.
  destruct (enc_outputs r first Henc) as [H0 Hn]. destruct outputs_split as (_ & _ & Ho).
  eapply parses_rule; [unfold RULE_VOTE; lia| | |exact Hk|exact Hf]; intros E; rewrite E in Hv.
  - destruct Hv as [Hr Hv]. unfold after_royalties, after_signers in *.
    apply (parses_vote tx); try done; [lia|by rewrite Hrw].
  - apply orb_false_iff in E as [E1 E2]. unfold with_vote. rewrite E1, Hv.
    apply expires_false in E2. rewrite E2. destruct r0. cbn in *. by subst.
Qed.

Lemma parses_deflation_rule k r0 r2 :
  _deflate r0 = 0 ->
  (forall fuel, (length k < fuel)%nat -> parses (rules_loop fuel tx cid) k (set_deflate (_deflate r) r0) r2 tt) ->
  forall fuel, (length (deflation_bits r ++ k) < fuel)%nat ->
  parses (rules_loop fuel tx cid) (deflation_bits r ++ k) r0 r2 tt.
Proof.
  intros Hz Hk fuel Hf. pose proof (enc_deflate r first Henc) as Hd.
  eapply parses_rule; [unfold RULE_DEFLATION; lia| | |exact Hk|exact Hf]; intros E.
  - by apply parses_deflation.
  - apply negb_false_iff, Z.eqb_eq in E. rewrite E. destruct r0. cbn in *. by subst.
Qed.

Lemma parses_rules_code fuel :
  (length (rules_code r first) < fuel)%nat ->
  parses (rules_loop fuel tx cid) (rules_code r first)
    (set_rewritable (_rewritable r) (set_noRules false default_rules)) (decoded_rules r cid) tt.
Proof.
  revert fuel. unfold rules_code.
  apply parses_approval_rule; [done..|]. apply parses_royalty_rule; [done..|].
  apply parses_geofence_rule; [done..|]. apply parses_vote_rule; [done..|].
  apply parses_deflation_rule; [unfold with_vote; by destruct (getIfVote r)|].
  intros fuel Hf. eapply parses_eq; [apply parses_end; by rewrite length_Zbits in Hf|done|].
  unfold with_vote, decoded_rules. destruct (getIfVote r) eqn:Ev; [done|].
  apply getIfVote_false in Ev. by rewrite Ev.
Qed.
End decode.
