(* ===== verification/RulesSafety.v ===== *)
(** RulesSafety: decoding asset rules from arbitrary chain data always ends.

    [safe b d k m] is the safety contract of a computation on [decoding]: from a
    well-formed stream with a potential below [b] it never runs out of the model's fuel, has defined
    behaviour if [d], and a normal return leaves a well-formed stream with at
    least [k] fewer unread bits.  The approval decoder inserts bits into the
    stream, so the contract also bounds the potential
    [2 * length - position]. *)

From S2P Require Import Prelude.
From S2P Require Import BitIO.
From S2P Require Import BitIOBlocks.
From S2P Require Import BitIOInsert.
From S2P Require Import BitStream.
From S2P Require Import BitIOCodec.
From S2P Require Import BitIOText.
From S2P Require Import BitIONumbers.
From S2P Require Import AssetTypes.
From S2P Require Import DigiAssetRules.

Ltac Zify.zify_post_hook ::= Z.div_mod_to_equations.

Definition left_bits (s : decoding) : Z := _length (stream s) - _position (stream s).
Definition potential (s : decoding) : Z := _length (stream s) + left_bits s.
Definition ready (b : Z) (s : decoding) : Prop := wf (stream s) /\ potential s < b.

Definition safe {A} (b : Z) (d : bool) (k : Z) (m : M decoding A) : Prop :=
  forall s, ready b s -> exists o s', m s = (o, s') /\ o <> Fuel /\ (d = true -> o <> UB)
    /\ forall a, o = Ok a -> wf (stream s') /\ left_bits s' + k <= left_bits s
                              /\ potential s' + k <= potential s.

Section safe.
Context {A B : Type}.
Implicit Types (m : M decoding A) (f : A -> M decoding B).

Lemma safe_ret b d (a : A) : safe b d 0 (mret a).
Proof. intros s [Hw _]. exists (Ok a), s. split_and!; try done. intros. split_and!; first [done|lia]. Qed.

Lemma safe_throw b d k e : safe b d k (throw e : M decoding A).
Proof. intros s _. exists (Throw e), s. by split_and!. Qed.

Lemma safe_undefined b k : safe b false k (undefined : M decoding A).
Proof. intros s _. exists UB, s. by split_and!. Qed.

Lemma safe_weaken b d k k' m : safe b d k m -> k' <= k -> safe b d k' m.
Proof.
  intros H Hk s Hs. destruct (H s Hs) as (o & s' & ? & ? & ? & Ha). exists o, s'. split_and!; try done.
  intros a Ho. destruct (Ha a Ho) as (? & ? & ?). split_and!; first [done|lia].
Qed.

Lemma safe_if b d k (c : bool) m1 m2 : safe b d k m1 -> safe b d k m2 -> safe b d k (if c then m1 else m2).
Proof. by destruct c. Qed.

(** The steps between may give bits back as long as the potential still fits. *)
Lemma safe_bind b d k1 k2 m f :
  0 <= k1 -> safe b d k1 m -> (forall a, safe b d k2 (f a)) -> safe b d (k1 + k2) (m ≫= f).
Proof.
  intros Hk1 Hm Hf s Hs. destruct (Hm s Hs) as (o & s1 & Hrun & Hfu & Hub & Ha).
  unfold mbind, M_bind. rewrite Hrun. destruct o as [a|e| |]; try done.
  - destruct (Ha a eq_refl) as (Hw & Hl & Hp). destruct Hs as [_ Hs].
    destruct (Hf a s1) as (o & s2 & Hrun2 & Hfu2 & Hub2 & Ha2); [split; [done|lia]|].
    exists o, s2. rewrite Hrun2. split_and!; try done. intros y Hy.
    destruct (Ha2 y Hy) as (? & ? & ?). split_and!; first [done|lia].
  - exists (Throw e), s1. by split_and!.
  - exists UB, s1. split_and!; try done. intros Hd. by destruct (Hub Hd).
Qed.

Lemma safe_bind_ret b d k m f : 0 <= k -> safe b d k m -> (forall a, safe b d 0 (f a)) -> safe b d k (m ≫= f).
Proof. intros Hk H1 H2. rewrite <- (Z.add_0_r k). by apply safe_bind. Qed.

Lemma safe_bind_nil b d k m f : safe b d 0 m -> (forall a, safe b d k (f a)) -> safe b d k (m ≫= f).
Proof. intros H1 H2. rewrite <- (Z.add_0_l k). by apply safe_bind. Qed.

Lemma safe_gets b d k (g : decoding -> A) f : (forall a, safe b d k (f a)) -> safe b d k (gets g ≫= f).
Proof.
  intros Hf. apply safe_bind_nil; [|done]. intros s [Hw _]. exists (Ok (g s)), s. split_and!; try done.
  intros. split_and!; first [done|lia].
Qed.
End safe.

Lemma safe_stream {A} b d k (m : M BitIO A) : b <= 2 ^ 63 + 16 -> reader d k m -> safe b d k (on_stream m).
Proof.
  intros Hb Hm s [Hw Hp]. pose proof (wf_position _ Hw) as Hpos. unfold potential, left_bits in *.
  destruct (Hm (stream s) Hw) as (o & p & Hrun & Hq & Hf & Hu & Ha); [unfold fits, two64; lia|].
  unfold on_stream. rewrite Hrun. eexists o, _. split_and!; try done. intros a Ho.
  specialize (Ha a Ho). unfold potential, left_bits. simpl. split_and!; [by apply wf_set_position|lia|lia].
Qed.

Lemma safe_rules b d f : safe b d 0 (on_rules f).
Proof. intros s [Hw _]. eexists (Ok tt), _. split_and!; try done. intros. unfold potential, left_bits. simpl. split_and!; first [done|lia]. Qed.

Lemma safe_watch b d a : safe b d 0 (addWatchAddress a).
Proof. intros s [Hw _]. eexists (Ok tt), _. split_and!; try done. intros. unfold potential, left_bits. simpl. split_and!; first [done|lia]. Qed.

Lemma safe_for_each {B} b d (l : list B) (f : B -> M decoding unit) :
  (forall x, x ∈ l -> safe b d 0 (f x)) -> safe b d 0 (for_each l f).
Proof.
  induction l as [|x l IH]; intros Hf; [apply safe_ret|]. cbn [for_each].
  apply safe_bind_nil; [apply Hf; left|]. intros _. apply IH. intros y Hy. apply Hf. by right.
Qed.

(** [vec_at] inside its bounds. *)
Lemma safe_vec_at {A B} b d k (l : list B) i (f : B -> M decoding A) :
  0 <= i < Z.of_nat (length l) -> (forall x, x ∈ l -> safe b d k (f x)) -> safe b d k (vec_at l i ≫= f).
Proof.
  intros Hi Hf. unfold vec_at. rewrite (proj2 (Z.leb_le 0 i)) by lia.
  destruct (l !! Z.to_nat i) as [x|] eqn:E; [|apply lookup_ge_None in E; lia].
  apply (Hf x). by eapply list_elem_of_lookup_2.
Qed.

Lemma safe_first_address {A} b d k o (f : string -> M decoding A) :
  (d = true -> no_address o = false) -> (forall a, safe b d k (f a)) -> safe b d k (first_address o ≫= f).
Proof.
  intros Ho Hf. unfold first_address, no_address in *. destruct (addresses (scriptPubKey o)) as [|a l].
  - destruct d; [by specialize (Ho eq_refl)|]. intros s _. exists UB, s. by split_and!.
  - apply (Hf a).
Qed.

(** One output whose address is checked first. *)
Lemma safe_checked {A} b d k o e (f : string -> M decoding A) :
  (forall a, safe b d k (f a)) ->
  safe b d k (if no_address o then throw e else address ← first_address o; f address).
Proof.
  intros Hf. destruct (no_address o) eqn:E; [apply safe_throw|]. by apply safe_first_address.
Qed.

Section decoders.
Context (d : bool) (tx : getrawtransaction_t) (cid : string).
Context (Hsize : vout_size tx < two32).
Context (Haddr : d = true -> Forall (fun o => no_address o = false) (vout tx)).

Lemma safe_fp b : b <= 2 ^ 63 + 16 -> safe b d 8 (on_stream getFixedPrecision).
Proof. intros Hb. apply safe_stream; [done|apply reader_getFixedPrecision]. Qed.

Lemma safe_bits b n : b <= 2 ^ 63 + 16 -> 0 <= n -> safe b d n (on_stream (getBits n)).
Proof. intros Hb Hn. apply safe_stream; [done|by apply reader_getBits]. Qed.

Lemma counted_bounds x first last : x ∈ counted first last -> first <= x < last.
Proof. unfold counted. rewrite elem_of_seqZ. lia. Qed.

(** The range form's splice: one bit is inserted and given back. *)
Lemma safe_splice {A} b k (m : M decoding A) :
  b <= 2 ^ 63 -> safe (b + 2) d k m ->
  safe b d (k - 2) (on_stream (insertBits 0 1);; on_stream (movePositionBy (-1));; m).
Proof.
  intros Hb Hm s [Hw Hp]. pose proof (wf_position _ Hw) as Hpos. unfold potential, left_bits in Hp.
  destruct (insertBits_run (stream s) 0 1 Hw ltac:(lia) ltac:(lia)) as (b1 & Hins & Hw1 & Hp1 & Hl1 & _).
  rewrite length_Zbits in *.
  destruct (reader_movePositionBy_back d 1 ltac:(lia) b1 Hw1) as (o & p & Hback & Hb1 & Hf & Hu & Ha);
    [unfold fits, two64; lia|].
  change (movePositionBy (-1)) with (movePositionBy (- (1))).
  unfold mbind, M_bind. unfold on_stream at 1. rewrite Hins. cbn [stream rules watched].
  unfold on_stream at 1. cbn [stream rules watched]. rewrite Hback.
  destruct o as [[]|e| |]; [|eexists (Throw e), _; by split_and!| |done].
  - specialize (Ha tt eq_refl).
    destruct (Hm (mk_decoding (set_position p b1) (rules s) (watched s))) as (o & s' & Hrun & ? & ? & Hok).
    { split; [by apply wf_set_position|]. unfold potential, left_bits. simpl. lia. }
    exists o, s'. rewrite Hrun. split_and!; try done. intros a Ho. destruct (Hok a Ho) as (? & Hl & Hq).
    unfold potential, left_bits in *. simpl in *. split_and!; first [done|lia].
  - eexists UB, _. split_and!; try done. intros E. by destruct (Hu E).
Qed.

Lemma safe_approval_range b : b <= 2 ^ 63 -> safe b d 14 (approval_range tx).
Proof.
  intros Hb. unfold approval_range. change 14 with (8 + (8 + 0) - 2). apply safe_splice; [done|].
  apply safe_bind; [lia|apply safe_fp; lia|]. intros start.
  apply safe_bind; [lia|apply safe_fp; lia|]. intros len. cbv zeta.
  case_match eqn:E; [apply safe_throw|]. apply safe_for_each. intros i Hi.
  apply counted_bounds in Hi. pose proof (u32_range start). pose proof (u32_range len).
  assert (0 <= u32 start + u32 len < two64) by (unfold two32, two64 in *; lia).
  rewrite u64_small in E by done. apply Z.ltb_ge in E.
  rewrite (u32_small (_ + _)) in Hi by lia.
  apply safe_vec_at; [unfold vout_size in E; lia|]. intros o Ho.
  apply safe_checked. intros a. apply safe_rules.
Qed.

Lemma safe_read_approval b : b <= 2 ^ 63 + 8 -> safe b d 8 (read_approval tx).
Proof.
  intros Hb. unfold read_approval. apply safe_bind_ret; [lia|apply safe_fp; lia|]. intros temp.
  apply safe_if; [apply safe_ret|]. cbv zeta. case_match eqn:E; [apply safe_throw|].
  apply Z.leb_gt in E. pose proof (u32_range (temp - 1)).
  apply safe_vec_at; [unfold vout_size in E; lia|]. intros o Ho. apply safe_checked. intros a.
  apply (safe_weaken _ _ (8 + 0)); [|lia]. apply safe_bind; [lia|apply safe_fp; lia|]. intros w.
  apply safe_bind_nil; [apply safe_rules|]. intros. apply safe_ret.
Qed.

(** A loop whose turns read at least one bit. *)
Lemma safe_fuel {A} b k (m : nat -> M decoding A) :
  (forall fuel s, ready b s -> left_bits s < Z.of_nat fuel ->
     exists o s', m fuel s = (o, s') /\ o <> Fuel /\ (d = true -> o <> UB)
       /\ forall a, o = Ok a -> wf (stream s') /\ left_bits s' + k <= left_bits s /\ potential s' + k <= potential s) ->
  safe b d k (fuel ← gets (fun s => S (unread (stream s))); m fuel).
Proof.
  intros Hm s Hs. apply Hm; [done|]. destruct Hs as [Hw _]. pose proof (wf_position _ Hw).
  unfold unread, left_bits. lia.
Qed.

(** One turn: a safe body that reads, then either the end or the next turn. *)
Lemma safe_turn {A} b fuel k (m : M decoding A) (f : A -> M decoding unit) s :
  ready b s -> left_bits s < Z.of_nat (S fuel) -> 1 <= k -> safe b d k m ->
  (forall a s, ready b s -> left_bits s < Z.of_nat fuel ->
     exists o s', f a s = (o, s') /\ o <> Fuel /\ (d = true -> o <> UB)
       /\ forall x, o = Ok x -> wf (stream s') /\ left_bits s' + 0 <= left_bits s /\ potential s' + 0 <= potential s) ->
  exists o s', (m ≫= f) s = (o, s') /\ o <> Fuel /\ (d = true -> o <> UB)
       /\ forall x, o = Ok x -> wf (stream s') /\ left_bits s' + 0 <= left_bits s /\ potential s' + 0 <= potential s.
Proof.
  intros Hs Hl Hk Hm Hf. destruct (Hm s Hs) as (o & s1 & Hrun & Hfu & Hub & Ha).
  unfold mbind, M_bind. rewrite Hrun. destruct o as [a|e| |]; try done.
  - destruct (Ha a eq_refl) as (Hw & Hl1 & Hp). destruct Hs as [_ Hs].
    destruct (Hf a s1) as (o & s2 & Hrun2 & Hfu2 & Hub2 & Ha2); [split; [done|lia]|lia|].
    exists o, s2. rewrite Hrun2. split_and!; try done. intros x Hx.
    destruct (Ha2 x Hx) as (? & ? & ?). split_and!; first [done|lia].
  - exists (Throw e), s1. by split_and!.
  - exists UB, s1. split_and!; try done. intros Hd. by destruct (Hub Hd).
Qed.
Lemma safe_move_back {A} b k (m : M decoding A) :
  b <= 2 ^ 63 -> safe (b + 1) d k m -> safe b d (k - 1) (on_stream (movePositionBy (-1));; m).
Proof.
  intros Hb Hm s [Hw Hp].
  destruct (safe_stream (b) d (-1) (movePositionBy (-1)) ltac:(lia)
    (reader_movePositionBy_back d 1 ltac:(lia)) s (conj Hw Hp)) as (o & s1 & Hrun & Hfu & Hub & Ha).
  unfold mbind, M_bind. rewrite Hrun. destruct o as [a|e| |]; try done.
  - destruct (Ha a eq_refl) as (Hw1 & Hl1 & Hp1).
    destruct (Hm s1) as (o & s2 & Hrun2 & Hfu2 & Hub2 & Ha2); [split; [done|lia]|].
    exists o, s2. rewrite Hrun2. split_and!; try done. intros x Hx.
    destruct (Ha2 x Hx) as (? & ? & ?). split_and!; first [done|lia].
  - exists (Throw e), s1. by split_and!.
  - exists UB, s1. split_and!; try done. intros Hd. by destruct (Hub Hd).
Qed.

Lemma safe_approval_output b : b <= 2 ^ 63 -> safe b d 7 (approval_output tx).
Proof. intros Hb. change 7 with (8 - 1). apply safe_move_back; [done|]. apply safe_read_approval. lia. Qed.

(** Reading a bit field, whose value is then known to be in range. *)
Lemma safe_bits_then {A} b n k (f : Z -> M decoding A) :
  b <= 2 ^ 63 -> 1 <= n <= 64 -> (forall v, 0 <= v < 2 ^ n -> safe (b - n) d k (f v)) ->
  safe b d (n + k) (on_stream (getBits n) ≫= f).
Proof.
  intros Hb Hn Hf s [Hw Hp]. pose proof (wf_position _ Hw) as Hpos.
  assert (fits (stream s)) as Hfit by (unfold fits, two64, potential, left_bits in *; lia).
  destruct (reader_getBits d n ltac:(lia) (stream s) Hw Hfit) as (o & p & Hrun & Hq & Hfu & Hub & Ha).
  unfold mbind, M_bind, on_stream. rewrite Hrun. destruct o as [v|e| |]; try done.
  - specialize (Ha v eq_refl). unfold potential, left_bits in *.
    destruct (Hf v ltac:(eapply getBits_range; [done|exact Hw|done|by rewrite Hrun])
      (mk_decoding (set_position p (stream s)) (rules s) (watched s)))
      as (o & s2 & Hrun2 & Hfu2 & Hub2 & Ha2).
    { split; [by apply wf_set_position|]. unfold potential, left_bits. simpl. lia. }
    exists o, s2. rewrite Hrun2. split_and!; try done. intros x Hx.
    destruct (Ha2 x Hx) as (? & Hl2 & Hp2). unfold potential, left_bits in *. simpl in *.
    split_and!; first [done|lia].
  - eexists (Throw e), _. by split_and!.
  - eexists UB, _. split_and!; try done. intros Hd. by destruct (Hub Hd).
Qed.

Lemma safe_decodeApproval b : b <= 2 ^ 63 -> safe b d 0 (decodeApproval tx).
Proof.
  intros Hb. unfold decodeApproval. apply (safe_weaken _ _ (8 + 0)); [|lia].
  apply safe_bind; [lia|apply safe_fp; lia|]. intros required. apply safe_bind_nil; [apply safe_rules|].
  intros _. apply safe_fuel. induction fuel as [|fuel IH]; intros s Hs Hl.
  { destruct Hs as [Hw _]. pose proof (wf_position _ Hw). unfold left_bits in Hl. lia. }
  cbn [approval_loop]. eapply safe_turn; [done|done| |by apply safe_bits; lia|]; [lia|].
  intros isRange s1 Hs1 Hl1. destruct (isRange =? 1).
  - apply (safe_weaken b d 14 0); [by apply safe_approval_range|lia|done].
  - apply (safe_turn b fuel 7); [done|lia|lia|by apply safe_approval_output|].
    intros [] s2 Hs2 Hl2; [by apply IH|]. exact (safe_ret b d tt s2 Hs2).
Qed.

Lemma safe_decodeRoyalties b : b <= 2 ^ 63 -> safe b d 0 (decodeRoyalties tx).
Proof.
  intros Hb. unfold decodeRoyalties. apply (safe_weaken _ _ (8 + (8 + 0))); [|lia].
  apply safe_bind; [lia|apply safe_fp; lia|]. intros start.
  apply safe_bind; [lia|apply safe_fp; lia|]. intros len. cbv zeta.
  case_match eqn:E; [apply safe_throw|]. apply Z.ltb_ge in E. apply safe_for_each. intros i Hi.
  apply counted_bounds in Hi. pose proof (u32_range start).
  apply safe_vec_at; [unfold vout_size in E; lia|]. intros o Ho.
  apply safe_first_address; [|intros; apply safe_rules].
  intros Hd. by apply (proj1 (Forall_forall _ _) (Haddr Hd)).
Qed.

Lemma safe_decodeRoyaltyUnits b : b <= 2 ^ 63 -> safe b d 0 (decodeRoyaltyUnits tx).
Proof.
  intros Hb. unfold decodeRoyaltyUnits. apply (safe_weaken _ _ (1 + -1)); [|lia].
  apply safe_bits_then; [lia|lia|]. intros standard _. destruct (standard =? 1).
  - apply (safe_weaken _ _ (7 + 0)); [|lia]. apply safe_bits_then; [lia|lia|]. intros erIndex Hi.
    case_match eqn:E; [apply safe_throw|]. apply Z.leb_gt in E. unfold standardExchangeRatesCount in E.
    apply safe_vec_at; [simpl; lia|]. intros; apply safe_rules.
  - apply (safe_weaken _ _ (0 - 1)); [|lia]. apply safe_move_back; [lia|].
    apply (safe_weaken _ _ (8 + 0)); [|lia]. apply safe_bind; [lia|apply safe_fp; lia|]. intros output.
    cbv zeta. case_match eqn:E; [apply safe_throw|]. apply Z.leb_gt in E. pose proof (u32_range output).
    apply safe_vec_at; [unfold vout_size in E; lia|]. intros o Ho. apply safe_checked. intros a.
    apply safe_bind_nil; [apply safe_rules|intros; apply safe_watch].
Qed.

Lemma reader_3B40_3 : reader d 16 (get3B40String 3).
Proof.
  unfold get3B40String, for_items. change (3 / 3) with 1. change (3 mod 3) with 0. cbn [Z.eqb].
  apply (reader_bind' d 16); [|intros; apply reader_ret].
  intros b Hw Hf.
  enough (reader d (16 + 0) (v ← getBits 16;
     c ← char_at BITIO_CHARSET_3B40 (v / 1600);
     let v := v mod 1600 in
     e ← char_at BITIO_CHARSET_3B40 (v / 40);
     f ← char_at BITIO_CHARSET_3B40 (v mod 40);
     mret [c; e; f])) as Hr.
  { change (16 + 0) with 16 in Hr. unfold mbind at 1, M_bind at 1, get. cbn [read_items Z.leb Z.compare Pos.compare Pos.compare_cont].
    apply (reader_bind' d 16 _ _ Hr); [|done|done].
    intros x. change (1 - 1) with 0. destruct (Z.to_nat (_length b - _position b)); apply (reader_bind' d 0); 
      try apply reader_ret; intros; apply reader_ret. }
  apply (reader_bind_returns _ _ _ _ _ _ (reader_getBits d 16 ltac:(lia)) (getBits_range 16 ltac:(lia))).
  intros v Hv. cbv zeta. assert (length (chars BITIO_CHARSET_3B40) = 40%nat) as Hl by reflexivity.
  do 3 (apply reader_bind'; [apply reader_defined, reader_char_at; rewrite Hl; lia|intros]). apply reader_ret.
Qed.

Lemma safe_decodeGeofence b : b <= 2 ^ 63 -> safe b d 0 decodeGeofence.
Proof.
  intros Hb. unfold decodeGeofence. apply safe_fuel. induction fuel as [|fuel IH]; intros s Hs Hl.
  { destruct Hs as [Hw _]. pose proof (wf_position _ Hw). unfold left_bits in Hl. lia. }
  cbn [geofence_loop]. eapply safe_turn; [done|done| |apply safe_stream; [lia|apply reader_3B40_3]|]; [lia|].
  intros text s1 Hs1 Hl1. cbv zeta. destruct (bool_decide _); [exact (safe_ret b d tt s1 Hs1)|].
  exact (IH (mk_decoding (stream s1) _ (watched s1)) Hs1 Hl1).
Qed.

Lemma safe_decodeVoteAndExpiry b : b <= 2 ^ 63 -> safe b d 0 (decodeVoteAndExpiry tx cid).
Proof.
  intros Hb. unfold decodeVoteAndExpiry. apply safe_gets. intros [|]; [apply safe_throw|].
  apply (safe_weaken _ _ (1 + 7)); [|lia]. apply safe_bits_then; [lia|lia|]. intros movable _.
  apply safe_bind_nil; [apply safe_rules|]. intros _.
  change 7 with (7 + 0). apply safe_bits_then; [lia|lia|]. intros voteLength Hv.
  apply (safe_weaken _ _ (8 + (8 + 0))); [|lia].
  apply safe_bind; [lia|apply safe_fp; lia|]. intros cutoff.
  apply safe_bind; [lia|apply safe_fp; lia|]. intros start. cbv zeta.
  apply safe_bind_nil; [apply safe_if; [apply safe_rules|apply safe_ret]|]. intros _.
  apply safe_if; [apply safe_ret|].
  apply safe_bind_nil; [|intros; apply safe_rules].
  apply safe_if; case_match eqn:E; try apply safe_throw; apply safe_for_each; intros i Hi;
    apply counted_bounds in Hi.
  - apply Z.ltb_ge in E. unfold standardVoteCount in E.
    apply safe_vec_at; [simpl; lia|]. intros; apply safe_rules.
  - apply orb_false_iff in E as [E1 E2]. apply Z.ltb_ge in E1, E2.
    assert (i32 (u64 (start - 1)) < 2147483648) by (unfold i32, two32; lia).
    rewrite u64_small in E2 by (unfold two64; lia). rewrite u32_small in Hi by (unfold two32; lia).
    apply safe_vec_at; [unfold vout_size in E2; lia|]. intros o Ho. apply safe_checked. intros; apply safe_rules.
Qed.

Lemma safe_decode_rule b code : b <= 2 ^ 63 -> safe b d 0 (decode_rule tx cid code).
Proof.
  intros Hb. unfold decode_rule.
  repeat (apply safe_if; [|]); auto using safe_ret, safe_throw, safe_decodeApproval, safe_decodeRoyalties,
    safe_decodeVoteAndExpiry.
  - apply safe_bind_nil; [by apply safe_decodeRoyaltyUnits|]. intros _. by apply safe_decodeRoyalties.
  - apply safe_bind_nil; [apply safe_rules|]. intros _. by apply safe_decodeGeofence.
  - apply safe_bind_nil; [apply safe_rules|]. intros _. by apply safe_decodeGeofence.
  - apply (safe_weaken _ _ (8 + 0)); [|lia].
    apply safe_bind; [lia|apply safe_fp; lia|]. intros v. apply safe_rules.
Qed.

Lemma safe_byte_align b : b <= 2 ^ 63 -> safe b d 0 (on_stream byte_align).
Proof.
  intros Hb. apply safe_stream; [lia|]. intros b0 Hw Hf. pose proof (wf_position _ Hw).
  unfold fits, two64 in Hf. unfold byte_align. unfold mbind at 1, M_bind, gets, getPosition. cbv zeta.
  destruct (_ =? 0); cbn [negb when].
  - exists (Ok tt), (_position b0). split_and!; try done; try lia. by rewrite set_position_same.
  - unfold movePositionBy, movePositionTo, checkPosition, mbind, M_bind, get, modify.
    rewrite u64_small by (unfold two64; lia).
    destruct (Z.ltb_spec (_length b0) (_position b0 + (8 - _position b0 mod 8))) as [E|E].
    + exists (Throw (out_of_range "position must be inside the data")), (_position b0).
      split_and!; first [done|lia|by destruct b0].
    + exists (Ok tt), (_position b0 + (8 - _position b0 mod 8)).
      split_and!; first [reflexivity|done|lia|intros; lia].
Qed.

Lemma safe_decode_rules b opCode : b <= 2 ^ 63 -> safe b d 0 (decode_rules tx cid opCode).
Proof.
  intros Hb. unfold decode_rules. apply safe_if; [apply safe_ret|].
  apply safe_bind_nil; [apply safe_rules|]. intros _. apply safe_bind_nil; [apply safe_rules|]. intros _.
  enough (safe b d 0 (fuel ← gets (fun s => S (unread (stream s))); rules_loop fuel tx cid)) as Hloop.
  { intros s Hs. pose proof (safe_bind_nil b d 0 _ (fun _ => on_stream byte_align) Hloop
      ltac:(intros; by apply safe_byte_align) s Hs) as H. exact H. }
  apply safe_fuel. induction fuel as [|fuel IH]; intros s Hs Hl.
  { destruct Hs as [Hw _]. pose proof (wf_position _ Hw). unfold left_bits in Hl. lia. }
  cbn [rules_loop]. eapply safe_turn; [done|done| |by apply safe_bits; lia|]; [lia|].
  intros code s1 Hs1 Hl1. destruct (safe_decode_rule b code Hb s1 Hs1) as (o & s2 & Hrun & Hfu & Hub & Ha).
  unfold mbind, M_bind. rewrite Hrun. destruct o as [[]|e| |]; [|by exists (Throw e), s2; split_and!| |done].
  - destruct (Ha tt eq_refl) as (Hw & Hl2 & Hp2). destruct Hs1 as [_ Hp1].
    destruct (code =? RULE_END); [exists (Ok tt), s2; split_and!; try done; intros; split_and!; first [done|lia]|].
    destruct (IH s2) as (o & s3 & Hrun3 & ? & ? & Ha3); [split; [done|lia]|lia|].
    exists o, s3. split_and!; try done. intros x Hx. destruct (Ha3 x Hx) as (? & ? & ?). split_and!; first [done|lia].
  - exists UB, s2. split_and!; try done.
Qed.
End decoders.
