(* ===== verification/RulesTheorems.v ===== *)
(** RulesTheorems: what DigiAssetRules promises.  Encoding and the decoding
    constructor are inverse; decoding arbitrary chain data always ends; the database
    format is read back; the queries a transfer is checked with mean what their
    comments say. *)

From S2P Require Import Prelude.
From S2P Require Import BitIO.
From S2P Require Import BitIOBlocks.
From S2P Require Import BitStream.
From S2P Require Import BitIOCodec.
From S2P Require Import BitIOText.
From S2P Require Import BitIONumbers.
From S2P Require Import Serialize.
From S2P Require Import AssetTypes.
From S2P Require Import DigiAssetRules.
From S2P Require Import RulesCodec.
From S2P Require Import RulesEncoder.
From S2P Require Import RulesSafety.

Ltac Zify.zify_post_hook ::= Z.div_mod_to_equations.

(** ** Byte alignment *)
Definition pad_bits (n : Z) : list bool := replicate (Z.to_nat ((- n) mod 8)) true.

Lemma length_pad_bits n : Z.of_nat (length (pad_bits n)) = (- n) mod 8.
Proof. unfold pad_bits. rewrite length_replicate. lia. Qed.

Lemma pad_to_byte_run fuel : forall b,
  wf b -> (- _length b) mod 8 <= Z.of_nat fuel ->
  exists b', pad_to_byte fuel b = (Ok tt, b') /\ appended b (pad_bits (_length b)) b'.
Proof.
  induction fuel as [|fuel IH]; intros b Hb Hf; cbn [pad_to_byte]; unfold pad_bits;
    step_by reflexivity; unfold getLength; destruct (Z.eqb_spec (_length b mod 8) 0) as [E|E].
  1, 3: exists b; split; [done|]; replace (Z.to_nat ((- _length b) mod 8)) with 0%nat by lia; by apply appended_nil.
  - lia.
  - destruct (emits_appendBits 1 1 ltac:(lia) ltac:(lia) b Hb) as (b1 & H1 & A1).
    pose proof A1 as (Hw & _ & _ & Hl). rewrite length_Zbits in Hl.
    destruct (IH b1 Hw) as (b2 & H2 & A2); [lia|].
    exists b2. rewrite (bind_ok _ _ _ _ _ H1). split; [done|].
    replace (Z.to_nat ((- _length b) mod 8)) with (S (Z.to_nat ((- _length b1) mod 8))) by lia.
    exact (appended_trans _ _ _ _ _ A1 A2).
Qed.

Lemma byte_align_run b :
  wf b -> fits b -> _position b + (- _position b) mod 8 <= _length b ->
  byte_align b = (Ok tt, advance ((- _position b) mod 8) b).
Proof.
  intros Hb Hf Hl. pose proof (wf_position b Hb). unfold fits, two64 in Hf.
  unfold byte_align. step_by reflexivity. unfold getPosition. cbv zeta.
  destruct (Z.eqb_spec (_position b mod 8) 0) as [E|E]; cbn [negb when].
  - replace ((- _position b) mod 8) with 0 by lia. by rewrite advance_0.
  - unfold movePositionBy. step_by reflexivity.
    rewrite u64_small by (unfold two64; lia). rewrite movePositionTo_ok by lia.
    unfold advance. do 2 f_equal. lia.
Qed.

(** ** Round trip *)
Lemma vector_eqb_refl {A} (eqb : A -> A -> bool) (f : A -> A) l :
  (forall x, eqb x (f x) = true) -> vector_eqb eqb l (map f l) = true.
Proof. intros H. induction l as [|x l IH]; [done|]. simpl. by rewrite H, IH. Qed.

Lemma vector_eqb_same {A} (eqb : A -> A -> bool) l : (forall x, eqb x x = true) -> vector_eqb eqb l l = true.
Proof. intros H. rewrite <- (List.map_id l) at 2. by apply (vector_eqb_refl eqb id). Qed.

Lemma neqb_stored rate :
  ExchangeRate.neqb (if ExchangeRate.enabled rate then rate else ExchangeRate.empty) rate = false.
Proof.
  unfold ExchangeRate.neqb, ExchangeRate.enabled. case_bool_decide as H; cbn [negb].
  - rewrite H. done.
  - rewrite (bool_decide_eq_false_2 (ExchangeRate.address rate = "")) by done. cbn [andb].
    by rewrite bool_decide_eq_true_2, Z.eqb_refl.
Qed.

Lemma decoded_equal r cid first :
  encodable r first -> rules_eqb (decoded_rules r cid) r = true.
Proof.
  intros He. unfold rules_eqb, decoded_rules. cbn. rewrite (enc_rules r first He).
  rewrite !Bool.eqb_reflx, !Z.eqb_refl, bool_decide_eq_true_2 by done. cbn [andb].
  rewrite (vector_eqb_same Signer.eqb), (vector_eqb_same Royalty.eqb)
    by (intros; unfold Signer.eqb, Royalty.eqb; by rewrite bool_decide_eq_true_2, Z.eqb_refl). cbn [andb].
  assert (vector_eqb VoteOption.eqb (_voteOptions r) (relabel (_voteOptions r)) = true) as ->.
  { apply vector_eqb_refl. intros x. unfold VoteOption.eqb. by rewrite bool_decide_eq_true_2. }
  assert (ExchangeRate.neqb (_exchangeRate r) (decoded_rate r) = false) as ->; [|done].
  unfold ExchangeRate.neqb, decoded_rate. destruct (ExchangeRate.enabled (_exchangeRate r)) eqn:E.
  - destruct (enc_rate r first He E) as [_ [i Hi]]. destruct (find_rate_spec _ _ _ _ Hi) as (_ & s & Hs & Ha & Hx).
    rewrite Z.sub_0_r in Hs. unfold rate_index. rewrite Hi. change (default 0 (Some i)) with i. rewrite Hs.
    cbn [default]. unfold ExchangeRate.enabled in E. apply negb_true_iff, bool_decide_eq_false in E.
    rewrite bool_decide_eq_false_2 by (cbn; congruence). cbn [andb].
    apply negb_false_iff, andb_true_iff. split; [apply bool_decide_eq_true; cbn; congruence|].
    apply Z.eqb_eq. cbn. congruence.
  - unfold ExchangeRate.enabled in E. apply negb_false_iff in E. rewrite E. done.
Qed.

(** The bytes of encoded rules: the code and ones up to the byte boundary. *)
Definition rules_bytes (r : DigiAssetRules) (first : Z) : list bool :=
  rules_code r first ++ pad_bits (Z.of_nat (length (rules_code r first))).

(** Reassociate a run whose binds are nested. *)
Ltac same_run :=
  unfold mbind, M_bind;
  repeat (match goal with |- context [match ?m ?s with _ => _ end] => destruct (m s) as [[] ?] end;
          try reflexivity).

Lemma rules_bytes_whole r first : Z.of_nat (length (rules_bytes r first)) mod 8 = 0.
Proof.
  pose proof (length_pad_bits (Z.of_nat (length (rules_code r first)))).
  unfold rules_bytes. rewrite length_app, Nat2Z.inj_add. lia.
Qed.

Lemma emits_rules_code r first :
  encodable r first ->
  emits (nextOutput ← encode_approval r first;
    nextOutput ← encode_royalties r nextOutput;
    encode_geofence r;;
    nextOutput ← encode_vote r nextOutput;
    encode_deflation r;; appendBits RULE_END 4) (rules_code r first) tt.
Proof.
  intros He. destruct (emits_vote r first He) as [next Hv]. unfold rules_code.
  eapply emits_bind; [by apply emits_approval|]. eapply emits_bind; [by apply emits_royalties|].
  eapply emits_bind; [by eapply emits_geofence|]. eapply emits_bind; [exact Hv|].
  eapply emits_bind; [by eapply emits_deflation|]. apply emits_appendBits; unfold RULE_END; lia.
Qed.

Lemma encode_run r first b :
  encodable r first -> wf b -> _length b mod 8 = 0 ->
  exists b', encode r first b = (Ok tt, b') /\ appended b (rules_bytes r first) b'.
Proof.
  intros He Hb Hal. unfold encode. rewrite (enc_rules r first He).
  destruct (emits_rules_code r first He b Hb) as (b1 & H1 & A1). pose proof A1 as (Hw1 & _ & _ & Hl1).
  destruct (pad_to_byte_run 7 b1 Hw1) as (b2 & H2 & A2); [lia|].
  exists b2. split.
  - pose proof (bind_ok _ (fun _ => pad_to_byte 7) _ _ _ H1) as Hall.
    cbv beta in Hall. rewrite H2 in Hall. rewrite <- Hall. same_run.
  - assert (pad_bits (Z.of_nat (length (rules_code r first))) = pad_bits (_length b1)) as E
      by (unfold pad_bits; do 2 f_equal; lia).
    unfold rules_bytes. rewrite E. by eapply appended_trans.
Qed.

Lemma parses_constructor tx cid r first :
  encodable r first -> outputs_at tx first (required_outputs r) ->
  parses (on_rules (set_noRules false);;
    on_rules (set_rewritable ((if _rewritable r then 3 else 4) =? 3));;
    fuel ← gets (fun s => S (unread (stream s))); rules_loop fuel tx cid)
    (rules_code r first) default_rules (decoded_rules r cid) tt.
Proof.
  intros He Ho. eapply parses_bind_nil; [apply parses_rules|]. eapply parses_bind_nil; [apply parses_rules|].
  apply parses_fuel. intros fuel Hfuel.
  replace ((if _rewritable r then 3 else 4) =? 3) with (_rewritable r) by (by destruct (_rewritable r)).
  by apply parses_rules_code.
Qed.

Lemma decode_run tx cid r first s watch k :
  encodable r first -> outputs_at tx first (required_outputs r) ->
  wf s -> fits s -> rest s = rules_bytes r first ++ k -> _position s mod 8 = 0 ->
  DigiAssetRules_decode tx cid (if _rewritable r then 3 else 4) (s, watch)
  = (Ok (decoded_rules r cid), (advance (Z.of_nat (length (rules_bytes r first))) s, watch)).
Proof.
  intros He Ho Hw Hf Hrest Hal. unfold DigiAssetRules_decode, decode_rules.
  pose proof (rest_prefix _ _ _ Hw Hrest) as Hp. unfold rules_bytes in *.
  pose proof (length_pad_bits (Z.of_nat (length (rules_code r first)))) as Hpl. rewrite length_app in Hp.
  assert (negb ((if _rewritable r then 3 else 4) =? 3) && negb ((if _rewritable r then 3 else 4) =? 4) = false)
    as -> by (by destruct (_rewritable r)).
  rewrite <- app_assoc in Hrest.
  pose proof (parses_constructor tx cid r first He Ho (mk_decoding s default_rules watch) _ Hw Hf Hrest eq_refl) as Hrun.
  cbn in Hrun. pose proof (bind_ok _ (fun _ => on_stream byte_align) _ _ _ Hrun) as Hall.
  match goal with |- context [?m (mk_decoding s default_rules watch)] =>
    assert (m (mk_decoding s default_rules watch) = on_stream byte_align
      (mk_decoding (advance (Z.of_nat (length (rules_code r first))) s) (decoded_rules r cid) watch)) as ->
      by (rewrite <- Hall; same_run)
  end.
  unfold on_stream. cbn [stream rules watched].
  rewrite byte_align_run; cbn [_position _length advance set_position].
  - cbn. rewrite advance_advance. do 4 f_equal. rewrite length_app, Nat2Z.inj_add, Hpl. f_equal. lia.
  - apply wf_advance; [done|lia|lia].
  - done.
  - unfold advance, set_position. cbn. lia.
Qed.

(** C30: the rules round trip.  For rules in the encodable range, [encode] appends to a byte-aligned
    stream a whole number of bytes that depend only on the rules and the first rule output;
    the decoding constructor, run on these bytes in a transaction that carries the outputs of
    [getRequiredOutputs] from that output on, consumes exactly them and builds
    rules that [operator==] finds equal to the encoded ones (vote labels are
    dropped, the metadata cid is kept for them when there are vote options). *)
Theorem rules_roundtrip r first :
  encodable r first -> forall outs, getRequiredOutputs r = Ok outs ->
  exists l, Z.of_nat (length l) mod 8 = 0
  /\ (forall b, wf b -> _length b mod 8 = 0 ->
        exists b', encode r first b = (Ok tt, b') /\ appended b l b')
  /\ (forall tx cid s watch k, outputs_at tx first outs ->
        wf s -> fits s -> rest s = l ++ k -> _position s mod 8 = 0 ->
        DigiAssetRules_decode tx cid (if _rewritable r then 3 else 4) (s, watch)
        = (Ok (decoded_rules r cid), (advance (Z.of_nat (length l)) s, watch)))
  /\ (forall cid, rules_eqb (decoded_rules r cid) r = true).
Proof.
  intros He outs Hr. apply getRequiredOutputs_ok in Hr as ->; [|by destruct He].
  exists (rules_bytes r first). split_and!.
  - apply rules_bytes_whole.
  - intros b Hb Hal. by apply encode_run.
  - intros tx cid s watch k Ho Hw Hf Hrest Hal. by apply decode_run with k.
  - intros cid. by eapply decoded_equal.
Qed.

Definition sample_rules : DigiAssetRules :=
  mk_rules false false false 5 [Signer.mk "dgb1qsigner" 3; Signer.mk "dgb1qother" 1000000]
    (ExchangeRate.mk "dgb1qunxh378eltj2jrwza5sj9grvu5xud43vqvudwh" 1 "USD")
    [Royalty.mk "dgb1qroyal" 250000000] ["CAN"; "USA"]%string true 1893456000000
    [VoteOption.mk "dgb1qyes" "yes"; VoteOption.mk "dgb1qno" "no"] 12 "".

Lemma sample_encodable : encodable sample_rules 2.
Proof.
  split; cbn [sample_rules _noRules _signersRequired _signers _exchangeRate _royalties _countryList
    _voteOptions _deflate _expiry].
  - done.
  - unfold small. simpl. lia.
  - change (0 <? 5) with true. cbv iota. split; [unfold fixed_ok; lia|].
    apply List.Forall_cons; [|apply List.Forall_cons; [|apply List.Forall_nil]]; unfold fixed_ok; simpl; lia.
  - intros _. split; [discriminate|]. exists 1. reflexivity.
  - apply List.Forall_cons; [|apply List.Forall_cons; [|apply List.Forall_nil]];
      (split; [done|]; repeat apply List.Forall_cons; try apply List.Forall_nil; split; vm_compute; discriminate).
  - change (getIfVote sample_rules || expires sample_rules) with true. cbv iota. split; [done|].
    unfold vote_ok, fixed_ok. simpl. lia.
  - unfold fixed_ok. lia.
Qed.

Lemma rules_roundtrip_witness :
  encodable sample_rules 2 /\ exists outs, getRequiredOutputs sample_rules = Ok outs
  /\ exists l, Z.of_nat (length l) mod 8 = 0
  /\ (forall b, wf b -> _length b mod 8 = 0 ->
        exists b', encode sample_rules 2 b = (Ok tt, b') /\ appended b l b')
  /\ (forall tx cid s watch k, outputs_at tx 2 outs ->
        wf s -> fits s -> rest s = l ++ k -> _position s mod 8 = 0 ->
        DigiAssetRules_decode tx cid (if _rewritable sample_rules then 3 else 4) (s, watch)
        = (Ok (decoded_rules sample_rules cid), (advance (Z.of_nat (length l)) s, watch)))
  /\ (forall cid, rules_eqb (decoded_rules sample_rules cid) sample_rules = true).
Proof.
  split; [apply sample_encodable|]. eexists. split; [reflexivity|].
  apply (rules_roundtrip sample_rules 2 sample_encodable). reflexivity.
Defined.

(** ** The database format *)

(** What [serialize] keeps: signers of a rule without a required weight and a disabled exchange
    rate are not written. *)
Definition stored_rules (r : DigiAssetRules) : DigiAssetRules :=
  set_exchangeRate (if ExchangeRate.enabled (_exchangeRate r) then _exchangeRate r else ExchangeRate.empty)
    (set_signers (if 0 <? _signersRequired r then _signers r else []) r).

Record storable (r : DigiAssetRules) : Prop := {
  st_required : valid_u64 (_signersRequired r);
  st_signers : valid_vector (valid := valid_signer) (_signers r);
  st_rate : valid_rate (_exchangeRate r);
  st_royalties : valid_vector (valid := valid_royalty) (_royalties r);
  st_countries : valid_vector (valid := valid_string) (_countryList r);
  st_votes : valid_vector (valid := valid_vote) (_voteOptions r);
  st_expiry : valid_u64 (_expiry r);
  st_deflate : valid_u64 (_deflate r);
  st_cid : valid_string (_voteLabelsCID r)
}.

(** The flag byte packs eight booleans. *)
Definition pack (b7 b6 b5 b4 b3 b2 b1 b0 : bool) : Z :=
  u8 (b2z b7 128 + b2z b6 64 + b2z b5 32 + b2z b4 16 + b2z b3 8 + b2z b2 4 + b2z b1 2 + b2z b0 1).

Lemma pack_flags b7 b6 b5 b4 b3 b2 b1 b0 (f := pack b7 b6 b5 b4 b3 b2 b1 b0) :
  negb (Z.land f 128 =? 0) = b7 /\ negb (Z.land f 64 =? 0) = b6 /\ negb (Z.land f 32 =? 0) = b5
  /\ negb (Z.land f 16 =? 0) = b4 /\ negb (Z.land f 8 =? 0) = b3 /\ negb (Z.land f 4 =? 0) = b2
  /\ negb (Z.land f 2 =? 0) = b1 /\ negb (Z.land f 1 =? 0) = b0.
Proof. subst f. destruct b7, b6, b5, b4, b3, b2, b1, b0; vm_compute; tauto. Qed.

Lemma flags1_ok r :
  Z.land (flags1 r) 0x1f = 0 /\ negb (Z.land (flags1 r) 128 =? 0) = _rewritable r
  /\ negb (Z.land (flags1 r) 64 =? 0) = _movable r /\ negb (Z.land (flags1 r) 32 =? 0) = _countryListIsBan r.
Proof. unfold flags1. destruct (_rewritable r), (_movable r), (_countryListIsBan r); vm_compute; tauto. Qed.

(** A member behind a flag. *)
Definition optional_bytes {A} (flag : bool) (bytes : A -> list Z) (x : A) : list Z :=
  if flag then bytes x else [].

Lemma decodes_optional {A B} (flag : bool) (d : (Z -> bool) -> list Z -> M Z A) (bytes : A -> list Z) x x' set output
    (f : DigiAssetRules -> (Z -> bool) -> list Z -> M Z B) l b :
  (flag = true -> decodes d (bytes x) x') -> (flag = false -> output = set x' output) ->
  decodes (f (set x' output)) l b ->
  decodes (fun alloc data => output ← optional flag (d alloc data) set output; f output alloc data)
    (optional_bytes flag bytes x ++ l) b.
Proof.
  intros Hd Ho Hf. unfold optional, optional_bytes. destruct flag; [|by rewrite Ho].
  intros alloc pre post data Hg Hl.
  pose proof (decodes_bind d (fun y => f (set y output)) _ _ _ _ (Hd eq_refl) Hf alloc pre post Hg Hl) as H.
  rewrite <- H. subst data. unfold mbind, M_bind, mret, M_ret.
  destruct (d alloc _ _) as [[] ?]; done.
Qed.

Definition rules_data (r : DigiAssetRules) : list Z :=
  [flags1 r] ++ [flags2 r]
  ++ optional_bytes (0 <? _signersRequired r) u64_bytes (_signersRequired r)
  ++ optional_bytes (0 <? _signersRequired r) (serialize []) (_signers r)
  ++ optional_bytes (negb (is_empty (_royalties r))) (serialize []) (_royalties r)
  ++ optional_bytes (negb (is_empty (_countryList r))) (serialize []) (_countryList r)
  ++ optional_bytes (negb (is_empty (_voteOptions r))) (serialize []) (_voteOptions r)
  ++ optional_bytes (negb (_expiry r =? EXPIRE_NEVER)) u64_bytes (_expiry r)
  ++ optional_bytes (negb (_deflate r =? 0)) u64_bytes (_deflate r)
  ++ optional_bytes (ExchangeRate.enabled (_exchangeRate r)) (serialize []) (_exchangeRate r)
  ++ optional_bytes (negb (bool_decide (_voteLabelsCID r = ""))) (serialize []) (_voteLabelsCID r).

(** Each step of [serialize] appends the member's bytes. *)
Lemma append_u64 (c : bool) data x : (if c then serialize_u64 data x else data) = data ++ optional_bytes c u64_bytes x.
Proof. unfold optional_bytes. destruct c; [apply serialize_u64_appends|by rewrite app_nil_r]. Qed.

Lemma append_with {T valid} `{SerializeLaws T valid} (c : bool) data (x : T) :
  (if c then serialize data x else data) = data ++ optional_bytes c (serialize []) x.
Proof. unfold optional_bytes. destruct c; [apply serialize_appends|by rewrite app_nil_r]. Qed.

Lemma append_signers (c : bool) data x (l : list Signer.t) :
  (if c then serialize (serialize_u64 data x) l else data)
  = data ++ optional_bytes c u64_bytes x ++ optional_bytes c (serialize []) l.
Proof.
  unfold optional_bytes. destruct c; [|by rewrite app_nil_r].
  by rewrite (serialize_appends (T := list Signer.t) (serialize_u64 _ _)), serialize_u64_appends, <- app_assoc.
Qed.

Lemma serialize_rules_data buf r :
  _noRules r = false -> serialize_rules buf r = buf ++ rules_data r.
Proof.
  intros Hn. unfold serialize_rules, empty. rewrite Hn. cbv zeta.
  unfold rules_data, serialize_u8.
  rewrite (append_with (T := string)), (append_with (T := ExchangeRate.t)), !append_u64,
    (append_with (T := list VoteOption.t)), (append_with (T := list string)),
    (append_with (T := list Royalty.t)), append_signers.
  by rewrite <- !app_assoc.
Qed.

(** The members as they are read, one after the other. *)
Definition read_members (has : Z -> bool) (alloc : Z -> bool) (data : list Z) (output : DigiAssetRules)
    : M Z DigiAssetRules :=
  output ← optional (has 128) (deserialize_u64 data) set_signersRequired output;
  output ← optional (has 128) (deserialize alloc data) set_signers output;
  output ← optional (has 64) (deserialize alloc data) set_royalties output;
  output ← optional (has 32) (deserialize alloc data) set_countryList output;
  output ← optional (has 16) (deserialize alloc data) set_voteOptions output;
  output ← optional (has 8) (deserialize_u64 data) set_expiry output;
  output ← optional (has 4) (deserialize_u64 data) set_deflate output;
  output ← optional (has 2) (deserialize alloc data) set_exchangeRate output;
  optional (has 1) (deserialize alloc data) set_voteLabelsCID output.

Lemma decodes_optional_last {A} (flag : bool) (d : (Z -> bool) -> list Z -> M Z A) bytes x set output :
  (flag = true -> decodes d (bytes x) x) -> (flag = false -> output = set x output) ->
  decodes (fun alloc data => optional flag (d alloc data) set output) (optional_bytes flag bytes x) (set x output).
Proof.
  intros Hd Ho. unfold optional, optional_bytes. destruct flag; [|rewrite <- Ho by done; apply decodes_ret].
  rewrite <- (app_nil_r (bytes x)). eapply (decodes_bind d (fun y _ _ => mret (set y output))); [by apply Hd|apply decodes_ret].
Qed.

Lemma is_empty_false {A} (l : list A) : negb (is_empty l) = false -> l = [].
Proof. by destruct l. Qed.

Lemma read_members_run r output :
  storable r -> _noRules r = false ->
  output = set_countryListIsBan (_countryListIsBan r) (set_movable (_movable r)
    (set_rewritable (_rewritable r) (set_noRules false default_rules))) ->
  decodes (fun alloc data => read_members (fun bit => negb (Z.land (flags2 r) bit =? 0)) alloc data output)
    (drop 2 (rules_data r)) (stored_rules r).
Proof.
  intros [H1 H2 H3 H4 H5 H6 H7 H8 H9] Hn ->. unfold read_members, rules_data. cbn [drop app].
  destruct (pack_flags (0 <? _signersRequired r) (negb (is_empty (_royalties r)))
    (negb (is_empty (_countryList r))) (negb (is_empty (_voteOptions r)))
    (negb (_expiry r =? EXPIRE_NEVER)) (negb (_deflate r =? 0))
    (ExchangeRate.enabled (_exchangeRate r)) (negb (bool_decide (_voteLabelsCID r = ""))))
    as (E7 & E6 & E5 & E4 & E3 & E2 & E1 & E0).
  change (pack _ _ _ _ _ _ _ _) with (flags2 r) in *.
  rewrite E7, E6, E5, E4, E3, E2, E1, E0. clear E7 E6 E5 E4 E3 E2 E1 E0.
  assert (forall x, valid_u64 x -> decodes (fun _ => deserialize_u64) (u64_bytes x) x) as Hu
    by apply serialize_u64_reads.
  eapply decodes_optional; [intros _; by apply Hu|intros E; assert (_signersRequired r = 0) as -> by (unfold valid_u64 in *; lia); done|].
  eapply (decodes_optional _ _ _ _ (if 0 <? _signersRequired r then _signers r else []));
    [intros ->; by apply (deserialize_serialize (T := list Signer.t))|by intros ->|].
  eapply decodes_optional; [intros _; by apply (deserialize_serialize (T := list Royalty.t))
    |intros ->%is_empty_false; done|].
  eapply decodes_optional; [intros _; by apply (deserialize_serialize (T := list string))
    |intros ->%is_empty_false; done|].
  eapply decodes_optional; [intros _; by apply (deserialize_serialize (T := list VoteOption.t))
    |intros ->%is_empty_false; done|].
  eapply decodes_optional; [intros _; by apply Hu|intros ->%negb_false_iff%Z.eqb_eq; done|].
  eapply decodes_optional; [intros _; by apply Hu|intros ->%negb_false_iff%Z.eqb_eq; done|].
  eapply (decodes_optional _ _ _ _
    (if ExchangeRate.enabled (_exchangeRate r) then _exchangeRate r else ExchangeRate.empty));
    [intros ->; by apply (deserialize_serialize (T := ExchangeRate.t))|by intros ->|].
  match goal with |- decodes (fun _ _ => optional _ _ _ ?out) _ _ =>
    replace (stored_rules r) with (set_voteLabelsCID (_voteLabelsCID r) out)
      by (unfold stored_rules; destruct r; cbn in *; by subst)
  end.
  eapply decodes_optional_last; [intros _; by apply (deserialize_serialize (T := string))|].
  intros ->%negb_false_iff%bool_decide_eq_true; done.
Qed.

Lemma decodes_nonempty {A} (d : (Z -> bool) -> list Z -> M Z A) e x l v :
  decodes d (x :: l) v ->
  decodes (fun alloc data => if bool_decide (data = []) then e else d alloc data) (x :: l) v.
Proof.
  intros Hd alloc pre post data Hg Hl.
  rewrite bool_decide_eq_false_2 by (subst data; by destruct pre). by apply Hd.
Qed.

Lemma deserialize_rules_run r :
  _noRules r = false -> storable r ->
  decodes (fun alloc data => deserialize_rules alloc data default_rules) (rules_data r) (stored_rules r).
Proof.
  intros Hn Hs. unfold deserialize_rules. destruct (flags1_ok r) as (E1 & E2 & E3 & E4).
  change (rules_data r) with (flags1 r :: ([flags2 r] ++ drop 2 (rules_data r))). apply decodes_nonempty.
  change (flags1 r :: ?l) with ([flags1 r] ++ l).
  eapply (decodes_bind (fun _ => deserialize_u8)); [apply serialize_u8_reads|].
  rewrite E1, E2, E3, E4. cbn [negb Z.eqb]. cbv iota zeta.
  eapply (decodes_bind (fun _ => deserialize_u8)); [apply serialize_u8_reads|].
  by apply read_members_run.
Qed.

(** The database format of the rules.  [serialize] appends bytes that do not depend on what is in the
    buffer; read back into a fresh object from anywhere in a larger buffer they
    give the rules again and leave the cursor behind them (signers without a
    required weight and a disabled exchange rate are not stored); rules
    whose signers are in use compare equal to what was stored.  Empty rules
    are no bytes, which read back as empty rules only from an empty buffer. *)
Theorem rules_storage_roundtrip r :
  _noRules r = false -> storable r ->
  (forall buf, serialize_rules buf r = buf ++ serialize_rules [] r)
  /\ decodes (fun alloc data => deserialize_rules alloc data default_rules) (serialize_rules [] r) (stored_rules r)
  /\ ((0 <? _signersRequired r) = true -> rules_eqb r (stored_rules r) = true)
  /\ serialize_rules [] default_rules = []
  /\ (forall alloc i, deserialize_rules alloc [] r i = (Ok default_rules, i)).
Proof.
  intros Hn Hs.
  assert (serialize_rules [] r = rules_data r) as -> by (by rewrite serialize_rules_data).
  split_and!.
  - intros buf. by apply serialize_rules_data.
  - by apply deserialize_rules_run.
  - intros Hq. unfold rules_eqb, stored_rules. cbn. rewrite Hq.
    rewrite !Bool.eqb_reflx, !Z.eqb_refl, (bool_decide_eq_true_2 (_countryList r = _)) by done. cbn [andb].
    rewrite !vector_eqb_same, neqb_stored; done || intros; unfold Signer.eqb, Royalty.eqb, VoteOption.eqb;
      by rewrite ?bool_decide_eq_true_2, ?Z.eqb_refl.
  - done.
  - done.
Qed.

(** ** Decoding arbitrary chain data *)

(** Safety of the decoding constructor.  On every transaction with fewer than 2^32 outputs
    and every well-formed stream it ends normally or by an exception (the loops over
    rules, signers and countries terminate), and if every output has an
    address no read is out of range.  Without an address the royalty decoder
    does read an empty vector. *)
Theorem rules_decode_safe tx cid opCode s watch :
  wf s -> _length s < 2 ^ 61 -> vout_size tx < two32 ->
  fst (DigiAssetRules_decode tx cid opCode (s, watch)) <> Fuel
  /\ (Forall (fun o => addresses (scriptPubKey o) <> []) (vout tx) ->
      fst (DigiAssetRules_decode tx cid opCode (s, watch)) <> UB).
Proof.
  intros Hw Hl Hv. pose proof (wf_position _ Hw).
  assert (ready (2 ^ 63) (mk_decoding s default_rules watch)) as Hr
    by (split; [done|unfold potential, left_bits; simpl; lia]).
  assert (forall d, (d = true -> Forall (fun o => no_address o = false) (vout tx)) ->
    fst (DigiAssetRules_decode tx cid opCode (s, watch)) <> Fuel
    /\ (d = true -> fst (DigiAssetRules_decode tx cid opCode (s, watch)) <> UB)) as Hd.
  { intros d Ha. unfold DigiAssetRules_decode.
    destruct (safe_decode_rules d tx cid Hv Ha (2 ^ 63) opCode ltac:(lia) _ Hr) as (o & s' & -> & Hf & Hu & _).
    destruct o; simpl; split; try done. intros E. by destruct (Hu E). }
  split; [by apply (Hd false)|]. intros Hall. apply (Hd true); [|done]. intros _.
  eapply Forall_impl; [exact Hall|]. intros o Ho. unfold no_address. by apply bool_decide_eq_false.
Qed.

Definition sample_tx : getrawtransaction_t :=
  mk_getrawtransaction "tx" 1 "" 0 [] [mk_vout 700 0 (mk_scriptPubKey "" "" ["D1"%string]); mk_vout 5000 1 (mk_scriptPubKey "" "" [])].

Definition stream_of_bytes (l : list Z) : BitIO :=
  match BitIO_of_bytes l (Z.of_nat (length l) * 8) with Ok b => b | _ => empty_BitIO end.

Lemma rules_decode_safe_witness :
  wf (stream_of_bytes []) /\ vout_size sample_tx < two32
  /\ fst (DigiAssetRules_decode sample_tx "" 3 (stream_of_bytes [], [])) <> Fuel
  /\ (Forall (fun o => addresses (scriptPubKey o) <> []) (vout sample_tx) ->
      fst (DigiAssetRules_decode sample_tx "" 3 (stream_of_bytes [], [])) <> UB).
Proof.
  split; [apply wf_empty|]. split; [reflexivity|].
  apply (rules_decode_safe sample_tx "" 3 (stream_of_bytes []) []); [apply wf_empty|reflexivity|reflexivity].
Defined.

(** The royalty decoder takes the first address of an output without looking whether there is one:
    royalties paid to output 1 of [sample_tx]. *)
Lemma royalties_without_address_undefined :
  fst (DigiAssetRules_decode sample_tx "" 4 (stream_of_bytes [0x10; 0x10; 0x1f; 0xff], [])) = UB.
Proof. vm_compute. reflexivity. Qed.

(** The range form of the approval rule inserts a bit into the stream, so the end of the rules is no longer
    aligned with the bytes of the data: after the range [0, 1) and the end
    marker the constructor stands at bit 40 of the lengthened stream, which is bit 39 of the data. *)
Lemma approval_range_shifts_the_stream :
  exists b, snd (DigiAssetRules_decode sample_tx "" 4 (stream_of_bytes [0; 0x18; 0x00; 0x1f; 0xff; 0x55], [])) = (b, [])
  /\ _length b = 49 /\ _position b = 40.
Proof. eexists. split; [vm_compute; reflexivity|done]. Qed.

Lemma rules_storage_roundtrip_witness :
  _noRules sample_rules = false /\ storable sample_rules
  /\ (forall buf, serialize_rules buf sample_rules = buf ++ serialize_rules [] sample_rules)
  /\ decodes (fun alloc data => deserialize_rules alloc data default_rules) (serialize_rules [] sample_rules)
       (stored_rules sample_rules).
Proof.
  assert (storable sample_rules) as Hs.
  { split; unfold valid_u64, valid_vector, valid_string; simpl;
      repeat first [ split | apply List.Forall_cons | apply List.Forall_nil ]; simpl;
      unfold valid_string, valid_u64; simpl; unfold two64; lia. }
  split; [reflexivity|]. split; [exact Hs|].
  destruct (rules_storage_roundtrip sample_rules eq_refl Hs) as (H1 & H2 & _). split; [exact H1|exact H2].
Defined.

(** ** Queries *)
Lemma existsb_country country l :
  existsb (fun c : string => bool_decide (c = country)) l = true <-> country ∈ l.
Proof.
  rewrite existsb_exists. split.
  - intros (c & Hc & E). apply bool_decide_eq_true in E as ->. by apply list_elem_of_In.
  - intros H. exists country. split; [by apply list_elem_of_In|by apply bool_decide_eq_true].
Qed.

(** the queries.  A country list allows exactly its members (exactly the others, as a ban
    list), an empty ban list is KYC without a country restriction and an empty
    list of allowed countries is refused; an expiry below 1577836800000 is the last
    block height at which the asset is usable, one from there on a time in
    milliseconds, and never is never; a vote accepts exactly the addresses of
    its options. *)
Theorem rules_queries_spec r country :
  (forall countries ban,
     if bool_decide (countries = []) && negb ban
     then is_throw (setRequireKYC_countries countries ban r) = true
     else exists r', setRequireKYC_countries countries ban r = Ok r'
       /\ getIfGeoFenced r' = true /\ empty r' = false
       /\ (getIfCountryAllowedToReceive country r' = true <-> if ban then country ∉ countries else country ∈ countries))
  /\ getIfCountryAllowedToReceive country (setRequireKYC r) = true /\ getIfGeoFenced (setRequireKYC r) = true
  /\ getIfCountryAllowedToReceive country (setDoesNotRequireKYC r) = true
  /\ getIfGeoFenced (setDoesNotRequireKYC r) = false
  /\ (forall expiry height time, getIfExpired height time (setExpiry expiry r) = true <->
        expiry <> EXPIRE_NEVER
        /\ if isExpiryHeight (setExpiry expiry r) then expiry < height else expiry / 1000 <= time)
  /\ (forall options expiry movable address,
        getIfValidVoteAddress address (setVote options expiry movable r) = true
        <-> address ∈ map VoteOption.address options).
Proof.
  split_and!; try done.
  - intros countries ban. unfold setRequireKYC_countries. destruct (_ && _) eqn:E; [done|].
    eexists. split; [done|]. unfold getIfCountryAllowedToReceive, getIfGeoFenced, empty. cbn.
    apply andb_false_iff in E. split_and!; [|done|].
    + destruct ban, countries; try done. by destruct E.
    + assert (ban || negb (bool_decide (countries = [])) = true) as -> by (destruct ban; [done|by destruct E as [->|]]).
      cbn [negb]. destruct ban; cbn [negb andb orb]; [|by rewrite orb_false_r, existsb_country].
      rewrite negb_true_iff, <- not_true_iff_false. by rewrite existsb_country.
  - intros expiry height time. unfold getIfExpired, isExpiryHeight, MIN_EPOCH_VALUE. cbn.
    destruct (Z.eqb_spec expiry EXPIRE_NEVER); [by intuition|].
    destruct (Z.leb_spec 1577836800000 expiry), (Z.ltb_spec expiry 1577836800000); try lia.
    all: rewrite ?Z.leb_le, ?Z.ltb_lt; intuition.
  - intros options expiry movable address. unfold getIfValidVoteAddress. cbn. rewrite existsb_exists.
    rewrite list_elem_of_In, in_map_iff. split.
    + intros (o & Ho & E). apply bool_decide_eq_true in E. eauto.
    + intros (o & E & Ho). exists o. split; [done|by apply bool_decide_eq_true].
Qed.
