(* ===== verification/OpReturn.v ===== *)
(** OpReturn: the reading of an OP_RETURN script that KYC, exchange-rate,
    encrypted-key and asset transactions share, and its correctness for a
    script that pushes one block of data. *)

From S2P Require Import Prelude.
From S2P Require Import BitIO.
From S2P Require Import BitIOBlocks.
From S2P Require Import BitStream.
From S2P Require Import BitIOCodec.
From S2P Require Import BitIOText.
From S2P Require Import BitIONumbers.

Ltac Zify.zify_post_hook ::= Z.div_mod_to_equations.

(** A computation on a local stream. *)
Definition local {A} (m : M BitIO A) (b : BitIO) : outcome A := fst (m b).

(** [catch (const out_of_range&)] *)
Definition catch_out_of_range {S A} (m : M S A) (h : M S A) : M S A :=
  try_catch m (fun e => match e with out_of_range _ => h | e => throw e end).

(** The four lines every decoder of an OP_RETURN starts with: [None] if the
    script is not one that pushes data, else the data as a stream. *)
Definition op_return_data : M BitIO (option BitIO) :=
  isOpReturn ← checkIsBitcoinOpReturn;
  if negb isOpReturn then mret None
  else
    header ← getBitcoinDataHeader;
    if negb (header =? BITIO_BITCOIN_TYPE_DATA) then mret None
    else data ← copyBitcoinData; mret (Some data).

Definition op_return_payload (hex : string) : outcome (option BitIO) :=
  script ← makeHexString hex; local op_return_data script.

(** [hex] is the script that pushes the [8 * n] bits [data]. *)
Definition op_return_script (hex : string) (n : Z) (data : list bool) : Prop :=
  Forall (fun c => tolower c ∈ chars BITIO_CHARSET_HEX) (chars hex)
  /\ 1 <= n < two32 /\ Z.of_nat (length data) = 8 * n
  /\ hex_code hex = op_return_code true ++ push_code n ++ data.

Lemma op_return_payload_run hex n data :
  op_return_script hex n data ->
  exists b, op_return_payload hex = Ok (Some b) /\ wf b /\ fits b /\ rest b = data
            /\ _position b = 0 /\ _length b = 8 * n.
Proof.
  intros (Hhex & Hn & Hl & Hcode).
  destruct (built_rest _ _ (makeHexString_built hex Hhex)) as (b & Hb & Hw & Hr & Hp & Hlen).
  assert (length (push_code n) <= 40)%nat as Hpush
    by (unfold push_code; repeat case_match; rewrite ?length_app, !length_Zbits; lia).
  rewrite Hcode, !length_app in Hlen. unfold op_return_code in Hlen. rewrite length_Zbits in Hlen.
  assert (fits b) as Hf by (unfold fits, two64, two32 in *; lia).
  unfold op_return_payload, local, op_return_data. rewrite Hb. unfold mbind at 1, outcome_bind.
  rewrite Hcode in Hr. pose proof (checkIsBitcoinOpReturn_run b Hw Hf) as Hc.
  rewrite bool_decide_eq_true_2 in Hc by (by rewrite Hr).
  step Hc. cbn [negb].
  pose proof (rest_advance b _ _ Hw Hr) as Hr1. unfold op_return_code in Hr1.
  rewrite length_Zbits in Hr1. change (Z.of_nat (Z.to_nat 8)) with 8 in Hr1.
  assert (wf (advance 8 b)) as Hw1 by (apply wf_advance; first [done|lia]).
  assert (fits (advance 8 b)) as Hf1 by done.
  step (getBitcoinDataHeader_data _ n data Hw1 Hf1 Hn Hr1).
  rewrite Z.eqb_refl. cbn [negb].
  rewrite <- (app_nil_r data) in Hr1.
  destruct (copyBitcoinData_run _ data [] n Hw1 Hf1 Hn Hl Hr1) as (res & Hrun & Hwr & Har & Hpr).
  step Hrun. exists res. pose proof (length_abs_Z res Hwr) as Hlr. rewrite Har in Hlr.
  split_and!; try done; [unfold fits, two64, two32 in *; lia| |lia].
  unfold rest. by rewrite Har, Hpr.
Qed.
