(* ===== verification/KYC.v ===== *)
(** KYC: on-chain identity records (src/src/KYC.cpp).

    [addressGetterFunction] is the caller's function from a spent output to the
    address that created it; it may throw. *)

From S2P Require Import Prelude.
From S2P Require Import BitIO.
From S2P Require Import BitIOCodec.
From S2P Require Import OpReturn.
From S2P Require Import AssetTypes.
From S2P Require Import DigiAssetRules.

Ltac Zify.zify_post_hook ::= Z.div_mod_to_equations.

Record KYC := mk_KYC {
  _address : string;
  _name : string;
  _country : string;
  _hash : string;
  _heightCreated : Z;
  _heightRevoked : Z
}.

(** [KYC()], [KYC(address)] and the constructor from stored fields. *)
Definition KYC_empty : KYC := mk_KYC "" "" "" "" (-1) (-1).
Definition KYC_of_address (address : string) : KYC := mk_KYC address "" "" "" (-1) (-1).
Definition KYC_stored (address country name hash : string) (heightCreated heightRevoked : Z) : KYC :=
  mk_KYC address name country hash (i32 heightCreated) (if 0 <? heightRevoked then heightRevoked else -1).

Definition NA : Z := 0.
Definition VERIFY : Z := 1.
Definition REVOKE : Z := 2.

Definition isKYCVerifier (address : string) (height : Z) : bool :=
  if (21500000 <=? height) && bool_decide (address = "DB4hfzeshsuDDrxdmsQq4WPzpQ9Y4TDp99") then true
  else bool_decide (address = "dgb1qm3wmsga7tmwlxnphjue2569z05dcj8uxjx69p6").

Section processTX.
Context (txData : getrawtransaction_t) (height : Z).
Context (addressGetterFunction : string -> Z -> outcome string).

Definition out_addresses (o : vout_t) : list string := addresses (scriptPubKey o).

(** The address behind the last input. *)
Definition validator_address {S} : M S string :=
  input ← vec_at (vin txData) (u64 (Z.of_nat (length (vin txData)) - 1));
  lift (addressGetterFunction (txid input) (out_n input)).

(** Country code, name and hash. *)
Definition kyc_fields : M BitIO (string * string * string) :=
  text ← get3B40String 3;
  let countryCode := str (map toupper (chars text)) in
  length ← getFixedPrecision;
  let length := u32 length in
  if length =? 0 then hash ← getHexString 64; mret (countryCode, ""%string, hash)
  else name ← getUTF8String length; mret (countryCode, name, ""%string).

Definition read_verify : M BitIO (option (string * string * string)) :=
  left ← gets getNumberOfBitLeft;
  if left <=? 40 then mret None
  else
    tag ← get3B40String 3;
    if negb (bool_decide (tag = "kyc")) then mret None
    else
      validatorAddress ← validator_address;
      if negb (isKYCVerifier validatorAddress height) then mret None
      else
        data ← catch_out_of_range (fields ← kyc_fields; mret (Some fields)) (mret None);
        left ← gets getNumberOfBitLeft;
        if negb (left =? 0) then mret None else mret data.

Definition record_verify (validatedAddress countryCode name hash : string) (k : KYC) : KYC :=
  mk_KYC validatedAddress name countryCode hash (i32 height)
    (if negb (bool_decide (_address k = "")) && negb (bool_decide (_address k = validatedAddress))
     then -1 else _heightRevoked k).

Definition processKYCVerify : M KYC bool :=
  match vout txData with
  | out0 :: out1 :: out2 :: more =>
      if (1 <? Z.of_nat (length more)) then mret false
      else if negb (valueS out0 =? 600) then mret false
      else if negb (valueS out1 =? 0) then mret false
      else if negb (Z.of_nat (length (out_addresses out0)) =? 1) then mret false
      else if negb (Z.of_nat (length (out_addresses out2)) =? 1) then mret false
      else if negb (bool_decide (script_type (scriptPubKey out1) = "nulldata")) then mret false
      else
        dataStream ← lift (op_return_payload (script_hex (scriptPubKey out1)));
        match dataStream with
        | None => mret false
        | Some dataStream =>
            data ← lift (local read_verify dataStream);
            match data with
            | None => mret false
            | Some (countryCode, name, hash) =>
                validatedAddress ← vec_at (out_addresses out0) 0;
                modify (record_verify validatedAddress countryCode name hash);;
                mret true
            end
        end
  | _ => mret false
  end.

Definition read_revoke : M BitIO bool :=
  left ← gets getNumberOfBitLeft;
  if left =? 16 then mret false
  else tag ← get3B40String 3; mret (bool_decide (tag = "kyc")).

Definition record_revoke (revokedAddress : string) (k : KYC) : KYC :=
  let k := if negb (bool_decide (_address k = "")) && negb (bool_decide (_address k = revokedAddress))
           then mk_KYC (_address k) "" "" "" (-1) (_heightRevoked k) else k in
  mk_KYC revokedAddress (_name k) (_country k) (_hash k) (_heightCreated k) (i32 height).

Definition processKYCRevoke : M KYC bool :=
  match vout txData with
  | out0 :: out1 :: _ =>
      if negb (valueS out0 =? 601) then mret false
      else if negb (valueS out1 =? 0) then mret false
      else if negb (Z.of_nat (length (out_addresses out0)) =? 1) then mret false
      else if negb (bool_decide (script_type (scriptPubKey out1) = "nulldata")) then mret false
      else
        dataStream ← lift (op_return_payload (script_hex (scriptPubKey out1)));
        match dataStream with
        | None => mret false
        | Some dataStream =>
            tagged ← lift (local read_revoke dataStream);
            if negb (tagged : bool) then mret false
            else
              verifier ← vec_at (out_addresses out0) 0;
              if negb (isKYCVerifier verifier height) then mret false
              else
                revokedAddress ← lift (addressGetterFunction (tx_txid txData) 0);
                modify (record_revoke revokedAddress);;
                mret true
        end
  | _ => mret false
  end.

Definition processTX : M KYC Z :=
  verified ← processKYCVerify;
  if verified : bool then mret VERIFY
  else
    revoked ← processKYCRevoke;
    if revoked : bool then mret REVOKE else mret NA.
End processTX.

(** ** Accessors *)
Definition unknown_value {A} : outcome A := Throw (class_exception "KYC::exceptionUnknownValue" "value unknown").

Definition getAddress (k : KYC) : string := _address k.
Definition getName (k : KYC) : outcome string := if _heightCreated k =? -1 then unknown_value else Ok (_name k).
Definition getHash (k : KYC) : outcome string := if _heightCreated k =? -1 then unknown_value else Ok (_hash k).
Definition getCountry (k : KYC) : outcome string := if _heightCreated k =? -1 then unknown_value else Ok (_country k).
Definition getHeightCreated (k : KYC) : outcome Z :=
  if _heightCreated k =? -1 then unknown_value else Ok (u32 (_heightCreated k)).
Definition getHeightRevoked (k : KYC) : Z := _heightRevoked k.

Definition valid (height : Z) (k : KYC) : bool :=
  if _heightCreated k =? -1 then false
  else if (-1 <? height) && (height <? _heightCreated k) then false
  else if _heightRevoked k =? -1 then true
  else if height =? -1 then false
  else height <? _heightRevoked k.

Definition KYC_is_empty (k : KYC) : bool := _heightCreated k =? -1.
