(* ===== verification/KYCTheorems.v ===== *)
(** KYCTheorems: what verification and revocation transactions do to an
    identity record. *)

From S2P Require Import Prelude.
From S2P Require Import BitIO.
From S2P Require Import BitIOBlocks.
From S2P Require Import BitStream.
From S2P Require Import BitIOCodec.
From S2P Require Import BitIOText.
From S2P Require Import BitIONumbers.
From S2P Require Import OpReturn.
From S2P Require Import AssetTypes.
From S2P Require Import DigiAssetRules.
From S2P Require Import RulesCodec.
From S2P Require Import KYC.

Ltac Zify.zify_post_hook ::= Z.div_mod_to_equations.

(** ** The payload of a verification *)

(** A person is given by a name, as the characters of a packed UTF-8 text, or
    by the hash of one. *)
Inductive identity :=
  | named (name : list (list ascii))
  | hashed (hash : string).

Definition identity_ok (i : identity) : Prop :=
  match i with
  | named name => Forall packed_char name /\ 0 < Z.of_nat (length name) /\ small (Z.of_nat (length name))
  | hashed hash => Forall (fun c => tolower c ∈ chars BITIO_CHARSET_HEX) (chars hash)
                   /\ length (chars hash) = 64%nat
  end.

Definition identity_code (i : identity) : list bool :=
  match i with
  | named name => fp_code (Z.of_nat (length name)) ++ concat (map packed_code name)
  | hashed hash => fp_code 0 ++ hex_code hash
  end.
Definition identity_name (i : identity) : string :=
  match i with named name => str (concat name) | hashed _ => ""%string end.
Definition identity_hash (i : identity) : string :=
  match i with named _ => ""%string | hashed hash => str (map tolower (chars hash)) end.

Definition kyc_code (country : string) (i : identity) : list bool :=
  b40_code (chars "kyc") ++ country_code country ++ identity_code i.

Lemma kyc_fields_reads country i :
  is_country country -> identity_ok i ->
  reads kyc_fields (country_code country ++ identity_code i)
    (country, identity_name i, identity_hash i).
Proof.
  intros Hc Hi. unfold kyc_fields. eapply reads_bind.
  { apply (reads_country country Hc). }
  cbn beta zeta. rewrite chars_str, upper_lower by done.
  destruct i as [name|hash]; cbn [identity_ok identity_code identity_name identity_hash] in *.
  - destruct Hi as (Hp & Hl & Hs). eapply reads_bind; [apply fp_reads; by apply small_fixed_ok|].
    unfold small in Hs. rewrite u32_small by (unfold two32; lia).
    rewrite (proj2 (Z.eqb_neq _ _)) by lia.
    eapply reads_bind_ret; [by apply getUTF8String_reads|apply reads_ret].
  - destruct Hi as [Hh Hl]. eapply reads_bind; [apply fp_reads; by unfold fixed_ok; lia|].
    cbn beta zeta iota. change (u32 0 =? 0) with true. cbv iota.
    replace 64 with (Z.of_nat (length (chars hash))) by lia.
    eapply reads_bind_ret; [by apply getHexString_reads|apply reads_ret].
Qed.

(** ** A verification transaction *)
Record verification (txData : getrawtransaction_t) (height : Z)
    (getter : string -> Z -> outcome string) (validated country : string) (i : identity) := {
  ver_input : vin_t;
  ver_verifier : string;
  ver_n : Z;
  ver_payment : vout_t;
  ver_data : vout_t;
  ver_change : vout_t;
  ver_more : list vout_t;
  ver_vout : vout txData = ver_payment :: ver_data :: ver_change :: ver_more;
  ver_outputs : (length ver_more <= 1)%nat;
  ver_paid : valueS ver_payment = 600 /\ valueS ver_data = 0;
  ver_validated : addresses (scriptPubKey ver_payment) = [validated];
  ver_returned : length (addresses (scriptPubKey ver_change)) = 1%nat;
  ver_nulldata : script_type (scriptPubKey ver_data) = "nulldata"%string;
  ver_script : op_return_script (script_hex (scriptPubKey ver_data)) ver_n (kyc_code country i);
  ver_long : 5 < ver_n;
  ver_last : last (vin txData) = Some ver_input;
  ver_fits : Z.of_nat (length (vin txData)) < two64;
  ver_signed : getter (txid ver_input) (out_n ver_input) = Ok ver_verifier;
  ver_authorised : isKYCVerifier ver_verifier height = true
}.

Lemma vec_at_last {St A} (l : list A) (x : A) (s : St) :
  last l = Some x -> Z.of_nat (length l) < two64 ->
  vec_at l (u64 (Z.of_nat (length l) - 1)) s = (Ok x, s).
Proof.
  intros Hl Hf. rewrite last_lookup in Hl. destruct l as [|y l]; [done|].
  simpl length in *. rewrite u64_small by lia. unfold vec_at.
  rewrite (proj2 (Z.leb_le _ _)) by lia.
  replace (Z.to_nat (Z.of_nat (S (length l)) - 1)) with (pred (S (length l))) by lia.
  by rewrite Hl.
Qed.

Lemma read_verify_run txData height getter input verifier country i n b :
  is_country country -> identity_ok i ->
  last (vin txData) = Some input -> Z.of_nat (length (vin txData)) < two64 ->
  getter (txid input) (out_n input) = Ok verifier -> isKYCVerifier verifier height = true ->
  wf b -> fits b -> rest b = kyc_code country i -> _position b = 0 -> _length b = 8 * n -> 5 < n ->
  local (read_verify txData height getter) b = Ok (Some (country, identity_name i, identity_hash i)).
Proof.
  intros Hc Hi Hlast Hvin Hget Hauth Hw Hf Hr Hp Hl Hn. unfold local, read_verify.
  step_by reflexivity.
  pose proof (length_rest b Hw) as Hlen.
  rewrite getNumberOfBitLeft_rest by done. rewrite (proj2 (Z.leb_gt _ 40)) by lia.
  unfold kyc_code in Hr.
  pose proof (get3B40String_reads "kyc") as Hk.
  assert (Forall is_b40 (chars "kyc")) as H40
    by (apply (bool_decide_unpack _); vm_compute; exact I).
  change (Z.of_nat (length (chars "kyc"))) with 3 in Hk.
  step (Hk H40 ltac:(done) b _ Hw Hf Hr).
  pose proof (rest_advance _ _ _ Hw Hr) as Hr1.
  set (b1 := advance _ b) in *.
  assert (wf b1) as Hw1 by (apply wf_advance; [done|lia|by eapply rest_prefix]).
  rewrite bool_decide_eq_true_2 by done. cbn [negb].
  step_by (unfold validator_address; step (vec_at_last _ _ b1 Hlast Hvin); unfold lift; rewrite Hget; reflexivity).
  rewrite Hauth. cbn [negb]. rewrite <- (app_nil_r (_ ++ identity_code i)) in Hr1.
  step_by (unfold catch_out_of_range, try_catch;
           step (kyc_fields_reads country i Hc Hi b1 [] Hw1 Hf Hr1); reflexivity).
  step_by reflexivity. pose proof (rest_advance _ _ _ Hw1 Hr1) as Hr2.
  set (b2 := advance _ b1) in *.
  assert (wf b2) as Hw2 by (apply wf_advance; [done|lia|by eapply rest_prefix]).
  rewrite (getNumberOfBitLeft_rest b2 Hw2 Hf), Hr2. done.
Qed.

(** ** Only verifiers change a record *)

(** The verifier of a verification is the address behind its last input; a
    revocation names one by paying its first output to it. *)
Definition signed_by (txData : getrawtransaction_t) (getter : string -> Z -> outcome string)
    (signer : string) : Prop :=
  exists input, last (vin txData) = Some input /\ getter (txid input) (out_n input) = Ok signer.
Definition pays_first (txData : getrawtransaction_t) (receiver : string) : Prop :=
  exists o more, vout txData = o :: more /\ addresses (scriptPubKey o) = [receiver].

Lemma validator_address_signed {St} txData getter signer (s s' : St) :
  Z.of_nat (length (vin txData)) < two64 ->
  validator_address txData getter s = (Ok signer, s') -> signed_by txData getter signer.
Proof.
  intros Hf H. unfold validator_address in H.
  apply bind_ok_inv in H as (input & s1 & Hin & Hget). exists input.
  unfold lift in Hget. injection Hget as Hget _. split; [|done].
  unfold vec_at in Hin. rewrite last_lookup.
  destruct (vin txData) as [|x l]; [done|].
  assert (u64 (Z.of_nat (length (x :: l)) - 1) = Z.of_nat (length l)) as E
    by (rewrite u64_small; rewrite length_cons in *; lia).
  rewrite E, (proj2 (Z.leb_le _ _)), Nat2Z.id in Hin by lia.
  change (pred (length (x :: l))) with (length l).
  destruct ((x :: l) !! length l) as [y|]; [|done]. by injection Hin as ->.
Qed.

Lemma read_verify_signed txData height getter b d :
  Z.of_nat (length (vin txData)) < two64 ->
  local (read_verify txData height getter) b = Ok (Some d) ->
  exists signer, signed_by txData getter signer /\ isKYCVerifier signer height = true.
Proof.
  intros Hf. unfold local. destruct (read_verify txData height getter b) as [o b'] eqn:H.
  simpl. intros ->. unfold read_verify in H.
  apply bind_ok_inv in H as (left & s1 & _ & H).
  destruct (left <=? 40); [done|].
  apply bind_ok_inv in H as (tag & s2 & _ & H).
  destruct (negb (bool_decide (tag = "kyc"%string))); [done|].
  apply bind_ok_inv in H as (signer & s3 & Hs & H).
  exists signer. split; [by eapply validator_address_signed|].
  by destruct (isKYCVerifier signer height).
Qed.

(** The record after a verification, of the address the first output pays, or
    after a revocation, of the address behind that output. *)
Definition after_verify (txData : getrawtransaction_t) height (k : KYC) (k' : KYC) : Prop :=
  exists address country name hash, pays_first txData address /\ k' = record_verify height address country name hash k.
Definition after_revoke (txData : getrawtransaction_t) (getter : string -> Z -> outcome string) height (k : KYC) (k' : KYC) : Prop :=
  exists address, getter (tx_txid txData) 0 = Ok address /\ k' = record_revoke height address k.

(** A state change needs a verifier. *)
Definition guarded (height : Z) (authorises : string -> Prop) (changed : KYC -> KYC -> Prop)
    (m : M KYC bool) : Prop :=
  forall k, exists o k', m k = (o, k')
    /\ (o <> Ok true -> k' = k)
    /\ (o = Ok true -> changed k k'
                       /\ exists verifier, authorises verifier /\ isKYCVerifier verifier height = true).

Lemma guarded_refused height auth changed o :
  o <> Ok true -> guarded height auth changed (lift o).
Proof. intros Ho k. exists o, k. by split_and!. Qed.

Lemma guarded_bind {A} height auth changed (o : outcome A) (f : A -> M KYC bool) :
  (forall a, o = Ok a -> guarded height auth changed (f a)) ->
  guarded height auth changed (lift o ≫= f).
Proof.
  intros Hf k. unfold mbind, M_bind, lift. destruct o as [a|e| |].
  - by apply Hf.
  - by exists (Throw e), k.
  - by exists UB, k.
  - by exists Fuel, k.
Qed.

Lemma guarded_if height auth changed (b : bool) m :
  (b = false -> guarded height auth changed m) ->
  guarded height auth changed (if b then mret false else m).
Proof. intros H. destruct b; [by apply (guarded_refused _ _ _ (Ok false))|by apply H]. Qed.

Lemma vec_at_lift {St A} (l : list A) i :
  (vec_at l i : M St A) = lift (fst (vec_at l i tt)).
Proof. unfold vec_at. destruct (0 <=? i); [by destruct (l !! Z.to_nat i)|done]. Qed.

Lemma single_address {St} (l : list string) a (s : St) :
  negb (Z.of_nat (length l) =? 1) = false -> fst ((vec_at l 0 : M St string) s) = Ok a -> l = [a].
Proof.
  intros Hl. apply negb_false_iff, Z.eqb_eq in Hl.
  destruct l as [|x [|]]; simpl in Hl; try lia. by intros [= ->].
Qed.

Ltac guard_step :=
  match goal with
  | |- guarded _ _ _ (mret false) => apply (guarded_refused _ _ _ (Ok false)); discriminate
  | |- guarded _ _ _ (if _ then mret false else _) => apply guarded_if; intros ?
  | |- guarded _ _ _ (lift _ ≫= _) => apply guarded_bind; intros ? ?
  | |- guarded _ _ _ (vec_at _ _ ≫= _) => rewrite vec_at_lift
  | |- guarded _ _ _ (match ?x with _ => _ end) => destruct x eqn:?
  end.

Lemma verify_guarded txData height getter :
  Z.of_nat (length (vin txData)) < two64 ->
  guarded height (signed_by txData getter) (after_verify txData height) (processKYCVerify txData height getter).
Proof.
  intros Hf. unfold processKYCVerify. destruct (vout txData) as [|out0 [|out1 [|out2 more]]] eqn:Hv;
    [by apply (guarded_refused _ _ _ (Ok false))..|].
  repeat guard_step. simplify_eq.
  intros k. eexists _, _. split; [reflexivity|]. split; [done|]. intros _. split.
  - eexists _, _, _, _. split; [|done]. exists out0, (out1 :: out2 :: more). split; [done|]. unfold out_addresses in *.
    by eapply (single_address (St:=unit)).
  - by eapply read_verify_signed.
Qed.

Lemma revoke_guarded txData height getter :
  guarded height (pays_first txData) (after_revoke txData getter height) (processKYCRevoke txData height getter).
Proof.
  unfold processKYCRevoke.
  destruct (vout txData) as [|out0 [|out1 more]] eqn:Hv;
    [by apply (guarded_refused _ _ _ (Ok false))..|].
  repeat guard_step.
  intros k. eexists _, _. split; [reflexivity|]. split; [done|]. intros _. split; [by eexists|].
  match goal with H : negb (isKYCVerifier ?s height) = false |- _ =>
    exists s; apply negb_false_iff in H; split; [|exact H] end.
  exists out0, (out1 :: more). split; [done|]. unfold out_addresses in *.
  by eapply (single_address (St:=unit)).
Qed.

(** C33: a transaction changes an identity record only with an authorised KYC
    verifier: [processTX] returns NA, VERIFY or REVOKE. On VERIFY the address
    behind the last input is a verifier, so that one has signed, and the record
    is the one the verification of the address of its first output leaves. On
    REVOKE the first output pays a verifier - that is all the code asks for, a
    verifier need not have signed ([stranger_revokes]) - and the record is the
    one the revocation of the address behind that output leaves. On NA and on
    every exception the record is untouched. *)
Theorem kyc_only_verifiers txData height getter k :
  Z.of_nat (length (vin txData)) < two64 ->
  exists o k', processTX txData height getter k = (o, k')
    /\ (o = Ok VERIFY /\ after_verify txData height k k'
          /\ (exists verifier, signed_by txData getter verifier /\ isKYCVerifier verifier height = true)
        \/ o = Ok REVOKE /\ after_revoke txData getter height k k'
          /\ (exists verifier, pays_first txData verifier /\ isKYCVerifier verifier height = true)
        \/ (o = Ok NA \/ is_ok o = false) /\ k' = k).
Proof.
  intros Hf. unfold processTX.
  destruct (verify_guarded txData height getter Hf k) as (o & k1 & H1 & Hno & Hyes).
  unfold mbind at 1, M_bind. rewrite H1. destruct o as [[|]|e| |].
  - destruct (Hyes eq_refl) as [? ?]. exists (Ok VERIFY), k1. split; [done|]. by left.
  - rewrite (Hno ltac:(done)). clear H1 Hno Hyes k1.
    destruct (revoke_guarded txData height getter k) as (o & k2 & H2 & Hno & Hyes).
    unfold mbind, M_bind. rewrite H2. destruct o as [[|]|e| |].
    + destruct (Hyes eq_refl) as [? ?]. exists (Ok REVOKE), k2. split; [done|]. by right; left.
    + exists (Ok NA), k2. split; [done|]. right; right. split; [by left|by apply Hno].
    + exists (Throw e), k2. split; [done|]. right; right. split; [by right|by apply Hno].
    + exists UB, k2. split; [done|]. right; right. split; [by right|by apply Hno].
    + exists Fuel, k2. split; [done|]. right; right. split; [by right|by apply Hno].
  - exists (Throw e), k1. split; [done|]. right; right. split; [by right|by apply Hno].
  - exists UB, k1. split; [done|]. right; right. split; [by right|by apply Hno].
  - exists Fuel, k1. split; [done|]. right; right. split; [by right|by apply Hno].
Qed.

(** A well-formed verification transaction - 600 satoshi to the validated
    address, an OP_RETURN that holds "kyc", a country and a name or hash, a
    verifier behind the last input - is recognised and records exactly the
    encoded fields; a revocation of another address that the object held is
    dropped. *)
Theorem kyc_verify_decodes txData height getter validated country i
    (V : verification txData height getter validated country i) k :
  is_country country -> identity_ok i ->
  processTX txData height getter k
  = (Ok VERIFY,
     mk_KYC validated (identity_name i) country (identity_hash i) (i32 height)
       (if bool_decide (_address k = ""%string \/ _address k = validated) then _heightRevoked k else -1)).
Proof.
  intros Hc Hi. destruct V as [input verifier n pay dat change more Hv Hm [Hp Hd] Ha Hr Ht Hs Hn Hl Hf Hg Hau].
  assert (processKYCVerify txData height getter k
    = (Ok true, record_verify height validated country (identity_name i) (identity_hash i) k)) as H.
  { unfold processKYCVerify. rewrite Hv. rewrite (proj2 (Z.ltb_ge 1 _)) by lia.
    rewrite Hp, Hd. cbn [Z.eqb Pos.eqb negb].
    unfold out_addresses. rewrite Ha, Hr, Ht. cbn [length Z.of_nat Pos.of_succ_nat Z.eqb Pos.eqb negb].
    rewrite bool_decide_eq_true_2 by done. change (negb (Z.of_nat 1 =? 1)) with false. cbn [negb].
    destruct (op_return_payload_run _ _ _ Hs) as (b & Hb & Hwb & Hfb & Hrb & Hpb & Hlb).
    step_by (unfold lift; rewrite Hb; reflexivity). cbv iota.
    step_by (unfold lift; rewrite (read_verify_run txData height getter input verifier country i n b); by first [done|reflexivity]). cbv iota.
    step_by reflexivity. step_by reflexivity. done. }
  unfold processTX. step H. f_equal. unfold record_verify. f_equal.
  repeat case_bool_decide; simpl; try done; tauto.
Qed.

(** The life of an identity: after a verification at height [h] and a
    revocation of the same address at height [h'], the record is valid exactly
    at the heights from [h] up to, not including, [h']; without a revocation
    it is valid from [h] on, and for "now" (-1); and a revocation of another
    address leaves no valid record. *)
Theorem kyc_lifecycle h h' height address other country name hash :
  0 <= h < 2147483648 -> 0 <= h' < 2147483648 -> 0 <= height -> address <> ""%string -> other <> address ->
  let k := record_verify h address country name hash KYC_empty in
  let revoked := record_revoke h' address k in
  valid height k = (h <=? height) /\ valid (-1) k = true
  /\ valid height revoked = (h <=? height) && (height <? h') /\ valid (-1) revoked = false
  /\ valid height (record_revoke h' other k) = false
  /\ KYC_is_empty (record_revoke h' other k) = true
  /\ getCountry k = Ok country /\ getName k = Ok name /\ getHash k = Ok hash
  /\ getHeightCreated k = Ok h
  /\ getCountry (record_revoke h' other k) = unknown_value.
Proof.
  intros Hh Hh' Hheight Ha Ho k revoked.
  assert (forall z, 0 <= z < 2147483648 -> i32 z = z) as Hi.
  { intros z Hz. unfold i32, two32. rewrite Z.mod_small; lia. }
  assert (k = mk_KYC address name country hash h (-1)) as Ek.
  { unfold k, record_verify. cbn. by rewrite Hi. }
  assert (revoked = mk_KYC address name country hash h h') as Er.
  { unfold revoked, record_revoke. rewrite Ek. cbn. rewrite Hi by done.
    by rewrite (bool_decide_eq_true_2 (address = address)), andb_false_r. }
  assert (record_revoke h' other k = mk_KYC other "" "" "" (-1) h') as Eo.
  { unfold record_revoke. rewrite Ek. cbn. rewrite Hi by done.
    by rewrite !bool_decide_eq_false_2. }
  rewrite Eo, Er, Ek. unfold valid, KYC_is_empty, getCountry, getName, getHash, getHeightCreated. cbn.
  rewrite (proj2 (Z.eqb_neq h (-1))), (proj2 (Z.eqb_neq h' (-1))), (proj2 (Z.eqb_neq height (-1))) by lia.
  rewrite (proj2 (Z.ltb_lt (-1) height)), (u32_small h) by (unfold two32; lia).
  split_and!; try done.
  - destruct (Z.ltb_spec height h), (Z.leb_spec h height); lia || done.
  - destruct (Z.ltb_spec height h), (Z.leb_spec h height); lia || done.
Qed.

(** ** Witnesses *)
Definition kyc_verifier : string := "dgb1qm3wmsga7tmwlxnphjue2569z05dcj8uxjx69p6".
Definition data_output (hex : string) : vout_t := mk_vout 0 1 (mk_scriptPubKey hex "nulldata" []).
Definition paid_output (sats n : Z) (address : string) : vout_t :=
  mk_vout sats n (mk_scriptPubKey "" "pubkeyhash" [address]).
Definition sample_hash : string := "00112233445566778899aabbccddeeff00112233445566778899aabbccddeeff".
Definition sample_verification : getrawtransaction_t :=
  mk_getrawtransaction "t" 1 "" 0 [mk_vin "in" 2 "" []]
    [paid_output 600 0 "DAlice";
     data_output "6a25825c4ca70000112233445566778899aabbccddeeff00112233445566778899aabbccddeeff";
     paid_output 5000 2 kyc_verifier].
Definition always_verifier (txid : string) (n : Z) : outcome string := Ok kyc_verifier.
Definition revocation (hex : string) : getrawtransaction_t :=
  mk_getrawtransaction "t" 1 "" 0 [mk_vin "in" 2 "" []] [paid_output 601 0 kyc_verifier; data_output hex].

Lemma sample_hash_ok : identity_ok (hashed sample_hash).
Proof. split; [by apply (bool_decide_unpack _); vm_compute|done]. Qed.
Lemma canada : is_country "CAN".
Proof. split; [done|]. repeat (apply list.Forall_cons; split; [unfold is_letter; vm_compute; done|]). by apply list.Forall_nil. Qed.

Lemma sample_verification_ok :
  verification sample_verification 7000000 always_verifier "DAlice" "CAN" (hashed sample_hash).
Proof.
  refine {| ver_input := mk_vin "in" 2 "" []; ver_verifier := kyc_verifier; ver_n := 37;
            ver_payment := paid_output 600 0 "DAlice"; ver_change := paid_output 5000 2 kyc_verifier;
            ver_data := data_output _; ver_more := [] |}; try done.
  - simpl; lia.
  - split_and!; try done. by apply (bool_decide_unpack _); vm_compute.
Qed.

Lemma kyc_verify_decodes_witness :
  fst (processTX sample_verification 7000000 always_verifier KYC_empty) = Ok VERIFY.
Proof.
  by rewrite (kyc_verify_decodes sample_verification 7000000 always_verifier "DAlice" "CAN"
    (hashed sample_hash) sample_verification_ok KYC_empty canada sample_hash_ok).
Defined.

(** The same transaction when its last input is a stranger's *)
Definition always_stranger (txid : string) (n : Z) : outcome string := Ok "DStranger"%string.
Lemma kyc_only_verifiers_witness :
  (exists k' verifier, processTX sample_verification 7000000 always_verifier KYC_empty = (Ok VERIFY, k')
     /\ _address k' = "DAlice"%string
     /\ signed_by sample_verification always_verifier verifier /\ isKYCVerifier verifier 7000000 = true)
  /\ (processTX sample_verification 7000000 always_stranger KYC_empty).2 = KYC_empty.
Proof.
  split.
  - destruct (kyc_only_verifiers sample_verification 7000000 always_verifier KYC_empty ltac:(done)) as (o & k' & H & Hcases).
    assert ((processTX sample_verification 7000000 always_verifier KYC_empty).1 = Ok VERIFY) as E by (vm_compute; reflexivity).
    rewrite H in E. cbn in E. subst o.
    destruct Hcases as [(_ & (address & country & name & hash & (out & more & Ev & Ea) & ->) & verifier & Hs & Hv)|[[E _]|[[E|E] _]]];
      [|discriminate E..].
    exists (record_verify 7000000 address country name hash KYC_empty), verifier. split; [exact H|]. split; [|by split].
    injection Ev as <- <-. injection Ea as <-. reflexivity.
  - destruct (kyc_only_verifiers sample_verification 7000000 always_stranger KYC_empty ltac:(done)) as (o & k' & H & Hcases).
    rewrite H. destruct Hcases as [(_ & _ & verifier & (input & _ & Hs) & Hv)|[(_ & _ & verifier & (out & more & Ev & Ea) & Hv)|[_ ->]]]; [| |done].
    + injection Hs as <-. vm_compute in Hv. discriminate Hv.
    + injection Ev as <- <-. injection Ea as <-. vm_compute in Hv. discriminate Hv.
Defined.

(** A stranger who pays a verifier revokes the address behind the payment; no
    verifier has signed. *)
Lemma stranger_revokes :
  isKYCVerifier "DStranger" 7000000 = false
  /\ processTX (revocation "6a03825c00") 7000000 always_stranger KYC_empty
     = (Ok REVOKE, record_revoke 7000000 "DStranger" KYC_empty).
Proof. split; vm_compute; reflexivity. Qed.

Lemma kyc_lifecycle_witness :
  valid 120 (record_revoke 200 "DA" (record_verify 100 "DA" "CAN" "Ann" "" KYC_empty)) = true.
Proof.
  destruct (kyc_lifecycle 100 200 120 "DA" "DB" "CAN" "Ann" "" ltac:(lia) ltac:(lia) ltac:(lia)
    ltac:(done) ltac:(done)) as (_ & _ & H & _).
  rewrite H. reflexivity.
Defined.

(** A revocation that holds exactly the two bytes of "kyc" is refused, and one
    with more data is accepted: the length test of processKYCRevoke is
    inverted (its comment asks for exactly two bytes). *)
Lemma revoke_length_test_inverted :
  processTX (revocation "6a02825c") 7000000 always_verifier KYC_empty = (Ok NA, KYC_empty)
  /\ fst (processTX (revocation "6a03825c00") 7000000 always_verifier KYC_empty) = Ok REVOKE.
Proof. split; vm_compute; reflexivity. Qed.
