(* ===== verification/Base58.v ===== *)
(** Base58: the base-58 text form of asset ids and addresses (src/src/Base58.cpp)
    and its round trip.

    The fixed-size work vector of the code is modelled by the prefix in use; a
    push beyond the allocated size is undefined behaviour.  The theorem shows
    that [size * 138 / 100 + 1] cells are always enough. *)

From S2P Require Import Prelude.
From S2P Require Import BitIOCodec.
From S2P Require Import BitIOText.

Ltac Zify.zify_post_hook ::= Z.div_mod_to_equations.

Definition base58Map : list ascii :=
  chars "123456789ABCDEFGHJKLMNPQRSTUVWXYZabcdefghijkmnopqrstuvwxyz".

Definition alphaMap : list Z :=
  [0xff; 0xff; 0xff; 0xff; 0xff; 0xff; 0xff; 0xff; 0xff; 0xff; 0xff; 0xff; 0xff; 0xff; 0xff; 0xff;
   0xff; 0xff; 0xff; 0xff; 0xff; 0xff; 0xff; 0xff; 0xff; 0xff; 0xff; 0xff; 0xff; 0xff; 0xff; 0xff;
   0xff; 0xff; 0xff; 0xff; 0xff; 0xff; 0xff; 0xff; 0xff; 0xff; 0xff; 0xff; 0xff; 0xff; 0xff; 0xff;
   0xff; 0x00; 0x01; 0x02; 0x03; 0x04; 0x05; 0x06; 0x07; 0x08; 0xff; 0xff; 0xff; 0xff; 0xff; 0xff;
   0xff; 0x09; 0x0a; 0x0b; 0x0c; 0x0d; 0x0e; 0x0f; 0x10; 0xff; 0x11; 0x12; 0x13; 0x14; 0x15; 0xff;
   0x16; 0x17; 0x18; 0x19; 0x1a; 0x1b; 0x1c; 0x1d; 0x1e; 0x1f; 0x20; 0xff; 0xff; 0xff; 0xff; 0xff;
   0xff; 0x21; 0x22; 0x23; 0x24; 0x25; 0x26; 0x27; 0x28; 0x29; 0x2a; 0x2b; 0xff; 0x2c; 0x2d; 0x2e;
   0x2f; 0x30; 0x31; 0x32; 0x33; 0x34; 0x35; 0x36; 0x37; 0x38; 0x39; 0xff; 0xff; 0xff; 0xff; 0xff].

Definition work_size (n : nat) : Z := Z.of_nat n * 138 / 100 + 1.

(** The loop over the cells in use: [mul] scales them, [base] splits the
    carry; returns the cells and the last carry. *)
Fixpoint encode_cells (carry : Z) (digits : list Z) : list Z * Z :=
  match digits with
  | [] => ([], carry)
  | d :: digits =>
      let carry := u32 (carry + Z.shiftl d 8) in
      let '(rest, last) := encode_cells (carry / 58) digits in
      (u8 (carry mod 58) :: rest, last)
  end.

Fixpoint decode_cells (carry : Z) (result : list Z) : list Z * Z :=
  match result with
  | [] => ([], carry)
  | d :: result =>
      let carry := u32 (carry + d * 58) in
      let '(rest, last) := decode_cells (Z.shiftr carry 8) result in
      (u8 carry :: rest, last)
  end.

(** [for (; carry; carry /= base) cells[len++] = carry % base]; a 32-bit carry
    has fewer than 8 digits in either base. *)
Fixpoint push_carry (base size : Z) (fuel : nat) (carry : Z) (cells : list Z) : outcome (list Z) :=
  if carry =? 0 then Ok cells
  else
    match fuel with
    | O => Fuel
    | S fuel =>
        if Z.of_nat (length cells) <? size
        then push_carry base size fuel (carry / base) (cells ++ [carry mod base])
        else UB
    end.

Fixpoint encode_bytes (size : Z) (data : list Z) (digits : list Z) : outcome (list Z) :=
  match data with
  | [] => Ok digits
  | byte :: data =>
      let '(digits, carry) := encode_cells byte digits in
      digits ← push_carry 58 size 8 carry digits;
      encode_bytes size data digits
  end.

Fixpoint decode_chars (size : Z) (data : list ascii) (result : list Z) : outcome (list Z) :=
  match data with
  | [] => Ok result
  | c :: data =>
      let '(result, carry) := decode_cells (nth (Z.to_nat (Z.land (byteZ c) 127)) alphaMap 0) result in
      result ← push_carry 256 size 8 carry result;
      decode_chars size data result
  end.

Definition base58_char (v : Z) : ascii := nth (Z.to_nat v) base58Map "0"%char.

(** The leading cells that satisfy [zero], not counting the last one. *)
Fixpoint leading {A} (zero : A -> bool) (l : list A) : nat :=
  match l with
  | [] => O
  | x :: l =>
      match l with
      | [] => O
      | _ => if zero x then S (leading zero l) else O
      end
  end.

(** Empty input reads [data[0]] of an empty vector: [size() - 1] wraps. *)
Definition encode (data : list Z) : outcome string :=
  digits ← encode_bytes (work_size (length data)) data [0];
  match data with
  | [] => UB
  | _ => Ok (str (repeat (base58_char 0) (leading (Z.eqb 0) data) ++ map base58_char (rev digits)))
  end.

(** On an empty string [data[0]] is the terminating null character. *)
Definition decode (data : string) : outcome (list Z) :=
  result ← decode_chars (work_size (length (chars data))) (chars data) [0];
  Ok (rev (result ++ repeat 0 (leading (fun c => bool_decide (c = base58_char 0)) (chars data)))).

(** ** Little-endian numbers *)
Fixpoint value (base : Z) (cells : list Z) : Z :=
  match cells with [] => 0 | d :: cells => d + base * value base cells end.

Definition digits_in (base : Z) (cells : list Z) : Prop := Forall (fun d => 0 <= d < base) cells.

(** No superfluous leading digit: a single one, or a non-zero top digit. *)
Definition canonical (cells : list Z) : Prop :=
  length cells = 1%nat \/ exists d, last cells = Some d /\ d <> 0.

Lemma value_app base l k : value base (l ++ k) = value base l + base ^ Z.of_nat (length l) * value base k.
Proof.
  induction l as [|d l IH]; [simpl; lia|].
  rewrite <- app_comm_cons. cbn [value length]. rewrite IH, Nat2Z.inj_succ, Z.pow_succ_r by lia. ring.
Qed.

Lemma value_range base l : 1 < base -> digits_in base l -> 0 <= value base l < base ^ Z.of_nat (length l).
Proof.
  intros Hb. induction 1 as [|d l Hd _ IH]; [simpl; lia|].
  cbn [value length]. rewrite Nat2Z.inj_succ, Z.pow_succ_r by lia. nia.
Qed.

Lemma value_low base l :
  1 < base -> digits_in base l -> (exists d, last l = Some d /\ d <> 0) ->
  base ^ (Z.of_nat (length l) - 1) <= value base l.
Proof.
  intros Hb Hl (d & Hd & Hnz). destruct l as [|x l _] using rev_ind; [done|].
  rewrite last_snoc in Hd. injection Hd as ->.
  rewrite length_app, Nat2Z.inj_add. change (Z.of_nat (length [d])) with 1.
  rewrite Z.add_simpl_r, value_app. cbn [value].
  apply Forall_app in Hl as [Hl Hd]. apply list.Forall_cons in Hd as [Hd _].
  pose proof (value_range base l Hb Hl).
  assert (0 < base ^ Z.of_nat (length l)) by (apply Z.pow_pos_nonneg; lia). nia.
Qed.

Lemma value_inj base l k :
  1 < base -> digits_in base l -> digits_in base k -> canonical l -> canonical k ->
  value base l = value base k -> l = k.
Proof.
  intros Hb Hl Hk Cl Ck Hv.
  assert (length l = length k) as Hlen.
  { assert (forall a b, digits_in base a -> digits_in base b -> canonical a -> canonical b ->
              value base a = value base b -> (length a <= length b)%nat) as Hle.
    { intros a b Ha Hbb Ca Cb E. destruct Ca as [->|Ha1].
      - destruct Cb as [->|(d & Hd & _)]; [done|]. destruct b; [done|simpl; lia].
      - pose proof (value_low base a Hb Ha Ha1). pose proof (value_range base b Hb Hbb).
        destruct (decide (length a <= length b)%nat) as [|Hn]; [done|]. exfalso.
        assert (base ^ Z.of_nat (length b) <= base ^ (Z.of_nat (length a) - 1))
          by (apply Z.pow_le_mono_r; lia). lia. }
    apply Nat.le_antisymm; [by apply Hle|by apply Hle]. }
  clear Cl Ck. revert k Hk Hv Hlen. induction Hl as [|d l Hd _ IH]; intros k Hk Hv Hlen.
  - by destruct k.
  - destruct k as [|e k]; [done|]. apply list.Forall_cons in Hk as [He Hk].
    cbn [value] in Hv. injection Hlen as Hlen.
    destruct (Z.div_mod_unique base (value base l) (value base k) d e) as [E ->]; [lia..|].
    f_equal. by apply IH.
Qed.

(** ** One multiply-and-add step, for both directions *)
Section step.
Context (base mul : Z) (cells_step : Z -> list Z -> list Z * Z).
Hypothesis base_mul : (base = 58 /\ mul = 256) \/ (base = 256 /\ mul = 58).
Hypothesis step_nil : forall c, cells_step c [] = ([], c).
Hypothesis step_cons : forall c d l, 0 <= c < 512 -> 0 <= d < base ->
  cells_step c (d :: l)
  = (let '(r, k) := cells_step ((c + mul * d) / base) l in ((c + mul * d) mod base :: r, k)).

Lemma cells_step_spec l : forall c,
  0 <= c < 512 -> digits_in base l ->
  exists r k, cells_step c l = (r, k) /\ length r = length l /\ digits_in base r /\ 0 <= k < 512
    /\ value base r + base ^ Z.of_nat (length l) * k = mul * value base l + c.
Proof.
  intros c Hc Hl. revert c Hc. induction Hl as [|d l Hd _ IH]; intros c Hc.
  - exists [], c. rewrite step_nil. split_and!; try done; try lia. by apply list.Forall_nil. simpl. lia.
  - assert (0 <= c + mul * d < 512 * base) as Hb by (destruct base_mul as [[-> ->]|[-> ->]]; lia).
    assert (0 < base) as Hp by (destruct base_mul as [[-> ->]|[-> ->]]; lia).
    destruct (IH ((c + mul * d) / base)) as (r & k & E & Hlen & Hr & Hk & Hv).
    { split; [apply Z.div_pos; lia|apply Z.div_lt_upper_bound; lia]. }
    rewrite step_cons by done. rewrite E.
    exists ((c + mul * d) mod base :: r), k. split_and!; try done.
    + simpl. by rewrite Hlen.
    + apply list.Forall_cons. split; [by apply Z.mod_pos_bound|done].
    + lia.
    + lia.
    + cbn [value length]. rewrite Nat2Z.inj_succ, Z.pow_succ_r by lia.
      pose proof (Z.div_mod (c + mul * d) base ltac:(lia)). nia.
Qed.
End step.

Lemma encode_cells_cons c d l :
  0 <= c < 512 -> 0 <= d < 58 ->
  encode_cells c (d :: l)
  = (let '(r, k) := encode_cells ((c + 256 * d) / 58) l in ((c + 256 * d) mod 58 :: r, k)).
Proof.
  intros Hc Hd. cbn [encode_cells]. rewrite Z.shiftl_mul_pow2 by lia.
  rewrite u32_small by (unfold two32; lia). replace (c + d * 2 ^ 8) with (c + 256 * d) by lia.
  destruct (encode_cells _ l). unfold u8. by rewrite (Z.mod_small (_ mod 58)) by lia.
Qed.

Lemma decode_cells_cons c d l :
  0 <= c < 512 -> 0 <= d < 256 ->
  decode_cells c (d :: l)
  = (let '(r, k) := decode_cells ((c + 58 * d) / 256) l in ((c + 58 * d) mod 256 :: r, k)).
Proof.
  intros Hc Hd. cbn [decode_cells]. rewrite u32_small by (unfold two32; lia).
  rewrite Z.shiftr_div_pow2 by lia. replace (c + d * 58) with (c + 58 * d) by lia.
  by destruct (decode_cells _ l).
Qed.

(** The carry is appended digit by digit; a cell is free as long as the number
    fits the allocated size. *)
Lemma push_carry_spec base size fuel : forall carry cells,
  1 < base -> 0 <= size -> 0 <= carry < base ^ Z.of_nat fuel -> digits_in base cells -> cells <> [] ->
  (carry = 0 -> canonical cells) ->
  value base cells + base ^ Z.of_nat (length cells) * carry < base ^ size ->
  exists r, push_carry base size fuel carry cells = Ok r /\ digits_in base r /\ canonical r /\ r <> []
    /\ value base r = value base cells + base ^ Z.of_nat (length cells) * carry.
Proof.
  induction fuel as [|fuel IH]; intros carry cells Hb Hs Hc Hd Hne Hcan Hfit.
  - simpl in Hc. assert (carry = 0) as -> by lia. exists cells. split_and!; try done; [by apply Hcan|lia].
  - cbn [push_carry]. destruct (Z.eqb_spec carry 0) as [->|Hnz].
    { exists cells. split_and!; try done; [by apply Hcan|lia]. }
    rewrite Nat2Z.inj_succ, Z.pow_succ_r in Hc by lia.
    pose proof (value_range base cells Hb Hd).
    assert (0 < base ^ Z.of_nat (length cells)) by (apply Z.pow_pos_nonneg; lia).
    rewrite (proj2 (Z.ltb_lt _ _)).
    2:{ apply (Z.pow_lt_mono_r_iff base); [lia|lia|nia]. }
    pose proof (Z.div_mod carry base ltac:(lia)). pose proof (Z.mod_pos_bound carry base ltac:(lia)).
    assert (value base (cells ++ [carry mod base])
            + base ^ Z.of_nat (length (cells ++ [carry mod base])) * (carry / base)
            = value base cells + base ^ Z.of_nat (length cells) * carry) as Hv.
    { rewrite value_app, length_app, Nat2Z.inj_add, Z.pow_add_r by lia. cbn [value length].
      change (Z.of_nat 1) with 1. rewrite Z.pow_1_r. nia. }
    destruct (IH (carry / base) (cells ++ [carry mod base])) as (r & Hr & ? & ? & ? & Hvr); try done.
    + split; [apply Z.div_pos; lia|apply Z.div_lt_upper_bound; lia].
    + apply Forall_app. split; [done|]. apply list.Forall_cons. split; [done|by apply list.Forall_nil].
    + by destruct cells.
    + intros E. right. exists (carry mod base). rewrite last_snoc. split; [done|]. lia.
    + by rewrite Hv.
    + exists r. rewrite Hvr, Hv. by split_and!.
Qed.

Lemma canonical_of_value base l :
  1 < base -> digits_in base l -> l <> [] ->
  base ^ (Z.of_nat (length l) - 1) <= value base l -> canonical l.
Proof.
  intros Hb Hl Hne Hv. destruct l as [|x l _] using rev_ind; [done|].
  right. exists x. rewrite last_snoc. split; [done|]. intros ->.
  apply Forall_app in Hl as [Hl _]. rewrite length_app, Nat2Z.inj_add in Hv.
  change (Z.of_nat (length [0])) with 1 in Hv. rewrite Z.add_simpl_r, value_app in Hv.
  cbn [value] in Hv. pose proof (value_range base l Hb Hl). lia.
Qed.

(** One digit of input: the cells hold [mul * old + digit] again. *)
Section digit.
Context (base mul : Z) (cells_step : Z -> list Z -> list Z * Z).
Hypothesis base_mul : (base = 58 /\ mul = 256) \/ (base = 256 /\ mul = 58).
Hypothesis step_nil : forall c, cells_step c [] = ([], c).
Hypothesis step_cons : forall c d l, 0 <= c < 512 -> 0 <= d < base ->
  cells_step c (d :: l)
  = (let '(r, k) := cells_step ((c + mul * d) / base) l in ((c + mul * d) mod base :: r, k)).

Lemma digit_spec size c l :
  0 <= size -> 0 <= c < 256 -> digits_in base l -> canonical l -> l <> [] ->
  mul * value base l + c < base ^ size ->
  exists r, (let '(cells, k) := cells_step c l in push_carry base size 8 k cells) = Ok r
    /\ digits_in base r /\ canonical r /\ r <> [] /\ value base r = mul * value base l + c.
Proof.
  intros Hs Hc Hl Hcan Hne Hfit.
  assert (1 < base /\ 1 < mul) as [Hb Hm] by (destruct base_mul as [[-> ->]|[-> ->]]; lia).
  destruct (cells_step_spec base mul cells_step base_mul step_nil step_cons l c) as (cells & k & E & Hlen & Hd & Hk & Hv);
    [lia|done|].
  rewrite E. rewrite <- Hlen in Hv.
  assert (cells <> []) as Hne' by (destruct cells, l; done).
  destruct (push_carry_spec base size 8 k cells) as (r & Hr & ? & ? & ? & Hvr); try done.
  - split; [lia|]. assert (512 < base ^ 8) by (destruct base_mul as [[-> ->]|[-> ->]]; done).
    change (Z.of_nat 8) with 8. lia.
  - intros ->. destruct Hcan as [H1|Htop]; [left; congruence|].
    apply (canonical_of_value base); try done. rewrite Hlen.
    pose proof (value_low base l Hb Hl Htop). nia.
  - by rewrite Hv.
  - exists r. rewrite Hvr, Hv. by split_and!.
Qed.
End digit.

(** ** Whole texts *)
Definition big_endian (mul acc : Z) (l : list Z) : Z := foldl (fun acc c => mul * acc + c) acc l.

Definition char_value (c : ascii) : Z := nth (Z.to_nat (Z.land (byteZ c) 127)) alphaMap 0.

Lemma char_value_range c : 0 <= char_value c < 256.
Proof.
  unfold char_value.
  assert (Forall (fun v => 0 <= v < 256) alphaMap) as H.
  { apply (bool_decide_unpack _). vm_compute. done. }
  destruct (nth_in_or_default (Z.to_nat (Z.land (byteZ c) 127)) alphaMap 0) as [Hin| ->]; [|lia].
  by apply (proj1 (List.Forall_forall _ _) H).
Qed.

Lemma encode_bytes_spec size data : forall l,
  0 <= size -> digits_in 256 data -> digits_in 58 l -> canonical l -> l <> [] ->
  (value 58 l + 1) * 256 ^ Z.of_nat (length data) <= 58 ^ size ->
  exists r, encode_bytes size data l = Ok r /\ digits_in 58 r /\ canonical r /\ r <> []
    /\ value 58 r = big_endian 256 (value 58 l) data.
Proof.
  induction data as [|c data IH]; intros l Hs Hd Hl Hcan Hne Hfit.
  { exists l. by split_and!. }
  apply list.Forall_cons in Hd as [Hc Hd]. cbn [length] in Hfit.
  rewrite Nat2Z.inj_succ, Z.pow_succ_r in Hfit by lia.
  pose proof (value_range 58 l ltac:(lia) Hl).
  assert (0 < 256 ^ Z.of_nat (length data)) by (apply Z.pow_pos_nonneg; lia).
  destruct (digit_spec 58 256 encode_cells ltac:(by left) ltac:(done) encode_cells_cons size c l)
    as (r & Hr & Hdr & Hcr & Hnr & Hvr); try done; [nia|].
  destruct (IH r) as (r' & Hr' & ? & ? & ? & Hv); try done; [rewrite Hvr; nia|].
  exists r'. split_and!; try done.
  - cbn [encode_bytes]. destruct (encode_cells c l). rewrite Hr. exact Hr'.
  - by rewrite Hv, Hvr.
Qed.

Lemma decode_chars_spec size data : forall l,
  0 <= size -> digits_in 256 l -> canonical l -> l <> [] ->
  (value 256 l + 1) * 256 ^ Z.of_nat (length data) <= 256 ^ size ->
  exists r, decode_chars size data l = Ok r /\ digits_in 256 r /\ canonical r /\ r <> []
    /\ value 256 r = big_endian 58 (value 256 l) (map char_value data).
Proof.
  induction data as [|c data IH]; intros l Hs Hl Hcan Hne Hfit.
  { exists l. by split_and!. }
  cbn [length] in Hfit. rewrite Nat2Z.inj_succ, Z.pow_succ_r in Hfit by lia.
  pose proof (value_range 256 l ltac:(lia) Hl). pose proof (char_value_range c).
  assert (0 < 256 ^ Z.of_nat (length data)) by (apply Z.pow_pos_nonneg; lia).
  destruct (digit_spec 256 58 decode_cells ltac:(by right) ltac:(done) decode_cells_cons size (char_value c) l)
    as (r & Hr & Hdr & Hcr & Hnr & Hvr); try done; [nia|].
  destruct (IH r) as (r' & Hr' & ? & ? & ? & Hv); try done; [rewrite Hvr; nia|].
  exists r'. split_and!; try done.
  - cbn [decode_chars]. unfold char_value in Hr. destruct (decode_cells _ l). rewrite Hr. exact Hr'.
  - by rewrite Hv, Hvr.
Qed.

Lemma big_endian_value mul l : big_endian mul 0 l = value mul (rev l).
Proof.
  unfold big_endian. induction l as [|c l IH] using rev_ind; [done|].
  rewrite foldl_app, rev_app_distr. cbn. rewrite IH. lia.
Qed.

(** The cells allocated for [n] bytes hold every number of [n] bytes. *)
Lemma work_size_enough n : 256 ^ Z.of_nat n <= 58 ^ work_size n.
Proof.
  unfold work_size. set (m := Z.of_nat n). assert (0 <= m) by lia.
  assert (0 <= m * 138 / 100) by (apply Z.div_pos; lia).
  apply (Z.pow_le_mono_l_iff _ _ 100); [apply Z.pow_nonneg; lia|apply Z.pow_nonneg; lia|lia|].
  rewrite <- !Z.pow_mul_r by lia.
  transitivity (58 ^ (138 * m)).
  - rewrite (Z.mul_comm m), (Z.pow_mul_r _ 100), (Z.pow_mul_r _ 138) by lia.
    apply Z.pow_le_mono_l. split; [lia|]. apply Z.leb_le. vm_compute. done.
  - apply Z.pow_le_mono_r; lia.
Qed.

Lemma work_size_bytes n : 256 ^ Z.of_nat n <= 256 ^ work_size n.
Proof. unfold work_size. apply Z.pow_le_mono_r; lia. Qed.

(** ** Leading zeros *)
Lemma leading_split data :
  data <> [] -> exists rest,
    data = repeat 0 (leading (Z.eqb 0) data) ++ rest /\ rest <> [] /\ canonical (rev rest).
Proof.
  induction data as [|x data IH]; [done|]. intros _.
  destruct data as [|y data].
  - exists [x]. split_and!; try done. by left.
  - change (leading (Z.eqb 0) (x :: y :: data))
      with (if 0 =? x then S (leading (Z.eqb 0) (y :: data)) else O).
    destruct (Z.eqb_spec 0 x) as [<-|Hx].
    + destruct (IH ltac:(done)) as (rest & E & ? & ?). exists rest. split_and!; try done.
      cbn [repeat]. rewrite <- app_comm_cons. by rewrite <- E.
    + exists (x :: y :: data). split_and!; try done. right. exists x.
      change (rev (x :: y :: data)) with (rev (y :: data) ++ [x]). rewrite last_snoc. by split.
Qed.

Lemma leading_repeat {A} (zero : A -> bool) x n l :
  zero x = true -> l <> [] -> length l = 1%nat \/ (exists y k, l = y :: k /\ zero y = false) ->
  leading zero (repeat x n ++ l) = n.
Proof.
  intros Hx Hl Hk. induction n as [|n IH].
  - simpl. destruct Hk as [H1|(y & k & -> & Hy)].
    + destruct l as [|y [|]]; done.
    + simpl. rewrite Hy. by destruct k.
  - cbn [repeat]. rewrite <- app_comm_cons.
    destruct (repeat x n ++ l) as [|z k] eqn:E; [by apply app_eq_nil in E as [_ ->]|].
    change (leading zero (x :: z :: k)) with (if zero x then S (leading zero (z :: k)) else O).
    by rewrite Hx, IH.
Qed.

Lemma value_zeros base l n : value base (l ++ repeat 0 n) = value base l.
Proof.
  rewrite value_app. assert (value base (repeat 0 n) = 0) as ->; [|lia].
  induction n as [|n IH]; [done|]. cbn [repeat value]. rewrite IH. lia.
Qed.

Lemma char_value_base58 d : 0 <= d < 58 -> char_value (base58_char d) = d.
Proof.
  intros Hd. assert (forallb (fun d => char_value (base58_char d) =? d) (seqZ 0 58) = true) as H
    by (vm_compute; done).
  apply Z.eqb_eq. rewrite forallb_forall in H. apply H.
  apply list_elem_of_In, elem_of_seqZ. lia.
Qed.

Lemma base58_char_zero d : 0 <= d < 58 -> base58_char d = base58_char 0 -> d = 0.
Proof. intros Hd E. rewrite <- (char_value_base58 d), E by done. done. Qed.

Lemma canonical_head l (zero : Z -> bool) :
  (forall d, d <> 0 -> zero d = false) -> canonical l ->
  length (rev l) = 1%nat \/ exists y k, rev l = y :: k /\ zero y = false.
Proof.
  intros Hz [H1|(d & Hd & Hnz)]; [left; by rewrite length_rev|right].
  destruct l as [|x l _] using rev_ind; [done|]. rewrite last_snoc in Hd. injection Hd as ->.
  exists d, (rev l). rewrite rev_app_distr. split; [done|by apply Hz].
Qed.

(** The text and the digits behind it. *)
Lemma encode_spec data :
  data <> [] -> Forall (fun b => 0 <= b < 256) data ->
  exists D, encode data = Ok (str (repeat (base58_char 0) (leading (Z.eqb 0) data) ++ map base58_char (rev D)))
    /\ digits_in 58 D /\ canonical D /\ D <> [] /\ value 58 D = value 256 (rev data).
Proof.
  intros Hne Hd. unfold encode.
  destruct (encode_bytes_spec (work_size (length data)) data [0]) as (D & HD & HDd & HDc & HDn & HDv);
    try done; [unfold work_size; lia|by apply list.Forall_cons|by left| |].
  { change (value 58 [0]) with 0. pose proof (work_size_enough (length data)). lia. }
  rewrite HD. cbn [mbind outcome_bind].
  destruct data as [|b0 data0] eqn:Ed; [done|]. rewrite <- Ed in *. clear Ed b0 data0.
  exists D. split_and!; try done. change (value 58 [0]) with 0 in HDv. by rewrite HDv, big_endian_value.
Qed.

Lemma encode_decode data :
  data <> [] -> Forall (fun b => 0 <= b < 256) data ->
  exists s, encode data = Ok s /\ decode s = Ok data
    /\ Forall (fun c => c ∈ base58Map) (chars s)
    /\ leading (fun c => bool_decide (c = "1"%char)) (chars s) = leading (Z.eqb 0) data.
Proof.
  intros Hne Hd. destruct (encode_spec data Hne Hd) as (D & HD & HDd & HDc & HDn & HDv).
  set (z := leading (Z.eqb 0) data) in *.
  eexists. split; [exact HD|].
  assert (digits_in 58 (rev D)) as HrD by (by apply List.Forall_rev).
  assert (leading (fun c => bool_decide (c = base58_char 0))
            (repeat (base58_char 0) z ++ map base58_char (rev D)) = z) as Hz.
  { apply leading_repeat; [by apply bool_decide_eq_true_2| |].
    - intros E. apply map_eq_nil in E. apply HDn. rewrite <- (rev_involutive D), E. done.
    - rewrite length_map. destruct (canonical_head D (Z.eqb 0)) as [|(y & k & E & Hy)]; [|done|by left|].
      { intros d Hd0. apply Z.eqb_neq. lia. }
      right. exists (base58_char y), (map base58_char k). rewrite E. split; [done|].
      apply bool_decide_eq_false_2. intros Ec. rewrite E in HrD.
      apply list.Forall_cons in HrD as [Hr _]. apply base58_char_zero in Ec; [|done]. by rewrite Ec in Hy. }
  rewrite chars_str. split_and!.
  - unfold decode. rewrite chars_str, Hz. set (text := repeat _ _ ++ _).
    destruct (decode_chars_spec (work_size (length text)) text [0]) as (R & HR & HRd & HRc & HRn & HRv);
      try done; [unfold work_size; lia|by apply list.Forall_cons|by left| |].
    { change (value 256 [0]) with 0. pose proof (work_size_bytes (length text)). lia. }
    rewrite HR. cbn [mbind outcome_bind]. do 2 f_equal.
    assert (map char_value text = repeat 0 z ++ rev D) as Ht.
    { unfold text. rewrite map_app, map_repeat, map_map. f_equal.
      rewrite <- (map_id (rev D)) at 2. apply List.map_ext_Forall.
      eapply Forall_impl; [exact HrD|]. apply char_value_base58. }
    rewrite Ht, big_endian_value, rev_app_distr, rev_involutive, rev_repeat, value_zeros in HRv.
    rewrite HDv in HRv.
    destruct (leading_split data Hne) as (rest & Erest & Hrne & Hrc). fold z in Erest.
    assert (R = rev rest) as ->.
    { apply (value_inj 256); try done.
      - apply List.Forall_rev. rewrite Erest in Hd. by apply Forall_app in Hd as [_ ?].
      - by rewrite HRv, Erest, rev_app_distr, rev_repeat, value_zeros. }
    rewrite rev_app_distr, rev_involutive, rev_repeat. by symmetry.
  - apply Forall_app. split.
    + apply list.Forall_forall. intros c Hc. apply list_elem_of_In, repeat_spec in Hc as ->.
      apply list_elem_of_In. by left.
    + apply List.Forall_map. eapply Forall_impl; [exact HrD|]. intros d Hr. simpl.
      apply list_elem_of_In. unfold base58_char. apply nth_In.
      cbv beta in Hr. change (length base58Map) with 58%nat. lia.
  - exact Hz.
Qed.

(** Base 58 round trip: every non-empty byte string has an encoding, which
    never leaves the work vector, consists of base-58 characters, keeps the
    number of leading zero bytes as leading '1's and decodes to the byte
    string. *)
Theorem base58_roundtrip data :
  data <> [] -> Forall (fun b => 0 <= b < 256) data ->
  exists s, encode data = Ok s /\ decode s = Ok data
    /\ Forall (fun c => c ∈ base58Map) (chars s)
    /\ leading (fun c => bool_decide (c = "1"%char)) (chars s) = leading (Z.eqb 0) data.
Proof. apply encode_decode. Qed.

Lemma base58_roundtrip_witness :
  exists s, encode [0; 0; 1; 200] = Ok s /\ decode s = Ok [0; 0; 1; 200].
Proof.
  destruct (base58_roundtrip [0; 0; 1; 200]) as (s & ? & ? & _); [done| |by exists s].
  repeat (apply list.Forall_cons; split; [simpl; lia|]). by apply list.Forall_nil.
Defined.
