(* ===== verification/Blob.v ===== *)
(** Blob: hex text and raw bytes (src/src/Blob.cpp). A Blob owns its buffer and
    copies it on construction and assignment, so it is modelled by its bytes. *)

From S2P Require Import Prelude.
From S2P Require Import BitIOCodec.
From S2P Require Import BitIOText.

Ltac Zify.zify_post_hook ::= Z.div_mod_to_equations.

Definition Blob : Type := list Z.

Definition char2int (input : ascii) : outcome Z :=
  let c := byteZ input in
  if (48 <=? c) && (c <=? 57) then Ok (c - 48)
  else if (65 <=? c) && (c <=? 70) then Ok (c - 65 + 10)
  else if (97 <=? c) && (c <=? 102) then Ok (c - 97 + 10)
  else Throw (invalid_argument "Invalid input string").

Fixpoint hex_pairs (hex : list ascii) : outcome Blob :=
  match hex with
  | h :: l :: hex =>
      high ← char2int h;
      low ← char2int l;
      rest ← hex_pairs hex;
      Ok (u8 (high * 16 + low) :: rest)
  | _ => Ok []
  end.

Definition Blob_of_hex (hex : string) : outcome Blob :=
  if negb (Z.of_nat (length (chars hex)) mod 2 =? 0) then Throw (invalid_argument "Invalid input string")
  else hex_pairs (chars hex).

Definition hexmap : list ascii := chars "0123456789abcdef".
Definition hex_digit (v : Z) : ascii := nth (Z.to_nat v) hexmap "0"%char.

Definition toHex (b : Blob) : string :=
  str (concat (map (fun v => [hex_digit (Z.shiftr (Z.land v 0xF0) 4); hex_digit (Z.land v 0x0F)]) b)).

Definition Blob_eqb (a b : Blob) : bool :=
  if negb (Z.of_nat (length b) =? Z.of_nat (length a)) then false else bool_decide (a = b).

(** ** Hex round trip *)
Definition is_hex (c : ascii) : Prop := is_ok (char2int c) = true.

Lemma byte_digits v :
  0 <= v < 256 ->
  char2int (hex_digit (Z.shiftr (Z.land v 0xF0) 4)) = Ok (v / 16)
  /\ char2int (hex_digit (Z.land v 0x0F)) = Ok (v mod 16).
Proof.
  intros Hv.
  assert (forallb (fun v =>
    bool_decide (Z.shiftr (Z.land v 0xF0) 4 = v / 16 /\ Z.land v 0x0F = v mod 16)) (seqZ 0 256) = true) as H
    by (vm_compute; done).
  rewrite forallb_forall in H. specialize (H v).
  rewrite <- list_elem_of_In, elem_of_seqZ in H. specialize (H ltac:(lia)).
  apply bool_decide_eq_true in H as [-> ->].
  assert (forallb (fun d => match char2int (hex_digit d) with Ok e => d =? e | _ => false end) (seqZ 0 16) = true) as Hd
    by (vm_compute; done).
  rewrite forallb_forall in Hd.
  assert (forall d, 0 <= d < 16 -> char2int (hex_digit d) = Ok d) as Hdig.
  { intros d Hr. specialize (Hd d). rewrite <- list_elem_of_In, elem_of_seqZ in Hd. specialize (Hd ltac:(lia)).
    destruct (char2int (hex_digit d)); try done. by apply Z.eqb_eq in Hd as ->. }
  split; apply Hdig; lia.
Qed.

Lemma char2int_hex c : is_hex c -> exists d, char2int c = Ok d /\ 0 <= d < 16 /\ hex_digit d = tolower c.
Proof.
  intros Hc. unfold is_hex in Hc.
  assert (forallb (fun v => match char2int (charZ v) with
                            | Ok d => bool_decide (0 <= d < 16 /\ hex_digit d = tolower (charZ v)) | _ => true end)
            (seqZ 0 256) = true) as H by (vm_compute; done).
  rewrite forallb_forall in H. specialize (H (byteZ c)).
  rewrite <- list_elem_of_In, elem_of_seqZ in H. pose proof (byteZ_range c). specialize (H ltac:(lia)).
  rewrite charZ_byteZ in H. destruct (char2int c) as [d| | |]; try done.
  apply bool_decide_eq_true in H as [? ?]. by exists d.
Qed.

Lemma hex_pairs_toHex b :
  Forall (fun v => 0 <= v < 256) b ->
  hex_pairs (concat (map (fun v => [hex_digit (Z.shiftr (Z.land v 0xF0) 4); hex_digit (Z.land v 0x0F)]) b)) = Ok b.
Proof.
  induction 1 as [|v b Hv _ IH]; [done|].
  cbn [map concat app hex_pairs]. destruct (byte_digits v Hv) as [-> ->].
  cbn [mbind outcome_bind]. rewrite IH. cbn [mbind outcome_bind]. do 2 f_equal. unfold u8.
  rewrite Z.mod_small by lia. lia.
Qed.

Lemma toHex_hex_pairs (n : nat) : forall l b,
  length l = (2 * n)%nat -> Forall is_hex l -> hex_pairs l = Ok b ->
  concat (map (fun v => [hex_digit (Z.shiftr (Z.land v 0xF0) 4); hex_digit (Z.land v 0x0F)]) b) = map tolower l
  /\ Forall (fun v => 0 <= v < 256) b /\ length b = n.
Proof.
  induction n as [|n IH]; intros l b Hl Hh Hb.
  - destruct l; [|done]. injection Hb as <-. split_and!; try done.
  - destruct l as [|h [|o l]]; simpl in Hl; try lia.
    apply list.Forall_cons in Hh as [Hh1 Hh]. apply list.Forall_cons in Hh as [Hh2 Hh].
    destruct (char2int_hex h Hh1) as (x & Ex & Hx & Dx), (char2int_hex o Hh2) as (y & Ey & Hy & Dy).
    cbn [hex_pairs] in Hb. rewrite Ex, Ey in Hb. cbn [mbind outcome_bind] in Hb.
    destruct (hex_pairs l) as [r| | |] eqn:Er; try done. injection Hb as <-.
    destruct (IH l r ltac:(lia) Hh Er) as (E & Hr & Hlen).
    assert (u8 (x * 16 + y) = x * 16 + y) as Eu by (unfold u8; apply Z.mod_small; lia). rewrite Eu.
    split_and!; [|by apply list.Forall_cons; split; [lia|]|simpl; lia].
    cbn [map concat app]. rewrite E, <- Dx, <- Dy.
    destruct (byte_digits (x * 16 + y)) as [H1 H2]; [lia|].
    assert (hex_digit (Z.shiftr (Z.land (x * 16 + y) 0xF0) 4) = hex_digit x) as ->.
    { f_equal. rewrite (Z.shiftr_land (x * 16 + y)). change (Z.shiftr 0xF0 4) with (Z.ones 4).
      rewrite Z.land_ones, Z.shiftr_div_pow2 by lia. lia. }
    assert (hex_digit (Z.land (x * 16 + y) 0x0F) = hex_digit y) as ->.
    { f_equal. change 0x0F with (Z.ones 4). rewrite Z.land_ones by lia. lia. }
    done.
Qed.

(** hex round trip: the bytes of a Blob are read back from its hex text, the
    hex text of a Blob made from hex is that text in lower case, an odd number
    of characters is refused. *)
Theorem blob_hex_roundtrip b hex :
  Forall (fun v => 0 <= v < 256) b -> Forall is_hex (chars hex) ->
  Blob_of_hex (toHex b) = Ok b
  /\ (Nat.Even (length (chars hex)) ->
        exists b', Blob_of_hex hex = Ok b' /\ toHex b' = str (map tolower (chars hex))
                   /\ length (chars hex) = (2 * length b')%nat)
  /\ (Nat.Odd (length (chars hex)) -> Blob_of_hex hex = Throw (invalid_argument "Invalid input string")).
Proof.
  intros Hb Hh. split_and!.
  - unfold Blob_of_hex, toHex. rewrite chars_str, (hex_pairs_toHex b Hb).
    assert (length (concat (map (fun v => [hex_digit (Z.shiftr (Z.land v 0xF0) 4); hex_digit (Z.land v 0x0F)]) b))
            = 2 * length b)%nat as -> by (clear; induction b; simpl; lia).
    replace (Z.of_nat (2 * length b) mod 2) with 0 by lia. done.
  - intros [n Hn]. unfold Blob_of_hex.
    replace (Z.of_nat (length (chars hex)) mod 2) with 0 by lia. simpl.
    assert (exists b', hex_pairs (chars hex) = Ok b') as [b' Hb'].
    { revert Hh Hn. generalize (chars hex). clear. induction n as [|n IH]; intros l Hh Hn.
      - destruct l; [by eexists|done].
      - destruct l as [|h [|o l]]; simpl in Hn; try lia.
        apply list.Forall_cons in Hh as [Hh1 Hh]. apply list.Forall_cons in Hh as [Hh2 Hh].
        destruct (char2int_hex h Hh1) as (x & Ex & _), (char2int_hex o Hh2) as (y & Ey & _).
        destruct (IH l Hh ltac:(lia)) as [r Er]. cbn [hex_pairs]. rewrite Ex, Ey. cbn. rewrite Er. by eexists. }
    destruct (toHex_hex_pairs n _ b' Hn Hh Hb') as (E & _ & Hl).
    exists b'. unfold toHex. rewrite E, Hn, Hl. done.
  - intros [n Hn]. unfold Blob_of_hex. replace (Z.of_nat (length (chars hex)) mod 2) with 1 by lia. done.
Qed.

Lemma blob_hex_roundtrip_witness : Blob_of_hex (toHex [0; 171; 255]) = Ok [0; 171; 255].
Proof.
  apply (blob_hex_roundtrip [0; 171; 255] ""); [|by apply list.Forall_nil].
  repeat (apply list.Forall_cons; split; [simpl; lia|]). by apply list.Forall_nil.
Defined.
