(* ===== verification/UniqueTaskQueue.v ===== *)
(** UniqueTaskQueue: the de-duplicating work queue (src/src/UniqueTaskQueue.cpp).

    Every method runs under one mutex, so an execution is a sequence of
    operations in lock order.  [dequeue] waits while the queue is empty: a
    step for it exists only when there is a task. *)

From S2P Require Import Prelude.

Record UniqueTaskQueue := mk_queue { _queue : list string; _set : gset string }.

Definition empty_queue : UniqueTaskQueue := mk_queue [] ∅.

Definition enqueue (task : string) (q : UniqueTaskQueue) : bool * UniqueTaskQueue :=
  if bool_decide (task ∈ _set q) then (false, q)
  else (true, mk_queue (_queue q ++ [task]) ({[task]} ∪ _set q)).

Definition dequeue (q : UniqueTaskQueue) : option (string * UniqueTaskQueue) :=
  match _queue q with
  | [] => None
  | task :: rest => Some (task, mk_queue rest (_set q ∖ {[task]}))
  end.

Definition isEmpty (q : UniqueTaskQueue) : bool := match _queue q with [] => true | _ => false end.
Definition queue_length (q : UniqueTaskQueue) : Z := Z.of_nat (length (_queue q)) mod two32.

(** What producers and consumers do, in lock order. *)
Inductive queue_event :=
  | enqueued (task : string) (new : bool)
  | dequeued (task : string).

Inductive queue_step : UniqueTaskQueue -> queue_event -> UniqueTaskQueue -> Prop :=
  | step_enqueue task new q q' : enqueue task q = (new, q') -> queue_step q (enqueued task new) q'
  | step_dequeue task q q' : dequeue q = Some (task, q') -> queue_step q (dequeued task) q'.

Inductive queue_run : UniqueTaskQueue -> list queue_event -> UniqueTaskQueue -> Prop :=
  | run_nil q : queue_run q [] q
  | run_cons q e q1 es q2 : queue_step q e q1 -> queue_run q1 es q2 -> queue_run q (e :: es) q2.

Definition queue_ok (q : UniqueTaskQueue) : Prop :=
  NoDup (_queue q) /\ forall t, t ∈ _set q <-> t ∈ _queue q.

(** Tasks accepted and handed out, in order. *)
Definition accepted (es : list queue_event) : list string :=
  omap (fun e => match e with enqueued t true => Some t | _ => None end) es.
Definition handed_out (es : list queue_event) : list string :=
  omap (fun e => match e with dequeued t => Some t | _ => None end) es.

Lemma queue_step_ok q e q' :
  queue_ok q -> queue_step q e q' ->
  queue_ok q' /\ _queue q ++ accepted [e] = handed_out [e] ++ _queue q'
  /\ (forall t, e = enqueued t false -> t ∈ _queue q).
Proof.
  intros Hok Hstep. revert Hok. destruct Hstep as [task new q0 q1 H|task q0 q1 H]; intros [Hnd Hset].
  - unfold enqueue in H. case_bool_decide as Hin; injection H as <- <-.
    + split_and!; try done; [exact (app_nil_r _)|]. intros t [= ->]. by apply Hset.
    + split; [split|split; done].
      * simpl. apply NoDup_app. split_and!; [done| |apply NoDup_singleton].
        intros x Hx Hx'. apply list_elem_of_singleton in Hx' as ->. by apply Hin, Hset.
      * intros t. simpl. rewrite elem_of_app, list_elem_of_singleton. specialize (Hset t). set_solver.
  - unfold dequeue in H. destruct (_queue q0) as [|t rest] eqn:E; [done|]. injection H as <- <-.
    apply NoDup_cons in Hnd as [Hni Hnd]. split; [split; [done|]|split; [|done]].
    + intros x. simpl. rewrite elem_of_difference, Hset, elem_of_cons, elem_of_singleton.
      split; [by intros [[?|?] ?]|]. intros Hx. split; [by right|]. by intros ->.
    + by rewrite (app_nil_r (t :: rest) : (t :: rest) ++ accepted [dequeued t] = _).
Qed.

Lemma queue_run_ok q es q' :
  queue_ok q -> queue_run q es q' ->
  queue_ok q' /\ _queue q ++ accepted es = handed_out es ++ _queue q'.
Proof.
  intros Hok Hrun. induction Hrun as [q|q e q1 es q2 Hstep _ IH]; [by rewrite app_nil_r|].
  destruct (queue_step_ok _ _ _ Hok Hstep) as (Hok1 & E & _). destruct (IH Hok1) as [Hok2 E2].
  split; [done|].
  change (accepted (e :: es)) with (omap (fun e => match e with enqueued t true => Some t | _ => None end) ([e] ++ es)).
  change (handed_out (e :: es)) with (omap (fun e => match e with dequeued t => Some t | _ => None end) ([e] ++ es)).
  rewrite !omap_app.
  change (omap _ [e]) with (accepted [e]) at 1.
  change (omap (fun e => match e with dequeued t => Some t | _ => None end) [e]) with (handed_out [e]).
  rewrite app_assoc, E, <- !app_assoc. f_equal. exact E2.
Qed.

(** The queue is a duplicate-free FIFO: in every interleaving of producers
    and consumers from the empty queue, the tasks handed out followed by the
    tasks waiting are exactly the accepted tasks in the order they were
    accepted, no task waits twice, an enqueue is refused exactly for a task
    that waits, and [dequeue] blocks exactly when nothing waits. *)
Theorem unique_queue_fifo es q :
  queue_run empty_queue es q ->
  accepted es = handed_out es ++ _queue q /\ NoDup (_queue q)
  /\ (forall task, fst (enqueue task q) = negb (bool_decide (task ∈ _queue q)))
  /\ (dequeue q = None <-> isEmpty q = true).
Proof.
  intros Hrun.
  assert (queue_ok empty_queue) as Hok.
  { split; [apply NoDup_nil; exact I|]. intros t. simpl. set_solver. }
  destruct (queue_run_ok _ _ _ Hok Hrun) as [[Hnd Hset] E]. split_and!; [done|done| |].
  - intros task. unfold enqueue. rewrite (bool_decide_ext _ _ (Hset task)). by case_bool_decide.
  - unfold dequeue, isEmpty. by destruct (_queue q).
Qed.

Lemma unique_queue_fifo_witness :
  NoDup (_queue (mk_queue ["b"%string] ({[ "b"%string ]} ∪ {[ "a"%string ]} ∖ {[ "a"%string ]}))).
Proof.
  apply (unique_queue_fifo [enqueued "a" true; enqueued "a" false; dequeued "a"; enqueued "b" true]
           (mk_queue ["b"%string] ({[ "b"%string ]} ∪ ({[ "a"%string ]} ∪ ∅) ∖ {[ "a"%string ]}))).
  repeat (eapply run_cons; [first [by apply step_enqueue | by apply step_dequeue]|]). apply run_nil.
Defined.
