(* ===== verification/CString.v ===== *)
(** CString: what the program uses of the C++ standard library on strings and
    numbers: searching and cutting a [std::string], reading numbers from text
    ([stoi], [stoll], [stoul], [stod]), printing them, arithmetic on doubles,
    [std::map] keys in order and [std::sort].

    A position is a [nat]; [npos] is [None].  A cut [sub pos n] is only used
    with a position inside the string, so it has no error case.  Doubles are
    IEEE 754 binary64 with rounding to nearest even. *)

From Stdlib Require Import Floats.SpecFloat.
From Stdlib Require Import Permutation Sorted.
From stdpp Require Import pretty.
From S2P Require Import Prelude.
From S2P Require Import BitIOCodec.

Ltac Zify.zify_post_hook ::= Z.div_mod_to_equations.

(** ** Searching *)
Fixpoint is_prefix (p l : list ascii) : bool :=
  match p, l with
  | [], _ => true
  | c :: p, d :: l => Ascii.eqb c d && is_prefix p l
  | _, [] => false
  end.
Fixpoint find_sub (needle l : list ascii) : option nat :=
  if is_prefix needle l then Some O
  else match l with [] => None | _ :: l => S <$> find_sub needle l end.
(** [l.find(needle, pos)] *)
Definition find_from (needle l : list ascii) (pos : nat) : option nat :=
  if (length l <? pos)%nat then None else Nat.add pos <$> find_sub needle (drop pos l).
Definition contains (needle l : list ascii) : bool := if find_sub needle l then true else false.
(** [l.rfind(needle)] *)
Fixpoint rfind_sub (needle l : list ascii) : option nat :=
  match l with
  | [] => if is_prefix needle [] then Some O else None
  | _ :: l' => match rfind_sub needle l' with
               | Some i => Some (S i)
               | None => if is_prefix needle l then Some O else None
               end
  end.
(** [l.substr(pos, n)] and [l.substr(pos)] *)
Definition sub (pos n : nat) (l : list ascii) : list ascii := take n (drop pos l).

Fixpoint find_first_not (set l : list ascii) : option nat :=
  match l with
  | [] => None
  | c :: l => if bool_decide (c ∈ set) then S <$> find_first_not set l else Some O
  end.
(** [l.find_first_not_of(set, pos)] *)
Definition find_first_not_of (set l : list ascii) (pos : nat) : option nat :=
  Nat.add pos <$> find_first_not set (drop pos l).
(** What is left between [find_first_not_of(set)] and [find_last_not_of(set)]. *)
Fixpoint trim_left (set l : list ascii) : list ascii :=
  match l with
  | [] => []
  | c :: l' => if bool_decide (c ∈ set) then trim_left set l' else l
  end.
Definition trim (set l : list ascii) : list ascii := rev (trim_left set (rev (trim_left set l))).

Definition starts (p s : string) : bool := is_prefix (chars p) (chars s).
(** [l.find(c)]: what is before it, and what is behind it *)
Fixpoint split_at (c : ascii) (l : list ascii) : list ascii * option (list ascii) :=
  match l with
  | [] => ([], None)
  | d :: l => if Ascii.eqb c d then ([], Some l) else let '(a, r) := split_at c l in (d :: a, r)
  end.

(** [to_string] of a signed number *)
Definition int_string (z : Z) : string := pretty z.

Definition ch (v : Z) : ascii := charZ v.
Definition blank : list ascii := [ch 32; ch 9].
Definition white : list ascii := [ch 32; ch 9; ch 13; ch 10].
Definition quote : ascii := ch 34.

Definition is_space (c : ascii) : bool := let z := byteZ c in (z =? 32) || ((9 <=? z) && (z <=? 13)).
Definition is_digit (c : ascii) : bool := let z := byteZ c in (48 <=? z) && (z <=? 57).
Definition is_lower (c : ascii) : bool := let z := byteZ c in (97 <=? z) && (z <=? 122).
Definition is_upper (c : ascii) : bool := let z := byteZ c in (65 <=? z) && (z <=? 90).
Definition is_alnum (c : ascii) : bool := is_digit c || is_lower c || is_upper c.

(** ** Reading integers *)
Fixpoint leading_digits (l : list ascii) : list Z :=
  match l with
  | c :: l => if is_digit c then (byteZ c - 48) :: leading_digits l else []
  | [] => []
  end.
Fixpoint skip_spaces (l : list ascii) : list ascii :=
  match l with c :: l' => if is_space c then skip_spaces l' else l | [] => [] end.
Definition read_sign (l : list ascii) : bool * list ascii :=
  match l with
  | c :: l' => if byteZ c =? 45 then (true, l') else if byteZ c =? 43 then (false, l') else (false, l)
  | [] => (false, [])
  end.
Definition decimal (digits : list Z) : Z := foldl (fun n d => n * 10 + d) 0 digits.

(** [std::stoul] for a compiler whose largest [unsigned long] is [ulong_max]. *)
Definition stoul (ulong_max : Z) (s : string) : outcome Z :=
  let '(negative, l) := read_sign (skip_spaces (chars s)) in
  match leading_digits l with
  | [] => Throw (invalid_argument "stoul")
  | digits =>
      let n := decimal digits in
      if ulong_max <? n then Throw (out_of_range "stoul")
      else Ok (if negative : bool then (- n) mod (ulong_max + 1) else n)
  end.
Definition sto_signed (what : string) (bound : Z) (s : string) : outcome Z :=
  let '(negative, l) := read_sign (skip_spaces (chars s)) in
  match leading_digits l with
  | [] => Throw (invalid_argument what)
  | digits =>
      let n := if negative : bool then - decimal digits else decimal digits in
      if (- bound <=? n) && (n <? bound) then Ok n else Throw (out_of_range what)
  end.
Definition stoi : string -> outcome Z := sto_signed "stoi" 2147483648.
Definition stoll : string -> outcome Z := sto_signed "stoll" 9223372036854775808.

(** ** Doubles *)
Notation dadd := (SFadd 53 1024).
Notation dsub := (SFsub 53 1024).
Notation dmul := (SFmul 53 1024).
Notation ddiv := (SFdiv 53 1024).
Definition dlt (a b : spec_float) : bool := SFltb a b.
Definition dle (a b : spec_float) : bool := SFleb a b.
Definition deq (a b : spec_float) : bool := SFeqb a b.
(** The conversion of an integer, and a decimal literal [n / 10^k]. *)
Definition dbl (n : Z) : spec_float := binary_normalize 53 1024 n 0 false.
Definition dlit (n : Z) (d : Z) : spec_float := ddiv (dbl n) (dbl d).
(** The conversion to [int64_t] drops the fraction and is undefined outside the range. *)
Definition to_int64 (d : spec_float) : outcome Z :=
  let whole := match d with
    | S754_zero _ => Some 0
    | S754_finite s m e =>
        let v := if 0 <=? e then Zpos m * 2 ^ e else Zpos m / 2 ^ (- e) in
        Some (if s then - v else v)
    | _ => None
    end in
  match whole with
  | Some v => if (-9223372036854775808 <=? v) && (v <? 9223372036854775808) then Ok v else UB
  | None => UB
  end.
Definition add_int64 (a b : Z) : outcome Z :=
  let v := a + b in
  if (-9223372036854775808 <=? v) && (v <? 9223372036854775808) then Ok v else UB.

(** [std::stod]: decimal and hexadecimal digits with an exponent, "inf" and
    "nan".  A value beyond the largest double and one that underflows to zero
    are out of range. *)
Definition lower_prefix (p : string) (l : list ascii) : bool := is_prefix (chars p) (map tolower l).
Definition hex_value (c : ascii) : option Z :=
  if is_digit c then Some (byteZ c - 48)
  else let z := byteZ (tolower c) in if (97 <=? z) && (z <=? 102) then Some (z - 87) else None.
Definition dec_value (c : ascii) : option Z := if is_digit c then Some (byteZ c - 48) else None.
Fixpoint digits_of (value : ascii -> option Z) (l : list ascii) : list Z * list ascii :=
  match l with
  | c :: l' => match value c with
               | Some d => let '(ds, rest) := digits_of value l' in (d :: ds, rest)
               | None => ([], l)
               end
  | [] => ([], [])
  end.
Definition mantissa_of (base : Z) (value : ascii -> option Z) (l : list ascii) : option (Z * Z * list ascii) :=
  let '(whole, l) := digits_of value l in
  let '(part, l) := match l with
    | c :: l' => if byteZ c =? 46 then digits_of value l' else ([], l)
    | [] => ([], l) end in
  match whole ++ part with
  | [] => None
  | ds => Some (foldl (fun n d => n * base + d) 0 ds, Z.of_nat (length part), l)
  end.
Definition exponent_of (mark : Z) (l : list ascii) : Z :=
  match l with
  | c :: l' =>
      if byteZ (tolower c) =? mark
      then let '(negative, l') := read_sign l' in
           match leading_digits l' with
           | [] => 0
           | ds => if negative : bool then - decimal ds else decimal ds
           end
      else 0
  | [] => 0
  end.
Definition scaled (negative : bool) (m e10 e2 : Z) : outcome spec_float :=
  match m with
  | Zpos p =>
      let p := if 0 <=? e10 then Z.to_pos (Zpos p * 10 ^ e10) else p in
      let q := if 0 <=? e10 then 1%positive else Z.to_pos (10 ^ (- e10)) in
      match ddiv (S754_finite negative p e2) (S754_finite false q 0) with
      | S754_finite s m e => Ok (S754_finite s m e)
      | _ => Throw (out_of_range "stod")
      end
  | _ => Ok (S754_zero negative)
  end.
Definition stod (s : string) : outcome spec_float :=
  let '(negative, l) := read_sign (skip_spaces (chars s)) in
  let decimal_value :=
    match mantissa_of 10 dec_value l with
    | Some (m, k, rest) => scaled negative m (exponent_of 101 rest - k) 0
    | None => Throw (invalid_argument "stod")
    end in
  if lower_prefix "inf" l then Ok (S754_infinity negative)
  else if lower_prefix "nan" l then Ok S754_nan
  else if lower_prefix "0x" l
  then match mantissa_of 16 hex_value (drop 2 l) with
       | Some (m, k, rest) => scaled negative m 0 (exponent_of 112 rest - 4 * k)
       | None => decimal_value
       end
  else decimal_value.

Example stod_examples :
  stod "0.0001" = Ok (dlit 1 10000) /\ stod " -12.5e1x" = Ok (dbl (-125)) /\ stod "0x1p-1" = Ok (dlit 1 2)
  /\ stod "abc" = Throw (invalid_argument "stod") /\ stod "1e400" = Throw (out_of_range "stod").
Proof. vm_compute. split_and!; reflexivity. Qed.

(** Printing with [k] decimals ("%.8f", [fixed] and [precision]): the exact value
    rounded to nearest, ties to even. *)
Definition round_div (n d : Z) : Z :=
  let r := n mod d in
  if 2 * r <? d then n / d else if d <? 2 * r then n / d + 1 else n / d + (n / d) mod 2.
Definition digits_pad (k : nat) (n : Z) : list ascii :=
  let ds := chars (pretty (Z.to_N n)) in repeat "0"%char (k - length ds) ++ ds.
Definition fixed_digits (k : nat) (n : Z) : string :=
  let ds := digits_pad (S k) n in
  str (take (length ds - k) ds ++ (if (k =? 0)%nat then [] else "."%char :: drop (length ds - k) ds)).
Definition fixed (k : nat) (d : spec_float) : string :=
  match d with
  | S754_zero s => (if s then "-" else "") ++ fixed_digits k 0
  | S754_finite s m e =>
      let n := Zpos m * 10 ^ Z.of_nat k in
      (if s then "-" else "") ++ fixed_digits k (if (0 <=? e)%Z then n * 2 ^ e else round_div n (2 ^ (- e)))
  | S754_infinity s => (if s then "-" else "") ++ "inf"
  | S754_nan => "nan"
  end.

(** ** [std::sort]

    The order of equivalent elements is not specified by the standard; the uses
    below have none, or equal ones, so any sort gives this list
    ([sort_unique]). *)
Section sort.
Context {A : Type} (lt : A -> A -> bool).

Fixpoint insert_sorted (x : A) (l : list A) : list A :=
  match l with
  | [] => [x]
  | y :: l' => if lt y x then y :: insert_sorted x l' else x :: l
  end.
Definition sort (l : list A) : list A := foldr insert_sorted [] l.
End sort.

(** *** Texts *)
Lemma chars_app s s' : chars (s ++ s') = chars s ++ chars s'.
Proof. unfold chars. induction s as [|c s IH]; [done|]. exact (f_equal (cons c) IH). Qed.
(** A printed number is made of digits. *)
Lemma pretty_digits (n : N) : forallb is_digit (chars (pretty n)) = true.
Proof.
  unfold pretty, pretty_N. case_decide; [by vm_compute|].
  assert (forall n s, forallb is_digit (chars s) = true -> forallb is_digit (chars (pretty_N_go n s)) = true) as H'.
  { intros m. induction (N.lt_wf_0 m) as [m _ IH]. intros s Hs.
    destruct (decide (0 < m)%N) as [Hm|Hm]; [|by assert (m = 0%N) as -> by lia; rewrite pretty_N_go_0].
    rewrite pretty_N_go_step by done. apply IH; [apply N.div_lt; lia|].
    cbn. rewrite andb_true_iff. split; [|done]. unfold pretty_N_char. by repeat case_match. }
  by apply H'.
Qed.

Lemma is_prefix_app needle b : is_prefix needle (needle ++ b) = true.
Proof. induction needle as [|c needle IH]; cbn; [done|]. by rewrite Ascii.eqb_refl. Qed.
Lemma is_prefix_spec needle l : is_prefix needle l = true -> exists rest, l = needle ++ rest.
Proof.
  revert l. induction needle as [|c n IH]; intros [|d l]; cbn; try done; eauto.
  intros [->%Ascii.eqb_eq [rest ->]%IH]%andb_true_iff. eauto.
Qed.
Lemma find_sub_spec needle l p : find_sub needle l = Some p -> exists rest, drop p l = needle ++ rest.
Proof.
  revert p. induction l as [|c l IH]; intros p; cbn [find_sub]; case_match eqn:H; try done.
  - intros [= <-]. by apply is_prefix_spec.
  - intros [= <-]. by apply is_prefix_spec.
  - destruct (find_sub needle l) as [q|]; [|done]. intros [= <-]. by apply IH.
Qed.
Lemma find_sub_first needle a b : exists p, find_sub needle (a ++ needle ++ b) = Some p /\ (p <= length a)%nat.
Proof.
  induction a as [|c a (p & E & Hp)]; cbn [app find_sub length].
  - exists O. pose proof (is_prefix_app needle b) as H. destruct (needle ++ b); cbn; by rewrite H.
  - case_match; [exists O; split; [done|lia]|]. rewrite E. exists (S p). split; [done|lia].
Qed.
Lemma contains_middle needle a b : contains needle (a ++ needle ++ b) = true.
Proof. unfold contains. by destruct (find_sub_first needle a b) as (p & -> & _). Qed.

(** A strict total order on the elements that satisfy [P]. *)
Class StrictTotal {A} (P : A -> Prop) (lt : A -> A -> bool) : Prop := {
  lt_irrefl x : P x -> lt x x = false;
  lt_trans x y z : P x -> P y -> P z -> lt x y = true -> lt y z = true -> lt x z = true;
  lt_total x y : P x -> P y -> lt x y = false -> lt y x = false -> x = y }.

Lemma filter_permuted {A} (Q : A -> bool) (l k : list A) :
  Permutation l k -> Permutation (List.filter Q l) (List.filter Q k).
Proof.
  induction 1; cbn; [done| | |by etransitivity].
  - destruct (Q x); by try constructor.
  - destruct (Q x), (Q y); by try constructor.
Qed.

Section sorted.
Context {A : Type} (P : A -> Prop) (lt : A -> A -> bool) {HT : StrictTotal P lt}.
Implicit Types (l k : list A).

(** Ascending, without equal neighbours. *)
Definition ascending l : Prop := StronglySorted (fun x y => lt x y = true) l.

Lemma insert_sorted_permutation x l : Permutation (insert_sorted lt x l) (x :: l).
Proof.
  induction l as [|y l IH]; cbn [insert_sorted]; [done|].
  destruct (lt y x); [|done]. rewrite IH. constructor.
Qed.
Lemma sort_permutation l : Permutation (sort lt l) l.
Proof. induction l as [|x l IH]; [done|]. cbn. by rewrite insert_sorted_permutation, IH. Qed.

Lemma insert_sorted_ascending x l :
  P x -> Forall P l -> x ∉ l -> ascending l -> ascending (insert_sorted lt x l).
Proof.
  intros Hx Hl Hn Hs. induction Hs as [|y l Hs IH Hy]; cbn [insert_sorted]; [by repeat constructor|].
  inversion_clear Hl as [|? ? HPy HPl]. apply not_elem_of_cons in Hn as [Hne Hn].
  destruct (lt y x) eqn:E.
  - constructor; [by apply IH|]. rewrite Forall_forall in *. intros z Hz.
    rewrite insert_sorted_permutation in Hz.
    apply elem_of_cons in Hz as [->|Hz]; [done|by apply Hy].
  - assert (lt x y = true) as Hxy by (destruct (lt x y) eqn:E2; [done|]; by destruct Hne; apply (lt_total x y)).
    constructor; [by constructor|]. constructor; [done|]. rewrite Forall_forall in *.
    intros z Hz. apply (lt_trans x y z); auto.
Qed.
Lemma sort_ascending l : Forall P l -> NoDup l -> ascending (sort lt l).
Proof.
  induction l as [|x l IH]; intros HP Hn; [constructor|].
  inversion_clear HP. apply NoDup_cons in Hn as [? ?].
  change (ascending (insert_sorted lt x (sort lt l))).
  apply insert_sorted_ascending; [done|by rewrite sort_permutation|by rewrite sort_permutation|by apply IH].
Qed.

(** Two ascending lists of the same elements are equal. *)
Lemma ascending_unique l k : Forall P l -> ascending l -> ascending k -> Permutation l k -> l = k.
Proof.
  intros HP Hl. revert k HP. induction Hl as [|x l Hl IH Hx]; intros k HP Hk Hp.
  - by apply Permutation_nil in Hp.
  - destruct Hk as [|y k Hk Hy]; [by symmetry in Hp; apply Permutation_nil in Hp|].
    assert (x = y) as ->.
    { rewrite Forall_forall in Hx, Hy, HP.
      assert (y ∈ x :: l) as [->|Hyl]%elem_of_cons by (rewrite Hp; left); [done|].
      assert (x ∈ y :: k) as [->|Hxk]%elem_of_cons by (rewrite <- Hp; left); [done|].
      assert (lt x x = true) as E by (apply (lt_trans x y x); try (apply HP; set_solver); auto).
      rewrite lt_irrefl in E by (apply HP; left). done. }
    f_equal. apply IH; [by inversion HP|done|by apply Permutation_cons_inv in Hp].
Qed.
Lemma sort_unique l k : Forall P l -> NoDup l -> ascending k -> Permutation l k -> sort lt l = k.
Proof.
  intros HP Hn Hk Hp. apply ascending_unique; [by rewrite sort_permutation|by apply sort_ascending|done|].
  by rewrite sort_permutation.
Qed.
Lemma sort_permuted l k : Forall P l -> NoDup l -> Permutation l k -> sort lt l = sort lt k.
Proof.
  intros HP Hn Hp. apply sort_unique; [done|done| |by rewrite sort_permutation].
  apply sort_ascending; [by rewrite <- Hp|by rewrite <- Hp].
Qed.

Lemma ascending_filter (Q : A -> bool) l : ascending l -> ascending (List.filter Q l).
Proof.
  induction 1 as [|x l Hs IH Hx]; cbn; [constructor|]. destruct (Q x); [|done].
  constructor; [done|]. rewrite Forall_forall in *. intros y Hy.
  apply Hx. by apply list_elem_of_In, List.filter_In in Hy as [?%list_elem_of_In _].
Qed.
Lemma sort_filter (Q : A -> bool) l :
  Forall P l -> NoDup l -> sort lt (List.filter Q l) = List.filter Q (sort lt l).
Proof.
  intros HP Hn. apply sort_unique.
  - rewrite Forall_forall in *. intros y Hy.
    by apply HP; apply list_elem_of_In, List.filter_In in Hy as [?%list_elem_of_In _].
  - apply NoDup_ListNoDup, List.NoDup_filter. by apply NoDup_ListNoDup.
  - by apply ascending_filter, sort_ascending.
  - by apply filter_permuted; rewrite sort_permutation.
Qed.
End sorted.

(** ** The order of strings and of doubles *)
Lemma string_compare_trans (x y z : string) :
  String.compare x y = Lt -> String.compare y z = Lt -> String.compare x z = Lt.
Proof.
  revert y z. induction x as [|a x IH]; intros [|b y] [|c z]; cbn; try done.
  unfold Ascii.compare.
  destruct (N.compare_spec (N_of_ascii a) (N_of_ascii b)) as [E1|E1|E1],
           (N.compare_spec (N_of_ascii b) (N_of_ascii c)) as [E2|E2|E2]; try done; intros H1 H2.
  - rewrite E1, E2, N.compare_refl. by apply (IH y).
  - by rewrite E1, (proj2 (N.compare_lt_iff _ _) E2).
  - by rewrite <- E2, (proj2 (N.compare_lt_iff _ _) E1).
  - by rewrite (proj2 (N.compare_lt_iff _ _) (N.lt_trans _ _ _ E1 E2)).
Qed.
#[export] Instance string_order : StrictTotal (fun _ => True) String.ltb.
Proof.
  split; unfold String.ltb.
  - intros x _. pose proof (String.compare_antisym x x). by destruct (String.compare x x).
  - intros x y z _ _ _.
    destruct (String.compare x y) eqn:E1; try done. destruct (String.compare y z) eqn:E2; try done.
    by rewrite (string_compare_trans x y z).
  - intros x y _ _. rewrite (String.compare_antisym y x).
    destruct (String.compare x y) eqn:E; try done. intros _ _. by apply String.compare_eq_iff.
Qed.

Definition not_nan (d : spec_float) : Prop := d <> S754_nan.
(** Doubles other than NaN are ordered by class, exponent and mantissa. *)
Definition dkey (d : spec_float) : Z * Z * Z :=
  match d with
  | S754_nan => (0, 0, 0)
  | S754_zero _ => (0, 0, 0)
  | S754_infinity false => (2, 0, 0)
  | S754_infinity true => (-2, 0, 0)
  | S754_finite false m e => (1, e, Zpos m)
  | S754_finite true m e => (-1, - e, Zneg m)
  end.
Definition key_lt (a b : Z * Z * Z) : Prop :=
  a.1.1 < b.1.1 \/ a.1.1 = b.1.1 /\ (a.1.2 < b.1.2 \/ a.1.2 = b.1.2 /\ a.2 < b.2).

Lemma dcompare_key a b :
  not_nan a -> not_nan b ->
  match SFcompare a b with
  | Some Lt => key_lt (dkey a) (dkey b)
  | Some Eq => dkey a = dkey b
  | Some Gt => key_lt (dkey b) (dkey a)
  | None => False
  end.
Proof.
  unfold key_lt. intros Ha Hb.
  destruct a as [sa|[]| |[] ma ea], b as [sb|[]| |[] mb eb]; try done; cbn; try lia.
  all: rewrite ?Pos.compare_cont_spec.
  all: destruct (Z.compare_spec ea eb) as [->|?|?]; cbn; try lia.
  all: change (Pos.compare_cont Eq ma mb) with (Pos.compare ma mb);
    destruct (Pos.compare_spec ma mb) as [->|?|?]; cbn; try lia; done.
Qed.

Lemma dlt_key a b : not_nan a -> not_nan b -> dlt a b = true <-> key_lt (dkey a) (dkey b).
Proof.
  intros Ha Hb. pose proof (dcompare_key a b Ha Hb) as H. unfold dlt, SFltb, key_lt in *.
  destruct (SFcompare a b) as [[]|]; split; intros; try done; exfalso; try rewrite H in *; lia.
Qed.
Lemma deq_key a b : not_nan a -> not_nan b -> deq a b = true <-> dkey a = dkey b.
Proof.
  intros Ha Hb. pose proof (dcompare_key a b Ha Hb) as H. unfold deq, SFeqb, key_lt in *.
  destruct (SFcompare a b) as [[]|]; split; intros Hk; try done; exfalso; try rewrite Hk in *; lia.
Qed.

Lemma add_int64_ok a b : -9223372036854775808 <= a + b < 9223372036854775808 -> add_int64 a b = Ok (a + b).
Proof. intros H. unfold add_int64. by rewrite (proj2 (Z.leb_le _ _)), (proj2 (Z.ltb_lt _ _)) by lia. Qed.

Lemma split_at_stop c l r : c ∉ l -> split_at c (l ++ c :: r) = (l, Some r).
Proof.
  induction l as [|d l IH]; cbn; intros H; [by rewrite Ascii.eqb_refl|].
  apply not_elem_of_cons in H as [H1 H2]. rewrite (proj2 (Ascii.eqb_neq _ _) H1), (IH H2). done.
Qed.
