(* ===== verification/Sql.v ===== *)
(** Sql: the SQL statements of the two databases as functions of a table, which is
    the list of its rows in the order of their rowid, and what [bindText] and
    [sqlite3_bind_text] keep of a text. *)

From S2P Require Import Prelude.
From S2P Require Import BitIOCodec.
From S2P Require Import CString.

(** ** SQL on a list of rows *)
Section sql.
Context {R : Type}.
Implicit Types (p : R -> bool) (f : R -> R) (l : list R) (r : R).

(** DELETE FROM t WHERE p *)
Definition delete_where p l : list R := List.filter (fun r => negb (p r)) l.
(** UPDATE t SET f WHERE p *)
Definition update_where p f l : list R := map (fun r => if p r then f r else r) l.
(** SELECT * FROM t WHERE p *)
Definition select_where p l : list R := List.filter p l.
(** INSERT OR IGNORE and INSERT OR REPLACE for a primary key *)
Definition insert_or_ignore (same : R -> R -> bool) r l : list R :=
  if existsb (same r) l then l else l ++ [r].
Definition insert_or_replace (same : R -> R -> bool) r l : list R :=
  delete_where (same r) l ++ [r].
End sql.
Arguments delete_where : simpl never.
Arguments update_where : simpl never.
Arguments select_where : simpl never.
Arguments insert_or_ignore : simpl never.
Arguments insert_or_replace : simpl never.

(** [x>=h] and [x<h] on a column that can be NULL: false for NULL. *)
Definition null_ge (x : option Z) (h : Z) : bool := match x with Some x => h <=? x | None => false end.
Definition null_lt (x : option Z) (h : Z) : bool := match x with Some x => x <? h | None => false end.

Fixpoint cut_at_zero (l : list ascii) : list ascii :=
  match l with [] => [] | c :: l => if byteZ c =? 0 then [] else c :: cut_at_zero l end.
Definition c_str (s : string) : string := str (cut_at_zero (chars s)).

(** ORDER BY with ties in rowid order, LIMIT (negative: none), MAX and SUM *)
Definition order_by {R} (before : R -> R -> bool) (l : list R) : list R := sort before l.
Definition limit {R} (n : Z) (l : list R) : list R := if n <? 0 then l else take (Z.to_nat n) l.
Definition sum_of {R} (f : R -> Z) (l : list R) : Z := foldr (fun r s => f r + s) 0 l.
Definition max_of {R} (f : R -> Z) (none : Z) (l : list R) : Z :=
  match l with [] => none | r :: l => foldl (fun m r => Z.max m (f r)) (f r) l end.
Definition count {R} (l : list R) : Z := Z.of_nat (length l).

Lemma elem_of_update {R} (p : R -> bool) f r' (l : list R) :
  r' ∈ update_where p f l <-> exists r, r ∈ l /\ r' = if p r then f r else r.
Proof.
  unfold update_where. change (map ?g l) with (g <$> l). rewrite list_elem_of_fmap. naive_solver.
Qed.
Lemma elem_of_order_by {R} (before : R -> R -> bool) l x : x ∈ order_by before l <-> x ∈ l.
Proof. unfold order_by. by rewrite (sort_permutation before l). Qed.
Lemma elem_of_limit {R} n (l : list R) x : x ∈ limit n l -> x ∈ l.
Proof. unfold limit. destruct (n <? 0); [done|]. intros H. rewrite <- (take_drop (Z.to_nat n) l). apply elem_of_app. by left. Qed.
Lemma NoDup_limit {R} n (l : list R) : NoDup l -> NoDup (limit n l).
Proof. unfold limit. destruct (n <? 0); [done|]. intros H. rewrite <- (take_drop (Z.to_nat n) l) in H. by apply NoDup_app in H as [? _]. Qed.
