(* ===== verification/Cid.v ===== *)
(** Cid: the IPFS content ids of asset metadata (sha256ToCID and cidToSha256 of
    src/src/IPFS.cpp) and their round trip. *)

From S2P Require Import Prelude.
From S2P Require Import BitIO.
From S2P Require Import BitIOBlocks.
From S2P Require Import BitStream.
From S2P Require Import BitIOCodec.
From S2P Require Import BitIOText.
From S2P Require Import BitIONumbers.
From S2P Require Import OpReturn.

Ltac Zify.zify_post_hook ::= Z.div_mod_to_equations.

Definition cid_alphabet : string := "abcdefghijklmnopqrstuvwxyz234567".

(** The loop that reads 58 groups of five bits. *)
Fixpoint cid_chars (count : nat) : M BitIO (list ascii) :=
  match count with
  | O => mret []
  | S count =>
      v ← getBits 5;
      c ← char_at cid_alphabet v;
      rest ← cid_chars count;
      mret (c :: rest)
  end.

Definition sha256ToCID (hash : BitIO) : outcome string :=
  if negb (_length hash =? 256) then Throw (out_of_range "Invalid Hash Size")
  else
    data ← exec (appendBits 0x01551220 32;;
                 with_value hash appendBits_BitIO;;
                 appendZeros 2;;
                 movePositionToBeginning) empty_BitIO;
    output ← local (cid_chars 58) data;
    Ok (str ("b"%char :: output)).

Definition sha256ToCID_hex (hash : string) : outcome string :=
  data ← makeHexString hash; sha256ToCID data.

Definition invalid_cid {S A} (cid : string) : M S A := throw (class_exception "IPFS::exceptionInvalidCID" cid).

Fixpoint cid_bits (cid : string) (l : list ascii) : M BitIO unit :=
  match l with
  | [] => mret tt
  | c :: l =>
      match find_char c (chars cid_alphabet) with
      | None => invalid_cid cid
      | Some pos => appendBits pos 5;; cid_bits cid l
      end
  end.

Definition cidToSha256 (cid : string) : outcome string :=
  match chars cid with
  | "b"%char :: l =>
      if negb (Z.of_nat (length (chars cid)) =? 59) then fst (invalid_cid cid tt)
      else
        data ← exec (cid_bits cid l;; movePositionToBeginning) empty_BitIO;
        local (header ← getBits 32;
               if negb (header =? 0x01551220) then invalid_cid cid
               else getHexString 64) data
  | _ => fst (invalid_cid cid tt)
  end.

(** ** Bits in groups of five *)
Fixpoint quintets (l : list bool) : list Z :=
  match l with
  | a :: b :: c :: d :: e :: l => bitsZ [a; b; c; d; e] :: quintets l
  | _ => []
  end.

Definition five (vs : list Z) : list bool := concat (map (Zbits 5) vs).

Lemma quintets_spec (n : nat) : forall l,
  length l = (5 * n)%nat ->
  five (quintets l) = l /\ length (quintets l) = n /\ Forall (fun v => 0 <= v < 32) (quintets l).
Proof.
  induction n as [|n IH]; intros l Hl.
  - by destruct l.
  - destruct l as [|a [|b [|c [|d [|e l]]]]]; simpl in Hl; try lia.
    destruct (IH l ltac:(lia)) as (E & Hlen & Hf). cbn [quintets]. unfold five in *.
    pose proof (bitsZ_range [a; b; c; d; e]) as Hr. change (2 ^ Z.of_nat (length [a; b; c; d; e])) with 32 in Hr.
    split_and!; [|simpl; lia|by apply list.Forall_cons].
    cbn [map concat]. rewrite E. exact (f_equal (fun x => x ++ l) (Zbits_bitsZ [a; b; c; d; e])).
Qed.

Definition cid_char (v : Z) : ascii := nth (Z.to_nat v) (chars cid_alphabet) "0"%char.

Lemma cid_char_spec v :
  0 <= v < 32 -> (forall S (s : S), char_at cid_alphabet v s = (Ok (cid_char v), s))
                 /\ find_char (cid_char v) (chars cid_alphabet) = Some v.
Proof.
  intros Hv. split.
  - intros S s. unfold char_at, cid_char.
    assert (Z.to_nat v < length (chars cid_alphabet))%nat as Hl
      by (change (length (chars cid_alphabet)) with 32%nat; lia).
    destruct (lookup_lt_is_Some_2 _ _ Hl) as [c Hc]. rewrite Hc.
    by rewrite (nth_lookup_Some _ _ _ _ Hc).
  - assert (forallb (fun v => bool_decide (find_char (cid_char v) (chars cid_alphabet) = Some v)) (seqZ 0 32) = true) as H
      by (vm_compute; done).
    rewrite forallb_forall in H. specialize (H v). rewrite <- list_elem_of_In, elem_of_seqZ in H.
    by apply bool_decide_eq_true in H; [|lia].
Qed.

Lemma reads_cid_chars vs :
  Forall (fun v => 0 <= v < 32) vs -> reads (cid_chars (length vs)) (five vs) (map cid_char vs).
Proof.
  induction 1 as [|v vs Hv _ IH]; [apply reads_ret|]. cbn [length cid_chars five map concat].
  eapply reads_bind; [apply reads_getBits; lia|].
  eapply reads_bind_nil; [|eapply reads_bind_ret; [exact IH|apply reads_ret]].
  intros b r _ _ _. destruct (cid_char_spec v Hv) as [H _]. by rewrite H, advance_0.
Qed.

Lemma emits_cid_bits cid vs :
  Forall (fun v => 0 <= v < 32) vs -> emits (cid_bits cid (map cid_char vs)) (five vs) tt.
Proof.
  induction 1 as [|v vs Hv _ IH]; [apply emits_ret|]. cbn [cid_bits five map concat].
  destruct (cid_char_spec v Hv) as [_ ->].
  eapply emits_bind; [apply emits_appendBits; lia|exact IH].
Qed.

(** A finished stream rewound to its beginning. *)
Lemma exec_rewind m l :
  (exists b, m empty_BitIO = (Ok tt, b) /\ appended empty_BitIO l b) ->
  exists b, exec (m;; movePositionToBeginning) empty_BitIO = Ok b /\ wf b /\ rest b = l
            /\ _length b = Z.of_nat (length l).
Proof.
  intros (b & Hm & Ha). destruct (appended_fresh _ _ Ha) as (Hw & Hp & _ & Hr & Hl).
  exists b. unfold exec, movePositionToBeginning. step Hm.
  unfold modify. assert (set_position 0 b = b) as -> by (rewrite <- Hp; by destruct b).
  by split_and!.
Qed.

Definition cid_header : list bool := Zbits 32 0x01551220.
Definition cid_payload (h : list bool) : list bool := cid_header ++ h ++ zeros 2.
Definition cid_text (h : list bool) : string := str ("b"%char :: map cid_char (quintets (cid_payload h))).

Lemma cid_payload_quintets h :
  length h = 256%nat ->
  five (quintets (cid_payload h)) = cid_payload h /\ length (quintets (cid_payload h)) = 58%nat
  /\ Forall (fun v => 0 <= v < 32) (quintets (cid_payload h)).
Proof.
  intros Hl. apply quintets_spec. unfold cid_payload, cid_header.
  rewrite !length_app, length_Zbits, length_zeros, Hl. done.
Qed.

Lemma sha256ToCID_run hash h :
  wf hash -> fits hash -> abs hash = h -> length h = 256%nat -> sha256ToCID hash = Ok (cid_text h).
Proof.
  intros Hw Hf Ha Hl. unfold sha256ToCID.
  pose proof (length_abs_Z hash Hw) as Hlen. rewrite Ha, Hl in Hlen.
  rewrite <- Hlen. change (negb (Z.of_nat 256 =? 256)) with false. cbv iota.
  destruct (exec_rewind (appendBits 0x01551220 32;; with_value hash appendBits_BitIO;; appendZeros 2)
              (cid_payload h)) as (b & Hb & Hwb & Hrb & Hlb).
  { destruct (emits_appendBits 0x01551220 32 ltac:(lia) ltac:(lia) empty_BitIO wf_empty) as (b1 & H1 & A1).
    destruct (emits_with_value hash Hw Hf b1) as (b2 & H2 & A2); [apply A1|].
    rewrite Ha in A2. pose proof (appended_trans _ _ _ _ _ A1 A2) as A12.
    destruct (appendZeros_run b2 2) as (b3 & H3 & A3); [apply A2|lia| |].
    { destruct A12 as (_ & _ & _ & ->). rewrite length_app, length_Zbits, Hl. unfold two64. simpl. lia. }
    exists b3. split; [step H1; step H2; exact H3|].
    unfold cid_payload. rewrite app_assoc. by eapply appended_trans. }
  assert (exec (appendBits 0x01551220 32;; with_value hash appendBits_BitIO;; appendZeros 2;;
                movePositionToBeginning) empty_BitIO = Ok b) as ->.
  { rewrite <- Hb. unfold exec, mbind, M_bind.
    destruct (appendBits 22352416 32 empty_BitIO) as [[[]| | |] s1]; [|done..].
    by destruct (with_value hash appendBits_BitIO s1) as [[[]| | |] s2]. }
  destruct (cid_payload_quintets h Hl) as (E & Hn & Hv).
  cbn [mbind outcome_bind]. unfold local.
  pose proof (reads_cid_chars _ Hv) as Hread. rewrite Hn, E in Hread.
  rewrite (Hread b []); [done|done| |by rewrite app_nil_r].
  unfold fits. rewrite Hlb. unfold cid_payload, cid_header.
  rewrite !length_app, length_Zbits, length_zeros, Hl. unfold two64. simpl. lia.
Qed.

Lemma cidToSha256_run hex :
  Forall (fun c => tolower c ∈ chars BITIO_CHARSET_HEX) (chars hex) -> length (chars hex) = 64%nat ->
  length (hex_code hex) = 256%nat ->
  cidToSha256 (cid_text (hex_code hex)) = Ok (str (map tolower (chars hex))).
Proof.
  intros Hh Hl Hl2. destruct (cid_payload_quintets (hex_code hex) Hl2) as (E & Hn & Hv).
  unfold cidToSha256, cid_text. rewrite chars_str. cbn [length].
  rewrite length_map, Hn. change (negb (Z.of_nat 59 =? 59)) with false. cbv iota.
  set (cid := str _). set (vs := quintets _) in *.
  destruct (exec_rewind (cid_bits cid (map cid_char vs)) (cid_payload (hex_code hex)))
    as (b & Hb & Hwb & Hrb & Hlb).
  { destruct (emits_cid_bits cid vs Hv empty_BitIO wf_empty) as (b & H & A).
    exists b. split; [done|]. by rewrite <- E. }
  rewrite Hb. cbn [mbind outcome_bind]. unfold local.
  assert (fits b) as Hfb.
  { unfold fits. rewrite Hlb. unfold cid_payload, cid_header.
    rewrite !length_app, length_Zbits, length_zeros, Hl2. unfold two64. simpl. lia. }
  assert (reads (header ← getBits 32; if negb (header =? 0x01551220) then invalid_cid cid else getHexString 64)
            (cid_header ++ hex_code hex) (str (map tolower (chars hex)))) as Hread.
  { eapply reads_bind; [apply reads_getBits; lia|]. cbn [Z.eqb Pos.eqb negb].
    replace 64 with (Z.of_nat (length (chars hex))) by lia. by apply getHexString_reads. }
  rewrite (Hread b (zeros 2)); [done|done|done|].
  unfold cid_payload in Hrb. by rewrite <- app_assoc.
Qed.

Lemma length_hex_code_nat hex : length (hex_code hex) = (4 * length (chars hex))%nat.
Proof.
  unfold hex_code. rewrite List.map_map. induction (chars hex) as [|c l IH]; [done|].
  cbn [map concat length]. rewrite length_app, length_Zbits, IH. lia.
Qed.

(** content ids: the CID of a SHA-256 hash always exists, has 59 characters
    and decodes to the hash in lower-case hex; a stream that is not 256 bits
    long is refused; and so is a text that is not 59 characters long or does
    not start with 'b'. *)
Theorem cid_roundtrip hash hex cid :
  Forall (fun c => tolower c ∈ chars BITIO_CHARSET_HEX) (chars hash) -> length (chars hash) = 64%nat ->
  (exists c, sha256ToCID_hex hash = Ok c /\ length (chars c) = 59%nat
             /\ cidToSha256 c = Ok (str (map tolower (chars hash))))
  /\ (_length hex <> 256 -> sha256ToCID hex = Throw (out_of_range "Invalid Hash Size"))
  /\ (length (chars cid) <> 59%nat \/ hd_error (chars cid) <> Some "b"%char ->
        cidToSha256 cid = Throw (class_exception "IPFS::exceptionInvalidCID" cid)).
Proof.
  intros Hh Hl. pose proof (length_hex_code_nat hash) as Hc. rewrite Hl in Hc.
  split_and!.
  - destruct (built_rest _ _ (makeHexString_built hash Hh)) as (b & Hb & Hw & Hr & Hp & Hlen).
    exists (cid_text (hex_code hash)). split_and!.
    + unfold sha256ToCID_hex. rewrite Hb. cbn [mbind outcome_bind].
      apply sha256ToCID_run; try done; [unfold fits, two64; lia|].
      rewrite <- Hr. unfold rest. by rewrite Hp.
    + unfold cid_text. rewrite chars_str. cbn [length]. rewrite length_map.
      by rewrite (proj1 (proj2 (cid_payload_quintets _ Hc))).
    + by apply cidToSha256_run.
  - intros Hn. unfold sha256ToCID. by rewrite (proj2 (Z.eqb_neq _ _)).
  - intros Hn. unfold cidToSha256. destruct (chars cid) as [|c l]; [done|].
    destruct (decide (c = "b"%char)) as [->|Hb].
    + destruct Hn as [Hn|Hn]; [|by destruct Hn].
      rewrite (proj2 (Z.eqb_neq _ _)); [done|]. intros E. apply Hn. lia.
    + assert (match c with "b"%char => false | _ => true end = true) as Hm.
      { destruct c as [[] [] [] [] [] [] [] []]; try done. }
      by destruct c as [[] [] [] [] [] [] [] []].
Qed.

Lemma cid_roundtrip_witness :
  exists c, sha256ToCID_hex "00112233445566778899aabbccddeeff00112233445566778899aabbccddeeFF" = Ok c.
Proof.
  destruct (cid_roundtrip "00112233445566778899aabbccddeeff00112233445566778899aabbccddeeFF" empty_BitIO "")
    as [(c & H & _) _]; [by apply (bool_decide_unpack _); vm_compute|done|by exists c].
Defined.
