(* ===== verification/SHA256.v ===== *)
(** SHA256: the incremental hasher (src/src/crypto/SHA256.cpp) and its agreement
    with FIPS 180-4. The standard is stated on its own in the module [Fips],
    with its constants computed from the roots of the primes, and shares no
    definition with the model of the code but the record of eight words. *)

From S2P Require Import Prelude.

Ltac Zify.zify_post_hook ::= Z.div_mod_to_equations.

(** ** The compression function *)
(** The table of the header, in decimal. *)
Definition K : list Z :=
  [1116352408; 1899447441; 3049323471; 3921009573; 961987163; 1508970993; 2453635748; 2870763221;
   3624381080; 310598401; 607225278; 1426881987; 1925078388; 2162078206; 2614888103; 3248222580;
   3835390401; 4022224774; 264347078; 604807628; 770255983; 1249150122; 1555081692; 1996064986;
   2554220882; 2821834349; 2952996808; 3210313671; 3336571891; 3584528711; 113926993; 338241895;
   666307205; 773529912; 1294757372; 1396182291; 1695183700; 1986661051; 2177026350; 2456956037;
   2730485921; 2820302411; 3259730800; 3345764771; 3516065817; 3600352804; 4094571909; 275423344;
   430227734; 506948616; 659060556; 883997877; 958139571; 1322822218; 1537002063; 1747873779;
   1955562222; 2024104815; 2227730452; 2361852424; 2428436474; 2756734187; 3204031479; 3329325298].

Definition not32 (x : Z) : Z := two32 - 1 - x.
Definition rotr (x n : Z) : Z := Z.lor (Z.shiftr x n) (u32 (Z.shiftl x (32 - n))).
Definition choose (e f g : Z) : Z := Z.lxor (Z.land e f) (Z.land (not32 e) g).
Definition majority (a b c : Z) : Z := Z.lor (Z.land a (Z.lor b c)) (Z.land b c).
Definition sig0 (x : Z) : Z := Z.lxor (Z.lxor (rotr x 7) (rotr x 18)) (Z.shiftr x 3).
Definition sig1 (x : Z) : Z := Z.lxor (Z.lxor (rotr x 17) (rotr x 19)) (Z.shiftr x 10).

(** Big-endian words of a block, four bytes at a time. *)
Fixpoint block_words (data : list Z) : list Z :=
  match data with
  | a :: b :: c :: d :: data =>
      Z.lor (Z.lor (Z.lor (Z.shiftl a 24) (Z.shiftl b 16)) (Z.shiftl c 8)) d :: block_words data
  | _ => []
  end.

(** [count] further words of the message schedule; [nth k m] is [m[k]]. *)
Fixpoint schedule (count : nat) (m : list Z) : list Z :=
  match count with
  | O => m
  | S count =>
      let k := length m in
      let w := u32 (sig1 (nth (k - 2) m 0) + nth (k - 7) m 0 + sig0 (nth (k - 15) m 0) + nth (k - 16) m 0) in
      schedule count (m ++ [w])
  end.

Record words8 := mk_words8 { w0 : Z; w1 : Z; w2 : Z; w3 : Z; w4 : Z; w5 : Z; w6 : Z; w7 : Z }.

Definition round (state : words8) (m k : Z) : words8 :=
  let '(mk_words8 s0 s1 s2 s3 s4 s5 s6 s7) := state in
  let maj := majority s0 s1 s2 in
  let xorA := Z.lxor (Z.lxor (rotr s0 2) (rotr s0 13)) (rotr s0 22) in
  let ch := choose s4 s5 s6 in
  let xorE := Z.lxor (Z.lxor (rotr s4 6) (rotr s4 11)) (rotr s4 25) in
  let sum := u32 (m + k + s7 + ch + xorE) in
  let newA := u32 (xorA + maj + sum) in
  let newE := u32 (s3 + sum) in
  mk_words8 newA s0 s1 s2 newE s4 s5 s6.

Fixpoint rounds (state : words8) (m k : list Z) : words8 :=
  match m, k with
  | x :: m, c :: k => rounds (round state x c) m k
  | _, _ => state
  end.

Definition add_words (a b : words8) : words8 :=
  mk_words8 (u32 (w0 a + w0 b)) (u32 (w1 a + w1 b)) (u32 (w2 a + w2 b)) (u32 (w3 a + w3 b))
            (u32 (w4 a + w4 b)) (u32 (w5 a + w5 b)) (u32 (w6 a + w6 b)) (u32 (w7 a + w7 b)).

Definition compress (state : words8) (data : list Z) : words8 :=
  add_words state (rounds state (schedule 48 (block_words data)) K).

(** ** The hasher *)
Record SHA256 := mk_SHA256 {
  m_data : list Z;
  m_blocklen : nat;
  m_bitlen : Z;
  m_state : words8
}.

Definition initial_state : words8 :=
  mk_words8 0x6a09e667 0xbb67ae85 0x3c6ef372 0xa54ff53a 0x510e527f 0x9b05688c 0x1f83d9ab 0x5be0cd19.

(** The constructor leaves the buffer uninitialised: [m_data] is any 64 bytes. *)
Definition SHA256_init (m_data : list Z) : SHA256 := mk_SHA256 m_data 0 0 initial_state.

Definition transform (s : SHA256) : SHA256 :=
  mk_SHA256 (m_data s) (m_blocklen s) (m_bitlen s) (compress (m_state s) (m_data s)).

Definition update_byte (s : SHA256) (b : Z) : SHA256 :=
  let s := mk_SHA256 (<[m_blocklen s := b]> (m_data s)) (S (m_blocklen s)) (m_bitlen s) (m_state s) in
  if (m_blocklen s =? 64)%nat
  then let s := transform s in mk_SHA256 (m_data s) 0 (u64 (m_bitlen s + 512)) (m_state s)
  else s.

Definition update (s : SHA256) (data : list Z) : SHA256 := foldl update_byte s data.

(** [m_data[i] = 0] for the [count] positions from [i] on. *)
Fixpoint zero_fill (i count : nat) (l : list Z) : list Z :=
  match count with
  | O => l
  | S count => zero_fill (S i) count (<[i := 0]> l)
  end.

Definition length_bytes (bitlen : Z) : list Z :=
  map (fun shift => Z.land (Z.shiftr bitlen shift) 0xFF) [56; 48; 40; 32; 24; 16; 8; 0].

Fixpoint write_from (i : nat) (values l : list Z) : list Z :=
  match values with
  | [] => l
  | v :: values => write_from (S i) values (<[i := v]> l)
  end.

Definition pad (s : SHA256) : SHA256 :=
  let n := m_blocklen s in
  let stop := if (n <? 56)%nat then 56%nat else 64%nat in
  let data := zero_fill (S n) (stop - S n) (<[n := 0x80]> (m_data s)) in
  let s := mk_SHA256 data n (m_bitlen s) (m_state s) in
  let s := if (56 <=? n)%nat
           then let s := transform s in mk_SHA256 (zero_fill 0 56 (m_data s)) n (m_bitlen s) (m_state s)
           else s in
  let bitlen := u64 (m_bitlen s + u32 (Z.of_nat n * 8)) in
  transform (mk_SHA256 (write_from 56 (length_bytes bitlen) (m_data s)) n bitlen (m_state s)).

Definition word_bytes (w : Z) : list Z :=
  map (fun shift => Z.land (Z.shiftr w shift) 0xFF) [24; 16; 8; 0].
Definition revert (s : words8) : list Z :=
  concat (map word_bytes [w0 s; w1 s; w2 s; w3 s; w4 s; w5 s; w6 s; w7 s]).

Definition digest (s : SHA256) : list Z := revert (m_state (pad s)).

(** [SHA256 h; h.update(data); h.digest()] *)
Definition sha256 (data : list Z) : list Z := digest (update (SHA256_init (repeat 0 64)) data).

(** ** Padding and chaining with the compression of the code *)
Fixpoint blocks_state (n : nat) (state : words8) (data : list Z) : words8 :=
  match n with
  | O => state
  | S n => blocks_state n (compress state (take 64 data)) (drop 64 data)
  end.

Definition zero_count (len : nat) : nat := Z.to_nat ((55 - Z.of_nat len) mod 64).
Definition padded (msg : list Z) : list Z :=
  msg ++ [0x80] ++ repeat 0 (zero_count (length msg)) ++ length_bytes (u64 (8 * Z.of_nat (length msg))).

(** ** FIPS 180-4 *)
Module Fips.

(** *** Constants: 32 bits of the fractional parts of roots of the first primes *)
Definition is_prime (p : Z) : bool := forallb (fun d => negb (p mod d =? 0)) (seqZ 2 (p - 2)).
Definition primes : list Z := List.filter is_prime (seqZ 2 310).

(** The largest [r] below [2^n] more than [r0] whose [e]-th power is at most [v]. *)
Fixpoint int_root (n : nat) (e v r0 : Z) : Z :=
  match n with
  | O => r0
  | S n => let r := r0 + 2 ^ Z.of_nat n in int_root n e v (if r ^ e <=? v then r else r0)
  end.
Definition root_fraction (e p : Z) : Z := int_root 40 e (p * 2 ^ (32 * e)) 0 mod 2 ^ 32.
Definition round_constants : list Z := map (root_fraction 3) primes.

(** *** Functions on 32-bit words *)
Definition rotate (n x : Z) : Z := x / 2 ^ n + (x mod 2 ^ n) * 2 ^ (32 - n).
Definition shift (n x : Z) : Z := x / 2 ^ n.
Definition if_then_else (x y z : Z) : Z := Z.lxor (Z.land x y) (Z.land (Z.lnot x) z).
Definition most (x y z : Z) : Z := Z.lxor (Z.lxor (Z.land x y) (Z.land x z)) (Z.land y z).
Definition xor3 (a b c : Z) : Z := Z.lxor (Z.lxor a b) c.
Definition Sigma0 (x : Z) : Z := xor3 (rotate 2 x) (rotate 13 x) (rotate 22 x).
Definition Sigma1 (x : Z) : Z := xor3 (rotate 6 x) (rotate 11 x) (rotate 25 x).
Definition sigma0 (x : Z) : Z := xor3 (rotate 7 x) (rotate 18 x) (shift 3 x).
Definition sigma1 (x : Z) : Z := xor3 (rotate 17 x) (rotate 19 x) (shift 10 x).

(** *** One block *)
Fixpoint message_words (bytes : list Z) : list Z :=
  match bytes with
  | a :: b :: c :: d :: bytes => 2 ^ 24 * a + 2 ^ 16 * b + 2 ^ 8 * c + d :: message_words bytes
  | _ => []
  end.
(** [n] more words in front of the reversed schedule: W(t-2) is its word 1. *)
Fixpoint more_words (n : nat) (w : list Z) : list Z :=
  match n with
  | O => w
  | S n => more_words n ((sigma1 (nth 1 w 0) + nth 6 w 0 + sigma0 (nth 14 w 0) + nth 15 w 0) mod 2 ^ 32 :: w)
  end.
Definition message_schedule (bytes : list Z) : list Z := rev (more_words 48 (rev (message_words bytes))).

Definition step (v : words8) (kw : Z * Z) : words8 :=
  let '(mk_words8 a b c d e f g h) := v in
  let t1 := (h + Sigma1 e + if_then_else e f g + kw.1 + kw.2) mod 2 ^ 32 in
  let t2 := (Sigma0 a + most a b c) mod 2 ^ 32 in
  mk_words8 ((t1 + t2) mod 2 ^ 32) a b c ((d + t1) mod 2 ^ 32) e f g.
Definition plus (x y : words8) : words8 :=
  let '(mk_words8 a b c d e f g h) := x in
  let '(mk_words8 a' b' c' d' e' f' g' h') := y in
  mk_words8 ((a + a') mod 2 ^ 32) ((b + b') mod 2 ^ 32) ((c + c') mod 2 ^ 32) ((d + d') mod 2 ^ 32)
            ((e + e') mod 2 ^ 32) ((f + f') mod 2 ^ 32) ((g + g') mod 2 ^ 32) ((h + h') mod 2 ^ 32).
Definition hash_block (v : words8) (bytes : list Z) : words8 :=
  plus v (foldl step v (combine round_constants (message_schedule bytes))).

(** *** The message *)
Definition first_hash : words8 :=
  match map (root_fraction 2) (take 8 primes) with
  | [a; b; c; d; e; f; g; h] => mk_words8 a b c d e f g h
  | _ => mk_words8 0 0 0 0 0 0 0 0
  end.
(** [v] in [n] bytes, the most significant first *)
Definition big_endian (n : nat) (v : Z) : list Z := rev (map (fun i => v / 2 ^ (8 * i) mod 2 ^ 8) (seqZ 0 (Z.of_nat n))).
(** A one bit, the least number of zero bits that makes the length 448 modulo
    512, and the length in 64 bits *)
Definition padding (len : nat) : list Z :=
  0x80 :: repeat 0 (Z.to_nat ((448 - (8 * Z.of_nat len + 8)) mod 512 / 8)) ++ big_endian 8 (8 * Z.of_nat len).
Fixpoint hash_blocks (n : nat) (v : words8) (bytes : list Z) : words8 :=
  match n with O => v | S n => hash_blocks n (hash_block v (take 64 bytes)) (drop 64 bytes) end.
Definition hash (msg : list Z) : list Z :=
  let bytes := msg ++ padding (length msg) in
  let '(mk_words8 a b c d e f g h) := hash_blocks (length bytes / 64) first_hash bytes in
  concat (map (big_endian 4) [a; b; c; d; e; f; g; h]).
End Fips.

(** ** Writing into the buffer *)
Lemma take_insert_last (l : list Z) n v : (n < length l)%nat -> take (S n) (<[n := v]> l) = take n l ++ [v].
Proof.
  intros Hn. rewrite (take_S_r _ _ v) by (apply list_lookup_insert_eq; done).
  by rewrite take_insert_ge by lia.
Qed.

Lemma write_from_spec values : forall i l,
  (i + length values <= length l)%nat ->
  write_from i values l = take i l ++ values ++ drop (i + length values) l.
Proof.
  induction values as [|v values IH]; intros i l Hl; cbn [write_from length] in *.
  - rewrite Nat.add_0_r. simpl. by rewrite take_drop.
  - rewrite IH by (rewrite length_insert; lia).
    rewrite take_insert_last, <- app_assoc by lia. cbn [app]. do 3 f_equal.
    rewrite drop_insert_lt by lia. f_equal. lia.
Qed.

Lemma zero_fill_write i count l : zero_fill i count l = write_from i (repeat 0 count) l.
Proof. revert i l. induction count as [|count IH]; intros i l; [done|]. cbn. apply IH. Qed.

Lemma length_length_bytes n : length (length_bytes n) = 8%nat.
Proof. done. Qed.

(** ** The invariant of an object that has absorbed [msg] *)
Record absorbed (s : SHA256) (msg : list Z) : Prop := {
  abs_data : length (m_data s) = 64%nat;
  abs_blocklen : m_blocklen s = (length msg mod 64)%nat;
  abs_bitlen : m_bitlen s = u64 (512 * Z.of_nat (length msg / 64));
  abs_rest : take (m_blocklen s) (m_data s) = drop (64 * (length msg / 64)) msg;
  abs_state : m_state s = blocks_state (length msg / 64) initial_state msg
}.

Lemma blocks_state_app n : forall state a b,
  (64 * n <= length a)%nat -> blocks_state n state (a ++ b) = blocks_state n state a.
Proof.
  induction n as [|n IH]; intros state a b Ha; [done|]. cbn [blocks_state].
  rewrite take_app_le, drop_app_le by lia. apply IH. rewrite length_drop. lia.
Qed.

Lemma blocks_state_add n k : forall state a b,
  length a = (64 * n)%nat -> blocks_state (n + k) state (a ++ b) = blocks_state k (blocks_state n state a) b.
Proof.
  induction n as [|n IH]; intros state a b Ha.
  - by destruct a.
  - cbn [blocks_state Nat.add]. rewrite take_app_le, drop_app_le by lia. apply IH. rewrite length_drop. lia.
Qed.

Lemma blocks_state_one state a b : length a = 64%nat -> blocks_state 1 state (a ++ b) = compress state a.
Proof. intros Ha. cbn [blocks_state]. by rewrite take_app_length'. Qed.

Lemma split_blocks (msg : list Z) (q := (length msg / 64)%nat) :
  msg = take (64 * q) msg ++ drop (64 * q) msg /\ length (take (64 * q) msg) = (64 * q)%nat
  /\ length (drop (64 * q) msg) = (length msg mod 64)%nat.
Proof.
  pose proof (Nat.div_mod (length msg) 64 ltac:(lia)) as H. fold q in H.
  split_and!; [by rewrite take_drop|rewrite length_take; lia|rewrite length_drop; lia].
Qed.

Lemma init_absorbed buffer : length buffer = 64%nat -> absorbed (SHA256_init buffer) [].
Proof. by constructor. Qed.

Lemma update_byte_absorbed s msg b : absorbed s msg -> absorbed (update_byte s b) (msg ++ [b]).
Proof.
  intros [Hd Hn Hbl Hr Hs].
  destruct (split_blocks msg) as (Hsplit & Hlt & Hld). set (q := (length msg / 64)%nat) in *.
  pose proof (Nat.div_mod (length msg) 64 ltac:(lia)) as Hdm. fold q in Hdm.
  pose proof (Nat.mod_upper_bound (length msg) 64 ltac:(lia)) as Hm.
  assert (length (msg ++ [b]) = S (length msg)) as Hlen by (rewrite length_app; simpl; lia).
  unfold update_byte. cbn [m_blocklen m_data m_bitlen m_state].
  destruct (Nat.eqb_spec (S (m_blocklen s)) 64) as [H64|H64].
  - assert (length (msg ++ [b]) / 64 = S q /\ length (msg ++ [b]) mod 64 = 0)%nat as [Hq Hz].
    { rewrite Hlen. assert (S (length msg) = 64 * S q + 0)%nat as -> by lia.
      rewrite Nat.mul_comm, Nat.div_add_l, Nat.Div0.add_mod, Nat.Div0.mod_mul by lia. simpl. lia. }
    constructor; cbn [m_data m_blocklen m_bitlen m_state transform]; rewrite ?Hq, ?Hz.
    + by rewrite length_insert.
    + done.
    + rewrite Hbl. unfold u64. rewrite Zplus_mod_idemp_l. f_equal. lia.
    + cbn [take]. rewrite drop_ge; [done|]. rewrite Hlen. lia.
    + rewrite Hs. replace (S q) with (q + 1)%nat by lia.
      rewrite Hsplit, <- !app_assoc, blocks_state_add, (blocks_state_app q) by lia.
      rewrite <- (app_nil_r (drop (64 * q) msg ++ [b])), blocks_state_one.
      2:{ rewrite length_app, Hld. cbn [length]. lia. }
      f_equal. rewrite <- Hr, <- take_insert_last by lia.
      rewrite take_ge; [done|]. rewrite length_insert. lia.
  - assert (length (msg ++ [b]) / 64 = q /\ length (msg ++ [b]) mod 64 = S (m_blocklen s))%nat as [Hq Hz].
    { rewrite Hlen. assert (S (length msg) = q * 64 + S (m_blocklen s))%nat as -> by lia.
      rewrite Nat.div_add_l, Nat.Div0.add_mod, Nat.Div0.mod_mul by lia.
      rewrite Nat.div_small by lia. rewrite Nat.add_0_l, Nat.Div0.mod_mod, Nat.mod_small by lia. lia. }
    constructor; cbn [m_data m_blocklen m_bitlen m_state]; rewrite ?Hq, ?Hz.
    + by rewrite length_insert.
    + done.
    + done.
    + rewrite take_insert_last by lia. rewrite Hr, drop_app_le by lia. done.
    + by rewrite Hs, blocks_state_app by lia.
Qed.

Lemma update_absorbed data : forall s msg, absorbed s msg -> absorbed (update s data) (msg ++ data).
Proof.
  induction data as [|b data IH]; intros s msg H; [by rewrite app_nil_r|].
  change (update s (b :: data)) with (update (update_byte s b) data).
  change (b :: data) with ([b] ++ data). rewrite app_assoc. by apply IH, update_byte_absorbed.
Qed.

(** ** Finishing *)
Lemma marked_buffer (data rest : list Z) n stop :
  length data = 64%nat -> take n data = rest -> (n < stop <= 64)%nat ->
  zero_fill (S n) (stop - S n) (<[n := 0x80]> data) = rest ++ (0x80 :: repeat 0 (stop - S n)) ++ drop stop data.
Proof.
  intros Hd Hr Hn. rewrite zero_fill_write.
  change (write_from (S n) ?zs (<[n := ?v]> data)) with (write_from n (v :: zs) data).
  rewrite write_from_spec by (cbn [length]; rewrite repeat_length; lia).
  rewrite Hr. cbn [length]. rewrite repeat_length. by replace (n + S (stop - S n))%nat with stop by lia.
Qed.

Lemma zero_count_spec len n : (n = len mod 64)%nat ->
  zero_count len = if (n <? 56)%nat then (55 - n)%nat else (119 - n)%nat.
Proof.
  intros ->. unfold zero_count. pose proof (Nat.div_mod len 64 ltac:(lia)).
  pose proof (Nat.mod_upper_bound len 64 ltac:(lia)).
  set (n := (len mod 64)%nat) in *. set (q := (len / 64)%nat) in *.
  destruct (Nat.ltb_spec n 56).
  - rewrite <- (Z.mod_unique (55 - Z.of_nat len) 64 (- Z.of_nat q) (55 - Z.of_nat n)) by lia. lia.
  - rewrite <- (Z.mod_unique (55 - Z.of_nat len) 64 (- Z.of_nat q - 1) (119 - Z.of_nat n)) by lia. lia.
Qed.

Lemma padded_blocks (front blocks : list Z) (q k : nat) state :
  length front = (64 * q)%nat -> length blocks = (64 * k)%nat ->
  blocks_state (length (front ++ blocks) / 64) state (front ++ blocks)
  = blocks_state k (blocks_state q state front) blocks.
Proof.
  intros Hf Hb. assert (length (front ++ blocks) / 64 = q + k)%nat as ->.
  { rewrite length_app, Hf, Hb. replace (64 * q + 64 * k)%nat with ((q + k) * 64)%nat by lia. by apply Nat.div_mul. }
  by apply blocks_state_add.
Qed.

Lemma pad_absorbed s msg :
  absorbed s msg -> Z.of_nat (length msg) * 8 < two64 ->
  m_state (pad s) = blocks_state (length (padded msg) / 64) initial_state (padded msg).
Proof.
  intros [Hd Hn Hbl Hr Hs] Hmax.
  destruct (split_blocks msg) as (Hsplit & Hlt & Hld). set (q := (length msg / 64)%nat) in *.
  pose proof (Nat.div_mod (length msg) 64 ltac:(lia)) as Hdm. fold q in Hdm.
  pose proof (Nat.mod_upper_bound (length msg) 64 ltac:(lia)) as Hm.
  pose proof (zero_count_spec _ _ Hn) as Hz.
  set (n := m_blocklen s) in *. set (rest := drop (64 * q) msg) in *.
  assert (length rest = n) as Hln by (by rewrite Hld, Hn).
  assert (u64 (m_bitlen s + u32 (Z.of_nat n * 8)) = u64 (8 * Z.of_nat (length msg))) as Hbits.
  { rewrite Hbl, (u32_small (Z.of_nat n * 8)) by (unfold two32; lia).
    unfold u64. rewrite Zplus_mod_idemp_l. f_equal. lia. }
  set (tail := length_bytes (u64 (8 * Z.of_nat (length msg)))) in *.
  assert (length tail = 8%nat) as Htail by done.
  assert (padded msg = take (64 * q) msg ++ rest ++ [0x80] ++ repeat 0 (zero_count (length msg)) ++ tail) as ->.
  { unfold padded. fold tail. rewrite Hsplit at 1. by rewrite <- !app_assoc. }
  assert (m_state s = blocks_state q initial_state (take (64 * q) msg)) as Hs'.
  { rewrite Hs. rewrite Hsplit at 1. by apply blocks_state_app; lia. }
  unfold pad. fold n. rewrite Hz. destruct (Nat.ltb_spec n 56) as [H56|H56].
  - rewrite (proj2 (Nat.leb_gt 56 n)) by lia. cbn [m_data m_bitlen m_state transform m_blocklen].
    rewrite Hbits, (marked_buffer _ rest) by lia || done. fold tail.
    rewrite (padded_blocks _ _ q 1) by (rewrite ?length_app, ?repeat_length, ?Hln, ?Htail; cbn [length]; lia).
    assert (length (rest ++ [128] ++ repeat 0 (55 - n) ++ tail) = 64%nat) as Hb
      by (rewrite !length_app, repeat_length, Hln, Htail; cbn [length]; lia).
    rewrite Hs', <- (app_nil_r (rest ++ [128] ++ repeat 0 (55 - n) ++ tail)), blocks_state_one by done.
    f_equal. rewrite write_from_spec by (rewrite !length_app, length_drop; cbn [length]; rewrite ?repeat_length, Hln, ?Htail; lia).
    rewrite (app_assoc rest), take_app_length', drop_ge, app_nil_r, <- app_assoc.
    + by replace (56 - S n)%nat with (55 - n)%nat by lia.
    + rewrite !length_app, length_drop. cbn [length]. rewrite repeat_length. lia.
    + rewrite !length_app. cbn [length]. rewrite repeat_length. lia.
  - rewrite (proj2 (Nat.leb_le 56 n)) by lia. cbn [m_data m_bitlen m_state transform m_blocklen].
    rewrite Hbits, (marked_buffer _ rest) by lia || done. fold tail.
    rewrite drop_ge, app_nil_r by lia.
    assert (119 - n = (64 - S n) + 56)%nat as -> by lia. rewrite repeat_app.
    set (block := rest ++ 0x80 :: repeat 0 (64 - S n)).
    assert (length block = 64%nat) as Hb by (unfold block; rewrite length_app; cbn [length]; rewrite repeat_length; lia).
    rewrite (padded_blocks _ _ q 2) by (rewrite ?length_app, ?repeat_length, ?Hln, ?Htail; cbn [length]; lia).
    replace (rest ++ [128] ++ (repeat 0 (64 - S n) ++ repeat 0 56) ++ tail) with (block ++ repeat 0 56 ++ tail ++ [])
      by (unfold block; rewrite app_nil_r, <- !app_assoc; done).
    change (blocks_state 2 ?st ?l) with (blocks_state 1 (compress st (take 64 l)) (drop 64 l)).
    rewrite take_app_length', drop_app_length' by done.
    rewrite app_assoc, blocks_state_one by (rewrite length_app, repeat_length, Htail; done).
    rewrite <- Hs'. f_equal.
    rewrite zero_fill_write, (write_from_spec (repeat 0 56)) by (rewrite repeat_length; lia).
    rewrite repeat_length, take_0, app_nil_l, Nat.add_0_l.
    rewrite write_from_spec by (rewrite length_app, repeat_length, length_drop; lia).
    rewrite take_app_length' by (by rewrite repeat_length).
    rewrite drop_ge, app_nil_r; [done|]. rewrite length_app, repeat_length, length_drop, Htail. lia.
Qed.

(** ** The compression of the code is the one of the standard *)
Definition is_byte (v : Z) : Prop := 0 <= v < 256.
Definition is_word (v : Z) : Prop := 0 <= v < two32.

Lemma constants_agree : K = Fips.round_constants /\ initial_state = Fips.first_hash.
Proof. split; vm_compute; reflexivity. Qed.

Lemma rotr_rotate n x : 0 < n < 32 -> is_word x -> rotr x n = Fips.rotate n x.
Proof.
  intros Hn Hx. unfold rotr, Fips.rotate, u32, is_word in *. change two32 with (2 ^ 32) in *.
  rewrite Z.shiftr_div_pow2, Z.shiftl_mul_pow2 by lia.
  assert ((x * 2 ^ (32 - n)) mod 2 ^ 32 = (x mod 2 ^ n) * 2 ^ (32 - n)) as ->.
  { replace (2 ^ 32) with (2 ^ n * 2 ^ (32 - n)) by (rewrite <- Z.pow_add_r by lia; f_equal; lia).
    by rewrite Z.mul_mod_distr_r by lia. }
  assert (0 <= x / 2 ^ n < 2 ^ (32 - n)) as Hq.
  { split; [apply Z.div_pos; lia|]. apply Z.div_lt_upper_bound; [lia|].
    rewrite <- Z.pow_add_r by lia. replace (n + (32 - n)) with 32 by lia. lia. }
  symmetry. rewrite <- Z.shiftl_mul_pow2 by lia. rewrite <- Z.lxor_lor, Z.add_nocarry_lxor; [done| |].
  all: apply Z.bits_inj'; intros i Hi; rewrite Z.land_spec, Z.bits_0, Z.shiftl_spec by lia.
  all: destruct (Z.lt_ge_cases i (32 - n)); [rewrite (Z.testbit_neg_r _ (i - (32 - n))) by lia; apply andb_false_r|].
  all: rewrite Z.bits_above_log2; [done|lia|].
  all: destruct (Z.eq_dec (x / 2 ^ n) 0) as [->|]; [simpl; lia|apply Z.log2_lt_pow2; [lia|]].
  all: eapply Z.lt_le_trans; [apply Hq|apply Z.pow_le_mono_r; lia].
Qed.

Lemma choose_agrees x y z : is_word x -> is_word z -> choose x y z = Fips.if_then_else x y z.
Proof.
  intros Hx Hz. unfold choose, Fips.if_then_else, not32. f_equal.
  assert (two32 - 1 - x = Z.land (Z.lnot x) (Z.ones 32)) as ->.
  { rewrite Z.land_ones by lia. unfold is_word, Z.lnot, two32 in *. change (2 ^ 32) with 4294967296. lia. }
  rewrite <- Z.land_assoc, (Z.land_comm (Z.ones 32)), Z.land_ones by lia. f_equal. by apply Z.mod_small.
Qed.

Lemma majority_agrees x y z : majority x y z = Fips.most x y z.
Proof.
  apply Z.bits_inj'. intros i _. unfold majority, Fips.most. rewrite ?Z.lor_spec, ?Z.lxor_spec, ?Z.land_spec, ?Z.lor_spec.
  by destruct (Z.testbit x i), (Z.testbit y i), (Z.testbit z i).
Qed.

Lemma sig0_agrees x : is_word x -> sig0 x = Fips.sigma0 x.
Proof. intros Hx. unfold sig0, Fips.sigma0, Fips.xor3, Fips.shift. by rewrite !rotr_rotate, Z.shiftr_div_pow2 by (lia || done). Qed.
Lemma sig1_agrees x : is_word x -> sig1 x = Fips.sigma1 x.
Proof. intros Hx. unfold sig1, Fips.sigma1, Fips.xor3, Fips.shift. by rewrite !rotr_rotate, Z.shiftr_div_pow2 by (lia || done). Qed.

Lemma is_word_u32 v : is_word (u32 v).
Proof. unfold is_word, u32, two32. lia. Qed.
Lemma nth_word m i : Forall is_word m -> is_word (nth i m 0).
Proof. intros Hm. destruct (nth_in_or_default i m 0) as [H| ->]; [|unfold is_word, two32; lia]. rewrite Forall_forall in Hm. by apply Hm, list_elem_of_In. Qed.

(** *** The schedule *)
Lemma lor_bytes v b n : 0 <= n -> 0 <= b < 2 ^ n -> Z.lor (Z.shiftl v n) b = v * 2 ^ n + b.
Proof.
  intros Hn Hb. rewrite <- Z.shiftl_mul_pow2 by lia.
  assert (Z.land (Z.shiftl v n) b = 0) as E.
  { apply Z.bits_inj'. intros i Hi. rewrite Z.land_spec, Z.bits_0, Z.shiftl_spec by lia.
    destruct (Z.lt_ge_cases i n); [by rewrite Z.testbit_neg_r by lia|].
    replace b with (b mod 2 ^ n) by (by apply Z.mod_small). rewrite Z.mod_pow2_bits_high by lia. apply andb_false_r. }
  by rewrite <- Z.lxor_lor, Z.add_nocarry_lxor by done.
Qed.

Lemma quad_ind (P : list Z -> Prop) :
  P [] -> (forall a, P [a]) -> (forall a b, P [a; b]) -> (forall a b c, P [a; b; c]) ->
  (forall a b c d l, P l -> P (a :: b :: c :: d :: l)) -> forall l, P l.
Proof.
  intros H0 H1 H2 H3 H4. fix IH 1. intros [|a [|b [|c [|d l]]]]; [done|apply H1|apply H2|apply H3|]. apply H4, IH.
Qed.

Lemma block_words_agree data : Forall is_byte data ->
  block_words data = Fips.message_words data /\ Forall is_word (block_words data)
  /\ length (block_words data) = (length data / 4)%nat.
Proof.
  induction data as [|a|a b|a b c|a b c d l IH] using quad_ind; intros Hd; try (split_and!; [done|by constructor|done]).
  apply Forall_cons in Hd as [Ha Hd]. apply Forall_cons in Hd as [Hb Hd]. apply Forall_cons in Hd as [Hc Hd].
  apply Forall_cons in Hd as [Hdd Hd]. destruct (IH Hd) as (E & Hw & Hl). unfold is_byte in *. cbn [block_words Fips.message_words].
  assert (Z.lor (Z.lor (Z.lor (Z.shiftl a 24) (Z.shiftl b 16)) (Z.shiftl c 8)) d = 2 ^ 24 * a + 2 ^ 16 * b + 2 ^ 8 * c + d) as ->.
  { rewrite (Z.shiftl_mul_pow2 b), (Z.shiftl_mul_pow2 c), (lor_bytes a) by lia.
    replace (a * 2 ^ 24 + b * 2 ^ 16) with (Z.shiftl (a * 2 ^ 8 + b) 16) by (rewrite Z.shiftl_mul_pow2; lia).
    rewrite (lor_bytes _ (c * 2 ^ 8)) by lia.
    replace ((a * 2 ^ 8 + b) * 2 ^ 16 + c * 2 ^ 8) with (Z.shiftl (a * 2 ^ 16 + b * 2 ^ 8 + c) 8) by (rewrite Z.shiftl_mul_pow2; lia).
    rewrite lor_bytes by lia. lia. }
  split_and!; [by rewrite E|constructor; [unfold is_word, two32; lia|done]|]. cbn [length]. rewrite Hl.
  change (S (S (S (S (length l))))) with (4 + length l)%nat. rewrite (Nat.add_comm 4). by rewrite <- (Nat.mul_1_l 4), Nat.div_add, Nat.add_1_r by lia.
Qed.

Lemma schedule_agrees n : forall m, Forall is_word m -> (16 <= length m)%nat ->
  schedule n m = rev (Fips.more_words n (rev m)) /\ Forall is_word (schedule n m).
Proof.
  induction n as [|n IH]; intros m Hm Hl; cbn [schedule Fips.more_words]; [by rewrite rev_involutive|].
  rewrite !(rev_nth m) by lia.
  replace (length m - 2)%nat with (length m - 2)%nat by done.
  rewrite (sig1_agrees _ (nth_word _ _ Hm)), (sig0_agrees _ (nth_word _ _ Hm)).
  set (w := u32 _). destruct (IH (m ++ [w])) as [E Hw].
  - apply Forall_app. split; [done|]. constructor; [apply is_word_u32|done].
  - rewrite length_app. lia.
  - split; [|done]. rewrite E, rev_app_distr. reflexivity.
Qed.

(** *** The rounds *)
Definition words_ok (v : words8) : Prop := Forall is_word [w0 v; w1 v; w2 v; w3 v; w4 v; w5 v; w6 v; w7 v].

Lemma round_agrees v m k : words_ok v -> round v m k = Fips.step v (k, m) /\ words_ok (round v m k).
Proof.
  destruct v as [a b c d e f g h]. unfold words_ok. cbn [w0 w1 w2 w3 w4 w5 w6 w7]. intros Hv.
  repeat (apply Forall_cons in Hv as [? Hv]). unfold round, Fips.step. cbn [fst snd].
  rewrite majority_agrees, choose_agrees, !rotr_rotate by (lia || done).
  change (Z.lxor (Z.lxor (Fips.rotate 2 a) (Fips.rotate 13 a)) (Fips.rotate 22 a)) with (Fips.Sigma0 a).
  change (Z.lxor (Z.lxor (Fips.rotate 6 e) (Fips.rotate 11 e)) (Fips.rotate 25 e)) with (Fips.Sigma1 e).
  split; [|cbn; repeat (constructor; [first [done|apply is_word_u32]|]); constructor].
  unfold u32, two32. change (2 ^ 32) with 4294967296. f_equal; lia.
Qed.

Lemma rounds_agree m : forall k v, words_ok v ->
  rounds v m k = foldl Fips.step v (combine k m) /\ words_ok (rounds v m k).
Proof.
  induction m as [|x m IH]; intros [|c k] v Hv; cbn [rounds combine foldl]; try done.
  destruct (round_agrees v x c Hv) as [E Hr]. rewrite <- E. by apply IH.
Qed.

Lemma plus_agrees x y : add_words x y = Fips.plus x y.
Proof. by destruct x, y. Qed.
Lemma compress_agrees v data : words_ok v -> Forall is_byte data -> length data = 64%nat ->
  compress v data = Fips.hash_block v data /\ words_ok (compress v data).
Proof.
  intros Hv Hd Hl. destruct (block_words_agree data Hd) as (E & Hw & Hlw). rewrite Hl in Hlw.
  destruct (schedule_agrees 48 (block_words data) Hw) as [Es _]; [rewrite Hlw; apply (Nat.leb_le 16 16); reflexivity|].
  destruct (rounds_agree (schedule 48 (block_words data)) K v Hv) as [Er Hr].
  unfold compress. split; [|by repeat (constructor; [apply is_word_u32|])].
  unfold Fips.hash_block, Fips.message_schedule. rewrite Er, Es, E, (proj1 constants_agree). apply plus_agrees.
Qed.

(** *** The message *)
Lemma blocks_agree n : forall v bytes, words_ok v -> Forall is_byte bytes -> (64 * n <= length bytes)%nat ->
  blocks_state n v bytes = Fips.hash_blocks n v bytes.
Proof.
  induction n as [|n IH]; intros v bytes Hv Hb Hl; [done|]. cbn [blocks_state Fips.hash_blocks].
  destruct (compress_agrees v (take 64 bytes) Hv) as [E Hc]; [by apply Forall_take|rewrite length_take; lia|].
  rewrite <- E. apply IH; [done|by apply Forall_drop|rewrite length_drop; lia].
Qed.

Lemma length_bytes_agree v : length_bytes v = Fips.big_endian 8 v.
Proof. unfold length_bytes, Fips.big_endian. cbn -[Z.land Z.shiftr Z.pow Z.mul]. by rewrite !(Z.land_ones _ 8), !Z.shiftr_div_pow2 by lia. Qed.
Lemma word_bytes_agree v : word_bytes v = Fips.big_endian 4 v.
Proof. unfold word_bytes, Fips.big_endian. cbn -[Z.land Z.shiftr Z.pow Z.mul]. by rewrite !(Z.land_ones _ 8), !Z.shiftr_div_pow2 by lia. Qed.

Lemma padded_agree msg : Z.of_nat (length msg) * 8 < two64 -> padded msg = msg ++ Fips.padding (length msg).
Proof.
  intros Hm. unfold padded, Fips.padding. rewrite length_bytes_agree, u64_small by lia. cbn [app]. do 4 f_equal.
  unfold zero_count. f_equal. lia.
Qed.

Lemma is_byte_mod v i : is_byte (v / 2 ^ i mod 2 ^ 8).
Proof. unfold is_byte. change (2 ^ 8) with 256. lia. Qed.
Lemma padded_bytes msg : Forall is_byte msg -> Z.of_nat (length msg) * 8 < two64 -> Forall is_byte (padded msg).
Proof.
  intros Hm Hl. rewrite padded_agree by done. apply Forall_app. split; [done|]. unfold Fips.padding.
  constructor; [unfold is_byte; lia|]. apply Forall_app. split.
  - apply Forall_forall. intros x Hx. apply list_elem_of_In, repeat_spec in Hx as ->. unfold is_byte. lia.
  - unfold Fips.big_endian. apply Forall_rev, Forall_map, Forall_forall. intros x _. apply is_byte_mod.
Qed.

(** The chaining of the code over the padded message is the hash of the standard. *)
Lemma fips_hash msg : Forall is_byte msg -> Z.of_nat (length msg) * 8 < two64 ->
  revert (blocks_state (length (padded msg) / 64) initial_state (padded msg)) = Fips.hash msg.
Proof.
  intros Hm Hl. rewrite blocks_agree; [|by repeat (constructor; [unfold is_word, two32; cbn; lia|])|by apply padded_bytes|].
  2: { apply Nat.Div0.mul_div_le. }
  unfold Fips.hash. rewrite <- padded_agree by done. rewrite (proj2 constants_agree).
  destruct (Fips.hash_blocks _ _ _). unfold revert. cbn [map w0 w1 w2 w3 w4 w5 w6 w7]. by rewrite !word_bytes_agree.
Qed.

(** C40: The incremental hasher computes SHA-256: however a message of fewer
    than 2^64 bits is split over calls of update(), and whatever the
    uninitialised buffer held, digest() is the hash that FIPS 180-4 defines
    ([Fips.hash]: padding, constants from the roots of the primes, schedule,
    rounds and chaining), and has 32 bytes. *)
Theorem sha256_incremental buffer parts :
  length buffer = 64%nat -> Forall is_byte (concat parts) -> Z.of_nat (length (concat parts)) * 8 < two64 ->
  digest (foldl update (SHA256_init buffer) parts) = Fips.hash (concat parts)
  /\ length (digest (foldl update (SHA256_init buffer) parts)) = 32%nat
  /\ sha256 (concat parts) = Fips.hash (concat parts).
Proof.
  intros Hb Hbytes Hmax.
  assert (forall parts s msg, absorbed s msg -> absorbed (foldl update s parts) (msg ++ concat parts)) as Hparts.
  { clear. induction parts as [|p parts IH]; intros s msg H; [by rewrite app_nil_r|].
    cbn [foldl concat]. rewrite app_assoc. by apply IH, update_absorbed. }
  pose proof (pad_absorbed _ _ (Hparts parts _ [] (init_absorbed _ Hb)) Hmax) as H1. cbn [app] in H1.
  pose proof (pad_absorbed _ _ (update_absorbed (concat parts) _ [] (init_absorbed (repeat 0 64) eq_refl)) Hmax) as H2.
  cbn [app] in H2. rewrite <- fips_hash by done. unfold digest, sha256. rewrite H1. split_and!; [done|done|].
  unfold digest. by rewrite H2.
Qed.

(** The test vector "abc" of the standard, hashed in two parts: the code's value
    is the standard's, although a comment of tests/SHA256Test.cpp says that it
    is not. *)
Lemma sha256_incremental_witness :
  digest (foldl update (SHA256_init (repeat 7 64)) [[97]; [98; 99]]) = Fips.hash [97; 98; 99]
  /\ Fips.hash [97; 98; 99]
  = [186; 120; 22; 191; 143; 1; 207; 234; 65; 65; 64; 222; 93; 174; 34; 35;
     176; 3; 97; 163; 150; 23; 122; 156; 180; 16; 255; 97; 242; 0; 21; 173].
Proof.
  destruct (sha256_incremental (repeat 7 64) [[97]; [98; 99]] eq_refl) as [H _].
  - by repeat (constructor; [unfold is_byte; lia|]).
  - done.
  - split; [exact H|]. vm_compute. reflexivity.
Defined.
