(* ===== verification/Ripemd160.v ===== *)
(** Ripemd160: the hash behind asset ids (src/src/crypto/ripemd.c).  The unrolled
    compression function is kept instruction by instruction; the theorem shows
    that it is the table-driven definition of RIPEMD-160. *)

From S2P Require Import Prelude.

Ltac Zify.zify_post_hook ::= Z.div_mod_to_equations.

(** ** The macros *)
Definition ROL (x n : Z) : Z := Z.lor (u32 (Z.shiftl x n)) (Z.shiftr x (32 - n)).
Definition not32 (x : Z) : Z := two32 - 1 - x.

Definition F (x y z : Z) : Z := Z.lxor (Z.lxor x y) z.
Definition G (x y z : Z) : Z := Z.lor (Z.land x y) (Z.land (not32 x) z).
Definition H (x y z : Z) : Z := Z.lxor (Z.lor x (not32 y)) z.
Definition IQ (x y z : Z) : Z := Z.lor (Z.land x z) (Z.land y (not32 z)).
Definition J (x y z : Z) : Z := Z.lxor x (Z.lor y (not32 z)).

Inductive reg := aa | bb | cc | dd | ee.
Inductive macro := mFF | mGG | mHH | mII | mJJ | mFFF | mGGG | mHHH | mIII | mJJJ.

Definition macro_function (m : macro) : Z -> Z -> Z -> Z :=
  match m with
  | mFF | mFFF => F | mGG | mGGG => G | mHH | mHHH => H | mII | mIII => IQ | mJJ | mJJJ => J
  end.
Definition macro_constant (m : macro) : Z :=
  match m with
  | mFF | mFFF => 0
  | mGG => 0x5a827999 | mHH => 0x6ed9eba1 | mII => 0x8f1bbcdc | mJJ => 0xa953fd4e
  | mGGG => 0x7a6d76e9 | mHHH => 0x6d703ef3 | mIII => 0x5c4dd124 | mJJJ => 0x50a28be6
  end.

(** One instruction: the macro, its five registers, the message word and the
    rotation. *)
Record step := mk_step {
  step_macro : macro;
  step_regs : reg * reg * reg * reg * reg;
  step_word : nat;
  step_rol : Z
}.

Definition FF a b c d e x s := mk_step mFF (a, b, c, d, e) x s.
Definition GG a b c d e x s := mk_step mGG (a, b, c, d, e) x s.
Definition HH a b c d e x s := mk_step mHH (a, b, c, d, e) x s.
Definition II a b c d e x s := mk_step mII (a, b, c, d, e) x s.
Definition JJ a b c d e x s := mk_step mJJ (a, b, c, d, e) x s.
Definition FFF a b c d e x s := mk_step mFFF (a, b, c, d, e) x s.
Definition GGG a b c d e x s := mk_step mGGG (a, b, c, d, e) x s.
Definition HHH a b c d e x s := mk_step mHHH (a, b, c, d, e) x s.
Definition III a b c d e x s := mk_step mIII (a, b, c, d, e) x s.
Definition JJJ a b c d e x s := mk_step mJJJ (a, b, c, d, e) x s.

Definition left_line : list step :=
  [FF aa bb cc dd ee 0 11; FF ee aa bb cc dd 1 14; FF dd ee aa bb cc 2 15; FF cc dd ee aa bb 3 12;
   FF bb cc dd ee aa 4 5; FF aa bb cc dd ee 5 8; FF ee aa bb cc dd 6 7; FF dd ee aa bb cc 7 9;
   FF cc dd ee aa bb 8 11; FF bb cc dd ee aa 9 13; FF aa bb cc dd ee 10 14; FF ee aa bb cc dd 11 15;
   FF dd ee aa bb cc 12 6; FF cc dd ee aa bb 13 7; FF bb cc dd ee aa 14 9; FF aa bb cc dd ee 15 8;
   GG ee aa bb cc dd 7 7; GG dd ee aa bb cc 4 6; GG cc dd ee aa bb 13 8; GG bb cc dd ee aa 1 13;
   GG aa bb cc dd ee 10 11; GG ee aa bb cc dd 6 9; GG dd ee aa bb cc 15 7; GG cc dd ee aa bb 3 15;
   GG bb cc dd ee aa 12 7; GG aa bb cc dd ee 0 12; GG ee aa bb cc dd 9 15; GG dd ee aa bb cc 5 9;
   GG cc dd ee aa bb 2 11; GG bb cc dd ee aa 14 7; GG aa bb cc dd ee 11 13; GG ee aa bb cc dd 8 12;
   HH dd ee aa bb cc 3 11; HH cc dd ee aa bb 10 13; HH bb cc dd ee aa 14 6; HH aa bb cc dd ee 4 7;
   HH ee aa bb cc dd 9 14; HH dd ee aa bb cc 15 9; HH cc dd ee aa bb 8 13; HH bb cc dd ee aa 1 15;
   HH aa bb cc dd ee 2 14; HH ee aa bb cc dd 7 8; HH dd ee aa bb cc 0 13; HH cc dd ee aa bb 6 6;
   HH bb cc dd ee aa 13 5; HH aa bb cc dd ee 11 12; HH ee aa bb cc dd 5 7; HH dd ee aa bb cc 12 5;
   II cc dd ee aa bb 1 11; II bb cc dd ee aa 9 12; II aa bb cc dd ee 11 14; II ee aa bb cc dd 10 15;
   II dd ee aa bb cc 0 14; II cc dd ee aa bb 8 15; II bb cc dd ee aa 12 9; II aa bb cc dd ee 4 8;
   II ee aa bb cc dd 13 9; II dd ee aa bb cc 3 14; II cc dd ee aa bb 7 5; II bb cc dd ee aa 15 6;
   II aa bb cc dd ee 14 8; II ee aa bb cc dd 5 6; II dd ee aa bb cc 6 5; II cc dd ee aa bb 2 12;
   JJ bb cc dd ee aa 4 9; JJ aa bb cc dd ee 0 15; JJ ee aa bb cc dd 5 5; JJ dd ee aa bb cc 9 11;
   JJ cc dd ee aa bb 7 6; JJ bb cc dd ee aa 12 8; JJ aa bb cc dd ee 2 13; JJ ee aa bb cc dd 10 12;
   JJ dd ee aa bb cc 14 5; JJ cc dd ee aa bb 1 12; JJ bb cc dd ee aa 3 13; JJ aa bb cc dd ee 8 14;
   JJ ee aa bb cc dd 11 11; JJ dd ee aa bb cc 6 8; JJ cc dd ee aa bb 15 5; JJ bb cc dd ee aa 13 6].

Definition right_line : list step :=
  [JJJ aa bb cc dd ee 5 8; JJJ ee aa bb cc dd 14 9; JJJ dd ee aa bb cc 7 9; JJJ cc dd ee aa bb 0 11;
   JJJ bb cc dd ee aa 9 13; JJJ aa bb cc dd ee 2 15; JJJ ee aa bb cc dd 11 15; JJJ dd ee aa bb cc 4 5;
   JJJ cc dd ee aa bb 13 7; JJJ bb cc dd ee aa 6 7; JJJ aa bb cc dd ee 15 8; JJJ ee aa bb cc dd 8 11;
   JJJ dd ee aa bb cc 1 14; JJJ cc dd ee aa bb 10 14; JJJ bb cc dd ee aa 3 12; JJJ aa bb cc dd ee 12 6;
   III ee aa bb cc dd 6 9; III dd ee aa bb cc 11 13; III cc dd ee aa bb 3 15; III bb cc dd ee aa 7 7;
   III aa bb cc dd ee 0 12; III ee aa bb cc dd 13 8; III dd ee aa bb cc 5 9; III cc dd ee aa bb 10 11;
   III bb cc dd ee aa 14 7; III aa bb cc dd ee 15 7; III ee aa bb cc dd 8 12; III dd ee aa bb cc 12 7;
   III cc dd ee aa bb 4 6; III bb cc dd ee aa 9 15; III aa bb cc dd ee 1 13; III ee aa bb cc dd 2 11;
   HHH dd ee aa bb cc 15 9; HHH cc dd ee aa bb 5 7; HHH bb cc dd ee aa 1 15; HHH aa bb cc dd ee 3 11;
   HHH ee aa bb cc dd 7 8; HHH dd ee aa bb cc 14 6; HHH cc dd ee aa bb 6 6; HHH bb cc dd ee aa 9 14;
   HHH aa bb cc dd ee 11 12; HHH ee aa bb cc dd 8 13; HHH dd ee aa bb cc 12 5; HHH cc dd ee aa bb 2 14;
   HHH bb cc dd ee aa 10 13; HHH aa bb cc dd ee 0 13; HHH ee aa bb cc dd 4 7; HHH dd ee aa bb cc 13 5;
   GGG cc dd ee aa bb 8 15; GGG bb cc dd ee aa 6 5; GGG aa bb cc dd ee 4 8; GGG ee aa bb cc dd 1 11;
   GGG dd ee aa bb cc 3 14; GGG cc dd ee aa bb 11 14; GGG bb cc dd ee aa 15 6; GGG aa bb cc dd ee 0 14;
   GGG ee aa bb cc dd 5 6; GGG dd ee aa bb cc 12 9; GGG cc dd ee aa bb 2 12; GGG bb cc dd ee aa 13 9;
   GGG aa bb cc dd ee 9 12; GGG ee aa bb cc dd 7 5; GGG dd ee aa bb cc 10 15; GGG cc dd ee aa bb 14 8;
   FFF bb cc dd ee aa 12 8; FFF aa bb cc dd ee 15 5; FFF ee aa bb cc dd 10 12; FFF dd ee aa bb cc 4 9;
   FFF cc dd ee aa bb 1 12; FFF bb cc dd ee aa 5 5; FFF aa bb cc dd ee 8 14; FFF ee aa bb cc dd 7 6;
   FFF dd ee aa bb cc 6 8; FFF cc dd ee aa bb 2 13; FFF bb cc dd ee aa 13 6; FFF aa bb cc dd ee 14 5;
   FFF ee aa bb cc dd 0 15; FFF dd ee aa bb cc 3 13; FFF cc dd ee aa bb 9 11; FFF bb cc dd ee aa 11 11].

(** ** The registers and the execution of an instruction *)
Record regs := mk_regs { raa : Z; rbb : Z; rcc : Z; rdd : Z; ree : Z }.

Definition get_reg (r : reg) (s : regs) : Z :=
  match r with aa => raa s | bb => rbb s | cc => rcc s | dd => rdd s | ee => ree s end.
Definition set_reg (r : reg) (v : Z) (s : regs) : regs :=
  let '(mk_regs a b c d e) := s in
  match r with
  | aa => mk_regs v b c d e | bb => mk_regs a v c d e | cc => mk_regs a b v d e
  | dd => mk_regs a b c v e | ee => mk_regs a b c d v
  end.

Definition run_step (X : list Z) (s : regs) (i : step) : regs :=
  let '(a, b, c, d, e) := step_regs i in
  let m := step_macro i in
  let sum := u32 (get_reg a s + (macro_function m (get_reg b s) (get_reg c s) (get_reg d s)
                                 + nth (step_word i) X 0 + macro_constant m)) in
  let s := set_reg a sum s in
  let s := set_reg a (u32 (ROL (get_reg a s) (step_rol i) + get_reg e s)) s in
  set_reg c (ROL (get_reg c s) 10) s.

Definition compress (MDbuf : regs) (X : list Z) : regs :=
  let l := foldl (run_step X) MDbuf left_line in
  let r := foldl (run_step X) MDbuf right_line in
  mk_regs (u32 (rdd r + (rcc l + rbb MDbuf)))
          (u32 (rcc MDbuf + rdd l + ree r))
          (u32 (rdd MDbuf + ree l + raa r))
          (u32 (ree MDbuf + raa l + rbb r))
          (u32 (raa MDbuf + rbb l + rcc r)).

(** ** The message *)
Definition initial_digest : regs := mk_regs 0x67452301 0xefcdab89 0x98badcfe 0x10325476 0xc3d2e1f0.

Fixpoint chunk_words (msg : list Z) : list Z :=
  match msg with
  | a :: b :: c :: d :: msg =>
      Z.lor (Z.lor (Z.lor a (Z.shiftl b 8)) (Z.shiftl c 16)) (Z.shiftl d 24) :: chunk_words msg
  | _ => []
  end.

Fixpoint full_chunks (count : nat) (digest : regs) (msg : list Z) : regs * list Z :=
  match count with
  | O => (digest, msg)
  | S count => full_chunks count (compress digest (chunk_words (take 64 msg))) (drop 64 msg)
  end.

Definition xor_word (i : nat) (v : Z) (chunk : list Z) : list Z := alter (fun w => Z.lxor w v) i chunk.

Fixpoint last_bytes (i : Z) (msg chunk : list Z) : list Z :=
  match msg with
  | [] => chunk
  | b :: msg =>
      last_bytes (i + 1) msg
        (xor_word (Z.to_nat (Z.shiftr i 2)) (u32 (Z.shiftl b (Z.shiftl (Z.land i 3) 3))) chunk)
  end.

Definition word_bytes_le (w : Z) : list Z :=
  [u8 w; u8 (Z.shiftr w 8); u8 (Z.shiftr w 16); u8 (Z.shiftr w 24)].

Definition ripemd160 (msg : list Z) (msg_len : Z) : list Z :=
  let '(digest, msg) := full_chunks (Z.to_nat (Z.shiftr msg_len 6)) initial_digest msg in
  let chunk := last_bytes 0 (take (Z.to_nat (Z.land msg_len 63)) msg) (repeat 0 16) in
  let chunk := xor_word (Z.to_nat (Z.land (Z.shiftr msg_len 2) 15))
                 (u32 (Z.shiftl 1 (8 * Z.land msg_len 3 + 7))) chunk in
  let '(digest, chunk) :=
    if 55 <? Z.land msg_len 63 then (compress digest chunk, repeat 0 16) else (digest, chunk) in
  let chunk := <[14%nat := u32 (Z.shiftl msg_len 3)]> chunk in
  let chunk := <[15%nat := Z.shiftr msg_len 29]> chunk in
  let '(mk_regs a b c d e) := compress digest chunk in
  concat (map word_bytes_le [a; b; c; d; e]).

(** ** RIPEMD-160 by its tables *)
Definition r_left : list nat :=
  [0;1;2;3;4;5;6;7;8;9;10;11;12;13;14;15; 7;4;13;1;10;6;15;3;12;0;9;5;2;14;11;8;
   3;10;14;4;9;15;8;1;2;7;0;6;13;11;5;12; 1;9;11;10;0;8;12;4;13;3;7;15;14;5;6;2;
   4;0;5;9;7;12;2;10;14;1;3;8;11;6;15;13]%nat.
Definition r_right : list nat :=
  [5;14;7;0;9;2;11;4;13;6;15;8;1;10;3;12; 6;11;3;7;0;13;5;10;14;15;8;12;4;9;1;2;
   15;5;1;3;7;14;6;9;11;8;12;2;10;0;4;13; 8;6;4;1;3;11;15;0;5;12;2;13;9;7;10;14;
   12;15;10;4;1;5;8;7;6;2;13;14;0;3;9;11]%nat.
Definition s_left : list Z :=
  [11;14;15;12;5;8;7;9;11;13;14;15;6;7;9;8; 7;6;8;13;11;9;7;15;7;12;15;9;11;7;13;12;
   11;13;6;7;14;9;13;15;14;8;13;6;5;12;7;5; 11;12;14;15;14;15;9;8;9;14;5;6;8;6;5;12;
   9;15;5;11;6;8;13;12;5;12;13;14;11;8;5;6].
Definition s_right : list Z :=
  [8;9;9;11;13;15;15;5;7;7;8;11;14;14;12;6; 9;13;15;7;12;8;9;11;7;7;12;7;6;15;13;11;
   9;7;15;11;8;6;6;14;12;13;5;14;13;13;7;5; 15;5;8;11;14;14;6;14;6;9;12;9;12;5;15;8;
   8;5;12;9;12;5;14;6;8;13;6;5;15;13;11;11].
(** f(j): rounds of sixteen steps; the right line runs them backwards. *)
Definition f_spec (j : nat) : Z -> Z -> Z -> Z :=
  match (j / 16)%nat with O => F | 1%nat => G | 2%nat => H | 3%nat => IQ | _ => J end.
Definition k_left (j : nat) : Z :=
  match (j / 16)%nat with
  | O => 0 | 1%nat => 0x5a827999 | 2%nat => 0x6ed9eba1 | 3%nat => 0x8f1bbcdc | _ => 0xa953fd4e end.
Definition k_right (j : nat) : Z :=
  match (j / 16)%nat with
  | O => 0x50a28be6 | 1%nat => 0x5c4dd124 | 2%nat => 0x6d703ef3 | 3%nat => 0x7a6d76e9 | _ => 0 end.

(** T := rol_s(A + f(j, B, C, D) + X[r(j)] + K(j)) + E;
    A := E; E := D; D := rol_10(C); C := B; B := T *)
Definition spec_step (f : nat -> Z -> Z -> Z -> Z) (k : nat -> Z) (r : list nat) (s : list Z)
    (X : list Z) (v : regs) (j : nat) : regs :=
  let '(mk_regs A B C D E) := v in
  let T := u32 (ROL (u32 (A + f j B C D + nth (nth j r 0%nat) X 0 + k j)) (nth j s 0) + E) in
  mk_regs E T B (ROL C 10) D.

Definition compress_spec (h : regs) (X : list Z) : regs :=
  let l := foldl (spec_step f_spec k_left r_left s_left X) h (seq 0 80) in
  let r := foldl (spec_step (fun j => f_spec (79 - j)) k_right r_right s_right X) h (seq 0 80) in
  mk_regs (u32 (rbb h + rcc l + rdd r)) (u32 (rcc h + rdd l + ree r)) (u32 (rdd h + ree l + raa r))
          (u32 (ree h + raa l + rbb r)) (u32 (raa h + rbb l + rcc r)).

(** ** The unrolled code is the table-driven definition *)

(** The code leaves the values in place and rotates the names instead. *)
Definition rotate_roles (p : reg * reg * reg * reg * reg) : reg * reg * reg * reg * reg :=
  let '(a, b, c, d, e) := p in (e, a, b, c, d).
Fixpoint roles (k : nat) : reg * reg * reg * reg * reg :=
  match k with O => (aa, bb, cc, dd, ee) | S k => rotate_roles (roles k) end.

Definition view (p : reg * reg * reg * reg * reg) (s : regs) : regs :=
  let '(a, b, c, d, e) := p in
  mk_regs (get_reg a s) (get_reg b s) (get_reg c s) (get_reg d s) (get_reg e s).

Definition macro_left (j : nat) : macro :=
  match (j / 16)%nat with O => mFF | 1%nat => mGG | 2%nat => mHH | 3%nat => mII | _ => mJJ end.
Definition macro_right (j : nat) : macro :=
  match (j / 16)%nat with O => mJJJ | 1%nat => mIII | 2%nat => mHHH | 3%nat => mGGG | _ => mFFF end.

Lemma lines_tables :
  left_line = map (fun j => mk_step (macro_left j) (roles j) (nth j r_left 0%nat) (nth j s_left 0)) (seq 0 80)
  /\ right_line = map (fun j => mk_step (macro_right j) (roles j) (nth j r_right 0%nat) (nth j s_right 0)) (seq 0 80).
Proof. split; vm_compute; reflexivity. Qed.

Lemma roles_cases k :
  roles k = (aa, bb, cc, dd, ee) \/ roles k = (ee, aa, bb, cc, dd) \/ roles k = (dd, ee, aa, bb, cc)
  \/ roles k = (cc, dd, ee, aa, bb) \/ roles k = (bb, cc, dd, ee, aa).
Proof.
  induction k as [|k IH]; [by left|]. cbn [roles].
  destruct IH as [->|[->|[->|[->| ->]]]]; cbn; tauto.
Qed.

Lemma run_step_view X s j m r t f k (x : list nat) (y : list Z) :
  macro_function m = f j -> macro_constant m = k j -> nth j x 0%nat = r -> nth j y 0 = t ->
  view (roles (S j)) (run_step X s (mk_step m (roles j) r t)) = spec_step f k x y X (view (roles j) s) j.
Proof.
  intros Hf Hk Hr Ht. cbn [roles]. unfold run_step, spec_step. cbn [step_regs step_macro step_word step_rol].
  rewrite Hf, Hk, <- Hr, <- Ht. destruct s as [a b c d e].
  destruct (roles_cases j) as [->|[->|[->|[->| ->]]]];
    cbn [rotate_roles view get_reg set_reg raa rbb rcc rdd ree];
    f_equal; f_equal; f_equal; f_equal; f_equal; lia.
Qed.

Lemma run_line X m f k x y :
  (forall j, (j < 80)%nat -> macro_function (m j) = f j /\ macro_constant (m j) = k j) ->
  forall n j s, (j + n <= 80)%nat ->
  view (roles (j + n))
    (foldl (run_step X) s (map (fun j => mk_step (m j) (roles j) (nth j x 0%nat) (nth j y 0)) (seq j n)))
  = foldl (spec_step f k x y X) (view (roles j) s) (seq j n).
Proof.
  intros Hm n. induction n as [|n IH]; intros j s Hn.
  - by rewrite Nat.add_0_r.
  - cbn [seq map foldl]. replace (j + S n)%nat with (S j + n)%nat by lia. rewrite IH by lia.
    destruct (Hm j ltac:(lia)) as [Hf Hk]. by rewrite (run_step_view X s j (m j) _ _ f k x y).
Qed.

Lemma round_tables j :
  (j < 80)%nat ->
  (macro_function (macro_left j) = f_spec j /\ macro_constant (macro_left j) = k_left j)
  /\ (macro_function (macro_right j) = f_spec (79 - j) /\ macro_constant (macro_right j) = k_right j).
Proof.
  intros Hj. unfold macro_left, macro_right, f_spec, k_left, k_right.
  assert ((79 - j) / 16 = 4 - j / 16)%nat as ->.
  { pose proof (Nat.div_mod j 16 ltac:(lia)). pose proof (Nat.mod_upper_bound j 16 ltac:(lia)).
    symmetry. apply (Nat.div_unique _ _ _ (15 - j mod 16)%nat); lia. }
  assert (j / 16 < 5)%nat by (apply Nat.Div0.div_lt_upper_bound; lia).
  destruct (j / 16)%nat as [|[|[|[|[|?]]]]]; try done; lia.
Qed.

(** The unrolled compression function of ripemd.c computes the table-driven
    RIPEMD-160 compression on every chaining value and message block: its 160
    macro calls use the right function, constant, message word, rotation and
    register roles. *)
Theorem ripemd160_compress_spec MDbuf X : compress MDbuf X = compress_spec MDbuf X.
Proof.
  assert (forall s, view (roles 0) s = s) as V0 by (by intros []).
  assert (forall s, view (roles 80) s = s) as V80 by (by intros []).
  unfold compress, compress_spec. destruct lines_tables as [-> ->].
  pose proof (run_line X macro_left f_spec k_left r_left s_left
                (fun j Hj => proj1 (round_tables j Hj)) 80 0 MDbuf ltac:(lia)) as Hl.
  pose proof (run_line X macro_right (fun j => f_spec (79 - j)) k_right r_right s_right
                (fun j Hj => proj2 (round_tables j Hj)) 80 0 MDbuf ltac:(lia)) as Hr.
  rewrite (V80 _ : view (roles (0 + 80)) _ = _), V0 in Hl.
  rewrite (V80 _ : view (roles (0 + 80)) _ = _), V0 in Hr.
  rewrite Hl, Hr. f_equal; f_equal; lia.
Qed.

(** The published test vector "abc". *)
Lemma ripemd160_abc :
  ripemd160 [97; 98; 99] 3
  = [142; 178; 8; 247; 224; 93; 152; 122; 155; 4; 74; 142; 152; 198; 176; 135; 241; 90; 11; 252].
Proof. vm_compute. reflexivity. Qed.
