(* ===== verification/Database.v ===== *)
(** Database: the chain lookups that asset decoding depends on
    (src/src/Database.cpp).

    SQLite, DigiByte Core's RPC and the IEEE arithmetic of doubles are not part
    of the repository.  [Sqlite] is the interface of the first two: what the
    prepared SELECT statements return on the stored chain, and what Core answers
    for a transaction.  Doubles are the Standard Library's [spec_float]. *)

From Stdlib Require Import Floats.SpecFloat.
From S2P Require Import Prelude.
From S2P Require Import BitIO.
From S2P Require Import BitIOCodec.
From S2P Require Import Serialize.
From S2P Require Import AssetTypes.
From S2P Require Import DigiAssetRules.
From S2P Require Import KYC.
From S2P Require Import Blob.

(** ** Doubles *)
Definition double : Type := spec_float.
Definition double_of_Z (z : positive) : double := S754_finite false z 0.
Definition infinity : double := S754_infinity false.

(** [floor] followed by the conversion to [uint64_t], undefined outside its
    range. *)
Definition floor_u64 (d : double) : outcome Z :=
  let floor :=
    match d with
    | S754_zero _ => Some 0
    | S754_finite s m e =>
        let v := if s then Zneg m else Zpos m in
        Some (if 0 <=? e then v * 2 ^ e else v / 2 ^ (- e))
    | _ => None
    end in
  match floor with
  | Some z => if (0 <=? z) && (z <? two64) then Ok z else UB
  | None => UB
  end.

(** ** Statement results and Core *)
Class Sqlite := {
  (** SELECT assetIndex,heightCreated FROM assets WHERE assetId=? *)
  stmtGetHeightAssetCreated : string -> option (Z * Z);
  (** SELECT rules FROM assets WHERE assetId=? *)
  stmtGetAssetRules : string -> option (list Z);
  (** SELECT address FROM utxos WHERE txid=? AND vout=? *)
  stmtGetSpendingAddress : Blob -> Z -> option string;
  (** SELECT country,name,hash,height,revoked FROM kyc WHERE address=? *)
  stmtGetKYC : string -> option (string * string * Blob * Z * Z);
  (** SELECT value, height FROM exchange WHERE height<? AND address=? AND [index]=? ORDER BY height DESC *)
  stmtGetValidExchangeRate : Z -> string -> Z -> list (double * Z);
  (** SELECT assetId,cid,issueAddress,rules,heightCreated,heightUpdated FROM assets WHERE assetIndex=? *)
  stmtGetAsset : Z -> option (string * string * string * list Z * Z * Z);
  (** SELECT address FROM exchangeWatch WHERE address=? *)
  stmtIsWatchAddress : string -> bool;
  beenPrunedNonAssetUTXOHistory : bool;
  beenPrunedUTXOHistory : Z;
  digiByteCoreSet : bool;
  getRawTransaction : string -> outcome getrawtransaction_t;
  (** the height of getBlock(hash) *)
  getBlockHeight : string -> outcome Z;
  (** memory for the vectors of a deserialized value *)
  allocatable : Z -> bool
}.

Section lookups.
Context `{db : Sqlite}.

Definition exceptionFailedSelect {A} : outcome A := Throw (class_exception "Database::exceptionFailedSelect" "").

Definition getRules (assetId : string) : outcome DigiAssetRules :=
  match stmtGetAssetRules assetId with
  | None => Ok default_rules
  | Some serializedRules => fst (deserialize_rules allocatable serializedRules default_rules 0)
  end.

(** Returns the height and the index the caller's variable holds afterwards. *)
Definition getAssetHeightCreated (assetId : string) (backupHeight assetIndex : Z) : Z * Z :=
  match stmtGetHeightAssetCreated assetId with
  | Some (index, height) => (u32 height, u64 index)
  | None => (backupHeight, assetIndex)
  end.

Definition getSendingAddress (txid : string) (vout_index : Z) : outcome string :=
  blobTXID ← Blob_of_hex txid;
  match stmtGetSpendingAddress blobTXID (i32 vout_index) with
  | Some address => Ok address
  | None =>
      if digiByteCoreSet && beenPrunedNonAssetUTXOHistory then
        txData ← getRawTransaction txid;
        o ← fst (vec_at (vout txData) vout_index tt);
        match addresses (scriptPubKey o) with
        | [address] => Ok address
        | _ => exceptionFailedSelect
        end
      else exceptionFailedSelect
  end.

Definition getAddressKYC (address : string) : KYC :=
  match stmtGetKYC address with
  | None => KYC_of_address address
  | Some (country, name, hash, height, revoked) =>
      KYC_stored address country name (toHex hash) (u32 height) (i32 revoked)
  end.

Definition isWatchAddress (address : string) : bool := stmtIsWatchAddress address.

(** The loop over the samples, newest first. *)
Fixpoint min_rate (height : Z) (samples : list (double * Z)) (min : double) : double :=
  match samples with
  | [] => min
  | (currentRate, sampleHeight) :: samples =>
      let min := if SFltb currentRate min then currentRate else min in
      if u32 sampleHeight <=? u32 (height - 240) then min else min_rate height samples min
  end.

Definition getAcceptedExchangeRate (rate : ExchangeRate.t) (height : Z) : outcome double :=
  if negb (ExchangeRate.enabled rate) then Ok (double_of_Z 100000000)
  else if (16562773 <=? height) && (height <=? 16562782) && (ExchangeRate.index rate =? 1)
          && bool_decide (ExchangeRate.address rate = "dgb1qunxh378eltj2jrwza5sj9grvu5xud43vqvudwh")
  then Ok (double_of_Z 9032962000)
  else
    let min := min_rate height
                 (stmtGetValidExchangeRate height (ExchangeRate.address rate) (ExchangeRate.index rate))
                 infinity in
    if SFeqb min infinity then Throw (out_of_range "Unknown Exchange Rate") else Ok min.
End lookups.

(** A chain without rows and without Core. *)
Definition sample_db : Sqlite := {|
  stmtGetHeightAssetCreated := fun _ => None;
  stmtGetAssetRules := fun _ => None;
  stmtGetSpendingAddress := fun _ _ => None;
  stmtGetKYC := fun _ => None;
  stmtGetValidExchangeRate := fun _ _ _ => [];
  stmtGetAsset := fun _ => None;
  stmtIsWatchAddress := fun _ => false;
  beenPrunedNonAssetUTXOHistory := false;
  beenPrunedUTXOHistory := 0;
  digiByteCoreSet := false;
  getRawTransaction := fun _ => Throw length_error;
  getBlockHeight := fun _ => Ok 0;
  allocatable := fun _ => true
|}.
