(* ===== verification/DigiDollar.v ===== *)
(** DigiDollar: the stable-coin metadata, oracle commitments and addresses
    (src/src/DigiDollar.cpp). *)

From S2P Require Import Prelude.
From S2P Require Import BitIOCodec.
From S2P Require Import AssetTypes.
From S2P Require Import Base58.
From S2P Require Import Blob.
From S2P Require Import DigiAssetRules.
From S2P Require SHA256.

Ltac Zify.zify_post_hook ::= Z.div_mod_to_equations.

(** ** Scripts as chunks *)
Definition OP_RETURN_BYTE : Z := 0x6a.
Definition OP_ORACLE_BYTE : Z := 0xbf.
Definition OP_PUSHDATA1 : Z := 0x4c.
Definition OP_PUSHDATA2 : Z := 0x4d.
Definition OP_PUSHDATA4 : Z := 0x4e.
Definition OP_0 : Z := 0.
Definition OP_1NEGATE : Z := 0x4f.
Definition OP_1 : Z := 0x51.
Definition OP_16 : Z := 0x60.

(** A push, or the number of a compact-integer opcode ([isNumber]). *)
Inductive ScriptChunk :=
  | pushed (data : list Z)
  | number (value : Z).

Definition isNumber (c : ScriptChunk) : bool := match c with number _ => true | _ => false end.
Definition chunk_data (c : ScriptChunk) : list Z := match c with pushed d => d | number _ => [] end.

(** Little-endian bytes. *)
Fixpoint little_endian (bytes : list Z) : Z :=
  match bytes with [] => 0 | b :: bytes => Z.lor b (Z.shiftl (little_endian bytes) 8) end.

Inductive opcode_kind :=
  | op_push (length : Z) (header : nat)  (** data push and the bytes of its header *)
  | op_number (value : Z)
  | op_bad.

(** What the opcode at the start of [script] is; a truncated length is bad. *)
Definition read_opcode (script : list Z) : opcode_kind :=
  match script with
  | [] => op_bad
  | op :: rest =>
      if op <? OP_PUSHDATA1 then op_push op 1
      else if op =? OP_PUSHDATA1 then
        if (length rest <? 1)%nat then op_bad else op_push (little_endian (take 1 rest)) 2
      else if op =? OP_PUSHDATA2 then
        if (length rest <? 2)%nat then op_bad else op_push (little_endian (take 2 rest)) 3
      else if op =? OP_PUSHDATA4 then
        if (length rest <? 4)%nat then op_bad else op_push (little_endian (take 4 rest)) 5
      else if op =? OP_0 then op_number 0
      else if op =? OP_1NEGATE then op_number (-1)
      else if (OP_1 <=? op) && (op <=? OP_16) then op_number (op - (OP_1 - 1))
      else op_bad
  end.

(** The loop over the unread part of the script; every turn consumes at least
    its opcode, so the length is enough fuel. *)
Fixpoint split_chunks (fuel : nat) (script : list Z) : option (list ScriptChunk) :=
  match script with
  | [] => Some []
  | _ =>
      match fuel with
      | O => None
      | S fuel =>
          match read_opcode script with
          | op_bad => None
          | op_number v => cons (number v) <$> split_chunks fuel (drop 1 script)
          | op_push n header =>
              let body := drop header script in
              if Z.of_nat (length body) <? n then None
              else cons (pushed (take (Z.to_nat n) body)) <$> split_chunks fuel (drop (Z.to_nat n) body)
          end
      end
  end.

Definition splitScript (script : list Z) (start : nat) : option (list ScriptChunk) :=
  let rest := drop start script in split_chunks (length rest) rest.

(** CScriptNum: little endian, sign in the top bit of the last byte. *)
Definition chunkToInt (c : ScriptChunk) : option Z :=
  match c with
  | number v => Some v
  | pushed data =>
      match last data with
      | None => Some 0
      | Some back =>
          if (8 <? length data)%nat then None
          else
            let result := little_endian data in
            if negb (Z.land back 0x80 =? 0)
            then Some (- Z.ldiff result (Z.shiftl 0x80 (8 * (Z.of_nat (length data) - 1))))
            else Some result
      end
  end.

(** An empty, odd or non-hex text has no bytes. *)
Definition hexToBytes (hex : string) : list Z :=
  if bool_decide (hex = ""%string) || negb (Z.of_nat (length (chars hex)) mod 2 =? 0) then []
  else match Blob_of_hex hex with Ok b => b | _ => [] end.

Definition isTaprootScript (script : list Z) : bool :=
  (length script =? 34)%nat && (nth 0 script 0 =? OP_1) && (nth 1 script 0 =? 32).

Definition isTaprootOutput (output : vout_t) : bool :=
  let type := script_type (scriptPubKey output) in
  if bool_decide (type = "witness_v1_taproot"%string) then true
  else if negb (bool_decide (type = ""%string)) && negb (bool_decide (type = "nonstandard"%string)) then false
  else isTaprootScript (hexToBytes (script_hex (scriptPubKey output))).

(** ** Transaction type and metadata *)
Inductive TxType := TX_NONE | TX_MINT | TX_TRANSFER | TX_REDEEM.
#[global] Instance TxType_eq_dec : EqDecision TxType.
Proof. solve_decision. Defined.
Definition TxType_code (t : TxType) : Z :=
  match t with TX_NONE => 0 | TX_MINT => 1 | TX_TRANSFER => 2 | TX_REDEEM => 3 end.

Definition isDigiDollarVersion (version : Z) : bool :=
  Z.land version DIGIDOLLAR_VERSION_MASK =? DIGIDOLLAR_VERSION_MARKER.

Definition typeFromVersion (version : Z) : TxType :=
  if negb (isDigiDollarVersion version) then TX_NONE
  else
    let type := Z.land (Z.shiftr (u32 version) 24) 0xFF in
    if type =? 1 then TX_MINT else if type =? 2 then TX_TRANSFER else if type =? 3 then TX_REDEEM
    else TX_NONE.

Record Metadata := mk_Metadata {
  md_type : TxType;
  amounts : list Z;
  lockHeight : Z;
  lockTier : Z;
  ownerKey : string
}.

Definition mint_metadata (chunks : list ScriptChunk) : option Metadata :=
  match chunks with
  | _ :: _ :: c2 :: c3 :: c4 :: c5 :: _ =>
      amount ← chunkToInt c2;
      if amount <=? 0 then None
      else
        height ← chunkToInt c3;
        if height <? 0 then None
        else
          tier ← chunkToInt c4;
          if (tier <? 0) || (9 <? tier) then None
          else if isNumber c5 || negb (length (chunk_data c5) =? 32)%nat then None
          else Some (mk_Metadata TX_MINT [u64 amount] (u64 height) (u8 tier) (toHex (chunk_data c5)))
  | _ => None
  end.

Fixpoint read_amounts (chunks : list ScriptChunk) : option (list Z) :=
  match chunks with
  | [] => Some []
  | c :: chunks =>
      amount ← chunkToInt c;
      if amount <? 0 then None else cons (u64 amount) <$> read_amounts chunks
  end.

Definition is_marker (c : ScriptChunk) : bool :=
  match c with pushed [d1; d2] => (d1 =? 68) && (d2 =? 68) | _ => false end.

(** What one output says: not the metadata ([None], the search continues), or
    the final answer of [decodeMetadata]. *)
Definition output_metadata (versionType : TxType) (output : vout_t) : option (option Metadata) :=
  if negb (bool_decide (script_type (scriptPubKey output) = "nulldata"%string)) then None
  else
    let script := hexToBytes (script_hex (scriptPubKey output)) in
    if (length script <? 4)%nat then None
    else if negb (nth 0 script 0 =? OP_RETURN_BYTE) then None
    else
      match splitScript script 1 with
      | Some (c0 :: c1 :: more) =>
          if negb (is_marker c0) then None
          else
            match chunkToInt c1 with
            | None => None
            | Some rawType =>
                if negb (rawType =? TxType_code versionType) then Some None
                else if bool_decide (versionType = TX_MINT) then Some (mint_metadata (c0 :: c1 :: more))
                else
                  Some (amounts ← read_amounts more;
                        if bool_decide (amounts = []) && bool_decide (versionType = TX_TRANSFER) then None
                        else Some (mk_Metadata versionType amounts 0 0 ""))
            end
      | _ => None
      end.

Fixpoint find_metadata (versionType : TxType) (outputs : list vout_t) : option Metadata :=
  match outputs with
  | [] =>
      if bool_decide (versionType = TX_REDEEM) then Some (mk_Metadata TX_REDEEM [] 0 0 "") else None
  | output :: outputs =>
      match output_metadata versionType output with
      | Some answer => answer
      | None => find_metadata versionType outputs
      end
  end.

Definition decodeMetadata (txData : getrawtransaction_t) (height : Z) : option Metadata :=
  if height <? DIGIDOLLAR_ACTIVATION_HEIGHT then None
  else
    let versionType := typeFromVersion (tx_version txData) in
    if bool_decide (versionType = TX_NONE) then None
    else find_metadata versionType (vout txData).

(** ** Outputs *)
Definition mapAmountsToOutputs (txData : getrawtransaction_t) (metadata : Metadata) : list (Z * Z) :=
  if bool_decide (amounts metadata = []) then []
  else
    let ddOutputs :=
      u16 <$> (vout_n <$> filter (fun o => valueS o = 0 /\ isTaprootOutput o = true) (vout txData)) in
    if negb (length ddOutputs =? length (amounts metadata))%nat then []
    else filter (fun p => p.2 <> 0) (zip ddOutputs (amounts metadata)).

Fixpoint find_vault (outputs : list vout_t) (found : Z) : Z :=
  match outputs with
  | [] => found
  | o :: outputs =>
      if valueS o =? 0 then find_vault outputs found
      else if negb (isTaprootOutput o) then find_vault outputs found
      else if negb (found =? -1) then -1
      else find_vault outputs (i32 (vout_n o))
  end.
Definition findVaultOutput (txData : getrawtransaction_t) : Z := find_vault (vout txData) (-1).

(** ** Oracle commitments *)
Record OracleCommitment := mk_Oracle {
  epoch : Z;
  price : Z;
  timestamp : Z;
  participants : Z;
  version : Z
}.

Definition isOracleCommitmentScript (scriptHex : string) : bool :=
  let script := hexToBytes scriptHex in
  (4 <=? length script)%nat && (nth 0 script 0 =? OP_RETURN_BYTE) && (nth 1 script 0 =? OP_ORACLE_BYTE).

Definition readLE (bytes : nat) (data : list Z) (offset : nat) : Z := little_endian (take bytes (drop offset data)).

(** Bits set in a byte, added up in eight bits. *)
Definition popcount (byte : Z) : Z :=
  foldr (fun i acc => Z.b2z (Z.testbit byte i) + acc) 0 [0; 1; 2; 3; 4; 5; 6; 7].
Definition count_participants (bitmap : list Z) : Z :=
  foldl (fun acc byte => u8 (acc + popcount byte)) 0 bitmap.

Definition i64 (z : Z) : Z := (z + 2 ^ 63) mod two64 - 2 ^ 63.

Definition decodeOracleCommitment (scriptHex : string) : option OracleCommitment :=
  let script := hexToBytes scriptHex in
  if negb (isOracleCommitmentScript scriptHex) then None
  else
    match splitScript script 2 with
    | None => None
    | Some chunks =>
        if existsb isNumber chunks then None
        else
          let data := concat (map chunk_data chunks) in
          if (length data <? 87)%nat then None
          else if negb (nth 0 data 0 =? 3) then None
          else
            let bitmapLength := nth 1 data 0 in
            if bitmapLength =? 0 then None
            else if negb (Z.of_nat (length data) =? 1 + 1 + bitmapLength + 4 + 8 + 8 + 64) then None
            else
              let offset := (2 + Z.to_nat bitmapLength)%nat in
              let price := readLE 8 data (offset + 4) in
              if price =? 0 then None
              else Some (mk_Oracle (readLE 4 data offset) price (i64 (readLE 8 data (offset + 12)))
                           (count_participants (take (Z.to_nat bitmapLength) (drop 2 data))) (nth 0 data 0))
    end.

Fixpoint find_oracle (outputs : list vout_t) : option OracleCommitment :=
  match outputs with
  | [] => None
  | output :: outputs =>
      if negb (isOracleCommitmentScript (script_hex (scriptPubKey output))) then find_oracle outputs
      else
        match decodeOracleCommitment (script_hex (scriptPubKey output)) with
        | Some commitment => Some commitment
        | None => find_oracle outputs
        end
  end.
Definition findOracleCommitment (coinbase : getrawtransaction_t) : option OracleCommitment :=
  find_oracle (vout coinbase).

(** ** Addresses: bech32m for the taproot form, Base58Check for the DD form *)
Definition BECH32_CHARSET : list ascii := chars "qpzry9x8gf2tvdw0s3jn54khce6mua7l".
Definition BECH32M_CONST : Z := 0x2bc830a3.

(** Human-readable part and the two version bytes. *)
Definition DD_NETWORKS : list (string * (Z * Z)) :=
  [("dgb"%string, (0x52, 0x85)); ("dgbt"%string, (0xb1, 0x29)); ("dgbrt"%string, (0xa3, 0xa4))].

Definition GEN : list Z := [0x3b6a57b2; 0x26508e6d; 0x1ea119fa; 0x3d4233dd; 0x2a1462b3].

(** [if ((top >> i) & 1) chk ^= GEN[i]] for the generators from [i] on. *)
Fixpoint xor_generators (top i : Z) (gen : list Z) (chk : Z) : Z :=
  match gen with
  | [] => chk
  | g :: gen => xor_generators top (i + 1) gen (if Z.testbit top i then Z.lxor chk g else chk)
  end.

Definition polymod_step (chk v : Z) : Z :=
  let top := u8 (Z.shiftr chk 25) in
  xor_generators top 0 GEN (Z.lxor (u32 (Z.shiftl (Z.land chk 0x1ffffff) 5)) v).

Definition bech32Polymod (values : list Z) : Z := foldl polymod_step 1 values.

Definition bech32HrpExpand (hrp : string) : list Z :=
  map (fun c => Z.shiftr (byteZ c) 5) (chars hrp) ++ [0] ++ map (fun c => Z.land (byteZ c) 31) (chars hrp).

(** The inner loop of [convertBits]: groups of [toBits] bits taken from the
    accumulator; [bits] drops by [toBits] each turn. *)
Fixpoint take_groups (fuel : nat) (acc bits toBits : Z) : list Z * Z :=
  match fuel with
  | O => ([], bits)
  | S fuel =>
      if bits <? toBits then ([], bits)
      else
        let bits := bits - toBits in
        let '(out, bits') := take_groups fuel acc bits toBits in
        (u8 (Z.land (Z.shiftr acc bits) (Z.ones toBits)) :: out, bits')
  end.

Fixpoint convert_bits_from (values : list Z) (fromBits toBits : Z) (pad : bool) (acc bits : Z)
    : option (list Z) :=
  match values with
  | [] =>
      let rest := u8 (Z.land (u32 (Z.shiftl acc (toBits - bits))) (Z.ones toBits)) in
      if pad then Some (if 0 <? bits then [rest] else [])
      else if (fromBits <=? bits) || negb (rest =? 0) then None
      else Some []
  | value :: values =>
      if negb (Z.shiftr value fromBits =? 0) then None
      else
        let acc := Z.lor (u32 (Z.shiftl acc fromBits)) value in
        let '(out, bits) := take_groups (Z.to_nat (bits + fromBits)) acc (bits + fromBits) toBits in
        app out <$> convert_bits_from values fromBits toBits pad acc bits
  end.

Definition convertBits (values : list Z) (fromBits toBits : Z) (pad : bool) : option (list Z) :=
  convert_bits_from values fromBits toBits pad 0 0.

(** The text before and after its last '1' ([s.rfind('1')]). *)
Fixpoint split_last (sep : ascii) (l : list ascii) : option (list ascii * list ascii) :=
  match l with
  | [] => None
  | c :: l =>
      match split_last sep l with
      | Some (a, b) => Some (c :: a, b)
      | None => if Ascii.eqb c sep then Some ([], l) else None
      end
  end.

Definition is_lower (c : ascii) : bool := (97 <=? byteZ c) && (byteZ c <=? 122).
Definition is_upper (c : ascii) : bool := (65 <=? byteZ c) && (byteZ c <=? 90).
Definition is_printable (c : ascii) : bool := (33 <=? byteZ c) && (byteZ c <=? 126).

Fixpoint charset_values (l : list ascii) : option (list Z) :=
  match l with
  | [] => Some []
  | c :: l => v ← find_char c BECH32_CHARSET; cons v <$> charset_values l
  end.

Definition decodeTaproot (addr : string) : option (string * list Z) :=
  let a := chars addr in
  if (length a <? 8)%nat || (90 <? length a)%nat then None
  else if negb (forallb is_printable a) then None
  else if existsb is_lower a && existsb is_upper a then None
  else
    match split_last "1"%char (map tolower a) with
    | None => None
    | Some (h, d) =>
        if is_empty h || (length d <? 6)%nat then None
        else
          data ← charset_values d;
          if negb (bech32Polymod (bech32HrpExpand (str h) ++ data) =? BECH32M_CONST) then None
          else
            match take (length data - 6) data with
            | 1 :: groups =>
                program ← convertBits groups 5 8 false;
                if negb (length program =? 32)%nat then None else Some (str h, program)
            | _ => None
            end
    end.

Definition checksum_digits (chk : Z) : list Z :=
  map (fun i => Z.land (Z.shiftr chk (5 * (5 - i))) 31) [0; 1; 2; 3; 4; 5].

Definition bech32_char (v : Z) : ascii := nth (Z.to_nat v) BECH32_CHARSET "q"%char.

Definition encodeTaproot (hrp : string) (program : list Z) : string :=
  let data := 1 :: default [] (convertBits program 8 5 true) in
  let chk := Z.lxor (bech32Polymod (bech32HrpExpand hrp ++ data ++ repeat 0 6)) BECH32M_CONST in
  str (chars hrp ++ "1"%char :: map bech32_char (data ++ checksum_digits chk)).

Definition doubleSha256 (data : list Z) : list Z := SHA256.sha256 (SHA256.sha256 data).

Fixpoint network_of_hrp (hrp : string) (networks : list (string * (Z * Z))) : option (Z * Z) :=
  match networks with
  | [] => None
  | (h, v) :: networks => if bool_decide (hrp = h) then Some v else network_of_hrp hrp networks
  end.
Fixpoint network_of_version (v0 v1 : Z) (networks : list (string * (Z * Z))) : option string :=
  match networks with
  | [] => None
  | (h, (n0, n1)) :: networks =>
      if (v0 =? n0) && (v1 =? n1) then Some h else network_of_version v0 v1 networks
  end.

Definition toDigiDollarAddress (taprootAddress : string) : outcome string :=
  match decodeTaproot taprootAddress with
  | None => Ok ""%string
  | Some (hrp, program) =>
      match network_of_hrp hrp DD_NETWORKS with
      | None => Ok ""%string
      | Some (v0, v1) =>
          let payload := v0 :: v1 :: program in
          Base58.encode (payload ++ take 4 (doubleSha256 payload))
      end
  end.

Definition fromDigiDollarAddress (ddAddress : string) : outcome string :=
  let a := chars ddAddress in
  if is_empty a || (64 <? length a)%nat then Ok ""%string
  else if negb (forallb (fun c => bool_decide (c ∈ base58Map)) a) then Ok ""%string
  else
    raw ← Base58.decode ddAddress;
    if negb (length raw =? 38)%nat then Ok ""%string
    else
      let payload := take 34 raw in
      if negb (bool_decide (take 4 (doubleSha256 payload) = drop 34 raw)) then Ok ""%string
      else
        match payload with
        | v0 :: v1 :: program =>
            Ok (match network_of_version v0 v1 DD_NETWORKS with
                | Some hrp => encodeTaproot hrp program
                | None => ""%string
                end)
        | _ => UB
        end.

Definition normalizeAddress (address : string) : outcome string :=
  taproot ← fromDigiDollarAddress address;
  Ok (if bool_decide (taproot = ""%string) then address else taproot).
