(* ===== verification/DigiAsset.v ===== *)
(** DigiAsset: the asset object (src/src/DigiAsset.cpp): decoding an issuance,
    the asset id, counts and write protection, and the check of an asset's
    rules against a transaction. *)

From stdpp Require Import pretty.
From S2P Require Import Prelude.
From S2P Require Import BitIO.
From S2P Require Import BitIOCodec.
From S2P Require Import OpReturn.
From S2P Require Import AssetTypes.
From S2P Require Import DigiAssetRules.
From S2P Require Import KYC.
From S2P Require Import Base58.
From S2P Require Import Blob.
From S2P Require Import Cid.
From S2P Require SHA256.
From S2P Require Ripemd160.
From S2P Require Import Database.
From S2P Require Import DigiDollar.

Ltac Zify.zify_post_hook ::= Z.div_mod_to_equations.

Definition EXCHANGE_RATE_LENIENCY : Z := 240.
Definition AGGREGABLE : Z := 0.
Definition HYBRID : Z := 1.
Definition DISPERSED : Z := 2.
Definition DIGIASSET_MIN_POSSIBLE_LENGTH : Z := 48.

Record DigiAsset := mk_DigiAsset {
  _existingAsset : bool;
  _enableWrite : bool;
  _assetId : string;
  _cid : string;
  _rules : DigiAssetRules;
  _divisibility : Z;
  _locked : bool;
  _aggregation : Z;
  _heightCreated : Z;
  _heightUpdated : Z;
  _assetIndex : Z;
  _issuer : KYC;
  _count : Z;
  _initialCount : Z
}.

(** [DigiAsset() = default]; the members without an initialiser are given the
    value zero here and are always written before they are read. *)
Definition DigiAsset_default : DigiAsset :=
  mk_DigiAsset false true "" "" default_rules 0 false 0 0 0 0 KYC_empty 0 (-1).

Definition set_existingAsset x (a : DigiAsset) := mk_DigiAsset x (_enableWrite a) (_assetId a) (_cid a) (_rules a) (_divisibility a) (_locked a) (_aggregation a) (_heightCreated a) (_heightUpdated a) (_assetIndex a) (_issuer a) (_count a) (_initialCount a).
Definition set_enableWrite x (a : DigiAsset) := mk_DigiAsset (_existingAsset a) x (_assetId a) (_cid a) (_rules a) (_divisibility a) (_locked a) (_aggregation a) (_heightCreated a) (_heightUpdated a) (_assetIndex a) (_issuer a) (_count a) (_initialCount a).
Definition set_assetId x (a : DigiAsset) := mk_DigiAsset (_existingAsset a) (_enableWrite a) x (_cid a) (_rules a) (_divisibility a) (_locked a) (_aggregation a) (_heightCreated a) (_heightUpdated a) (_assetIndex a) (_issuer a) (_count a) (_initialCount a).
Definition set_cid x (a : DigiAsset) := mk_DigiAsset (_existingAsset a) (_enableWrite a) (_assetId a) x (_rules a) (_divisibility a) (_locked a) (_aggregation a) (_heightCreated a) (_heightUpdated a) (_assetIndex a) (_issuer a) (_count a) (_initialCount a).
Definition set_rules x (a : DigiAsset) := mk_DigiAsset (_existingAsset a) (_enableWrite a) (_assetId a) (_cid a) x (_divisibility a) (_locked a) (_aggregation a) (_heightCreated a) (_heightUpdated a) (_assetIndex a) (_issuer a) (_count a) (_initialCount a).
Definition set_flags (divisibility : Z) (locked : bool) (aggregation : Z) (a : DigiAsset) := mk_DigiAsset (_existingAsset a) (_enableWrite a) (_assetId a) (_cid a) (_rules a) divisibility locked aggregation (_heightCreated a) (_heightUpdated a) (_assetIndex a) (_issuer a) (_count a) (_initialCount a).
Definition set_heights (created updated : Z) (a : DigiAsset) := mk_DigiAsset (_existingAsset a) (_enableWrite a) (_assetId a) (_cid a) (_rules a) (_divisibility a) (_locked a) (_aggregation a) created updated (_assetIndex a) (_issuer a) (_count a) (_initialCount a).
Definition set_assetIndex x (a : DigiAsset) := mk_DigiAsset (_existingAsset a) (_enableWrite a) (_assetId a) (_cid a) (_rules a) (_divisibility a) (_locked a) (_aggregation a) (_heightCreated a) (_heightUpdated a) x (_issuer a) (_count a) (_initialCount a).
Definition set_issuer x (a : DigiAsset) := mk_DigiAsset (_existingAsset a) (_enableWrite a) (_assetId a) (_cid a) (_rules a) (_divisibility a) (_locked a) (_aggregation a) (_heightCreated a) (_heightUpdated a) (_assetIndex a) x (_count a) (_initialCount a).
Definition set_count x (a : DigiAsset) := mk_DigiAsset (_existingAsset a) (_enableWrite a) (_assetId a) (_cid a) (_rules a) (_divisibility a) (_locked a) (_aggregation a) (_heightCreated a) (_heightUpdated a) (_assetIndex a) (_issuer a) x (_initialCount a).

(** [AssetUTXO] of DigiAssetTypes.h. *)
Record AssetUTXO := mk_AssetUTXO {
  utxo_txid : string;
  utxo_vout : Z;
  utxo_address : string;
  digibyte : Z;
  assets : list DigiAsset
}.
Definition set_assets x (u : AssetUTXO) := mk_AssetUTXO (utxo_txid u) (utxo_vout u) (utxo_address u) (digibyte u) x.

(** ** Exceptions *)
Definition exceptionInvalidIssuance : exn := class_exception "DigiAsset::exceptionInvalidIssuance" "Invalid Issuance".
Definition exceptionInvalidTransfer : exn := class_exception "DigiAsset::exceptionInvalidTransfer" "Invalid Transfer".
Definition exceptionWriteProtected : exn := class_exception "DigiAsset::exceptionWriteProtected" "IAsset value is write protected".
Definition exceptionUnknownAssetIndex : exn :=
  class_exception "DigiAsset::exceptionUnknownAssetIndex"
    "The asset has either not been added to database yet or have not looked it up yet".
Definition exceptionRuleFailed (rule : string) : exn :=
  class_exception "DigiAsset::exceptionRuleFailed" ("Transaction failed because " ++ rule ++ " rule failed").

(** The class hierarchy of DigiAsset.h: what [catch (DigiAsset::exception)] and
    [catch (DigiAsset::exceptionRuleFailed)] catch. *)
Definition is_RuleFailed (e : exn) : bool :=
  match e with class_exception cls _ => bool_decide (cls = "DigiAsset::exceptionRuleFailed") | _ => false end.
Definition is_DigiAsset_exception (e : exn) : bool :=
  match e with
  | class_exception cls _ =>
      bool_decide (cls ∈ ["DigiAsset::exceptionInvalidIssuance"; "DigiAsset::exceptionInvalidTransfer";
                          "DigiAsset::exceptionWriteProtected"; "DigiAsset::exceptionUnknownAssetIndex";
                          "DigiAsset::exceptionInvalidMetaData"; "DigiAsset::exceptionRuleFailed"]%string)
  | _ => false
  end.

(** ** Counts *)
Definition removeCount (count : Z) : M DigiAsset unit :=
  a ← get;
  if _count a <? count then throw (out_of_range "Can't remove more than have")
  else put (set_count (u64 (_count a - count)) a).
Definition setCount (count : Z) (a : DigiAsset) : DigiAsset := set_count count a.
Definition addCount (count : Z) (a : DigiAsset) : DigiAsset := set_count (u64 (_count a + count)) a.
Definition getCount (a : DigiAsset) : Z := _count a.

(** Decimal text, and the count with all decimals. *)
Definition to_string (z : Z) : string := pretty (Z.to_N z).

Definition getStrCount (a : DigiAsset) : string :=
  let result := chars (to_string (_count a)) in
  let neededDecimals := _divisibility a + 1 - Z.of_nat (length result) in
  let result := if 0 <? neededDecimals then repeat "0"%char (Z.to_nat neededDecimals) ++ result else result in
  let point := Z.to_nat (Z.of_nat (length result) - _divisibility a) in
  str (take point result ++ "."%char :: drop point result).

(** ** Index, kind and write protection *)
Definition getAssetIndex (allowUnknownAssetIndex : bool) (a : DigiAsset) : outcome Z :=
  if allowUnknownAssetIndex then Ok (_assetIndex a)
  else if _assetIndex a =? 0 then Throw exceptionUnknownAssetIndex
  else Ok (_assetIndex a).

Definition setAssetIndex (assetIndex : Z) : M DigiAsset unit :=
  a ← get;
  if negb (_assetIndex a =? 0) then throw exceptionWriteProtected
  else put (set_assetIndex assetIndex a).

Definition isAssetIndexSet (a : DigiAsset) : bool := negb (_assetIndex a =? 0).
Definition asset_eqb (a b : DigiAsset) : bool := _assetIndex a =? _assetIndex b.
Definition isHybrid (a : DigiAsset) : bool := _aggregation a =? HYBRID.
Definition isAggregable (a : DigiAsset) : bool := _aggregation a =? AGGREGABLE.
Definition isDispersed (a : DigiAsset) : bool := _aggregation a =? DISPERSED.
Definition isLocked (a : DigiAsset) : bool := _locked a.

Definition setOwned (a : DigiAsset) : DigiAsset := if isLocked a then a else set_enableWrite true a.

Definition setRules (rules : DigiAssetRules) : M DigiAsset unit :=
  a ← get;
  if negb (_enableWrite a) then throw exceptionWriteProtected
  else if negb (isRewritable (_rules a)) then throw exceptionWriteProtected
  else put (set_rules rules a).

Definition getIssuanceFlags (a : DigiAsset) : Z :=
  u8 (Z.lor (Z.lor (Z.shiftl (_divisibility a) 5) (if _locked a then 0x10 else 0)) (Z.shiftl (_aggregation a) 2)).

(** ** A new asset, not yet on chain *)
Definition DigiAsset_new (cid : string) (count divisibility : Z) (locked : bool) (aggregation : Z)
    (rules : DigiAssetRules) : outcome DigiAsset :=
  if 7 <? divisibility then Throw (out_of_range "divisibility must be 0 to 7")
  else if DISPERSED <? aggregation then Throw (out_of_range "invalid aggregation type")
  else if count =? 0 then Throw (out_of_range "count must be at least 1")
  else if 18014398509481983 <? count then Throw (out_of_range "count too large")
  else Ok (mk_DigiAsset false true "" cid (if locked then lock rules else rules) divisibility locked
             aggregation 0 0 0 KYC_empty count (-1)).

(** ** The asset id *)

(** [insertSRHash]: the 20 bytes of RIPEMD-160(SHA-256(data)) from [startIndex]
    on; a write outside the vector is undefined. *)
Definition insertSRHash (dataToHash result : list Z) (startIndex : nat) : outcome (list Z) :=
  let sha256Digest := SHA256.sha256 dataToHash in
  let digest := Ripemd160.ripemd160 sha256Digest (Z.of_nat (length sha256Digest)) in
  if (startIndex + length digest <=? length result)%nat then Ok (list_inserts startIndex digest result)
  else UB.

Definition string_bytes (s : string) : list Z := map byteZ (chars s).

(** The last data push of a scriptSig, and the number of pushes. *)
Fixpoint scriptSig_parts (fuel : nat) (parts : Z) (lastPart : list Z) : M BitIO (Z * list Z) :=
  match fuel with
  | O => out_of_fuel
  | S fuel =>
      left ← gets getNumberOfBitLeft;
      if 0 <? left then
        header ← getBitcoinDataHeader;
        if header =? -2 then data ← getBitcoinData; scriptSig_parts fuel (parts + 1) data
        else scriptSig_parts fuel parts lastPart
      else mret (parts, lastPart)
  end.

Definition dgb1_script : list Z := [0x00; 0x14] ++ repeat 0 20.
Definition D_script : list Z := [0x76; 0xa9; 0x14] ++ repeat 0 20 ++ [0x88; 0xac].
Definition S_script : list Z := [0xa9; 0x14] ++ repeat 0 20 ++ [0x87].

Definition calcSimpleScriptPubKey (vinData : vin_t) : outcome (list Z) :=
  if bool_decide (scriptSig_hex vinData = ""%string) then
    match last (txinwitness vinData) with
    | None => UB
    | Some back => lastPart ← Blob_of_hex back; insertSRHash lastPart dgb1_script 2
    end
  else
    scriptSig ← makeHexString (scriptSig_hex vinData);
    found ← local (scriptSig_parts (S (unread scriptSig)) 0 []) scriptSig;
    let '(parts, lastPart) := found in
    if bool_decide (txinwitness vinData = []) && (parts <? 3) then insertSRHash lastPart D_script 3
    else insertSRHash lastPart S_script 2.

Definition headerOptions : list Z := [0x2e37; 0x2e6b; 0x2e4e; 0; 0x20ce; 0x2102; 0x20e4; 0].

Definition calculateAssetId (locked : bool) (firstVin : vin_t) (issuanceFlags : Z) : outcome string :=
  let assetIdBinary := repeat 0 28 in
  let header := nth (Z.to_nat (Z.shiftr (Z.land issuanceFlags 0x1c) 2)) headerOptions 0 in
  let assetIdBinary := <[0%nat := Z.shiftr header 8]> assetIdBinary in
  let assetIdBinary := <[1%nat := Z.land header 0xff]> assetIdBinary in
  dataToHash ← (if locked then Ok (string_bytes (txid firstVin ++ ":" ++ to_string (out_n firstVin)))
                else calcSimpleScriptPubKey firstVin);
  assetIdBinary ← insertSRHash dataToHash assetIdBinary 2;
  let assetIdBinary := <[22%nat := 0]> assetIdBinary in
  let assetIdBinary := <[23%nat := Z.shiftr issuanceFlags 5]> assetIdBinary in
  let firstHash := SHA256.sha256 (take 24 assetIdBinary) in
  let secondHash := SHA256.sha256 firstHash in
  Base58.encode (list_inserts 24 (take 4 secondHash) assetIdBinary).

(** ** An asset rebuilt from its database fields *)

(** The divisibility of an id: byte 23 of the decoded id. *)
Definition id_divisibility (assetId : string) : outcome Z :=
  bytes ← Base58.decode assetId; fst (vec_at bytes 23 tt).

(** [assetId.c_str()[i]]: the terminating zero is readable. *)
Definition id_char (assetId : string) (i : nat) : ascii := nth i (chars assetId) Ascii.zero.

Definition DigiAsset_stored (assetIndex : Z) (assetId cid : string) (issuer : KYC) (rules : DigiAssetRules)
    (heightCreated heightUpdated amount : Z) : outcome DigiAsset :=
  let make divisibility aggregation :=
    mk_DigiAsset true false assetId cid rules divisibility
      (bool_decide (id_char assetId 0 = "L"%char)) aggregation heightCreated heightUpdated assetIndex
      issuer amount (-1) in
  let kind := id_char assetId 1 in
  if bool_decide (kind = "a"%char) then d ← id_divisibility assetId; Ok (make d AGGREGABLE)
  else if bool_decide (kind = "d"%char) then d ← id_divisibility assetId; Ok (make d DISPERSED)
  else if bool_decide (kind = "h"%char) then d ← id_divisibility assetId; Ok (make d HYBRID)
  else if negb (bool_decide (assetId = "DigiByte"%string)) && (assetIndex =? 1)
  then Throw (out_of_range "invalid assetId")
  else Ok (make 8 AGGREGABLE).

(** ** The transaction header *)

(** A DigiDollar metadata output starts with 6a 02 "DD". *)
Definition is_dd_metadata (hex : string) : bool :=
  bool_decide (take 8 (chars hex) = chars "6a024444").

(** The output number of the last candidate, -1 if there is none. *)
Fixpoint last_nulldata (tx_version : Z) (outputs : list vout_t) (iO : Z) : Z :=
  match outputs with
  | [] => iO
  | output :: outputs =>
      if negb (bool_decide (script_type (scriptPubKey output) = "nulldata"%string)) then
        last_nulldata tx_version outputs iO
      else if isDigiDollarVersion tx_version && is_dd_metadata (script_hex (scriptPubKey output)) then
        last_nulldata tx_version outputs iO
      else last_nulldata tx_version outputs (i32 (vout_n output))
  end.

Definition read_header : M BitIO (Z * Z) :=
  magic ← getBits 16;
  if negb (magic =? 0x4441) then mret (0, 0)
  else version ← getBits 8; opcode ← getBits 8; mret (version, opcode).

(** Version, opcode (0: not a DigiAsset transaction) and the data stream, with
    its cursor behind the header. *)
Definition decodeAssetTxHeader (txData : getrawtransaction_t) : outcome (Z * Z * BitIO) :=
  let iO := last_nulldata (tx_version txData) (vout txData) (-1) in
  if iO =? -1 then Ok (0, 0, empty_BitIO)
  else
    output ← fst (vec_at (vout txData) (u64 iO) tt);
    script ← makeHexString (script_hex (scriptPubKey output));
    if _length script <? DIGIASSET_MIN_POSSIBLE_LENGTH then Ok (0, 0, script)
    else
      dataStream ← local op_return_data script;
      match dataStream with
      | None => Ok (0, 0, script)
      | Some dataStream =>
          let '(header, s) := read_header dataStream in
          header ← header; Ok (header, s)
      end.

(** ** Decoding an issuance *)
Section issuance.
Context `{db : Sqlite}.

(** The object under construction, the data stream and the addresses added to
    the watch list. *)
Record issuing := mk_issuing { asset : DigiAsset; data : BitIO; watching : list string }.

Definition on_asset (f : DigiAsset -> DigiAsset) : M issuing unit :=
  modify (fun s => mk_issuing (f (asset s)) (data s) (watching s)).
Definition on_data {A} (m : M BitIO A) : M issuing A := fun s =>
  let '(o, b) := m (data s) in (o, mk_issuing (asset s) b (watching s)).
Definition decode_asset_rules (txData : getrawtransaction_t) (cid : string) (opcode : Z)
    : M issuing DigiAssetRules := fun s =>
  let '(o, (b, w)) := DigiAssetRules_decode txData cid opcode (data s, watching s) in
  (o, mk_issuing (asset s) b w).

(** The metadata hash of opcode 2 is the second key of a multisig script. *)
Definition multisig_hash (txData : getrawtransaction_t) : outcome BitIO :=
  output ← fst (vec_at (vout txData) 0 tt);
  multiSigData ← makeHexString (script_hex (scriptPubKey output));
  local (_ ← getBitcoinDataHeader; _ ← getBitcoinData; copyBitcoinData) multiSigData.

Definition read_metadata_hash (txData : getrawtransaction_t) (opcode : Z) : M issuing unit :=
  metadataHash ← (if (opcode =? 1) || (opcode =? 3) || (opcode =? 4) then on_data (copyBits 256)
                  else if opcode =? 2 then lift (multisig_hash txData)
                  else mret empty_BitIO);
  when (_length metadataHash =? 256)
    (cid ← lift (sha256ToCID metadataHash); on_asset (set_cid cid)).

(** The flags are the last byte; [None] if the data is too short or the
    aggregation type is invalid. *)
Definition read_flags : M issuing (option Z) :=
  rulesStart ← on_data (gets getPosition);
  length ← on_data (gets _length);
  if u64 (length - 8) <? rulesStart then mret None
  else
    on_data (movePositionTo (u64 (length - 8)));;
    issuanceFlags ← on_data (getBits 8);
    let aggregation := Z.shiftr (Z.land issuanceFlags 0x0c) 2 in
    on_asset (set_flags (Z.shiftr issuanceFlags 5) (0 <? Z.land issuanceFlags 0x10) aggregation);;
    if aggregation =? 3 then mret None
    else on_data (movePositionTo rulesStart);; mret (Some issuanceFlags).

(** Which rules win when an unlocked asset is issued again. *)
Definition handleRulesConflict (a : DigiAsset) : outcome DigiAsset :=
  if _locked a then Ok a
  else if negb (_aggregation a =? AGGREGABLE) then Ok a
  else
    oldRules ← getRules (_assetId a);
    if empty oldRules then Ok a
    else if negb (isRewritable oldRules) || empty (_rules a) then Ok (set_rules oldRules a)
    else Ok a.

(** The last part of [processIssuance]: rules, asset id, update or first
    issuance, conflicting rules and the issuer. *)
Definition finish_issuance (txData : getrawtransaction_t) (height opcode issuanceFlags : Z) : M issuing bool :=
  a ← gets asset;
  when (_locked a) (on_asset (fun a => set_rules (lock (_rules a)) a));;
  rules ← decode_asset_rules txData (_cid a) opcode;
  on_asset (set_rules rules);;
  firstVin ← vec_at (vin txData) 0;
  a ← gets asset;
  assetId ← lift (calculateAssetId (_locked a) firstVin issuanceFlags);
  on_asset (set_assetId assetId);;
  when (negb (_locked a) && isAggregable a)
    (on_asset (fun a =>
       let '(created, index) := getAssetHeightCreated assetId height (_assetIndex a) in
       set_assetIndex index (set_heights created (_heightUpdated a) a)));;
  a ← gets asset;
  a ← lift (handleRulesConflict a);
  on_asset (fun _ => a);;
  issuer ← lift (getSendingAddress (txid firstVin) (out_n firstVin));
  on_asset (set_issuer (getAddressKYC issuer));;
  mret true.

Definition valid_count (a : DigiAsset) : bool :=
  negb (_locked a && (_count a =? 0))
  && negb (negb (_aggregation a =? AGGREGABLE) && (_count a =? 0))
  && (_count a <=? 18014398509481983).

Definition processIssuance (txData : getrawtransaction_t) (height version opcode : Z) : M issuing bool :=
  on_asset (set_existingAsset true);;
  catch_out_of_range
    (on_asset (set_heights height height);;
     when ((version <? 3) && (opcode <? 3)) (on_data (movePositionBy 160));;
     read_metadata_hash txData opcode;;
     count ← on_data getFixedPrecision;
     on_asset (set_count count);;
     flags ← read_flags;
     match flags with
     | None => mret false
     | Some issuanceFlags =>
         a ← gets asset;
         when (version =? 1)
           (divisor ← pow10 (_divisibility a); on_asset (fun a => set_count (_count a / divisor) a));;
         a ← gets asset;
         if negb (valid_count a) then mret false
         else finish_issuance txData height opcode issuanceFlags
     end)
    (mret false).

(** [DigiAsset(txData, height, version, opcode, opReturnData)] *)
Definition DigiAsset_issued (txData : getrawtransaction_t) (height version opcode : Z)
    : M (BitIO * list string) DigiAsset := fun '(opReturnData, watch) =>
  let '(o, s) := processIssuance txData height version opcode
                   (mk_issuing DigiAsset_default opReturnData watch) in
  (ok ← o; if negb (ok : bool) then Throw exceptionInvalidIssuance else Ok (asset s), (data s, watching s)).
End issuance.

(** ** Checking the rules of an asset against a transaction *)
Definition int64_sub (a b : Z) : Z := i64 (a - b).
Definition int64_add (a b : Z) : Z := i64 (a + b).

Section rules_check.
Context `{db : Sqlite} (self : DigiAsset) (height time : Z).

(** [changes[address] = f(changes[address], count)] for the units of this asset
    among [l]; the index of every asset must be known. *)
Fixpoint add_changes (f : Z -> Z -> Z) (address : string) (l : list DigiAsset) (changes : gmap string Z)
    : outcome (gmap string Z) :=
  match l with
  | [] => Ok changes
  | a :: l =>
      index ← getAssetIndex false a;
      if index =? _assetIndex self
      then add_changes f address l (<[address := f (default 0 (changes !! address)) (getCount a)]> changes)
      else add_changes f address l changes
  end.

Fixpoint utxo_changes (f : Z -> Z -> Z) (utxos : list AssetUTXO) (changes : gmap string Z)
    : outcome (gmap string Z) :=
  match utxos with
  | [] => Ok changes
  | u :: utxos => changes ← add_changes f (utxo_address u) (assets u) changes; utxo_changes f utxos changes
  end.

(** Nobody received anything: a consolidation or a pure burn. *)
Definition is_consolidation (changes : gmap string Z) : bool :=
  forallb (fun c => negb (0 <? c.2)) (map_to_list changes).

(** *** Signers *)

(** The address of an input, from Core if it is not stored. *)
Definition input_address (utxo : AssetUTXO) : outcome string :=
  if bool_decide (utxo_address utxo = ""%string) && negb (bool_decide (utxo_txid utxo = ""%string)) then
    if negb digiByteCoreSet then Throw (class_exception "runtime_error" "can not check approval rule")
    else
      tx ← getRawTransaction (utxo_txid utxo);
      match vout tx !! Z.to_nat (utxo_vout utxo) with
      | Some o => Ok (match addresses (scriptPubKey o) with a :: _ => a | [] => utxo_address utxo end)
      | None => Ok (utxo_address utxo)
      end
  else Ok (utxo_address utxo).

Fixpoint input_addresses (inputs : list AssetUTXO) : outcome (list string) :=
  match inputs with
  | [] => Ok []
  | u :: inputs => a ← input_address u; rest ← input_addresses inputs; Ok (a :: rest)
  end.

Fixpoint signed_weight (signers : list Signer.t) (inputAddresses : list string) (totalWeight : Z) : Z :=
  match signers with
  | [] => totalWeight
  | signer :: signers =>
      signed_weight signers inputAddresses
        (if bool_decide (Signer.address signer ∈ inputAddresses)
         then u64 (totalWeight + Signer.weight signer) else totalWeight)
  end.

Definition check_signers (inputs : list AssetUTXO) : outcome unit :=
  if 0 <? getRequiredSignerWeight (_rules self) then
    inputAddresses ← input_addresses inputs;
    if signed_weight (getSigners (_rules self)) inputAddresses 0 <? getRequiredSignerWeight (_rules self)
    then Throw (exceptionRuleFailed "Signers") else Ok tt
  else Ok tt.

(** *** Royalties *)

(** Does the output hold this asset? *)
Fixpoint holds_asset (l : list DigiAsset) : outcome bool :=
  match l with
  | [] => Ok false
  | a :: l => index ← getAssetIndex false a; if index =? _assetIndex self then Ok true else holds_asset l
  end.

Fixpoint count_receivers (outputs : list AssetUTXO) (count : Z) : outcome Z :=
  match outputs with
  | [] => Ok count
  | u :: outputs =>
      holds ← holds_asset (assets u);
      count_receivers outputs (if holds : bool then u64 (count + 1) else count)
  end.

Definition min_accepted (count amount exchangeRate : Z) : Z :=
  u64 (u64 (u64 (count * amount) * exchangeRate) / 100000000 - 1).

Definition royalty_paid (outputs : list AssetUTXO) (count exchangeRate : Z) (royalty : Royalty.t) : bool :=
  existsb (fun u => bool_decide (utxo_address u = Royalty.address royalty)
                    && (min_accepted count (Royalty.amount royalty) exchangeRate <=? digibyte u)) outputs.

Definition check_royalties (outputs : list AssetUTXO) : outcome unit :=
  if getIfRequiresRoyalty (_rules self) then
    rate ← getAcceptedExchangeRate (getRoyaltyCurrency (_rules self)) height;
    exchangeRate ← floor_u64 rate;
    count ← count_receivers outputs (two64 - 1);
    let count := if count <? 1 then 1 else count in
    if forallb (royalty_paid outputs count exchangeRate) (getRoyalties (_rules self)) then Ok tt
    else Throw (exceptionRuleFailed "Royalty")
  else Ok tt.

(** *** Receivers, expiry, votes and burns *)
Definition receivers (changes : gmap string Z) : list string :=
  (filter (fun c => 0 < c.2) (map_to_list changes)).*1.

Definition kyc_allows (address : string) : bool :=
  let addressData := getAddressKYC address in
  valid (i32 height) addressData
  && match getCountry addressData with
     | Ok country => getIfCountryAllowedToReceive country (_rules self) | _ => false end.

Definition check_geofence (changes : gmap string Z) : outcome unit :=
  if getIfGeoFenced (_rules self) && negb (forallb kyc_allows (receivers changes))
  then Throw (exceptionRuleFailed "KYC") else Ok tt.

Definition check_expiry : outcome unit :=
  if getIfExpired height time (_rules self) then Throw (exceptionRuleFailed "Expiry") else Ok tt.

Definition check_vote (changes : gmap string Z) : outcome unit :=
  if getIfVoteRestricted (_rules self)
     && negb (forallb (fun a => getIfValidVoteAddress a (_rules self)) (receivers changes))
  then Throw (exceptionRuleFailed "Vote") else Ok tt.

Definition burned (changes : gmap string Z) : Z :=
  foldl (fun burns c => i64 (burns - c.2)) 0 (map_to_list changes).

Definition check_deflation (changes : gmap string Z) : outcome unit :=
  if (0 <? getRequiredBurn (_rules self)) && (u64 (burned changes) <? getRequiredBurn (_rules self))
  then Throw (exceptionRuleFailed "Deflation") else Ok tt.

Definition checkRulesPass (inputs outputs : list AssetUTXO) : outcome unit :=
  if empty (_rules self) then Ok tt
  else
    changes ← utxo_changes int64_sub inputs ∅;
    changes ← utxo_changes int64_add outputs changes;
    if is_consolidation changes then Ok tt
    else
      check_signers inputs;;
      check_royalties outputs;;
      check_geofence changes;;
      check_expiry;;
      check_vote changes;;
      check_deflation changes.
End rules_check.
