(* ===== verification/AssetIdTheorems.v ===== *)
(** AssetIdTheorems: the asset id carries what kind of asset it names. *)

From S2P Require Import Prelude.
From S2P Require Import BitIOCodec.
From S2P Require Import BitIOText.
From S2P Require Import Base58.
From S2P Require SHA256.
From S2P Require Ripemd160.
From S2P Require Import AssetTypes.
From S2P Require Import DigiAssetRules.
From S2P Require Import KYC.
From S2P Require Import Database.
From S2P Require Import DigiAsset.

Ltac Zify.zify_post_hook ::= Z.div_mod_to_equations.

Definition bytes (l : list Z) : Prop := Forall (fun b => 0 <= b < 256) l.

(** ** The hashes are byte strings of fixed length *)
Lemma ripemd160_bytes msg n : length (Ripemd160.ripemd160 msg n) = 20%nat /\ bytes (Ripemd160.ripemd160 msg n).
Proof.
  unfold Ripemd160.ripemd160. destruct (Ripemd160.full_chunks _ _ _) as [d m]. case_match.
  destruct (Ripemd160.compress _ _) as [a b c d' e]. cbn [map concat app Ripemd160.word_bytes_le].
  split; [done|]. unfold bytes, u8. repeat (constructor; [apply Z.mod_pos_bound; lia|]). constructor.
Qed.

Lemma byte_land z : 0 <= Z.land z 255 < 256.
Proof. change 255 with (Z.ones 8). rewrite Z.land_ones by lia. apply Z.mod_pos_bound. lia. Qed.

Lemma sha256_head msg : exists b0 b1 b2 b3, take 4 (SHA256.sha256 msg) = [b0; b1; b2; b3] /\ bytes [b0; b1; b2; b3].
Proof.
  unfold SHA256.sha256, SHA256.digest, SHA256.revert. destruct (SHA256.m_state _) as [w0 ? ? ? ? ? ? ?].
  cbn [SHA256.w0 map concat app SHA256.word_bytes take]. do 4 eexists. split; [reflexivity|].
  repeat (constructor; [apply byte_land|]). constructor.
Qed.

(** ** The text of a 28-byte number *)

(** The first two characters are those of the leading two bytes when no carry
    from the other bytes can reach them. *)
Definition fixed_prefix (h : Z) : bool :=
  (58 ^ 37 <=? h * 256 ^ 26) && ((h + 1) * 256 ^ 26 <=? 58 ^ 38)
  && (h * 256 ^ 26 / 58 ^ 36 =? ((h + 1) * 256 ^ 26 - 1) / 58 ^ 36).
Definition prefix_digits (h : Z) : Z := h * 256 ^ 26 / 58 ^ 36.

Lemma digits_length D N (n : Z) :
  digits_in 58 D -> canonical D -> D <> [] -> value 58 D = N -> 1 <= n -> 58 ^ n <= N < 58 ^ (n + 1) ->
  Z.of_nat (length D) = n + 1.
Proof.
  intros Hd Hc Hne <- Hn HN. pose proof (value_range 58 D ltac:(lia) Hd) as Hr.
  assert (n < Z.of_nat (length D)) as Hlt.
  { apply (Z.pow_lt_mono_r_iff 58); lia. }
  destruct Hc as [H1|Hlast]; [rewrite H1 in Hlt; lia|].
  pose proof (value_low 58 D ltac:(lia) Hd Hlast) as Hlow.
  assert (Z.of_nat (length D) - 1 < n + 1) by (apply (Z.pow_lt_mono_r_iff 58); lia). lia.
Qed.

Lemma quotient_between c lo hi r q :
  0 < c -> 0 <= r < c -> lo <= r + c * q -> r + c * q <= hi -> lo / c = hi / c -> q = lo / c.
Proof.
  intros Hc Hr Hlo Hhi E. assert ((r + c * q) / c = q) as Hq by (symmetry; apply (Z.div_unique _ _ _ r); lia).
  pose proof (Z.div_le_mono _ _ c Hc Hlo). pose proof (Z.div_le_mono _ _ c Hc Hhi). lia.
Qed.

Lemma encode_prefix h1 h2 rest :
  let h := 256 * h1 + h2 in
  bytes (h1 :: h2 :: rest) -> length rest = 26%nat -> h1 <> 0 -> fixed_prefix h = true ->
  exists s, Base58.encode (h1 :: h2 :: rest) = Ok s /\ Base58.decode s = Ok (h1 :: h2 :: rest) /\ length (chars s) = 38%nat
    /\ id_char s 0 = base58_char (prefix_digits h / 58) /\ id_char s 1 = base58_char (prefix_digits h mod 58).
Proof.
  intros h Hb Hlen Hh1 Hf. unfold fixed_prefix in Hf. rewrite !andb_true_iff, !Z.leb_le, Z.eqb_eq in Hf.
  destruct Hf as [[Hlo Hhi] Hq].
  destruct (encode_decode (h1 :: h2 :: rest)) as (s & Hs & Hdec & _); [done|exact Hb|].
  destruct (encode_spec (h1 :: h2 :: rest)) as (D & HD & HDd & HDc & HDn & HDv); [done|exact Hb|].
  exists s.
  assert (leading (Z.eqb 0) (h1 :: h2 :: rest) = O) as Hl0.
  { change (leading (Z.eqb 0) (h1 :: h2 :: rest)) with (if 0 =? h1 then S (leading (Z.eqb 0) (h2 :: rest)) else O).
    destruct (Z.eqb_spec 0 h1); [lia|done]. }
  rewrite Hl0, Hs in HD. injection HD as HD.
  assert (chars s = map base58_char (rev D)) as Hc by (by rewrite HD, chars_str).
  cbn [rev] in HDv. rewrite <- app_assoc in HDv. cbn [app] in HDv. rewrite value_app, length_rev, Hlen in HDv.
  cbn [value] in HDv. change (Z.of_nat 26) with 26 in HDv.
  unfold bytes in Hb. apply list.Forall_cons in Hb as [Hb1 Hb]. apply list.Forall_cons in Hb as [Hb2 Hb].
  assert (0 <= value 256 (rev rest) < 256 ^ 26) as Hv.
  { change 26 with (Z.of_nat 26). rewrite <- Hlen, <- (length_rev rest). apply value_range; [lia|]. by apply List.Forall_rev. }
  assert (h * 256 ^ 26 <= value 58 D < (h + 1) * 256 ^ 26) as HN by (subst h; lia).
  pose proof (digits_length D _ 37 HDd HDc HDn eq_refl ltac:(lia) ltac:(lia)) as HlD.
  split_and!; [done|exact Hdec|rewrite Hc, length_map, length_rev; lia|..].
  all: unfold id_char; rewrite Hc.
  all: destruct D as [|d1 D _] using rev_ind; [done|]; destruct D as [|d2 D _] using rev_ind; [done|].
  all: rewrite !length_app in HlD; cbn [length] in HlD.
  all: rewrite !rev_app_distr; cbn [rev app map nth].
  all: rewrite !value_app, length_app in HN; cbn [value length] in HN.
  all: assert (length D = 36%nat) as HD36 by lia; rewrite HD36 in HN; change (Z.of_nat (36 + 1)) with 37 in HN; change (Z.of_nat 36) with 36 in HN.
  all: apply Forall_app in HDd as [HDd Hd1]; apply Forall_app in HDd as [HDd Hd2].
  all: apply list.Forall_cons in Hd1 as [Hd1 _]; apply list.Forall_cons in Hd2 as [Hd2 _].
  all: pose proof (value_range 58 D ltac:(lia) HDd) as HvD; rewrite HD36 in HvD; change (Z.of_nat 36) with 36 in HvD.
  all: assert (prefix_digits h = d2 + 58 * d1) as ->; [|f_equal; lia].
  all: unfold prefix_digits; set (q := h * 256 ^ 26 / 58 ^ 36) in *.
  all: symmetry; apply (quotient_between (58 ^ 36) (h * 256 ^ 26) ((h + 1) * 256 ^ 26 - 1) (value 58 D)); [lia|exact HvD| |lia|exact Hq].
  all: change (58 ^ 37) with (58 * 58 ^ 36) in HN; lia.
Qed.

(** ** The id of an issuance *)
Definition flags_aggregation (flags : Z) : Z := Z.shiftr (Z.land flags 0x0c) 2.
Definition flags_locked (flags : Z) : bool := 0 <? Z.land flags 0x10.
Definition flags_divisibility (flags : Z) : Z := Z.shiftr flags 5.

Definition flags_header (flags : Z) : Z := nth (Z.to_nat (Z.shiftr (Z.land flags 0x1c) 2)) headerOptions 0.
Definition kind_char (aggregation : Z) : ascii :=
  if aggregation =? AGGREGABLE then "a"%char else if aggregation =? HYBRID then "h"%char else "d"%char.

(** The six headers in use spell the kind of the asset. *)
Definition header_spells (flags : Z) : bool :=
  let h := flags_header flags in
  fixed_prefix h && (0 <? h / 256) && (h <? 65536)
  && bool_decide (base58_char (prefix_digits h / 58) = if flags_locked flags then "L"%char else "U"%char)
  && bool_decide (base58_char (prefix_digits h mod 58) = kind_char (flags_aggregation flags)).

Lemma headers_spell flags : 0 <= flags < 256 -> flags_aggregation flags <= 2 -> header_spells flags = true.
Proof.
  intros Hf Ha.
  assert (forallb (fun f => implb (flags_aggregation f <=? 2) (header_spells f)) (seqZ 0 256) = true) as H
    by (vm_compute; done).
  rewrite forallb_forall in H. specialize (H flags). rewrite <- list_elem_of_In, elem_of_seqZ in H.
  specialize (H ltac:(lia)). apply Z.leb_le in Ha. by rewrite Ha in H.
Qed.

(** The data whose hash names the asset. *)
Definition id_source (locked : bool) (firstVin : vin_t) : outcome (list Z) :=
  if locked then Ok (string_bytes (txid firstVin ++ ":" ++ to_string (out_n firstVin)))
  else calcSimpleScriptPubKey firstVin.

(** The 28 bytes of an id: header, hash, flags, checksum. *)
Lemma calculateAssetId_bytes locked firstVin flags data :
  id_source locked firstVin = Ok data ->
  let h := flags_header flags in
  exists l, length l = 26%nat /\ (0 <= Z.shiftr flags 5 < 256 -> bytes l) /\ l !! 21%nat = Some (Z.shiftr flags 5)
    /\ calculateAssetId locked firstVin flags = Base58.encode (Z.shiftr h 8 :: Z.land h 0xff :: l).
Proof.
  intros Hd h. unfold calculateAssetId. fold (flags_header flags). fold h. unfold id_source in Hd.
  rewrite Hd. cbn [mbind outcome_bind]. unfold insertSRHash.
  set (digest := Ripemd160.ripemd160 _ _). pose proof (ripemd160_bytes (SHA256.sha256 data) (Z.of_nat (length (SHA256.sha256 data)))) as [Hl Hb].
  fold digest in Hl, Hb. clearbody digest.
  do 20 (destruct digest as [|? digest]; [done|]). destruct digest; [|done].
  cbn [length repeat insert list_insert Nat.add Nat.leb mbind outcome_bind list_inserts take].
  match goal with |- context [take 4 ?s] => set (second := s) end.
  assert (exists b0 b1 b2 b3, take 4 second = [b0; b1; b2; b3] /\ bytes [b0; b1; b2; b3]) as (c0 & c1 & c2 & c3 & -> & Hc)
    by apply sha256_head.
  cbn [list_inserts insert list_insert]. eexists. split_and!; [|intros Hf| |reflexivity].
  - done.
  - unfold bytes in *. rewrite !list.Forall_cons in *. destruct_and!. split_and!; try lia; try done.
  - done.
Qed.

Lemma flags_rebuilt flags :
  0 <= flags < 256 ->
  u8 (Z.lor (Z.lor (Z.shiftl (flags_divisibility flags) 5) (if flags_locked flags then 0x10 else 0))
        (Z.shiftl (flags_aggregation flags) 2)) = flags - flags mod 4.
Proof.
  intros Hf.
  assert (forallb (fun f => u8 (Z.lor (Z.lor (Z.shiftl (flags_divisibility f) 5) (if flags_locked f then 0x10 else 0))
            (Z.shiftl (flags_aggregation f) 2)) =? f - f mod 4) (seqZ 0 256) = true) as H by (vm_compute; done).
  apply Z.eqb_eq. rewrite forallb_forall in H. apply H. apply list_elem_of_In, elem_of_seqZ. lia.
Qed.

(** What the first two characters and byte 23 tell about an asset. *)
Lemma DigiAsset_stored_kind id flags l index cid issuer rules hc hu amount :
  id_char id 0 = (if flags_locked flags then "L"%char else "U"%char) ->
  id_char id 1 = kind_char (flags_aggregation flags) -> 0 <= flags_aggregation flags <= 2 ->
  Base58.decode id = Ok l -> l !! 23%nat = Some (flags_divisibility flags) ->
  exists a, DigiAsset_stored index id cid issuer rules hc hu amount = Ok a
    /\ _divisibility a = flags_divisibility flags /\ _locked a = flags_locked flags
    /\ _aggregation a = flags_aggregation flags.
Proof.
  intros H0 H1 Ha Hd Hl.
  assert (id_divisibility id = Ok (flags_divisibility flags)) as Hdiv.
  { unfold id_divisibility. rewrite Hd. cbn [mbind outcome_bind]. unfold vec_at. cbn [Z.leb Z.to_nat Pos.to_nat].
    change (Z.to_nat 23) with 23%nat. by rewrite Hl. }
  assert (bool_decide (id_char id 0 = "L"%char) = flags_locked flags) as HL by (rewrite H0; by destruct (flags_locked flags)).
  unfold DigiAsset_stored. rewrite H1, HL, Hdiv.
  assert (flags_aggregation flags = 0 \/ flags_aggregation flags = 1 \/ flags_aggregation flags = 2) as [E|[E|E]] by lia;
    rewrite E; eexists; (split; [reflexivity|done]).
Qed.

(** C34: The asset id carries the kind of the asset. For every issuance flags
    with a valid aggregation type, calculating the id succeeds whenever its
    source data exist (always, for a locked asset), gives 38 characters of base
    58 that start with L or U (locked or not) and a, h or d (aggregable, hybrid
    or dispersed), and an asset rebuilt from the id and its database fields has
    the divisibility, the lock and the aggregation type of the flags; its
    issuance flags are the original ones without the two unused bits. *)
Theorem asset_id_kind (firstVin : vin_t) (flags : Z) (data : list Z) :
  0 <= flags < 256 -> flags_aggregation flags <= 2 -> id_source (flags_locked flags) firstVin = Ok data ->
  exists id, calculateAssetId (flags_locked flags) firstVin flags = Ok id /\ length (chars id) = 38%nat
    /\ id_char id 0 = (if flags_locked flags then "L"%char else "U"%char)
    /\ id_char id 1 = kind_char (flags_aggregation flags)
    /\ forall index cid issuer rules hc hu amount,
         exists a, DigiAsset_stored index id cid issuer rules hc hu amount = Ok a
           /\ _divisibility a = flags_divisibility flags /\ _locked a = flags_locked flags
           /\ _aggregation a = flags_aggregation flags /\ getIssuanceFlags a = flags - flags mod 4.
Proof.
  intros Hf Ha Hd. pose proof (headers_spell flags Hf Ha) as Hs. unfold header_spells in Hs.
  set (h := flags_header flags) in *. rewrite !andb_true_iff, !Z.ltb_lt, !bool_decide_eq_true in Hs.
  destruct Hs as ((((Hfp & Hpos) & Hlt) & HL) & Hk).
  destruct (calculateAssetId_bytes _ _ flags _ Hd) as (l & Hlen & Hb & H21 & Hid). fold h in Hid.
  assert (0 <= flags_aggregation flags) as Ha0 by (apply Z.shiftr_nonneg, Z.land_nonneg; lia).
  assert (Z.shiftr h 8 = h / 256) as E1 by (by rewrite Z.shiftr_div_pow2).
  assert (Z.land h 0xff = h mod 256) as E2 by (change 0xff with (Z.ones 8); by rewrite Z.land_ones).
  assert (256 * (h / 256) + h mod 256 = h) as Eh by lia.
  destruct (encode_prefix (Z.shiftr h 8) (Z.land h 0xff) l) as (id & He & Hdec & Hl38 & Hc0 & Hc1);
    rewrite ?E1, ?E2 in *; rewrite ?Eh in *; try done; [|lia|].
  { unfold bytes in *. rewrite !list.Forall_cons. split_and!; [lia|lia|lia|lia|]. apply Hb.
    rewrite Z.shiftr_div_pow2 by lia. change (2 ^ 5) with 32. lia. }
  rewrite HL in Hc0. rewrite Hk in Hc1. exists id. split_and!; [by rewrite Hid|done|done|done|].
  intros index cid issuer rules hc hu amount.
  destruct (DigiAsset_stored_kind id flags _ index cid issuer rules hc hu amount Hc0 Hc1 ltac:(lia) Hdec) as (a & Hst & A1 & A2 & A3);
    [done|]. exists a. split_and!; try done.
  unfold getIssuanceFlags. rewrite A1, A2, A3. by apply flags_rebuilt.
Qed.

(** A locked, dispersed asset with two decimals. *)
Lemma asset_id_kind_witness :
  let vin := mk_vin "00ff" 1 "" [] in
  exists id, calculateAssetId true vin 0x58 = Ok id /\ id_char id 0 = "L"%char /\ id_char id 1 = "d"%char
    /\ exists a, DigiAsset_stored 7 id "" KYC_empty default_rules 1 1 5 = Ok a
         /\ _divisibility a = 2 /\ _aggregation a = DISPERSED /\ getIssuanceFlags a = 0x58.
Proof.
  intros vin. destruct (asset_id_kind vin 0x58 (string_bytes "00ff:1")) as (id & Hid & _ & H0 & H1 & Ha).
  - split; [discriminate|reflexivity].
  - vm_compute. discriminate.
  - vm_compute. reflexivity.
  - exists id. split; [exact Hid|]. split; [exact H0|]. split; [exact H1|].
    destruct (Ha 7 ""%string KYC_empty default_rules 1 1 5) as (a & Hs & Hd & _ & Hagg & Hfl).
    exists a. split_and!; [exact Hs|exact Hd|exact Hagg|exact Hfl].
Defined.
