(* ===== verification/UtxoStore.v ===== *)
(** UtxoStore: the unspent outputs and the assets on them
    (src/src/Database.cpp: createUTXO, spendUTXO, getAsset, getAssetUTXO).

    The state is the table [utxos] with the statements' SQL executed on it, and
    the two generations of the cache of outputs without assets. *)

From S2P Require Import Prelude.
From S2P Require Import Serialize.
From S2P Require Import AssetTypes.
From S2P Require Import DigiAssetRules.
From S2P Require Import KYC.
From S2P Require Import Blob.
From S2P Require Import Database.
From S2P Require Import DigiDollar.
From S2P Require Import DigiAsset.

Ltac Zify.zify_post_hook ::= Z.div_mod_to_equations.

(** ** The table *)
Record utxo_row := mk_row {
  row_address : string;
  row_txid : Blob;
  row_vout : Z;
  row_aout : option Z;
  row_assetIndex : Z;
  row_amount : Z;
  row_heightCreated : Z;
  row_issuance : Z;
  row_heightDestroyed : option Z;
  row_spentTXID : option Blob
}.

(** The primary key (address,txid,vout,aout); a NULL is never equal. *)
Definition same_key (r r' : utxo_row) : bool :=
  bool_decide (row_address r = row_address r') && bool_decide (row_txid r = row_txid r')
  && (row_vout r =? row_vout r')
  && match row_aout r, row_aout r' with Some i, Some j => i =? j | _, _ => false end.

(** INSERT OR IGNORE INTO utxos ... *)
Definition stmtCreateUTXO (r : utxo_row) (utxos : list utxo_row) : list utxo_row :=
  if existsb (same_key r) utxos then utxos else utxos ++ [r].

Definition at_outpoint (txid : Blob) (vout : Z) (r : utxo_row) : bool :=
  bool_decide (row_txid r = txid) && (row_vout r =? vout).

(** UPDATE utxos SET heightDestroyed=?, spentTXID=? WHERE txid=? AND vout=? *)
Definition stmtSpendUTXO (height : Z) (spentTXID txid : Blob) (vout : Z) (utxos : list utxo_row) : list utxo_row :=
  map (fun r =>
    if at_outpoint txid vout r
    then mk_row (row_address r) (row_txid r) (row_vout r) (row_aout r) (row_assetIndex r) (row_amount r)
           (row_heightCreated r) (row_issuance r) (Some height) (Some spentTXID)
    else r) utxos.

(** ORDER BY aout ASC: NULL first, ties in the order of insertion. *)
Definition aout_le (a b : option Z) : bool :=
  match a, b with None, _ => true | Some _, None => false | Some i, Some j => i <=? j end.
Fixpoint insert_row (r : utxo_row) (l : list utxo_row) : list utxo_row :=
  match l with
  | [] => [r]
  | x :: l => if aout_le (row_aout r) (row_aout x) then r :: x :: l else x :: insert_row r l
  end.
Definition sort_aout (l : list utxo_row) : list utxo_row := foldr insert_row [] l.

(** SELECT address,aout,assetIndex,amount FROM utxos WHERE txid=? AND vout=? ORDER BY aout ASC *)
Definition stmtGetAssetUTXO (txid : Blob) (vout : Z) (utxos : list utxo_row) : list utxo_row :=
  sort_aout (List.filter (at_outpoint txid vout) utxos).

(** SELECT address FROM utxos WHERE txid=? AND vout=? *)
Definition select_spending_address (utxos : list utxo_row) (txid : Blob) (vout : Z) : option string :=
  row_address <$> head (List.filter (at_outpoint txid vout) utxos).

(** DELETE FROM utxos WHERE heightDestroyed<? *)
Definition stmtPruneUTXOs (height : Z) (utxos : list utxo_row) : list utxo_row :=
  List.filter (fun r => match row_heightDestroyed r with Some h => negb (h <? height) | None => true end) utxos.

(** ** The state *)
Definition MAX_UTXO_CACHE : Z := 1000000.

Record store := mk_store {
  utxos : list utxo_row;
  _utxoCacheActive : gmap string (string * Z);
  _utxoCacheOld : gmap string (string * Z)
}.

Definition set_utxos (f : list utxo_row -> list utxo_row) (s : store) : store :=
  mk_store (f (utxos s)) (_utxoCacheActive s) (_utxoCacheOld s).

(** [db] with the outputs of the store. *)
Definition with_utxos (db : Sqlite) (s : store) : Sqlite := {|
  stmtGetHeightAssetCreated := stmtGetHeightAssetCreated;
  stmtGetAssetRules := stmtGetAssetRules;
  stmtGetSpendingAddress := select_spending_address (utxos s);
  stmtGetKYC := stmtGetKYC;
  stmtGetValidExchangeRate := stmtGetValidExchangeRate;
  stmtGetAsset := stmtGetAsset;
  stmtIsWatchAddress := stmtIsWatchAddress;
  beenPrunedNonAssetUTXOHistory := beenPrunedNonAssetUTXOHistory;
  beenPrunedUTXOHistory := beenPrunedUTXOHistory;
  digiByteCoreSet := digiByteCoreSet;
  getRawTransaction := getRawTransaction;
  getBlockHeight := getBlockHeight;
  allocatable := allocatable
|}.

Section utxo_operations.
Context `{db : Sqlite}.

Definition cache_key (txid : string) (vout : Z) : string := txid ++ ":" ++ to_string vout.

(** [_utxoCacheActive[key] = info], then the rotation of the generations. *)
Definition cache_utxo (key : string) (info : string * Z) (s : store) : store :=
  let active := <[key := info]> (_utxoCacheActive s) in
  if MAX_UTXO_CACHE <? Z.of_nat (size active) then mk_store (utxos s) ∅ active
  else mk_store (utxos s) active (_utxoCacheOld s).

(** One row per asset, numbered by [aout]. *)
Fixpoint create_assets (value : AssetUTXO) (blobTXID : Blob) (heightCreated : Z) (assetIssuance : bool)
    (l : list DigiAsset) (aout : Z) : M store unit :=
  match l with
  | [] => mret tt
  | asset :: l =>
      index ← lift (getAssetIndex false asset);
      modify (set_utxos (stmtCreateUTXO
        (mk_row (utxo_address value) blobTXID (utxo_vout value) (Some aout) (i64 index) (i64 (getCount asset))
           (i32 heightCreated) (Z.b2z assetIssuance) None None)));;
      create_assets value blobTXID heightCreated assetIssuance l (aout + 1)
  end.

Definition createUTXO (value : AssetUTXO) (heightCreated : Z) (assetIssuance : bool) : M store unit :=
  if bool_decide (utxo_address value = ""%string) then mret tt
  else if is_empty (assets value) && beenPrunedNonAssetUTXOHistory then
    modify (cache_utxo (cache_key (utxo_txid value) (utxo_vout value)) (utxo_address value, digibyte value))
  else
    blobTXID ← lift (Blob_of_hex (utxo_txid value));
    modify (set_utxos (stmtCreateUTXO
      (mk_row (utxo_address value) blobTXID (utxo_vout value) None 1 (i64 (digibyte value)) (i32 heightCreated) 0 None None)));;
    create_assets value blobTXID heightCreated assetIssuance (assets value) 0.

Definition spendUTXO (txid : string) (vout heightSpent : Z) (spentTXID : string) : M store unit :=
  blobTXID ← lift (Blob_of_hex txid);
  blobSpendingTXID ← lift (Blob_of_hex spentTXID);
  modify (set_utxos (stmtSpendUTXO (i32 heightSpent) blobSpendingTXID blobTXID (i32 vout))).

(** *** Reading *)
Definition getAsset (assetIndex amount : Z) : outcome DigiAsset :=
  match stmtGetAsset assetIndex with
  | None => exceptionFailedSelect
  | Some (assetId, cid, issuerAddress, serializedRules, heightCreated, heightUpdated) =>
      rules ← fst (deserialize_rules allocatable serializedRules default_rules 0);
      DigiAsset_stored assetIndex assetId cid (getAddressKYC issuerAddress) rules
        (u32 heightCreated) (u32 heightUpdated) amount
  end.

(** The loop over the rows: index 1 is the DigiByte value of the output. *)
Fixpoint read_rows (rows : list utxo_row) (result : AssetUTXO) : outcome AssetUTXO :=
  match rows with
  | [] => Ok result
  | r :: rows =>
      let assetIndex := u32 (row_assetIndex r) in
      let amount := u64 (row_amount r) in
      if assetIndex =? 1 then
        read_rows rows (mk_AssetUTXO (utxo_txid result) (utxo_vout result) (row_address r) amount (assets result))
      else
        asset ← getAsset assetIndex amount;
        read_rows rows (set_assets (assets result ++ [asset]) result)
  end.

Definition exceptionDataPruned : exn :=
  class_exception "Database::exceptionDataPruned" "The requested data has been pruned".

(** The fallback to DigiByte Core. *)
Definition utxo_from_core (txid : string) (vout_index height : Z) : outcome AssetUTXO :=
  if negb digiByteCoreSet || (i32 height <? beenPrunedUTXOHistory) then Throw exceptionDataPruned
  else
    txData ← getRawTransaction txid;
    match vout txData !! Z.to_nat vout_index with
    | Some o =>
        match addresses (scriptPubKey o) with
        | address :: _ => Ok (mk_AssetUTXO txid (u16 vout_index) address (valueS o) [])
        | [] => Throw exceptionDataPruned
        end
    | None => Throw exceptionDataPruned
    end.

(** [digibyte] of a fresh result is never read before it is set, except when a
    stored output lacks its DigiByte row; it is zero here. *)
Definition getAssetUTXO (txid : string) (vout_index height : Z) : M store AssetUTXO :=
  blobTXID ← lift (Blob_of_hex txid);
  s ← get;
  match stmtGetAssetUTXO blobTXID (i32 vout_index) (utxos s) with
  | r :: rows => lift (read_rows (r :: rows) (mk_AssetUTXO txid (u16 vout_index) "" 0 []))
  | [] =>
      let cacheKey := cache_key txid vout_index in
      match _utxoCacheActive s !! cacheKey with
      | Some (address, digibyte) =>
          put (mk_store (utxos s) (delete cacheKey (_utxoCacheActive s)) (_utxoCacheOld s));;
          mret (mk_AssetUTXO txid (u16 vout_index) address digibyte [])
      | None =>
          match _utxoCacheOld s !! cacheKey with
          | Some (address, digibyte) =>
              put (mk_store (utxos s) (_utxoCacheActive s) (delete cacheKey (_utxoCacheOld s)));;
              mret (mk_AssetUTXO txid (u16 vout_index) address digibyte [])
          | None =>
              if beenPrunedNonAssetUTXOHistory then mret (mk_AssetUTXO txid (u16 vout_index) "" 0 [])
              else lift (utxo_from_core txid vout_index height)
          end
      end
  end.
End utxo_operations.
