(* ===== verification/UtxoTheorems.v ===== *)
(** UtxoTheorems: what the outputs store promises: an output that was created
    is read back, spent or not, and the cache of plain outputs is bounded and
    keeps an output for the next million creations. *)

From stdpp Require Import pretty.
From S2P Require Import Prelude.
From S2P Require Import BitIOCodec.
From S2P Require Import AssetTypes.
From S2P Require Import Serialize.
From S2P Require Import DigiAssetRules.
From S2P Require Import KYC.
From S2P Require Import Blob.
From S2P Require Import OpReturn.
From S2P Require Import Database.
From S2P Require Import DigiDollar.
From S2P Require Import DigiAsset.
From S2P Require Import UtxoStore.
From S2P Require Import CString.

Ltac Zify.zify_post_hook ::= Z.div_mod_to_equations.

(** ** Rows *)
Lemma u64_i64 z : 0 <= z < two64 -> u64 (i64 z) = z.
Proof. unfold u64, i64, two64. intros. change (2 ^ 63) with 9223372036854775808. lia. Qed.

Lemma u32_i64 z : 0 <= z < two32 -> u32 (i64 z) = z.
Proof. unfold u32, i64, two64, two32. intros. change (2 ^ 63) with 9223372036854775808. lia. Qed.

(** A row can be added to a key that no stored row has. *)
Lemma stmtCreateUTXO_fresh r l : existsb (same_key r) l = false -> stmtCreateUTXO r l = l ++ [r].
Proof. unfold stmtCreateUTXO. by intros ->. Qed.

Lemma same_key_outpoint r r' : same_key r r' = true -> at_outpoint (row_txid r) (row_vout r) r' = true.
Proof.
  unfold same_key, at_outpoint. rewrite !andb_true_iff, !bool_decide_eq_true, !Z.eqb_eq. intros (((_ & ->) & ->) & _). done.
Qed.

Definition rows_at (txid : Blob) (vout : Z) (l : list utxo_row) : list utxo_row := List.filter (at_outpoint txid vout) l.

Lemma rows_at_app txid vout l l' : rows_at txid vout (l ++ l') = rows_at txid vout l ++ rows_at txid vout l'.
Proof. apply List.filter_app. Qed.

Lemma key_not_found r l :
  existsb (same_key r) (rows_at (row_txid r) (row_vout r) l) = false -> existsb (same_key r) l = false.
Proof.
  induction l as [|x l IH]; [done|]. cbn [existsb rows_at List.filter].
  destruct (same_key r x) eqn:E.
  - rewrite (same_key_outpoint _ _ E). cbn [existsb]. by rewrite E.
  - destruct (at_outpoint _ _ x); cbn [existsb]; rewrite ?E; apply IH.
Qed.

Lemma insert_row_nonempty r l : insert_row r l <> [].
Proof. destruct l as [|x l]; [done|]. cbn. by destruct (aout_le _ _). Qed.

Lemma sort_aout_nil l : sort_aout l = [] -> l = [].
Proof. destruct l as [|r l]; [done|]. intros H. by apply insert_row_nonempty in H. Qed.

Lemma outpoint_elsewhere blob vout r blob' vout' :
  row_txid r = blob -> row_vout r = vout -> ~ (blob' = blob /\ vout' = vout) -> at_outpoint blob' vout' r = false.
Proof.
  intros <- <- Hne. apply andb_false_iff.
  destruct (decide (row_txid r = blob')); [right|left; by apply bool_decide_eq_false_2].
  apply Z.eqb_neq. intros <-. apply Hne. done.
Qed.

(** *** The rows of an output *)
Definition dgb_row (v : AssetUTXO) (blob : Blob) (h : Z) : utxo_row :=
  mk_row (utxo_address v) blob (utxo_vout v) None 1 (i64 (digibyte v)) (i32 h) 0 None None.
Definition asset_row (v : AssetUTXO) (blob : Blob) (h : Z) (issuance : bool) (aout index count : Z) : utxo_row :=
  mk_row (utxo_address v) blob (utxo_vout v) (Some aout) (i64 index) (i64 count) (i32 h) (Z.b2z issuance) None None.

Fixpoint asset_rows (v : AssetUTXO) (blob : Blob) (h : Z) (issuance : bool) (aout : Z) (l : list DigiAsset) : list utxo_row :=
  match l with
  | [] => []
  | a :: l => asset_row v blob h issuance aout (_assetIndex a) (getCount a) :: asset_rows v blob h issuance (aout + 1) l
  end.

Lemma rows_at_asset_rows v blob h i aout l :
  rows_at blob (utxo_vout v) (asset_rows v blob h i aout l) = asset_rows v blob h i aout l.
Proof.
  revert aout; induction l as [|a l IH]; intros aout; [done|]. cbn [asset_rows rows_at List.filter].
  unfold at_outpoint at 1. cbn [row_txid row_vout asset_row].
  rewrite bool_decide_eq_true_2, Z.eqb_refl by done. cbn. f_equal. apply IH.
Qed.

Lemma rows_elsewhere v blob h i aout l blob' vout' :
  ~ (blob' = blob /\ vout' = utxo_vout v) -> rows_at blob' vout' (asset_rows v blob h i aout l) = [].
Proof.
  intros Hne. revert aout; induction l as [|a l IH]; intros aout; [done|]. cbn [asset_rows rows_at List.filter].
  rewrite (outpoint_elsewhere blob (utxo_vout v)) by done. apply IH.
Qed.

Definition output_rows (v : AssetUTXO) (blob : Blob) (h : Z) (issuance : bool) : list utxo_row :=
  dgb_row v blob h :: asset_rows v blob h issuance 0 (assets v).

Lemma rows_at_output v blob h i : rows_at blob (utxo_vout v) (output_rows v blob h i) = output_rows v blob h i.
Proof.
  unfold output_rows. cbn [rows_at List.filter]. unfold at_outpoint at 1. cbn [row_txid row_vout dgb_row].
  rewrite bool_decide_eq_true_2, Z.eqb_refl by done. cbn [andb]. f_equal. apply rows_at_asset_rows.
Qed.

Lemma rows_at_output_elsewhere v blob h i blob' vout' :
  ~ (blob' = blob /\ vout' = utxo_vout v) -> rows_at blob' vout' (output_rows v blob h i) = [].
Proof.
  intros H. unfold output_rows. cbn [rows_at List.filter].
  rewrite (outpoint_elsewhere blob (utxo_vout v)) by done. by apply rows_elsewhere.
Qed.

(** The rows of an output are already in the order of [aout]. *)
Lemma sort_asset_rows v blob h i aout l : sort_aout (asset_rows v blob h i aout l) = asset_rows v blob h i aout l.
Proof.
  revert aout; induction l as [|a l IH]; intros aout; [done|]. cbn [asset_rows].
  unfold sort_aout in *. cbn [foldr]. rewrite IH. destruct l as [|a' l]; [done|]. cbn [asset_rows insert_row aout_le row_aout asset_row].
  assert (aout <=? aout + 1 = true) as -> by (apply Z.leb_le; lia). done.
Qed.

Lemma sort_output_rows v blob h i : sort_aout (output_rows v blob h i) = output_rows v blob h i.
Proof.
  unfold sort_aout, output_rows. cbn [foldr]. fold (sort_aout (asset_rows v blob h i 0 (assets v))).
  rewrite sort_asset_rows. by destruct (assets v).
Qed.

(** ** Creating *)
Section creation.
Context `{db : Sqlite}.

Lemma asset_rows_last v blob h i aout l n m :
  existsb (same_key (asset_row v blob h i (aout + Z.of_nat (length l)) n m)) (asset_rows v blob h i aout l) = false.
Proof.
  revert aout; induction l as [|a l IH]; intros aout; [done|]. cbn [asset_rows existsb length].
  replace (aout + Z.of_nat (S (length l))) with (aout + 1 + Z.of_nat (length l)) by lia. rewrite IH, orb_false_r.
  unfold same_key. cbn. apply andb_false_iff. right. apply Z.eqb_neq. lia.
Qed.

Lemma asset_rows_snoc v blob h i aout l a :
  asset_rows v blob h i aout (l ++ [a])
  = asset_rows v blob h i aout l ++ [asset_row v blob h i (aout + Z.of_nat (length l)) (_assetIndex a) (getCount a)].
Proof.
  revert aout; induction l as [|a' l IH]; intros aout; cbn [asset_rows app length].
  - by rewrite Z.add_0_r.
  - rewrite IH. do 3 f_equal. f_equal. lia.
Qed.

Lemma create_assets_run v blob h i done_ l table active old :
  rows_at blob (utxo_vout v) table = [] ->
  Forall (fun a => _assetIndex a <> 0) l ->
  create_assets v blob h i l (Z.of_nat (length done_))
    (mk_store (table ++ dgb_row v blob h :: asset_rows v blob h i 0 done_) active old)
  = (Ok tt, mk_store (table ++ dgb_row v blob h :: asset_rows v blob h i 0 (done_ ++ l)) active old).
Proof.
  intros Ht. revert done_; induction l as [|a l IH]; intros d Hl; cbn [create_assets]; [by rewrite app_nil_r|].
  inversion_clear Hl as [|?? Ha Hl'].
  assert (getAssetIndex false a = Ok (_assetIndex a)) as E by (unfold getAssetIndex; destruct (Z.eqb_spec (_assetIndex a) 0); done).
  rewrite E. unfold mbind, M_bind, lift, modify, set_utxos. cbn [utxos _utxoCacheActive _utxoCacheOld].
  fold (asset_row v blob h i (Z.of_nat (length d)) (_assetIndex a) (getCount a)).
  rewrite stmtCreateUTXO_fresh.
  - rewrite <- app_assoc. cbn [app].
    replace (asset_row v blob h i (Z.of_nat (length d))) with (asset_row v blob h i (0 + Z.of_nat (length d))) by done.
    rewrite <- asset_rows_snoc. specialize (IH (d ++ [a]) Hl'). rewrite length_app, Nat2Z.inj_add, <- app_assoc in IH. exact IH.
  - apply key_not_found. cbn [row_txid row_vout asset_row]. rewrite rows_at_app, Ht. cbn [app].
    change (dgb_row v blob h :: ?l) with ([dgb_row v blob h] ++ l). rewrite rows_at_app, rows_at_asset_rows, existsb_app.
    apply orb_false_iff. split.
    + cbn [rows_at List.filter]. destruct (at_outpoint _ _ _); [|done]. unfold same_key. cbn. by rewrite !andb_false_r.
    + apply (asset_rows_last v blob h i 0 d).
Qed.

Definition created (v : AssetUTXO) (blob : Blob) (h : Z) (issuance : bool) (s : store) : store :=
  mk_store (utxos s ++ output_rows v blob h issuance) (_utxoCacheActive s) (_utxoCacheOld s).

Lemma createUTXO_run v blob h i s :
  utxo_address v <> ""%string -> assets v <> [] \/ beenPrunedNonAssetUTXOHistory = false ->
  Blob_of_hex (utxo_txid v) = Ok blob -> rows_at blob (utxo_vout v) (utxos s) = [] ->
  Forall (fun a => _assetIndex a <> 0) (assets v) ->
  createUTXO v h i s
  = (Ok tt, created v blob h i s).
Proof.
  intros Ha Hp Hb Ht Hi. unfold createUTXO. rewrite bool_decide_eq_false_2 by done.
  assert (is_empty (assets v) && beenPrunedNonAssetUTXOHistory = false) as ->.
  { destruct Hp as [Hp|Hp]; [by destruct (assets v)|rewrite Hp; apply andb_false_r]. }
  rewrite Hb. unfold mbind, M_bind, lift, modify, set_utxos. fold (dgb_row v blob h).
  rewrite stmtCreateUTXO_fresh by (apply key_not_found; cbn [row_txid row_vout dgb_row]; by rewrite Ht).
  apply (create_assets_run v blob h i [] (assets v) (utxos s)); done.
Qed.
End creation.

(** ** Reading back *)
Section reading.
Context `{db : Sqlite}.

(** [a'] is what the database builds for the stored asset [a]. *)
Definition stored_as (a a' : DigiAsset) : Prop :=
  2 <= _assetIndex a < two32 /\ 0 <= getCount a < two64 /\ getAsset (_assetIndex a) (getCount a) = Ok a'.

Lemma DigiAsset_stored_units index id cid issuer rules hc hu amount a :
  DigiAsset_stored index id cid issuer rules hc hu amount = Ok a -> _assetIndex a = index /\ getCount a = amount.
Proof.
  unfold DigiAsset_stored. repeat case_match; intros H'; simpl in *;
    repeat match goal with H : context [id_divisibility id] |- _ => destruct (id_divisibility id) end;
    simplify_eq/=; done.
Qed.

Lemma getAsset_units index amount a : getAsset index amount = Ok a -> _assetIndex a = index /\ getCount a = amount.
Proof.
  unfold getAsset. destruct (stmtGetAsset index) as [[[[[[id cid] addr] rules] hc] hu]|]; [|done].
  destruct (fst (deserialize_rules _ _ _ _)); cbn; try done. apply DigiAsset_stored_units.
Qed.

Lemma read_asset_rows v blob h i aout l l' u :
  Forall2 stored_as l l' -> read_rows (asset_rows v blob h i aout l) u = Ok (set_assets (assets u ++ l') u).
Proof.
  intros H. revert aout u; induction H as [|a a' l l' (Hi & Hc & Ha) _ IH]; intros aout u; cbn [asset_rows read_rows].
  - rewrite app_nil_r. by destruct u.
  - cbn [row_assetIndex row_amount asset_row]. rewrite u32_i64, u64_i64 by lia.
    destruct (Z.eqb_spec (_assetIndex a) 1); [lia|]. rewrite Ha. cbn. rewrite IH. cbn. by rewrite <- app_assoc.
Qed.

Lemma read_output_rows v blob h i l' txid :
  utxo_txid v = txid -> 0 <= utxo_vout v < 65536 -> 0 <= digibyte v < two64 -> Forall2 stored_as (assets v) l' ->
  read_rows (output_rows v blob h i) (mk_AssetUTXO txid (u16 (utxo_vout v)) "" 0 [])
  = Ok (set_assets l' v).
Proof.
  intros <- Hv Hd Hl. unfold output_rows. cbn [read_rows row_assetIndex row_amount row_address dgb_row].
  change (u32 1 =? 1) with true. rewrite u64_i64 by done. cbn [utxo_txid utxo_vout assets].
  rewrite (read_asset_rows _ _ _ _ _ _ l') by done. unfold set_assets, u16. cbn [utxo_txid utxo_vout utxo_address digibyte assets app].
  by rewrite Z.mod_small by done.
Qed.

(** *** Spent rows *)
Definition spent_row (height : Z) (by_ : Blob) (r : utxo_row) : utxo_row :=
  mk_row (row_address r) (row_txid r) (row_vout r) (row_aout r) (row_assetIndex r) (row_amount r)
    (row_heightCreated r) (row_issuance r) (Some height) (Some by_).

Lemma rows_at_spend height by_ txid vout l :
  rows_at txid vout (stmtSpendUTXO height by_ txid vout l) = map (spent_row height by_) (rows_at txid vout l).
Proof.
  induction l as [|r l IH]; [done|]. unfold stmtSpendUTXO in *. cbn [map rows_at List.filter].
  destruct (at_outpoint txid vout r) eqn:E.
  - assert (at_outpoint txid vout (spent_row height by_ r) = true) as E' by done.
    fold (spent_row height by_ r). rewrite E'. cbn [map]. f_equal. apply IH.
  - rewrite E. apply IH.
Qed.

Lemma rows_at_spend_any height by_ txid vout txid' vout' l :
  rows_at txid vout l = [] -> rows_at txid vout (stmtSpendUTXO height by_ txid' vout' l) = [].
Proof.
  induction l as [|r l IH]; [done|]. unfold stmtSpendUTXO in *. cbn [map rows_at List.filter].
  destruct (at_outpoint txid vout r) eqn:E; [done|]. intros H.
  assert (at_outpoint txid vout (if at_outpoint txid' vout' r then spent_row height by_ r else r) = false) as E'
    by (by destruct (at_outpoint txid' vout' r)).
  fold (spent_row height by_ r). rewrite E'. by apply IH.
Qed.

Lemma insert_row_spent height by_ r l :
  insert_row (spent_row height by_ r) (map (spent_row height by_) l) = map (spent_row height by_) (insert_row r l).
Proof.
  induction l as [|x l IH]; [done|]. cbn [map insert_row row_aout spent_row].
  destruct (aout_le _ _); [done|]. by rewrite IH.
Qed.

Lemma sort_spent height by_ l : sort_aout (map (spent_row height by_) l) = map (spent_row height by_) (sort_aout l).
Proof.
  unfold sort_aout. induction l as [|r l IH]; [done|]. cbn [map foldr]. by rewrite IH, insert_row_spent.
Qed.

Lemma read_rows_spent height by_ l u : read_rows (map (spent_row height by_) l) u = read_rows l u.
Proof.
  revert u; induction l as [|r l IH]; intros u; [done|]. cbn [map read_rows row_assetIndex row_amount row_address spent_row].
  destruct (u32 (row_assetIndex r) =? 1); [apply IH|]. destruct (getAsset _ _); cbn; [apply IH|done..].
Qed.

(** A store whose rows at the outpoint are those of [v], spent or not. *)
Lemma getAssetUTXO_stored v blob h i loaded height s :
  Blob_of_hex (utxo_txid v) = Ok blob -> 0 <= utxo_vout v < 65536 -> 0 <= digibyte v < two64 ->
  Forall2 stored_as (assets v) loaded ->
  (exists f, (f = (fun r => r) \/ exists sh by_, f = spent_row sh by_)
     /\ rows_at blob (utxo_vout v) (utxos s) = map f (output_rows v blob h i)) ->
  getAssetUTXO (utxo_txid v) (utxo_vout v) height s = (Ok (set_assets loaded v), s).
Proof.
  intros Hb Hv Hd Hl (f & Hf & Hr). unfold getAssetUTXO. rewrite Hb, (i32_small (utxo_vout v)) by lia. unfold mbind, M_bind, lift, get.
  assert (stmtGetAssetUTXO blob (utxo_vout v) (utxos s) = map f (output_rows v blob h i)) as ->.
  { unfold stmtGetAssetUTXO. rewrite_conv @List.filter Hr.
    destruct Hf as [->|(sh & by_ & ->)]; [rewrite map_id|rewrite sort_spent; f_equal]; apply sort_output_rows. }
  cbn [map output_rows].
  match goal with |- (read_rows ?l _, _) = _ => change l with (map f (output_rows v blob h i)) end.
  f_equal. rewrite <- (read_output_rows v blob h i loaded (utxo_txid v)) by done.
  destruct Hf as [->|(sh & by_ & ->)]; [by rewrite map_id|apply read_rows_spent].
Qed.
End reading.

(** ** The round trip *)

(** C32: An output that is created is read back. Storing an output with an
    address at an outpoint that has no rows yet, whose assets have an index and
    are known to the database, succeeds; looking the outpoint up then gives the
    address, the DigiBytes and, in order, the assets with the same index and
    count, and leaves the store unchanged. Recording that the output is spent
    does not change what the look-up returns, the sender look-up finds its
    address, and no other outpoint is affected. *)
Theorem utxo_store_roundtrip `{db : Sqlite} (v : AssetUTXO) (loaded : list DigiAsset) (blob : Blob)
    (height : Z) (issuance : bool) (s : store) :
  utxo_address v <> ""%string -> Blob_of_hex (utxo_txid v) = Ok blob ->
  assets v <> [] \/ beenPrunedNonAssetUTXOHistory = false ->
  0 <= utxo_vout v < 65536 -> 0 <= digibyte v < two64 ->
  stmtGetAssetUTXO blob (utxo_vout v) (utxos s) = [] ->
  Forall2 stored_as (assets v) loaded ->
  exists s',
    createUTXO v height issuance s = (Ok tt, s')
    /\ (forall h, getAssetUTXO (utxo_txid v) (utxo_vout v) h s' = (Ok (set_assets loaded v), s'))
    /\ Forall2 (fun a a' => _assetIndex a' = _assetIndex a /\ getCount a' = getCount a) (assets v) loaded
    /\ (forall h spender by_, Blob_of_hex spender = Ok by_ ->
          exists s'', spendUTXO (utxo_txid v) (utxo_vout v) h spender s' = (Ok tt, s'')
            /\ forall h', getAssetUTXO (utxo_txid v) (utxo_vout v) h' s'' = (Ok (set_assets loaded v), s''))
    /\ getSendingAddress (db := with_utxos db s') (utxo_txid v) (utxo_vout v) = Ok (utxo_address v)
    /\ (forall blob' vout', ~ (blob' = blob /\ vout' = utxo_vout v) ->
          stmtGetAssetUTXO blob' vout' (utxos s') = stmtGetAssetUTXO blob' vout' (utxos s)).
Proof.
  intros Ha Hb Hp Hv Hd Hs Hl. apply sort_aout_nil in Hs.
  assert (Forall (fun a => _assetIndex a <> 0) (assets v)) as Hi.
  { clear -Hl. induction Hl as [|a a' l l' (Hi & _) _ IH]; constructor; [lia|done]. }
  set (s' := created v blob height issuance s).
  assert (rows_at blob (utxo_vout v) (utxos s') = output_rows v blob height issuance) as Hr.
  { unfold s', created. cbn [utxos]. rewrite rows_at_app, rows_at_output. by rewrite_conv rows_at Hs. }
  exists s'. split_and!.
  - by apply createUTXO_run.
  - intros h. eapply getAssetUTXO_stored; try done. exists (fun r => r). rewrite map_id. split; [by left|exact Hr].
  - clear -Hl. induction Hl as [|a a' l l' (_ & _ & H) _ IH]; constructor; [|done]. by apply getAsset_units in H.
  - intros h spender by_ Hs2. eexists. split.
    + unfold spendUTXO, mbind, M_bind, lift, modify. rewrite Hb, Hs2. reflexivity.
    + intros h'. eapply getAssetUTXO_stored; try done. exists (spent_row (i32 h) by_). split; [by right; eauto|].
      unfold set_utxos. cbn [utxos]. by rewrite (i32_small (utxo_vout v)), rows_at_spend, Hr by lia.
  - unfold getSendingAddress. rewrite Hb, i32_small by lia.
    assert (select_spending_address (utxos s') blob (utxo_vout v) = Some (utxo_address v)) as E
      by (unfold select_spending_address; by rewrite_conv @List.filter Hr).
    cbn -[s' select_spending_address]. by rewrite E.
  - intros blob' vout' Hne. unfold stmtGetAssetUTXO, s', created. cbn [utxos]. f_equal.
    match goal with |- List.filter _ ?l = _ => change (rows_at blob' vout' l = rows_at blob' vout' (utxos s)) end.
    by rewrite rows_at_app, rows_at_output_elsewhere, app_nil_r.
Qed.

(** *** A concrete chain *)
Definition chain_db (pruned : bool) : Sqlite := {|
  stmtGetHeightAssetCreated := fun _ => None;
  stmtGetAssetRules := fun _ => None;
  stmtGetSpendingAddress := fun _ _ => None;
  stmtGetKYC := fun _ => None;
  stmtGetValidExchangeRate := fun _ _ _ => [];
  stmtGetAsset := fun i => if i =? 7 then
    Some ("La3k8W5zw6KcNJqAbZkQGDVKVbsLwRkR3n3xLa"%string, "bafk"%string, "issuer"%string, serialize_rules [] default_rules, 100, 100)
    else None;
  stmtIsWatchAddress := fun _ => false;
  beenPrunedNonAssetUTXOHistory := pruned;
  beenPrunedUTXOHistory := 0;
  digiByteCoreSet := false;
  getRawTransaction := fun _ => Throw length_error;
  getBlockHeight := fun _ => Ok 0;
  allocatable := fun n => n <? 1000
|}.
Definition chain_asset (count : Z) : DigiAsset := set_count count (set_assetIndex 7 DigiAsset_default).
Definition chain_utxo (l : list DigiAsset) : AssetUTXO := mk_AssetUTXO "00ff" 1 "addr" 700 l.

Lemma utxo_store_roundtrip_witness :
  exists loaded s', createUTXO (db := chain_db true) (chain_utxo [chain_asset 50]) 120 false (mk_store [] ∅ ∅) = (Ok tt, s')
    /\ map getCount loaded = [50]
    /\ getAssetUTXO (db := chain_db true) "00ff" 1 130 s' = (Ok (chain_utxo loaded), s').
Proof.
  assert (exists a, getAsset (db := chain_db true) 7 50 = Ok a) as [a Ha] by (eexists; vm_compute; reflexivity).
  exists [a]. edestruct (utxo_store_roundtrip (db := chain_db true) (chain_utxo [chain_asset 50]) [a] [0; 255] 120 false (mk_store [] ∅ ∅))
    as (s' & Hc & Hg & Hu & _).
  - done.
  - reflexivity.
  - by left.
  - split; done.
  - split; done.
  - reflexivity.
  - constructor; [|constructor]. split_and!; [done..|exact Ha].
  - exists s'. split; [exact Hc|]. split; [|apply Hg].
    inversion_clear Hu as [|???? [_ Hu']]. cbn. by rewrite Hu'.
Defined.

(** ** The cache of plain outputs *)
Lemma to_string_no_colon z : (":"%char : ascii) ∉ chars (to_string z).
Proof.
  unfold to_string. intros H. pose proof (pretty_digits (Z.to_N z)) as Hd. rewrite forallb_forall in Hd.
  apply list_elem_of_In, Hd in H. by vm_compute in H.
Qed.

Lemma split_at_last {A} (x : A) l l' d d' : l ++ x :: d = l' ++ x :: d' -> x ∉ d -> x ∉ d' -> l = l' /\ d = d'.
Proof.
  intros H Hd Hd'. apply (f_equal (@rev A)) in H. rewrite !rev_app_distr in H. cbn [rev] in H.
  rewrite <- !app_assoc in H. cbn [app] in H.
  assert (forall r r' t t' : list A, x ∉ r -> x ∉ r' -> r ++ x :: t = r' ++ x :: t' -> r = r' /\ t = t') as Hs.
  { induction r as [|y r IH]; intros [|y' r'] t t' Hr Hr' E; cbn in E; simplify_eq; try done.
    - by apply not_elem_of_cons in Hr' as [? _].
    - by apply not_elem_of_cons in Hr as [? _].
    - apply not_elem_of_cons in Hr as [_ Hr], Hr' as [_ Hr']. destruct (IH r' t t'); simplify_eq; done. }
  apply Hs in H as [E1 E2]; [|rewrite list_elem_of_In, <- in_rev, <- list_elem_of_In; done..].
  apply (f_equal (@rev A)) in E1, E2. by rewrite !rev_involutive in *.
Qed.

Lemma cache_key_inj txid vout txid' vout' :
  0 <= vout -> 0 <= vout' -> cache_key txid vout = cache_key txid' vout' -> txid = txid' /\ vout = vout'.
Proof.
  intros Hv Hv' H. unfold cache_key in H. apply (f_equal chars) in H. rewrite !chars_app in H.
  apply (split_at_last ":"%char) in H as [H1 H2]; [|apply to_string_no_colon..].
  apply (f_equal str) in H1, H2. unfold str, chars in H1, H2.
  rewrite !String.string_of_list_ascii_of_string in H1, H2. split; [done|].
  unfold to_string in H2. apply (inj pretty) in H2. lia.
Qed.

(** *** Operations on the store *)
Inductive store_op :=
  | op_create (v : AssetUTXO) (height : Z) (issuance : bool)
  | op_spend (txid : string) (vout height : Z) (spender : string)
  | op_get (txid : string) (vout height : Z).

(** The store after an operation, whether it ended normally or not. *)
Definition run_op `{db : Sqlite} (s : store) (op : store_op) : store :=
  match op with
  | op_create v h i => snd (createUTXO v h i s)
  | op_spend txid vout h spender => snd (spendUTXO txid vout h spender s)
  | op_get txid vout h => snd (getAssetUTXO txid vout h s)
  end.
Definition run_ops `{db : Sqlite} (ops : list store_op) (s : store) : store := foldl run_op s ops.

Definition is_creation (op : store_op) : bool := match op with op_create _ _ _ => true | _ => false end.
Definition creations (ops : list store_op) : Z := Z.of_nat (length (List.filter is_creation ops)).

(** The operation neither creates nor looks up the outpoint. *)
Definition leaves_alone (txid : string) (vout : Z) (op : store_op) : Prop :=
  match op with
  | op_create v _ _ => ~ (Blob_of_hex (utxo_txid v) = Blob_of_hex txid /\ utxo_vout v = vout) /\ 0 <= utxo_vout v
  | op_spend _ _ _ _ => True
  | op_get txid' vout' _ => ~ (Blob_of_hex txid' = Blob_of_hex txid /\ vout' = vout) /\ 0 <= vout'
  end.

Definition cache_bounded (s : store) : Prop :=
  Z.of_nat (size (_utxoCacheActive s)) <= MAX_UTXO_CACHE /\ Z.of_nat (size (_utxoCacheOld s)) <= MAX_UTXO_CACHE + 1.

Section caching.
Context `{db : Sqlite}.

Definition same_caches (s s' : store) : Prop :=
  _utxoCacheActive s' = _utxoCacheActive s /\ _utxoCacheOld s' = _utxoCacheOld s.

Lemma create_assets_caches v blob h i l aout s : same_caches s (snd (create_assets v blob h i l aout s)).
Proof.
  revert aout s; induction l as [|a l IH]; intros aout s; [done|]. cbn [create_assets].
  unfold mbind, M_bind, lift, modify. destruct (getAssetIndex false a); [|done..].
  match goal with |- same_caches s (snd (create_assets _ _ _ _ _ ?n ?t)) => exact (IH n t) end.
Qed.

(** Creating touches the cache only with the output's own key. *)
Lemma createUTXO_caches v h i s :
  let s' := snd (createUTXO v h i s) in
  same_caches s s'
  \/ s' = cache_utxo (cache_key (utxo_txid v) (utxo_vout v)) (utxo_address v, digibyte v) s.
Proof.
  unfold createUTXO. case_bool_decide; [by left|]. destruct (_ && _); [by right|]. left.
  unfold mbind, M_bind, lift, modify. destruct (Blob_of_hex (utxo_txid v)) as [blob| | |]; [|done..].
  match goal with |- same_caches s (snd (create_assets _ _ _ _ ?l ?n ?t)) => exact (create_assets_caches v blob h i l n t) end.
Qed.

(** A look-up removes at most the key it found. *)
Lemma getAssetUTXO_caches txid vout h s :
  let s' := snd (getAssetUTXO txid vout h s) in
  let k := cache_key txid vout in
  utxos s' = utxos s
  /\ (same_caches s s'
      \/ (_utxoCacheActive s' = delete k (_utxoCacheActive s) /\ _utxoCacheOld s' = _utxoCacheOld s)
      \/ (_utxoCacheActive s' = _utxoCacheActive s /\ _utxoCacheOld s' = delete k (_utxoCacheOld s))).
Proof.
  unfold getAssetUTXO, mbind, M_bind, lift, get, put. destruct (Blob_of_hex txid); [|by split; [|left]..].
  repeat case_match; simplify_eq/=; (split; [done|]); first [by left|right; by left|right; by right].
Qed.

Lemma size_delete_le {V} (k : string) (m : gmap string V) : (size (delete k m) <= size m)%nat.
Proof. destruct (m !! k) eqn:E; [rewrite map_size_delete_Some by eauto; lia|by rewrite delete_id]. Qed.

Lemma size_insert_le {V} (k : string) (x : V) (m : gmap string V) : (size (<[k:=x]> m) <= S (size m))%nat.
Proof. rewrite map_size_insert. case_match; cbn; lia. Qed.

Lemma cache_utxo_bounded key info s : cache_bounded s -> cache_bounded (cache_utxo key info s).
Proof.
  intros [Ha Ho]. pose proof (size_insert_le key info (_utxoCacheActive s)). unfold cache_utxo, cache_bounded.
  destruct (Z.ltb_spec MAX_UTXO_CACHE (Z.of_nat (size (<[key:=info]> (_utxoCacheActive s))))).
  all: cbn [_utxoCacheActive _utxoCacheOld]; rewrite ?map_size_empty; unfold MAX_UTXO_CACHE in *; split; lia.
Qed.

Lemma run_op_bounded op s : cache_bounded s -> cache_bounded (run_op s op).
Proof.
  intros Hb. destruct op as [v h i|txid vout h sp|txid vout h]; cbn [run_op].
  - destruct (createUTXO_caches v h i s) as [[E1 E2]| ->]; [|by apply cache_utxo_bounded].
    unfold cache_bounded in *. by rewrite E1, E2.
  - unfold spendUTXO, mbind, M_bind, lift, modify. destruct (Blob_of_hex txid); [|done..]. by destruct (Blob_of_hex sp).
  - destruct (getAssetUTXO_caches txid vout h s) as (_ & H). unfold cache_bounded in *.
    pose proof (size_delete_le (cache_key txid vout) (_utxoCacheActive s)).
    pose proof (size_delete_le (cache_key txid vout) (_utxoCacheOld s)).
    destruct H as [[-> ->]|[[-> ->]|[-> ->]]]; lia.
Qed.

Lemma run_ops_bounded ops s : cache_bounded s -> cache_bounded (run_ops ops s).
Proof. revert s; induction ops as [|op ops IH]; intros s H; [done|]. apply IH. by apply run_op_bounded. Qed.

(** *** Retention *)

(** [k] is found for at least [n] more creations: it is in the active
    generation, or in the old one while the active has room. *)
Definition retained (k : string) (info : string * Z) (n : Z) (s : store) : Prop :=
  _utxoCacheActive s !! k = Some info
  \/ (_utxoCacheActive s !! k = None /\ _utxoCacheOld s !! k = Some info
      /\ Z.of_nat (size (_utxoCacheActive s)) + n <= MAX_UTXO_CACHE).

Lemma retained_start k info s : retained k info MAX_UTXO_CACHE (cache_utxo k info s).
Proof.
  unfold retained, cache_utxo. destruct (_ <? _); cbn [_utxoCacheActive _utxoCacheOld]; [right|left].
  - rewrite lookup_empty, lookup_insert_eq, map_size_empty. split_and!; [done..|lia].
  - apply lookup_insert_eq.
Qed.

Lemma retained_creation k info n s k' info' :
  k <> k' -> 1 <= n <= MAX_UTXO_CACHE -> retained k info n s -> retained k info (n - 1) (cache_utxo k' info' s).
Proof.
  intros Hne Hn Hr. pose proof (size_insert_le k' info' (_utxoCacheActive s)) as Hs. unfold retained, cache_utxo in *.
  destruct (Z.ltb_spec MAX_UTXO_CACHE (Z.of_nat (size (<[k':=info']> (_utxoCacheActive s)))));
    cbn [_utxoCacheActive _utxoCacheOld].
  - rewrite lookup_empty, lookup_insert_ne, map_size_empty by done. destruct Hr as [Hr|(_ & _ & Hr)]; [|lia].
    right. split_and!; [done..|lia].
  - rewrite lookup_insert_ne by done. destruct Hr as [Hr|(H1 & H2 & H3)]; [by left|right]. split_and!; [done..|lia].
Qed.

Lemma retained_look_up k info n s txid vout h :
  k <> cache_key txid vout -> retained k info n s -> retained k info n (snd (getAssetUTXO txid vout h s)).
Proof.
  intros Hne Hr. destruct (getAssetUTXO_caches txid vout h s) as (_ & H). cbv zeta in H. unfold retained in *.
  pose proof (size_delete_le (cache_key txid vout) (_utxoCacheActive s)).
  destruct H as [[-> ->]|[[-> ->]|[-> ->]]]; rewrite ?lookup_delete_ne by done; [done| |done].
  destruct Hr as [Hr|(H1 & H2 & H3)]; [by left|right]. split_and!; [done..|lia].
Qed.

(** Creating elsewhere adds no row here. *)
Lemma stmtCreateUTXO_elsewhere r l blob vout :
  at_outpoint blob vout r = false -> rows_at blob vout (stmtCreateUTXO r l) = rows_at blob vout l.
Proof.
  intros H. unfold stmtCreateUTXO. destruct (existsb _ _); [done|]. rewrite rows_at_app.
  cbn [rows_at List.filter]. by rewrite H, app_nil_r.
Qed.

Lemma create_assets_elsewhere v blob h i l aout s blob' vout' :
  ~ (blob' = blob /\ vout' = utxo_vout v) ->
  rows_at blob' vout' (utxos (snd (create_assets v blob h i l aout s))) = rows_at blob' vout' (utxos s).
Proof.
  intros Hne. revert aout s; induction l as [|a l IH]; intros aout s; [done|]. cbn [create_assets].
  unfold mbind, M_bind, lift, modify. destruct (getAssetIndex false a); [|done..]. rewrite IH. cbn [utxos set_utxos].
  apply stmtCreateUTXO_elsewhere. by apply (outpoint_elsewhere blob (utxo_vout v)).
Qed.

Lemma createUTXO_elsewhere v h i s blob vout :
  ~ (Blob_of_hex (utxo_txid v) = Ok blob /\ utxo_vout v = vout) ->
  rows_at blob vout (utxos (snd (createUTXO v h i s))) = rows_at blob vout (utxos s).
Proof.
  intros Hne. unfold createUTXO. case_bool_decide; [done|]. destruct (_ && _).
  - unfold modify, cache_utxo. by destruct (_ <? _).
  - unfold mbind, M_bind, lift, modify. destruct (Blob_of_hex (utxo_txid v)) as [blob'| | |]; [|done..].
    assert (~ (blob = blob' /\ vout = utxo_vout v)) as Hne' by (intros [-> ->]; by apply Hne).
    rewrite create_assets_elsewhere by done. cbn [utxos set_utxos].
    apply stmtCreateUTXO_elsewhere. by apply (outpoint_elsewhere blob' (utxo_vout v)).
Qed.

(** The outpoint has no row and its key is retained for [n] creations. *)
Definition waiting (txid : string) (blob : Blob) (vout : Z) (info : string * Z) (n : Z) (s : store) : Prop :=
  rows_at blob vout (utxos s) = [] /\ retained (cache_key txid vout) info n s.

Lemma retained_weaken k info n m s : m <= n -> retained k info n s -> retained k info m s.
Proof. intros H [Hr|(H1 & H2 & H3)]; [by left|right]. split_and!; [done..|lia]. Qed.

Lemma run_op_waiting op txid blob vout info n s :
  Blob_of_hex txid = Ok blob -> 0 <= vout -> leaves_alone txid vout op -> 0 <= n <= MAX_UTXO_CACHE ->
  0 <= n - creations [op] ->
  waiting txid blob vout info n s -> waiting txid blob vout info (n - creations [op]) (run_op s op).
Proof.
  intros Hb Hv Hop Hn Hm [Hr Hk]. destruct op as [v h i|txid' vout' h sp|txid' vout' h]; cbn [run_op leaves_alone] in *.
  - destruct Hop as [Hne Hv']. rewrite Hb in Hne. split; [by rewrite createUTXO_elsewhere|].
    change (creations [op_create v h i]) with 1 in *.
    destruct (createUTXO_caches v h i s) as [[E1 E2]| ->].
    + unfold retained. rewrite E1, E2. apply (retained_weaken _ _ n); [lia|done].
    + apply retained_creation; [|lia|done]. intros E. apply cache_key_inj in E as [-> ->]; [|done..]. by apply Hne.
  - change (creations [op_spend txid' vout' h sp]) with 0. rewrite Z.sub_0_r.
    unfold spendUTXO, mbind, M_bind, lift, modify. destruct (Blob_of_hex txid') as [b'| | |]; [|done..].
    destruct (Blob_of_hex sp) as [b''| | |]; [|done..]. split; [|done]. cbn [utxos set_utxos snd].
    by apply rows_at_spend_any.
  - change (creations [op_get txid' vout' h]) with 0. rewrite Z.sub_0_r. destruct Hop as [Hne Hv'].
    pose proof (getAssetUTXO_caches txid' vout' h s) as [E _]. split; [by rewrite E|].
    apply retained_look_up; [|done]. intros E'. apply cache_key_inj in E' as [-> ->]; [|done..]. by apply Hne.
Qed.

Lemma creations_cons op ops : creations (op :: ops) = creations [op] + creations ops.
Proof. unfold creations. cbn [List.filter]. destruct (is_creation op); cbn [length]; lia. Qed.

Lemma creations_nonneg ops : 0 <= creations ops.
Proof. unfold creations. lia. Qed.

Lemma run_ops_waiting ops txid blob vout info n s :
  Blob_of_hex txid = Ok blob -> 0 <= vout -> Forall (leaves_alone txid vout) ops -> n <= MAX_UTXO_CACHE ->
  creations ops <= n -> waiting txid blob vout info n s ->
  waiting txid blob vout info (n - creations ops) (run_ops ops s).
Proof.
  intros Hb Hv Hops. revert n s; induction Hops as [|op ops Hop Hops IH]; intros n s Hn Hc Hw.
  - cbn. change (creations []) with 0. by rewrite Z.sub_0_r.
  - rewrite creations_cons in *. pose proof (creations_nonneg ops). pose proof (creations_nonneg [op]).
    rewrite Z.sub_add_distr. apply IH; [lia..|]. apply run_op_waiting; [done..| |lia|done]. lia.
Qed.

Lemma waiting_found txid blob vout address dgb n s h :
  0 <= vout < 65536 -> Blob_of_hex txid = Ok blob -> waiting txid blob vout (address, dgb) n s ->
  fst (getAssetUTXO txid vout h s) = Ok (mk_AssetUTXO txid (u16 vout) address dgb []).
Proof.
  intros Hv Hb [Hr Hk]. unfold getAssetUTXO. rewrite Hb, i32_small by lia. unfold mbind, M_bind, lift, get, put, stmtGetAssetUTXO.
  rewrite_conv @List.filter Hr. cbn [sort_aout foldr].
  destruct Hk as [->|(-> & -> & _)]; done.
Qed.
End caching.

(** The cache of plain outputs is bounded and keeps what it was given. In
    every run of creations, spendings and look-ups, failing ones included, the
    active generation has at most [MAX_UTXO_CACHE] entries and the old one at
    most one more. When outputs without assets are not stored, an output
    without assets that is created at an outpoint without rows is found with its
    address and value after any run that leaves the outpoint alone and creates
    at most [MAX_UTXO_CACHE] outputs. *)
Theorem utxo_cache_bounds `{db : Sqlite} (s : store) :
  cache_bounded s ->
  (forall ops, cache_bounded (run_ops ops s))
  /\ (forall v blob height issuance ops h,
        beenPrunedNonAssetUTXOHistory = true -> assets v = [] -> utxo_address v <> ""%string ->
        Blob_of_hex (utxo_txid v) = Ok blob -> 0 <= utxo_vout v < 65536 ->
        stmtGetAssetUTXO blob (utxo_vout v) (utxos s) = [] ->
        Forall (leaves_alone (utxo_txid v) (utxo_vout v)) ops -> creations ops <= MAX_UTXO_CACHE ->
        fst (getAssetUTXO (utxo_txid v) (utxo_vout v) h (run_ops (op_create v height issuance :: ops) s)) = Ok v).
Proof.
  intros Hs. split; [intros ops; by apply run_ops_bounded|].
  intros v blob height issuance ops h Hp Hv Ha Hb Ho Hr Hops Hc. apply sort_aout_nil in Hr.
  cbn [run_ops foldl run_op]. unfold createUTXO at 1. rewrite bool_decide_eq_false_2, Hv, Hp by done.
  cbn [is_empty andb modify snd].
  erewrite (waiting_found _ blob _ (utxo_address v) (digibyte v)); [|done|done|].
  - unfold u16. rewrite Z.mod_small by done. destruct v; simplify_eq/=. done.
  - apply run_ops_waiting with (n := MAX_UTXO_CACHE); [done|lia|done|done|done|]. split; [|apply retained_start].
    rewrite <- Hr. unfold cache_utxo, rows_at. by destruct (_ <? _).
Qed.

Lemma utxo_cache_bounds_witness :
  let v := mk_AssetUTXO "00ff" 1 "addr" 700 [] in
  let ops := [op_create (mk_AssetUTXO "00ff" 2 "other" 5 []) 120 false; op_get "00fe" 1 130; op_spend "00ff" 1 130 "0a"] in
  cache_bounded (mk_store [] ∅ ∅)
  /\ fst (getAssetUTXO (db := chain_db true) "00ff" 1 140
            (run_ops (db := chain_db true) (op_create v 120 false :: ops) (mk_store [] ∅ ∅))) = Ok v.
Proof.
  intros v ops. assert (cache_bounded (mk_store [] ∅ ∅)) as Hb by (split; vm_compute; discriminate).
  split; [done|]. destruct (utxo_cache_bounds (db := chain_db true) (mk_store [] ∅ ∅) Hb) as [_ H].
  apply (H v [0; 255] 120 false ops 140); try reflexivity.
  - discriminate.
  - split; [discriminate|reflexivity].
  - repeat constructor; cbn; try discriminate; intros [? ?]; discriminate.
  - vm_compute. discriminate.
Defined.
