(* ===== verification/DigiByteTransaction.v ===== *)
(** DigiByteTransaction: the transaction object, its type and the engine that
    replays the transfer instructions of an asset transaction
    (src/src/DigiByteTransaction.cpp). *)

From S2P Require Import Prelude.
From S2P Require Import BitIO.
From S2P Require Import BitIOCodec.
From S2P Require Import OpReturn.
From S2P Require Import AssetTypes.
From S2P Require Import DigiAssetRules.
From S2P Require Import KYC.
From S2P Require Import Database.
From S2P Require Import DigiDollar.
From S2P Require Import DigiAsset.

Ltac Zify.zify_post_hook ::= Z.div_mod_to_equations.

(** ** Transaction types *)
Definition STANDARD : Z := 0.
Definition DIGIASSET_ISSUANCE : Z := 1.
Definition DIGIASSET_TRANSFER : Z := 2.
Definition DIGIASSET_BURN : Z := 3.
Definition KYC_ISSUANCE : Z := 10.
Definition KYC_REVOKE : Z := 11.
Definition EXCHANGE_PUBLISH : Z := 20.
Definition ENCRYPTED_KEY : Z := 30.
Definition DIGIDOLLAR_MINT : Z := 40.
Definition DIGIDOLLAR_TRANSFER : Z := 41.
Definition DIGIDOLLAR_REDEEM : Z := 42.

Record DigiByteTransaction := mk_DigiByteTransaction {
  _inputs : list AssetUTXO;
  _outputs : list AssetUTXO;
  _newAsset : DigiAsset;
  _txType : Z;
  _assetFound : bool;
  _ruleOutputsStart : Z;
  _ruleOutputsAdded : bool;
  _burns : list DigiAsset;
  _unintentionalBurn : bool;
  _height : Z;
  _txid : string;
  _blockHash : string;
  _time : Z;
  _kycData : KYC;
  _opReturnHex : string;
  _exchangeRate : list double;
  _assetTransactionVersion : Z;
  _ddOutputs : list (Z * Z);
  _ddVaultOutput : Z;
  _ddCollateral : Z;
  _ddMinted : Z;
  _ddLockHeight : Z;
  _ddLockTier : Z
}.

(** [DigiByteTransaction()]; the members without an initialiser are given zero. *)
Definition DigiByteTransaction_default (time : Z) : DigiByteTransaction :=
  mk_DigiByteTransaction [] [] DigiAsset_default STANDARD false 0 false [] false 0 "" "" time KYC_empty ""
    [] 0 [] (-1) 0 0 0 0.

Definition set_inputs x (t : DigiByteTransaction) : DigiByteTransaction :=
  mk_DigiByteTransaction x (_outputs t) (_newAsset t) (_txType t) (_assetFound t) (_ruleOutputsStart t)
    (_ruleOutputsAdded t) (_burns t) (_unintentionalBurn t) (_height t) (_txid t) (_blockHash t) (_time t)
    (_kycData t) (_opReturnHex t) (_exchangeRate t) (_assetTransactionVersion t) (_ddOutputs t)
    (_ddVaultOutput t) (_ddCollateral t) (_ddMinted t) (_ddLockHeight t) (_ddLockTier t).
Definition set_outputs x (t : DigiByteTransaction) : DigiByteTransaction :=
  mk_DigiByteTransaction (_inputs t) x (_newAsset t) (_txType t) (_assetFound t) (_ruleOutputsStart t)
    (_ruleOutputsAdded t) (_burns t) (_unintentionalBurn t) (_height t) (_txid t) (_blockHash t) (_time t)
    (_kycData t) (_opReturnHex t) (_exchangeRate t) (_assetTransactionVersion t) (_ddOutputs t)
    (_ddVaultOutput t) (_ddCollateral t) (_ddMinted t) (_ddLockHeight t) (_ddLockTier t).
Definition set_newAsset x (t : DigiByteTransaction) : DigiByteTransaction :=
  mk_DigiByteTransaction (_inputs t) (_outputs t) x (_txType t) (_assetFound t) (_ruleOutputsStart t)
    (_ruleOutputsAdded t) (_burns t) (_unintentionalBurn t) (_height t) (_txid t) (_blockHash t) (_time t)
    (_kycData t) (_opReturnHex t) (_exchangeRate t) (_assetTransactionVersion t) (_ddOutputs t)
    (_ddVaultOutput t) (_ddCollateral t) (_ddMinted t) (_ddLockHeight t) (_ddLockTier t).
Definition set_txType x (t : DigiByteTransaction) : DigiByteTransaction :=
  mk_DigiByteTransaction (_inputs t) (_outputs t) (_newAsset t) x (_assetFound t) (_ruleOutputsStart t)
    (_ruleOutputsAdded t) (_burns t) (_unintentionalBurn t) (_height t) (_txid t) (_blockHash t) (_time t)
    (_kycData t) (_opReturnHex t) (_exchangeRate t) (_assetTransactionVersion t) (_ddOutputs t)
    (_ddVaultOutput t) (_ddCollateral t) (_ddMinted t) (_ddLockHeight t) (_ddLockTier t).
Definition set_assetFound x (t : DigiByteTransaction) : DigiByteTransaction :=
  mk_DigiByteTransaction (_inputs t) (_outputs t) (_newAsset t) (_txType t) x (_ruleOutputsStart t)
    (_ruleOutputsAdded t) (_burns t) (_unintentionalBurn t) (_height t) (_txid t) (_blockHash t) (_time t)
    (_kycData t) (_opReturnHex t) (_exchangeRate t) (_assetTransactionVersion t) (_ddOutputs t)
    (_ddVaultOutput t) (_ddCollateral t) (_ddMinted t) (_ddLockHeight t) (_ddLockTier t).
Definition set_ruleOutputs start (t : DigiByteTransaction) : DigiByteTransaction :=
  mk_DigiByteTransaction (_inputs t) (_outputs t) (_newAsset t) (_txType t) (_assetFound t) start true
    (_burns t) (_unintentionalBurn t) (_height t) (_txid t) (_blockHash t) (_time t) (_kycData t)
    (_opReturnHex t) (_exchangeRate t) (_assetTransactionVersion t) (_ddOutputs t) (_ddVaultOutput t)
    (_ddCollateral t) (_ddMinted t) (_ddLockHeight t) (_ddLockTier t).
Definition set_burns x (t : DigiByteTransaction) : DigiByteTransaction :=
  mk_DigiByteTransaction (_inputs t) (_outputs t) (_newAsset t) (_txType t) (_assetFound t)
    (_ruleOutputsStart t) (_ruleOutputsAdded t) x (_unintentionalBurn t) (_height t) (_txid t)
    (_blockHash t) (_time t) (_kycData t) (_opReturnHex t) (_exchangeRate t) (_assetTransactionVersion t)
    (_ddOutputs t) (_ddVaultOutput t) (_ddCollateral t) (_ddMinted t) (_ddLockHeight t) (_ddLockTier t).
Definition set_unintentionalBurn x (t : DigiByteTransaction) : DigiByteTransaction :=
  mk_DigiByteTransaction (_inputs t) (_outputs t) (_newAsset t) (_txType t) (_assetFound t)
    (_ruleOutputsStart t) (_ruleOutputsAdded t) (_burns t) x (_height t) (_txid t) (_blockHash t) (_time t)
    (_kycData t) (_opReturnHex t) (_exchangeRate t) (_assetTransactionVersion t) (_ddOutputs t)
    (_ddVaultOutput t) (_ddCollateral t) (_ddMinted t) (_ddLockHeight t) (_ddLockTier t).
Definition set_kycData x (t : DigiByteTransaction) : DigiByteTransaction :=
  mk_DigiByteTransaction (_inputs t) (_outputs t) (_newAsset t) (_txType t) (_assetFound t)
    (_ruleOutputsStart t) (_ruleOutputsAdded t) (_burns t) (_unintentionalBurn t) (_height t) (_txid t)
    (_blockHash t) (_time t) x (_opReturnHex t) (_exchangeRate t) (_assetTransactionVersion t)
    (_ddOutputs t) (_ddVaultOutput t) (_ddCollateral t) (_ddMinted t) (_ddLockHeight t) (_ddLockTier t).
Definition set_opReturnHex x (t : DigiByteTransaction) : DigiByteTransaction :=
  mk_DigiByteTransaction (_inputs t) (_outputs t) (_newAsset t) (_txType t) (_assetFound t)
    (_ruleOutputsStart t) (_ruleOutputsAdded t) (_burns t) (_unintentionalBurn t) (_height t) (_txid t)
    (_blockHash t) (_time t) (_kycData t) x (_exchangeRate t) (_assetTransactionVersion t) (_ddOutputs t)
    (_ddVaultOutput t) (_ddCollateral t) (_ddMinted t) (_ddLockHeight t) (_ddLockTier t).
Definition set_exchangeRate x (t : DigiByteTransaction) : DigiByteTransaction :=
  mk_DigiByteTransaction (_inputs t) (_outputs t) (_newAsset t) (_txType t) (_assetFound t)
    (_ruleOutputsStart t) (_ruleOutputsAdded t) (_burns t) (_unintentionalBurn t) (_height t) (_txid t)
    (_blockHash t) (_time t) (_kycData t) (_opReturnHex t) x (_assetTransactionVersion t) (_ddOutputs t)
    (_ddVaultOutput t) (_ddCollateral t) (_ddMinted t) (_ddLockHeight t) (_ddLockTier t).
Definition set_version x (t : DigiByteTransaction) : DigiByteTransaction :=
  mk_DigiByteTransaction (_inputs t) (_outputs t) (_newAsset t) (_txType t) (_assetFound t)
    (_ruleOutputsStart t) (_ruleOutputsAdded t) (_burns t) (_unintentionalBurn t) (_height t) (_txid t)
    (_blockHash t) (_time t) (_kycData t) (_opReturnHex t) (_exchangeRate t) x (_ddOutputs t)
    (_ddVaultOutput t) (_ddCollateral t) (_ddMinted t) (_ddLockHeight t) (_ddLockTier t).
Definition set_chain height txid blockHash time (t : DigiByteTransaction) : DigiByteTransaction :=
  mk_DigiByteTransaction (_inputs t) (_outputs t) (_newAsset t) (_txType t) (_assetFound t)
    (_ruleOutputsStart t) (_ruleOutputsAdded t) (_burns t) (_unintentionalBurn t) height txid blockHash time
    (_kycData t) (_opReturnHex t) (_exchangeRate t) (_assetTransactionVersion t) (_ddOutputs t)
    (_ddVaultOutput t) (_ddCollateral t) (_ddMinted t) (_ddLockHeight t) (_ddLockTier t).
Definition set_ddOutputs x (t : DigiByteTransaction) : DigiByteTransaction :=
  mk_DigiByteTransaction (_inputs t) (_outputs t) (_newAsset t) (_txType t) (_assetFound t)
    (_ruleOutputsStart t) (_ruleOutputsAdded t) (_burns t) (_unintentionalBurn t) (_height t) (_txid t)
    (_blockHash t) (_time t) (_kycData t) (_opReturnHex t) (_exchangeRate t) (_assetTransactionVersion t) x
    (_ddVaultOutput t) (_ddCollateral t) (_ddMinted t) (_ddLockHeight t) (_ddLockTier t).
Definition set_ddMint minted lockHeight lockTier vault collateral (t : DigiByteTransaction) : DigiByteTransaction :=
  mk_DigiByteTransaction (_inputs t) (_outputs t) (_newAsset t) (_txType t) (_assetFound t)
    (_ruleOutputsStart t) (_ruleOutputsAdded t) (_burns t) (_unintentionalBurn t) (_height t) (_txid t)
    (_blockHash t) (_time t) (_kycData t) (_opReturnHex t) (_exchangeRate t) (_assetTransactionVersion t)
    (_ddOutputs t) vault collateral minted lockHeight lockTier.

(** [DigiByteTransaction::exception] *)
Definition tx_exception (message : string) : exn := class_exception "DigiByteTransaction::exception" message.

(** ** Queries *)
Definition isStandardTransaction (t : DigiByteTransaction) : bool := _txType t =? STANDARD.
Definition isUnintentionalBurn (t : DigiByteTransaction) : bool :=
  if _unintentionalBurn t then true else if negb (_txType t =? STANDARD) then false else _assetFound t.
Definition isNonAssetTransaction (t : DigiByteTransaction) : bool :=
  if isUnintentionalBurn t then false
  else (_txType t <? DIGIASSET_ISSUANCE) || (DIGIASSET_BURN <? _txType t).
Definition isIssuance (t : DigiByteTransaction) : bool := _txType t =? DIGIASSET_ISSUANCE.
Definition isTransfer (includeIntentionalBurn : bool) (t : DigiByteTransaction) : bool :=
  if _txType t =? DIGIASSET_TRANSFER then true
  else if includeIntentionalBurn && (_txType t =? DIGIASSET_BURN) then true else false.
Definition isBurn (includeUnintentionalBurn : bool) (t : DigiByteTransaction) : bool :=
  if _txType t =? DIGIASSET_BURN then true
  else if negb includeUnintentionalBurn then false else isUnintentionalBurn t.
Definition isKYCTransaction (t : DigiByteTransaction) : bool :=
  (_txType t =? KYC_REVOKE) || (_txType t =? KYC_ISSUANCE).
Definition isKYCRevoke (t : DigiByteTransaction) : bool := _txType t =? KYC_REVOKE.
Definition isKYCIssuance (t : DigiByteTransaction) : bool := _txType t =? KYC_ISSUANCE.
Definition isDigiDollarTransaction (t : DigiByteTransaction) : bool :=
  (_txType t =? DIGIDOLLAR_MINT) || (_txType t =? DIGIDOLLAR_TRANSFER) || (_txType t =? DIGIDOLLAR_REDEEM).
Definition isDigiDollarMint (t : DigiByteTransaction) : bool := _txType t =? DIGIDOLLAR_MINT.
Definition isDigiDollarRedeem (t : DigiByteTransaction) : bool := _txType t =? DIGIDOLLAR_REDEEM.
Definition isExchangeTransaction (t : DigiByteTransaction) : bool := _txType t =? EXCHANGE_PUBLISH.
Definition getExchangeRateCount (t : DigiByteTransaction) : Z := Z.of_nat (length (_exchangeRate t)).
Definition getExchangeRate (i : Z) (t : DigiByteTransaction) : outcome double :=
  match _exchangeRate t !! Z.to_nat i with
  | Some rate => Ok rate
  | None => Throw (out_of_range "Non existent exchange rate")
  end.
Definition getIssuedAsset (t : DigiByteTransaction) : outcome DigiAsset :=
  if negb (isIssuance t) then Throw (out_of_range "Not an issuance") else Ok (_newAsset t).

(** The tables of ten standard rates each: the name of rate [i] of the table
    whose address published it. *)
Fixpoint rate_name (fuel : nat) (offset i : Z) (address name : string) : outcome string :=
  match fuel with
  | O => Ok name
  | S fuel =>
      if standardExchangeRatesCount <=? offset then Ok name
      else
        table ← fst (vec_at standardExchangeRates offset tt);
        if bool_decide (address = ExchangeRate.address table) then
          entry ← fst (vec_at standardExchangeRates (offset + i) tt);
          rate_name fuel (offset + 10) i address (ExchangeRate.name entry)
        else rate_name fuel (offset + 10) i address name
  end.

Definition getExchangeRateName (i : Z) (t : DigiByteTransaction) : outcome ExchangeRate.t :=
  if Z.of_nat (length (_exchangeRate t)) <=? i then Throw (out_of_range "Non existent exchange rate")
  else
    output ← fst (vec_at (_outputs t) 1 tt);
    name ← rate_name (Z.to_nat standardExchangeRatesCount) 0 i (utxo_address output) "";
    Ok (ExchangeRate.mk (utxo_address output) i name).

(** ** Outputs *)

(** Add the count of [asset] to the first entry with the same index. *)
Fixpoint add_same (asset : DigiAsset) (l : list DigiAsset) : option (list DigiAsset) :=
  match l with
  | [] => None
  | existing :: l =>
      if _assetIndex existing =? _assetIndex asset
      then Some (addCount (getCount asset) existing :: l)
      else cons existing <$> add_same asset l
  end.

Definition place_asset (asset : DigiAsset) (l : list DigiAsset) : list DigiAsset :=
  if isAggregable asset && negb (is_empty l) then default (l ++ [asset]) (add_same asset l)
  else l ++ [asset].

(** [_outputs[output]] for an output that does not exist is undefined. *)
Definition addAssetToOutput (output : nat) (asset : DigiAsset) : M (list AssetUTXO) unit :=
  outputs ← get;
  match outputs !! output with
  | Some u => put (<[output := set_assets (place_asset asset (assets u)) u]> outputs)
  | None => undefined
  end.

Definition clear_assets (outputs : list AssetUTXO) : list AssetUTXO := map (set_assets []) outputs.

(** ** Transfer instructions *)
Record instruction := mk_instruction {
  i_skip : bool;
  i_range : bool;
  i_percent : bool;
  i_output : nat;
  i_percentByte : Z;
  i_fixedAmount : Z
}.

Definition get_bool : M BitIO bool := v ← getBits 1; mret (negb (v =? 0)).

Definition read_instruction : M BitIO instruction :=
  skip ← get_bool;
  range ← get_bool;
  percent ← get_bool;
  output ← (if range : bool then getBits 13 else getBits 5);
  percentByte ← (if percent : bool then v ← getBits 8; mret (v + 1) else mret 0);
  fixedAmount ← (if percent : bool then mret 0 else getFixedPrecision);
  mret (mk_instruction skip range percent (Z.to_nat output) percentByte fixedAmount).

(** The amount for each output, and what is taken from the inputs. *)
Definition instruction_amount (i : instruction) (first : DigiAsset) : Z :=
  if i_percent i then u64 (getCount first * i_percentByte i) / 256 else i_fixedAmount i.
Definition instruction_total (i : instruction) (amount : Z) : Z :=
  if i_range i then u64 ((Z.of_nat (i_output i) + 1) * amount) else amount.

(** The local variables of [decodeAssetTransfer] and the outputs. *)
Record transferring := mk_transferring {
  t_data : BitIO;
  t_inputs : list (list DigiAsset);
  t_index : nat;
  t_allowSkip : bool;
  t_outputs : list AssetUTXO
}.

Definition on_stream {A} (m : M BitIO A) : M transferring A := fun s =>
  let '(o, b) := m (t_data s) in
  (o, mk_transferring b (t_inputs s) (t_index s) (t_allowSkip s) (t_outputs s)).
Definition on_outputs {A} (m : M (list AssetUTXO) A) : M transferring A := fun s =>
  let '(o, outputs) := m (t_outputs s) in
  (o, mk_transferring (t_data s) (t_inputs s) (t_index s) (t_allowSkip s) outputs).
Definition set_source (inputs : list (list DigiAsset)) (index : nat) (allowSkip : bool) : M transferring unit :=
  modify (fun s => mk_transferring (t_data s) inputs index allowSkip (t_outputs s)).

(** [inputs[index][0]] and the rest of that input, if there are any. *)
Definition source {A} (k : DigiAsset -> list DigiAsset -> M transferring A) : M transferring A :=
  s ← get;
  match t_inputs s !! t_index s with
  | Some (chunk :: chunks) => k chunk chunks
  | _ => throw exceptionInvalidTransfer
  end.

(** The loop that removes [leftToRemove] units from the inputs. Every turn but
    the last drops a chunk. *)
Fixpoint take_assets (fuel : nat) (removedAsset : DigiAsset) (leftToRemove : Z) : M transferring unit :=
  if leftToRemove <=? 0 then mret tt
  else match fuel with
  | O => out_of_fuel
  | S fuel =>
      source (fun chunk chunks =>
        s ← get;
        let currentAmount := getCount chunk in
        if negb (asset_eqb chunk removedAsset) then throw exceptionInvalidTransfer
        else if (currentAmount <? leftToRemove) && isHybrid chunk then throw exceptionInvalidTransfer
        else if currentAmount <=? leftToRemove then
          let inputs := <[t_index s := chunks]> (t_inputs s) in
          (if is_empty chunks then set_source inputs (S (t_index s)) false
           else set_source inputs (t_index s) true);;
          take_assets fuel removedAsset (leftToRemove - currentAmount)
        else
          chunk ← lift (exec (removeCount leftToRemove) chunk);
          set_source (<[t_index s := chunk :: chunks]> (t_inputs s)) (t_index s) true)
  end.

Definition chunk_count (inputs : list (list DigiAsset)) : nat := sum_list_with length inputs.

(** The outputs an instruction sends to. *)
Definition instruction_outputs (i : instruction) : list nat :=
  if i_range i then seq 0 (S (i_output i)) else [i_output i].

Definition apply_instruction (type : Z) (i : instruction) : M transferring unit :=
  source (fun chunk _ =>
    let amount := instruction_amount i chunk in
    let totalAmount := instruction_total i amount in
    s ← get;
    take_assets (S (chunk_count (t_inputs s))) chunk totalAmount;;
    when (0 <? totalAmount)
      (if (type =? DIGIASSET_BURN) && negb (i_range i) && (i_output i =? 31)%nat then mret tt
       else
         s ← get;
         if (length (t_outputs s) <=? i_output i)%nat then throw exceptionInvalidTransfer
         else
           on_outputs (for_each (instruction_outputs i)
             (fun vout => addAssetToOutput vout (setCount amount chunk))));;
    when (i_skip i)
      (s ← get;
       set_source (t_inputs s) (if t_allowSkip s then S (t_index s) else t_index s) true)).

(** The assets of the inputs that have any. *)
Definition input_assets (inputAssets : list AssetUTXO) : list (list DigiAsset) :=
  filter (fun l => l <> []) (map assets inputAssets).

(** The handler of an invalid instruction. *)
Definition reset_transfer (inputAssets : list AssetUTXO) : M transferring unit :=
  modify (fun s => mk_transferring (t_data s) (input_assets inputAssets) (t_index s) (t_allowSkip s)
                     (clear_assets (t_outputs s))).

(** Versions before 3 stop at the first instruction when the first input has no
    assets. *)
Definition legacy_break (t : DigiByteTransaction) (type : Z) : M transferring bool :=
  if (_assetTransactionVersion t <? 3) && negb (type =? DIGIASSET_ISSUANCE) then
    match _inputs t with
    | [] => undefined
    | input :: _ => mret (is_empty (assets input))
    end
  else mret false.

(** The loop over the instructions; each is at least eight bits. *)
Fixpoint transfer_loop (fuel : nat) (t : DigiByteTransaction) (inputAssets : list AssetUTXO)
    (type footerBitCount : Z) : M transferring unit :=
  match fuel with
  | O => out_of_fuel
  | S fuel =>
      left ← on_stream (gets getNumberOfBitLeft);
      if left <=? footerBitCount then mret tt
      else
        i ← on_stream read_instruction;
        legacy ← legacy_break t type;
        if legacy : bool then mret tt
        else
          continue ← try_catch (apply_instruction type i;; mret true)
                       (fun _ => reset_transfer inputAssets;; mret false);
          if continue : bool then transfer_loop fuel t inputAssets type footerBitCount else mret tt
  end.

(** *** Change *)

(** The search of the change loop, where every index must be known. *)
Fixpoint change_same (asset : DigiAsset) (l : list DigiAsset) : outcome (option (list DigiAsset)) :=
  match l with
  | [] => Ok None
  | assetTest :: l =>
      testIndex ← getAssetIndex false assetTest;
      index ← getAssetIndex false asset;
      if testIndex =? index then Ok (Some (addCount (getCount asset) assetTest :: l))
      else found ← change_same asset l; Ok (option_map (cons assetTest) found)
  end.

(** [lastOutput] is [_outputs.size() - 1]: without outputs it is no index. *)
Definition add_change (asset : DigiAsset) : M (list AssetUTXO) unit :=
  outputs ← get;
  if getCount asset =? 0 then mret tt
  else
    match last outputs with
    | None => undefined
    | Some u =>
        let lastOutput := pred (length outputs) in
        found ← (if isAggregable asset then lift (change_same asset (assets u)) else mret None);
        match found with
        | Some l => put (<[lastOutput := set_assets l u]> outputs)
        | None => addAssetToOutput lastOutput asset
        end
    end.

Definition change_loop : M transferring unit :=
  s ← get; for_each (concat (t_inputs s)) (fun asset => on_outputs (add_change asset)).

(** *** [decodeAssetTransfer] *)
Definition on_transfer (dataStream : BitIO) (inputAssets : list AssetUTXO) (m : M transferring unit)
    : M DigiByteTransaction unit := fun t =>
  let '(o, s) := m (mk_transferring dataStream (input_assets inputAssets) 0 true (_outputs t)) in
  (o, set_outputs (t_outputs s) t).

Definition footer_bits (type : Z) : Z := if type =? DIGIASSET_ISSUANCE then 8 else 0.

(** Instructions and change. *)
Definition route_assets (dataStream : BitIO) (inputAssets : list AssetUTXO) (type : Z)
    : M DigiByteTransaction unit :=
  t ← get;
  on_transfer dataStream inputAssets
    (transfer_loop (S (unread dataStream)) t inputAssets type (footer_bits type);; change_loop).

(** Assets on an output without address are gone. *)
Definition lost_on_op_return (u : AssetUTXO) : bool :=
  bool_decide (utxo_address u = ""%string) && negb (is_empty (assets u)).
Definition clear_op_returns (t : DigiByteTransaction) : DigiByteTransaction :=
  let t' := set_outputs (map (fun u => if lost_on_op_return u then set_assets [] u else u) (_outputs t)) t in
  if existsb lost_on_op_return (_outputs t) then set_unintentionalBurn true t' else t'.

Section transfer.
Context `{db : Sqlite}.

Definition check_input_assets (t : DigiByteTransaction) (l : list DigiAsset) : M DigiByteTransaction unit :=
  for_each l (fun a => lift (checkRulesPass a (_height t) (_time t) (_inputs t) (_outputs t))).

(** [DigiByteTransaction::checkRulesPass] *)
Definition tx_checkRulesPass : M DigiByteTransaction unit :=
  t ← get; for_each (_inputs t) (fun utxo => check_input_assets t (assets utxo)).

Definition decodeAssetTransfer (dataStream : BitIO) (inputAssets : list AssetUTXO) (type : Z)
    : M DigiByteTransaction unit :=
  route_assets dataStream inputAssets type;;
  when (negb (type =? DIGIASSET_ISSUANCE)) tx_checkRulesPass;;
  modify clear_op_returns.
End transfer.
