(* ===== verification/TransactionDecode.v ===== *)
(** TransactionDecode: loading a transaction from the chain and deciding what it
    is (the constructor and the decoders of src/src/DigiByteTransaction.cpp),
    and storing its effects on the outputs. *)

From Stdlib Require Import Floats.SpecFloat.
From S2P Require Import Prelude.
From S2P Require Import BitIO.
From S2P Require Import BitIOCodec.
From S2P Require Import OpReturn.
From S2P Require Import AssetTypes.
From S2P Require Import DigiAssetRules.
From S2P Require Import KYC.
From S2P Require Import Blob.
From S2P Require Import Database.
From S2P Require Import DigiDollar.
From S2P Require Import DigiAsset.
From S2P Require Import UtxoStore.
From S2P Require Import DigiByteTransaction.

Ltac Zify.zify_post_hook ::= Z.div_mod_to_equations.

(** The object under construction, the outputs store and the addresses that
    became watched. *)
Record loading := mk_loading { tx : DigiByteTransaction; stored : store; watched : list string }.

Definition on_tx {A} (m : M DigiByteTransaction A) : M loading A := fun s =>
  let '(o, t) := m (tx s) in (o, mk_loading t (stored s) (watched s)).
Definition on_store {A} (m : M store A) : M loading A := fun s =>
  let '(o, st) := m (stored s) in (o, mk_loading (tx s) st (watched s)).
Definition set_tx (f : DigiByteTransaction -> DigiByteTransaction) : M loading unit := on_tx (modify f).

Section decode.
Context (txData : getrawtransaction_t).

(** *** Exchange rates *)

(** The loop over the doubles: eight bytes each. *)
Fixpoint read_rates (fuel : nat) : M BitIO (list double) :=
  match fuel with
  | O => out_of_fuel
  | S fuel =>
      b ← get;
      if _position b =? _length b then mret []
      else rate ← getDouble true; rates ← read_rates fuel; mret (rate :: rates)
  end.

Definition decodeExchangeRate `{db : Sqlite} (dataIndex : Z) : M DigiByteTransaction bool :=
  if negb (dataIndex =? 0) then mret false
  else
    match vin txData, vout txData with
    | [input], [out0; out1] =>
        dataStream ← lift (op_return_payload (script_hex (scriptPubKey out0)));
        match dataStream with
        | None => mret false
        | Some dataStream =>
            if negb (_length dataStream mod 64 =? 0) then mret false
            else
              match addresses (scriptPubKey out1) with
              | [address] =>
                  if negb (isWatchAddress address) then mret false
                  else
                    sender ← lift (getSendingAddress (txid input) (out_n input));
                    if negb (bool_decide (address = sender)) then mret false
                    else
                      rates ← lift (local (read_rates (S (unread dataStream))) dataStream);
                      modify (fun t => set_exchangeRate (_exchangeRate t ++ rates) t);;
                      modify (set_txType EXCHANGE_PUBLISH);;
                      mret true
              | _ => mret false
              end
        end
    | _, _ => mret false
    end.

(** *** KYC *)
Definition decodeKYC `{db : Sqlite} (dataIndex : Z) : M DigiByteTransaction bool :=
  if negb (dataIndex =? 1) then mret false
  else
    t ← get;
    let '(o, kycData) := processTX txData (_height t) getSendingAddress (_kycData t) in
    modify (set_kycData kycData);;
    txType ← lift o;
    if txType =? NA then mret false
    else if txType =? VERIFY then modify (set_txType KYC_ISSUANCE);; mret true
    else modify (set_txType KYC_REVOKE);; mret true.

(** *** Encrypted keys and unknown data *)
Definition decodeEncryptedKeyTx (dataIndex : Z) : M DigiByteTransaction bool :=
  if negb (dataIndex =? 1) then mret false
  else if negb (length (vin txData) =? 1)%nat then mret false
  else if (length (vout txData) <? 2)%nat || (3 <? length (vout txData))%nat then mret false
  else
    out0 ← vec_at (vout txData) 0;
    if negb (valueS out0 =? 650) then mret false
    else
      modify (set_txType ENCRYPTED_KEY);;
      output ← vec_at (vout txData) dataIndex;
      modify (set_opReturnHex (script_hex (scriptPubKey output)));;
      mret true.

Definition storeUnknown (dataIndex : Z) : M DigiByteTransaction unit :=
  if dataIndex =? -1 then mret tt
  else
    modify (set_txType STANDARD);;
    output ← vec_at (vout txData) dataIndex;
    modify (set_opReturnHex (script_hex (scriptPubKey output))).

(** *** DigiDollar *)
Definition record_mint (metadata : Metadata) : M DigiByteTransaction unit :=
  let vault := findVaultOutput txData in
  t ← get;
  collateral ← (if 0 <=? vault then output ← vec_at (vout txData) vault; mret (valueS output)
                else mret (_ddCollateral t));
  modify (set_ddMint (match amounts metadata with [] => 0 | minted :: _ => minted end)
            (u32 (lockHeight metadata)) (lockTier metadata) vault collateral).

Definition decodeDigiDollar : M DigiByteTransaction bool :=
  t ← get;
  match decodeMetadata txData (_height t) with
  | None => mret false
  | Some metadata =>
      match md_type metadata with
      | TX_NONE => mret false
      | TX_MINT => modify (set_txType DIGIDOLLAR_MINT);; record_mint metadata
                   ;; modify (set_ddOutputs (mapAmountsToOutputs txData metadata));; mret true
      | TX_TRANSFER => modify (set_txType DIGIDOLLAR_TRANSFER)
                       ;; modify (set_ddOutputs (mapAmountsToOutputs txData metadata));; mret true
      | TX_REDEEM => modify (set_txType DIGIDOLLAR_REDEEM)
                     ;; modify (set_ddOutputs (mapAmountsToOutputs txData metadata));; mret true
      end
  end.

(** *** Asset transactions *)

(** [catch (const DigiAsset::exception&) { return false; }] and the other
    handlers of [decodeAssetTX]. *)
Definition catch_asset_exception {S} (m : M S bool) : M S bool :=
  try_catch m (fun e => if is_DigiAsset_exception e then mret false else throw e).

(** A broken rule destroys every asset of the outputs; an unknown exchange rate
    leaves them as sent. *)
Definition transfer_handler (e : exn) : M DigiByteTransaction bool :=
  if is_RuleFailed e then
    modify (fun t => set_outputs (clear_assets (_outputs t)) (set_unintentionalBurn true t));; mret false
  else if is_DigiAsset_exception e then mret false
  else match e with out_of_range _ => mret false | e => throw e end.

Definition decode_issuance `{db : Sqlite} (version opcode : Z) (dataStream : BitIO) : M loading bool :=
  catch_asset_exception
    (s ← get;
     set_tx (fun t => if _assetFound t then set_unintentionalBurn true t else t);;
     let '(o, (dataStream, watch)) :=
       DigiAsset_issued txData (_height (tx s)) version opcode (dataStream, watched s) in
     modify (fun s => mk_loading (tx s) (stored s) watch);;
     newAsset ← lift o;
     set_tx (set_newAsset newAsset);;
     on_tx (decodeAssetTransfer dataStream [mk_AssetUTXO "" 0 "" 0 [newAsset]] DIGIASSET_ISSUANCE);;
     set_tx (set_txType DIGIASSET_ISSUANCE);;
     mret true).

Definition decodeAssetTX `{db : Sqlite} : M loading bool :=
  header ← lift (decodeAssetTxHeader txData);
  let '(version, opcode, dataStream) := header in
  set_tx (set_version version);;
  if opcode =? 0 then mret false
  else if opcode <? 16 then decode_issuance version opcode dataStream
  else if opcode <? 48 then
    let burn := 0x20 <=? opcode in
    if negb (opcode mod 16 =? 5) then mret false
    else
      s ← get;
      if negb (_assetFound (tx s)) then mret false
      else
        on_tx (try_catch
          (t ← get;
           decodeAssetTransfer dataStream (_inputs t) (if burn then DIGIASSET_BURN else DIGIASSET_TRANSFER);;
           modify (set_txType (if burn then DIGIASSET_BURN else DIGIASSET_TRANSFER));;
           mret true)
          transfer_handler)
  else mret false.
End decode.

(** ** The constructor *)
Section load.
Context (db : Sqlite).

(** The inputs before the first without txid (a coinbase). *)
Fixpoint spent_inputs (vins : list vin_t) : list vin_t :=
  match vins with
  | [] => []
  | input :: vins => if bool_decide (txid input = ""%string) then [] else input :: spent_inputs vins
  end.

(** Can the transaction be anything but a plain one? *)
Definition may_need_input_processing (txData : getrawtransaction_t) : M DigiByteTransaction bool :=
  let isDigiDollar := negb (bool_decide (typeFromVersion (tx_version txData) = TX_NONE)) in
  let hasOpReturn :=
    existsb (fun o => bool_decide (script_type (scriptPubKey o) = "nulldata"%string)) (vout txData) in
  if (isDigiDollar || hasOpReturn) && (5 <? length (vin txData))%nat && negb isDigiDollar then
    header ← lift (decodeAssetTxHeader txData);
    let '(version, opcode, _) := header in
    modify (set_version version);;
    mret (negb (opcode =? 0))
  else mret (isDigiDollar || hasOpReturn).

Definition copy_inputs (vins : list vin_t) (height : Z) : M loading unit :=
  for_each (spent_inputs vins) (fun input =>
    utxo ← on_store (getAssetUTXO (txid input) (out_n input) height);
    set_tx (fun t =>
      let t := if is_empty (assets utxo) then t else set_assetFound true t in
      set_inputs (_inputs t ++ [utxo]) t)).

Definition output_of (txData : getrawtransaction_t) (o : vout_t) : AssetUTXO :=
  mk_AssetUTXO (tx_txid txData) (u16 (vout_n o))
    (match addresses (scriptPubKey o) with [] => ""%string | a :: _ => a end) (valueS o) [].

(** The index of the OP_RETURN to decode, -1 if there is none. *)
Fixpoint find_op_return (height : Z) (outputs : list vout_t) (i : Z) : Z :=
  match outputs with
  | [] => -1
  | o :: outputs =>
      if negb (bool_decide (script_type (scriptPubKey o) = "nulldata"%string)) then find_op_return height outputs (i + 1)
      else if (DIGIDOLLAR_ACTIVATION_HEIGHT <=? height) && is_dd_metadata (script_hex (scriptPubKey o)) then
        find_op_return height outputs (i + 1)
      else i
  end.

(** The decoders in order, each on the outputs the store holds now. *)
Definition decode_type (txData : getrawtransaction_t) (dataIndex : Z) : M loading unit :=
  s ← get;
  let db' := with_utxos db (stored s) in
  kyc ← on_tx (decodeKYC txData (db := db') dataIndex);
  if kyc : bool then mret tt
  else
    rates ← on_tx (decodeExchangeRate txData (db := db') dataIndex);
    if rates : bool then mret tt
    else
      key ← on_tx (decodeEncryptedKeyTx txData dataIndex);
      if key : bool then mret tt
      else
        asset ← decodeAssetTX txData (db := db');
        if asset : bool then mret tt else on_tx (storeUnknown txData dataIndex).

Definition load_transaction (txData : getrawtransaction_t) (height : Z) (dontBotherIfNotSpecial : bool)
    : M loading unit :=
  set_tx (set_chain height (tx_txid txData) (tx_blockhash txData) (tx_time txData));;
  special ← (if dontBotherIfNotSpecial then on_tx (may_need_input_processing txData) else mret true);
  if negb (special : bool) then
    set_tx (fun t => set_inputs (_inputs t ++ map (fun input =>
                       mk_AssetUTXO (txid input) (u16 (out_n input)) "" 0 []) (spent_inputs (vin txData))) t);;
    set_tx (set_txType STANDARD)
  else
    set_tx (set_assetFound false);;
    copy_inputs (vin txData) height;;
    set_tx (fun t => set_outputs (_outputs t ++ map (output_of txData) (vout txData)) t);;
    dollar ← on_tx (decodeDigiDollar txData);
    if dollar : bool then mret tt
    else
      let dataIndex := find_op_return height (vout txData) 0 in
      if dataIndex =? -1 then mret tt else decode_type txData dataIndex.

(** [DigiByteTransaction(txid, height, dontBotherIfNotSpecial)] *)
Definition DigiByteTransaction_load (txid : string) (height : Z) (dontBotherIfNotSpecial : bool)
    : M (store * list string) DigiByteTransaction := fun '(st, watch) =>
  let '(o, s) :=
    (txData ← lift (getRawTransaction txid);
     height ← lift (if height =? 0 then getBlockHeight (tx_blockhash txData) else Ok height);
     load_transaction txData height dontBotherIfNotSpecial)
      (mk_loading (DigiByteTransaction_default 0) st watch) in
  (_ ← o; Ok (tx s), (stored s, watched s)).
End load.
