(* ===== verification/Transfer.v ===== *)
(** Transfer: the assets of a transaction are neither created nor lost by the
    transfer instructions. [held k l] is how many units of the asset with index
    [k] the list [l] holds; the instructions move units between inputs and
    outputs and [held] follows them. *)

From S2P Require Import Prelude.
From S2P Require Import BitIO.
From S2P Require Import BitIOBlocks.
From S2P Require Import BitStream.
From S2P Require Import BitIOCodec.
From S2P Require Import BitIONumbers.
From S2P Require Import OpReturn.
From S2P Require Import AssetTypes.
From S2P Require Import DigiAssetRules.
From S2P Require Import Database.
From S2P Require Import DigiAsset.
From S2P Require Import DigiByteTransaction.

Ltac Zify.zify_post_hook ::= Z.div_mod_to_equations.

(** ** Units of an asset *)
Definition units (k : Z) (a : DigiAsset) : Z := if _assetIndex a =? k then _count a else 0.
Definition held (k : Z) (l : list DigiAsset) : Z := foldr (fun a n => units k a + n) 0 l.
Definition held_in (k : Z) (inputs : list (list DigiAsset)) : Z := held k (concat inputs).
Definition held_out (k : Z) (outputs : list AssetUTXO) : Z := held k (concat (map assets outputs)).

(** Counts as the code stores them. *)
Definition count_ok (a : DigiAsset) : Prop := 0 <= _count a < two64.

Section held.
Implicit Types (k : Z) (a : DigiAsset) (l : list DigiAsset).

Lemma held_app k l l' : held k (l ++ l') = held k l + held k l'.
Proof. induction l as [|a l IH]; simpl; [done|]. rewrite IH. lia. Qed.

Lemma units_nonneg k a : count_ok a -> 0 <= units k a.
Proof. unfold units, count_ok. case_match; lia. Qed.

Lemma held_nonneg k l : Forall count_ok l -> 0 <= held k l.
Proof. induction 1 as [|a l Ha _ IH]; simpl; [done|]. pose proof (units_nonneg k a Ha). lia. Qed.

Lemma held_elem k a l : Forall count_ok l -> a ∈ l -> units k a <= held k l.
Proof.
  intros Hl Ha. apply list_elem_of_split in Ha as (l1 & l2 & ->).
  apply Forall_app in Hl as [H1 H2]. rewrite Forall_cons in H2. destruct H2 as [_ H2].
  rewrite held_app. simpl. pose proof (held_nonneg k l1 H1). pose proof (held_nonneg k l2 H2). lia.
Qed.

(** Replacing one of several lists. *)
Lemma held_concat_insert k (ls : list (list DigiAsset)) i l l' :
  ls !! i = Some l -> held k (concat (<[i := l']> ls)) = held k (concat ls) - held k l + held k l'.
Proof.
  revert i; induction ls as [|x ls IH]; intros [|i] H; simpl in *; try done.
  - injection H as ->. rewrite !held_app. lia.
  - rewrite !held_app, (IH i H). lia.
Qed.

Lemma Forall_concat_insert {A} (P : A -> Prop) (ls : list (list A)) i (l' : list A) :
  Forall P (concat ls) -> Forall P l' -> Forall P (concat (<[i := l']> ls)).
Proof.
  revert i; induction ls as [|x ls IH]; intros [|i] H H'; simpl in *; try done;
    apply Forall_app in H as [H1 H2]; apply Forall_app; auto.
Qed.

Lemma Forall_concat_lookup {A} (P : A -> Prop) (ls : list (list A)) i (l : list A) :
  Forall P (concat ls) -> ls !! i = Some l -> Forall P l.
Proof.
  intros H Hl. apply Forall_forall. intros x Hx. rewrite Forall_forall in H. apply H.
  apply list_elem_of_In, in_concat. exists l. rewrite <- !list_elem_of_In.
  split; [by eapply list_elem_of_lookup_2|done].
Qed.

Lemma held_concat_lookup k (ls : list (list DigiAsset)) i l :
  Forall count_ok (concat ls) -> ls !! i = Some l -> held k l <= held k (concat ls).
Proof.
  intros H Hl. pose proof (held_concat_insert k ls i l [] Hl) as E. simpl in E.
  pose proof (held_nonneg k _ (Forall_concat_insert count_ok ls i [] H (Forall_nil_2 _))). lia.
Qed.

Lemma map_assets_insert (outputs : list AssetUTXO) o l u :
  map assets (<[o := set_assets l u]> outputs) = <[o := l]> (map assets outputs).
Proof. revert o; induction outputs as [|x outputs IH]; intros [|o]; simpl; [done..|]. by rewrite IH. Qed.

Lemma map_assets_lookup (outputs : list AssetUTXO) o u :
  outputs !! o = Some u -> map assets outputs !! o = Some (assets u).
Proof. intros H. rewrite list_lookup_fmap. by rewrite H. Qed.
End held.

(** ** Placing an asset on an output *)

(** [l'] is [l] with the units of [a] added. *)
Definition received (a : DigiAsset) (l l' : list DigiAsset) : Prop :=
  Forall count_ok l' /\ forall k, held k l' = held k l + units k a.

(** The units fit the machine word. *)
Definition fits_with (a : DigiAsset) (n : Z) : Prop := n + _count a < two64.

Lemma received_app a l : Forall count_ok l -> count_ok a -> received a l (l ++ [a]).
Proof.
  intros Hl Ha. split; [by apply Forall_app; split; [|constructor]|].
  intros k. rewrite held_app. simpl. lia.
Qed.

Lemma received_add_same a l l' :
  Forall count_ok l -> count_ok a -> fits_with a (held (_assetIndex a) l) ->
  add_same a l = Some l' -> received a l l'.
Proof.
  intros Hl Ha. revert l'. induction l as [|x l IH]; intros l' Hfit H; simpl in *; [done|].
  apply Forall_cons in Hl as [Hx Hl]. unfold fits_with in *.
  pose proof (held_nonneg (_assetIndex a) l Hl) as Hn. pose proof (units_nonneg (_assetIndex a) x Hx) as Hu.
  destruct (Z.eqb_spec (_assetIndex x) (_assetIndex a)) as [E|E].
  - injection H as <-. unfold units in Hfit. rewrite E, Z.eqb_refl in Hfit.
    unfold addCount, getCount. unfold count_ok in *. rewrite u64_small by lia. split.
    + constructor; [|done]. unfold count_ok. simpl. lia.
    + intros k. simpl. unfold units. simpl. rewrite E. case_match; lia.
  - destruct (add_same a l) as [r|]; [|done]. simplify_option_eq.
    destruct (IH Hl r ltac:(lia) eq_refl) as [Hr Hk]. split; [by constructor|].
    intros k. simpl. rewrite Hk. lia.
Qed.

Lemma received_place a l :
  Forall count_ok l -> count_ok a -> fits_with a (held (_assetIndex a) l) -> received a l (place_asset a l).
Proof.
  intros Hl Ha Hfit. unfold place_asset. case_match; [|by apply received_app].
  destruct (add_same a l) as [l'|] eqn:E; simpl; [by eapply received_add_same|by apply received_app].
Qed.

Lemma change_same_add a l o :
  change_same a l = Ok o -> o = add_same a l.
Proof.
  revert o; induction l as [|x l IH]; intros o H; simpl in *; [by injection H|].
  unfold mbind, outcome_bind, getAssetIndex in H.
  destruct (_assetIndex x =? 0); [done|]. destruct (_assetIndex a =? 0); [done|].
  destruct (_assetIndex x =? _assetIndex a); [by injection H|]. destruct (change_same a l) as [f| | |]; try done.
  injection H as <-. by rewrite (IH f eq_refl).
Qed.

(** ** States of the transfer *)
Definition outputs_ok (outputs : list AssetUTXO) : Prop := Forall count_ok (concat (map assets outputs)).
Definition inputs_ok (inputs : list (list DigiAsset)) : Prop := Forall count_ok (concat inputs).

(** What moving [n] units of the asset [a] to the outputs does to them. *)
Definition outputs_plus (a : DigiAsset) (n : Z) (outputs outputs' : list AssetUTXO) : Prop :=
  outputs_ok outputs' /\ length outputs' = length outputs
  /\ forall k, held_out k outputs' = held_out k outputs + (if _assetIndex a =? k then n else 0).

Lemma outputs_plus_insert a l l' u (o : nat) outputs :
  outputs_ok outputs -> outputs !! o = Some u -> l = assets u -> received a l l' ->
  outputs_plus a (_count a) outputs (<[o := set_assets l' u]> outputs).
Proof.
  intros Hok Hu -> [Hl Hk]. unfold outputs_plus, outputs_ok, held_out. rewrite map_assets_insert, length_insert.
  split_and!; [by apply Forall_concat_insert|done|]. intros k.
  rewrite (held_concat_insert k _ o (assets u)) by (by apply map_assets_lookup).
  rewrite Hk. unfold units. case_match; lia.
Qed.

Lemma held_output k outputs (o : nat) u :
  outputs_ok outputs -> outputs !! o = Some u -> held k (assets u) <= held_out k outputs.
Proof. intros Hok Hu. apply (held_concat_lookup k _ o); [done|by apply map_assets_lookup]. Qed.

Lemma outputs_ok_lookup outputs (o : nat) u :
  outputs_ok outputs -> outputs !! o = Some u -> Forall count_ok (assets u).
Proof. intros Hok Hu. eapply (Forall_concat_lookup _ _ o); [exact Hok|by apply map_assets_lookup]. Qed.

Lemma addAssetToOutput_held (o : nat) a outputs outputs' :
  outputs_ok outputs -> count_ok a -> fits_with a (held_out (_assetIndex a) outputs) ->
  addAssetToOutput o a outputs = (Ok tt, outputs') -> outputs_plus a (_count a) outputs outputs'.
Proof.
  intros Hok Ha Hfit. unfold addAssetToOutput, mbind, M_bind, get, put, undefined.
  destruct (outputs !! o) as [u|] eqn:Hu; [|done]. intros [= <-].
  eapply outputs_plus_insert; [done|exact Hu|reflexivity|].
  apply received_place; [by eapply outputs_ok_lookup|done|].
  unfold fits_with in *. pose proof (held_output (_assetIndex a) outputs o u Hok Hu). lia.
Qed.

Lemma outputs_plus_trans a n m outputs outputs1 outputs2 :
  outputs_plus a n outputs outputs1 -> outputs_plus a m outputs1 outputs2 ->
  outputs_plus a (n + m) outputs outputs2.
Proof.
  intros (_ & L1 & H1) (Ok2 & L2 & H2). split_and!; [done|congruence|].
  intros k. rewrite H2, H1. case_match; lia.
Qed.

Lemma outputs_plus_0 a outputs : outputs_ok outputs -> outputs_plus a 0 outputs outputs.
Proof. intros H. split_and!; [done|done|]. intros k. case_match; lia. Qed.

(** The loop of an instruction over its outputs. *)
Lemma add_outputs_held a os outputs outputs' :
  outputs_ok outputs -> count_ok a ->
  held_out (_assetIndex a) outputs + Z.of_nat (length os) * _count a < two64 ->
  for_each os (fun o => addAssetToOutput o a) outputs = (Ok tt, outputs') ->
  outputs_plus a (Z.of_nat (length os) * _count a) outputs outputs'.
Proof.
  revert outputs; induction os as [|o os IH]; intros outputs Hok Ha Hfit H; cbn [for_each] in H.
  - injection H as <-. by apply outputs_plus_0.
  - apply bind_ok_inv in H as ([] & outputs1 & H1 & H2). cbn [length] in *. unfold count_ok in Ha.
    assert (outputs_plus a (_count a) outputs outputs1) as P1.
    { eapply addAssetToOutput_held; [done|done| |exact H1]. unfold fits_with. nia. }
    pose proof P1 as (Ok1 & _ & E1). specialize (E1 (_assetIndex a)). rewrite Z.eqb_refl in E1.
    specialize (IH outputs1 Ok1 Ha ltac:(lia) H2).
    pose proof (outputs_plus_trans _ _ _ _ _ _ P1 IH) as P.
    replace (Z.of_nat (S (length os)) * _count a) with (_count a + Z.of_nat (length os) * _count a) by lia. done.
Qed.

(** ** Removing units from the inputs *)
Record sound (s : transferring) : Prop := {
  sound_inputs : inputs_ok (t_inputs s);
  sound_outputs : outputs_ok (t_outputs s)
}.

Definition total (k : Z) (s : transferring) : Z := held_out k (t_outputs s) + held_in k (t_inputs s).

(** Only the inputs changed, by [n] units of the asset [a]. *)
Definition inputs_minus (a : DigiAsset) (n : Z) (s s' : transferring) : Prop :=
  t_outputs s' = t_outputs s /\ t_data s' = t_data s /\ inputs_ok (t_inputs s')
  /\ forall k, held_in k (t_inputs s') = held_in k (t_inputs s) - (if _assetIndex a =? k then n else 0).

Lemma inputs_minus_trans a n m s s1 s2 :
  inputs_minus a n s s1 -> inputs_minus a m s1 s2 -> inputs_minus a (n + m) s s2.
Proof.
  intros (O1 & D1 & I1 & H1) (O2 & D2 & I2 & H2).
  split_and!; [congruence|congruence|done|]. intros k. rewrite H2, H1. case_match; lia.
Qed.

(** The first chunk of the current input is replaced by [l]. *)
Lemma inputs_minus_head a s chunk chunks (l : list DigiAsset) index skip :
  inputs_ok (t_inputs s) -> t_inputs s !! t_index s = Some (chunk :: chunks) ->
  Forall count_ok l -> _assetIndex chunk = _assetIndex a ->
  (forall k, held k l = held k (chunk :: chunks) - (if _assetIndex a =? k then held (_assetIndex a) (chunk :: chunks) - held (_assetIndex a) l else 0)) ->
  inputs_minus a (held (_assetIndex a) (chunk :: chunks) - held (_assetIndex a) l) s
    (mk_transferring (t_data s) (<[t_index s := l]> (t_inputs s)) index skip (t_outputs s)).
Proof.
  intros Hok Hl Hc Ha Hk. split_and!; [done|done| |].
  - cbn [t_inputs]. by apply Forall_concat_insert.
  - intros k. cbn [t_inputs]. unfold held_in. rewrite (held_concat_insert k _ _ _ _ Hl), (Hk k). lia.
Qed.

Lemma take_assets_held fuel a n s s' :
  inputs_ok (t_inputs s) -> 0 <= n -> take_assets fuel a n s = (Ok tt, s') -> inputs_minus a n s s'.
Proof.
  revert n s. induction fuel as [|fuel IH]; intros n s Hok Hn H; cbn [take_assets] in H;
    (destruct (Z.leb_spec n 0);
      [injection H as <-; assert (n = 0) as -> by lia; split_and!; try done; intros k; case_match; lia|]);
    [done|].
  unfold source, mbind, M_bind, get in H.
  destruct (t_inputs s !! t_index s) as [[|chunk chunks]|] eqn:Hl; try done.
  destruct (asset_eqb chunk a) eqn:Hi; [|done]. unfold asset_eqb in Hi. apply Z.eqb_eq in Hi. cbn [negb] in H.
  pose proof (Forall_concat_lookup _ _ _ _ Hok Hl) as Hc. apply Forall_cons in Hc as [Hc Hcs].
  unfold count_ok in Hc. destruct (_ && isHybrid chunk); [done|]. unfold getCount in H.
  destruct (Z.leb_spec (_count chunk) n) as [Hle|Hgt].
  - set (s1 := mk_transferring (t_data s) (<[t_index s := chunks]> (t_inputs s))
                 (if is_empty chunks then S (t_index s) else t_index s) (negb (is_empty chunks)) (t_outputs s)).
    assert (take_assets fuel a (n - _count chunk) s1 = (Ok tt, s')) as Hrest
      by (destruct chunks; exact H).
    assert (inputs_minus a (_count chunk) s s1) as H1.
    { replace (_count chunk) with (held (_assetIndex a) (chunk :: chunks) - held (_assetIndex a) chunks).
      - apply inputs_minus_head; try done. intros k. simpl. unfold units. rewrite Hi, Z.eqb_refl. destruct (_assetIndex a =? k); lia.
      - simpl. unfold units. rewrite Hi, Z.eqb_refl. lia. }
    replace n with (_count chunk + (n - _count chunk)) by lia.
    eapply inputs_minus_trans; [exact H1|]. apply IH; [|lia|exact Hrest]. apply H1.
  - unfold removeCount, exec, mbind, M_bind, get, put, lift in H.
    destruct (Z.ltb_spec (_count chunk) n); [lia|]. injection H as <-.
    rewrite u64_small by lia. set (rest := set_count (_count chunk - n) chunk :: chunks).
    assert (n = held (_assetIndex a) (chunk :: chunks) - held (_assetIndex a) rest) as E.
    { subst rest. simpl. unfold units. simpl. rewrite Hi, Z.eqb_refl. lia. }
    rewrite E at 1. apply inputs_minus_head; try done.
    + constructor; [|done]. unfold count_ok. simpl. lia.
    + intros k. rewrite <- E. subst rest. simpl. unfold units. simpl. rewrite Hi. destruct (_assetIndex a =? k); lia.
Qed.

(** ** One instruction *)

(** What [read_instruction] returns, and when the units a range takes from the
    inputs do not wrap around. *)
Definition instruction_ok (i : instruction) : Prop :=
  0 <= i_percentByte i <= 256 /\ 0 <= i_fixedAmount i < two64.
Definition range_fits (i : instruction) : bool :=
  negb (i_range i)
  || (if i_percent i then (i_output i <? 256)%nat
      else (Z.of_nat (i_output i) + 1) * i_fixedAmount i <? two64).

Lemma instruction_amount_range i a :
  instruction_ok i -> 0 <= instruction_amount i a < (if i_percent i then 2 ^ 56 else two64).
Proof.
  intros [_ H]. unfold instruction_amount. case_match; [|done].
  pose proof (u64_range (getCount a * i_percentByte i)). unfold two64 in *. lia.
Qed.

Lemma instruction_total_exact i a :
  instruction_ok i -> range_fits i = true ->
  instruction_total i (instruction_amount i a) = Z.of_nat (length (instruction_outputs i)) * instruction_amount i a.
Proof.
  intros Hi Hf. pose proof (instruction_amount_range i a Hi) as Ha.
  unfold instruction_total, instruction_outputs, range_fits in *.
  destruct (i_range i); simpl in Hf; [|simpl; lia]. rewrite length_seq, Nat2Z.inj_succ.
  unfold Z.succ. apply u64_small. unfold instruction_amount in *. destruct (i_percent i).
  - apply Nat.ltb_lt in Hf. unfold two64. nia.
  - apply Z.ltb_lt in Hf. unfold two64 in *. nia.
Qed.

(** The instruction burns what it takes. *)
Definition is_burn (type : Z) (i : instruction) : bool :=
  (type =? DIGIASSET_BURN) && negb (i_range i) && (i_output i =? 31)%nat.

Definition conserves (type : Z) (s s' : transferring) : Prop :=
  sound s' /\ t_data s' = t_data s /\ length (t_outputs s') = length (t_outputs s)
  /\ exists burned : Z -> Z, (forall k, 0 <= burned k) /\ (type <> DIGIASSET_BURN -> forall k, burned k = 0)
     /\ forall k, total k s' + burned k = total k s.

Lemma conserves_refl type s : sound s -> conserves type s s.
Proof. intros H. split_and!; [done|done|done|]. exists (fun _ => 0). split_and!; [done|done|]. intros; lia. Qed.

Lemma conserves_trans type s s1 s2 : conserves type s s1 -> conserves type s1 s2 -> conserves type s s2.
Proof.
  intros (_ & D1 & L1 & b1 & P1 & Z1 & H1) (S2 & D2 & L2 & b2 & P2 & Z2 & H2).
  split_and!; [done|congruence|congruence|].
  exists (fun k => b1 k + b2 k). split_and!.
  - intros k. specialize (P1 k). specialize (P2 k). lia.
  - intros Ht k. rewrite (Z1 Ht k), (Z2 Ht k). done.
  - intros k. specialize (H1 k). specialize (H2 k). lia.
Qed.

Lemma total_nonneg k s : sound s -> 0 <= held_out k (t_outputs s) /\ 0 <= held_in k (t_inputs s).
Proof. intros [Hi Ho]. split; by apply held_nonneg. Qed.

Lemma sound_inputs_minus a n s s' : sound s -> inputs_minus a n s s' -> sound s'.
Proof. intros [Hi Ho] (O & _ & I & _). constructor; [done|by rewrite O]. Qed.

(** Handing out what was taken. *)
Lemma distribute_held i chunk s s1 outputs :
  sound s -> count_ok chunk -> (forall k, total k s < two64) -> instruction_ok i -> range_fits i = true ->
  let amount := instruction_amount i chunk in
  inputs_minus chunk (instruction_total i amount) s s1 ->
  for_each (instruction_outputs i) (fun o => addAssetToOutput o (setCount amount chunk)) (t_outputs s1) = (Ok tt, outputs) ->
  outputs_plus chunk (instruction_total i amount) (t_outputs s) outputs.
Proof.
  intros Hs Hc Ht Hi Hf amount Hm H. pose proof Hs as [Hin Hout]. pose proof Hm as (O1 & _ & I1 & E1).
  rewrite O1 in H. pose proof (instruction_amount_range i chunk Hi) as Ha. fold amount in Ha.
  assert (count_ok (setCount amount chunk)) as Hc'.
  { unfold count_ok, setCount. simpl. unfold two64 in *. destruct (i_percent i); lia. }
  unfold amount in *. rewrite instruction_total_exact in * by done.
  specialize (E1 (_assetIndex chunk)). rewrite Z.eqb_refl in E1.
  pose proof (held_nonneg (_assetIndex chunk) _ I1) as H0. specialize (Ht (_assetIndex chunk)).
  unfold total, held_in in *.
  apply (add_outputs_held (setCount _ chunk)) in H; [exact H|done|done|]. simpl. lia.
Qed.

Lemma apply_instruction_conserves type i s s' :
  sound s -> (forall k, total k s < two64) -> instruction_ok i -> range_fits i = true ->
  apply_instruction type i s = (Ok tt, s') -> conserves type s s'.
Proof.
  intros Hs Ht Hi Hf. unfold apply_instruction, source.
  unfold mbind at 1, M_bind at 1, get at 1.
  destruct (t_inputs s !! t_index s) as [[|chunk chunks]|] eqn:Hl; try done.
  cbv beta zeta. unfold mbind at 1, M_bind at 1, get at 1. intros H.
  apply bind_ok_inv in H as ([] & s1 & H1 & H). apply bind_ok_inv in H as ([] & s2 & H2 & H3).
  pose proof Hs as [Hin Hout].
  pose proof (Forall_concat_lookup _ _ _ _ Hin Hl) as Hc. apply Forall_cons in Hc as [Hc _].
  pose proof (instruction_amount_range i chunk Hi) as Ha.
  assert (0 <= instruction_total i (instruction_amount i chunk)) as Hn.
  { rewrite instruction_total_exact by done. nia. }
  pose proof (take_assets_held _ _ _ _ _ Hin Hn H1) as Hm.
  pose proof (sound_inputs_minus _ _ _ _ Hs Hm) as Hs1. pose proof Hm as (O1 & D1 & I1 & E1).
  assert (conserves type s s2) as Hc2.
  { set (n := instruction_total i (instruction_amount i chunk)) in *.
    destruct (Z.ltb_spec 0 n) as [Hpos|Hz]; cbn [when] in H2.
    - destruct ((type =? DIGIASSET_BURN) && _ && _) eqn:Eb.
      + injection H2 as <-. split_and!; [done|done|by rewrite O1|].
        exists (fun k => if _assetIndex chunk =? k then n else 0). split_and!.
        * intros k. destruct (_assetIndex chunk =? k); [exact Hn|done].
        * intros Hne. apply andb_true_iff in Eb as [Eb _]. apply andb_true_iff in Eb as [Eb _].
          apply Z.eqb_eq in Eb. done.
        * intros k. unfold total. rewrite O1, E1. lia.
      + unfold mbind, M_bind, get in H2. destruct (_ <=? _)%nat; [done|].
        unfold on_outputs in H2. destruct (for_each _ _ _) as [o outputs] eqn:Hfor. injection H2 as -> <-.
        pose proof (distribute_held i chunk s s1 outputs Hs Hc Ht Hi Hf Hm Hfor) as (Ook & L & E). fold n in E.
        split_and!; [by constructor|done|done|]. exists (fun _ => 0). split_and!; [done|done|].
        intros k. unfold total. simpl. rewrite E, E1. destruct (_assetIndex chunk =? k); lia.
    - injection H2 as <-. assert (n = 0) as Hn0 by lia. split_and!; [done|done|by rewrite O1|].
      exists (fun _ => 0). split_and!; [done|done|]. intros k. unfold total. cbn beta. rewrite O1, E1, Hn0. destruct (_assetIndex chunk =? k); lia. }
  eapply conserves_trans; [exact Hc2|]. destruct Hc2 as ([Hi2 Ho2] & _).
  destruct (i_skip i); cbn [when] in H3.
  - unfold mbind, M_bind, get, set_source, modify in H3. injection H3 as <-.
    split_and!; [by constructor|done|done|]. exists (fun _ => 0).
    split_and!; [done|done|]. intros k. unfold total. simpl. lia.
  - injection H3 as <-. apply conserves_refl. by constructor.
Qed.

(** ** Reading the instructions *)
Lemma returns_bind {A B} d k (m : M BitIO A) (f : A -> M BitIO B) (P : A -> Prop) (Q : B -> Prop) :
  reader d k m -> returns m P -> (forall a, P a -> returns (f a) Q) -> returns (m ≫= f) Q.
Proof.
  intros Hm HP Hf b x Hw Hfit. destruct (Hm b Hw Hfit) as (o & p & Hrun & Hp & _).
  unfold mbind, M_bind. rewrite Hrun. destruct o as [a| | |]; try done. intros Hx.
  apply (Hf a) with (b := set_position p b); [|by apply wf_set_position|done|done].
  apply (HP b); [done|done|by rewrite Hrun].
Qed.

Lemma returns_any {A} (m : M BitIO A) : returns m (fun _ => True).
Proof. intros b a _ _ _. exact I. Qed.

Lemma returns_true {A} (a : A) (P : A -> Prop) : P a -> returns (mret a) P.
Proof. intros Ha b x _ _ [= <-]. done. Qed.

Lemma returns_last {A B} (m : M BitIO A) (f : A -> M BitIO B) (P : B -> Prop) :
  (forall a b x, fst (f a b) = Ok x -> P x) -> forall b x, fst ((m ≫= f) b) = Ok x -> P x.
Proof. intros H b x. unfold mbind, M_bind. destruct (m b) as [[a| | |] b1]; try done. apply H. Qed.

Lemma getFixedPrecision_range : returns getFixedPrecision (fun v => 0 <= v < two64).
Proof.
  intros b v _ _. revert b v. unfold getFixedPrecision.
  apply returns_last. intros l. apply returns_last. intros length.
  apply returns_last. intros [m e]. apply returns_last. intros p b v [= <-]. apply u64_range.
Qed.

Lemma reader_get_bool d : reader d 1 get_bool.
Proof. apply (reader_bind' d 1); [by apply reader_getBits|intros; apply reader_ret]. Qed.

(** Every instruction is at least a byte. *)
Lemma reader_instruction d : reader d 8 read_instruction.
Proof.
  unfold read_instruction. apply (reader_weaken d (1 + (1 + (1 + (5 + 0))))); [|lia].
  apply reader_bind; [apply reader_get_bool|intros skip].
  apply reader_bind; [apply reader_get_bool|intros range].
  apply reader_bind; [apply reader_get_bool|intros percent].
  apply reader_bind; [apply reader_if; [apply (reader_weaken d 13); [|lia]|]; by apply reader_getBits|intros output].
  apply (reader_bind' d 0); [|intros byte; apply (reader_bind' d 0); [|intros; apply reader_ret]].
  - apply reader_if; [|apply reader_ret]. apply (reader_bind' d 0); [|intros; apply reader_ret].
    apply (reader_weaken d 8); [by apply reader_getBits|lia].
  - apply reader_if; [apply reader_ret|]. apply (reader_weaken d 8); [apply reader_getFixedPrecision|lia].
Qed.

Lemma read_instruction_ok : returns read_instruction instruction_ok.
Proof.
  unfold read_instruction.
  do 3 (eapply (returns_bind true 1); [apply reader_get_bool|apply returns_any|intros ? _]).
  eapply (returns_bind true 5); [|apply returns_any|intros output _].
  { apply reader_if; [apply (reader_weaken true 13); [|lia]|]; by apply reader_getBits. }
  apply (returns_bind true 0) with (P := fun v => 0 <= v <= 256).
  { apply reader_if; [|apply reader_ret]. apply (reader_bind' true 0); [|intros; apply reader_ret].
    apply (reader_weaken true 8); [by apply reader_getBits|lia]. }
  { case_match; [|by apply returns_true].
    apply (returns_bind true 8) with (P := fun v => 0 <= v < 2 ^ 8);
      [by apply reader_getBits|by apply getBits_range|]. intros v Hv. apply returns_true. lia. }
  intros byte Hb. apply (returns_bind true 0) with (P := fun v => 0 <= v < two64).
  { apply reader_if; [apply reader_ret|]. apply (reader_weaken true 8); [apply reader_getFixedPrecision|lia]. }
  { case_match; [by apply returns_true|apply getFixedPrecision_range]. }
  intros v Hv. by apply returns_true.
Qed.

(** The instructions of a stream, up to the first that cannot be read. *)
Fixpoint instructions (fuel : nat) (footer : Z) (b : BitIO) : list instruction :=
  match fuel with
  | O => []
  | S fuel =>
      if getNumberOfBitLeft b <=? footer then []
      else
        match read_instruction b with
        | (Ok i, b) => i :: instructions fuel footer b
        | _ => []
        end
  end.

(** ** What an instruction keeps, whatever its outcome *)
Definition keeps {X A} (p : transferring -> X) (m : M transferring A) : Prop := forall s, p (snd (m s)) = p s.

Section keeps.
Context {X : Type} (p : transferring -> X).

Lemma length_keeps_bind {A B} (m : M transferring A) (f : A -> M transferring B) :
  keeps p m -> (forall a, keeps p (f a)) -> keeps p (m ≫= f).
Proof.
  intros Hm Hf s. unfold mbind, M_bind. specialize (Hm s). destruct (m s) as [[a| | |] s1]; try done.
  by rewrite Hf.
Qed.
Lemma keeps_get_bind {B} (f : transferring -> M transferring B) : (forall a, keeps p (f a)) -> keeps p (get ≫= f).
Proof. intros Hf s. unfold mbind, M_bind, get. apply Hf. Qed.
Lemma length_keeps_ret {A} (a : A) : keeps p (mret a).
Proof. done. Qed.
Lemma length_keeps_throw {A} e : keeps p (throw e : M transferring A).
Proof. done. Qed.
Lemma length_keeps_lift {A} (o : outcome A) : keeps p (lift o).
Proof. done. Qed.
Lemma length_keeps_when b m : keeps p m -> keeps p (when b m).
Proof. by destruct b. Qed.
Lemma keeps_source {A} (k : DigiAsset -> list DigiAsset -> M transferring A) :
  (forall c cs, keeps p (k c cs)) -> keeps p (source k).
Proof. intros Hk. apply keeps_get_bind. intros s. repeat case_match; try apply length_keeps_throw. apply Hk. Qed.
End keeps.

Create HintDb keeps.
#[export] Hint Resolve length_keeps_ret length_keeps_throw length_keeps_lift : keeps.

Definition out_length (s : transferring) : nat := length (t_outputs s).

Lemma keeps_set_source {X} (p : transferring -> X) inputs index skip :
  (forall d a b c a' b' c' o, p (mk_transferring d a b c o) = p (mk_transferring d a' b' c' o)) ->
  keeps p (set_source inputs index skip).
Proof. intros H [d a b c o]. apply H. Qed.

Lemma clear_assets_insert outputs (o : nat) u l :
  outputs !! o = Some u -> clear_assets (<[o := set_assets l u]> outputs) = clear_assets outputs.
Proof.
  unfold clear_assets. revert o; induction outputs as [|x outputs IH]; intros [|o] H; simpl in *; try done.
  - by injection H as ->.
  - by rewrite (IH o H).
Qed.

Lemma add_outputs_clear os a outputs :
  clear_assets (snd (for_each os (fun v => addAssetToOutput v a) outputs)) = clear_assets outputs.
Proof.
  revert outputs; induction os as [|v os IH]; intros outputs; [done|]. cbn [for_each].
  unfold mbind at 1, M_bind at 1. unfold addAssetToOutput at 1, mbind, M_bind, get, put, undefined.
  destruct (outputs !! v) as [u|] eqn:Hu; [|done]. rewrite IH. by apply clear_assets_insert.
Qed.

Section keeps_source.
Context {X : Type} (p : transferring -> X).
Context (Hp : forall d a b c a' b' c' o, p (mk_transferring d a b c o) = p (mk_transferring d a' b' c' o)).

Lemma keeps_take_assets fuel a n : keeps p (take_assets fuel a n).
Proof using Hp.
  revert n; induction fuel as [|fuel IH]; intros n; cbn [take_assets]; case_match; try done.
  apply keeps_source. intros c cs. apply keeps_get_bind. intros s.
  repeat (case_match; eauto with keeps); apply length_keeps_bind; intros; auto using keeps_set_source with keeps.
Qed.

Lemma keeps_instruction type i :
  (forall d a b c o o', clear_assets o = clear_assets o' -> p (mk_transferring d a b c o) = p (mk_transferring d a b c o')) ->
  keeps p (apply_instruction type i).
Proof using Hp.
  intros Ho. apply keeps_source. intros c cs. apply keeps_get_bind. intros s.
  apply length_keeps_bind; [apply keeps_take_assets|intros _]. apply length_keeps_bind; intros.
  - apply length_keeps_when. case_match; [apply length_keeps_ret|]. apply keeps_get_bind. intros s1.
    case_match; [apply length_keeps_throw|]. intros [d a b e o]. unfold on_outputs. cbn [t_outputs].
    pose proof (add_outputs_clear (instruction_outputs i) (setCount (instruction_amount i c) c) o) as Hlen. destruct (for_each _ _ o) as [x o']. cbn [snd] in *. by apply Ho.
  - apply length_keeps_when, keeps_get_bind. intros s1. by apply keeps_set_source.
Qed.
End keeps_source.

Lemma instruction_keeps_length type i : keeps out_length (apply_instruction type i).
Proof.
  apply keeps_instruction; [done|]. intros d a b c o o' H. apply (f_equal length) in H.
  unfold clear_assets in H. by rewrite !length_map in H.
Qed.

Lemma instruction_keeps_outputs type i :
  keeps (fun s => clear_assets (t_outputs s)) (apply_instruction type i).
Proof. by apply keeps_instruction. Qed.

Lemma instruction_keeps_data type i : keeps t_data (apply_instruction type i).
Proof. by apply keeps_instruction. Qed.

(** ** An instruction succeeds or is an invalid transfer *)
Definition ends_well {A} (r : outcome A * transferring) : Prop :=
  is_ok (fst r) = true \/ fst r = Throw exceptionInvalidTransfer.

Lemma chunk_count_insert inputs (i : nat) c cs :
  inputs !! i = Some (c :: cs) -> S (chunk_count (<[i := cs]> inputs)) = chunk_count inputs.
Proof.
  revert i; induction inputs as [|x inputs IH]; intros [|i] H; simpl in *; try done.
  - injection H as ->. done.
  - unfold chunk_count in *. simpl. rewrite <- (IH i H). lia.
Qed.

Lemma take_assets_ends fuel a n s :
  (chunk_count (t_inputs s) < fuel)%nat -> ends_well (take_assets fuel a n s).
Proof.
  revert n s; induction fuel as [|fuel IH]; intros n s Hf; [lia|]. cbn [take_assets].
  destruct (n <=? 0); [by left|]. unfold source, mbind, M_bind, get.
  destruct (t_inputs s !! t_index s) as [[|c cs]|] eqn:Hl; [by right| |by right].
  destruct (negb _); [by right|]. destruct (_ && _); [by right|].
  pose proof (chunk_count_insert _ _ _ _ Hl) as Hc.
  destruct (Z.leb_spec (getCount c) n) as [Hle|Hgt].
  - destruct (is_empty cs); unfold set_source, modify; apply IH; cbn [t_inputs]; lia.
  - unfold removeCount, exec, mbind, M_bind, get, put, lift. unfold getCount in Hgt.
    destruct (Z.ltb_spec (_count c) n); [lia|]. by left.
Qed.

Lemma add_outputs_ends os a outputs :
  Forall (fun o => (o < length outputs)%nat) os ->
  fst (for_each os (fun o => addAssetToOutput o a) outputs) = Ok tt.
Proof.
  revert outputs; induction os as [|o os IH]; intros outputs H; [done|].
  apply Forall_cons in H as [Ho H]. cbn [for_each]. unfold mbind at 1, M_bind at 1.
  unfold addAssetToOutput at 1, mbind, M_bind, get, put.
  destruct (lookup_lt_is_Some_2 outputs o Ho) as [u ->]. apply IH. by rewrite length_insert.
Qed.

Lemma instruction_outputs_lt i n : (i_output i < n)%nat -> Forall (fun o => (o < n)%nat) (instruction_outputs i).
Proof.
  intros H. unfold instruction_outputs. case_match; [|by repeat constructor].
  apply Forall_forall. intros o Ho. apply list_elem_of_In, in_seq in Ho. lia.
Qed.

Lemma apply_instruction_ends type i s : ends_well (apply_instruction type i s).
Proof.
  unfold apply_instruction, source, mbind at 1, M_bind at 1, get at 1.
  destruct (t_inputs s !! t_index s) as [[|c cs]|]; [by right| |by right].
  cbv beta zeta. unfold mbind at 1, M_bind at 1, get at 1. unfold mbind at 1, M_bind at 1.
  pose proof (take_assets_ends (S (chunk_count (t_inputs s))) c
                (instruction_total i (instruction_amount i c)) s ltac:(lia)) as Ht.
  destruct (take_assets _ _ _ s) as [[[]|e| |] s1]; try (by destruct Ht); [|by destruct Ht; right].
  clear Ht. set (body := when (0 <? _) _).
  assert (ends_well (body s1)) as Hb.
  { subst body. destruct (0 <? _); [|by left]. cbn [when]. case_match; [by left|].
    unfold mbind, M_bind, get. destruct (Nat.leb_spec (length (t_outputs s1)) (i_output i)) as [|Hlt]; [by right|].
    left. unfold on_outputs. pose proof (add_outputs_ends _ (setCount (instruction_amount i c) c) _
                                           (instruction_outputs_lt i _ Hlt)) as Hadd.
    destruct (for_each _ _ (t_outputs s1)) as [o outs]. cbn [fst] in *. by rewrite Hadd. }
  unfold mbind at 1, M_bind at 1. destruct (body s1) as [[[]|e| |] s2]; try (by destruct Hb); [|by destruct Hb; right].
  left. by destruct (i_skip i).
Qed.

Lemma instruction_and_continue type i s : ends_well ((apply_instruction type i;; mret true) s).
Proof.
  unfold ends_well, mbind, M_bind. pose proof (apply_instruction_ends type i s) as [H|H];
    destruct (apply_instruction type i s) as [[[]|e| |] s1]; cbn [fst is_ok] in *; try done; [by left|right; by injection H as ->].
Qed.

(** ** The whole transfer *)

(** Every unit of the inputs, [T], is on an output, still on an input or
    burned. *)
Definition accounted (type : Z) (T : Z -> Z) (n : nat) (s : transferring) : Prop :=
  sound s /\ length (t_outputs s) = n
  /\ exists burned : Z -> Z, (forall k, 0 <= burned k) /\ (type <> DIGIASSET_BURN -> forall k, burned k = 0)
     /\ forall k, total k s + burned k = T k.

Lemma accounted_conserves type T n s s' : accounted type T n s -> conserves type s s' -> accounted type T n s'.
Proof.
  intros (_ & L & b & P & Z & H) (S' & _ & L' & b' & P' & Z' & H'). split_and!; [done|congruence|].
  exists (fun k => b k + b' k). split_and!.
  - intros k. specialize (P k). specialize (P' k). lia.
  - intros Ht k. by rewrite (Z Ht k), (Z' Ht k).
  - intros k. specialize (H k). specialize (H' k). lia.
Qed.

Lemma accounted_bound type T n s k : accounted type T n s -> T k < two64 -> total k s < two64.
Proof. intros (_ & _ & b & P & _ & H) HT. specialize (P k). specialize (H k). lia. Qed.

Lemma accounted_same type T n s s' :
  t_inputs s' = t_inputs s -> t_outputs s' = t_outputs s -> accounted type T n s -> accounted type T n s'.
Proof.
  intros Hi Ho ([S1 S2] & L & b & P & Z & H). split_and!.
  - constructor; congruence.
  - congruence.
  - exists b. split_and!; [done|done|]. intros k. rewrite <- (H k). unfold total. by rewrite Hi, Ho.
Qed.

Lemma concat_clear outputs : concat (map assets (clear_assets outputs)) = [].
Proof. induction outputs as [|u outputs IH]; [done|exact IH]. Qed.

(** The state at the start, and again after an invalid instruction. *)
Lemma accounted_start type ia data index skip outputs :
  inputs_ok (input_assets ia) -> concat (map assets outputs) = [] ->
  accounted type (fun k => held_in k (input_assets ia)) (length outputs)
    (mk_transferring data (input_assets ia) index skip outputs).
Proof.
  intros Hok Ho. split_and!; [|done|].
  - constructor; [done|]. unfold outputs_ok. simpl. by rewrite Ho.
  - exists (fun _ => 0). split_and!; [done|done|]. intros k. unfold total, held_out. simpl. rewrite Ho. simpl. lia.
Qed.

Section loop.
Context (t : DigiByteTransaction) (ia : list AssetUTXO) (type : Z) (n : nat).
Let T k := held_in k (input_assets ia).
Context (Hia : inputs_ok (input_assets ia)) (HT : forall k, T k < two64).

(** Wherever the loop stops: at the footer, at an instruction that throws, or
    by an exception of the stream. *)
Lemma transfer_loop_accounted fuel footer s :
  wf (t_data s) -> fits (t_data s) -> accounted type T n s ->
  Forall (fun i => range_fits i = true) (instructions fuel footer (t_data s)) ->
  accounted type T n (snd (transfer_loop fuel t ia type footer s)).
Proof.
  revert s; induction fuel as [|fuel IH]; intros s Hw Hf Hacc Hall; [done|].
  cbn [transfer_loop instructions] in *.
  unfold mbind at 1, M_bind at 1, on_stream at 1, gets. destruct s as [d ins ix sk outs].
  cbn [t_data t_inputs t_index t_allowSkip t_outputs] in *.
  destruct (_ <=? footer); [done|].
  unfold mbind at 1, M_bind at 1, on_stream at 1. cbn [t_data t_inputs t_index t_allowSkip t_outputs].
  destruct (reader_instruction true d Hw Hf) as (o & p & Hr & Hp & _). rewrite Hr in Hall |- *.
  destruct o as [i|e| |]; try by refine (accounted_same type T n _ _ _ _ Hacc).
  apply Forall_cons in Hall as [Hfit Hall].
  pose proof (read_instruction_ok d i Hw Hf ltac:(by rewrite Hr)) as Hi.
  set (s1 := mk_transferring _ _ _ _ _).
  assert (accounted type T n s1) as Hacc1 by (by refine (accounted_same type T n _ s1 _ _ Hacc)).
  assert (snd (legacy_break t type s1) = s1) as Hleg by (unfold legacy_break; by repeat case_match).
  unfold mbind at 1, M_bind at 1. destruct (legacy_break t type s1) as [[[]|e| |] s2]; cbn [snd] in Hleg; subst s2; try done.
  unfold mbind at 1, M_bind at 1, try_catch.
  pose proof (instruction_and_continue type i s1) as Hends.
  destruct ((apply_instruction type i;; mret true) s1) as [[c|e| |] s4] eqn:Ea; try (by destruct Hends).
  - apply bind_ok_inv in Ea as ([] & s5 & Ea & [= <- ->]).
    assert (conserves type s1 s4) as Hc.
    { eapply apply_instruction_conserves; [apply Hacc1| |exact Hi|exact Hfit|exact Ea].
      intros k. by apply (accounted_bound type T n). }
    pose proof Hc as (_ & D & _).
    assert (t_data s4 = set_position p d) as D3 by exact D.
    apply (IH s4); [rewrite D3; by apply wf_set_position|by rewrite D3|by eapply accounted_conserves|by rewrite D3].
  - unfold reset_transfer, mbind, M_bind, modify.
    assert (length (clear_assets (t_outputs s4)) = n) as <-.
    { unfold clear_assets. rewrite length_map. destruct Hacc1 as (_ & L & _). rewrite <- L.
      pose proof (length_keeps_bind out_length _ (fun _ => mret true) (instruction_keeps_length type i)
                    (fun _ => length_keeps_ret _ _) s1) as K. rewrite Ea in K. exact K. }
    apply accounted_start; [done|apply concat_clear].
Qed.
End loop.

(** *** Change *)
Lemma add_change_held a outputs outputs' :
  outputs_ok outputs -> count_ok a -> fits_with a (held_out (_assetIndex a) outputs) ->
  add_change a outputs = (Ok tt, outputs') -> outputs_plus a (_count a) outputs outputs'.
Proof.
  intros Hok Ha Hfit H. unfold add_change in H. unfold mbind at 1, M_bind at 1, get in H.
  unfold getCount in H. destruct (Z.eqb_spec (_count a) 0) as [E|E].
  - injection H as <-. rewrite E. by apply outputs_plus_0.
  - destruct (last outputs) as [u|] eqn:Hlast; [|done]. rewrite last_lookup in Hlast.
    apply bind_ok_inv in H as (found & s1 & H1 & H2).
    assert (s1 = outputs) as -> by (destruct (isAggregable a); injection H1; done).
    destruct found as [l|]; [|by eapply addAssetToOutput_held].
    unfold put in H2. injection H2 as <-. destruct (isAggregable a); [|done].
    unfold lift in H1. injection H1 as H1. apply change_same_add in H1. symmetry in H1.
    eapply outputs_plus_insert; [done|exact Hlast|reflexivity|].
    eapply received_add_same; [by eapply outputs_ok_lookup|done| |exact H1].
    unfold fits_with in *. pose proof (held_output (_assetIndex a) outputs _ u Hok Hlast). lia.
Qed.

Lemma change_held l s s' :
  outputs_ok (t_outputs s) -> Forall count_ok l -> (forall k, held_out k (t_outputs s) + held k l < two64) ->
  for_each l (fun a => on_outputs (add_change a)) s = (Ok tt, s') ->
  outputs_ok (t_outputs s') /\ length (t_outputs s') = length (t_outputs s)
  /\ forall k, held_out k (t_outputs s') = held_out k (t_outputs s) + held k l.
Proof.
  revert s; induction l as [|a l IH]; intros s Hok Hl Hfit H; cbn [for_each] in H.
  { injection H as <-. split_and!; [done|done|]. intros k. simpl. lia. }
  apply Forall_cons in Hl as [Ha Hl]. apply bind_ok_inv in H as ([] & s1 & H1 & H2).
  unfold on_outputs in H1. destruct (add_change a (t_outputs s)) as [o outputs1] eqn:E. injection H1 as -> <-.
  assert (outputs_plus a (_count a) (t_outputs s) outputs1) as (Ok1 & L1 & E1).
  { apply add_change_held; [done|done| |done]. specialize (Hfit (_assetIndex a)). unfold fits_with.
    simpl in Hfit. unfold units at 1 in Hfit. rewrite Z.eqb_refl in Hfit.
    pose proof (held_nonneg (_assetIndex a) l Hl). lia. }
  apply IH in H2 as (Ok2 & L2 & E2); [|exact Ok1|exact Hl|]; cycle 1.
  - intros k. cbn [t_outputs]. rewrite E1. specialize (Hfit k). simpl in Hfit. unfold units at 1 in Hfit. lia.
  - cbn [t_outputs] in *. split_and!; [done|congruence|]. intros k. rewrite E2, E1. simpl. unfold units at 1. lia.
Qed.

(** Change that stops halfway adds no more than it was given. *)
Lemma add_change_unchanged a outputs :
  is_ok (fst (add_change a outputs)) = false -> snd (add_change a outputs) = outputs.
Proof.
  unfold add_change, addAssetToOutput, mbind, M_bind, get, lift, put. destruct (getCount a =? 0); [done|].
  destruct (last outputs) as [u|]; [|done]. destruct (isAggregable a).
  - destruct (change_same a (assets u)) as [[l|]| | |]; try done. by destruct (outputs !! pred (length outputs)).
  - cbn. by destruct (outputs !! pred (length outputs)).
Qed.

Lemma change_bound l s :
  outputs_ok (t_outputs s) -> Forall count_ok l -> (forall k, held_out k (t_outputs s) + held k l < two64) ->
  let s' := snd (for_each l (fun a => on_outputs (add_change a)) s) in
  forall k, held_out k (t_outputs s') <= held_out k (t_outputs s) + held k l.
Proof.
  revert s; induction l as [|a l IH]; intros s Hok Hl Hfit s' k; [subst s'; simpl; lia|].
  apply Forall_cons in Hl as [Ha Hl]. subst s'. cbn [for_each]. unfold mbind, M_bind, on_outputs at 1.
  pose proof (held_nonneg k _ Hl) as Hk. pose proof (units_nonneg k a Ha) as Hu.
  pose proof (add_change_unchanged a (t_outputs s)) as Hun.
  destruct (add_change a (t_outputs s)) as [[[]|e| |] outputs1] eqn:E; cbn [snd fst t_outputs is_ok] in *.
  2, 3, 4: rewrite Hun by done; simpl; lia.
  assert (outputs_plus a (_count a) (t_outputs s) outputs1) as (Ok1 & L1 & E1).
  { apply add_change_held; [done|done| |done]. specialize (Hfit (_assetIndex a)). unfold fits_with.
    simpl in Hfit. unfold units at 1 in Hfit. rewrite Z.eqb_refl in Hfit.
    pose proof (held_nonneg (_assetIndex a) l Hl). lia. }
  etransitivity; [apply IH; [exact Ok1|exact Hl|]|].
  - intros k'. cbn [t_outputs]. rewrite E1. specialize (Hfit k'). simpl in Hfit. unfold units at 1 in Hfit. lia.
  - cbn [t_outputs]. rewrite E1. simpl. unfold units. lia.
Qed.

(** What is on the outputs afterwards. *)
Definition delivered (type : Z) (T : Z -> Z) (outputs : list AssetUTXO) : Prop :=
  outputs_ok outputs
  /\ exists burned : Z -> Z, (forall k, 0 <= burned k) /\ (type <> DIGIASSET_BURN -> forall k, burned k = 0)
     /\ forall k, held_out k outputs + burned k = T k.

Definition outputs_bounded (T : Z -> Z) (outputs : list AssetUTXO) : Prop := forall k, held_out k outputs <= T k.

Lemma route_assets_delivers b ia type t t' :
  wf b -> fits b -> inputs_ok (input_assets ia) -> (forall k, held_in k (input_assets ia) < two64) ->
  concat (map assets (_outputs t)) = [] ->
  Forall (fun i => range_fits i = true) (instructions (S (unread b)) (footer_bits type) b) ->
  route_assets b ia type t = (Ok tt, t') ->
  delivered type (fun k => held_in k (input_assets ia)) (_outputs t')
  /\ length (_outputs t') = length (_outputs t) /\ t' = set_outputs (_outputs t') t.
Proof.
  intros Hw Hf Hia HT Hout Hall H. unfold route_assets in H. unfold mbind at 1, M_bind at 1, get in H.
  unfold on_transfer in H. match type of H with context [let '(_, _) := ?m in _] => destruct m as [o s] eqn:E end. injection H as -> <-.
  apply bind_ok_inv in E as ([] & s1 & E1 & E2).
  pose proof (transfer_loop_accounted t ia type (length (_outputs t)) Hia HT (S (unread b)) (footer_bits type)
    (mk_transferring b (input_assets ia) 0 true (_outputs t)) Hw Hf (accounted_start _ _ _ _ _ _ Hia Hout) Hall) as E.
  rewrite E1 in E. pose proof E as ([Hi Ho] & L1 & burned & P & Z & Hk).
  unfold change_loop, mbind, M_bind, get in E2.
  apply (change_held _ _ _ Ho Hi) in E2 as (Hok & L & Hh); cycle 1.
  { intros k. specialize (P k). specialize (Hk k). specialize (HT k). unfold total, held_in in *. lia. }
  cbn [_outputs set_outputs]. split_and!; [|congruence|done]. split; [done|]. exists burned. split_and!; [done|done|].
  intros k. rewrite Hh. specialize (Hk k). unfold total, held_in in *. lia.
Qed.

(** However the routing ends, the outputs hold no more than the inputs held. *)
Lemma route_assets_bound b ia type t :
  wf b -> fits b -> inputs_ok (input_assets ia) -> (forall k, held_in k (input_assets ia) < two64) ->
  concat (map assets (_outputs t)) = [] ->
  Forall (fun i => range_fits i = true) (instructions (S (unread b)) (footer_bits type) b) ->
  let t' := snd (route_assets b ia type t) in
  outputs_bounded (fun k => held_in k (input_assets ia)) (_outputs t') /\ t' = set_outputs (_outputs t') t.
Proof.
  intros Hw Hf Hia HT Hout Hall. cbv zeta.
  set (run := transfer_loop (S (unread b)) t ia type (footer_bits type)
                (mk_transferring b (input_assets ia) 0 true (_outputs t))).
  assert (route_assets b ia type t
          = let '(o, s) := match run with
                           | (Ok _, s) => change_loop s
                           | (Throw e, s) => (Throw e, s)
                           | (UB, s) => (UB, s)
                           | (Fuel, s) => (Fuel, s)
                           end in (o, set_outputs (t_outputs s) t)) as -> by done.
  pose proof (transfer_loop_accounted t ia type (length (_outputs t)) Hia HT (S (unread b)) (footer_bits type)
    (mk_transferring b (input_assets ia) 0 true (_outputs t)) Hw Hf (accounted_start _ _ _ _ _ _ Hia Hout) Hall) as E.
  change (transfer_loop _ _ _ _ _ _) with run in E. destruct run as [o s1]. cbn [snd] in E.
  destruct E as ([Hi Ho] & L1 & burned & P & _ & Hk). unfold total, held_in in *.
  assert (outputs_bounded (fun k => held k (concat (input_assets ia))) (t_outputs s1)) as Hs1.
  { intros k. specialize (P k). specialize (Hk k). pose proof (held_nonneg k _ Hi). lia. }
  destruct o as [[]|e| |]; cbn [snd _outputs set_outputs]; try (by split; [exact Hs1|]).
  pose proof (change_bound (concat (t_inputs s1)) s1 Ho Hi) as Hc.
  unfold change_loop, mbind, M_bind, get. destruct (for_each _ _ s1) as [o s2]. cbn [snd _outputs set_outputs] in *.
  split; [|done]. intros k. etransitivity; [apply Hc|].
  - intros k'. specialize (P k'). specialize (Hk k'). specialize (HT k'). lia.
  - specialize (P k). specialize (Hk k). lia.
Qed.

(** ** The loop as a run over the instructions read from the stream *)
Definition set_data (d : BitIO) (s : transferring) : transferring :=
  mk_transferring d (t_inputs s) (t_index s) (t_allowSkip s) (t_outputs s).

(** [m] neither reads nor moves the stream. *)
Definition frame {A} (m : M transferring A) : Prop :=
  forall d s, m (set_data d s) = (fst (m s), set_data d (snd (m s))).

Lemma frame_bind {A B} (m : M transferring A) (f : A -> M transferring B) :
  frame m -> (forall a, frame (f a)) -> frame (m ≫= f).
Proof.
  intros Hm Hf d s. unfold mbind, M_bind. rewrite Hm. destruct (m s) as [[a| | |] s1]; cbn [fst snd]; try done. apply Hf.
Qed.
Lemma frame_ret {A} (a : A) : frame (mret a).
Proof. by intros d []. Qed.
Lemma frame_throw {A} e : frame (throw e : M transferring A).
Proof. by intros d []. Qed.
Lemma frame_lift {A} (o : outcome A) : frame (lift o).
Proof. by intros d []. Qed.
Lemma frame_fuel {A} : frame (out_of_fuel : M transferring A).
Proof. by intros d []. Qed.
Lemma frame_set_source inputs index skip : frame (set_source inputs index skip).
Proof. by intros d []. Qed.
Lemma frame_on_outputs {A} (m : M (list AssetUTXO) A) : frame (on_outputs m).
Proof. intros d []. unfold on_outputs, set_data. cbn. by destruct (m _). Qed.
Lemma frame_when b m : frame m -> frame (when b m).
Proof. destruct b; [done|intros _; apply frame_ret]. Qed.
Lemma frame_get_bind {B} (f : transferring -> M transferring B) :
  (forall s d, f (set_data d s) = f s) -> (forall s, frame (f s)) -> frame (get ≫= f).
Proof. intros He Hf d s. unfold mbind, M_bind, get. rewrite He. apply Hf. Qed.
Lemma frame_source {A} (k : DigiAsset -> list DigiAsset -> M transferring A) :
  (forall c cs, frame (k c cs)) -> frame (source k).
Proof. intros Hk. apply frame_get_bind; [done|]. intros s. repeat case_match; try apply frame_throw. apply Hk. Qed.
#[export] Hint Resolve frame_ret frame_throw frame_lift frame_fuel frame_set_source frame_on_outputs : keeps.

Lemma frame_take_assets fuel a n : frame (take_assets fuel a n).
Proof.
  revert n; induction fuel as [|fuel IH]; intros n; cbn [take_assets]; case_match; auto with keeps.
  apply frame_source. intros c cs. apply frame_get_bind; [done|]. intros s.
  repeat (case_match; eauto with keeps); apply frame_bind; intros; auto with keeps.
Qed.

Lemma frame_instruction type i : frame (apply_instruction type i).
Proof.
  apply frame_source. intros c cs. apply frame_get_bind; [done|]. intros s.
  apply frame_bind; [apply frame_take_assets|intros _]. apply frame_bind; intros.
  - apply frame_when. case_match; auto with keeps. apply frame_get_bind; [done|]. intros s1.
    case_match; auto with keeps.
  - apply frame_when, frame_get_bind; [done|]. auto with keeps.
Qed.

(** The instructions of a stream and how the reading ends. *)
Fixpoint parse_instructions (fuel : nat) (footer : Z) (b : BitIO) : list instruction * outcome unit :=
  match fuel with
  | O => ([], Fuel)
  | S fuel =>
      if getNumberOfBitLeft b <=? footer then ([], Ok tt)
      else
        match read_instruction b with
        | (Ok i, b) => let '(l, o) := parse_instructions fuel footer b in (i :: l, o)
        | (Throw e, _) => ([], Throw e)
        | (UB, _) => ([], UB)
        | (Fuel, _) => ([], Fuel)
        end
  end.

Lemma parse_instructions_list fuel footer b : (parse_instructions fuel footer b).1 = instructions fuel footer b.
Proof.
  revert b; induction fuel as [|fuel IH]; intros b; cbn [parse_instructions instructions]; [done|].
  case_match; [done|]. destruct (read_instruction b) as [[] b']; try done. rewrite <- IH.
  by destruct (parse_instructions fuel footer b').
Qed.

Definition apply_all (type : Z) (l : list instruction) : M transferring unit :=
  for_each l (apply_instruction type).

Lemma frame_apply_all type l : frame (apply_all type l).
Proof. induction l; [apply frame_ret|]. apply frame_bind; [apply frame_instruction|auto]. Qed.

(** How the loop ends, given the run over the instructions: an instruction that
    throws puts everything back. *)
Definition loop_result (ia : list AssetUTXO) (parsed : outcome unit) (run : outcome unit * transferring)
    : outcome unit * transferring :=
  match run with
  | (Ok _, s) => (parsed, s)
  | (Throw _, s) => (Ok tt, snd (reset_transfer ia s))
  | (o, s) => (o, s)
  end.

(** Equal results, wherever the stream ended up. *)
Definition same_result {A} (r r' : outcome A * transferring) : Prop :=
  fst r = fst r' /\ set_data empty_BitIO (snd r) = set_data empty_BitIO (snd r').

Lemma set_data_twice d d' s : set_data d (set_data d' s) = set_data d s.
Proof. done. Qed.

Lemma transfer_loop_run t ia type footer fuel s :
  (forall s, legacy_break t type s = (Ok false, s)) ->
  same_result (transfer_loop fuel t ia type footer s)
    (let '(l, parsed) := parse_instructions fuel footer (t_data s) in loop_result ia parsed (apply_all type l s)).
Proof.
  intros Hleg. revert s; induction fuel as [|fuel IH]; intros s; [done|].
  cbn [transfer_loop parse_instructions]. unfold mbind at 1, M_bind at 1, on_stream at 1, gets.
  change (mk_transferring (t_data s) (t_inputs s) (t_index s) (t_allowSkip s) (t_outputs s)) with (set_data (t_data s) s).
  replace (set_data (t_data s) s) with s by by destruct s.
  destruct (_ <=? footer); [done|]. unfold mbind at 1, M_bind at 1, on_stream at 1.
  destruct (read_instruction (t_data s)) as [[i|e| |] d]; try done.
  rewrite (bind_ok _ _ _ _ _ (Hleg _)). change (mk_transferring d _ _ _ _) with (set_data d s).
  unfold mbind at 1, M_bind at 1, try_catch. unfold mbind at 1, M_bind at 1. rewrite frame_instruction.
  assert (let '(l, parsed) := let '(l, o) := parse_instructions fuel footer d in (i :: l, o) in
          loop_result ia parsed (apply_all type l s)
          = let '(l, parsed) := parse_instructions fuel footer d in
            loop_result ia parsed ((apply_instruction type i;; apply_all type l) s)) as E
    by (by destruct (parse_instructions fuel footer d)).
  destruct (parse_instructions fuel footer d) as [l parsed] eqn:Ep. cbv beta iota in E |- *. rewrite E.
  unfold mbind at 2, M_bind at 2. destruct (apply_instruction type i s) as [[[]|e| |] s1]; cbn [fst snd mret M_ret]; try done.
  specialize (IH (set_data d s1)). change (t_data (set_data d s1)) with d in IH. rewrite Ep, frame_apply_all in IH.
  destruct IH as [H1 H2]. destruct (apply_all type l s1) as [[] s2]; cbn [fst snd loop_result] in *; done.
Qed.

(** ** How a run ends *)
Lemma apply_all_ends type l s : ends_well (apply_all type l s).
Proof.
  revert s; induction l as [|i l IH]; intros s; [by left|]. unfold apply_all. cbn [for_each].
  unfold mbind, M_bind. pose proof (apply_instruction_ends type i s) as H.
  destruct (apply_instruction type i s) as [[[]|e| |] s1]; try (by destruct H); [apply IH|by destruct H; right].
Qed.

(** Reading ends after the last instruction, or throws; the bits left bound the
    number of instructions. *)
Lemma parse_instructions_ends fuel footer b :
  wf b -> fits b -> _length b - _position b < Z.of_nat fuel ->
  (parse_instructions fuel footer b).2 = Ok tt \/ exists e, (parse_instructions fuel footer b).2 = Throw e.
Proof.
  revert b; induction fuel as [|fuel IH]; intros b Hw Hf Hl.
  { destruct (wf_position b Hw). lia. }
  cbn [parse_instructions]. destruct (_ <=? footer); [by left|].
  destruct (reader_instruction true b Hw Hf) as (o & p & -> & Hp & Hfu & Hub & Hk).
  destruct o as [i|e| |]; [|by eauto|by destruct (Hub eq_refl)|done].
  destruct (IH (set_position p b)) as [H|[e H]].
  - by apply wf_set_position.
  - done.
  - specialize (Hk i eq_refl). simpl. lia.
  - left. destruct (parse_instructions fuel footer (set_position p b)). exact H.
  - right. exists e. destruct (parse_instructions fuel footer (set_position p b)). exact H.
Qed.

Lemma change_same_ends a l : is_ok (change_same a l) = true \/ change_same a l = Throw exceptionUnknownAssetIndex.
Proof.
  induction l as [|x l IH]; [by left|]. cbn [change_same]. unfold mbind, outcome_bind, getAssetIndex.
  destruct (_assetIndex x =? 0); [by right|]. destruct (_assetIndex a =? 0); [by right|].
  destruct (_ =? _); [by left|]. destruct IH as [H| ->]; [|by right]. left. by destruct (change_same a l).
Qed.

(** Placing change succeeds, or an index is unknown. *)
Definition change_ends {S A} (r : outcome A * S) : Prop :=
  is_ok (fst r) = true \/ fst r = Throw exceptionUnknownAssetIndex.

Lemma add_change_ends a outputs :
  outputs <> [] -> change_ends (add_change a outputs) /\ length (snd (add_change a outputs)) = length outputs.
Proof.
  intros Hne. unfold add_change, get.
  match goal with |- context [(?m ≫= ?f) outputs] => change ((m ≫= f) outputs) with (f outputs outputs) end. cbv beta.
  destruct (getCount a =? 0); [by split; [left|]|].
  destruct (last outputs) as [u|] eqn:Hu; [|by apply last_None in Hu].
  pose proof Hu as Hl. rewrite last_lookup in Hl.
  assert (forall P : outcome unit * list AssetUTXO -> Prop, P (Ok tt, <[pred (length outputs) := set_assets (place_asset a (assets u)) u]> outputs) ->
            P (addAssetToOutput (pred (length outputs)) a outputs)) as Hadd.
  { intros P HP. unfold addAssetToOutput, mbind, M_bind, get, put. by rewrite Hl. }
  unfold mbind, M_bind. destruct (isAggregable a).
  - unfold lift. destruct (change_same_ends a (assets u)) as [H|H].
    + destruct (change_same a (assets u)) as [[l|]| | |]; try done.
      * split; [by left|]. unfold put. cbn [snd]. apply length_insert.
      * apply (Hadd (fun r => change_ends r /\ length (snd r) = length outputs)).
        split; [by left|apply length_insert].
    + rewrite H. split; [by right|done].
  - apply (Hadd (fun r => change_ends r /\ length (snd r) = length outputs)).
    split; [by left|apply length_insert].
Qed.

Lemma change_loop_ends l s :
  t_outputs s <> [] -> change_ends (for_each l (fun a => on_outputs (add_change a)) s).
Proof.
  revert s; induction l as [|a l IH]; intros s Hne; [by left|]. cbn [for_each]. unfold mbind, M_bind, on_outputs.
  destruct (add_change_ends a (t_outputs s) Hne) as [He Hlen].
  destruct (add_change a (t_outputs s)) as [[[]|e| |] outs]; try (by destruct He); [|by destruct He; right].
  apply IH. cbn [t_outputs]. intros ->. simpl in Hlen. destruct (t_outputs s); [done|]. simpl in Hlen. lia.
Qed.
