(* ===== verification/TransferTheorems.v ===== *)
(** TransferTheorems: the properties of the transfer engine. *)

From S2P Require Import Prelude.
From S2P Require Import BitIO.
From S2P Require Import BitIOBlocks.
From S2P Require Import BitStream.
From S2P Require Import BitIOCodec.
From S2P Require Import BitIONumbers.
From S2P Require Import BitIOTheorems.
From S2P Require Import OpReturn.
From S2P Require Import AssetTypes.
From S2P Require Import DigiAssetRules.
From S2P Require Import KYC.
From S2P Require Import Database.
From S2P Require Import DigiDollar.
From S2P Require Import DigiAsset.
From S2P Require Import DigiByteTransaction.
From S2P Require Import Transfer.

Ltac Zify.zify_post_hook ::= Z.div_mod_to_equations.

(** ** The steps after the routing *)
Lemma for_each_lift {S A} (l : list A) (g : A -> outcome unit) (s : S) : snd (for_each l (fun a => lift (g a)) s) = s.
Proof.
  induction l as [|a l IH]; [done|]. cbn [for_each]. unfold mbind, M_bind, lift. by destruct (g a) as [[]| | |].
Qed.

Lemma check_input_assets_state `{db : Sqlite} t l s : snd (check_input_assets t l s) = s.
Proof. apply for_each_lift. Qed.

Lemma tx_checkRulesPass_state `{db : Sqlite} t : snd (tx_checkRulesPass t) = t.
Proof.
  unfold tx_checkRulesPass, mbind at 1, M_bind at 1, get. generalize (_inputs t) at 1 as l. intros l.
  enough (forall s, snd (for_each l (fun utxo => check_input_assets t (assets utxo)) s) = s) by done.
  induction l as [|u l IH]; intros s; [done|]. cbn [for_each]. unfold mbind, M_bind.
  pose proof (check_input_assets_state t (assets u) s) as H.
  destruct (check_input_assets t (assets u) s) as [[] s']; cbn [snd] in H; subst; [apply IH|done..].
Qed.

Lemma clear_op_returns_held k t :
  outputs_ok (_outputs t) -> 0 <= held_out k (_outputs (clear_op_returns t)) <= held_out k (_outputs t).
Proof.
  intros Hok. assert (forall l, outputs_ok l ->
    0 <= held_out k (map (fun u => if lost_on_op_return u then set_assets [] u else u) l) <= held_out k l) as H.
  { intros l. unfold outputs_ok, held_out. induction l as [|u l IH]; cbn [map concat]; intros Hl; [simpl; lia|].
    apply Forall_app in Hl as [Hu Hl]. specialize (IH Hl). pose proof (held_nonneg k _ Hu).
    rewrite !held_app. destruct (lost_on_op_return u); simpl; lia. }
  unfold clear_op_returns. case_match; by apply H.
Qed.

Lemma clear_op_returns_keeps t :
  _unintentionalBurn (clear_op_returns t) = false -> _outputs (clear_op_returns t) = _outputs t.
Proof.
  unfold clear_op_returns. destruct (existsb _ _) eqn:E; [done|]. intros _. cbn [_outputs set_outputs].
  induction (_outputs t) as [|u l IH]; [done|]. cbn [existsb map] in *.
  apply orb_false_iff in E as [-> E]. by rewrite IH.
Qed.

(** ** Conservation *)

(** What an ended decoding leaves behind *)
Definition balanced (type : Z) (total : Z -> Z) (r : outcome unit * DigiByteTransaction) : Prop :=
  exists burned lost : Z -> Z,
    (forall k, 0 <= burned k /\ 0 <= lost k /\ held_out k (_outputs r.2) + burned k + lost k = total k)
    /\ (type <> DIGIASSET_BURN -> forall k, burned k = 0)
    /\ (r.1 = Ok tt -> _unintentionalBurn r.2 = false -> forall k, lost k = 0).

Lemma balanced_failed type total o t :
  o <> Ok tt -> outputs_bounded total (_outputs t) -> balanced type total (o, t).
Proof.
  intros Ho Hb. exists (fun _ => 0), (fun k => total k - held_out k (_outputs t)). split_and!; [|done|done].
  intros k. specialize (Hb k). cbn in *. lia.
Qed.

(** C1: Transfer instructions create no units, and every unit is accounted for.
    However the decoding of a transfer, a burn or the placing of newly issued
    assets ends, for every asset index the units on the outputs, the units
    burned by instructions of a burn transaction and the units lost add up to
    exactly the units on the inputs. Nothing is burned unless the transaction
    is a burn. When the decoding ends without an exception, nothing is lost
    unless the transaction is marked as an unintentional burn (units on an
    output without an address); units are lost also when the decoding throws:
    a stream that is cut short loses what it has not placed yet. The product
    of every range instruction must fit 64 bits ([range_fits]); without that
    condition the theorem is false, see [range_overflow_creates_assets]. *)
Theorem transfer_conserves `{db : Sqlite} (b : BitIO) (ia : list AssetUTXO) (type : Z) (t : DigiByteTransaction) :
  wf b -> fits b -> inputs_ok (input_assets ia) -> (forall k, held_in k (input_assets ia) < two64) ->
  concat (map assets (_outputs t)) = [] ->
  forallb range_fits (instructions (S (unread b)) (footer_bits type) b) = true ->
  let r := decodeAssetTransfer b ia type t in
  exists burned lost : Z -> Z,
    (forall k, 0 <= burned k /\ 0 <= lost k
               /\ held_out k (_outputs r.2) + burned k + lost k = held_in k (input_assets ia))
    /\ (type <> DIGIASSET_BURN -> forall k, burned k = 0)
    /\ (r.1 = Ok tt -> _unintentionalBurn r.2 = false -> forall k, lost k = 0).
Proof.
  intros Hw Hf Hi HT Ho Hall.
  assert (Forall (fun i => range_fits i = true) (instructions (S (unread b)) (footer_bits type) b)) as Hall'
    by (apply Forall_forall; intros i Hin; rewrite forallb_forall in Hall; apply Hall, list_elem_of_In, Hin).
  change (balanced type (fun k => held_in k (input_assets ia)) (decodeAssetTransfer b ia type t)).
  pose proof (route_assets_bound b ia type t Hw Hf Hi HT Ho Hall') as [Hb _].
  pose proof (route_assets_delivers b ia type t) as Hd. unfold decodeAssetTransfer, mbind, M_bind.
  destruct (route_assets b ia type t) as [[[]|e| |] t1]; cbn [snd] in Hb; try by apply balanced_failed.
  destruct (Hd t1 Hw Hf Hi HT Ho Hall' eq_refl) as ((Hok & burned & Pb & Zb & Hk) & _).
  assert (snd (when (negb (type =? DIGIASSET_ISSUANCE)) tx_checkRulesPass t1) = t1) as Hs
    by (destruct (negb _); [apply tx_checkRulesPass_state|done]).
  destruct (when _ _ t1) as [[[]|e| |] t2]; cbn [snd] in Hs; subst t2; try by apply balanced_failed.
  exists burned, (fun k => held_out k (_outputs t1) - held_out k (_outputs (clear_op_returns t1))). cbn [fst snd modify]. split_and!.
  - intros k. pose proof (clear_op_returns_held k t1 Hok). specialize (Hk k). specialize (Pb k). cbn beta. lia.
  - done.
  - intros _ E k. apply clear_op_returns_keeps in E. rewrite E. lia.
Qed.

(** *** A concrete database and transaction for the witnesses *)
Definition sample_asset (index count : Z) : DigiAsset :=
  set_count count (set_assetIndex index DigiAsset_default).
Definition sample_utxo (address : string) (l : list DigiAsset) : AssetUTXO := mk_AssetUTXO "" 0 address 700 l.
Definition sample_tx (inputs : list AssetUTXO) (n : nat) : DigiByteTransaction :=
  set_version 3 (set_outputs (repeat (sample_utxo "addr" []) n)
    (set_inputs inputs (DigiByteTransaction_default 0))).

(** Output 0 gets 4 of 10 units, the last output the change. *)
Lemma transfer_conserves_witness :
  let ia := [sample_utxo "in" [sample_asset 5 10]] in
  let t := sample_tx ia 2 in
  let r := decodeAssetTransfer (db := sample_db) (sample [0; 4] 0) ia DIGIASSET_TRANSFER t in
  r.1 = Ok tt /\ held_out 5 (_outputs r.2) = 10.
Proof.
  intros ia t r. assert (r.1 = Ok tt /\ _unintentionalBurn r.2 = false) as [Eo Eu] by (vm_compute; by split). split; [exact Eo|].
  edestruct (transfer_conserves (db := sample_db) (sample [0; 4] 0) ia DIGIASSET_TRANSFER t)
    as (burned & lost & H & Zb & Zl).
  - by apply wf_sample.
  - reflexivity.
  - by repeat constructor.
  - intros k. unfold held_in, held, units. simpl. case_match; reflexivity.
  - reflexivity.
  - vm_compute. reflexivity.
  - destruct (H 5) as (_ & _ & E). rewrite (Zb ltac:(discriminate)), (Zl Eo Eu) in E.
    rewrite !Z.add_0_r in E. exact E.
Defined.

(** The second instruction is cut short: the first one's units stay on output 0,
    the other six of the input are lost, and the transfer of the decoder ends
    as a plain transaction. *)
Lemma cut_stream_loses_units :
  let ia := [sample_utxo "in" [sample_asset 5 10]] in
  let r := decodeAssetTransfer (db := sample_db) (sample [0; 4; 1] 0) ia DIGIASSET_TRANSFER (sample_tx ia 2) in
  is_ok r.1 = false /\ map (fun u => map getCount (assets u)) (_outputs r.2) = [[4]; []].
Proof. vm_compute. by split. Qed.

(** A range instruction whose product wraps around 64 bits creates units: 4
    outputs get 4611686018430000000 units each from an input of 11000000. *)
Theorem range_overflow_creates_assets :
  let ia := [sample_utxo "in" [sample_asset 5 11000000]] in
  let t := sample_tx ia 4 in
  exists t', decodeAssetTransfer (db := sample_db) (sample [64; 3; 163; 90; 254; 83; 87; 159] 0) ia DIGIASSET_TRANSFER t = (Ok tt, t')
    /\ held_in 5 (input_assets ia) = 11000000
    /\ map (fun u => held 5 (assets u)) (_outputs t')
       = [4611686018430000000; 4611686018430000000; 4611686018430000000; 4611686018430551616].
Proof. eexists. split; [vm_compute; reflexivity|]. split; vm_compute; reflexivity. Qed.

(** An issuance that sends units to the last output and leaves some over: the
    change meets an asset whose index is not known yet, and the issuance is
    refused with the first units already on the output. *)
Theorem issuance_change_refused :
  let new := set_count 10 DigiAsset_default in
  let t := sample_tx [] 2 in
  exists t', decodeAssetTransfer (db := sample_db) (sample [1; 4; 0] 0) [mk_AssetUTXO "" 0 "" 0 [new]] DIGIASSET_ISSUANCE t
             = (Throw exceptionUnknownAssetIndex, t')
    /\ map (fun u => map getCount (assets u)) (_outputs t') = [[]; [4]].
Proof. eexists. split; [vm_compute; reflexivity|]. vm_compute. reflexivity. Qed.

(** ** All or nothing *)

(** Everything that [inputs] still hold goes to the last output. *)
Definition give_change (inputs : list (list DigiAsset)) (outputs : list AssetUTXO) : outcome unit * list AssetUTXO :=
  for_each (concat inputs) add_change outputs.
Definition changed (inputs : list (list DigiAsset)) (outputs : list AssetUTXO) (t : DigiByteTransaction)
    : outcome unit * DigiByteTransaction :=
  let '(o, outputs) := give_change inputs outputs in (o, set_outputs outputs t).

Lemma for_each_on_outputs l s :
  for_each l (fun a => on_outputs (add_change a)) s
  = let '(o, outputs) := for_each l add_change (t_outputs s) in
    (o, mk_transferring (t_data s) (t_inputs s) (t_index s) (t_allowSkip s) outputs).
Proof.
  revert s; induction l as [|a l IH]; intros s; [by destruct s|]. cbn [for_each].
  unfold mbind, M_bind, on_outputs. destruct (add_change a (t_outputs s)) as [[[]|e| |] outs]; try done. by rewrite IH.
Qed.

Lemma change_loop_run s :
  change_loop s = let '(o, outputs) := give_change (t_inputs s) (t_outputs s) in
                  (o, mk_transferring (t_data s) (t_inputs s) (t_index s) (t_allowSkip s) outputs).
Proof. apply for_each_on_outputs. Qed.

Lemma same_result_outputs {A} (r r' : outcome A * transferring) :
  same_result r r' -> fst r = fst r' /\ t_inputs (snd r) = t_inputs (snd r') /\ t_outputs (snd r) = t_outputs (snd r').
Proof. intros [H1 H2]. split; [done|]. by injection H2. Qed.

Lemma apply_all_keeps_outputs type l s :
  clear_assets (t_outputs (snd (apply_all type l s))) = clear_assets (t_outputs s).
Proof.
  revert s; induction l as [|i l IH]; intros s; [done|]. unfold apply_all. cbn [for_each].
  unfold mbind, M_bind. pose proof (instruction_keeps_outputs type i s) as H. cbn beta in H.
  destruct (apply_instruction type i s) as [[[]|e| |] s1]; cbn [snd] in H; try exact H.
  rewrite <- H. apply IH.
Qed.

Lemma clear_assets_nonempty outputs outputs' :
  clear_assets outputs = clear_assets outputs' -> outputs' <> [] -> outputs <> [].
Proof. intros H Hne ->. by destruct outputs'. Qed.

(** C25: Transfer instructions are applied all or not at all, where the legacy
    rule does not apply (before version 3 of the protocol a transfer whose first
    input has no assets stops at its first instruction). Let [l] be the
    instructions of the stream. Reading them ends at the footer or by an
    exception of the stream, never otherwise, and applying them succeeds or
    throws the invalid-transfer exception. If all of them apply, the outputs are
    what they produce followed by the change of what is left on the inputs (or
    the stream's exception is passed on); if any of them is invalid, the whole
    transfer is undone: the outputs are cleared and every asset of the inputs
    goes to the last output, as its change; nothing is lost, although
    docs/asset-rules-and-burns.md (row 5) says that a malformed instruction loses
    everything. Giving change fails only for an asset whose index is not
    known. *)
Theorem transfer_all_or_nothing (b : BitIO) (ia : list AssetUTXO) (type : Z) (t : DigiByteTransaction) :
  wf b -> fits b -> _outputs t <> [] -> (forall s, legacy_break t type s = (Ok false, s)) ->
  let '(l, reading) := parse_instructions (S (unread b)) (footer_bits type) b in
  let run := apply_all type l (mk_transferring b (input_assets ia) 0 true (_outputs t)) in
  (reading = Ok tt \/ exists e, reading = Throw e)
  /\ (fst run = Ok tt \/ fst run = Throw exceptionInvalidTransfer)
  /\ route_assets b ia type t =
     match fst run, reading with
     | Ok _, Ok _ => changed (t_inputs (snd run)) (t_outputs (snd run)) t
     | Ok _, reading => (reading, set_outputs (t_outputs (snd run)) t)
     | _, _ => changed (input_assets ia) (clear_assets (_outputs t)) t
     end
  /\ (fst (route_assets b ia type t) = Ok tt \/ fst (route_assets b ia type t) = reading
      \/ fst (route_assets b ia type t) = Throw exceptionUnknownAssetIndex).
Proof.
  intros Hw Hf Hout Hleg. set (s0 := mk_transferring b (input_assets ia) 0 true (_outputs t)).
  pose proof (transfer_loop_run t ia type (footer_bits type) (S (unread b)) s0 Hleg) as Hrun.
  change (t_data s0) with b in Hrun.
  pose proof (parse_instructions_ends (S (unread b)) (footer_bits type) b Hw Hf) as Hread.
  specialize (Hread ltac:(unfold unread; lia)).
  destruct (parse_instructions (S (unread b)) (footer_bits type) b) as [l reading].
  cbn [snd] in Hread. cbv beta iota in Hrun |- *. apply same_result_outputs in Hrun as (H1 & H2 & H3).
  pose proof (apply_all_ends type l s0) as Hends. pose proof (apply_all_keeps_outputs type l s0) as Hkeep.
  change (t_outputs s0) with (_outputs t) in Hkeep.
  assert (route_assets b ia type t = match fst (apply_all type l s0), reading with
            | Ok _, Ok _ => changed (t_inputs (snd (apply_all type l s0))) (t_outputs (snd (apply_all type l s0))) t
            | Ok _, reading => (reading, set_outputs (t_outputs (snd (apply_all type l s0))) t)
            | _, _ => changed (input_assets ia) (clear_assets (_outputs t)) t
            end) as E.
  { unfold route_assets, mbind at 1, M_bind at 1, get, on_transfer. fold s0. unfold mbind, M_bind.
    destruct (transfer_loop _ _ _ _ _ s0) as [o s1]. cbn [fst snd] in *. subst o.
    destruct (apply_all type l s0) as [[[]|e| |] s2]; cbn [fst snd loop_result] in *; try (by destruct Hends).
    - destruct reading as [[]|e| |]; [|by rewrite H3|by destruct Hread as [|[? ?]]..].
      rewrite change_loop_run, H2, H3. unfold changed.
      by destruct (give_change (t_inputs s2) (t_outputs s2)).
    - rewrite change_loop_run, H2, H3. unfold changed. cbn [t_inputs t_outputs reset_transfer modify snd]. rewrite Hkeep.
      by destruct (give_change (input_assets ia) (clear_assets (_outputs t))). }
  assert (forall ins outs, outs <> [] ->
    fst (changed ins outs t) = Ok tt \/ fst (changed ins outs t) = Throw exceptionUnknownAssetIndex) as Hch.
  { intros ins outs Hne. pose proof (change_loop_ends (concat ins) (mk_transferring b [] 0 true outs) Hne) as Hc.
    rewrite for_each_on_outputs in Hc. cbn [t_outputs] in Hc. unfold changed, give_change.
    destruct (for_each _ add_change outs) as [[[]|e| |] outs']; destruct Hc; try done; [by left|by right]. }
  intros run. fold s0 in run. split_and!; [done| |exact E|].
  - subst run. destruct Hends as [H|H]; [left|by right].
    by destruct (apply_all type l s0) as [[[]|e| |] s2].
  - rewrite E. destruct Hends as [H|H].
    + destruct (apply_all type l s0) as [[[]|e| |] s2]; try done. cbn [fst snd] in *.
      destruct reading as [[]|e| |]; [|by right; left..].
      destruct (Hch (t_inputs s2) (t_outputs s2)) as [K|K]; [|by left|by right; right].
      by eapply clear_assets_nonempty.
    + rewrite H. destruct (Hch (input_assets ia) (clear_assets (_outputs t))) as [K|K]; [|by left|by right; right].
      by destruct (_outputs t).
Qed.

(** The only instruction asks for output 9 of 2: both units go to the last. *)
Lemma transfer_all_or_nothing_witness :
  let ia := [sample_utxo "in" [sample_asset 5 10]; sample_utxo "in" [sample_asset 6 3]] in
  let t := sample_tx ia 2 in
  map (fun u => map getCount (assets u)) (_outputs (snd (route_assets (sample [9; 4] 0) ia DIGIASSET_TRANSFER t)))
  = [[]; [10; 3]].
Proof.
  intros ia t.
  pose proof (transfer_all_or_nothing (sample [9; 4] 0) ia DIGIASSET_TRANSFER t) as H.
  specialize (H ltac:(by apply wf_sample) ltac:(reflexivity) ltac:(discriminate) ltac:(reflexivity)).
  set (p := parse_instructions _ _ _) in H. vm_compute in p. subst p. cbv beta iota zeta in H.
  destruct H as (_ & _ & H & _). rewrite H. vm_compute. reflexivity.
Defined.

(** ** Termination *)
Definition no_fuel {A} (o : outcome A) : Prop := o <> Fuel.

Lemma no_fuel_bind {A B} (m : outcome A) (f : A -> outcome B) :
  no_fuel m -> (forall a, no_fuel (f a)) -> no_fuel (m ≫= f).
Proof. intros Hm Hf. by destruct m; try done; apply Hf. Qed.
Lemma no_fuel_ok {A} (a : A) : no_fuel (Ok a).
Proof. done. Qed.
Lemma no_fuel_throw {A} e : no_fuel (Throw e : outcome A).
Proof. done. Qed.
Create HintDb fuel.
#[export] Hint Resolve no_fuel_ok no_fuel_throw : fuel.

Section rules_terminate.
Context `{db : Sqlite} (self : DigiAsset) (height time : Z).
Context (Hcore : forall txid, no_fuel (getRawTransaction txid)).

Lemma no_fuel_index b a : no_fuel (getAssetIndex b a).
Proof. unfold getAssetIndex. by repeat case_match. Qed.
#[local] Hint Resolve no_fuel_index : fuel.

Lemma no_fuel_changes f utxos changes : no_fuel (utxo_changes self f utxos changes).
Proof.
  revert changes; induction utxos as [|u utxos IH]; intros changes; [done|]. cbn [utxo_changes].
  apply no_fuel_bind; [|auto]. generalize (assets u) as l. intros l. revert changes.
  induction l as [|a l IHl]; intros changes; [done|]. cbn [add_changes].
  apply no_fuel_bind; [auto with fuel|]. intros index. by case_match.
Qed.

Lemma no_fuel_holds l : no_fuel (holds_asset self l).
Proof. induction l as [|a l IH]; [done|]. apply no_fuel_bind; [auto with fuel|]. intros. by case_match. Qed.

Lemma no_fuel_receivers outputs count : no_fuel (count_receivers self outputs count).
Proof.
  revert count; induction outputs as [|u outputs IH]; intros count; [done|].
  apply no_fuel_bind; [apply no_fuel_holds|auto].
Qed.

Lemma no_fuel_addresses inputs : no_fuel (input_addresses inputs).
Proof using Hcore.
  induction inputs as [|u inputs IH]; [done|]. cbn [input_addresses].
  apply no_fuel_bind; [|intros; apply no_fuel_bind; auto with fuel].
  unfold input_address. case_match; [|done]. case_match; [done|].
  apply no_fuel_bind; [apply Hcore|]. intros tx. by case_match.
Qed.

Lemma no_fuel_checkRulesPass inputs outputs : no_fuel (checkRulesPass self height time inputs outputs).
Proof using Hcore.
  unfold checkRulesPass. case_match; [done|]. apply no_fuel_bind; [apply no_fuel_changes|intros c1].
  apply no_fuel_bind; [apply no_fuel_changes|intros c2]. case_match; [done|].
  repeat (apply no_fuel_bind; [|intros []]).
  - unfold check_signers. case_match; [|done]. apply no_fuel_bind; [apply no_fuel_addresses|].
    intros addrs. by case_match.
  - unfold check_royalties. case_match; [|done]. apply no_fuel_bind; [|intros rate].
    + unfold getAcceptedExchangeRate. by repeat case_match.
    + apply no_fuel_bind; [unfold floor_u64; by repeat case_match|intros rate'].
      apply no_fuel_bind; [apply no_fuel_receivers|]. intros. by case_match.
  - unfold check_geofence. by case_match.
  - unfold check_expiry. by case_match.
  - unfold check_vote. by case_match.
  - unfold check_deflation. by case_match.
Qed.
End rules_terminate.

Lemma no_fuel_for_each {S A} (l : list A) (f : A -> M S unit) (s : S) :
  (forall a s, no_fuel (fst (f a s))) -> no_fuel (fst (for_each l f s)).
Proof.
  intros Hf. revert s; induction l as [|a l IH]; intros s; [done|]. cbn [for_each]. unfold mbind, M_bind.
  specialize (Hf a s). destruct (f a s) as [[]]; done.
Qed.

Lemma legacy_break_outcome t type :
  exists o, (forall s, legacy_break t type s = (o, s)) /\ no_fuel o.
Proof.
  unfold legacy_break. case_match; [|by exists (Ok false)].
  destruct (_inputs t) as [|u us]; [by exists UB|by eexists (Ok _)].
Qed.

Lemma no_fuel_add_change a outputs : no_fuel (fst (add_change a outputs)).
Proof.
  destruct outputs as [|u us]; [unfold add_change, mbind, M_bind, get; by case_match|].
  destruct (add_change_ends a (u :: us) ltac:(done)) as [[H|H] _]; [|by rewrite H].
  by destruct (add_change a (u :: us)) as [[]].
Qed.

Lemma no_fuel_route b ia type t : wf b -> fits b -> no_fuel (fst (route_assets b ia type t)).
Proof.
  intros Hw Hf. unfold route_assets, mbind at 1, M_bind at 1, get, on_transfer.
  set (s0 := mk_transferring b (input_assets ia) 0 true (_outputs t)).
  assert (no_fuel (fst (transfer_loop (S (unread b)) t ia type (footer_bits type) s0))) as Hl.
  { destruct (legacy_break_outcome t type) as (o & Hleg & Ho). assert (o = Ok false \/ o <> Ok false) as [->|Hne] by (destruct o as [[]|e| |]; [right|left|right..]; done).
    - destruct (transfer_loop_run t ia type (footer_bits type) (S (unread b)) s0 Hleg) as [H _].
      change (t_data s0) with b in H.
      pose proof (parse_instructions_ends (S (unread b)) (footer_bits type) b Hw Hf ltac:(unfold unread; lia)) as Hp.
      destruct (parse_instructions (S (unread b)) (footer_bits type) b) as [l r]. cbn [snd] in Hp. rewrite H.
      destruct (apply_all_ends type l s0) as [K|K]; destruct (apply_all type l s0) as [[]]; try done.
      cbn. by destruct Hp as [->|[? ->]].
    - cbn [transfer_loop]. unfold mbind at 1, M_bind at 1, on_stream at 1, gets. case_match; [done|].
      unfold mbind at 1, M_bind at 1, on_stream at 1. cbn [t_data s0].
      destruct (reader_instruction true b Hw Hf) as (i & p & -> & _ & Hi & _). destruct i; try done.
      unfold mbind at 1, M_bind at 1. rewrite Hleg. by destruct o as [[]| | |]. }
  unfold mbind, M_bind. destruct (transfer_loop _ _ _ _ _ s0) as [[]]; try done. rewrite change_loop_run.
  unfold give_change. pose proof (no_fuel_for_each (concat (t_inputs t0)) add_change (t_outputs t0) no_fuel_add_change) as H.
  by destruct (for_each _ add_change _).
Qed.

(** Decoding a transfer always comes to an end: for every stream, every list
    of inputs, each kind of transaction and each state of the database, the
    loops of [decodeAssetTransfer] (the instructions, the removal of units from
    the inputs, the change and the check of the rules of every input asset) end
    within the bound the model gives them, provided DigiByte Core answers the
    look-ups of the approval rule. *)
Theorem transfer_terminates `{db : Sqlite} (b : BitIO) (ia : list AssetUTXO) (type : Z) (t : DigiByteTransaction) :
  wf b -> fits b -> (forall txid, getRawTransaction txid <> Fuel) ->
  fst (decodeAssetTransfer b ia type t) <> Fuel.
Proof.
  intros Hw Hf Hcore. unfold decodeAssetTransfer. unfold mbind at 1, M_bind at 1.
  pose proof (no_fuel_route b ia type t Hw Hf) as Hr.
  destruct (route_assets b ia type t) as [[] t1]; try done. unfold mbind at 1, M_bind at 1.
  destruct (negb _); cbn [when]; [|done].
  assert (no_fuel (fst (tx_checkRulesPass t1))) as Hc.
  { unfold tx_checkRulesPass, mbind, M_bind, get. apply no_fuel_for_each. intros u s. unfold check_input_assets.
    apply no_fuel_for_each. intros x s'. by apply no_fuel_checkRulesPass. }
  by destruct (tx_checkRulesPass t1) as [[] ?].
Qed.

Lemma transfer_terminates_witness :
  let ia := [sample_utxo "in" [sample_asset 5 10]] in
  fst (decodeAssetTransfer (db := sample_db) (sample [0; 4; 255] 0) ia DIGIASSET_TRANSFER (sample_tx ia 2)) <> Fuel.
Proof. intros ia. apply transfer_terminates; [by apply wf_sample|reflexivity|intros; discriminate]. Defined.
