(* ===== verification/RulesCheck.v ===== *)
(** RulesCheck: what [DigiAsset::checkRulesPass] enforces. *)

From S2P Require Import Prelude.
From S2P Require Import BitIO.
From S2P Require Import AssetTypes.
From S2P Require Import DigiAssetRules.
From S2P Require Import KYC.
From S2P Require Import Blob.
From S2P Require Import Database.
From S2P Require Import DigiDollar.
From S2P Require Import DigiAsset.
From S2P Require Import DigiByteTransaction.
From S2P Require Import Transfer.

Ltac Zify.zify_post_hook ::= Z.div_mod_to_equations.

(** ** Balances per address *)

(** The units of asset [k] on the outputs of an address. *)
Definition at_address (k : Z) (address : string) (utxos : list AssetUTXO) : Z :=
  foldr (fun u n => (if bool_decide (utxo_address u = address) then held k (assets u) else 0) + n) 0 utxos.
Definition all_held (k : Z) (utxos : list AssetUTXO) : Z := held k (concat (map assets utxos)).

Definition indexed (utxos : list AssetUTXO) : Prop := Forall (fun a => _assetIndex a <> 0) (concat (map assets utxos)).
Definition counted (utxos : list AssetUTXO) : Prop := Forall count_ok (concat (map assets utxos)).

Lemma at_address_nonneg k a utxos : counted utxos -> 0 <= at_address k a utxos <= all_held k utxos.
Proof.
  unfold counted, all_held. induction utxos as [|u utxos IH]; cbn [map concat]; intros H; [cbn; lia|].
  apply Forall_app in H as [Hu H]. specialize (IH H). pose proof (held_nonneg k _ Hu).
  rewrite held_app. cbn [at_address foldr]. fold (at_address k a utxos). case_bool_decide; lia.
Qed.

(** *** The sum of a map of balances *)
Definition balance (m : gmap string Z) (a : string) : Z := default 0 (m !! a).
Definition map_sum (m : gmap string Z) : Z := foldr (fun c n => c.2 + n) 0 (map_to_list m).

Lemma sum_permutation (l l' : list (string * Z)) :
  l ≡ₚ l' -> foldr (fun c n => c.2 + n) 0 l = foldr (fun c n => c.2 + n) 0 l'.
Proof. induction 1; simpl; lia. Qed.

Lemma map_sum_insert_new m a v : m !! a = None -> map_sum (<[a := v]> m) = v + map_sum m.
Proof. intros H. unfold map_sum. by rewrite (sum_permutation _ _ (map_to_list_insert m a v H)). Qed.

Lemma map_sum_insert m a v : map_sum (<[a := v]> m) = map_sum m - balance m a + v.
Proof.
  unfold balance. destruct (m !! a) as [w|] eqn:E; simpl.
  - assert (forall x, map_sum (<[a := x]> (delete a m)) = x + map_sum (delete a m)) as H
      by (intros x; apply map_sum_insert_new, lookup_delete_eq).
    pose proof (H v) as Hv. rewrite insert_delete_eq in Hv. pose proof (H w) as Hw. rewrite insert_delete_id in Hw by done. lia.
  - rewrite map_sum_insert_new by done. lia.
Qed.

Lemma balance_insert m a v b : balance (<[a := v]> m) b = if decide (a = b) then v else balance m b.
Proof. unfold balance. rewrite lookup_insert. by case_decide. Qed.

(** ** The changes *)
Section changes.
Context (self : DigiAsset).
Let k := _assetIndex self.

(** [f] adds ([sign = 1]) or subtracts ([sign = -1]) without wrapping as long as
    the result fits. *)
Definition signed (f : Z -> Z -> Z) (sign : Z) : Prop :=
  forall x y, - 2 ^ 63 <= x + sign * y < 2 ^ 63 -> f x y = x + sign * y.

Lemma i64_small z : - 2 ^ 63 <= z < 2 ^ 63 -> i64 z = z.
Proof. intros H. unfold i64. rewrite Z.mod_small; unfold two64; lia. Qed.

Lemma signed_sub : signed int64_sub (-1).
Proof. intros x y H. unfold int64_sub. rewrite i64_small by lia. lia. Qed.
Lemma signed_add : signed int64_add 1.
Proof. intros x y H. unfold int64_add. rewrite i64_small by lia. lia. Qed.

(** [m'] is [m] with [sign * d a] added at every address and [total] in all. *)
Definition shifted (sign : Z) (d : string -> Z) (total : Z) (m m' : gmap string Z) : Prop :=
  (forall a, balance m' a = balance m a + sign * d a) /\ map_sum m' = map_sum m + sign * total.

Definition within (lo hi : Z) (m : gmap string Z) : Prop := forall a, lo <= balance m a <= hi.

Lemma add_changes_run f sign address l m :
  signed f sign -> sign = 1 \/ sign = -1 ->
  Forall count_ok l -> Forall (fun a => _assetIndex a <> 0) l ->
  (- 2 ^ 63 <= balance m address - (if decide (sign = 1) then 0 else held k l)) ->
  (balance m address + (if decide (sign = 1) then held k l else 0) < 2 ^ 63) ->
  exists m', add_changes self f address l m = Ok m'
    /\ shifted sign (fun a => if bool_decide (address = a) then held k l else 0) (held k l) m m'.
Proof.
  intros Hf Hs Hc Hi Hlo Hhi. revert m Hlo Hhi; induction l as [|x l IH]; intros m Hlo Hhi; cbn [add_changes].
  { exists m. split; [done|]. split; [|simpl; lia]. intros a. case_bool_decide; simpl; lia. }
  apply Forall_cons in Hc as [Hx Hc]. apply Forall_cons in Hi as [Hx0 Hi].
  pose proof (held_nonneg k _ Hc) as Hl. pose proof (units_nonneg k x Hx) as Hu. simpl in Hlo, Hhi.
  unfold getAssetIndex. destruct (Z.eqb_spec (_assetIndex x) 0); [done|].
  unfold mbind at 1, outcome_bind at 1. fold k. unfold units at 1 in Hu. unfold units at 1 in Hlo. unfold units at 1 in Hhi.
  destruct (Z.eqb_spec (_assetIndex x) k) as [E|E].
  - assert (f (default 0 (m !! address)) (getCount x) = balance m address + sign * _count x) as ->.
    { apply Hf. unfold getCount. fold (balance m address). destruct Hs as [-> | ->]; simpl in *; lia. }
    destruct (IH Hc Hi (<[address := balance m address + sign * _count x]> m)) as (m' & Hm & Hb & Ht).
    + rewrite balance_insert, decide_True by done. destruct Hs as [-> | ->]; simpl in *; lia.
    + rewrite balance_insert, decide_True by done. destruct Hs as [-> | ->]; simpl in *; lia.
    + exists m'. split; [done|]. split.
      * intros a. rewrite Hb, balance_insert. cbn [held foldr]. fold (held k l). unfold units.
        rewrite E, Z.eqb_refl. destruct (decide (address = a)) as [<-|Ha].
        -- rewrite bool_decide_eq_true_2 by done. lia.
        -- rewrite bool_decide_eq_false_2 by done. lia.
      * rewrite Ht, map_sum_insert. cbn [held foldr]. fold (held k l). unfold units. rewrite E, Z.eqb_refl. lia.
  - destruct (IH Hc Hi m) as (m' & Hm & Hb & Ht); [destruct Hs as [-> | ->]; simpl in *; lia..|].
    exists m'. split; [done|]. cbn [held foldr]. fold (held k l). unfold units.
    apply Z.eqb_neq in E. rewrite E. by split.
Qed.

(** The balances stay inside 64 bits while [d] is added or subtracted. *)
Definition room (sign : Z) (d : string -> Z) (m : gmap string Z) : Prop :=
  forall a, - 2 ^ 63 <= balance m a - (if decide (sign = 1) then 0 else d a)
            /\ balance m a + (if decide (sign = 1) then d a else 0) < 2 ^ 63.

Lemma utxo_changes_run f sign utxos m :
  signed f sign -> sign = 1 \/ sign = -1 -> counted utxos -> indexed utxos ->
  room sign (fun a => at_address k a utxos) m ->
  exists m', utxo_changes self f utxos m = Ok m'
    /\ shifted sign (fun a => at_address k a utxos) (all_held k utxos) m m'.
Proof.
  intros Hf Hs. revert m; induction utxos as [|u utxos IH]; intros m Hc Hi Hr; cbn [utxo_changes].
  { exists m. split; [done|]. split; [|cbn; lia]. intros a. cbn. lia. }
  unfold counted, indexed in Hc, Hi. cbn [map concat] in Hc, Hi.
  apply Forall_app in Hc as [Hcu Hc]. apply Forall_app in Hi as [Hiu Hi].
  assert (forall a, at_address k a (u :: utxos)
          = (if bool_decide (utxo_address u = a) then held k (assets u) else 0) + at_address k a utxos) as Hat by done.
  assert (forall a, 0 <= at_address k a utxos) as Hat0 by (intros a; by apply at_address_nonneg).
  pose proof (held_nonneg k _ Hcu) as Hu0.
  destruct (add_changes_run f sign (utxo_address u) (assets u) m Hf Hs Hcu Hiu) as (m1 & E1 & Hb1 & Ht1).
  1, 2: specialize (Hr (utxo_address u)); specialize (Hat0 (utxo_address u)); cbv beta in Hr;
    rewrite Hat, bool_decide_eq_true_2 in Hr by done; case_decide; lia.
  rewrite E1. cbn [mbind outcome_bind]. destruct (IH m1 Hc Hi) as (m2 & E2 & Hb2 & Ht2).
  - intros a. rewrite Hb1. specialize (Hr a). cbv beta in *. rewrite Hat in Hr.
    destruct Hs as [-> | ->]; [rewrite !decide_True in * by done|rewrite !decide_False in * by done];
      case_bool_decide; lia.
  - exists m2. split; [done|]. split.
    + intros a. rewrite Hb2, Hb1, Hat. lia.
    + rewrite Ht2, Ht1. unfold all_held. cbn [map concat]. rewrite held_app. lia.
Qed.

(** What an address gains. *)
Definition gain (inputs outputs : list AssetUTXO) (a : string) : Z :=
  at_address k a outputs - at_address k a inputs.

Lemma changes_run inputs outputs :
  counted inputs -> indexed inputs -> counted outputs -> indexed outputs ->
  all_held k inputs < 2 ^ 63 -> all_held k outputs < 2 ^ 63 ->
  exists m1 m2, utxo_changes self int64_sub inputs ∅ = Ok m1 /\ utxo_changes self int64_add outputs m1 = Ok m2
    /\ (forall a, balance m2 a = gain inputs outputs a)
    /\ map_sum m2 = all_held k outputs - all_held k inputs.
Proof.
  intros Hci Hii Hco Hio Hbi Hbo.
  assert (forall a, balance ∅ a = 0) as H0 by (intros a; unfold balance; by rewrite lookup_empty).
  destruct (utxo_changes_run int64_sub (-1) inputs ∅ signed_sub (or_intror eq_refl) Hci Hii) as (m1 & E1 & Hb1 & Ht1).
  { intros a. rewrite H0. pose proof (at_address_nonneg k a inputs Hci). case_decide; lia. }
  destruct (utxo_changes_run int64_add 1 outputs m1 signed_add (or_introl eq_refl) Hco Hio) as (m2 & E2 & Hb2 & Ht2).
  { intros a. rewrite Hb1, H0. pose proof (at_address_nonneg k a inputs Hci). pose proof (at_address_nonneg k a outputs Hco).
    case_decide; lia. }
  exists m1, m2. split_and!; [done|done| |].
  - intros a. rewrite Hb2, Hb1, H0. unfold gain. lia.
  - rewrite Ht2, Ht1. change (map_sum ∅) with 0. lia.
Qed.

End changes.

(** *** Reading the map *)
Lemma receivers_spec m a : a ∈ receivers m <-> 0 < balance m a.
Proof.
  unfold receivers, balance. rewrite list_elem_of_fmap. split.
  - intros ([b v] & -> & [Hv E]%list_elem_of_filter). apply elem_of_map_to_list in E. simpl in *. by rewrite E.
  - destruct (m !! a) as [v|] eqn:E; simpl; [|lia]. intros Hv. exists (a, v). split; [done|].
    apply list_elem_of_filter. split; [done|by apply elem_of_map_to_list].
Qed.

Lemma is_consolidation_spec m : is_consolidation m = true <-> forall a, balance m a <= 0.
Proof.
  unfold is_consolidation, balance. rewrite forallb_forall. split.
  - intros H a. destruct (m !! a) as [v|] eqn:E; simpl; [|lia].
    specialize (H (a, v)). rewrite <- list_elem_of_In, elem_of_map_to_list in H. specialize (H E). cbn in H. lia.
  - intros H [a v] Hin. rewrite <- list_elem_of_In, elem_of_map_to_list in Hin. specialize (H a). rewrite Hin in H.
    cbn in *. lia.
Qed.

Lemma i64_add_l x y : i64 (i64 x - y) = i64 (x - y).
Proof. unfold i64, two64. change (2 ^ 63) with 9223372036854775808. lia. Qed.

Lemma burned_sum m : u64 (burned m) = u64 (- map_sum m).
Proof.
  unfold burned, map_sum.
  assert (forall l acc, u64 (foldl (fun burns c => i64 (burns - c.2)) (i64 acc) l)
                        = u64 (acc - foldr (fun (c : string * Z) n => c.2 + n) 0 l)) as H.
  { induction l as [|[a v] l IH]; intros acc; cbn [foldl foldr snd].
    - unfold u64, i64, two64. change (2 ^ 63) with 9223372036854775808. lia.
    - rewrite i64_add_l, IH. f_equal. lia. }
  exact (H (map_to_list m) 0).
Qed.

(** ** The rules *)
Section enforced.
Context `{db : Sqlite} (self : DigiAsset) (height time : Z) (inputs outputs : list AssetUTXO).
Let k := _assetIndex self.
Let rules := _rules self.

(** The weight of the signers that spend an input. *)
Definition approving_weight (addrs : list string) : Z :=
  foldr (fun s n => (if bool_decide (Signer.address s ∈ addrs) then Signer.weight s else 0) + n) 0 (getSigners rules).

(** The outputs that hold the asset; one of several is taken to be change. *)
Definition holders : Z :=
  Z.of_nat (length (List.filter (fun u => existsb (fun a => _assetIndex a =? k) (assets u)) outputs)).
Definition recipients : Z := Z.max 1 (holders - 1).
Definition royalty_due (rate : Z) (r : Royalty.t) : Z := recipients * Royalty.amount r * rate / 100000000.

(** What the transaction has to fulfil when somebody gains units. *)
Record transfer_allowed (addrs : list string) (rate : Z) : Prop := {
  allowed_signers : 0 < getRequiredSignerWeight rules -> getRequiredSignerWeight rules <= approving_weight addrs;
  allowed_royalty : getIfRequiresRoyalty rules = true -> forall r, r ∈ getRoyalties rules ->
    exists u, u ∈ outputs /\ utxo_address u = Royalty.address r /\ royalty_due rate r - 1 <= digibyte u;
  allowed_receivers : getIfGeoFenced rules = true -> forall a, 0 < gain self inputs outputs a ->
    valid (i32 height) (getAddressKYC a) = true
    /\ exists country, getCountry (getAddressKYC a) = Ok country /\ getIfCountryAllowedToReceive country rules = true;
  allowed_time : getIfExpired height time rules = false;
  allowed_votes : getIfVoteRestricted rules = true -> forall a, 0 < gain self inputs outputs a ->
    getIfValidVoteAddress a rules = true;
  allowed_burn : 0 < getRequiredBurn rules -> getRequiredBurn rules <= all_held k inputs - all_held k outputs
}.

(** The chain data the check needs is there and no product or sum wraps. *)
Record checkable (addrs : list string) (rate : Z) : Prop := {
  check_inputs : counted inputs /\ indexed inputs /\ all_held k inputs < 2 ^ 63;
  check_outputs : counted outputs /\ indexed outputs /\ all_held k outputs <= all_held k inputs;
  check_signer_data : 0 < getRequiredSignerWeight rules ->
    input_addresses inputs = Ok addrs /\ Forall (fun s => 0 <= Signer.weight s) (getSigners rules)
    /\ foldr (fun s n => Signer.weight s + n) 0 (getSigners rules) < two64;
  check_royalty_data : getIfRequiresRoyalty rules = true ->
    (exists d, getAcceptedExchangeRate (getRoyaltyCurrency rules) height = Ok d /\ floor_u64 d = Ok rate)
    /\ Z.of_nat (length outputs) < two64 /\ 0 <= rate
    /\ forall r, r ∈ getRoyalties rules ->
         0 <= Royalty.amount r /\ 100000000 <= recipients * Royalty.amount r * rate < two64
}.

(** *** Signers *)
Lemma signed_weight_sum addrs l acc :
  Forall (fun s => 0 <= Signer.weight s) l -> 0 <= acc ->
  acc + foldr (fun s n => Signer.weight s + n) 0 l < two64 ->
  signed_weight l addrs acc
  = acc + foldr (fun s n => (if bool_decide (Signer.address s ∈ addrs) then Signer.weight s else 0) + n) 0 l.
Proof.
  revert acc; induction l as [|s l IH]; intros acc Hw Ha Hsum; cbn [signed_weight foldr] in *; [lia|].
  apply Forall_cons in Hw as [Hs Hw].
  assert (0 <= foldr (fun s n => Signer.weight s + n) 0 l) as Hl by (clear -Hw; induction Hw; simpl; lia).
  rewrite IH; [|done|..]; case_bool_decide; rewrite ?u64_small by lia; lia.
Qed.

(** A step of the check: it passes exactly when [P] holds, else its rule fails. *)
Definition verdict (o : outcome unit) (P : Prop) : Prop :=
  (o = Ok tt /\ P) \/ ((exists rule, o = Throw (exceptionRuleFailed rule)) /\ ~ P).

Lemma verdict_seq o o' (P Q : Prop) : verdict o P -> verdict o' Q -> verdict (o ≫= fun _ => o') (P /\ Q).
Proof.
  intros [[-> HP]|[[rule ->] HP]] Ho'; [|right; split; [by exists rule|tauto]].
  destruct Ho' as [[-> HQ]|[[rule ->] HQ]]; [by left|right; split; [by exists rule|tauto]].
Qed.

Lemma verdict_if (c : bool) rule (P : Prop) :
  (c = false <-> P) -> verdict (if c then Throw (exceptionRuleFailed rule) else Ok tt) P.
Proof. intros H. destruct c; [right; split; [by exists rule|]|left; split; [done|by apply H]]. intros HP. by apply H in HP. Qed.

Lemma verdict_iff o (P Q : Prop) : (P <-> Q) -> verdict o P -> verdict o Q.
Proof. intros H [[-> HP]|[Hr HP]]; [left|right]; tauto. Qed.

Lemma check_signers_verdict addrs rate :
  checkable addrs rate ->
  verdict (check_signers self inputs)
    (0 < getRequiredSignerWeight rules -> getRequiredSignerWeight rules <= approving_weight addrs).
Proof.
  intros Hd. unfold check_signers. fold rules. destruct (Z.ltb_spec 0 (getRequiredSignerWeight rules)) as [H|H]; [|by left; split; [|lia]].
  destruct (check_signer_data _ _ Hd H) as (-> & Hw & Hs). cbn [mbind outcome_bind].
  rewrite signed_weight_sum by (done || lia). apply verdict_if. fold (approving_weight addrs). rewrite Z.ltb_ge. lia.
Qed.

(** *** Royalties *)
Lemma holds_asset_spec l :
  Forall (fun a => _assetIndex a <> 0) l -> holds_asset self l = Ok (existsb (fun a => _assetIndex a =? k) l).
Proof.
  induction 1 as [|a l Ha _ IH]; [done|]. cbn [holds_asset existsb]. unfold getAssetIndex.
  destruct (Z.eqb_spec (_assetIndex a) 0); [done|]. cbn [mbind outcome_bind]. fold k. by destruct (_ =? k).
Qed.

Lemma count_receivers_spec l n :
  indexed l -> 0 <= n < two64 ->
  count_receivers self l n
  = Ok (u64 (n + Z.of_nat (length (List.filter (fun u => existsb (fun a => _assetIndex a =? k) (assets u)) l)))).
Proof.
  revert n; induction l as [|u l IH]; intros n Hi Hn; cbn [count_receivers List.filter].
  { rewrite Z.add_0_r, u64_small by done. done. }
  unfold indexed in Hi. cbn [map concat] in Hi. apply Forall_app in Hi as [Hu Hi].
  rewrite (holds_asset_spec _ Hu). cbn [mbind outcome_bind]. destruct (existsb _ (assets u)).
  - rewrite IH by (done || apply u64_range). cbn [length]. f_equal. unfold u64, two64. lia.
  - by apply IH.
Qed.

(** Whoever gains units does so on an output that holds the asset. *)
Lemma gain_holder a : counted inputs -> 0 < gain self inputs outputs a -> 1 <= holders.
Proof.
  intros Hc Hg. unfold gain in Hg. fold k in Hg. pose proof (at_address_nonneg k a inputs Hc).
  assert (0 < at_address k a outputs) as Hpos by lia. clear Hg. unfold holders.
  induction outputs as [|u l IH]; [done|]. cbn [at_address foldr List.filter] in *. fold (at_address k a l) in Hpos.
  destruct (existsb _ (assets u)) eqn:E; [cbn [length]; lia|]. apply IH.
  enough (held k (assets u) = 0) by (case_bool_decide; lia). clear -E.
  induction (assets u) as [|x xs IH]; [done|]. cbn [existsb] in E. apply orb_false_iff in E as [Ex E].
  cbn [held foldr]. fold (held k xs). rewrite IH by done. unfold units. by rewrite Ex.
Qed.

Lemma royalty_paid_spec rate r :
  0 <= rate -> 0 <= Royalty.amount r -> 100000000 <= recipients * Royalty.amount r * rate < two64 ->
  recipients < two64 ->
  royalty_paid outputs recipients rate r = true
  <-> exists u, u ∈ outputs /\ utxo_address u = Royalty.address r /\ royalty_due rate r - 1 <= digibyte u.
Proof.
  intros Hr Ha Hp Hrec. unfold royalty_paid, min_accepted.
  assert (0 <= recipients * Royalty.amount r /\ recipients * Royalty.amount r < two64) as [Hp0 Hp1].
  { unfold recipients in *. split; [nia|]. assert (1 <= rate) by nia. nia. }
  rewrite (u64_small (recipients * Royalty.amount r)), (u64_small (_ * rate)) by lia.
  fold (royalty_due rate r). rewrite u64_small by (unfold royalty_due, two64 in *; lia).
  rewrite existsb_exists. setoid_rewrite andb_true_iff. setoid_rewrite bool_decide_eq_true. setoid_rewrite Z.leb_le.
  setoid_rewrite <- list_elem_of_In. done.
Qed.

Lemma check_royalties_verdict addrs rate :
  checkable addrs rate -> 1 <= holders ->
  verdict (check_royalties self height outputs)
    (getIfRequiresRoyalty rules = true -> forall r, r ∈ getRoyalties rules ->
      exists u, u ∈ outputs /\ utxo_address u = Royalty.address r /\ royalty_due rate r - 1 <= digibyte u).
Proof.
  intros Hd Hh. unfold check_royalties. fold rules. destruct (getIfRequiresRoyalty rules) eqn:Er; [|by left].
  destruct (check_royalty_data _ _ Hd Er) as ((d & -> & Hf) & Hlen & Hrate & Hroy). cbn [mbind outcome_bind].
  rewrite Hf. cbn [mbind outcome_bind].
  pose proof (check_outputs _ _ Hd) as (_ & Hio & _). rewrite count_receivers_spec by (done || (unfold two64; lia)).
  cbn [mbind outcome_bind].
  assert (holders <= Z.of_nat (length outputs)) as Hle.
  { unfold holders. clear. induction outputs as [|u l IH]; [done|]. cbn [List.filter]. case_match; cbn [length]; lia. }
  fold holders. assert (u64 (two64 - 1 + holders) = holders - 1) as -> by (unfold u64, two64 in *; lia).
  assert ((if holders - 1 <? 1 then 1 else holders - 1) = recipients) as ->
    by (unfold recipients; destruct (Z.ltb_spec (holders - 1) 1); lia).
  match goal with |- verdict (if ?b then _ else _) ?P => enough (b = true <-> P) as H by
    (destruct b; [left|right]; (split; [try done; by eexists|]); [by apply H|intros H'; by apply H in H']) end.
  rewrite forallb_forall. split.
  - intros H _ r Hr. destruct (Hroy r Hr). apply royalty_paid_spec; [done..|unfold recipients; lia|].
    apply H. by apply list_elem_of_In.
  - intros H r Hr. apply list_elem_of_In in Hr. destruct (Hroy r Hr).
    apply royalty_paid_spec; [done..|unfold recipients; lia|by apply H].
Qed.

(** *** Receivers, votes, time and burns *)
Lemma kyc_allows_spec a :
  kyc_allows self height a = true
  <-> valid (i32 height) (getAddressKYC a) = true
      /\ exists country, getCountry (getAddressKYC a) = Ok country /\ getIfCountryAllowedToReceive country rules = true.
Proof.
  unfold kyc_allows. fold rules. rewrite andb_true_iff. split; intros [Hv Hc]; (split; [done|]).
  - destruct (getCountry _) as [c| | |]; try done. by exists c.
  - by destruct Hc as (c & -> & Hc).
Qed.

(** A rule every receiver has to satisfy. *)
Lemma receivers_verdict (b : bool) (p : string -> bool) (Q : string -> Prop) m rule :
  (forall a, balance m a = gain self inputs outputs a) -> (forall a, p a = true <-> Q a) ->
  verdict (if b && negb (forallb p (receivers m)) then Throw (exceptionRuleFailed rule) else Ok tt)
    (b = true -> forall a, 0 < gain self inputs outputs a -> Q a).
Proof.
  intros Hm Hp. apply verdict_if. rewrite andb_false_iff, negb_false_iff, forallb_forall. split.
  - intros [->|H] Hb a Ha; [done|]. apply Hp, H. apply list_elem_of_In.
    apply (proj2 (receivers_spec m a)). by rewrite Hm.
  - intros H. destruct b; [right|by left]. intros a Ha. apply Hp, H; [done|].
    rewrite <- Hm. apply (proj1 (receivers_spec m a)). by apply list_elem_of_In.
Qed.

Lemma check_deflation_verdict m :
  map_sum m = all_held k outputs - all_held k inputs ->
  0 <= all_held k outputs -> all_held k outputs <= all_held k inputs < 2 ^ 63 ->
  verdict (check_deflation self m)
    (0 < getRequiredBurn rules -> getRequiredBurn rules <= all_held k inputs - all_held k outputs).
Proof.
  intros Hm H0 Hb. unfold check_deflation. fold rules. apply verdict_if.
  rewrite burned_sum, Hm, u64_small by (unfold two64; lia). rewrite andb_false_iff, !Z.ltb_ge.
  destruct (Z.lt_ge_cases 0 (getRequiredBurn rules)); lia.
Qed.

(** *** All rules *)
Lemma rules_verdict addrs rate m :
  checkable addrs rate -> 1 <= holders ->
  (forall a, balance m a = gain self inputs outputs a) -> map_sum m = all_held k outputs - all_held k inputs ->
  verdict (check_signers self inputs;; check_royalties self height outputs;; check_geofence self height m;;
           check_expiry self height time;; check_vote self m;; check_deflation self m)
    (transfer_allowed addrs rate).
Proof.
  intros Hd Hh Hm Hsum. destruct (check_inputs _ _ Hd) as (Hci & _ & Hbi). destruct (check_outputs _ _ Hd) as (Hco & _ & Hbo).
  assert (0 <= all_held k outputs) by by apply held_nonneg.
  eapply verdict_iff; [|repeat apply verdict_seq;
    [by eapply check_signers_verdict|by eapply check_royalties_verdict| | | |by apply check_deflation_verdict]].
  2: { unfold check_geofence. fold rules. apply receivers_verdict; [done|apply kyc_allows_spec]. }
  2: { unfold check_expiry. fold rules. apply verdict_if. exact (iff_refl _). }
  2: { unfold check_vote. fold rules. apply receivers_verdict; [done|]. intros a. exact (iff_refl _). }
  split; [intros (? & ? & ? & ? & ? & ?); by constructor|intros []; done].
Qed.
End enforced.

(** C6: The rules check passes exactly the transactions the rules allow.
    [checkRulesPass] accepts when the asset has no rules, when no address ends
    with more units than it started with (a consolidation or a burn), or when
    all of these hold: the signers that spend an input have the required
    weight; every royalty is paid, within one satoshi, to its address by an
    output, for every output with the asset but the change; every address that
    gains units has a valid identity from an accepted country; the asset has
    not expired; every address that gains units is a vote option; and at least
    the required units are burned. In every other case the rule-failed
    exception is thrown, and nothing else. The look-ups are assumed to succeed
    and the products to fit 64 bits ([checkable]). *)
Theorem rules_check_spec `{db : Sqlite} (self : DigiAsset) (height time : Z) (inputs outputs : list AssetUTXO)
    (addrs : list string) (rate : Z) :
  checkable self height inputs outputs addrs rate ->
  verdict (checkRulesPass self height time inputs outputs)
    (empty (_rules self) = true \/ (forall a, gain self inputs outputs a <= 0)
     \/ transfer_allowed self height time inputs outputs addrs rate).
Proof.
  intros Hd. unfold checkRulesPass. destruct (empty (_rules self)); [by left; split; [|left]|].
  destruct (check_inputs _ _ _ _ _ _ Hd) as (Hci & Hii & Hbi). destruct (check_outputs _ _ _ _ _ _ Hd) as (Hco & Hio & Hbo).
  destruct (changes_run self inputs outputs Hci Hii Hco Hio Hbi ltac:(lia)) as (m1 & m2 & E1 & E2 & Hg & Hs).
  rewrite E1. cbn [mbind outcome_bind]. rewrite E2. cbn [mbind outcome_bind].
  destruct (is_consolidation m2) eqn:Hc.
  - left. split; [done|]. right; left. intros a. rewrite <- Hg. by apply is_consolidation_spec.
  - assert (~ forall a, gain self inputs outputs a <= 0) as Hno.
    { intros H. enough (is_consolidation m2 = true) by congruence. apply is_consolidation_spec. intros a. by rewrite Hg. }
    assert (1 <= holders self outputs) as Hh.
    { destruct (receivers m2) as [|a l] eqn:Er.
      - exfalso. apply Hno. intros a. rewrite <- Hg. apply Z.nlt_ge. intros Ha. apply receivers_spec in Ha. rewrite Er in Ha. by apply not_elem_of_nil in Ha.
      - apply (gain_holder self inputs outputs a Hci). rewrite <- Hg. apply receivers_spec. rewrite Er. apply elem_of_cons. by left. }
    eapply verdict_iff; [|by eapply (rules_verdict self height time inputs outputs addrs rate m2)].
    split; [by right; right|by intros [|[]]].
Qed.

(** *** Concrete rules: two approvals, a royalty of 500 satoshi, one unit burned *)
Definition ruled_asset (count : Z) : DigiAsset :=
  set_count count (set_assetIndex 5 (set_rules
    (set_deflate 1 (set_royalties [Royalty.mk "artist" 500] (set_signersRequired 2
      (set_signers [Signer.mk "owner" 2; Signer.mk "other" 1] (set_noRules false default_rules))))) DigiAsset_default)).
Definition ruled_inputs : list AssetUTXO := [mk_AssetUTXO "" 0 "owner" 700 [ruled_asset 10]].
Definition ruled_outputs : list AssetUTXO :=
  [mk_AssetUTXO "" 0 "buyer" 700 [ruled_asset 6]; mk_AssetUTXO "" 1 "artist" 600 []; mk_AssetUTXO "" 2 "owner" 700 [ruled_asset 3]].

Lemma rules_check_spec_witness :
  checkRulesPass (db := sample_db) (ruled_asset 10) 100 0 ruled_inputs ruled_outputs = Ok tt
  /\ gain (ruled_asset 10) ruled_inputs ruled_outputs "buyer" = 6
  /\ transfer_allowed (db := sample_db) (ruled_asset 10) 100 0 ruled_inputs ruled_outputs ["owner"%string] 100000000.
Proof.
  assert (checkable (db := sample_db) (ruled_asset 10) 100 ruled_inputs ruled_outputs ["owner"%string] 100000000) as Hd.
  { constructor.
    - split_and!; [by repeat constructor|by repeat constructor|reflexivity].
    - split_and!; [by repeat constructor|by repeat constructor|vm_compute; discriminate].
    - intros _. split_and!; [reflexivity|by repeat constructor|reflexivity].
    - intros _. split_and!; [exists (double_of_Z 100000000); split; vm_compute; reflexivity|reflexivity|done|].
      intros r Hr. apply list_elem_of_singleton in Hr as ->. split; [done|]. by split; vm_compute. }
  pose proof (rules_check_spec (db := sample_db) (ruled_asset 10) 100 0 ruled_inputs ruled_outputs _ _ Hd) as [[Hok H]|[[rule Hr] _]].
  - split; [exact Hok|]. split; [vm_compute; reflexivity|]. destruct H as [H|[H|H]]; [done| |exact H].
    exfalso. specialize (H "buyer"%string). vm_compute in H. by apply H.
  - exfalso. vm_compute in Hr. discriminate.
Defined.
