(* ===== verification/LoadTheorems.v ===== *)
(** LoadTheorems: loading a transaction from the chain never creates assets,
    whatever the decoders find and however they end. *)

From S2P Require Import Prelude.
From S2P Require Import BitIO.
From S2P Require Import BitIOBlocks.
From S2P Require Import BitStream.
From S2P Require Import BitIOCodec.
From S2P Require Import BitIOText.
From S2P Require Import BitIONumbers.
From S2P Require Import BitIOBest.
From S2P Require Import OpReturn.
From S2P Require Import AssetTypes.
From S2P Require Import DigiAssetRules.
From S2P Require Import KYC.
From S2P Require Import Blob.
From S2P Require Import Database.
From S2P Require Import DigiDollar.
From S2P Require Import DigiAsset.
From S2P Require Import UtxoStore.
From S2P Require Import UtxoTheorems.
From S2P Require Import DigiByteTransaction.
From S2P Require Import Transfer.
From S2P Require Import TransferTheorems.
From S2P Require Import TransactionDecode.

Ltac Zify.zify_post_hook ::= Z.div_mod_to_equations.

(** ** The stream behind the header *)
Lemma outcome_ok_inv {A B} (o : outcome A) (f : A -> outcome B) b : o ≫= f = Ok b -> exists a, o = Ok a /\ f a = Ok b.
Proof. destruct o as [a| | |]; try done. exists a. done. Qed.

(** A copy of more bits than are left does not return. *)
Lemma copy_loop_beyond fuel n cl b r :
  wf b -> fits b -> 0 <= n -> (cl = 64 \/ n = 0) -> _length b < _position b + n ->
  is_ok (fst (copy_loop fuel n cl (b, r))) = false.
Proof.
  revert n cl b r; induction fuel as [|fuel IH]; intros n cl b r Hw Hf Hn Hcl Hb; [done|].
  pose proof (wf_position b Hw). cbn [copy_loop]. destruct (Z.eqb_spec n 0) as [->|Hn0]; [lia|].
  destruct Hcl as [->|]; [|done]. unfold BITIO_SIZEOF_LONG. cbv zeta. set (c := if n <? 64 then n else 64).
  assert (1 <= c <= 64 /\ c <= n /\ (n - c = 0 \/ c = 64)) as (Hc & Hcn & Hc64)
    by (subst c; destruct (Z.ltb_spec n 64); lia).
  unfold mbind at 1, M_bind at 1, on_this. cbn [fst snd].
  destruct (decide (_position b + c <= _length b)) as [Hle|Hgt].
  - rewrite getBits_run by (done || lia). cbn [fst snd]. unfold mbind at 1, M_bind at 1, on_value. cbn [fst snd].
    destruct (appendBits _ c r) as [[[]|e| |] r1]; try done.
    apply IH; [by apply wf_set_position; [|lia]|done|lia|lia|cbn; lia].
  - destruct (getBits_error b c Hw Hf ltac:(lia)) as [what ->]; [lia|done].
Qed.

Lemma copyBits_result n b d b' :
  wf b -> fits b -> 0 <= n -> copyBits n b = (Ok d, b') -> wf d /\ fits d.
Proof.
  intros Hw Hf Hn H. pose proof (wf_position b Hw).
  destruct (decide (_position b + n <= _length b)) as [Hle|Hgt].
  - destruct (copyBits_run b n Hw Hf Hn Hle) as (r & Hrun & Ha). rewrite Hrun in H. injection H as -> _.
    apply appended_fresh in Ha as (Hwd & _ & _ & _ & Hl). split; [done|].
    rewrite length_take in Hl. unfold fits in *. lia.
  - pose proof (copy_loop_beyond (S (S (Z.to_nat (Z.min n (_length b) / 64)))) n 64 b empty_BitIO Hw Hf Hn) as Hb.
    specialize (Hb ltac:(by left) ltac:(lia)). unfold copyBits, BITIO_SIZEOF_LONG in H.
    destruct (copy_loop _ _ _ _) as [[[]|e| |] [b1 r]]; done.
Qed.

Lemma push_length_range : returns push_length (fun n => 0 <= n).
Proof.
  unfold push_length. eapply (returns_bind true 8); [by apply reader_getBits|by apply getBits_range|].
  intros op Hop. cbn beta in Hop. assert (forall n, 1 <= n <= 64 -> returns (getBits n) (fun v => 0 <= v)) as Hg.
  { intros n Hn b v Hw Hf Hv. by apply (getBits_range n Hn) in Hv as [? _]. }
  case_match; [intros b v _ _ [=]|]. do 3 (case_match; [by apply Hg|]). apply returns_true. lia.
Qed.

Lemma copyBitcoinData_result b d b' : wf b -> fits b -> copyBitcoinData b = (Ok d, b') -> wf d /\ fits d.
Proof.
  intros Hw Hf H. unfold copyBitcoinData in H. apply bind_ok_inv in H as (n & b1 & H1 & H2).
  destruct (reader_push_length true b Hw Hf) as (o & p & Hr & Hp & _). rewrite Hr in H1. injection H1 as -> <-.
  apply copyBits_result in H2; [done|by apply wf_set_position|done|].
  assert (0 <= n); [|lia]. apply (push_length_range b n Hw Hf). by rewrite Hr.
Qed.

Lemma op_return_data_result b d b' : wf b -> fits b -> op_return_data b = (Ok (Some d), b') -> wf d /\ fits d.
Proof.
  intros Hw Hf H. unfold op_return_data in H. apply bind_ok_inv in H as (opReturn & b1 & H1 & H).
  rewrite checkIsBitcoinOpReturn_run in H1 by done. case_bool_decide as Ht; [|injection H1 as <- <-; done].
  injection H1 as <- <-. cbn [negb] in H.
  assert (wf (advance 8 b)) as Hw1.
  { apply wf_advance; [done|lia|]. apply (f_equal length) in Ht. rewrite length_take in Ht. pose proof (length_rest b Hw).
    change (length (Zbits 8 BITIO_BITCOIN_OP_RETURN)) with 8%nat in Ht. pose proof (wf_position b Hw). lia. }
  apply bind_ok_inv in H as (header & b2 & H2 & H).
  destruct (reader_getBitcoinDataHeader true (advance 8 b) Hw1 Hf) as (o & p & Hr & Hp & _).
  rewrite Hr in H2. injection H2 as -> <-. destruct (negb _); [by injection H|].
  apply bind_ok_inv in H as (data & b3 & H3 & [= <- _]).
  apply copyBitcoinData_result in H3; [done|by apply wf_set_position|done].
Qed.

(** The script of an output fits in memory. *)
Definition script_fits (o : vout_t) : Prop := 4 * Z.of_nat (length (chars (script_hex (scriptPubKey o)))) < two64 - 64.

Lemma hex_code_length hex : Z.of_nat (length (hex_code hex)) = 4 * Z.of_nat (length (chars hex)).
Proof.
  unfold hex_code. rewrite map_map. induction (chars hex) as [|c l IH]; [done|].
  cbn [map concat length]. rewrite length_app, length_Zbits. lia.
Qed.

Lemma makeHexString_result hex b :
  4 * Z.of_nat (length (chars hex)) < two64 - 64 -> makeHexString hex = Ok b -> wf b /\ fits b.
Proof.
  intros Hl H. destruct (decide (Forall BitIOBest.is_hex (chars hex))) as [Hx|Hx].
  - destruct (built_rest _ _ (makeHexString_built hex Hx)) as (r & Hr & Hw & _ & _ & Hlen).
    rewrite H in Hr. injection Hr as <-. split; [done|]. unfold fits. rewrite Hlen, hex_code_length. lia.
  - destruct (makeHexString_error hex Hx) as [e He]. congruence.
Qed.

(** The header reader moves the cursor of the data stream only. *)
Lemma reader_header d : reader d 0 read_header.
Proof.
  apply (reader_weaken d (16 + 0)); [|lia]. apply reader_bind; [by apply reader_getBits|]. intros magic.
  apply reader_if; [apply reader_ret|]. apply (reader_weaken d (8 + 0)); [|lia].
  apply reader_bind; [by apply reader_getBits|]. intros version. apply (reader_weaken d (8 + 0)); [|lia].
  apply reader_bind; [by apply reader_getBits|]. intros opcode. apply reader_ret.
Qed.

Lemma decodeAssetTxHeader_stream txData version opcode b :
  Forall script_fits (vout txData) -> decodeAssetTxHeader txData = Ok (version, opcode, b) -> wf b /\ fits b.
Proof.
  intros Hs H. unfold decodeAssetTxHeader in H. cbv zeta in H.
  destruct (_ =? -1); [injection H as _ _ <-; split; [apply wf_empty|reflexivity]|].
  apply outcome_ok_inv in H as (o & Ho & H). apply outcome_ok_inv in H as (script & Hm & H).
  assert (script_fits o) as Hfits.
  { unfold vec_at in Ho. destruct (0 <=? _); [|done]. destruct (vout txData !! _) as [o'|] eqn:E; [|done].
    injection Ho as <-. by eapply Forall_lookup_1. }
  apply makeHexString_result in Hm as [Hw Hf]; [|exact Hfits].
  destruct (_ <? _); [by injection H as _ _ <-|]. apply outcome_ok_inv in H as (data & Hd & H).
  destruct data as [d|]; [|by injection H as _ _ <-]. unfold local in Hd.
  destruct (op_return_data script) as [o1 b1] eqn:E. cbn [fst] in Hd. subst o1.
  apply op_return_data_result in E as [Hwd Hfd]; [|done..].
  destruct (reader_header true d Hwd Hfd) as (r & p & Hr & Hp & _). rewrite Hr in H.
  apply outcome_ok_inv in H as ([v op] & -> & [= _ _ <-]). split; [by apply wf_set_position|done].
Qed.

(** ** What decoding a transfer leaves on the outputs *)
Definition held_by (k : Z) (utxos : list AssetUTXO) : Z := held k (concat (map assets utxos)).

Lemma held_in_inputs k ia : held_in k (input_assets ia) = held_by k ia.
Proof.
  unfold held_in, input_assets, held_by. induction (map assets ia) as [|l ls IH]; [done|].
  rewrite filter_cons. case_decide as H; cbn [concat]; rewrite ?held_app, ?IH; [done|].
  assert (l = []) as -> by (by destruct l). done.
Qed.

Definition counts_ok (utxos : list AssetUTXO) : Prop := Forall count_ok (concat (map assets utxos)).

Lemma inputs_ok_counts ia : counts_ok ia -> inputs_ok (input_assets ia).
Proof.
  unfold counts_ok, inputs_ok, input_assets. induction (map assets ia) as [|l ls IH]; [done|]. cbn [concat].
  intros [Hl Hls]%Forall_app. rewrite filter_cons. case_decide; [|by apply IH]. cbn [concat].
  apply Forall_app. split; [done|by apply IH].
Qed.

Lemma held_by_nonneg k utxos : counts_ok utxos -> 0 <= held_by k utxos.
Proof. apply held_nonneg. Qed.

Section transfer.
Context `{db : Sqlite}.

(** The decoders never change the inputs. *)
Lemma decodeAssetTransfer_inputs b ia type t :
  _inputs (snd (decodeAssetTransfer b ia type t)) = _inputs t.
Proof.
  unfold decodeAssetTransfer, mbind, M_bind.
  assert (_inputs (snd (route_assets b ia type t)) = _inputs t) as H1.
  { unfold route_assets. unfold mbind at 1, M_bind at 1, get, on_transfer. 
    match goal with |- context [let '(_, _) := ?m in _] => by destruct m end. }
  destruct (route_assets b ia type t) as [[[]|e| |] t1]; cbn [snd] in *; try done.
  assert (snd (when (negb (type =? DIGIASSET_ISSUANCE)) tx_checkRulesPass t1) = t1) as Hs
    by (destruct (negb _); [apply tx_checkRulesPass_state|done]).
  destruct (when _ _ t1) as [[[]|e| |] t2]; cbn [snd] in *; subst t2; try done.
  cbn [modify snd]. unfold clear_op_returns. by case_match.
Qed.

Lemma transfer_handler_inputs e t : _inputs (snd (transfer_handler e t)) = _inputs t.
Proof. unfold transfer_handler. destruct (is_RuleFailed e); [done|]. destruct (is_DigiAsset_exception e); [done|by destruct e]. Qed.

Lemma decodeAssetTransfer_bound b ia type t :
  wf b -> fits b -> counts_ok ia -> (forall k, held_by k ia < two64) ->
  concat (map assets (_outputs t)) = [] ->
  forallb range_fits (instructions (S (unread b)) (footer_bits type) b) = true ->
  outputs_bounded (fun k => held_by k ia) (_outputs (snd (decodeAssetTransfer b ia type t))).
Proof.
  intros Hw Hf Hc HT Ho Hall. assert (inputs_ok (input_assets ia)) as Hi by by apply inputs_ok_counts.
  assert (forall k, held_in k (input_assets ia) < two64) as HT' by (intros k; by rewrite held_in_inputs).
  assert (Forall (fun i => range_fits i = true) (instructions (S (unread b)) (footer_bits type) b)) as Hall'
    by (apply Forall_forall; intros i Hin; rewrite forallb_forall in Hall; by apply Hall, list_elem_of_In).
  pose proof (route_assets_bound b ia type t Hw Hf Hi HT' Ho Hall') as [Hb _].
  pose proof (route_assets_delivers b ia type t) as Hd.
  assert (outputs_bounded (fun k => held_by k ia) (_outputs (snd (route_assets b ia type t)))) as Hb'
    by (intros k; rewrite <- (held_in_inputs k ia); apply Hb).
  unfold decodeAssetTransfer, mbind, M_bind.
  destruct (route_assets b ia type t) as [[[]|e| |] t1]; cbn [snd] in *; try done.
  destruct (Hd t1 Hw Hf Hi HT' Ho Hall' eq_refl) as ((Hok & _) & _). clear Hd.
  assert (snd (when (negb (type =? DIGIASSET_ISSUANCE)) tx_checkRulesPass t1) = t1) as Hs
    by (destruct (negb _); [apply tx_checkRulesPass_state|done]).
  destruct (when _ _ t1) as [[[]|e| |] t2]; cbn [snd] in *; subst t2; try done.
  intros k. pose proof (clear_op_returns_held k t1 Hok). specialize (Hb' k). cbn [modify snd] in *. cbv beta in Hb'. lia.
Qed.

Lemma transfer_handler_bound T e t :
  (forall k, 0 <= T k) -> outputs_bounded T (_outputs t) ->
  outputs_bounded T (_outputs (snd (transfer_handler e t))).
Proof.
  intros HT Hb. unfold transfer_handler. destruct (is_RuleFailed e).
  - intros k. unfold held_out. replace (concat _) with (@nil DigiAsset) by (symmetry; apply (concat_clear (_outputs t))). apply HT.
  - destruct (is_DigiAsset_exception e); [done|]. by destruct e.
Qed.

(** The transaction issues nothing and its range instructions do not wrap. *)
Definition plain_header (txData : getrawtransaction_t) : Prop :=
  forall version opcode b, decodeAssetTxHeader txData = Ok (version, opcode, b) ->
    (opcode = 0 \/ 16 <= opcode) /\ forallb range_fits (instructions (S (unread b)) 0 b) = true.

(** The state keeps its inputs and what is placed is covered by them. *)
Definition covered (inputs : list AssetUTXO) (s : loading) : Prop :=
  _inputs (tx s) = inputs
  /\ ((forall k, held_by k inputs < two64) -> outputs_bounded (fun k => held_by k inputs) (_outputs (tx s))).

Lemma covered_empty s inputs :
  counts_ok inputs -> _inputs (tx s) = inputs -> concat (map assets (_outputs (tx s))) = [] -> covered inputs s.
Proof. intros Hc Hi Ho. split; [done|]. intros _ k. unfold held_out. rewrite Ho. by apply held_by_nonneg. Qed.

Lemma decodeAssetTX_covered txData s :
  Forall script_fits (vout txData) -> plain_header txData ->
  counts_ok (_inputs (tx s)) -> concat (map assets (_outputs (tx s))) = [] ->
  covered (_inputs (tx s)) (snd (decodeAssetTX txData s)).
Proof.
  intros Hs Hp Hc Ho. unfold decodeAssetTX. unfold mbind at 1, M_bind at 1, lift at 1.
  destruct (decodeAssetTxHeader txData) as [[[version opcode] b]|e| |] eqn:Hh; try by apply covered_empty.
  destruct (Hp _ _ _ Hh) as [Hop Hall]. apply decodeAssetTxHeader_stream in Hh as [Hw Hf]; [|done].
  unfold mbind at 1, M_bind at 1, set_tx at 1, on_tx at 1, modify.
  set (s1 := mk_loading (set_version version (tx s)) (stored s) (watched s)).
  assert (concat (map assets (_outputs (tx s1))) = []) as Ho1 by exact Ho.
  assert (covered (_inputs (tx s)) s1) as Hstay by by apply covered_empty.
  destruct (Z.eqb_spec opcode 0); [exact Hstay|].
  destruct (Z.ltb_spec opcode 16); [lia|]. destruct (opcode <? 48); [|exact Hstay].
  destruct (negb _); [exact Hstay|]. unfold mbind at 1, M_bind at 1, get at 1.
  destruct (negb (_assetFound (tx s1))); [exact Hstay|].
  set (type := if 0x20 <=? opcode then DIGIASSET_BURN else DIGIASSET_TRANSFER).
  assert (footer_bits type = 0) as Hft by (unfold type; by destruct (_ <=? _)). rewrite <- Hft in Hall.
  pose proof (fun HT => decodeAssetTransfer_bound b (_inputs (tx s1)) type (tx s1) Hw Hf Hc HT Ho1 Hall) as Hb.
  pose proof (decodeAssetTransfer_inputs b (_inputs (tx s1)) type (tx s1)) as Hi.
  unfold on_tx, try_catch. unfold mbind at 1, M_bind at 1, get at 1. unfold mbind at 1, M_bind at 1.
  destruct (decodeAssetTransfer b (_inputs (tx s1)) type (tx s1)) as [[[]|e| |] t1]; cbn [snd] in Hb, Hi.
  2: { pose proof (fun HT => transfer_handler_bound _ e t1 (fun k => held_by_nonneg k _ Hc) (Hb HT)) as Hb'.
       pose proof (transfer_handler_inputs e t1) as Hi'.
       destruct (transfer_handler e t1) as [o t2]. split; [etransitivity; [exact Hi'|exact Hi]|exact Hb']. }
  all: by split.
Qed.
End transfer.

(** ** The other decoders leave inputs and outputs alone *)
Definition quiet {A} (m : M DigiByteTransaction A) : Prop :=
  forall t, _inputs (snd (m t)) = _inputs t /\ _outputs (snd (m t)) = _outputs t.

Create HintDb quiet.

Lemma quiet_bind {A B} (m : M DigiByteTransaction A) (f : A -> M DigiByteTransaction B) :
  quiet m -> (forall a, quiet (f a)) -> quiet (m ≫= f).
Proof.
  intros Hm Hf t. unfold mbind, M_bind. destruct (Hm t) as [H1 H2].
  destruct (m t) as [[a|e| |] t1]; cbn [snd] in *; try done. destruct (Hf a t1) as [-> ->]. done.
Qed.
Lemma quiet_ret {A} (a : A) : quiet (mret a).
Proof. done. Qed.
Lemma quiet_get : quiet get.
Proof. done. Qed.
Lemma quiet_lift {A} (o : outcome A) : quiet (lift o).
Proof. done. Qed.
Lemma quiet_vec_at {A} (l : list A) i : quiet (vec_at l i).
Proof. unfold vec_at. by repeat case_match. Qed.
Lemma quiet_modify f : (forall t, _inputs (f t) = _inputs t /\ _outputs (f t) = _outputs t) -> quiet (modify f).
Proof. intros H t. apply H. Qed.
#[export] Hint Resolve quiet_ret quiet_get quiet_lift quiet_vec_at : quiet.

(** Walk through a decoder: every step is a look-up, an exception or a field
    that is neither the inputs nor the outputs. *)
Ltac quiet_steps :=
  repeat first
    [ solve [auto with quiet]
    | apply quiet_bind; [|intros ?]
    | apply quiet_modify; intros ?; done
    | progress cbv beta zeta
    | case_match ].

Section decoders.
Context (txData : getrawtransaction_t).

Lemma quiet_decodeExchangeRate `{db : Sqlite} dataIndex : quiet (decodeExchangeRate txData dataIndex).
Proof. unfold decodeExchangeRate. quiet_steps. Qed.

Lemma quiet_decodeKYC `{db : Sqlite} dataIndex : quiet (decodeKYC txData dataIndex).
Proof. unfold decodeKYC. quiet_steps. Qed.

Lemma quiet_decodeEncryptedKeyTx dataIndex : quiet (decodeEncryptedKeyTx txData dataIndex).
Proof. unfold decodeEncryptedKeyTx. quiet_steps. Qed.

Lemma quiet_storeUnknown dataIndex : quiet (storeUnknown txData dataIndex).
Proof. unfold storeUnknown. quiet_steps. Qed.

Lemma quiet_decodeDigiDollar : quiet (decodeDigiDollar txData).
Proof. unfold decodeDigiDollar, record_mint. quiet_steps. Qed.

Lemma quiet_may_need_input_processing : quiet (may_need_input_processing txData).
Proof. unfold may_need_input_processing. quiet_steps. Qed.
End decoders.

(** ** Loading *)

(** Nothing placed yet, and the counts of the inputs are those of the store. *)
Definition unplaced (s : loading) : Prop :=
  counts_ok (_inputs (tx s)) /\ concat (map assets (_outputs (tx s))) = [].

Definition no_inflation (s : loading) : Prop :=
  (forall k, held_by k (_inputs (tx s)) < two64) ->
  forall k, held_by k (_outputs (tx s)) <= held_by k (_inputs (tx s)).

Lemma unplaced_no_inflation s : unplaced s -> no_inflation s.
Proof. intros [Hc Ho] _ k. unfold held_by at 1. rewrite Ho. by apply held_by_nonneg. Qed.

(** [m] takes [I] to [J] however it ends. *)
Definition leads {A} (I : loading -> Prop) (m : M loading A) (J : loading -> Prop) : Prop :=
  forall s, I s -> J (snd (m s)).

Lemma leads_bind {A B} I I' J (m : M loading A) (f : A -> M loading B) :
  leads I m I' -> (forall s, I' s -> J s) -> (forall a, leads I' (f a) J) -> leads I (m ≫= f) J.
Proof.
  intros Hm HJ Hf s Hs. unfold mbind, M_bind. specialize (Hm s Hs).
  destruct (m s) as [[a|e| |] s1]; cbn [snd] in *; [by apply Hf|by apply HJ..].
Qed.

Lemma leads_keep {A} I (m : M loading A) : (forall s, snd (m s) = s) -> leads I m I.
Proof. intros H s Hs. by rewrite H. Qed.

(** Both predicates are about the inputs and the outputs. *)
Definition about_assets (I : loading -> Prop) : Prop :=
  forall s s', _inputs (tx s') = _inputs (tx s) -> _outputs (tx s') = _outputs (tx s) -> I s -> I s'.

Lemma unplaced_about : about_assets unplaced.
Proof. intros s s' Hi Ho. unfold unplaced. by rewrite Hi, Ho. Qed.
Lemma no_inflation_about : about_assets no_inflation.
Proof. intros s s' Hi Ho. unfold no_inflation. by rewrite Hi, Ho. Qed.

Lemma leads_quiet {A} I (m : M DigiByteTransaction A) : about_assets I -> quiet m -> leads I (on_tx m) I.
Proof.
  intros HI Hm s Hs. unfold on_tx. destruct (Hm (tx s)) as [H1 H2].
  destruct (m (tx s)) as [o t]. cbn [snd] in *. by apply (HI s).
Qed.

Section loading.
Context (db : Sqlite).

(** *** The inputs *)
Lemma read_rows_counts rows u u' :
  Forall count_ok (assets u) -> read_rows rows u = Ok u' -> Forall count_ok (assets u').
Proof.
  revert u; induction rows as [|r rows IH]; intros u Hu H; cbn [read_rows] in H; [by injection H as <-|].
  destruct (_ =? 1); [by apply IH in H|]. apply outcome_ok_inv in H as (a & Ha & H).
  apply IH in H; [done|]. cbn [assets set_assets]. apply Forall_app. split; [done|]. constructor; [|done].
  apply getAsset_units in Ha as [_ Ha]. unfold getCount in Ha. unfold count_ok. rewrite Ha. apply u64_range.
Qed.

Lemma getAssetUTXO_counts txid vout h s u s' :
  getAssetUTXO txid vout h s = (Ok u, s') -> Forall count_ok (assets u).
Proof.
  unfold getAssetUTXO. intros H. apply bind_ok_inv in H as (blob & s1 & H1 & H).
  apply bind_ok_inv in H as (s2 & s3 & H2 & H). destruct (stmtGetAssetUTXO _ _ _) as [|r rows].
  - cbv zeta in H. unfold utxo_from_core, mbind, M_bind, outcome_bind, put, lift, mret, M_ret in H.
    repeat case_match; simplify_eq/=; constructor.
  - unfold lift in H. injection H as H _. exact (read_rows_counts (r :: rows) (mk_AssetUTXO _ _ _ _ []) u (Forall_nil_2 _) H).
Qed.

Lemma leads_copy_inputs vins height : leads unplaced (copy_inputs db vins height) unplaced.
Proof.
  unfold copy_inputs. induction (spent_inputs vins) as [|input l IH]; [by intros s|]. cbn [for_each].
  eapply leads_bind; [|done|intros []; exact IH]. intros s [Hc Ho]. unfold mbind, M_bind, on_store.
  destruct (getAssetUTXO _ _ _ _) as [[u|e| |] st] eqn:E; [|done..].
  apply getAssetUTXO_counts in E. split; [|cbn; by case_match].
  cbn [set_tx on_tx modify snd tx set_inputs _inputs]. unfold counts_ok.
  replace (_inputs (if is_empty (assets u) then _ else _)) with (_inputs (tx s)) by by destruct (is_empty _).
  rewrite map_app, concat_app. apply Forall_app. split; [done|]. cbn. by rewrite app_nil_r.
Qed.

(** *** The decoders *)

Lemma leads_decodeAssetTX `{db' : Sqlite} txData :
  Forall script_fits (vout txData) -> plain_header txData -> leads unplaced (decodeAssetTX txData) no_inflation.
Proof.
  intros Hs Hp s [Hc Ho] HT k. destruct (decodeAssetTX_covered txData s Hs Hp Hc Ho) as [Hi Hb].
  rewrite Hi in *. by apply Hb.
Qed.

Lemma leads_decode_type txData dataIndex :
  Forall script_fits (vout txData) -> plain_header txData ->
  leads unplaced (decode_type db txData dataIndex) no_inflation.
Proof.
  intros Hs Hp. unfold decode_type. pose proof unplaced_no_inflation as Hu.
  apply (leads_bind _ unplaced); [by intros s|done|intros st]. cbv zeta.
  apply (leads_bind _ unplaced); [apply leads_quiet; [apply unplaced_about|apply quiet_decodeKYC]|done|].
  intros []; [by intros s ?; apply Hu|].
  apply (leads_bind _ unplaced); [apply leads_quiet; [apply unplaced_about|apply quiet_decodeExchangeRate]|done|].
  intros []; [by intros s ?; apply Hu|].
  apply (leads_bind _ unplaced); [apply leads_quiet; [apply unplaced_about|apply quiet_decodeEncryptedKeyTx]|done|].
  intros []; [by intros s ?; apply Hu|].
  apply (leads_bind _ no_inflation); [by apply leads_decodeAssetTX|done|].
  intros []; [by intros s|]. apply leads_quiet; [apply no_inflation_about|apply quiet_storeUnknown].
Qed.

Lemma leads_set_tx f I J : (forall s t, t = f (tx s) -> I s -> J (mk_loading t (stored s) (watched s))) -> leads I (set_tx f) J.
Proof. intros H s Hs. by apply H. Qed.

Lemma no_assets_outputs txData : concat (map assets (map (output_of txData) (vout txData))) = [].
Proof. induction (vout txData) as [|o l IH]; [done|exact IH]. Qed.

Lemma leads_load_transaction txData height special :
  Forall script_fits (vout txData) -> plain_header txData ->
  leads unplaced (load_transaction db txData height special) no_inflation.
Proof.
  intros Hs Hp. unfold load_transaction. pose proof unplaced_no_inflation as Hu.
  apply (leads_bind _ unplaced); [apply leads_set_tx; by intros s t -> [Hc Ho]|done|intros _].
  apply (leads_bind _ unplaced); [|done|intros process].
  { destruct special; [|by intros s]. apply leads_quiet; [apply unplaced_about|apply quiet_may_need_input_processing]. }
  destruct (negb process).
  - apply (leads_bind _ unplaced); [|done|intros _; intros s Hun; apply Hu; by destruct Hun].
    apply leads_set_tx. intros s t -> [Hc Ho]. split; [|done]. cbn [tx _inputs set_inputs]. unfold counts_ok.
    rewrite map_app, concat_app. apply Forall_app. split; [done|]. by induction (spent_inputs (vin txData)).
  - apply (leads_bind _ unplaced); [apply leads_set_tx; by intros s t -> [Hc Ho]|done|intros _].
    apply (leads_bind _ unplaced); [apply leads_copy_inputs|done|intros _].
    apply (leads_bind _ unplaced); [|done|intros _].
    { apply leads_set_tx. intros s t -> [Hc Ho]. split; [done|]. cbn [tx _outputs set_outputs].
      by rewrite map_app, concat_app, Ho, no_assets_outputs. }
    apply (leads_bind _ unplaced); [apply leads_quiet; [apply unplaced_about|apply quiet_decodeDigiDollar]|done|].
    intros []; [by intros s ?; apply Hu|]. cbv zeta.
    destruct (_ =? -1); [by intros s ?; apply Hu|]. by apply leads_decode_type.
Qed.
End loading.

(** C2: Loading a transaction from the chain creates no assets. For every
    transaction that is not an issuance and whose range instructions do not
    wrap, every state of the outputs store and every database, the outputs hold
    at most as many units of each asset as the inputs the store returned: after
    a normal end, and also in the object that is left when a decoder throws, a
    rule fails or a look-up fails. *)
Theorem load_no_inflation (db : Sqlite) (txData : getrawtransaction_t) (height : Z) (dontBotherIfNotSpecial : bool)
    (st : store) (watch : list string) :
  Forall script_fits (vout txData) -> plain_header txData ->
  let t := tx (snd (load_transaction db txData height dontBotherIfNotSpecial
                      (mk_loading (DigiByteTransaction_default 0) st watch))) in
  (forall k, held_by k (_inputs t) < two64) ->
  forall k, held_by k (_outputs t) <= held_by k (_inputs t).
Proof.
  intros Hs Hp t. apply leads_load_transaction; [done..|]. split; [constructor|done].
Qed.

(** *** A concrete chain *)
Definition paid (n : Z) (address : string) : vout_t := mk_vout 700 n (mk_scriptPubKey "" "pubkeyhash" [address]).
Definition chain_tx (script : string) : getrawtransaction_t :=
  mk_getrawtransaction "0a" 1 "" 0 [mk_vin "00ff" 1 "" []]
    [paid 0 "x"; mk_vout 0 1 (mk_scriptPubKey script "nulldata" []); paid 2 "y"].
Definition chain_store : store :=
  snd (createUTXO (db := chain_db true) (chain_utxo [chain_asset 50]) 120 false (mk_store [] ∅ ∅)).

(** Output 0 gets 4 of 50 units, the last output the change. *)
Lemma load_no_inflation_witness :
  let t := tx (snd (load_transaction (chain_db true) (chain_tx "6a06444103150004") 130 true
                      (mk_loading (DigiByteTransaction_default 0) chain_store []))) in
  _txType t = DIGIASSET_TRANSFER /\ map (fun u => map getCount (assets u)) (_outputs t) = [[4]; []; [46]]
  /\ held_by 7 (_outputs t) <= held_by 7 (_inputs t).
Proof.
  intros t. split; [vm_compute; reflexivity|]. split; [vm_compute; reflexivity|].
  apply (load_no_inflation (chain_db true) (chain_tx "6a06444103150004") 130 true chain_store []).
  - repeat constructor.
  - intros version opcode b H. assert (exists b', decodeAssetTxHeader (chain_tx "6a06444103150004") = Ok (3, 21, b')
      /\ forallb range_fits (instructions (S (unread b')) 0 b') = true) as (b' & E & Hall)
      by (eexists; split; [vm_compute; reflexivity|vm_compute; reflexivity]).
    rewrite E in H. injection H as <- <- <-. split; [lia|exact Hall].
  - intros k. assert (map getCount (concat (map assets (_inputs t))) = [50]) as E by (vm_compute; reflexivity).
    fold t. unfold held_by. destruct (concat _) as [|a [|]]; [done| |done]. injection E as E. cbn. unfold units.
    case_match; [|done]. unfold getCount in E. by rewrite E.
Defined.
