(* ===== verification/TransactionBuilder.v ===== *)
(** TransactionBuilder: building a new asset transaction and encoding its
    OP_RETURN (the builder half of src/src/DigiByteTransaction.cpp). *)

From S2P Require Import Prelude.
From S2P Require Import BitIO.
From S2P Require Import BitIOCodec.
From S2P Require Import OpReturn.
From S2P Require Import AssetTypes.
From S2P Require Import DigiAssetRules.
From S2P Require Import Cid.
From S2P Require Import DigiAsset.
From S2P Require Import DigiByteTransaction.

Ltac Zify.zify_post_hook ::= Z.div_mod_to_equations.

(** ** Building *)
Definition isWritable (t : DigiByteTransaction) : bool := bool_decide (_txid t = ""%string).

Definition refuse {S A} (message : string) : M S A := throw (tx_exception message).

Definition checkWritable : M DigiByteTransaction unit :=
  t ← get;
  if negb (isWritable t) then refuse "Transaction is already on chain and can not be modified" else mret tt.

Definition addInput (utxo : AssetUTXO) : M DigiByteTransaction unit :=
  checkWritable;;
  t ← get;
  if (_txType t =? DIGIASSET_ISSUANCE) && negb (is_empty (assets utxo)) then
    refuse "Asset bearing inputs can not be used in an issuance(they would be burned)"
  else
    modify (fun t => set_inputs (_inputs t ++ [utxo]) t);;
    when (negb (is_empty (assets utxo)))
      (modify (set_assetFound true);;
       when (_txType t =? STANDARD) (modify (set_txType DIGIASSET_TRANSFER))).

Definition setIssuance (asset : DigiAsset) : M DigiByteTransaction unit :=
  checkWritable;;
  t ← get;
  if _assetFound t then refuse "Asset bearing inputs can not be used in an issuance(they would be burned)"
  else modify (set_newAsset asset);; modify (set_txType DIGIASSET_ISSUANCE).

Definition addAssetBurn (burns : list DigiAsset) : M DigiByteTransaction unit :=
  checkWritable;;
  t ← get;
  if negb (_assetFound t) then refuse "Add the asset bearing inputs before declaring burns"
  else if _txType t =? DIGIASSET_ISSUANCE then refuse "Issuances can not burn assets"
  else
    for_each burns (fun asset =>
      if getCount asset =? 0 then refuse "Can not burn 0 of an asset"
      else modify (fun t => set_burns (_burns t ++ [asset]) t));;
    modify (set_txType DIGIASSET_BURN).

Definition push_output (address : string) (amount : Z) (l : list DigiAsset) : M DigiByteTransaction unit :=
  modify (fun t => set_outputs
    (_outputs t ++ [mk_AssetUTXO "" (u16 (Z.of_nat (length (_outputs t)))) address amount l]) t).

Definition addDigiByteOutput (address : string) (amount : Z) : M DigiByteTransaction unit :=
  checkWritable;;
  if bool_decide (address = ""%string) then refuse "Output address can not be blank"
  else push_output address amount [].

Definition addDigiAssetOutput (address : string) (l : list DigiAsset) : M DigiByteTransaction unit :=
  checkWritable;;
  t ← get;
  if bool_decide (address = ""%string) then refuse "Output address can not be blank"
  else if is_empty l then refuse "Asset output must contain at least 1 asset"
  else if (31 <? length (_outputs t))%nat then refuse "Asset outputs must be within the first 32 outputs"
  else if existsb (fun asset => getCount asset =? 0) l then refuse "Asset output can not contain 0 of an asset"
  else push_output address DIGIBYTE_DUST l.

Definition addRuleOutputs : M DigiByteTransaction unit :=
  checkWritable;;
  t ← get;
  if negb (_txType t =? DIGIASSET_ISSUANCE) then refuse "Rule outputs only apply to issuances"
  else if _ruleOutputsAdded t then refuse "Rule outputs already added"
  else
    required ← lift (getRequiredOutputs (_rules (_newAsset t)));
    modify (set_ruleOutputs (Z.of_nat (length (_outputs t))));;
    for_each required (fun output => addDigiByteOutput (ro_address output) (sats output)).

(** ** Transfer instructions *)

(** skip, range and percent clear, five bits of output, the amount. *)
Definition append_instruction (output : nat) (amount : Z) : M BitIO unit :=
  appendBits 0 3;; appendBits (Z.of_nat output) 5;; appendFixedPrecision amount.

(** Route [remaining] units of [chunk] to the wants of output [o]; returns the
    wants and the units left. *)
Fixpoint assign_wants (type : Z) (o : nat) (chunk : DigiAsset) (wants : list DigiAsset) (remaining : Z)
    : M BitIO (list DigiAsset * Z) :=
  match wants with
  | [] => mret ([], remaining)
  | want :: wants =>
      if (getCount want =? 0) || negb (_assetIndex want =? _assetIndex chunk) then
        '(wants, remaining) ← assign_wants type o chunk wants remaining; mret (want :: wants, remaining)
      else
        let take := Z.min remaining (getCount want) in
        if (31 <? o)%nat then refuse "Asset outputs must be within the first 32 outputs"
        else if (o =? 31)%nat && (type =? DIGIASSET_BURN) then
          refuse "Output 31 is reserved for the burn marker in burn transactions"
        else
          append_instruction o take;;
          let want := setCount (u64 (getCount want - take)) want in
          let remaining := remaining - take in
          if remaining =? 0 then mret (want :: wants, remaining)
          else '(wants, remaining) ← assign_wants type o chunk wants remaining; mret (want :: wants, remaining)
  end.

(** All outputs from [o] on, while units are left. *)
Fixpoint assign_outputs (type : Z) (o : nat) (chunk : DigiAsset) (desired : list (list DigiAsset)) (remaining : Z)
    : M BitIO (list (list DigiAsset) * Z) :=
  match desired with
  | [] => mret ([], remaining)
  | wants :: rest =>
      if remaining <=? 0 then mret (desired, remaining)
      else
        '(wants, remaining) ← assign_wants type o chunk wants remaining;
        '(rest, remaining) ← assign_outputs type (S o) chunk rest remaining;
        mret (wants :: rest, remaining)
  end.

(** What is declared for burning goes to output 31. *)
Fixpoint assign_burns (chunk : DigiAsset) (burns : list DigiAsset) (remaining : Z)
    : M BitIO (list DigiAsset * Z) :=
  match burns with
  | [] => mret ([], remaining)
  | burn :: rest =>
      if remaining =? 0 then mret (burns, remaining)
      else if (getCount burn =? 0) || negb (_assetIndex burn =? _assetIndex chunk) then
        '(rest, remaining) ← assign_burns chunk rest remaining; mret (burn :: rest, remaining)
      else
        let take := Z.min remaining (getCount burn) in
        append_instruction 31 take;;
        '(rest, remaining) ← assign_burns chunk rest (remaining - take);
        mret (setCount (u64 (getCount burn - take)) burn :: rest, remaining)
  end.

(** One chunk of the inputs. *)
Definition assign_chunk (type : Z) (chunk : DigiAsset) (desired : list (list DigiAsset)) (burns : list DigiAsset)
    : M BitIO (list (list DigiAsset) * list DigiAsset) :=
  '(desired, remaining) ← assign_outputs type 0 chunk desired (getCount chunk);
  '(burns, remaining) ← assign_burns chunk burns remaining;
  if 0 <? remaining then refuse "Input assets not fully assigned to outputs.  Add an asset change output"
  else mret (desired, burns).

Fixpoint assign_chunks (type : Z) (chunks : list DigiAsset) (desired : list (list DigiAsset)) (burns : list DigiAsset)
    : M BitIO (list (list DigiAsset) * list DigiAsset) :=
  match chunks with
  | [] => mret (desired, burns)
  | chunk :: chunks =>
      '(desired, burns) ← assign_chunk type chunk desired burns;
      assign_chunks type chunks desired burns
  end.

Definition source_inputs (t : DigiByteTransaction) : list (list DigiAsset) :=
  if _txType t =? DIGIASSET_ISSUANCE then [[_newAsset t]] else input_assets (_inputs t).

Definition wanted (l : list DigiAsset) : bool := existsb (fun want => 0 <? getCount want) l.

Definition buildTransferInstructions (t : DigiByteTransaction) : M BitIO unit :=
  let inputs := source_inputs t in
  if is_empty inputs then refuse "No assets to build transfer instructions for"
  else
    '(desired, burns) ← assign_chunks (_txType t) (concat inputs) (map assets (_outputs t)) (_burns t);
    if wanted (concat desired) then refuse "Output requests more assets than inputs provide"
    else if wanted burns then refuse "Burn requests more assets than inputs provide"
    else mret tt.

(** ** The OP_RETURN payload *)
Definition issuance_opcode (t : DigiByteTransaction) (rules : DigiAssetRules) (hasMetaData : bool) : M BitIO unit :=
  if empty rules then appendBits (if hasMetaData then 0x01 else 0x05) 8
  else if negb hasMetaData then
    refuse "Assets with rules require metadata(rule op codes 3 and 4 always carry a metadata hash)"
  else if negb (_ruleOutputsAdded t) then
    refuse "Call addRuleOutputs() before encoding an issuance with rules"
  else appendBits (if isRewritable rules then 0x03 else 0x04) 8.

Definition append_issuance (t : DigiByteTransaction) : M BitIO unit :=
  let asset := _newAsset t in
  let rules := _rules asset in
  let hasMetaData := negb (bool_decide (_cid asset = ""%string)) in
  issuance_opcode t rules hasMetaData;;
  when hasMetaData (hash ← lift (cidToSha256 (_cid asset)); append_stream (makeHexString hash));;
  appendFixedPrecision (getCount asset);;
  when (negb (empty rules)) (DigiAssetRules.encode rules (_ruleOutputsStart t));;
  buildTransferInstructions t;;
  appendBits (getIssuanceFlags asset) 8.

Definition asset_op_return (t : DigiByteTransaction) : M BitIO unit :=
  appendBits 0x4441 16;;
  appendBits 3 8;;
  if _txType t =? DIGIASSET_ISSUANCE then append_issuance t
  else if (_txType t =? DIGIASSET_TRANSFER) || (_txType t =? DIGIASSET_BURN) then
    appendBits (if _txType t =? DIGIASSET_BURN then 0x25 else 0x15) 8;;
    buildTransferInstructions t
  else refuse "Transaction is not an asset transaction".

Definition encodeAssetOpReturn (t : DigiByteTransaction) : outcome string :=
  data ← exec (asset_op_return t;; modify (set_position 0)) empty_BitIO;
  local (getHexString (_length data / 4)) data.
