(* ===== verification/BuilderTheorems.v ===== *)
(** BuilderTheorems: the transfer instructions the builder writes are the ones
    the transfer engine needs to put the wanted assets on the wanted outputs. *)

From S2P Require Import Prelude.
From S2P Require Import BitIO.
From S2P Require Import BitIOBlocks.
From S2P Require Import BitStream.
From S2P Require Import BitIOCodec.
From S2P Require Import BitIOText.
From S2P Require Import BitIONumbers.

From S2P Require Import OpReturn.
From S2P Require Import AssetTypes.
From S2P Require Import DigiAssetRules.
From S2P Require Import RulesCodec.
From S2P Require Import RulesEncoder.
From S2P Require Import DigiAsset.
From S2P Require Import DigiByteTransaction.
From S2P Require Import Transfer.
From S2P Require Import TransferTheorems.
From S2P Require Import TransactionBuilder.

Ltac Zify.zify_post_hook ::= Z.div_mod_to_equations.

(** ** What the engine has left to route *)

(** [p] are the chunks not yet routed, in order: the engine's position is at an
    input that has chunks, or behind the last one. *)
Record pending (N : nat) (s : transferring) (p : list DigiAsset) : Prop := {
  pending_chunks : concat (drop (t_index s) (t_inputs s)) = p;
  pending_inputs : Forall (fun l => l <> []) (drop (t_index s) (t_inputs s));
  pending_done : concat (take (t_index s) (t_inputs s)) = [];
  pending_outputs : outputs_ok (t_outputs s);
  pending_length : (N <= length (t_outputs s))%nat;
  pending_ok : Forall count_ok p;
  pending_fits : forall k, held_out k (t_outputs s) + held k p < two64
}.

(** Units of the asset [k] on output [o]. *)
Definition held_at (k : Z) (o : nat) (outputs : list AssetUTXO) : Z :=
  match outputs !! o with Some u => held k (assets u) | None => 0 end.

(** A chunk with [n] units left; nothing if [n] is zero. *)
Definition rest_of (n : Z) (c : DigiAsset) (cs : list DigiAsset) : list DigiAsset :=
  if n =? 0 then cs else set_count n c :: cs.

(** [il] takes a chunk [c] from [n] to [n'] units and gives [D o] of them to
    output [o], whatever chunks follow. *)
Definition routed (type : Z) (N : nat) (c : DigiAsset) (n n' : Z) (D : nat -> Z) (il : list instruction) : Prop :=
  forall s cs, pending N s (rest_of n c cs) ->
  exists s', apply_all type il s = (Ok tt, s') /\ pending N s' (rest_of n' c cs)
    /\ forall k o, held_at k o (t_outputs s') = held_at k o (t_outputs s) + (if _assetIndex c =? k then D o else 0).

Lemma apply_all_app type il1 il2 s s1 :
  apply_all type il1 s = (Ok tt, s1) -> apply_all type (il1 ++ il2) s = apply_all type il2 s1.
Proof.
  revert s; induction il1 as [|i il1 IH]; intros s H; [by injection H as ->|].
  unfold apply_all in *. cbn [for_each app] in *. apply bind_ok_inv in H as ([] & s2 & H1 & H2).
  by rewrite (bind_ok _ _ _ _ _ H1), (IH _ H2).
Qed.

Lemma routed_nil type N c n D : (forall o, D o = 0) -> routed type N c n n D [].
Proof.
  intros HD s cs Hp. exists s. split_and!; [done|done|]. intros k o. rewrite HD. case_match; lia.
Qed.

Lemma routed_app type N c n n1 n2 D1 D2 D il1 il2 :
  routed type N c n n1 D1 il1 -> routed type N c n1 n2 D2 il2 -> (forall o, D o = D1 o + D2 o) ->
  routed type N c n n2 D (il1 ++ il2).
Proof.
  intros R1 R2 HD s cs Hp. destruct (R1 s cs Hp) as (s1 & H1 & P1 & A1).
  destruct (R2 s1 cs P1) as (s2 & H2 & P2 & A2). exists s2. split_and!; [|done|].
  - by rewrite (apply_all_app _ _ _ _ _ H1).
  - intros k o. rewrite A2, A1, HD. case_match; lia.
Qed.

(** ** One instruction of the builder *)
Definition send (o : nat) (amount : Z) : instruction := mk_instruction false false false o 0 amount.

(** The first pending chunk is the one the engine reads. *)
Lemma pending_source N s c cs :
  pending N s (c :: cs) -> exists chunks, t_inputs s !! t_index s = Some (c :: chunks)
    /\ cs = chunks ++ concat (drop (S (t_index s)) (t_inputs s)).
Proof.
  intros [Hc Hi _ _ _ _ _]. destruct (t_inputs s !! t_index s) as [l|] eqn:E.
  - rewrite (drop_S _ _ _ E) in Hc, Hi. apply Forall_cons in Hi as [Hne _].
    destruct l as [|x l]; [done|]. simpl in Hc. injection Hc as -> <-. eauto.
  - rewrite drop_ge in Hc; [done|]. by apply lookup_ge_None.
Qed.

(** Taking at most the first chunk. *)
Lemma take_assets_pending N s (n take : Z) c cs :
  0 < take <= n -> n < two64 -> pending N s (rest_of n c cs) ->
  exists s', take_assets (S (chunk_count (t_inputs s))) (set_count n c) take s = (Ok tt, s')
    /\ t_outputs s' = t_outputs s
    /\ concat (drop (t_index s') (t_inputs s')) = rest_of (n - take) c cs
    /\ Forall (fun l => l <> []) (drop (t_index s') (t_inputs s'))
    /\ concat (firstn (t_index s') (t_inputs s')) = [].
Proof.
  intros Ht Hn Hp. unfold rest_of in *. destruct (Z.eqb_spec n 0); [lia|].
  pose proof Hp as [Hc Hi Hd _ _ _ _]. destruct (pending_source _ _ _ _ Hp) as (chunks & Hl & ->).
  rewrite (drop_S _ _ _ Hl) in Hi. apply Forall_cons in Hi as [_ Hi].
  cbn [take_assets]. destruct (Z.leb_spec take 0); [lia|].
  unfold source, mbind at 1, M_bind at 1, get at 1. rewrite Hl. unfold mbind at 1, M_bind at 1, get at 1.
  unfold asset_eqb. rewrite Z.eqb_refl. cbn [negb]. change (getCount (set_count n c)) with n.
  destruct (Z.ltb_spec n take); [lia|]. cbn [andb].
  assert (t_index s < length (t_inputs s))%nat as Hlt by (by eapply lookup_lt_Some).
  destruct (Z.leb_spec n take) as [Hle|Hgt].
  - assert (take = n) as -> by lia. rewrite Z.sub_diag, Z.eqb_refl.
    assert (forall fuel a s1, take_assets fuel a (n - n) s1 = (Ok tt, s1)) as Hdone
      by (intros [|fuel] a s1; by rewrite Z.sub_diag).
    destruct chunks as [|x chunks]; cbn [is_empty].
    + eexists. split; [unfold mbind, M_bind, set_source, modify; by rewrite <- Z.sub_diag with (n := n), Hdone|].
      cbn [t_index t_inputs t_outputs]. rewrite drop_insert_lt by lia. split_and!; [done|done|done|].
      rewrite (take_S_r _ _ []) by (by apply list_lookup_insert_eq).
      by rewrite take_insert_ge, concat_app, Hd by lia.
    + eexists. split; [unfold mbind, M_bind, set_source, modify; by rewrite <- Z.sub_diag with (n := n), Hdone|].
      cbn [t_index t_inputs t_outputs].
      rewrite (drop_S _ (x :: chunks)) by (by apply list_lookup_insert_eq). rewrite drop_insert_lt by lia.
      split_and!; [done|done|by constructor|]. by rewrite take_insert_ge by lia.
  - destruct (Z.eqb_spec (n - take) 0); [lia|]. unfold removeCount, exec, mbind, M_bind, get, put, lift.
    cbn [set_count _count]. destruct (Z.ltb_spec n take); [lia|]. rewrite u64_small by lia.
    eexists. split; [reflexivity|]. cbn [t_index t_inputs t_outputs].
    erewrite drop_S by (by apply list_lookup_insert_eq). rewrite drop_insert_lt by lia.
    split_and!; [done|done|by constructor|]. by rewrite take_insert_ge by lia.
Qed.

Lemma apply_send type N c n take o s s1 cs :
  0 < take <= n -> n < two64 -> pending N s (rest_of n c cs) ->
  take_assets (S (chunk_count (t_inputs s))) (set_count n c) take s = (Ok tt, s1) ->
  apply_all type [send o take] s =
    (if is_burn type (send o take) then mret tt
     else if (length (t_outputs s1) <=? o)%nat then throw exceptionInvalidTransfer
     else on_outputs (for_each [o] (fun v => addAssetToOutput v (setCount take (set_count n c))))) s1.
Proof.
  intros Ht Hn Hp Htake. unfold rest_of in Hp. destruct (Z.eqb_spec n 0); [lia|].
  destruct (pending_source _ _ _ _ Hp) as (chunks & Hl & _).
  unfold apply_all. cbn [for_each]. unfold apply_instruction, source.
  unfold mbind at 1, M_bind at 1. unfold mbind at 1, M_bind at 1, get at 1. rewrite Hl.
  cbv beta zeta. unfold mbind at 1, M_bind at 1, get at 1.
  change (instruction_total (send o take) (instruction_amount (send o take) (set_count n c))) with take.
  change (instruction_amount (send o take) (set_count n c)) with take.
  rewrite (bind_ok _ _ _ _ _ Htake). destruct (Z.ltb_spec 0 take); [|lia]. cbn [when].
  change (i_skip (send o take)) with false. cbn [when]. change (i_output (send o take)) with o.
  unfold is_burn. change (i_range (send o take)) with false. change (i_output (send o take)) with o.
  change (instruction_outputs (send o take)) with [o].
  destruct ((type =? DIGIASSET_BURN) && negb false && (o =? 31)%nat); [done|].
  unfold mbind at 2, M_bind at 2, get at 1. unfold mbind, M_bind.
  destruct (_ <=? _)%nat; [done|]. by destruct (on_outputs _ s1) as [[[]| | |] s2].
Qed.

Lemma count_ok_set n c : 0 <= n < two64 -> count_ok (set_count n c).
Proof. done. Qed.

Lemma held_cons k a l : held k (a :: l) = units k a + held k l.
Proof. done. Qed.

Lemma held_rest n c cs k : held k (rest_of n c cs) = held k cs + (if _assetIndex c =? k then n else 0).
Proof. unfold rest_of. destruct (Z.eqb_spec n 0) as [->|]; [case_match; lia|]. simpl. unfold units. simpl. case_match; lia. Qed.

Lemma Forall_rest n n' c cs :
  0 <= n' < two64 -> 0 < n -> Forall count_ok (rest_of n c cs) -> Forall count_ok (rest_of n' c cs).
Proof.
  intros Hn' Hn. unfold rest_of. destruct (Z.eqb_spec n 0); [lia|]. intros [_ H]%Forall_cons.
  destruct (Z.eqb_spec n' 0); [done|]. by constructor.
Qed.

Lemma held_at_insert k o o' u l outputs :
  outputs !! o = Some u ->
  held_at k o' (<[o := set_assets l u]> outputs)
  = if (o' =? o)%nat then held k l else held_at k o' outputs.
Proof.
  intros Hu. unfold held_at. destruct (Nat.eqb_spec o' o) as [->|Hne].
  - rewrite list_lookup_insert_eq by (by eapply lookup_lt_Some). done.
  - by rewrite list_lookup_insert_ne by done.
Qed.

Lemma routed_send type N c n take o :
  0 < take <= n -> n < two64 -> (o < N)%nat -> is_burn type (send o take) = false ->
  routed type N c n (n - take) (fun o' => if (o' =? o)%nat then take else 0) [send o take].
Proof.
  intros Ht Hn Ho Hb s cs Hp.
  destruct (take_assets_pending N s n take c cs Ht Hn Hp) as (s1 & H1 & O1 & C1 & I1 & D1).
  rewrite (apply_send type N c n take o s s1 cs Ht Hn Hp H1), Hb, O1.
  pose proof Hp as [_ _ _ Hok Hlen Hcs Hfit].
  destruct (Nat.leb_spec (length (t_outputs s)) o); [lia|].
  destruct (lookup_lt_is_Some_2 (t_outputs s) o ltac:(lia)) as [u Hu].
  unfold on_outputs. rewrite O1. cbn [for_each]. unfold addAssetToOutput, mbind, M_bind, get, put. cbv beta iota. rewrite Hu.
  set (a := setCount take (set_count n c)). assert (_assetIndex a = _assetIndex c) as Ea by done.
  assert (count_ok a) as Ha by (unfold count_ok, a; simpl; lia).
  pose proof (held_output (_assetIndex c) (t_outputs s) o u Hok Hu) as Hle.
  pose proof (Hfit (_assetIndex c)) as Hfc. rewrite held_rest, Z.eqb_refl in Hfc.
  assert (0 <= held (_assetIndex c) cs) as Hcs0.
  { apply held_nonneg. unfold rest_of in Hcs. destruct (n =? 0); [done|]. by apply Forall_cons in Hcs as [_ ?]. }
  assert (received a (assets u) (place_asset a (assets u))) as Hrec.
  { apply received_place; [by eapply outputs_ok_lookup|done|]. unfold fits_with. rewrite Ea. simpl. lia. }
  destruct (outputs_plus_insert a (assets u) _ u o (t_outputs s) Hok Hu eq_refl Hrec) as (Ok' & L' & E').
  eexists. split; [reflexivity|]. cbn [t_outputs]. split.
  - constructor; cbn [t_outputs t_inputs t_index]; [done|done|done|done|lia| |].
    + eapply Forall_rest; [| |exact Hcs]; lia.
    + intros k. rewrite E', Ea. specialize (Hfit k). rewrite held_rest in *. change (_count a) with take.
      destruct (_assetIndex c =? k); lia.
  - intros k o'. rewrite (held_at_insert k o o' u _ _ Hu). destruct Hrec as [_ Hk]. rewrite Hk.
    unfold units. rewrite Ea. change (_count a) with take.
    destruct (Nat.eqb_spec o' o) as [->|]; [|case_match; lia]. unfold held_at. rewrite Hu. done.
Qed.

Lemma routed_burn N c n take :
  0 < take <= n -> n < two64 ->
  routed DIGIASSET_BURN N c n (n - take) (fun _ => 0) [send 31 take].
Proof.
  intros Ht Hn s cs Hp.
  destruct (take_assets_pending N s n take c cs Ht Hn Hp) as (s1 & H1 & O1 & C1 & I1 & D1).
  rewrite (apply_send DIGIASSET_BURN N c n take 31 s s1 cs Ht Hn Hp H1).
  pose proof Hp as [_ _ _ Hok Hlen Hcs Hfit]. exists s1. split; [reflexivity|]. rewrite O1. split.
  - constructor; rewrite ?O1; [done|done|done|done|done| |].
    + eapply Forall_rest; [| |exact Hcs]; lia.
    + intros k. specialize (Hfit k). rewrite held_rest in *. destruct (_assetIndex c =? k); lia.
  - intros k o. case_match; lia.
Qed.

(** ** The bits of an instruction *)
Definition builder_instruction (i : instruction) : Prop :=
  exists o take, i = send o take /\ (o < 32)%nat /\ fixed_ok take.
Definition send_code (i : instruction) : list bool :=
  Zbits 3 0 ++ Zbits 5 (Z.of_nat (i_output i)) ++ fp_code (i_fixedAmount i).
Definition sends_code (il : list instruction) : list bool := concat (map send_code il).

Lemma append_instruction_run o take b b' :
  (o < 32)%nat -> 0 <= take < two64 -> wf b -> append_instruction o take b = (Ok tt, b') ->
  fixed_ok take /\ appended b (send_code (send o take)) b'.
Proof.
  intros Ho Ht Hw H. destruct (decide (take <= 18014398509481983 /\ take <> 10 ^ 16)) as [Hd|Hd].
  - assert (fixed_ok take) as Hf by (unfold fixed_ok; lia). split; [done|].
    assert (emits (append_instruction o take) (send_code (send o take)) tt) as He.
    { unfold append_instruction, send_code. apply (emits_bind _ _ _ _ tt); [by apply emits_appendBits|].
      apply (emits_bind _ _ _ _ tt); [apply emits_appendBits; simpl; lia|by apply emits_fp]. }
    destruct (He b Hw) as (b'' & Hrun & Happ). rewrite Hrun in H. by injection H as <-.
  - exfalso. destruct (makeFixedPrecision_refused take Ht Hd) as [what Hr]. unfold append_instruction in H.
    apply bind_ok_inv in H as ([] & b1 & _ & H). apply bind_ok_inv in H as ([] & b2 & _ & H).
    unfold appendFixedPrecision, append_stream in H. rewrite Hr in H. done.
Qed.

Lemma reads_get_bool (v : bool) : reads get_bool [v] v.
Proof.
  unfold get_bool. apply (reads_bind_ret _ _ [v] (Z.b2z v)); [apply reads_bit|].
  eapply reads_eq; [apply reads_ret|done|by destruct v].
Qed.

Lemma reads_instruction i : builder_instruction i -> reads read_instruction (send_code i) i.
Proof.
  intros (o & take & -> & Ho & Hf). unfold read_instruction, send_code.
  change (Zbits 3 0) with ([false] ++ [false] ++ [false]). rewrite <- !app_assoc.
  do 3 (eapply reads_bind; [apply reads_get_bool|]).
  eapply reads_bind; [apply (reads_getBits 5 (Z.of_nat o)); simpl; lia|].
  apply (reads_bind_nil _ _ _ 0); [apply reads_ret|].
  eapply reads_bind_ret; [by apply fp_reads|]. eapply reads_eq; [apply reads_ret|done|].
  unfold send. by rewrite Nat2Z.id.
Qed.

(** An instruction is a whole number of bytes. *)
Lemma fp_whole v : fixed_ok v -> Z.of_nat (length (fp_code v)) mod 8 = 0.
Proof.
  intros [Hv H16]. unfold fp_code. destruct (Z.lt_ge_cases v 32).
  - rewrite makeFixedPrecision_small by lia.
    rewrite (built_bits _ (Zbits 8 v)) by (eapply emits_built; apply emits_appendBits; lia). by rewrite length_Zbits.
  - destruct (makeFixedPrecision_large v) as (m & e & -> & Hfit & Hm); [lia|done|].
    rewrite (built_bits _ (fixed_code m e)) by (eapply emits_built; by apply emits_fixed).
    unfold fixed_code. repeat case_match; rewrite !length_app, !length_Zbits; done.
Qed.

Lemma sends_whole il : Forall builder_instruction il -> Z.of_nat (length (sends_code il)) mod 8 = 0.
Proof.
  induction 1 as [|i il (o & take & -> & _ & Hf) _ IH]; [done|]. unfold sends_code in *. cbn [map concat].
  pose proof (fp_whole _ Hf) as Hw. rewrite length_app. unfold send_code at 1. change (i_fixedAmount (send o take)) with take.
  rewrite !length_app, !length_Zbits. change (Z.to_nat 3) with 3%nat. change (Z.to_nat 5) with 5%nat. lia.
Qed.

(** ** The builder's loops *)

(** The builder wrote [il] between [b] and [b'], and [il] takes [c] from [n] to
    [n'] units, [D o] of them to output [o], whatever asset [c] is. *)
Definition wrote (type : Z) (N : nat) (b b' : BitIO) (n n' : Z) (D : nat -> Z) : Prop :=
  exists il, appended b (sends_code il) b' /\ Forall builder_instruction il /\ forall c, routed type N c n n' D il.

Lemma wrote_nil type N b n D : wf b -> (forall o, D o = 0) -> wrote type N b b n n D.
Proof. intros Hw HD. exists []. split_and!; [by apply appended_nil|by constructor|intros c; by apply routed_nil]. Qed.

Lemma wrote_trans type N b b1 b2 n n1 n2 D1 D2 D :
  wrote type N b b1 n n1 D1 -> wrote type N b1 b2 n1 n2 D2 -> (forall o, D o = D1 o + D2 o) ->
  wrote type N b b2 n n2 D.
Proof.
  intros (l1 & A1 & F1 & R1) (l2 & A2 & F2 & R2) HD. exists (l1 ++ l2). split_and!.
  - unfold sends_code. rewrite map_app, concat_app. by eapply appended_trans.
  - by apply Forall_app.
  - intros c. by eapply routed_app.
Qed.

Lemma wrote_ext type N b b' n n' D D' :
  wrote type N b b' n n' D -> (forall o, D o = D' o) -> wrote type N b b' n n' D'.
Proof.
  intros (l & A & F & R) HD. exists l. split_and!; [done|done|].
  intros c s cs Hp. destruct (R c s cs Hp) as (s' & H & P & K). exists s'. split_and!; [done|done|].
  intros k o. by rewrite K, HD.
Qed.

Lemma wrote_one type N b b' n o take D :
  (o < 32)%nat -> 0 < take <= n -> n < two64 -> wf b -> append_instruction o take b = (Ok tt, b') ->
  (forall c, routed type N c n (n - take) D [send o take]) -> wrote type N b b' n (n - take) D.
Proof.
  intros Ho Ht Hn Hw H HR. destruct (append_instruction_run o take b b' Ho ltac:(lia) Hw H) as [Hf Ha].
  exists [send o take]. split_and!; [|repeat constructor; by exists o, take|done].
  unfold sends_code. cbn [map concat]. by rewrite app_nil_r.
Qed.

Lemma wrote_wf type N b b' n n' D : wrote type N b b' n n' D -> wf b'.
Proof. intros (l & (Hw & _) & _). done. Qed.

(** The wants lost units of the asset of [c] only. *)
Definition reduced (c : DigiAsset) (wants wants' : list DigiAsset) : Prop :=
  Forall count_ok wants' /\ forall k, _assetIndex c <> k -> held k wants' = held k wants.

Lemma reduced_refl c wants : Forall count_ok wants -> reduced c wants wants.
Proof. done. Qed.

Lemma reduced_cons c w w' wants wants' :
  _assetIndex w' = _assetIndex w -> (_assetIndex w = _assetIndex c \/ w' = w) -> count_ok w' ->
  reduced c wants wants' -> reduced c (w :: wants) (w' :: wants').
Proof.
  intros Ei Hw Hc [Hok Hk]. split; [by constructor|]. intros k Hne. simpl. rewrite (Hk k Hne).
  unfold units. rewrite Ei. case_match; [|done].
  destruct Hw as [E| ->]; [|done]. lia.
Qed.

Lemma assign_wants_wrote type N o c wants n b wants' n' b' :
  (o < N)%nat -> 0 < n < two64 -> Forall count_ok wants -> wf b ->
  assign_wants type o c wants n b = (Ok (wants', n'), b') ->
  0 <= n' <= n /\ reduced c wants wants'
  /\ wrote type N b b' n n'
       (fun o' => if (o' =? o)%nat then held (_assetIndex c) wants - held (_assetIndex c) wants' else 0).
Proof.
  intros Ho. revert n b wants' n' b'. induction wants as [|w wants IH]; intros n b wants' n' b' Hn Hok Hw H; cbn [assign_wants] in H.
  { injection H as <- <- <-. split_and!; [lia|done|done|]. apply wrote_nil; [done|]. intros o'. rewrite ?held_cons. destruct (o' =? o)%nat; lia. }
  apply Forall_cons in Hok as [Hwc Hok].
  destruct ((getCount w =? 0) || negb (_assetIndex w =? _assetIndex c)) eqn:Eskip.
  - apply bind_ok_inv in H as ([ws m] & b1 & H1 & H2). injection H2 as <- <- <-.
    destruct (IH _ _ _ _ _ Hn Hok Hw H1) as (Hm & Hred & Hwr). split_and!; [lia|lia| |].
    + apply reduced_cons; [done|by right|done|done].
    + eapply wrote_ext; [exact Hwr|]. intros o'. rewrite !held_cons. destruct (o' =? o)%nat; lia.
  - apply orb_false_iff in Eskip as [E0 E1]. apply negb_false_iff, Z.eqb_eq in E1. apply Z.eqb_neq in E0.
    unfold getCount, count_ok in *. destruct (Nat.ltb_spec 31 o) as [|Ho31]; [done|].
    destruct ((o =? 31)%nat && (type =? DIGIASSET_BURN)) eqn:Eb; [done|].
    set (take := Z.min n (_count w)) in *. assert (0 < take <= n) as Ht by lia.
    apply bind_ok_inv in H as ([] & b1 & H1 & H2).
    assert (wrote type N b b1 n (n - take) (fun o' => if (o' =? o)%nat then take else 0)) as W1.
    { apply (wrote_one type N b b1 n o take); [lia|lia|lia|done|done|]. intros c'.
      apply routed_send; [lia|lia|done|]. unfold is_burn. cbn [i_range i_output send negb andb].
      destruct (type =? DIGIASSET_BURN), (o =? 31)%nat; done. }
    rewrite u64_small in H2 by lia. set (w' := setCount (_count w - take) w) in *.
    assert (count_ok w') as Hw' by (unfold count_ok; simpl; lia).
    assert (units (_assetIndex c) w - units (_assetIndex c) w' = take) as Eu.
    { unfold units. change (_assetIndex w') with (_assetIndex w). rewrite E1, Z.eqb_refl. simpl. lia. }
    destruct (Z.eqb_spec (n - take) 0) as [Ez|Ez].
    + injection H2 as <- <- <-. split_and!; [lia|lia| |].
      * apply reduced_cons; [done|by left|done|done].
      * eapply wrote_ext; [exact W1|]. intros o'. rewrite ?held_cons. destruct (o' =? o)%nat; lia.
    + apply bind_ok_inv in H2 as ([ws m] & b2 & H2 & H3). injection H3 as <- <- <-.
      assert (0 < n - take < two64) as Hn1 by lia.
      destruct (IH _ _ _ _ _ Hn1 Hok (wrote_wf _ _ _ _ _ _ _ W1) H2) as (Hm & Hred & Hwr).
      split_and!; [lia|lia| |].
      * apply reduced_cons; [done|by left|done|done].
      * eapply wrote_trans; [exact W1|exact Hwr|]. intros o'. rewrite ?held_cons. destruct (o' =? o)%nat; lia.
Qed.

(** Units of [k] that output [o] wants. *)
Definition wants_at (k : Z) (desired : list (list DigiAsset)) (o : nat) : Z :=
  match desired !! o with Some l => held k l | None => 0 end.
Definition counts_ok (desired : list (list DigiAsset)) : Prop := Forall (Forall count_ok) desired.
Definition all_reduced (c : DigiAsset) : relation (list (list DigiAsset)) := Forall2 (reduced c).

(** What the outputs from [first] on got. *)
Definition given (c : DigiAsset) (first : nat) (desired desired' : list (list DigiAsset)) (o : nat) : Z :=
  if (o <? first)%nat then 0
  else wants_at (_assetIndex c) desired (o - first) - wants_at (_assetIndex c) desired' (o - first).

Lemma given_cons c first w w' desired desired' o :
  given c first (w :: desired) (w' :: desired') o
  = (if (o =? first)%nat then held (_assetIndex c) w - held (_assetIndex c) w' else 0)
    + given c (S first) desired desired' o.
Proof.
  unfold given, wants_at. destruct (Nat.ltb_spec o first), (Nat.eqb_spec o first), (Nat.ltb_spec o (S first)); try lia.
  - subst. rewrite Nat.sub_diag. simpl. lia.
  - replace (o - first)%nat with (S (o - S first)) by lia. done.
Qed.

Lemma all_reduced_refl c desired : counts_ok desired -> all_reduced c desired desired.
Proof. induction 1; constructor; [by apply reduced_refl|done]. Qed.

Lemma given_refl c first desired o : given c first desired desired o = 0.
Proof. unfold given. case_match; lia. Qed.

Lemma assign_outputs_wrote type N c desired o n b desired' n' b' :
  (o + length desired <= N)%nat -> 0 <= n < two64 -> counts_ok desired -> wf b ->
  assign_outputs type o c desired n b = (Ok (desired', n'), b') ->
  0 <= n' <= n /\ all_reduced c desired desired' /\ wrote type N b b' n n' (given c o desired desired').
Proof.
  revert o n b desired' n' b'. induction desired as [|w desired IH]; intros o n b desired' n' b' HN Hn Hok Hw H;
    cbn [assign_outputs] in H.
  { injection H as <- <- <-. split_and!; [lia|lia|constructor|]. apply wrote_nil; [done|apply given_refl]. }
  destruct (Z.leb_spec n 0).
  { injection H as <- <- <-. split_and!; [lia|lia|by apply all_reduced_refl|].
    apply wrote_nil; [done|apply given_refl]. }
  apply Forall_cons in Hok as [Hwc Hok].
  apply bind_ok_inv in H as ([ws m] & b1 & H1 & H). apply bind_ok_inv in H as ([rs m'] & b2 & H2 & H3).
  injection H3 as <- <- <-. cbn [length] in HN.
  apply (assign_wants_wrote type N) in H1 as (Hm & Hred & W1); [|lia|lia|done|done].
  apply IH in H2 as (Hm' & Hred' & W2); [|lia|lia|done|by eapply wrote_wf].
  split_and!; [lia|lia|by constructor|]. eapply wrote_trans; [exact W1|exact W2|]. intros o'. apply given_cons.
Qed.

Lemma assign_burns_wrote N c burns n b burns' n' b' :
  0 <= n < two64 -> Forall count_ok burns -> wf b ->
  assign_burns c burns n b = (Ok (burns', n'), b') ->
  0 <= n' <= n /\ Forall count_ok burns' /\ wrote DIGIASSET_BURN N b b' n n' (fun _ => 0).
Proof.
  revert n b burns' n' b'. induction burns as [|w burns IH]; intros n b burns' n' b' Hn Hok Hw H; cbn [assign_burns] in H.
  { injection H as <- <- <-. split_and!; [lia|lia|done|by apply wrote_nil]. }
  destruct (Z.eqb_spec n 0).
  { injection H as <- <- <-. split_and!; [lia|lia|done|by apply wrote_nil]. }
  apply Forall_cons in Hok as [Hwc Hok]. destruct ((getCount w =? 0) || _) eqn:Eskip.
  - apply bind_ok_inv in H as ([ws m] & b1 & H1 & H2). injection H2 as <- <- <-.
    apply IH in H1 as (Hm & Hc & W); [|done..]. split_and!; [lia|lia|by constructor|done].
  - apply orb_false_iff in Eskip as [E0 _]. apply Z.eqb_neq in E0. unfold getCount, count_ok in *.
    set (take := Z.min n (_count w)) in *. assert (0 < take <= n) as Ht by lia.
    apply bind_ok_inv in H as ([] & b1 & H1 & H). apply bind_ok_inv in H as ([ws m] & b2 & H2 & H3).
    injection H3 as <- <- <-.
    assert (wrote DIGIASSET_BURN N b b1 n (n - take) (fun _ => 0)) as W1.
    { apply (wrote_one _ N b b1 n 31 take); [lia|lia|lia|done|done|]. intros c'. apply routed_burn; lia. }
    assert (0 <= n - take < two64) as Hn1 by lia.
    apply (IH _ _ _ _ _ Hn1) in H2 as (Hm & Hc & W2); [|done|by eapply wrote_wf].
    split_and!; [lia|lia| |].
    + constructor; [|done]. unfold count_ok, setCount. simpl. rewrite u64_small by lia. lia.
    + by eapply wrote_trans.
Qed.

Lemma assign_chunk_wrote type N c desired burns b desired' burns' b' :
  (length desired <= N)%nat -> count_ok c -> counts_ok desired -> Forall count_ok burns ->
  (burns = [] \/ type = DIGIASSET_BURN) -> wf b ->
  assign_chunk type c desired burns b = (Ok (desired', burns'), b') ->
  all_reduced c desired desired' /\ Forall count_ok burns' /\ (burns' = [] \/ type = DIGIASSET_BURN)
  /\ wrote type N b b' (_count c) 0 (given c 0 desired desired').
Proof.
  intros HN Hc Hok Hbu Hty Hw H. unfold assign_chunk in H.
  apply bind_ok_inv in H as ([ds m] & b1 & H1 & H). apply bind_ok_inv in H as ([bs m'] & b2 & H2 & H).
  apply (assign_outputs_wrote type N) in H1 as (Hm & Hred & W1); [|simpl; lia|exact Hc|done|done].
  unfold count_ok in Hc. unfold getCount in Hm, W1. destruct (Z.ltb_spec 0 m'); [done|]. injection H as <- <- <-.
  destruct Hty as [-> | ->].
  - cbn [assign_burns] in H2. injection H2 as <- <- <-. assert (m = 0) as -> by lia. split_and!; [done|done|by left|done].
  - apply (assign_burns_wrote N) in H2 as (Hm' & Hb & W2); [|lia|done|by eapply wrote_wf].
    assert (m' = 0) as -> by lia. split_and!; [done|done|by right|].
    eapply wrote_trans; [exact W1|exact W2|]. intros o. lia.
Qed.

(** ** All chunks *)
Lemma all_reduced_wants c desired desired' k o :
  all_reduced c desired desired' -> _assetIndex c <> k -> wants_at k desired' o = wants_at k desired o.
Proof.
  intros H Hne. unfold wants_at. pose proof (Forall2_length _ _ _ H) as Hlen.
  destruct (desired !! o) as [w|] eqn:E.
  - destruct (Forall2_lookup_l _ _ _ _ _ H E) as (w' & -> & _ & Hk). by apply Hk.
  - apply lookup_ge_None in E. by rewrite (proj2 (lookup_ge_None desired' o)) by lia.
Qed.

Lemma given_wants c desired desired' k o :
  all_reduced c desired desired' ->
  (if _assetIndex c =? k then given c 0 desired desired' o else 0) = wants_at k desired o - wants_at k desired' o.
Proof.
  intros H. destruct (Z.eqb_spec (_assetIndex c) k) as [<-|Hne].
  - unfold given. simpl. by rewrite Nat.sub_0_r.
  - rewrite (all_reduced_wants _ _ _ _ _ H Hne). lia.
Qed.

Lemma all_reduced_ok c desired desired' : all_reduced c desired desired' -> counts_ok desired'.
Proof. induction 1 as [|x y l l' [Hy _] _ IH]; constructor; done. Qed.

(** [il] routes the chunks [p]: [E k o] units of the asset [k] to output [o]. *)
Definition routes (type : Z) (N : nat) (p : list DigiAsset) (E : Z -> nat -> Z) (il : list instruction) : Prop :=
  forall s cs, pending N s (p ++ cs) ->
  exists s', apply_all type il s = (Ok tt, s') /\ pending N s' cs
    /\ forall k o, held_at k o (t_outputs s') = held_at k o (t_outputs s) + E k o.
(** What the wants have become less *)
Definition less (desired desired' : list (list DigiAsset)) (k : Z) (o : nat) : Z :=
  wants_at k desired o - wants_at k desired' o.

Lemma rest_of_full c cs : 0 < _count c -> rest_of (_count c) c cs = c :: cs.
Proof. intros H. unfold rest_of. destruct (Z.eqb_spec (_count c) 0); [lia|]. by destruct c. Qed.

Lemma assign_chunks_wrote type N chunks desired burns b desired' burns' b' :
  (length desired <= N)%nat -> Forall (fun c => 0 < _count c < two64) chunks -> counts_ok desired ->
  Forall count_ok burns -> (burns = [] \/ type = DIGIASSET_BURN) -> wf b ->
  assign_chunks type chunks desired burns b = (Ok (desired', burns'), b') ->
  exists il, appended b (sends_code il) b' /\ Forall builder_instruction il /\ counts_ok desired'
    /\ routes type N chunks (less desired desired') il.
Proof.
  revert desired burns b. induction chunks as [|c chunks IH]; intros desired burns b HN Hc Hok Hbu Hty Hw H;
    cbn [assign_chunks] in H.
  { injection H as <- <- <-. exists []. split_and!; [by apply appended_nil|by constructor|done|].
    intros s cs Hp. exists s. split_and!; [done|done|]. intros k o. unfold less. lia. }
  apply Forall_cons in Hc as [Hc Hcs]. apply bind_ok_inv in H as ([ds bs] & b1 & H1 & H2).
  apply (assign_chunk_wrote type N) in H1 as (Hred & Hb1 & Hty1 & (l1 & A1 & F1 & R1));
    [|done|unfold count_ok; lia|done..].
  assert (length ds = length desired) as Hl by (symmetry; by eapply Forall2_length).
  apply IH in H2 as (l2 & A2 & F2 & Hok2 & R2);
    [|lia|done|by eapply all_reduced_ok|done|done|by destruct A1].
  exists (l1 ++ l2). split_and!; [|by apply Forall_app|done|].
  - unfold sends_code. rewrite map_app, concat_app. by eapply appended_trans.
  - intros s cs Hp. cbn [app] in Hp. rewrite <- rest_of_full in Hp by lia.
    destruct (R1 c s _ Hp) as (s1 & E1 & P1 & K1). destruct (R2 s1 cs P1) as (s2 & E2 & P2 & K2).
    exists s2. split_and!; [by rewrite (apply_all_app _ _ _ _ _ E1)|done|].
    intros k o. rewrite K2, K1, (given_wants c desired ds k o Hred). unfold less. lia.
Qed.

(** ** Reading the instructions back *)
Lemma send_code_length i : builder_instruction i -> (1 <= length (send_code i))%nat.
Proof. intros _. unfold send_code. rewrite length_app, length_Zbits. lia. Qed.

Lemma parse_sends footer il : forall fuel b foot,
  wf b -> fits b -> Forall builder_instruction il -> rest b = sends_code il ++ foot ->
  Z.of_nat (length foot) = footer -> (length (rest b) - length foot < fuel)%nat ->
  parse_instructions fuel footer b = (il, Ok tt).
Proof.
  induction il as [|i il IH]; intros [|fuel] b foot Hw Hf HF Hr Hl Hfuel; try lia; cbn [parse_instructions].
  - rewrite getNumberOfBitLeft_rest by done. rewrite Hr. simpl. destruct (Z.leb_spec (Z.of_nat (length foot)) footer); [done|lia].
  - apply Forall_cons in HF as [Hi HF]. pose proof (send_code_length i Hi) as Hlen.
    rewrite getNumberOfBitLeft_rest by done. unfold sends_code in Hr. cbn [map concat] in Hr. rewrite <- app_assoc in Hr.
    assert (length (rest b) = length (send_code i) + length (sends_code il ++ foot))%nat as Hrl
      by (by rewrite Hr, length_app).
    rewrite length_app in Hrl. destruct (Z.leb_spec (Z.of_nat (length (rest b))) footer); [lia|].
    rewrite (reads_instruction i Hi b _ Hw Hf Hr).
    rewrite (IH fuel _ foot); [done| | |done| |done|].
    + apply wf_advance; [done|lia|]. by eapply rest_prefix.
    + done.
    + by apply rest_advance.
    + rewrite (rest_advance b _ _ Hw Hr), length_app. unfold sends_code in *. lia.
Qed.

(** ** The builder and the engine agree *)
Lemma unwanted_zero k l : Forall count_ok l -> wanted l = false -> held k l = 0.
Proof.
  induction 1 as [|a l Ha _ IH]; intros H; [done|]. unfold wanted in H. cbn [existsb] in H.
  apply orb_false_iff in H as [H1 H2]. apply Z.ltb_ge in H1. rewrite held_cons, (IH H2).
  unfold count_ok in Ha. unfold getCount in H1. unfold units. case_match; lia.
Qed.

Lemma unwanted_nothing desired k o :
  counts_ok desired -> wanted (concat desired) = false -> wants_at k desired o = 0.
Proof.
  intros Hok Hw. unfold wants_at. destruct (desired !! o) as [l|] eqn:E; [|done].
  apply unwanted_zero; [by eapply Forall_lookup_1|].
  apply not_true_is_false. intros Hl. apply not_true_iff_false in Hw. apply Hw.
  unfold wanted in *. rewrite existsb_exists in *. destruct Hl as (x & Hx & Hc). exists x. split; [|done].
  apply in_concat. exists l. split; [|done]. apply list_elem_of_In. by eapply list_elem_of_lookup_2.
Qed.

Lemma pending_start N b ia outputs :
  inputs_ok (input_assets ia) -> (forall k, held_in k (input_assets ia) < two64) ->
  concat (map assets outputs) = [] -> (N <= length outputs)%nat ->
  pending N (mk_transferring b (input_assets ia) 0 true outputs) (concat (input_assets ia)).
Proof.
  intros Hi HT Ho HN. constructor; cbn [t_index t_inputs t_outputs]; rewrite ?drop_0; try done.
  - unfold input_assets. apply Forall_forall. intros l Hl. by apply list_elem_of_filter in Hl as [? _].
  - unfold outputs_ok. by rewrite Ho.
  - intros k. unfold held_out. rewrite Ho. simpl. specialize (HT k). unfold held_in in HT. lia.
Qed.

Lemma held_at_empty k o outputs : concat (map assets outputs) = [] -> held_at k o outputs = 0.
Proof.
  intros H. unfold held_at. destruct (outputs !! o) as [u|] eqn:E; [|done].
  assert (assets u = []) as ->; [|done]. destruct (assets u) as [|a l] eqn:Ea; [done|]. exfalso.
  assert (a ∈ concat (map assets outputs)) as Hin; [|rewrite H in Hin; by apply not_elem_of_nil in Hin].
  apply list_elem_of_In, in_concat. exists (assets u). rewrite Ea. split; [|by left].
  rewrite <- Ea. apply in_map, list_elem_of_In. by eapply list_elem_of_lookup_2.
Qed.

(** The engine on a stream of builder instructions. *)
Lemma route_builder t ia type (b : BitIO) foot il N E :
  wf b -> fits b -> Forall builder_instruction il -> rest b = sends_code il ++ foot ->
  Z.of_nat (length foot) = footer_bits type -> (forall s, legacy_break t type s = (Ok false, s)) ->
  routes type N (concat (input_assets ia)) E il ->
  inputs_ok (input_assets ia) -> (forall k, held_in k (input_assets ia) < two64) ->
  concat (map assets (_outputs t)) = [] -> (N <= length (_outputs t))%nat ->
  exists outs, route_assets b ia type t = (Ok tt, set_outputs outs t)
    /\ clear_assets outs = clear_assets (_outputs t) /\ forall k o, held_at k o outs = E k o.
Proof.
  intros Hw Hf HF Hr Hl Hleg HR Hi HT Ho HN.
  set (s0 := mk_transferring b (input_assets ia) 0 true (_outputs t)).
  destruct (HR s0 []) as (s1 & H1 & P1 & K1); [rewrite app_nil_r; by apply pending_start|].
  pose proof (transfer_loop_run t ia type (footer_bits type) (S (unread b)) s0 Hleg) as Hrun.
  change (t_data s0) with b in Hrun.
  rewrite (parse_sends _ il _ b foot) in Hrun; try done.
  2: { unfold unread. pose proof (length_rest b Hw). lia. }
  rewrite H1 in Hrun. cbn [loop_result] in Hrun. destruct Hrun as [E1 E2].
  unfold route_assets, mbind at 1, M_bind at 1, get, on_transfer. fold s0. unfold mbind at 1, M_bind at 1.
  destruct (transfer_loop _ _ _ _ _ s0) as [o s2]. cbn [fst snd] in E1, E2. subst o.
  assert (t_inputs s2 = t_inputs s1 /\ t_outputs s2 = t_outputs s1) as [Ei Eo] by (by injection E2).
  assert (concat (t_inputs s2) = []) as Hnone.
  { rewrite Ei, <- (take_drop (t_index s1) (t_inputs s1)), concat_app.
    by rewrite (pending_done _ _ _ P1), (pending_chunks _ _ _ P1). }
  unfold change_loop, mbind, M_bind, get. rewrite Hnone. cbn [for_each].
  eexists. split; [reflexivity|]. split; [|intros k o; rewrite Eo, K1; rewrite held_at_empty by done; lia].
  pose proof (apply_all_keeps_outputs type il s0) as Hk. rewrite H1 in Hk. by rewrite Eo.
Qed.

(** Every node that decodes [code] (followed by the flags byte for an issuance)
    against the input assets of [t], in a transaction with at least as many
    outputs, puts the units of [t] on every output. *)
Definition carried_out (t : DigiByteTransaction) (code : list bool) : Prop :=
  forall (b : BitIO) (foot : list bool) (ia : list AssetUTXO) (t1 : DigiByteTransaction),
    wf b -> fits b -> rest b = code ++ foot -> Z.of_nat (length foot) = footer_bits (_txType t) ->
    input_assets ia = source_inputs t -> (forall s, legacy_break t1 (_txType t) s = (Ok false, s)) ->
    concat (map assets (_outputs t1)) = [] -> (length (_outputs t) <= length (_outputs t1))%nat ->
    exists t2, route_assets b ia (_txType t) t1 = (Ok tt, t2)
      /\ forall k o, held_at k o (_outputs t2) = held_at k o (_outputs t).
(** What the builder needs of a transaction: positive entries in the inputs,
    and totals and counts of 64 bits *)
Record buildable (t : DigiByteTransaction) : Prop := {
  entries_positive : Forall (fun c => 0 < _count c) (concat (source_inputs t));
  totals_fit : forall k, held_in k (source_inputs t) < two64;
  inputs_fit : inputs_ok (source_inputs t);
  outputs_fit : Forall count_ok (concat (map assets (_outputs t)));
  burns_fit : Forall count_ok (_burns t);
  burns_declared : _burns t = [] \/ _txType t = DIGIASSET_BURN
}.
Lemma builder_code (t : DigiByteTransaction) (data data' : BitIO) :
  buildable t -> wf data -> buildTransferInstructions t data = (Ok tt, data') ->
  exists code, appended data code data' /\ carried_out t code.
Proof.
  intros [Hpos HT Hi Ho Hbu Hty] Hw H. unfold buildTransferInstructions in H.
  destruct (is_empty _); [done|]. apply bind_ok_inv in H as ([desired burns] & b1 & H1 & H).
  destruct (wanted (concat desired)) eqn:Ew; [done|]. destruct (wanted burns); [done|]. injection H as ->.
  assert (counts_ok (map assets (_outputs t))) as Hok.
  { apply Forall_forall. intros l Hl. apply Forall_forall. intros x Hx. rewrite Forall_forall in Ho. apply Ho.
    apply list_elem_of_In, in_concat. exists l. by rewrite <- !list_elem_of_In. }
  apply (assign_chunks_wrote _ (length (map assets (_outputs t)))) in H1 as (il & Ha & HF & Hok' & HR); try done.
  2: { apply Forall_forall. intros c Hc. rewrite Forall_forall in Hpos. specialize (Hpos c Hc).
       unfold inputs_ok in Hi. rewrite Forall_forall in Hi. specialize (Hi c Hc). unfold count_ok in Hi. lia. }
  exists (sends_code il). split; [done|]. intros b foot ia t1 Hwb Hfb Hr Hl Hia Hleg Ho1 HN.
  rewrite <- Hia in *.
  destruct (route_builder t1 ia (_txType t) b foot il _ _ Hwb Hfb HF Hr Hl Hleg HR Hi HT Ho1) as (outs & E & _ & K).
  { by rewrite length_map. }
  eexists. split; [done|]. intros k o. cbn [_outputs set_outputs]. rewrite K. unfold less.
  rewrite (unwanted_nothing desired k o Hok' Ew), Z.sub_0_r.
  unfold wants_at, held_at. rewrite list_lookup_fmap. by destruct (_outputs t !! o).
Qed.

(** The code of an issuance does not depend on the id and the index the asset
    gets: an asset with the same number of units ends on the same outputs. *)
Definition issued_out (t : DigiByteTransaction) (code : list bool) : Prop :=
  forall (a : DigiAsset) (b : BitIO) (foot : list bool) (t1 : DigiByteTransaction),
    _count a = _count (_newAsset t) -> wf b -> fits b -> rest b = code ++ foot -> length foot = 8%nat ->
    concat (map assets (_outputs t1)) = [] -> (length (_outputs t) <= length (_outputs t1))%nat ->
    exists outs, route_assets b [mk_AssetUTXO "" 0 "" 0 [a]] DIGIASSET_ISSUANCE t1 = (Ok tt, set_outputs outs t1)
      /\ clear_assets outs = clear_assets (_outputs t1)
      /\ forall k o, held_at k o outs
           = if _assetIndex a =? k then held_at (_assetIndex (_newAsset t)) o (_outputs t) else 0.
Lemma issuance_code (t : DigiByteTransaction) (data data' : BitIO) :
  _txType t = DIGIASSET_ISSUANCE -> buildable t -> wf data -> buildTransferInstructions t data = (Ok tt, data') ->
  exists code, appended data code data' /\ Z.of_nat (length code) mod 8 = 0 /\ issued_out t code.
Proof.
  intros Hty [Hpos HT Hi Ho Hbu Hb] Hw H. destruct Hb as [Hb|Hb]; [|by rewrite Hty in Hb].
  unfold buildTransferInstructions, source_inputs in *. rewrite Hty, Z.eqb_refl, Hb in *. cbn [is_empty concat app] in *.
  apply Forall_cons in Hpos as [Hpos _]. apply Forall_cons in Hi as [Hi _]. unfold count_ok in Hi.
  set (c := _newAsset t) in *.
  apply bind_ok_inv in H as ([desired burns] & b1 & H1 & H). cbn [assign_chunks] in H1.
  apply bind_ok_inv in H1 as ([ds bs] & b2 & H1 & H2). injection H2 as -> -> ->.
  destruct (wanted (concat desired)) eqn:Ew; [done|]. destruct (wanted burns); [done|]. injection H as ->.
  assert (counts_ok (map assets (_outputs t))) as Hok.
  { apply Forall_forall. intros l Hl. apply Forall_forall. intros x Hx. rewrite Forall_forall in Ho. apply Ho.
    apply list_elem_of_In, in_concat. exists l. by rewrite <- !list_elem_of_In. }
  apply (assign_chunk_wrote _ (length (_outputs t))) in H1 as (Hred & _ & _ & (il & Ha & HF & HR));
    [|by rewrite length_map|done|done|by constructor|by left|done].
  exists (sends_code il). split; [done|]. split; [by apply sends_whole|]. intros a b foot t1 Ea Hwb Hfb Hr Hl Ho1 HN.
  destruct (route_builder t1 [mk_AssetUTXO "" 0 "" 0 [a]] DIGIASSET_ISSUANCE b foot il (length (_outputs t))
    (fun k o => if _assetIndex a =? k then given c 0 (map assets (_outputs t)) desired o else 0))
    as (outs & E & C & K); try done.
  - by rewrite Hl.
  - intros s. unfold legacy_break. by rewrite andb_false_r.
  - intros s cs Hp. cbn [input_assets map concat filter list_filter app] in Hp. destruct (HR a s cs) as (s' & R & P & K).
    { assert (_count c = _count a) as E by done. rewrite E in *. rewrite rest_of_full by lia. exact Hp. }
    by exists s'.
  - constructor; [unfold count_ok; rewrite Ea; fold c; lia|constructor].
  - intros k. change (units k a + 0 < two64). unfold units. rewrite Ea. fold c. unfold two64 in *. case_match; lia.
  - exists outs. split; [done|]. split; [done|]. intros k o. rewrite K. destruct (_assetIndex a =? k); [|done].
    pose proof (given_wants c (map assets (_outputs t)) desired (_assetIndex c) o Hred) as G. rewrite Z.eqb_refl in G.
    rewrite G, (unwanted_nothing desired _ o (all_reduced_ok _ _ _ Hred) Ew), Z.sub_0_r.
    unfold wants_at, held_at. rewrite list_lookup_fmap. by destruct (_outputs t !! o).
Qed.

(** What the builder encodes, the engine executes. If
    [buildTransferInstructions] accepts a transaction, it appends a code to the
    payload; every node that decodes that code (followed by the flags byte for
    an issuance) against the same input assets, in a transaction with at least
    as many outputs, puts exactly the wanted units of every asset on every
    output, for transfers, burns and issuances alike, and nothing is left over
    as change. The inputs must hold a positive number of units per entry. *)
Theorem builder_transfer_roundtrip (t : DigiByteTransaction) (data data' : BitIO) :
  buildable t -> wf data -> buildTransferInstructions t data = (Ok tt, data') ->
  exists code, appended data code data' /\ carried_out t code.
Proof. apply builder_code. Qed.

(** Two inputs, two assets, two outputs. *)
Definition sample_build : DigiByteTransaction :=
  set_txType DIGIASSET_TRANSFER
    (set_outputs [sample_utxo "a" [sample_asset 5 4]; sample_utxo "b" [sample_asset 5 6; sample_asset 6 3]]
      (sample_tx [sample_utxo "in" [sample_asset 5 10]; sample_utxo "in" [sample_asset 6 3]] 0)).
Definition sample_built : BitIO := snd (buildTransferInstructions sample_build empty_BitIO).

Lemma builder_transfer_roundtrip_witness :
  exists t2, route_assets sample_built (_inputs sample_build) DIGIASSET_TRANSFER (sample_tx (_inputs sample_build) 3) = (Ok tt, t2)
    /\ held_at 5 1 (_outputs t2) = 6.
Proof.
  assert (forall k, held_in k (source_inputs sample_build) < two64) as HT.
  { intros k. unfold held_in. change (concat (source_inputs sample_build)) with [sample_asset 5 10; sample_asset 6 3].
    rewrite !held_cons. unfold units. cbn. repeat case_match; reflexivity. }
  edestruct (builder_transfer_roundtrip sample_build empty_BitIO sample_built) as (code & Ha & H).
  - constructor; [by repeat constructor|exact HT|by repeat constructor..|by left].
  - apply wf_empty.
  - vm_compute. reflexivity.
  - destruct Ha as (Hw & Hp & Habs & Hlen).
    edestruct (H sample_built [] (_inputs sample_build) (sample_tx (_inputs sample_build) 3)) as (t2 & E & K);
      [exact Hw|reflexivity| |reflexivity|reflexivity|reflexivity|reflexivity|apply (Nat.leb_le 2 3); reflexivity|].
    + unfold rest. rewrite Hp, Habs, app_nil_r. reflexivity.
    + exists t2. split; [exact E|]. rewrite K. reflexivity.
Defined.
