(* ===== verification/IssuanceTheorems.v ===== *)
(** IssuanceTheorems: an issuance that is built is the issuance that is read.
    The payload of [encodeAssetOpReturn], the decoding of an indexer that finds it
    in a transaction, and the outputs the new units end on. *)

From S2P Require Import Prelude.
From S2P Require Import BitIO.
From S2P Require Import BitIOBlocks.
From S2P Require Import BitStream.
From S2P Require Import BitIOCodec.
From S2P Require Import BitIOText.
From S2P Require Import BitIONumbers.
From S2P Require Import OpReturn.
From S2P Require Import AssetTypes.
From S2P Require Import DigiAssetRules.
From S2P Require Import RulesCodec.
From S2P Require Import RulesEncoder.
From S2P Require Import RulesTheorems.
From S2P Require Import Cid.
From S2P Require Import Database.
From S2P Require Import DigiDollar.
From S2P Require Import DigiAsset.
From S2P Require Import UtxoStore.
From S2P Require Import DigiByteTransaction.
From S2P Require Import TransactionDecode.
From S2P Require Import Transfer.
From S2P Require Import TransactionBuilder.
From S2P Require Import BuilderTheorems.

Ltac Zify.zify_post_hook ::= Z.div_mod_to_equations.

(** ** The bits of an issuance *)
(** The hash that the metadata's content id stands for, in hex digits *)
Definition names_hash (cid hash : string) : Prop :=
  Forall (fun c => tolower c ∈ chars BITIO_CHARSET_HEX) (chars hash) /\ length (chars hash) = 64%nat
  /\ map tolower (chars hash) = chars hash /\ cid = cid_text (hex_code hash).

Definition issuance_op (rules : DigiAssetRules) : Z :=
  if empty rules then 1 else if isRewritable rules then 3 else 4.
Definition rules_part (t : DigiByteTransaction) : list bool :=
  let rules := _rules (_newAsset t) in if empty rules then [] else rules_bytes rules (_ruleOutputsStart t).
Definition issuance_header (t : DigiByteTransaction) : list bool :=
  Zbits 16 0x4441 ++ Zbits 8 3 ++ Zbits 8 (issuance_op (_rules (_newAsset t))).
Definition issuance_body (t : DigiByteTransaction) (hash : string) (code : list bool) : list bool :=
  hex_code hash ++ fp_code (_count (_newAsset t)) ++ rules_part t ++ code ++ Zbits 8 (getIssuanceFlags (_newAsset t)).

(** What can be issued: metadata, a count that has a code, rules in the encodable range *)
Record issuable (t : DigiByteTransaction) (hash : string) : Prop := {
  is_issuance : _txType t = DIGIASSET_ISSUANCE;
  is_buildable : buildable t;
  is_published : names_hash (_cid (_newAsset t)) hash;
  is_countable : fixed_ok (_count (_newAsset t));
  is_divisible : 0 <= _divisibility (_newAsset t) <= 7;
  is_kind : 0 <= _aggregation (_newAsset t) <= 2;
  is_ruled : empty (_rules (_newAsset t)) = true \/ encodable (_rules (_newAsset t)) (_ruleOutputsStart t);
  is_short : forall data, asset_op_return t empty_BitIO = (Ok tt, data) -> fits data
}.

Lemma flags_range a : 0 <= getIssuanceFlags a < 2 ^ 8.
Proof. unfold getIssuanceFlags, u8. lia. Qed.

Lemma when_run {S} (c : bool) (m : M S unit) s s' : (if c then m s else (Ok tt, s)) = (Ok tt, s') -> when c m s = (Ok tt, s').
Proof. by destruct c. Qed.

Lemma appended_whole (b b' : BitIO) l :
  appended b l b' -> _length b mod 8 = 0 -> Z.of_nat (length l) mod 8 = 0 -> _length b' mod 8 = 0.
Proof. intros (_ & _ & _ & ->) Hb Hl. lia. Qed.

Lemma cid_not_empty hash : cid_text (hex_code hash) <> ""%string.
Proof. unfold cid_text. cbn. discriminate. Qed.

(** What an encoder that was carried out has written *)
Lemma emits_inv {A} (m : M BitIO A) l a a' b b' : emits m l a -> wf b -> m b = (Ok a', b') -> appended b l b' /\ wf b'.
Proof. intros He Hb H. destruct (He b Hb) as (b1 & E & Ha). rewrite E in H. injection H as _ <-. split; [done|by destruct Ha]. Qed.

(** The payload of an accepted issuance *)
Lemma issuance_encoded t hash b' :
  issuable t hash -> asset_op_return t empty_BitIO = (Ok tt, b') ->
  exists code, issued_out t code /\ Z.of_nat (length code) mod 8 = 0
    /\ appended empty_BitIO (issuance_header t ++ issuance_body t hash code) b'.
Proof.
  intros [Hty Hbu (Hh & Hl & Hlow & Hcid) Hc Hd Hk Hr _] H. unfold asset_op_return in H. rewrite Hty in H.
  change (DIGIASSET_ISSUANCE =? DIGIASSET_ISSUANCE) with true in H. cbv iota in H.
  apply bind_ok_inv in H as ([] & b1 & E1 & H). apply bind_ok_inv in H as ([] & b2 & E2 & H).
  apply (emits_inv _ (Zbits 16 0x4441) tt) in E1 as [A1 W1]; [|apply emits_appendBits; lia|apply wf_empty].
  apply (emits_inv _ (Zbits 8 3) tt) in E2 as [A2 W2]; [|apply emits_appendBits; lia|done].
  unfold append_issuance in H. set (a := _newAsset t) in *.
  rewrite (bool_decide_eq_false_2 (_cid a = ""%string)) in H by (rewrite Hcid; apply cid_not_empty). cbn [negb] in H.
  apply bind_ok_inv in H as ([] & b3 & E3 & H). apply bind_ok_inv in H as ([] & b4 & E4 & H).
  apply bind_ok_inv in H as ([] & b5 & E5 & H). apply bind_ok_inv in H as ([] & b6 & E6 & H).
  apply bind_ok_inv in H as ([] & b7 & E7 & E8).
  assert (appended b2 (Zbits 8 (issuance_op (_rules a))) b3 /\ wf b3) as [A3 W3].
  { unfold issuance_opcode, issuance_op in *. cbn [negb] in E3.
    destruct (empty (_rules a)); [|destruct (negb (_ruleOutputsAdded t)); [done|destruct (isRewritable (_rules a))]];
      (eapply emits_inv; [apply emits_appendBits; lia|exact W2|exact E3]). }
  assert (appended b3 (hex_code hash) b4 /\ wf b4) as [A4 W4].
  { cbn [when] in E4. rewrite Hcid, cidToSha256_run in E4 by (done || by rewrite length_hex_code_nat, Hl).
    eapply emits_inv; [|exact W3|exact E4]. eapply emits_bind_ret; [intros b Hb; exists b; split; [reflexivity|by apply appended_nil]|].
    rewrite Hlow, str_chars. apply emits_append_stream; [by apply makeHexString_built|].
    rewrite length_hex_code_nat, Hl. unfold two64. lia. }
  apply (emits_inv _ (fp_code (_count a)) tt) in E5 as [A5 W5]; [|by apply emits_fp|done].
  assert (appended b5 (rules_part t) b6 /\ wf b6) as [A6 W6].
  { unfold rules_part. fold a. destruct Hr as [Hr|Hr].
    - rewrite Hr in *. injection E6 as <-. split; [by apply appended_nil|done].
    - pose proof (enc_rules _ _ Hr) as Hn. unfold empty in *. rewrite Hn in *. cbn [negb when] in E6.
      destruct (encode_run _ _ b5 Hr W5) as (b6' & E6' & A6).
      + pose proof (fp_whole _ Hc) as Hw. eapply appended_whole; [exact A5| |exact Hw].
        eapply appended_whole; [exact A4| |by rewrite length_hex_code_nat, Hl].
        eapply appended_whole; [exact A3| |by rewrite length_Zbits].
        eapply appended_whole; [exact A2| |by rewrite length_Zbits].
        eapply appended_whole; [exact A1|done|by rewrite length_Zbits].
      + rewrite E6' in E6. injection E6 as <-. split; [done|by destruct A6]. }
  destruct (issuance_code t b6 b7 Hty Hbu W6 E7) as (code & A7 & Hwc & Hout). pose proof (proj1 A7) as W7.
  apply (emits_inv _ (Zbits 8 (getIssuanceFlags a)) tt) in E8 as [A8 _];
    [|apply emits_appendBits; [lia|apply flags_range]|done].
  exists code. split; [done|]. split; [done|]. unfold issuance_header, issuance_body. fold a. rewrite <- !app_assoc.
  repeat (eapply appended_trans; [eassumption|]). exact A8.
Qed.

(** ** The payload as hex text *)
Definition lower_hex_digit (c : ascii) : Prop := c ∈ chars BITIO_CHARSET_HEX.

Lemma nibble_digit a b c d : exists x, lower_hex_digit x /\ Zbits 4 (code_of BITIO_CHARSET_HEX x) = [a; b; c; d].
Proof.
  exists (nth (Z.to_nat (bitsZ [a; b; c; d])) (chars BITIO_CHARSET_HEX) "0"%char).
  unfold lower_hex_digit. destruct a, b, c, d; (split; [eapply bool_decide_eq_true_1|]; vm_compute; reflexivity).
Qed.

Lemma hex_digits n : forall l, length l = (4 * n)%nat ->
  exists s, Forall lower_hex_digit (chars s) /\ length (chars s) = n /\ hex_code s = l.
Proof.
  induction n as [|n IH]; intros l Hl.
  - exists ""%string. destruct l; [|done]. split_and!; [by constructor|done|done].
  - destruct l as [|a [|b [|c [|d l]]]]; cbn [length] in Hl; try lia.
    destruct (IH l) as (s & Hs & Hn & Hc); [lia|]. destruct (nibble_digit a b c d) as (x & Hx & Ex).
    exists (str (x :: chars s)). rewrite chars_str. split_and!; [by constructor|cbn [length]; lia|].
    unfold hex_code in *. rewrite chars_str. cbn [map concat]. rewrite tolower_hex by done. by rewrite Ex, Hc.
Qed.

Lemma lower_digits s : Forall lower_hex_digit (chars s) ->
  Forall (fun c => tolower c ∈ chars BITIO_CHARSET_HEX) (chars s) /\ str (map tolower (chars s)) = s.
Proof.
  intros Hs. split.
  - eapply Forall_impl; [exact Hs|]. intros c Hc. by rewrite tolower_hex.
  - assert (map tolower (chars s) = chars s) as ->; [|apply str_chars].
    induction Hs as [|c l Hc _ IH]; [done|]. cbn [map]. by rewrite tolower_hex, IH.
Qed.

(** What the text of a finished stream stands for *)
Lemma hex_text b l :
  appended empty_BitIO l b -> Z.of_nat (length l) mod 4 = 0 -> Z.of_nat (length l) < two64 - 64 ->
  exists s, local (getHexString (_length b / 4)) b = Ok s /\ hex_code s = l
    /\ Forall (fun c => tolower c ∈ chars BITIO_CHARSET_HEX) (chars s).
Proof.
  intros Ha H4 Hf. destruct (appended_fresh _ _ Ha) as (Hw & Hp & _ & Hr & Hl).
  destruct (hex_digits (length l / 4) l) as (s & Hs & Hn & Hc).
  { apply Nat2Z.inj. rewrite Nat2Z.inj_mul, Nat2Z.inj_div. lia. }
  destruct (lower_digits s Hs) as [Hlow Est]. exists s. split_and!; [|done|done].
  assert (_length b / 4 = Z.of_nat (length (chars s))) as -> by (rewrite Hl, Hn, Nat2Z.inj_div; done).
  unfold local. rewrite (getHexString_reads s Hlow b []); [by rewrite Est|done| |by rewrite Hc, app_nil_r].
  unfold fits, two64 in *. lia.
Qed.

Lemma issuance_whole t hash code :
  issuable t hash -> Z.of_nat (length code) mod 8 = 0 ->
  Z.of_nat (length (issuance_header t ++ issuance_body t hash code)) mod 8 = 0.
Proof.
  intros Hi Hc. pose proof (fp_whole _ (is_countable _ _ Hi)) as Hf. destruct (is_published _ _ Hi) as (_ & Hl & _).
  assert (Z.of_nat (length (rules_part t)) mod 8 = 0) as Hr
    by (unfold rules_part; case_match; [done|apply rules_bytes_whole]).
  unfold issuance_header, issuance_body.
  rewrite !length_app, !length_Zbits, length_hex_code_nat, Hl. change (Z.to_nat 16) with 16%nat. change (Z.to_nat 8) with 8%nat. lia.
Qed.

(** The text that [encodeAssetOpReturn] hands to the wallet *)
Lemma issuance_text t hash text :
  issuable t hash -> encodeAssetOpReturn t = Ok text ->
  exists code, issued_out t code /\ hex_code text = issuance_header t ++ issuance_body t hash code.
Proof.
  intros Hi H. unfold encodeAssetOpReturn, exec in H. unfold mbind at 2, M_bind at 1 in H.
  destruct (asset_op_return t empty_BitIO) as [[[]| | |] b] eqn:E; try done. cbn [modify mbind outcome_bind] in H.
  destruct (issuance_encoded t hash b Hi E) as (code & Hout & Hw & Ha). exists code. split; [done|].
  pose proof (is_short _ _ Hi b E) as Hf. pose proof (issuance_whole t hash code Hi Hw) as H8.
  destruct (appended_fresh _ _ Ha) as (_ & Hp & _ & _ & Hl).
  assert (set_position 0 b = b) as Eb by (rewrite <- Hp; by destruct b). rewrite Eb in H.
  destruct (hex_text b _ Ha) as (s & Hs & Hc & _); [lia|by rewrite <- Hl|]. congruence.
Qed.

(** ** The header *)
Lemma reads_issuance_header t : reads read_header (issuance_header t) (3, issuance_op (_rules (_newAsset t))).
Proof.
  unfold read_header, issuance_header. eapply reads_bind; [apply reads_getBits; lia|]. cbn [Z.eqb Pos.eqb negb].
  eapply reads_bind; [apply reads_getBits; lia|].
  eapply reads_bind_ret; [apply reads_getBits; unfold issuance_op; repeat case_match; lia|apply reads_ret].
Qed.

(** The script that pushes the payload, in the last OP_RETURN of the transaction *)
Definition carries (txData : getrawtransaction_t) (text : string) : Prop :=
  exists i o n, last_nulldata (tx_version txData) (vout txData) (-1) = i /\ 0 <= i < two64
    /\ vout txData !! Z.to_nat i = Some o /\ op_return_script (script_hex (scriptPubKey o)) n (hex_code text).

Lemma decode_header txData text t l :
  carries txData text -> hex_code text = issuance_header t ++ l -> (8 <= length l)%nat ->
  exists s, decodeAssetTxHeader txData = Ok (3, issuance_op (_rules (_newAsset t)), s)
    /\ wf s /\ fits s /\ rest s = l /\ _position s = 32.
Proof.
  intros (i & o & n & Hi & Hr & Ho & Hs) Hx Hl. destruct (op_return_payload_run _ _ _ Hs) as (d & Hd & Hw & Hf & Hrest & Hp & Hlen).
  pose proof (rest_advance d (issuance_header t) l) as Hadv. rewrite Hx in Hrest.
  exists (advance (Z.of_nat (length (issuance_header t))) d).
  assert (length (issuance_header t) = 32%nat) as H32 by (unfold issuance_header; by rewrite !length_app, !length_Zbits).
  pose proof (rest_prefix _ _ _ Hw Hrest) as Hpre. rewrite H32 in *.
  split; [|split_and!; [apply wf_advance; [done|lia|lia]|done|by apply Hadv|unfold advance, set_position; cbn; lia]].
  unfold decodeAssetTxHeader. rewrite Hi. destruct (Z.eqb_spec i (-1)); [lia|].
  unfold vec_at. rewrite u64_small by done. rewrite (proj2 (Z.leb_le 0 i)) by lia. rewrite Ho.
  destruct Hs as (Hhex & Hn & Hdata & Hcode).
  destruct (built_rest _ _ (makeHexString_built _ Hhex)) as (b & Hb & _ & _ & _ & Hbl).
  unfold op_return_payload in Hd. rewrite Hb in *. cbn [mbind outcome_bind mret M_ret fst] in *.
  rewrite Hcode, Hx, !length_app, H32 in Hbl. unfold op_return_code in Hbl. rewrite length_Zbits in Hbl.
  unfold DIGIASSET_MIN_POSSIBLE_LENGTH. change (Z.to_nat 8) with 8%nat in Hbl.
  rewrite Hb. cbn [mbind outcome_bind]. destruct (Z.ltb_spec (_length b) 48); [lia|].
  rewrite Hd. cbn [mbind outcome_bind]. by rewrite (reads_issuance_header t d l Hw Hf Hrest), H32.
Qed.

(** ** The fields of the asset *)
Lemma issuance_flags a (f := getIssuanceFlags a) :
  0 <= _divisibility a <= 7 -> 0 <= _aggregation a <= 2 ->
  Z.shiftr f 5 = _divisibility a /\ (0 <? Z.land f 0x10) = _locked a /\ Z.shiftr (Z.land f 0x0c) 2 = _aggregation a.
Proof.
  subst f. unfold getIssuanceFlags. intros Hd Hk.
  assert (forall d k, d ∈ seqZ 0 8 -> k ∈ seqZ 0 3 -> forall l : bool,
    let f := u8 (Z.lor (Z.lor (Z.shiftl d 5) (if l then 0x10 else 0)) (Z.shiftl k 2)) in
    (Z.shiftr f 5 =? d) && Bool.eqb (0 <? Z.land f 0x10) l && (Z.shiftr (Z.land f 0x0c) 2 =? k) = true) as H.
  { intros d k Hd' Hk'. repeat (apply elem_of_cons in Hd' as [->|Hd']; [|]); [..|by apply not_elem_of_nil in Hd'].
    all: repeat (apply elem_of_cons in Hk' as [->|Hk']; [|]); [..|by apply not_elem_of_nil in Hk'].
    all: intros []; vm_compute; reflexivity. }
  specialize (H (_divisibility a) (_aggregation a) ltac:(apply elem_of_seqZ; lia) ltac:(apply elem_of_seqZ; lia) (_locked a)).
  cbv zeta in H. rewrite !andb_true_iff, !Z.eqb_eq in H. destruct H as [[? ?%eqb_prop] ?]. done.
Qed.

Lemma on_data_run {A} (m : M BitIO A) a b s :
  m (data s) = (Ok a, b) -> on_data m s = (Ok a, mk_issuing (asset s) b (watching s)).
Proof. unfold on_data. by intros ->. Qed.
Lemma on_data_reads {A} (m : M BitIO A) l a r s :
  reads m l a -> wf (data s) -> fits (data s) -> rest (data s) = l ++ r ->
  on_data m s = (Ok a, mk_issuing (asset s) (advance (Z.of_nat (length l)) (data s)) (watching s)).
Proof. intros Hm Hw Hf Hr. by eapply on_data_run, Hm. Qed.

(** Reading goes on behind what was read. *)
Lemma reading_on b l r :
  wf b -> fits b -> rest b = l ++ r ->
  let b' := advance (Z.of_nat (length l)) b in
  wf b' /\ fits b' /\ rest b' = r /\ _position b' = _position b + Z.of_nat (length l).
Proof.
  intros Hw Hf Hr. pose proof (rest_prefix _ _ _ Hw Hr). split_and!; [apply wf_advance; [done|lia|done]|done|by apply rest_advance|done].
Qed.

Lemma read_flags_run l a s :
  0 <= _divisibility a <= 7 -> 0 <= _aggregation a <= 2 ->
  wf (data s) -> fits (data s) -> rest (data s) = l ++ Zbits 8 (getIssuanceFlags a) ->
  read_flags s = (Ok (Some (getIssuanceFlags a)),
    mk_issuing (set_flags (_divisibility a) (_locked a) (_aggregation a) (asset s)) (data s) (watching s)).
Proof.
  intros Hd Hk Hw Hf Hr. destruct (issuance_flags a Hd Hk) as (Ed & El & Ek).
  pose proof (wf_position _ Hw). pose proof (length_rest _ Hw) as Hl. rewrite Hr, length_app, length_Zbits in Hl.
  change (Z.to_nat 8) with 8%nat in Hl. unfold fits, two64 in Hf.
  assert (u64 (_length (data s) - 8) = _length (data s) - 8) as Hu by (apply u64_small; unfold two64; lia).
  destruct s as [x d w]. cbn [asset data watching] in *. unfold read_flags.
  step_by (apply on_data_run; reflexivity). unfold getPosition. step_by (apply on_data_run; reflexivity). cbn [data asset watching].
  rewrite Hu. destruct (Z.ltb_spec (_length d - 8) (_position d)); [lia|].
  step_by (apply on_data_run, movePositionTo_ok; cbn; lia). cbn [data asset watching].
  assert (_length d - 8 = _position d + Z.of_nat (length l)) as Ep by lia.
  step_by (apply (on_data_reads _ (Zbits 8 (getIssuanceFlags a)) (getIssuanceFlags a) []);
    [apply reads_getBits; [lia|apply flags_range]|..]; cbn [data]; [apply wf_set_position; [done|lia]|done|];
    rewrite Ep, rest_set_position, Hr, Nat2Z.id, drop_app_length, app_nil_r by (done || lia); reflexivity).
  cbv zeta. rewrite Ek, Ed, El. step_by reflexivity. cbn [asset data watching].
  destruct (Z.eqb_spec (_aggregation a) 3); [lia|].
  step_by (apply on_data_run, movePositionTo_ok; cbn; lia). cbn. by destruct d.
Qed.

Section mined.
Context `{db : Sqlite} (txData : getrawtransaction_t) (t : DigiByteTransaction).

Lemma metadata_hash_run hash r s :
  length (chars hash) = 64%nat -> wf (data s) -> fits (data s) -> rest (data s) = hex_code hash ++ r ->
  read_metadata_hash txData (issuance_op (_rules (_newAsset t))) s =
    (Ok tt, mk_issuing (set_cid (cid_text (hex_code hash)) (asset s)) (advance 256 (data s)) (watching s)).
Proof.
  intros Hl Hw Hf Hr. pose proof (rest_prefix _ _ _ Hw Hr) as Hp. pose proof (length_hex_code_nat hash) as H256.
  rewrite Hl in H256. rewrite H256 in Hp. unfold read_metadata_hash.
  assert (((issuance_op (_rules (_newAsset t)) =? 1) || (issuance_op (_rules (_newAsset t)) =? 3) || (issuance_op (_rules (_newAsset t)) =? 4)) = true) as -> by (unfold issuance_op; by repeat case_match).
  destruct (copyBits_run (data s) 256 Hw Hf) as (m & Hm & Ha); [lia|lia|].
  step (on_data_run _ _ _ s Hm). rewrite Hr in Ha. change (Z.to_nat 256) with (4 * 64)%nat in Ha.
  rewrite <- H256, take_app_length in Ha. destruct (appended_fresh _ _ Ha) as (Hwm & _ & Habs & _ & Hlm).
  rewrite H256 in Hlm. change (Z.of_nat (4 * 64)) with 256 in Hlm. rewrite Hlm, Z.eqb_refl. cbn [when].
  step_by (rewrite (sha256ToCID_run m (hex_code hash)); [reflexivity|done|unfold fits, two64; lia|done|done]).
  done.
Qed.

(** The rules an indexer reads *)
Definition read_rules (cid : string) : DigiAssetRules :=
  if empty (_rules (_newAsset t)) then default_rules else decoded_rules (_rules (_newAsset t)) cid.
Definition ruled : Prop :=
  empty (_rules (_newAsset t)) = true
  \/ encodable (_rules (_newAsset t)) (_ruleOutputsStart t) /\ outputs_at txData (_ruleOutputsStart t) (required_outputs (_rules (_newAsset t))).

Lemma asset_rules_run cid r s :
  ruled -> wf (data s) -> fits (data s) -> rest (data s) = rules_part t ++ r -> _position (data s) mod 8 = 0 ->
  decode_asset_rules txData cid (issuance_op (_rules (_newAsset t))) s =
    (Ok (read_rules cid), mk_issuing (asset s) (advance (Z.of_nat (length (rules_part t))) (data s)) (watching s)).
Proof.
  intros Hru Hw Hf Hr Hp. unfold decode_asset_rules, read_rules, rules_part, issuance_op in *.
  destruct Hru as [E|[He Ho]].
  - rewrite E in *. cbn [length]. change (Z.of_nat 0) with 0. rewrite advance_0. by destruct s.
  - assert (empty (_rules (_newAsset t)) = false) as E by exact (enc_rules _ _ He). rewrite E in *.
    unfold isRewritable. by rewrite (decode_run txData cid _ _ _ (watching s) r He Ho Hw Hf Hr Hp).
Qed.

(** The fields that the payload carries *)
Definition same_fields (a : DigiAsset) : Prop :=
  let b := _newAsset t in
  _cid a = _cid b /\ _count a = _count b /\ _divisibility a = _divisibility b /\ _locked a = _locked b
  /\ _aggregation a = _aggregation b.

(** The input that names the asset and its issuer; the asset has no other rules
    from an earlier issuance. *)
Record names (firstVin : vin_t) (id sender : string) : Prop := {
  names_input : vin txData !! 0%nat = Some firstVin;
  names_id : calculateAssetId (_locked (_newAsset t)) firstVin (getIssuanceFlags (_newAsset t)) = Ok id;
  names_sender : getSendingAddress (txid firstVin) (out_n firstVin) = Ok sender;
  names_first : _locked (_newAsset t) = true \/ _aggregation (_newAsset t) <> AGGREGABLE
    \/ exists old, getRules id = Ok old /\ empty old = true
}.

(** The asset an indexer makes of the issuance *)
Record issued_as (id sender : string) (a : DigiAsset) : Prop := {
  as_fields : same_fields a;
  as_id : _assetId a = id;
  as_issuer : _issuer a = getAddressKYC sender;
  as_rules : if empty (_rules (_newAsset t)) then _rules a = default_rules
    else rules_eqb (_rules a) (_rules (_newAsset t)) = true
}.

Lemma read_rules_equal cid a : ruled -> _rules a = read_rules cid ->
  if empty (_rules (_newAsset t)) then _rules a = default_rules else rules_eqb (_rules a) (_rules (_newAsset t)) = true.
Proof.
  intros Hru ->. unfold read_rules. destruct Hru as [->|[He _]]; [done|].
  unfold empty. rewrite (enc_rules _ _ He). by eapply decoded_equal.
Qed.

Lemma no_conflict id a :
  _assetId a = id -> _locked a = true \/ _aggregation a <> AGGREGABLE \/ (exists old, getRules id = Ok old /\ empty old = true) ->
  handleRulesConflict a = Ok a.
Proof.
  intros <- H. unfold handleRulesConflict. destruct (_locked a); [done|].
  destruct (Z.eqb_spec (_aggregation a) AGGREGABLE) as [E|E]; [|done]. cbn [negb].
  destruct H as [H|[H|(old & -> & E')]]; [done|done|]. cbn [mbind outcome_bind]. by rewrite E'.
Qed.

Lemma finish_issuance_run height firstVin id sender r s :
  ruled -> names firstVin id sender -> same_fields (asset s) ->
  wf (data s) -> fits (data s) -> rest (data s) = rules_part t ++ r -> _position (data s) mod 8 = 0 ->
  exists a, finish_issuance txData height (issuance_op (_rules (_newAsset t))) (getIssuanceFlags (_newAsset t)) s
      = (Ok true, mk_issuing a (advance (Z.of_nat (length (rules_part t))) (data s)) (watching s))
    /\ issued_as id sender a.
Proof.
  intros Hru [Hin Hid Hsend Hfirst] Hx Hw Hf Hr Hp. destruct s as [x d w]. cbn [asset data watching] in *.
  unfold finish_issuance. step_by reflexivity. cbn [asset].
  set (x1 := if _locked x then set_rules (lock (_rules x)) x else x).
  assert (when (_locked x) (on_asset (fun a => set_rules (lock (_rules a)) a)) (mk_issuing x d w) = (Ok tt, mk_issuing x1 d w)) as E1
    by (unfold x1; by destruct (_locked x)).
  assert (same_fields x1) as Hx1 by (unfold x1; by case_match). clearbody x1.
  step E1. rewrite (bind_ok _ _ _ _ _ (asset_rules_run (_cid x) r (mk_issuing x1 d w) Hru Hw Hf Hr Hp)).
  cbn [asset data watching]. step_by reflexivity. cbn [asset data watching].
  assert (_cid x = _cid x1) as Ecid by (destruct Hx as [-> _], Hx1 as [-> _]; done).
  set (x2 := set_rules (read_rules (_cid x)) x1). set (d' := advance (Z.of_nat (length (rules_part t))) d).
  assert (same_fields x2) as Hx2 by done. assert (_rules x2 = read_rules (_cid x2)) as Er by (unfold x2; cbn; by rewrite Ecid).
  clearbody x2 d'. clear x x1 E1 Hx Hx1 Ecid d Hw Hf Hr Hp.
  assert (vec_at (vin txData) 0 (mk_issuing x2 d' w) = (Ok firstVin, mk_issuing x2 d' w)) as E2
    by (unfold vec_at; change (Z.to_nat 0) with 0%nat; by rewrite Hin).
  step E2. step_by reflexivity. cbn [asset]. destruct Hx2 as (Ec & En & Ed & El & Ea).
  rewrite El, Hid. step_by reflexivity. step_by reflexivity. cbn [asset data watching].
  set (x3 := if negb (_locked x2) && isAggregable x2
    then let '(created, index) := getAssetHeightCreated id height (_assetIndex x2) in
         set_assetIndex index (set_heights created (_heightUpdated x2) (set_assetId id x2)) else set_assetId id x2).
  assert (_assetId x3 = id /\ _rules x3 = _rules x2 /\ same_fields x3 /\ _cid x3 = _cid x2) as (I3 & R3 & F3 & C3)
    by (unfold x3; repeat case_match; done).
  assert (when (negb (_locked (_newAsset t)) && isAggregable x2) (on_asset (fun a =>
       let '(created, index) := getAssetHeightCreated id height (_assetIndex a) in
       set_assetIndex index (set_heights created (_heightUpdated a) a))) (mk_issuing (set_assetId id x2) d' w)
    = (Ok tt, mk_issuing x3 d' w)) as E3.
  { unfold x3. rewrite El. destruct (negb (_locked (_newAsset t)) && isAggregable x2); [|cbv [when]; reflexivity]. unfold on_asset, modify, when. cbn [asset data watching]. change (_assetIndex (set_assetId id x2)) with (_assetIndex x2).
    by destruct (getAssetHeightCreated id height (_assetIndex x2)). }
  step E3. step_by reflexivity. cbn [asset].
  destruct F3 as (Ec3 & En3 & Ed3 & El3 & Ea3).
  rewrite (no_conflict id x3 I3) by (rewrite El3, Ea3; exact Hfirst). step_by reflexivity. step_by reflexivity.
  rewrite Hsend. step_by reflexivity. step_by reflexivity. cbn [asset data watching].
  exists (set_issuer (getAddressKYC sender) x3). split; [done|]. constructor; [done|done|done|].
  apply (read_rules_equal (_cid x3)); [done|]. cbn [_rules set_issuer]. by rewrite R3, C3.
Qed.

Lemma issued_count hash : issuable t hash -> 0 < _count (_newAsset t) <= 18014398509481983.
Proof.
  intros Hi. pose proof (is_countable _ _ Hi) as [Hc _]. split; [|lia].
  pose proof (entries_positive _ (is_buildable _ _ Hi)) as Hp. unfold source_inputs in Hp.
  rewrite (is_issuance _ _ Hi), Z.eqb_refl in Hp. by apply Forall_inv in Hp.
Qed.

Lemma countable_valid a : 0 < _count a <= 18014398509481983 -> valid_count a = true.
Proof.
  intros H. unfold valid_count. rewrite (proj2 (Z.eqb_neq _ 0)), (proj2 (Z.leb_le _ _)) by lia. by rewrite !andb_false_r.
Qed.

(** The constructor of an issuance, on the payload behind the header *)
Lemma issued_run hash code height firstVin id sender s w :
  issuable t hash -> ruled -> names firstVin id sender ->
  wf s -> fits s -> rest s = issuance_body t hash code -> _position s mod 8 = 0 ->
  exists a s', DigiAsset_issued txData height 3 (issuance_op (_rules (_newAsset t))) (s, w) = (Ok a, (s', w))
    /\ issued_as id sender a /\ wf s' /\ fits s' /\ rest s' = code ++ Zbits 8 (getIssuanceFlags (_newAsset t)).
Proof.
  intros Hi Hru Hn Hw Hf Hr Hp. pose proof (issued_count hash Hi) as Hcount.
  destruct (is_published _ _ Hi) as (_ & Hlen & _ & Ecid).
  pose proof (is_countable _ _ Hi) as Hfc. set (b := _newAsset t) in *. unfold issuance_body in Hr. fold b in Hr.
  destruct (reading_on s _ _ Hw Hf Hr) as (W1 & F1 & R1 & P1). set (s1 := advance _ s) in *.
  destruct (reading_on s1 _ _ W1 F1 R1) as (W2 & F2 & R2 & P2). set (s2 := advance _ s1) in *.
  destruct (reading_on s2 _ _ W2 F2 R2) as (W3 & F3 & R3 & _).
  assert (_position s2 mod 8 = 0) as P8.
  { pose proof (fp_whole _ Hfc). rewrite P2, P1, length_hex_code_nat, Hlen. lia. }
  set (x := set_flags (_divisibility b) (_locked b) (_aggregation b)
              (set_count (_count b) (set_cid (cid_text (hex_code hash)) (set_heights height height (set_existingAsset true DigiAsset_default))))).
  assert (same_fields x) as Hx by (unfold x, same_fields; fold b; rewrite Ecid; done).
  destruct (finish_issuance_run height firstVin id sender _ (mk_issuing x s2 w) Hru Hn Hx W2 F2 R2 P8) as (a & Hfin & Ha).
  exists a, (advance (Z.of_nat (length (rules_part t))) s2). split_and!; [|done..].
  assert (processIssuance txData height 3 (issuance_op (_rules b)) (mk_issuing DigiAsset_default s w)
    = (Ok true, mk_issuing a (advance (Z.of_nat (length (rules_part t))) s2) w)) as E.
  2: { unfold DigiAsset_issued. by rewrite E. }
  unfold processIssuance. step_by reflexivity. unfold catch_out_of_range, try_catch. step_by reflexivity.
  change ((3 <? 3) && (issuance_op (_rules b) <? 3)) with false. cbn [when]. step_by reflexivity. cbn [asset data watching].
  unfold b at 1. rewrite (bind_ok _ _ _ _ _ (metadata_hash_run hash _ (mk_issuing _ s w) Hlen Hw Hf Hr)). cbn [asset data watching].
  assert (advance 256 s = s1) as -> by (unfold s1; by rewrite length_hex_code_nat, Hlen).
  rewrite (bind_ok _ _ _ _ _ (on_data_reads _ _ _ _ (mk_issuing _ s1 w) (fp_reads _ Hfc) W1 F1 R1)). cbn [asset data watching]. fold s2.
  step_by reflexivity. cbn [asset data watching].
  rewrite app_assoc in R2.
  rewrite (bind_ok _ _ _ _ _ (read_flags_run _ b (mk_issuing _ s2 w) (is_divisible _ _ Hi) (is_kind _ _ Hi) W2 F2 R2)).
  cbn [asset data watching]. change (3 =? 1) with false. cbn [when]. step_by reflexivity. step_by reflexivity. step_by reflexivity.
  cbn [asset]. change (set_flags _ _ _ _) with x. rewrite (countable_valid x) by exact Hcount. cbn [negb].
  fold b in Hfin |- *. by rewrite Hfin.
Qed.

(** ** The outputs *)

(** The transaction pays the outputs of [t] in their order. *)
Definition pays : Prop := forall o u, _outputs t !! o = Some u -> utxo_address u <> ""%string /\
  exists v k, vout txData !! o = Some v /\ addresses (scriptPubKey v) = utxo_address u :: k.

Lemma held_at_cleared k o outs :
  (forall u, outs !! o = Some u -> lost_on_op_return u = true -> held_at k o outs = 0) ->
  held_at k o (map (fun u => if lost_on_op_return u then set_assets [] u else u) outs) = held_at k o outs.
Proof.
  intros H. unfold held_at in *. rewrite list_lookup_fmap. destruct (outs !! o) as [u|] eqn:E; [|done]. cbn [fmap option_fmap option_map].
  specialize (H u eq_refl). destruct (lost_on_op_return u); [|done]. symmetry. exact (H eq_refl).
Qed.

Lemma outputs_of_clear_op_returns t1 :
  _outputs (clear_op_returns t1) = map (fun u => if lost_on_op_return u then set_assets [] u else u) (_outputs t1).
Proof. unfold clear_op_returns. by case_match. Qed.

Lemma cleared_address outs outs' o u : clear_assets outs = clear_assets outs' -> outs !! o = Some u ->
  exists u', outs' !! o = Some u' /\ utxo_address u' = utxo_address u.
Proof.
  intros H E. apply (f_equal (fun l => l !! o)) in H. unfold clear_assets in H. rewrite !list_lookup_fmap, E in H.
  destruct (outs' !! o) as [u'|]; [|done]. exists u'. split; [done|]. by injection H.
Qed.

Lemma output_of_address v a k : addresses (scriptPubKey v) = a :: k -> utxo_address (output_of txData v) = a.
Proof. intros H. unfold output_of. cbn [utxo_address]. by rewrite H. Qed.

Lemma nothing_of_outputs l : concat (map assets (map (output_of txData) l)) = [].
Proof. induction l; done. Qed.

Lemma pays_length : pays -> (length (_outputs t) <= length (vout txData))%nat.
Proof.
  intros H. destruct (decide (length (_outputs t) = 0)%nat) as [|Hn]; [lia|].
  destruct (lookup_lt_is_Some_2 (_outputs t) (pred (length (_outputs t))) ltac:(lia)) as [u Hu].
  destruct (H _ _ Hu) as (_ & v & k & Hv & _). apply lookup_lt_Some in Hv. lia.
Qed.

(** The transfer of a decoded issuance: the new units end where the issuer wanted them. *)
Lemma issued_transfer code a b t1 :
  pays -> issued_out t code -> _count a = _count (_newAsset t) ->
  wf b -> fits b -> rest b = code ++ Zbits 8 (getIssuanceFlags (_newAsset t)) ->
  _outputs t1 = map (output_of txData) (vout txData) ->
  exists t2, decodeAssetTransfer b [mk_AssetUTXO "" 0 "" 0 [a]] DIGIASSET_ISSUANCE t1 = (Ok tt, t2)
    /\ _newAsset t2 = _newAsset t1
    /\ forall k o, held_at k o (_outputs t2)
         = if _assetIndex a =? k then held_at (_assetIndex (_newAsset t)) o (_outputs t) else 0.
Proof.
  intros Hpay Hout Ha Hw Hf Hr Ho. pose proof (pays_length Hpay) as Hlen.
  destruct (Hout a b (Zbits 8 (getIssuanceFlags (_newAsset t))) t1 Ha Hw Hf Hr) as (outs & E & Hc & K);
    [by rewrite length_Zbits|by rewrite Ho, nothing_of_outputs|by rewrite Ho, length_map|].
  unfold decodeAssetTransfer. step E. rewrite Z.eqb_refl. cbn [negb when]. step_by reflexivity.
  eexists. split; [reflexivity|]. split; [unfold clear_op_returns; by case_match|].
  intros k o. rewrite outputs_of_clear_op_returns. cbn [_outputs set_outputs]. rewrite held_at_cleared; [apply K|].
  intros u Hu Hlost. rewrite K. case_match; [|done].
  destruct (cleared_address _ _ _ _ Hc Hu) as (u' & Hu' & Ea). rewrite Ho, list_lookup_fmap in Hu'.
  unfold held_at. destruct (_outputs t !! o) as [w|] eqn:Ew; [|done].
  destruct (Hpay o w Ew) as (Hne & v & l & Hv & Hl). rewrite Hv in Hu'. injection Hu' as <-.
  apply output_of_address in Hl. unfold lost_on_op_return in Hlost. apply andb_true_iff in Hlost as [Hlost%bool_decide_eq_true _].
  congruence.
Qed.

Lemma decode_issuance_run hash code firstVin id sender d s :
  issuable t hash -> ruled -> names firstVin id sender -> pays -> issued_out t code ->
  wf d -> fits d -> rest d = issuance_body t hash code -> _position d mod 8 = 0 ->
  _outputs (tx s) = map (output_of txData) (vout txData) ->
  exists s', decode_issuance txData 3 (issuance_op (_rules (_newAsset t))) d s = (Ok true, s')
    /\ _txType (tx s') = DIGIASSET_ISSUANCE /\ issued_as id sender (_newAsset (tx s'))
    /\ forall k o, held_at k o (_outputs (tx s'))
         = if _assetIndex (_newAsset (tx s')) =? k then held_at (_assetIndex (_newAsset t)) o (_outputs t) else 0.
Proof.
  intros Hi Hru Hn Hpay Hout Hw Hf Hr Hp Ho.
  destruct (issued_run hash code (_height (tx s)) firstVin id sender d (watched s) Hi Hru Hn Hw Hf Hr Hp)
    as (a & d' & E & Ha & Hw' & Hf' & Hr').
  destruct Ha as [Hfields Hid His Hrules]. pose proof Hfields as (_ & Ec & _).
  set (t1 := set_newAsset a (if _assetFound (tx s) then set_unintentionalBurn true (tx s) else tx s)).
  destruct (issued_transfer code a d' t1 Hpay Hout Ec Hw' Hf' Hr') as (t2 & E2 & En & K);
    [unfold t1; by destruct (_assetFound (tx s))|].
  exists (mk_loading (set_txType DIGIASSET_ISSUANCE t2) (stored s) (watched s)).
  assert (_newAsset t2 = a) as En' by (rewrite En; done).
  cbn [tx _txType set_txType _newAsset _outputs]. rewrite En'. split_and!; [|done|done|exact K].
  unfold decode_issuance, catch_asset_exception, try_catch. step_by reflexivity. step_by reflexivity.
  rewrite E. step_by reflexivity. step_by reflexivity. step_by reflexivity. cbn [tx stored watched].
  assert (on_tx (decodeAssetTransfer d' [mk_AssetUTXO "" 0 "" 0 [a]] DIGIASSET_ISSUANCE) (mk_loading t1 (stored s) (watched s))
    = (Ok tt, mk_loading t2 (stored s) (watched s))) as E3 by (unfold on_tx; cbn [tx stored watched]; by rewrite E2).
  fold t1. step E3. done.
Qed.
End mined.

Section arrives.
Context `{db : Sqlite}.

(** C5: What is issued arrives. When [encodeAssetOpReturn] accepts an issuance
    and the transaction that carries its text pays the outputs that were asked
    for, every indexer that decodes it finds an issuance, of an asset with the
    metadata, the number of units, the divisibility, the lock, the aggregation
    and the rules that were asked for, whose id is the one of its first input
    and whose issuer the sender of that input, and puts exactly the wanted
    units of it, and of nothing else, on every output. *)
Theorem issuance_arrives t hash text txData firstVin id sender s :
  issuable t hash -> encodeAssetOpReturn t = Ok text ->
  carries txData text -> ruled txData t -> names txData t firstVin id sender -> pays txData t ->
  _outputs (tx s) = map (output_of txData) (vout txData) ->
  exists s', decodeAssetTX txData s = (Ok true, s') /\ _txType (tx s') = DIGIASSET_ISSUANCE
    /\ issued_as t id sender (_newAsset (tx s'))
    /\ forall k o, held_at k o (_outputs (tx s'))
         = if _assetIndex (_newAsset (tx s')) =? k then held_at (_assetIndex (_newAsset t)) o (_outputs t) else 0.
Proof.
  intros Hi Henc Hcar Hru Hn Hpay Ho. destruct (issuance_text t hash text Hi Henc) as (code & Hout & Hx).
  destruct (decode_header txData text t _ Hcar Hx) as (d & Hd & Hw & Hf & Hr & Hp).
  { unfold issuance_body. rewrite !length_app, length_hex_code_nat. destruct (is_published _ _ Hi) as (_ & -> & _). lia. }
  set (s1 := mk_loading (set_version 3 (tx s)) (stored s) (watched s)).
  destruct (decode_issuance_run txData t hash code firstVin id sender d s1) as (s' & E & H); try done; [by rewrite Hp|].
  exists s'. split; [|exact H]. unfold decodeAssetTX. rewrite Hd. step_by reflexivity. cbv iota.
  assert (set_tx (set_version 3) s = (Ok tt, s1)) as E1 by done. step E1. rewrite <- E.
  unfold issuance_op. by repeat case_match.
Qed.
End arrives.

(** *** 60 and 40 units of a locked asset with rules, to two addresses *)
#[local] Instance demo_chain : Sqlite := {|
  stmtGetHeightAssetCreated := fun _ => None;
  stmtGetAssetRules := fun _ => None;
  stmtGetSpendingAddress := fun _ _ => Some "issuer"%string;
  stmtGetKYC := fun _ => None;
  stmtGetValidExchangeRate := fun _ _ _ => [];
  stmtGetAsset := fun _ => None;
  stmtIsWatchAddress := fun _ => false;
  beenPrunedNonAssetUTXOHistory := false;
  beenPrunedUTXOHistory := 0;
  digiByteCoreSet := false;
  getRawTransaction := fun _ => Throw length_error;
  getBlockHeight := fun _ => Ok 0;
  allocatable := fun _ => true
|}.
Definition demo_hash : string := "00112233445566778899aabbccddeeff00112233445566778899aabbccddeeff".
Definition demo_asset : DigiAsset := Eval vm_compute in
  match DigiAsset_new (cid_text (hex_code demo_hash)) 100 2 true HYBRID sample_rules with Ok a => a | _ => DigiAsset_default end.
Definition demo_issue : DigiByteTransaction := Eval vm_compute in
  snd ((setIssuance demo_asset;; addDigiAssetOutput "you" [setCount 60 demo_asset];;
        addDigiAssetOutput "me" [setCount 40 demo_asset];; addRuleOutputs) (DigiByteTransaction_default 0)).
Definition demo_text : string := Eval vm_compute in
  match encodeAssetOpReturn demo_issue with Ok text => text | _ => "" end.
Definition demo_mined : getrawtransaction_t := Eval vm_compute in
  mk_getrawtransaction "0b" 2 "" 0 [mk_vin "0a" 1 "" []]
    (imap (fun i u => mk_vout (digibyte u) (Z.of_nat i) (mk_scriptPubKey "" "pubkeyhash" [utxo_address u])) (_outputs demo_issue)
     ++ [mk_vout 0 7 (mk_scriptPubKey ("6a47" ++ demo_text) "nulldata" [])]).
Definition demo_loading : loading :=
  mk_loading (set_outputs (map (output_of demo_mined) (vout demo_mined)) (DigiByteTransaction_default 5)) (mk_store [] ∅ ∅) [].

Lemma demo_issuable : issuable demo_issue demo_hash.
Proof.
  constructor.
  - reflexivity.
  - constructor; try (by repeat constructor).
    + intros k. change (source_inputs demo_issue) with [[demo_asset]]. unfold held_in. cbn [concat app].
      rewrite held_cons. change (held k []) with 0. unfold units. case_match; vm_compute; reflexivity.
  - unfold names_hash. split_and!; [eapply bool_decide_eq_true_1; vm_compute; reflexivity|vm_compute; reflexivity..].
  - unfold fixed_ok. vm_compute. split_and!; discriminate.
  - vm_compute. split; discriminate.
  - vm_compute. split; discriminate.
  - right. exact sample_encodable.
  - intros data H. apply (f_equal (fun r => _length (snd r))) in H. cbn [snd] in H. unfold fits. rewrite <- H. vm_compute. reflexivity.
Qed.

Lemma demo_carried : carries demo_mined demo_text.
Proof.
  exists 7. eexists _, 71. split_and!; [vm_compute; reflexivity|discriminate|reflexivity|vm_compute; reflexivity|].
  split; [eapply bool_decide_eq_true_1; vm_compute; reflexivity|]. split; [unfold two32; lia|]. split; vm_compute; reflexivity.
Qed.

Lemma demo_paid : pays demo_mined demo_issue.
Proof.
  intros o u. do 7 (destruct o as [|o]; [intros [= <-]; split; [discriminate|eexists _, _; split; reflexivity]|]). discriminate.
Qed.

Lemma demo_ruled : ruled demo_mined demo_issue.
Proof.
  right. split; [exact sample_encodable|]. intros j o.
  do 5 (destruct j as [|j]; [intros [= <-]; eexists _, _; split_and!; reflexivity|]). discriminate.
Qed.

Lemma issuance_arrives_witness :
  exists s', decodeAssetTX demo_mined demo_loading = (Ok true, s')
    /\ _assetId (_newAsset (tx s')) = "Lh4rVc8EEKFEpgzXsQRKG9mTJtp617mCq96j9w"%string
    /\ rules_eqb (_rules (_newAsset (tx s'))) (_rules demo_asset) = true
    /\ held_at (_assetIndex (_newAsset (tx s'))) 0 (_outputs (tx s')) = 60.
Proof.
  edestruct (issuance_arrives demo_issue demo_hash demo_text demo_mined (mk_vin "0a" 1 "" [])
    "Lh4rVc8EEKFEpgzXsQRKG9mTJtp617mCq96j9w" "issuer" demo_loading) as (s' & E & _ & [_ Hid _ Hrules] & K).
  - exact demo_issuable.
  - vm_compute. reflexivity.
  - exact demo_carried.
  - exact demo_ruled.
  - constructor; [reflexivity|vm_compute; reflexivity|vm_compute; reflexivity|left; reflexivity].
  - exact demo_paid.
  - reflexivity.
  - exists s'. split; [exact E|]. split; [exact Hid|]. split; [exact Hrules|]. rewrite K, Z.eqb_refl. reflexivity.
Defined.
