(* ===== verification/ChainTables.v ===== *)
(** ChainTables: the tables of the chain database other than [utxos], and the
    prepared statements that write and read them (the schema and
    [initializeClassValues] of src/src/Database.cpp).

    A table is the list of its rows in the order of their rowid.  Values bound
    with [bindInt] are signed 32-bit, with [bindInt64] signed 64-bit, texts are
    cut at their first zero character by [bindText]. *)

From Stdlib Require Import Floats.SpecFloat.
From S2P Require Import Prelude.
From S2P Require Export Sql.
From S2P Require Import BitIOCodec.
From S2P Require Import DigiAssetRules.
From S2P Require Import Blob.
From S2P Require Import Database.
From S2P Require Import DigiDollar.
From S2P Require Import DigiAsset.
From S2P Require Import UtxoStore.

(** ** Rows *)
Record asset_entry := mk_asset_entry {
  ae_assetIndex : Z; ae_assetId : string; ae_cid : string; ae_issueAddress : string; ae_rules : list Z;
  ae_heightCreated : Z; ae_heightUpdated : Z; ae_expires : Z }.
Record block_row := mk_block_row {
  blk_height : Z; blk_hash : Blob; blk_time : Z; blk_algo : Z; blk_difficulty : double }.
Record exchange_row := mk_exchange_row {
  ex_address : string; ex_index : Z; ex_height : Z; ex_value : double }.
Record kyc_row := mk_kyc_row {
  kr_address : string; kr_country : string; kr_name : string; kr_hash : Blob; kr_height : Z;
  kr_revoked : option Z }.
Record vote_row := mk_vote_row {
  vr_assetIndex : Z; vr_address : string; vr_height : Z; vr_count : Z }.
Record ddutxo_row := mk_ddutxo_row {
  du_txid : Blob; du_vout : Z; du_address : string; du_amount : Z; du_heightCreated : Z;
  du_heightDestroyed : option Z; du_spentTXID : option Blob }.
Record ddvault_row := mk_ddvault_row {
  dv_txid : Blob; dv_vout : Z; dv_address : string; dv_collateral : Z; dv_minted : Z; dv_lockHeight : Z;
  dv_lockTier : Z; dv_heightCreated : Z; dv_heightRedeemed : option Z; dv_redeemedTXID : option Blob }.
Record oracle_row := mk_oracle_row {
  or_epoch : Z; or_height : Z; or_price : Z; or_time : Z; or_participants : Z }.
Record domain_row := mk_domain_row { dr_domain : string; dr_assetId : string; dr_revoked : bool }.
Record master_row := mk_master_row { mr_assetId : string; mr_active : bool }.
Record ipfs_row := mk_ipfs_row {
  job_index : Z; job_sync : string; job_lock : bool; job_cid : string; job_extra : string;
  job_callback : string; job_pause : option Z; job_maxTime : option Z }.

Record tables := mk_tables {
  t_assets : list asset_entry;
  t_sequence : Z;                     (** sqlite_sequence of assets *)
  t_blocks : list block_row;
  t_exchange : list exchange_row;
  t_exchangeWatch : list string;
  t_kyc : list kyc_row;
  t_votes : list vote_row;
  t_ddutxos : list ddutxo_row;
  t_ddvaults : list ddvault_row;
  t_ddoracle : list oracle_row;
  t_domains : list domain_row;
  t_domainsMasters : list master_row;
  t_unknown : list (Blob * Blob);
  t_encryptedkeys : list (string * Blob);
  t_ipfs : list ipfs_row;
  t_ipfs_sequence : Z;
  t_flags : gmap string Z
}.

Definition set_t_assets x t := mk_tables x (t_sequence t) (t_blocks t) (t_exchange t) (t_exchangeWatch t) (t_kyc t) (t_votes t) (t_ddutxos t) (t_ddvaults t) (t_ddoracle t) (t_domains t) (t_domainsMasters t) (t_unknown t) (t_encryptedkeys t) (t_ipfs t) (t_ipfs_sequence t) (t_flags t).
Definition set_t_sequence x t := mk_tables (t_assets t) x (t_blocks t) (t_exchange t) (t_exchangeWatch t) (t_kyc t) (t_votes t) (t_ddutxos t) (t_ddvaults t) (t_ddoracle t) (t_domains t) (t_domainsMasters t) (t_unknown t) (t_encryptedkeys t) (t_ipfs t) (t_ipfs_sequence t) (t_flags t).
Definition set_t_blocks x t := mk_tables (t_assets t) (t_sequence t) x (t_exchange t) (t_exchangeWatch t) (t_kyc t) (t_votes t) (t_ddutxos t) (t_ddvaults t) (t_ddoracle t) (t_domains t) (t_domainsMasters t) (t_unknown t) (t_encryptedkeys t) (t_ipfs t) (t_ipfs_sequence t) (t_flags t).
Definition set_t_exchange x t := mk_tables (t_assets t) (t_sequence t) (t_blocks t) x (t_exchangeWatch t) (t_kyc t) (t_votes t) (t_ddutxos t) (t_ddvaults t) (t_ddoracle t) (t_domains t) (t_domainsMasters t) (t_unknown t) (t_encryptedkeys t) (t_ipfs t) (t_ipfs_sequence t) (t_flags t).
Definition set_t_exchangeWatch x t := mk_tables (t_assets t) (t_sequence t) (t_blocks t) (t_exchange t) x (t_kyc t) (t_votes t) (t_ddutxos t) (t_ddvaults t) (t_ddoracle t) (t_domains t) (t_domainsMasters t) (t_unknown t) (t_encryptedkeys t) (t_ipfs t) (t_ipfs_sequence t) (t_flags t).
Definition set_t_kyc x t := mk_tables (t_assets t) (t_sequence t) (t_blocks t) (t_exchange t) (t_exchangeWatch t) x (t_votes t) (t_ddutxos t) (t_ddvaults t) (t_ddoracle t) (t_domains t) (t_domainsMasters t) (t_unknown t) (t_encryptedkeys t) (t_ipfs t) (t_ipfs_sequence t) (t_flags t).
Definition set_t_votes x t := mk_tables (t_assets t) (t_sequence t) (t_blocks t) (t_exchange t) (t_exchangeWatch t) (t_kyc t) x (t_ddutxos t) (t_ddvaults t) (t_ddoracle t) (t_domains t) (t_domainsMasters t) (t_unknown t) (t_encryptedkeys t) (t_ipfs t) (t_ipfs_sequence t) (t_flags t).
Definition set_t_ddutxos x t := mk_tables (t_assets t) (t_sequence t) (t_blocks t) (t_exchange t) (t_exchangeWatch t) (t_kyc t) (t_votes t) x (t_ddvaults t) (t_ddoracle t) (t_domains t) (t_domainsMasters t) (t_unknown t) (t_encryptedkeys t) (t_ipfs t) (t_ipfs_sequence t) (t_flags t).
Definition set_t_ddvaults x t := mk_tables (t_assets t) (t_sequence t) (t_blocks t) (t_exchange t) (t_exchangeWatch t) (t_kyc t) (t_votes t) (t_ddutxos t) x (t_ddoracle t) (t_domains t) (t_domainsMasters t) (t_unknown t) (t_encryptedkeys t) (t_ipfs t) (t_ipfs_sequence t) (t_flags t).
Definition set_t_ddoracle x t := mk_tables (t_assets t) (t_sequence t) (t_blocks t) (t_exchange t) (t_exchangeWatch t) (t_kyc t) (t_votes t) (t_ddutxos t) (t_ddvaults t) x (t_domains t) (t_domainsMasters t) (t_unknown t) (t_encryptedkeys t) (t_ipfs t) (t_ipfs_sequence t) (t_flags t).
Definition set_t_domains x t := mk_tables (t_assets t) (t_sequence t) (t_blocks t) (t_exchange t) (t_exchangeWatch t) (t_kyc t) (t_votes t) (t_ddutxos t) (t_ddvaults t) (t_ddoracle t) x (t_domainsMasters t) (t_unknown t) (t_encryptedkeys t) (t_ipfs t) (t_ipfs_sequence t) (t_flags t).
Definition set_t_domainsMasters x t := mk_tables (t_assets t) (t_sequence t) (t_blocks t) (t_exchange t) (t_exchangeWatch t) (t_kyc t) (t_votes t) (t_ddutxos t) (t_ddvaults t) (t_ddoracle t) (t_domains t) x (t_unknown t) (t_encryptedkeys t) (t_ipfs t) (t_ipfs_sequence t) (t_flags t).
Definition set_t_unknown x t := mk_tables (t_assets t) (t_sequence t) (t_blocks t) (t_exchange t) (t_exchangeWatch t) (t_kyc t) (t_votes t) (t_ddutxos t) (t_ddvaults t) (t_ddoracle t) (t_domains t) (t_domainsMasters t) x (t_encryptedkeys t) (t_ipfs t) (t_ipfs_sequence t) (t_flags t).
Definition set_t_encryptedkeys x t := mk_tables (t_assets t) (t_sequence t) (t_blocks t) (t_exchange t) (t_exchangeWatch t) (t_kyc t) (t_votes t) (t_ddutxos t) (t_ddvaults t) (t_ddoracle t) (t_domains t) (t_domainsMasters t) (t_unknown t) x (t_ipfs t) (t_ipfs_sequence t) (t_flags t).
Definition set_t_ipfs x n t := mk_tables (t_assets t) (t_sequence t) (t_blocks t) (t_exchange t) (t_exchangeWatch t) (t_kyc t) (t_votes t) (t_ddutxos t) (t_ddvaults t) (t_ddoracle t) (t_domains t) (t_domainsMasters t) (t_unknown t) (t_encryptedkeys t) x n (t_flags t).
Definition set_t_flags x t := mk_tables (t_assets t) (t_sequence t) (t_blocks t) (t_exchange t) (t_exchangeWatch t) (t_kyc t) (t_votes t) (t_ddutxos t) (t_ddvaults t) (t_ddoracle t) (t_domains t) (t_domainsMasters t) (t_unknown t) (t_encryptedkeys t) (t_ipfs t) (t_ipfs_sequence t) x.

(** ** Statements *)

(** *** Assets *)

(** INSERT OR IGNORE INTO assets (...); assetIndex is AUTOINCREMENT, so no row
    is ever ignored. *)
Definition stmtAddAsset (assetId issueAddress cid : string) (rules : list Z) (heightCreated heightUpdated expires : Z)
    (t : tables) : tables :=
  let index := t_sequence t + 1 in
  set_t_sequence index
    (set_t_assets (t_assets t ++ [mk_asset_entry index assetId cid issueAddress rules heightCreated heightUpdated expires]) t).

(** UPDATE assets SET heightUpdated=?, cid=?, rules=?, expires=? WHERE assetIndex=? *)
Definition stmtUpdateAsset (heightUpdated : Z) (cid : string) (rules : list Z) (expires assetIndex : Z) (t : tables) : tables :=
  set_t_assets (update_where (fun r => ae_assetIndex r =? assetIndex)
    (fun r => mk_asset_entry (ae_assetIndex r) (ae_assetId r) cid (ae_issueAddress r) rules (ae_heightCreated r)
                heightUpdated expires) (t_assets t)) t.

(** SELECT ... FROM assets WHERE assetId=? and WHERE assetIndex=? *)
Definition assets_with_id (assetId : string) (t : tables) : list asset_entry :=
  select_where (fun r => bool_decide (ae_assetId r = assetId)) (t_assets t).
Definition asset_at (assetIndex : Z) (t : tables) : option asset_entry :=
  head (select_where (fun r => ae_assetIndex r =? assetIndex) (t_assets t)).

(** *** Blocks *)
Definition stmtInsertBlock (r : block_row) (t : tables) : tables :=
  set_t_blocks (insert_or_replace (fun r r' => blk_height r =? blk_height r') r (t_blocks t)) t.
(** SELECT hash FROM blocks WHERE height=? LIMIT 1 *)
Definition stmtGetBlockHash (height : Z) (t : tables) : option Blob :=
  blk_hash <$> head (select_where (fun r => blk_height r =? height) (t_blocks t)).
(** SELECT height FROM blocks ORDER BY height DESC LIMIT 1 *)
Definition stmtGetBlockHeight (t : tables) : option Z :=
  match t_blocks t with
  | [] => None
  | r :: l => Some (foldl (fun m r => Z.max m (blk_height r)) (blk_height r) l)
  end.
(** DELETE FROM blocks where height<? *)
Definition stmtRemoveNonReachable (height : Z) (t : tables) : tables :=
  set_t_blocks (delete_where (fun r => blk_height r <? height) (t_blocks t)) t.

(** *** Exchange rates *)
Definition same_rate (r r' : exchange_row) : bool :=
  bool_decide (ex_address r = ex_address r') && (ex_index r =? ex_index r') && (ex_height r =? ex_height r').
(** INSERT OR REPLACE INTO exchange VALUES (?,?,?,?) *)
Definition stmtAddExchangeRate (r : exchange_row) (t : tables) : tables :=
  set_t_exchange (insert_or_replace same_rate r (t_exchange t)) t.
(** DELETE FROM exchange WHERE height<? *)
Definition stmtPruneExchangeRate (height : Z) (t : tables) : tables :=
  set_t_exchange (delete_where (fun r => ex_height r <? height) (t_exchange t)) t.

(** ORDER BY height DESC *)
Fixpoint insert_by_height (r : exchange_row) (l : list exchange_row) : list exchange_row :=
  match l with
  | [] => [r]
  | x :: l => if ex_height x <=? ex_height r then r :: x :: l else x :: insert_by_height r l
  end.
Definition newest_first (l : list exchange_row) : list exchange_row := foldr insert_by_height [] l.

Definition of_source (address : string) (index : Z) (r : exchange_row) : bool :=
  bool_decide (ex_address r = address) && (ex_index r =? index).
(** SELECT value, height FROM exchange WHERE height<? AND address=? AND [index]=? ORDER BY height DESC *)
Definition select_valid_rates (height : Z) (address : string) (index : Z) (t : tables) : list (double * Z) :=
  map (fun r => (ex_value r, ex_height r))
    (newest_first (select_where (fun r => (ex_height r <? height) && of_source address index r) (t_exchange t))).
(** SELECT value FROM exchange WHERE address=? AND [index]=? ORDER BY height DESC LIMIT 1 *)
Definition stmtGetCurrentExchangeRate (address : string) (index : Z) (t : tables) : option double :=
  ex_value <$> head (newest_first (select_where (of_source address index) (t_exchange t))).
(** The newest row of every source up to a height (a join with MAX(height) per source). *)
Definition stmtExchangeRatesAtHeight (height : Z) (t : tables) : list exchange_row :=
  select_where (fun r => (ex_height r <=? height)
    && forallb (fun r' => negb (of_source (ex_address r) (ex_index r) r' && (ex_height r' <=? height)) || (ex_height r' <=? ex_height r))
         (t_exchange t)) (t_exchange t).

(** *** KYC *)
Definition same_person (r r' : kyc_row) : bool := bool_decide (kr_address r = kr_address r').
(** INSERT OR IGNORE INTO kyc VALUES (?,?,?,?,?,NULL) *)
Definition stmtAddKYC (r : kyc_row) (t : tables) : tables :=
  set_t_kyc (insert_or_ignore same_person r (t_kyc t)) t.
Definition with_revoked (x : option Z) (r : kyc_row) : kyc_row :=
  mk_kyc_row (kr_address r) (kr_country r) (kr_name r) (kr_hash r) (kr_height r) x.
(** UPDATE kyc SET revoked=? WHERE address=? *)
Definition stmtRevokeKYC (height : Z) (address : string) (t : tables) : tables :=
  set_t_kyc (update_where (fun r => bool_decide (kr_address r = address)) (with_revoked (Some height)) (t_kyc t)) t.
(** SELECT country,name,hash,height,revoked FROM kyc WHERE address=? *)
Definition select_kyc (address : string) (t : tables) : option kyc_row :=
  head (select_where (fun r => bool_decide (kr_address r = address)) (t_kyc t)).

(** *** Votes *)
Definition same_vote (r r' : vote_row) : bool :=
  (vr_assetIndex r =? vr_assetIndex r') && bool_decide (vr_address r = vr_address r') && (vr_height r =? vr_height r').
(** INSERT INTO votes ... ON CONFLICT (assetIndex, address, height) DO UPDATE SET count=count+? *)
Definition stmtAddVote (r : vote_row) (t : tables) : tables :=
  set_t_votes
    (if existsb (same_vote r) (t_votes t)
     then update_where (same_vote r)
            (fun r' => mk_vote_row (vr_assetIndex r') (vr_address r') (vr_height r') (vr_count r' + vr_count r)) (t_votes t)
     else t_votes t ++ [r]) t.
(** DELETE FROM votes WHERE height<? *)
Definition stmtPruneVote (height : Z) (t : tables) : tables :=
  set_t_votes (delete_where (fun r => vr_height r <? height) (t_votes t)) t.

(** GROUP BY: one row per group, in the order of the first member. *)
Definition same_voter (r r' : vote_row) : bool :=
  (vr_assetIndex r =? vr_assetIndex r') && bool_decide (vr_address r = vr_address r').
Definition add_to_group (r : vote_row) (groups : list vote_row) : list vote_row :=
  if existsb (same_voter r) groups
  then update_where (same_voter r)
         (fun g => mk_vote_row (vr_assetIndex g) (vr_address g) (Z.max (vr_height g) (vr_height r)) (vr_count g + vr_count r)) groups
  else groups ++ [r].
Definition group_votes (l : list vote_row) : list vote_row := foldl (fun groups r => add_to_group r groups) [] l.
(** SELECT assetIndex,address,SUM([count]),MAX([height]) FROM votes WHERE height<? GROUP BY assetIndex,address *)
Definition stmtGetVoteCountAtHeight (height : Z) (t : tables) : list vote_row :=
  group_votes (select_where (fun r => vr_height r <? height) (t_votes t)).
(** SELECT address,SUM([count]) FROM votes WHERE assetIndex=? GROUP BY address *)
Definition stmtGetVoteCount (assetIndex : Z) (t : tables) : list vote_row :=
  group_votes (select_where (fun r => vr_assetIndex r =? assetIndex) (t_votes t)).

(** *** DigiDollar *)
Definition ddutxo_at (txid : Blob) (vout : Z) (r : ddutxo_row) : bool := bool_decide (du_txid r = txid) && (du_vout r =? vout).
Definition same_ddutxo (r r' : ddutxo_row) : bool := ddutxo_at (du_txid r) (du_vout r) r'.
(** INSERT OR REPLACE INTO ddutxos ... VALUES (?,?,?,?,?,NULL,NULL) *)
Definition stmtCreateDDUTXO (r : ddutxo_row) (t : tables) : tables :=
  set_t_ddutxos (insert_or_replace same_ddutxo r (t_ddutxos t)) t.
Definition dd_spent (height : option Z) (by_ : option Blob) (r : ddutxo_row) : ddutxo_row :=
  mk_ddutxo_row (du_txid r) (du_vout r) (du_address r) (du_amount r) (du_heightCreated r) height by_.
(** UPDATE ddutxos SET heightDestroyed=?, spentTXID=? WHERE txid=? AND vout=? *)
Definition stmtSpendDDUTXO (height : Z) (spentTXID txid : Blob) (vout : Z) (t : tables) : tables :=
  set_t_ddutxos (update_where (ddutxo_at txid vout) (dd_spent (Some height) (Some spentTXID)) (t_ddutxos t)) t.
Definition dd_unspent (r : ddutxo_row) : bool := match du_heightDestroyed r with None => true | Some _ => false end.
(** SELECT amount FROM ddutxos WHERE txid=? AND vout=? AND heightDestroyed IS NULL *)
Definition stmtGetDDUTXO (txid : Blob) (vout : Z) (t : tables) : option Z :=
  du_amount <$> head (select_where (fun r => ddutxo_at txid vout r && dd_unspent r) (t_ddutxos t)).
(** SELECT COALESCE(SUM(amount),0) FROM ddutxos WHERE address=? AND heightDestroyed IS NULL *)
Definition stmtGetDDBalance (address : string) (t : tables) : Z :=
  foldl Z.add 0 (map du_amount (select_where (fun r => bool_decide (du_address r = address) && dd_unspent r) (t_ddutxos t))).

Definition ddvault_at (txid : Blob) (vout : Z) (r : ddvault_row) : bool := bool_decide (dv_txid r = txid) && (dv_vout r =? vout).
Definition same_ddvault (r r' : ddvault_row) : bool := ddvault_at (dv_txid r) (dv_vout r) r'.
(** INSERT OR REPLACE INTO ddvaults ... VALUES (?,?,?,?,?,?,?,?,NULL,NULL) *)
Definition stmtCreateDDVault (r : ddvault_row) (t : tables) : tables :=
  set_t_ddvaults (insert_or_replace same_ddvault r (t_ddvaults t)) t.
Definition dd_redeemed (height : option Z) (by_ : option Blob) (r : ddvault_row) : ddvault_row :=
  mk_ddvault_row (dv_txid r) (dv_vout r) (dv_address r) (dv_collateral r) (dv_minted r) (dv_lockHeight r)
    (dv_lockTier r) (dv_heightCreated r) height by_.
(** UPDATE ddvaults SET heightRedeemed=?, redeemedTXID=? WHERE txid=? AND vout=? *)
Definition stmtRedeemDDVault (height : Z) (redeemedTXID txid : Blob) (vout : Z) (t : tables) : tables :=
  set_t_ddvaults (update_where (ddvault_at txid vout) (dd_redeemed (Some height) (Some redeemedTXID)) (t_ddvaults t)) t.
Definition dd_locked (r : ddvault_row) : bool := match dv_heightRedeemed r with None => true | Some _ => false end.
(** SELECT minted FROM ddvaults WHERE txid=? AND vout=? AND heightRedeemed IS NULL *)
Definition stmtGetDDVault (txid : Blob) (vout : Z) (t : tables) : option Z :=
  dv_minted <$> head (select_where (fun r => ddvault_at txid vout r && dd_locked r) (t_ddvaults t)).

(** INSERT OR IGNORE INTO ddoracle (epoch,height,price,time,participants) VALUES (?,?,?,?,?) *)
Definition stmtAddDDRate (r : oracle_row) (t : tables) : tables :=
  set_t_ddoracle (insert_or_ignore (fun r r' => or_epoch r =? or_epoch r') r (t_ddoracle t)) t.
(** SELECT COALESCE(MAX(epoch),0) FROM ddoracle *)
Definition stmtGetDDLastEpoch (t : tables) : Z :=
  match t_ddoracle t with [] => 0 | r :: l => foldl (fun m r => Z.max m (or_epoch r)) (or_epoch r) l end.

(** *** Domains, unknown data, encrypted keys *)
(** SELECT assetId,revoked FROM domains WHERE domain=? *)
Definition stmtGetDomainAssetId (domain : string) (t : tables) : option domain_row :=
  head (select_where (fun r => bool_decide (dr_domain r = domain)) (t_domains t)).
(** INSERT OR IGNORE INTO domains VALUES (?,?,false): the table has no key. *)
Definition stmtAddDomain (domain assetId : string) (t : tables) : tables :=
  set_t_domains (t_domains t ++ [mk_domain_row domain assetId false]) t.
(** UPDATE domains SET revoked=true WHERE domain=? *)
Definition stmtRevokeDomain (domain : string) (t : tables) : tables :=
  set_t_domains (update_where (fun r => bool_decide (dr_domain r = domain))
                   (fun r => mk_domain_row (dr_domain r) (dr_assetId r) true) (t_domains t)) t.
(** UPDATE domainsMasters SET active=false WHERE assetId=? *)
Definition stmtSetDomainMasterAssetId_a (assetId : string) (t : tables) : tables :=
  set_t_domainsMasters (update_where (fun r => bool_decide (mr_assetId r = assetId))
                          (fun r => mk_master_row (mr_assetId r) false) (t_domainsMasters t)) t.
(** INSERT OR IGNORE INTO domainsMasters VALUES (?,true): no key either. *)
Definition stmtSetDomainMasterAssetId_b (assetId : string) (t : tables) : tables :=
  set_t_domainsMasters (t_domainsMasters t ++ [mk_master_row assetId true]) t.
(** INSERT OR IGNORE INTO unknown (txid,data) VALUES (?,?): no key. *)
Definition stmtInsertUnknown (txid data : Blob) (t : tables) : tables :=
  set_t_unknown (t_unknown t ++ [(txid, data)]) t.
(** INSERT OR IGNORE INTO encryptedkeys (address,data) VALUES (?,?) *)
Definition stmtInsertEncryptedKey (address : string) (data : Blob) (t : tables) : tables :=
  set_t_encryptedkeys (insert_or_ignore (fun r r' => bool_decide (r.1 = r'.1)) (address, data) (t_encryptedkeys t)) t.
(** SELECT data FROM encryptedkeys WHERE address=? *)
Definition stmtGetEncryptedKey (address : string) (t : tables) : option Blob :=
  snd <$> head (select_where (fun r => bool_decide (r.1 = address)) (t_encryptedkeys t)).
(** INSERT OR IGNORE INTO exchangeWatch VALUES (?) *)
Definition stmtAddWatchAddress (address : string) (t : tables) : tables :=
  set_t_exchangeWatch (insert_or_ignore (fun a b => bool_decide (a = b)) address (t_exchangeWatch t)) t.

(** *** IPFS jobs *)
(** INSERT OR IGNORE INTO ipfs (sync, lock, cid, extra, callback, pause, maxTime) VALUES (?,false,?,?,?,?,?) *)
Definition stmtInsertIPFSJob (sync cid extra callback : string) (pause maxTime : option Z) (t : tables) : tables :=
  let index := t_ipfs_sequence t + 1 in
  set_t_ipfs (t_ipfs t ++ [mk_ipfs_row index sync false cid extra callback pause maxTime]) index t.

(** ** A rewind: the commands of clearBlocksAboveHeight, in order *)
Definition max_index (l : list asset_entry) : Z :=
  match l with [] => 0 | r :: l => foldl (fun m r => Z.max m (ae_assetIndex r)) (ae_assetIndex r) l end.

Definition clear_assets_from (h : Z) (l : list asset_entry) : list asset_entry :=
  delete_where (fun r => (1 <? ae_heightCreated r) && (h <=? ae_heightCreated r)) l.
Definition clear_exchange_from (h : Z) (l : list exchange_row) : list exchange_row :=
  delete_where (fun r => h <=? ex_height r) l.
Definition clear_kyc_from (h : Z) (l : list kyc_row) : list kyc_row :=
  update_where (fun r => null_ge (kr_revoked r) h) (with_revoked None) (delete_where (fun r => h <=? kr_height r) l).
Definition unspent (r : utxo_row) : utxo_row :=
  mk_row (row_address r) (row_txid r) (row_vout r) (row_aout r) (row_assetIndex r) (row_amount r)
    (row_heightCreated r) (row_issuance r) None None.
Definition clear_utxos_from (h : Z) (l : list utxo_row) : list utxo_row :=
  update_where (fun r => null_ge (row_heightDestroyed r) h) unspent (delete_where (fun r => h <=? row_heightCreated r) l).
Definition clear_votes_from (h : Z) (l : list vote_row) : list vote_row :=
  delete_where (fun r => h <=? vr_height r) l.
Definition clear_ddutxos_from (h : Z) (l : list ddutxo_row) : list ddutxo_row :=
  update_where (fun r => null_ge (du_heightDestroyed r) h) (dd_spent None None) (delete_where (fun r => h <=? du_heightCreated r) l).
Definition clear_ddvaults_from (h : Z) (l : list ddvault_row) : list ddvault_row :=
  update_where (fun r => null_ge (dv_heightRedeemed r) h) (dd_redeemed None None) (delete_where (fun r => h <=? dv_heightCreated r) l).
Definition clear_oracle_from (h : Z) (l : list oracle_row) : list oracle_row :=
  delete_where (fun r => h <=? or_height r) l.
Definition clear_blocks_above (h : Z) (l : list block_row) : list block_row :=
  delete_where (fun r => h <? blk_height r) l.

(** The tables without [utxos]; the last command renumbers the next asset. *)
Definition clear_tables_from (h : Z) (t : tables) : tables :=
  let assets := clear_assets_from h (t_assets t) in
  mk_tables assets (max_index assets) (clear_blocks_above h (t_blocks t)) (clear_exchange_from h (t_exchange t))
    (t_exchangeWatch t) (clear_kyc_from h (t_kyc t)) (clear_votes_from h (t_votes t))
    (clear_ddutxos_from h (t_ddutxos t)) (clear_ddvaults_from h (t_ddvaults t)) (clear_oracle_from h (t_ddoracle t))
    (t_domains t) (t_domainsMasters t) (t_unknown t) (t_encryptedkeys t) (t_ipfs t) (t_ipfs_sequence t) (t_flags t).
