(* ===== verification/ChainDatabase.v ===== *)
(** ChainDatabase: the operations of the chain database on its tables
    (src/src/Database.cpp): transactions, flags, blocks, assets, exchange rates,
    identities, votes, DigiDollar, domains and the rewind.

    Statements succeed: the failures of SQLite itself (a full disk, a lost lock)
    are not modelled.  What the code keeps in memory beside the file (the flags
    it has read, the watch list, the domain masters, the cache of outputs) is
    part of the state and is not rolled back with the tables. *)

From Stdlib Require Import Floats.SpecFloat.
From stdpp Require Import pretty.
From S2P Require Import Prelude.
From S2P Require Import BitIOCodec.
From S2P Require Import AssetTypes.
From S2P Require Import DigiAssetRules.
From S2P Require Import KYC.
From S2P Require Import Blob.
From S2P Require Import Database.
From S2P Require Import DigiDollar.
From S2P Require Import DigiAsset.
From S2P Require Import UtxoStore.
From S2P Require Import ChainTables.

Record chain := mk_chain {
  c_store : store;
  c_tables : tables;
  _transactionDepth : Z;
  c_begin : list utxo_row * tables;            (** the tables at BEGIN *)
  _flagState : gmap string Z;
  _exchangeWatchAddresses : list string;
  _masterDomainAssetId : list string;
  _ipfsCurrentlyPaused : list (string * Z)
}.

Definition set_store x (c : chain) := mk_chain x (c_tables c) (_transactionDepth c) (c_begin c) (_flagState c) (_exchangeWatchAddresses c) (_masterDomainAssetId c) (_ipfsCurrentlyPaused c).
Definition set_tables x (c : chain) := mk_chain (c_store c) x (_transactionDepth c) (c_begin c) (_flagState c) (_exchangeWatchAddresses c) (_masterDomainAssetId c) (_ipfsCurrentlyPaused c).
Definition set_transaction depth saved (c : chain) := mk_chain (c_store c) (c_tables c) depth saved (_flagState c) (_exchangeWatchAddresses c) (_masterDomainAssetId c) (_ipfsCurrentlyPaused c).
Definition set_flagState x (c : chain) := mk_chain (c_store c) (c_tables c) (_transactionDepth c) (c_begin c) x (_exchangeWatchAddresses c) (_masterDomainAssetId c) (_ipfsCurrentlyPaused c).
Definition set_watch x (c : chain) := mk_chain (c_store c) (c_tables c) (_transactionDepth c) (c_begin c) (_flagState c) x (_masterDomainAssetId c) (_ipfsCurrentlyPaused c).
Definition set_masters x (c : chain) := mk_chain (c_store c) (c_tables c) (_transactionDepth c) (c_begin c) (_flagState c) (_exchangeWatchAddresses c) x (_ipfsCurrentlyPaused c).

(** A statement, and an operation of the outputs store. *)
Definition execute (f : tables -> tables) : M chain unit := modify (fun c => set_tables (f (c_tables c)) c).
Definition on_c_store {A} (m : M store A) : M chain A := fun c =>
  let '(o, s) := m (c_store c) in (o, set_store s c).

Definition exceptionFailedSelect_c {A} : M chain A := throw (class_exception "Database::exceptionFailedSelect" "").

(** ** Transactions *)
Definition startTransaction : M chain unit :=
  modify (fun c =>
    set_transaction (_transactionDepth c + 1)
      (if _transactionDepth c =? 0 then (utxos (c_store c), c_tables c) else c_begin c) c).

Definition endTransaction : M chain unit :=
  modify (fun c => if _transactionDepth c <=? 0 then c else set_transaction (_transactionDepth c - 1) (c_begin c) c).

Definition abortTransaction : M chain unit :=
  modify (fun c =>
    if _transactionDepth c =? 0 then c
    else set_transaction 0 (c_begin c)
           (set_tables (snd (c_begin c)) (set_store (set_utxos (fun _ => fst (c_begin c)) (c_store c)) c))).

(** ** Flags *)
Definition getFlagInt (flag : string) (defaultValue : option Z) : M chain Z :=
  c ← get;
  match _flagState c !! flag with
  | Some v => mret v
  | None =>
      match t_flags (c_tables c) !! flag with
      | Some v => put (set_flagState (<[flag := v]> (_flagState c)) c);; mret v
      | None => match defaultValue with Some d => mret d | None => exceptionFailedSelect_c end
      end
  end.

(** INSERT INTO flags ... ON CONFLICT(key) DO UPDATE *)
Definition setFlagInt (flag : string) (state : Z) : M chain unit :=
  same ← try_catch (v ← getFlagInt flag None; mret (v =? state))
           (fun e => if bool_decide (e = class_exception "Database::exceptionFailedSelect" "") then mret false else throw e);
  if same : bool then mret tt
  else
    execute (fun t => set_t_flags (<[flag := state]> (t_flags t)) t);;
    modify (fun c => set_flagState (<[flag := state]> (_flagState c)) c).

Definition getBeenPrunedExchangeHistory : M chain Z := getFlagInt "wasPrunedExchangeHistory" None.
Definition getBeenPrunedUTXOHistory : M chain Z := getFlagInt "wasPrunedUTXOHistory" None.
Definition getBeenPrunedVoteHistory : M chain Z := getFlagInt "wasPrunedVoteHistory" None.
Definition setBeenPrunedExchangeHistory (state : Z) : M chain unit := setFlagInt "wasPrunedExchangeHistory" (i32 state).
Definition setBeenPrunedUTXOHistory (state : Z) : M chain unit := setFlagInt "wasPrunedUTXOHistory" (i32 state).
Definition setBeenPrunedVoteHistory (state : Z) : M chain unit := setFlagInt "wasPrunedVoteHistory" (i32 state).
Definition setBeenPrunedNonAssetUTXOHistory (state : bool) : M chain unit :=
  setFlagInt "wasPrunedNonAssetUTXOHistory" (Z.b2z state).
Definition getDigiDollarSyncHeight : M chain Z :=
  value ← getFlagInt "ddSyncHeight" (Some 0); mret (if value <? 0 then 0 else u32 value).
Definition setDigiDollarSyncHeight (height : Z) : M chain unit := setFlagInt "ddSyncHeight" (i32 height).

(** ** Blocks *)
Definition insertBlock (height : Z) (hash : string) (time algo : Z) (difficulty : double) : M chain unit :=
  hashBlob ← lift (Blob_of_hex hash);
  execute (stmtInsertBlock (mk_block_row (i32 height) hashBlob (i32 time) (i32 algo) difficulty)).

Definition getBlockHash (height : Z) : M chain string :=
  c ← get;
  match stmtGetBlockHash (i32 height) (c_tables c) with
  | Some hash => mret (toHex hash)
  | None => throw exceptionDataPruned
  end.

Definition getLastBlockHeight : M chain Z :=
  c ← get;
  match stmtGetBlockHeight (c_tables c) with Some h => mret (u32 h) | None => exceptionFailedSelect_c end.

Definition clearBlocksAboveHeight (height : Z) : M chain unit :=
  modify (fun c => set_tables (clear_tables_from height (c_tables c))
                     (set_store (set_utxos (clear_utxos_from height) (c_store c)) c)).

(** ** Assets *)

(** The index of the row an issuance updates, 0 for a new row. *)
Definition existing_index (asset : DigiAsset) (t : tables) : Z :=
  if isAggregable asset && negb (isLocked asset) then
    match assets_with_id (c_str (_assetId asset)) t with
    | r :: _ => u64 (i32 (ae_assetIndex r))
    | [] => 0
    end
  else 0.

Definition addAsset (asset : DigiAsset) : M chain Z :=
  assetIndex ← gets (fun c => existing_index asset (c_tables c));
  let rules := serialize_rules [] (_rules asset) in
  if negb (assetIndex =? 0) then
    execute (stmtUpdateAsset (i32 (_heightUpdated asset)) (c_str (_cid asset)) rules (i64 (getExpiry (_rules asset)))
               (i64 assetIndex));;
    mret assetIndex
  else
    execute (stmtAddAsset (c_str (_assetId asset)) (c_str (getAddress (_issuer asset))) (c_str (_cid asset)) rules
               (i32 (_heightCreated asset)) (i32 (_heightUpdated asset)) (i64 (getExpiry (_rules asset))));;
    gets (fun c => u64 (t_sequence (c_tables c))).

(** ** Exchange rates *)
Definition addExchangeRate (address : string) (index height : Z) (exchangeRate : double) : M chain unit :=
  execute (stmtAddExchangeRate (mk_exchange_row (c_str address) (i32 index) (i32 height) exchangeRate)).

(** The rows read back: height unsigned, index an unsigned char. *)
Definition read_rate (r : exchange_row) : exchange_row :=
  mk_exchange_row (ex_address r) (u8 (ex_index r)) (u32 (ex_height r)) (ex_value r).
Definition getExchangeRatesAtHeight (height : Z) : M chain (list exchange_row) :=
  gets (fun c => map read_rate (stmtExchangeRatesAtHeight (i32 height) (c_tables c))).

Definition pruneExchange (pruneHeight : Z) : M chain unit :=
  firstEntry ← getExchangeRatesAtHeight (u32 (pruneHeight - 1));
  execute (stmtPruneExchangeRate (i32 pruneHeight));;
  execute (stmtRemoveNonReachable (i32 pruneHeight));;
  for_each firstEntry (fun kept => addExchangeRate (ex_address kept) (ex_index kept) (ex_height kept) (ex_value kept));;
  setBeenPrunedExchangeHistory pruneHeight.

Definition DIGIBYTECORE_DATABASE_CHAIN_WATCH_MAX : Z := 20.

(** The list in memory, or the table when the list is empty. *)
Definition on_watch_list (address : string) (c : chain) : bool :=
  match _exchangeWatchAddresses c with
  | [] => bool_decide (c_str address ∈ t_exchangeWatch (c_tables c))
  | l => bool_decide (address ∈ l)
  end.

Definition addWatchAddress (address : string) : M chain unit :=
  c ← get;
  if on_watch_list address c then mret tt
  else
    execute (stmtAddWatchAddress (c_str address));;
    match _exchangeWatchAddresses c with
    | [] => mret tt
    | l => modify (set_watch (if Z.of_nat (length l) =? DIGIBYTECORE_DATABASE_CHAIN_WATCH_MAX then [] else l ++ [address]))
    end.

(** ** Identities *)
Definition addKYC (address country name hash : string) (height : Z) : M chain unit :=
  blob ← lift (Blob_of_hex hash);
  execute (stmtAddKYC (mk_kyc_row (c_str address) (c_str country) (c_str name) blob (i32 height) None)).
Definition revokeKYC (address : string) (height : Z) : M chain unit :=
  execute (stmtRevokeKYC (i32 height) (c_str address)).

(** ** Votes *)
Definition addVote (address : string) (assetIndex count height : Z) : M chain unit :=
  execute (stmtAddVote (mk_vote_row (i32 assetIndex) (c_str address) (i32 height) (i64 count))).

(** The rows read back: everything unsigned 32-bit. *)
Definition read_vote (r : vote_row) : vote_row :=
  mk_vote_row (u32 (vr_assetIndex r)) (vr_address r) (u32 (vr_height r)) (u32 (vr_count r)).

Definition pruneVote (height : Z) : M chain unit :=
  keep ← gets (fun c => map read_vote (stmtGetVoteCountAtHeight (i32 height) (c_tables c)));
  execute (stmtPruneVote (i32 height));;
  execute (stmtRemoveNonReachable (i32 height));;
  for_each keep (fun kept => addVote (vr_address kept) (vr_assetIndex kept) (vr_count kept) (vr_height kept));;
  setBeenPrunedVoteHistory height.

Definition getVoteCounts (assetIndex : Z) (c : chain) : list (string * Z) :=
  map (fun r => (vr_address r, u32 (vr_count r))) (stmtGetVoteCount (i32 assetIndex) (c_tables c)).

(** ** Outputs *)
Definition pruneUTXO (height : Z) : M chain unit :=
  modify (fun c => set_store (set_utxos (stmtPruneUTXOs (i32 height)) (c_store c)) c);;
  execute (stmtRemoveNonReachable (i32 height));;
  setBeenPrunedUTXOHistory height.

(** ** DigiDollar *)
Definition getDigiDollarOnUTXO (txid : string) (vout : Z) : M chain Z :=
  blobTXID ← lift (Blob_of_hex txid);
  gets (fun c => match stmtGetDDUTXO blobTXID vout (c_tables c) with Some amount => u64 amount | None => 0 end).

Definition createDigiDollarUTXO (txid : string) (vout : Z) (address : string) (amount heightCreated : Z) : M chain unit :=
  if bool_decide (address = ""%string) then mret tt
  else if amount =? 0 then mret tt
  else
    blobTXID ← lift (Blob_of_hex txid);
    execute (stmtCreateDDUTXO (mk_ddutxo_row blobTXID vout (c_str address) (i64 amount) (i32 heightCreated) None None)).

Definition spendDigiDollarUTXO (txid : string) (vout height : Z) (spentTXID : string) : M chain Z :=
  amount ← getDigiDollarOnUTXO txid vout;
  if amount =? 0 then mret 0
  else
    blobSpender ← lift (Blob_of_hex spentTXID);
    blobTXID ← lift (Blob_of_hex txid);
    execute (stmtSpendDDUTXO (i32 height) blobSpender blobTXID vout);;
    mret amount.

Definition getDigiDollarBalance (address : string) (c : chain) : Z := u64 (stmtGetDDBalance (c_str address) (c_tables c)).

Definition createDigiDollarVault (txid : string) (vout : Z) (address : string)
    (collateral minted lockHeight lockTier heightCreated : Z) : M chain unit :=
  blobTXID ← lift (Blob_of_hex txid);
  execute (stmtCreateDDVault (mk_ddvault_row blobTXID vout (c_str address) (i64 collateral) (i64 minted)
             (i32 lockHeight) lockTier (i32 heightCreated) None None)).

Definition redeemDigiDollarVault (txid : string) (vout height : Z) (redeemedTXID : string) : M chain Z :=
  blobTXID ← lift (Blob_of_hex txid);
  found ← gets (fun c => stmtGetDDVault blobTXID vout (c_tables c));
  match found with
  | None => mret 0
  | Some minted =>
      blobRedeemer ← lift (Blob_of_hex redeemedTXID);
      execute (stmtRedeemDDVault (i32 height) blobRedeemer blobTXID vout);;
      mret (u64 minted)
  end.

Definition addDigiDollarRate (height epoch price time participants : Z) : M chain unit :=
  execute (stmtAddDDRate (mk_oracle_row (i32 epoch) (i32 height) (i64 price) (i32 time) (i32 participants))).
Definition getDigiDollarLastEpoch (c : chain) : Z := u32 (stmtGetDDLastEpoch (c_tables c)).

(** ** Unknown data and encrypted keys *)
Definition addUnknown (txid : string) (data : Blob) : M chain unit :=
  txidBlob ← lift (Blob_of_hex txid);
  execute (stmtInsertUnknown txidBlob data).
Definition addEncryptedKey (address : string) (data : Blob) : M chain unit :=
  execute (stmtInsertEncryptedKey (c_str address) data).
Definition getEncryptedKey (address : string) : M chain Blob :=
  c ← get;
  match stmtGetEncryptedKey (c_str address) (c_tables c) with
  | Some data => mret data
  | None => exceptionFailedSelect_c
  end.

(** ** Domains *)
Definition exceptionUnknownDomain : exn := class_exception "DigiByteDomain::exceptionUnknownDomain" "Domain has not been issued".
Definition exceptionRevokedDomain : exn := class_exception "DigiByteDomain::exceptionRevokedDomain" "Domain has been revoked".

Definition revokeDomain (domain : string) : M chain unit := execute (stmtRevokeDomain (c_str domain)).
Definition addDomain (domain assetId : string) : M chain unit := execute (stmtAddDomain (c_str domain) (c_str assetId)).

Definition getDomainAssetId (domain : string) (returnErrorIfRevoked : bool) : M chain string :=
  c ← get;
  match stmtGetDomainAssetId (c_str domain) (c_tables c) with
  | None => throw exceptionUnknownDomain
  | Some r => if returnErrorIfRevoked && dr_revoked r then throw exceptionRevokedDomain else mret (dr_assetId r)
  end.

Definition isMasterDomainAssetId (assetId : string) (c : chain) : bool := bool_decide (assetId ∈ _masterDomainAssetId c).
Definition isActiveMasterDomainAssetId (assetId : string) (c : chain) : bool :=
  bool_decide (last (_masterDomainAssetId c) = Some assetId).

Definition setMasterDomainAssetId (assetId : string) : M chain unit :=
  lastDomain ← gets (fun c => default ""%string (last (_masterDomainAssetId c)));
  execute (stmtSetDomainMasterAssetId_a (c_str lastDomain));;
  execute (stmtSetDomainMasterAssetId_b (c_str assetId));;
  modify (fun c => set_masters (_masterDomainAssetId c ++ [assetId]) c).

Definition setDomainCompromised : M chain unit := setMasterDomainAssetId "".
Definition isDomainCompromised (c : chain) : bool :=
  match last (_masterDomainAssetId c) with None => true | Some id => bool_decide (id = ""%string) end.

(** ** The IPFS job queue: adding a job without a deadline *)

(** The greatest pause of the sync value, 0 if there is none. *)
Definition sync_pause (sync : string) (paused : list (string * Z)) : Z :=
  foldl (fun pause p => if bool_decide (p.1 = sync) && (pause <? p.2) then p.2 else pause) 0 paused.

Definition addIPFSJob (cid sync extra : string) (maxTime : option Z) (callbackSymbol : string) : M chain Z :=
  c ← get;
  let pause := sync_pause sync (_ipfsCurrentlyPaused c) in
  execute (stmtInsertIPFSJob (c_str sync) (c_str cid) (c_str extra) (c_str callbackSymbol)
             (if negb (pause =? 0) then Some (i64 pause) else None) maxTime);;
  gets (fun c => u32 (t_ipfs_sequence (c_tables c))).

(** [IPFS::isValidCID] *)
Definition isalnum (c : ascii) : bool :=
  let z := byteZ c in
  (48 <=? z) && (z <=? 57) || (65 <=? z) && (z <=? 90) || (97 <=? z) && (z <=? 122).
Definition isValidCID (cid : string) : bool :=
  negb (bool_decide (cid = ""%string)) && forallb isalnum (chars cid).

(** [IPFS::isLostCID]: a binary search of the sorted table is membership. *)
Definition _knownLostCID : list string := [
  "bafkreiabavnsbsrrlfgisxcgmd7ontytbyh2ilruux7gjfc2hzi4qa5vxy"%string;
  "bafkreiaefjrafwopa4skec2ks3345qkkrgokut6ojvzmufrxu6voubxel4"%string;
  "bafkreiamu6dvkns57pyy7ahuuirtuivshwjwimn5p35cc5zshkvqbna4hy"%string;
  "bafkreianpe4ru6qo27rvv6nom3hamrfzdfljet5gnp2ui6cvagymlwypuy"%string;
  "bafkreib5elfpb43h57cdply5yxweqktsz4ocmrvsidtxffehgfemgi5hwi"%string;
  "bafkreib74tvcm2sd2th5xxop4cont3fxncg75gnnd4dj4ulypn6w5zlh7q"%string;
  "bafkreibc7epd3jpuzg5i2bkdwotiase6qgomlrby6l2gar5cmmye3jpope"%string;
  "bafkreibodwn2cvf6axsfjoung2wfzcq62nayponfnmaxy7bxvmpx7hqqjq"%string;
  "bafkreibsziw2nmgfin5pgxdjzua6yiq3plyp7kya4haxnnra5kla2mdkyu"%string;
  "bafkreibziyku5zy2pdehywvfiynw5o5whdghowhzbwul7psskx3nfc3w4e"%string;
  "bafkreic42xxy2rhziizosvrsitc6ktbiw6gsbxc355kd3g5x2bzibubgse"%string;
  "bafkreic4etklteiiikqrk4yfpofhv2vj6n3m2nqyucwpp2hbupwm3tioxy"%string;
  "bafkreic6xez3wmv3xfjzlpyi22t2vkrs3kgqmvh2bvpqgxv2q36ulkr7em"%string;
  "bafkreidjxv2jwj4ye7ts7f3o3i2q5uxuoiyczwbofu7l5g6qr74yrd5l5i"%string;
  "bafkreidkis7kzj6ymwl247mxhu7ggi334y6lkw3gtxf7q3pstl2rkbsxxq"%string;
  "bafkreie4zpsvel5kdjvg7nu6b7btnddhabmkwekfr36y57wepkb5xhrfn4"%string;
  "bafkreiemvr6co2j6njnfrbdz5nkdtjxlge5wfszycquuukxsdsl3scduvy"%string;
  "bafkreieq4vf22xsxmkch57e6ki4xp7opznnnu3cskbphxaw65lh7qmlici"%string;
  "bafkreiesdfqhnoxtpphota7f32yhtroqwuxguqfotjmuvto3bv34li2hne"%string;
  "bafkreif4adzecnprye3klsz7yim7zrqhdikdlhrv75uk5z2jnlvwkqe2ui"%string;
  "bafkreifdp4xmaz6ymjakya7lfjhmzwf267z4coijhe362ukd5fdzdq37ya"%string;
  "bafkreificfukeremoic7uenn75njz42i2eorcznzyqp2wfyla4c23fgou4"%string;
  "bafkreig4ebwjbzqwvgdqi6fxyjel4h7ysgrylpglvctfw56r3p2d6abnvq"%string;
  "bafkreigs522vgiqvsr66qclwdlhoiubz3mgtewxxqom7ebfntnc6oary3i"%string;
  "bafkreihedtic7vpwogtetqhuhpc4ujbousv3oaimxcshs5e2iyarvr7btq"%string;
  "bafkreihglxkvgwkgw7qzr2qg5s7ctientywybvntnb64lp4s5jv5hj7srm"%string;
  "bafkreihpexqyn25gicpfn73sggqtmz5mxk6tambf2wbjs2ydqchylzon44"%string;
  "bafkreihvwi6b6xxedihdqolm46i5e5znol6hiiv6h6irlx2wqgealv454a"%string].
Definition isLostCID (cid : string) : bool := bool_decide (cid ∈ _knownLostCID).

(** [IPFS::callOnDownload] with its default deadline (none). *)
Definition callOnDownload (cid sync extra callbackRegistry : string) : M chain unit :=
  if negb (isValidCID cid) then mret tt
  else if isLostCID cid then mret tt
  else addIPFSJob cid sync extra None callbackRegistry;; mret tt.

(** ** Starting over: the commands of reset() *)
Definition watch_seed : list string :=
  ["dgb1qunxh378eltj2jrwza5sj9grvu5xud43vqvudwh"; "dgb1qlk3hldeynl3prqw259u8gv0jh7w5nwppxlvt3v"]%string.
Definition master_seed : string := "Ua7Bd7UVtrzavSHhpHxHZ2nzS2hGaHXRMT9sqy".

Definition reset_tables (t : tables) : tables :=
  mk_tables (delete_where (fun r => 1 <? ae_assetIndex r) (t_assets t)) (t_sequence t)
    (delete_where (fun r => 1 <? blk_height r) (t_blocks t)) [] watch_seed [] [] [] [] [] []
    [mk_master_row master_seed true] (t_unknown t) (t_encryptedkeys t) [] (t_ipfs_sequence t)
    (if t_flags t !! "ddSyncHeight"%string then <["ddSyncHeight"%string := 0]> (t_flags t) else t_flags t).

Definition reset : M chain unit :=
  modify (fun c => set_tables (reset_tables (c_tables c)) (set_store (set_utxos (fun _ => []) (c_store c)) c)).
