(* ===== verification/ChainUpdate.v ===== *)
(** ChainUpdate: storing a transaction in the chain database
    ([addToDatabase] and [lookupAssetIndexes] of src/src/DigiByteTransaction.cpp),
    the jobs an issuance schedules, and the chain as an instance of the interface
    the decoders read. *)

From Stdlib Require Import Floats.SpecFloat.
From S2P Require Import Prelude.
From S2P Require Import BitIOCodec.
From S2P Require Import AssetTypes.
From S2P Require Import DigiAssetRules.
From S2P Require Import KYC.
From S2P Require Import Blob.
From S2P Require Import Database.
From S2P Require Import DigiDollar.
From S2P Require Import DigiAsset.
From S2P Require Import UtxoStore.
From S2P Require Import DigiByteTransaction.
From S2P Require Import TransactionDecode.
From S2P Require Import ChainTables.
From S2P Require Import ChainDatabase.

(** ** The chain as the decoders see it *)
Definition flag_value (flag : string) (c : chain) : Z :=
  match _flagState c !! flag with Some v => v | None => default 0 (t_flags (c_tables c) !! flag) end.

(** The statements of [Sqlite] executed on the tables; Core is [core]'s. *)
Definition chain_sqlite (core : Sqlite) (c : chain) : Sqlite := {|
  stmtGetHeightAssetCreated := fun assetId =>
    (fun r => (i32 (ae_assetIndex r), i32 (ae_heightCreated r))) <$> head (assets_with_id (c_str assetId) (c_tables c));
  stmtGetAssetRules := fun assetId => ae_rules <$> head (assets_with_id (c_str assetId) (c_tables c));
  stmtGetSpendingAddress := select_spending_address (utxos (c_store c));
  stmtGetKYC := fun address =>
    (fun r => (kr_country r, kr_name r, kr_hash r, i32 (kr_height r), default 0 (kr_revoked r)))
      <$> select_kyc (c_str address) (c_tables c);
  stmtGetValidExchangeRate := fun height address index =>
    select_valid_rates (i32 height) (c_str address) index (c_tables c);
  stmtGetAsset := fun assetIndex =>
    (fun r => (ae_assetId r, ae_cid r, ae_issueAddress r, ae_rules r, i32 (ae_heightCreated r), i32 (ae_heightUpdated r)))
      <$> asset_at (i64 assetIndex) (c_tables c);
  stmtIsWatchAddress := fun address => on_watch_list address c;
  beenPrunedNonAssetUTXOHistory := negb (flag_value "wasPrunedNonAssetUTXOHistory" c =? 0);
  beenPrunedUTXOHistory := flag_value "wasPrunedUTXOHistory" c;
  digiByteCoreSet := digiByteCoreSet;
  getRawTransaction := getRawTransaction;
  getBlockHeight := getBlockHeight;
  allocatable := allocatable
|}.

(** ** The index of an asset id *)
Section indexes.
Context (core : Sqlite).

(** SELECT assetIndex FROM utxos WHERE txid=? AND vout=? AND aout IS NOT NULL *)
Definition stmtGetAssetIndexOnUTXO (txid : Blob) (vout : Z) (l : list utxo_row) : list Z :=
  map row_assetIndex (List.filter (fun r => at_outpoint txid vout r
                                    && match row_aout r with Some _ => true | None => false end) l).

(** The first candidate whose asset has this id. *)
Fixpoint first_with_id (db : Sqlite) (assetId : string) (l : list Z) : outcome Z :=
  match l with
  | [] => exceptionFailedSelect
  | index :: l =>
      asset ← getAsset (db := db) index 0;
      if bool_decide (_assetId asset = assetId) then Ok index else first_with_id db assetId l
  end.

Definition getAssetIndex_of (assetId txid : string) (vout : Z) (c : chain) : outcome Z :=
  match assets_with_id (c_str assetId) (c_tables c) with
  | [] => exceptionFailedSelect
  | [r] => Ok (u64 (i32 (ae_assetIndex r)))
  | _ =>
      if bool_decide (txid = ""%string) then exceptionFailedSelect
      else
        txidBlob ← Blob_of_hex txid;
        first_with_id (chain_sqlite core c) assetId
          (map (fun z => u64 (i32 z)) (stmtGetAssetIndexOnUTXO txidBlob (i32 vout) (utxos (c_store c))))
  end.
End indexes.

(** [setAssetIndex] on every asset of every output. *)
Fixpoint index_assets (assetIndex : Z) (l : list DigiAsset) : outcome (list DigiAsset) :=
  match l with
  | [] => Ok []
  | a :: l => a ← exec (setAssetIndex assetIndex) a; l ← index_assets assetIndex l; Ok (a :: l)
  end.
Fixpoint index_outputs (assetIndex : Z) (l : list AssetUTXO) : outcome (list AssetUTXO) :=
  match l with
  | [] => Ok []
  | o :: l => x ← index_assets assetIndex (assets o); l ← index_outputs assetIndex l; Ok (set_assets x o :: l)
  end.

(** ** Jobs for new metadata *)

(** The virtual functions of a storage pool that are used here. *)
Record Pool := mk_Pool { getPoolIndex : Z; serializeMetaProcessor : DigiByteTransaction -> string }.

Definition PSP_CALLBACK : string := "PermanentStoragePoolList::_callbackNewMetadata".
Definition DOMAIN_CALLBACK : string := "DigiByteDomain::_callbackNewMetadata".

Definition pool_instructions (pools : list Pool) (t : DigiByteTransaction) (assetIndex : Z) : string :=
  foldl (fun extra pool =>
    let serialized := serializeMetaProcessor pool t in
    if bool_decide (serialized = ""%string) then extra
    else extra ++ ",p" ++ to_string (getPoolIndex pool) ++ ":" ++ serialized)%string
    ("a:" ++ to_string assetIndex)%string pools.

Definition processNewMetaData (pools : list Pool) (t : DigiByteTransaction) (assetIndex : Z) (cid : string) : M chain unit :=
  callOnDownload cid "" (pool_instructions pools t assetIndex) PSP_CALLBACK.

(** [DigiByteDomain::processAssetIssuance] *)
Definition processAssetIssuance (asset : DigiAsset) : M chain unit :=
  c ← get;
  if isDomainCompromised c then mret tt
  else if negb (isMasterDomainAssetId (_assetId asset) c) then mret tt
  else callOnDownload (_cid asset) "DIGIBYTEDOMAIN" "" DOMAIN_CALLBACK.

(** ** Storing a transaction *)
Section add.
Context (core : Sqlite) (pools : list Pool).

Definition is_nan (d : double) : bool := match d with S754_nan => true | _ => false end.

Fixpoint add_rates (outputs : list AssetUTXO) (height index : Z) (rates : list double) : M chain unit :=
  match rates with
  | [] => mret tt
  | rate :: rates =>
      (if is_nan rate then mret tt
       else o ← vec_at outputs 1; addExchangeRate (utxo_address o) index height rate);;
      add_rates outputs height (index + 1) rates
  end.

Definition add_issuance (t : DigiByteTransaction) : M chain DigiByteTransaction :=
  assetIndex ← addAsset (_newAsset t);
  processNewMetaData pools t (u32 assetIndex) (_cid (_newAsset t));;
  processAssetIssuance (_newAsset t);;
  if isAssetIndexSet (_newAsset t) then mret t
  else
    outputs ← lift (index_outputs assetIndex (_outputs t));
    newAsset ← lift (exec (setAssetIndex assetIndex) (_newAsset t));
    mret (set_newAsset newAsset (set_outputs outputs t)).

(** The switch over the transaction type. *)
Definition add_special (t : DigiByteTransaction) : M chain DigiByteTransaction :=
  let done : M chain DigiByteTransaction := mret t in
  if _txType t =? KYC_ISSUANCE then
    country ← lift (getCountry (_kycData t)); name ← lift (getName (_kycData t)); hash ← lift (getHash (_kycData t));
    addKYC (getAddress (_kycData t)) country name hash (_height t);; done
  else if _txType t =? KYC_REVOKE then revokeKYC (getAddress (_kycData t)) (_height t);; done
  else if _txType t =? EXCHANGE_PUBLISH then add_rates (_outputs t) (_height t) 0 (_exchangeRate t);; done
  else if _txType t =? DIGIASSET_ISSUANCE then add_issuance t
  else if _txType t =? ENCRYPTED_KEY then
    o ← vec_at (_outputs t) 0; data ← lift (Blob_of_hex (_opReturnHex t));
    addEncryptedKey (utxo_address o) data;; done
  else if _txType t =? DIGIDOLLAR_MINT then
    if (0 <=? _ddVaultOutput t) && (0 <? _ddCollateral t) then
      vault ← vec_at (_outputs t) (_ddVaultOutput t);
      createDigiDollarVault (_txid t) (u16 (_ddVaultOutput t)) (utxo_address vault) (_ddCollateral t) (_ddMinted t)
        (_ddLockHeight t) (_ddLockTier t) (_height t);; done
    else done
  else if _txType t =? STANDARD then
    if bool_decide (_opReturnHex t = ""%string) then done
    else data ← lift (Blob_of_hex (_opReturnHex t)); addUnknown (_txid t) data;; done
  else done.

(** Every input that is not a coinbase is spent in the three tables. *)
Definition spend_input (t : DigiByteTransaction) (input : AssetUTXO) : M chain unit :=
  if bool_decide (utxo_txid input = ""%string) then mret tt
  else
    on_c_store (spendUTXO (utxo_txid input) (utxo_vout input) (_height t) (_txid t));;
    if _height t <? DIGIDOLLAR_ACTIVATION_HEIGHT then mret tt
    else
      spendDigiDollarUTXO (utxo_txid input) (utxo_vout input) (_height t) (_txid t);;
      redeemDigiDollarVault (utxo_txid input) (utxo_vout input) (_height t) (_txid t);;
      mret tt.

Definition add_dd_output (t : DigiByteTransaction) (o : Z * Z) : M chain unit :=
  out ← vec_at (_outputs t) o.1;
  createDigiDollarUTXO (_txid t) o.1 (utxo_address out) o.2 (_height t).

Definition add_output (t : DigiByteTransaction) (o : AssetUTXO) : M chain unit :=
  c ← get; on_c_store (createUTXO (db := chain_sqlite core c) o (_height t) (_txType t =? DIGIASSET_ISSUANCE)).

Definition add_votes (t : DigiByteTransaction) (o : AssetUTXO) : M chain unit :=
  for_each (assets o) (fun asset =>
    if negb (getIfValidVoteAddress (utxo_address o) (_rules asset)) then mret tt
    else
      index ← lift (getAssetIndex false asset);
      addVote (utxo_address o) (u32 index) (getCount asset) (_height t)).

Definition addToDatabase (t : DigiByteTransaction) : M chain DigiByteTransaction :=
  startTransaction;;
  t ← add_special t;
  for_each (_inputs t) (spend_input t);;
  for_each (_ddOutputs t) (add_dd_output t);;
  for_each (_outputs t) (add_output t);;
  for_each (_outputs t) (add_votes t);;
  endTransaction;;
  mret t.

(** *** Looking the index of an issued asset up afterwards *)
Definition first_with_assets (l : list AssetUTXO) : option AssetUTXO :=
  find (fun o => negb (is_empty (assets o))) l.

(** The output number is read uninitialised when no output has assets. *)
Definition lookupAssetIndexes (t : DigiByteTransaction) (c : chain) : outcome DigiByteTransaction :=
  if negb (isIssuance t) then Ok t
  else if isAssetIndexSet (_newAsset t) then Ok t
  else
    match first_with_assets (_outputs t) with
    | None => UB
    | Some o =>
        index ← getAssetIndex_of core (_assetId (_newAsset t)) (_txid t) (utxo_vout o) c;
        newAsset ← exec (setAssetIndex index) (_newAsset t);
        assetIndex ← getAssetIndex false newAsset;
        outputs ← index_outputs assetIndex (_outputs t);
        Ok (set_newAsset newAsset (set_outputs outputs t))
    end.
End add.
