(* ===== verification/RewindTheorems.v ===== *)
(** RewindTheorems: undoing blocks. A rewind to height [h] after any sequence of
    stored blocks, transactions and oracle prices at heights from [h] on gives
    the tables from before, provided the sequence does not overwrite what was
    recorded below [h]; two statements of the code that do overwrite are
    exhibited. *)

From S2P Require Import Prelude.
From S2P Require Import BitIOCodec.
From S2P Require Import AssetTypes.
From S2P Require Import DigiAssetRules.
From S2P Require Import KYC.
From S2P Require Import Blob.
From S2P Require Import Database.
From S2P Require Import DigiDollar.
From S2P Require Import DigiAsset.
From S2P Require Import UtxoStore.
From S2P Require Import DigiByteTransaction.
From S2P Require Import ChainTables.
From S2P Require Import ChainDatabase.
From S2P Require Import ChainUpdate.

Ltac Zify.zify_post_hook ::= Z.div_mod_to_equations.

(** ** Clearing a table: delete some rows, reset others *)
Section clearing.
Context {R : Type} (p : R -> bool) (u : R -> bool) (g : R -> R).
Implicit Types (r : R) (l : list R).

Definition reset_row r : R := if u r then g r else r.
Definition cleared l : list R := update_where u g (delete_where p l).

Lemma cleared_app l l' : cleared (l ++ l') = cleared l ++ cleared l'.
Proof. unfold cleared, delete_where, update_where. by rewrite List.filter_app, map_app. Qed.

Lemma cleared_cons r l : cleared (r :: l) = if p r then cleared l else reset_row r :: cleared l.
Proof. unfold cleared, delete_where, update_where. cbn [List.filter]. by destruct (p r). Qed.

Lemma cleared_new l r : p r = true -> cleared (l ++ [r]) = cleared l.
Proof. intros H. by rewrite cleared_app, cleared_cons, H, app_nil_r. Qed.

Lemma cleared_ignore same r l : p r = true -> cleared (insert_or_ignore same r l) = cleared l.
Proof. intros H. unfold insert_or_ignore. destruct (existsb _ _); [done|by apply cleared_new]. Qed.

Lemma cleared_delete q l : (forall r, r ∈ l -> q r = true -> p r = true) -> cleared (delete_where q l) = cleared l.
Proof.
  induction l as [|r l IH]; intros H; [done|]. unfold delete_where. cbn [List.filter]. fold (delete_where q l).
  assert (cleared (delete_where q l) = cleared l) as E by (apply IH; intros; apply H; [by right|done]).
  destruct (q r) eqn:Eq; cbn [negb]; rewrite !cleared_cons, ?E; [|done].
  by rewrite (H r) by (done || by left).
Qed.

Lemma cleared_replace same r l :
  p r = true -> (forall r', r' ∈ l -> same r r' = true -> p r' = true) ->
  cleared (insert_or_replace same r l) = cleared l.
Proof. intros Hr H. unfold insert_or_replace. by rewrite cleared_new, cleared_delete by done. Qed.

(** An update is undone when it keeps deleted rows deleted and only changes what
    the reset sets back. *)
Lemma cleared_update q f l :
  (forall r, r ∈ l -> q r = true -> p (f r) = p r /\ (p r = false -> reset_row (f r) = reset_row r)) ->
  cleared (update_where q f l) = cleared l.
Proof.
  induction l as [|r l IH]; intros H; [done|]. unfold update_where. cbn [map]. fold (update_where q f l).
  rewrite !cleared_cons, IH by (intros; apply H; [by right|done]).
  destruct (q r) eqn:Eq; [|done]. destruct (H r) as [-> Hr]; [by left|done|].
  destruct (p r); [done|]. by rewrite Hr.
Qed.

Lemma reset_in_cleared r l : r ∈ l -> p r = false -> reset_row r ∈ cleared l.
Proof.
  induction l as [|x l IH]; intros Hin Hp; [by apply not_elem_of_nil in Hin|].
  rewrite cleared_cons. apply elem_of_cons in Hin as [->|Hin].
  - rewrite Hp. by left.
  - destruct (p x); [|right]; by apply IH.
Qed.

(** Marking rows that a rewind leaves unmarked ([N]) is undone by it. *)
Lemma cleared_mark (N : R -> Prop) q f l :
  (forall r, p (f r) = p r /\ u (f r) = true /\ g (f r) = g r /\ q (g r) = q r) ->
  (forall r, u r = false -> N r -> g r = r) ->
  (forall r, r ∈ cleared l -> q r = true -> N r) ->
  cleared (update_where q f l) = cleared l.
Proof.
  intros Hf HN Hl. apply cleared_update. intros r Hr Hq. destruct (Hf r) as (Ep & Eu & Eg & Eq).
  split; [done|]. intros Hp. pose proof (reset_in_cleared r l Hr Hp) as Hin. apply Hl in Hin.
  - unfold reset_row in *. rewrite Eu, Eg. destruct (u r) eqn:E; [done|by apply HN].
  - unfold reset_row. destruct (u r); [by rewrite Eq|done].
Qed.

(** Replacing a key that no remaining row has. *)
Lemma cleared_replace_fresh same r l :
  p r = true -> (forall r', same r (g r') = same r r') -> (forall r', r' ∈ cleared l -> same r r' = false) ->
  cleared (insert_or_replace same r l) = cleared l.
Proof.
  intros Hr Hs Hl. apply cleared_replace; [done|]. intros r' Hr' E. apply not_false_iff_true. intros Hp.
  pose proof (Hl _ (reset_in_cleared r' l Hr' Hp)) as H. unfold reset_row in H. destruct (u r'); [rewrite Hs in H|]; congruence.
Qed.

(** Nothing to clear. *)
Lemma cleared_id l : (forall r, r ∈ l -> p r = false /\ u r = false) -> cleared l = l.
Proof.
  induction l as [|r l IH]; intros H; [done|]. rewrite cleared_cons.
  destruct (H r) as [-> Hu]; [by left|]. unfold reset_row. rewrite Hu. f_equal. apply IH. intros. apply H. by right.
Qed.
End clearing.

Lemma delete_is_cleared {R} (p : R -> bool) l : delete_where p l = cleared p (fun _ => false) (fun r => r) l.
Proof. unfold cleared, update_where. symmetry. apply map_id. Qed.

(** ** What a rewind leaves *)
Record view := mk_view {
  v_utxos : list utxo_row; v_assets : list asset_entry; v_blocks : list block_row; v_exchange : list exchange_row;
  v_kyc : list kyc_row; v_votes : list vote_row; v_ddutxos : list ddutxo_row; v_ddvaults : list ddvault_row;
  v_ddoracle : list oracle_row }.

(** The contents of the nine tables that a rewind clears: outputs, assets, blocks,
    exchange rates, identities, votes, and the three of DigiDollar. *)
Definition contents (c : chain) : view :=
  let t := c_tables c in
  mk_view (utxos (c_store c)) (t_assets t) (t_blocks t) (t_exchange t) (t_kyc t) (t_votes t) (t_ddutxos t)
    (t_ddvaults t) (t_ddoracle t).

(** The other tables: a rewind has no command for them. *)
Record rest_view := mk_rest_view {
  v_exchangeWatch : list string; v_domains : list domain_row; v_domainsMasters : list master_row;
  v_unknown : list (Blob * Blob); v_encryptedkeys : list (string * Blob); v_ipfs : list ipfs_row }.
Definition not_rewound (c : chain) : rest_view :=
  let t := c_tables c in
  mk_rest_view (t_exchangeWatch t) (t_domains t) (t_domainsMasters t) (t_unknown t) (t_encryptedkeys t) (t_ipfs t).

Definition rewound (h : Z) (c : chain) : view := contents (snd (clearBlocksAboveHeight h c)).

(** No row is from height [h] or later, and no asset counter is ahead. *)
Definition below (h : Z) (c : chain) : Prop :=
  let t := c_tables c in
  (forall r, r ∈ utxos (c_store c) -> row_heightCreated r < h /\ null_ge (row_heightDestroyed r) h = false)
  /\ (forall r, r ∈ t_assets t -> ae_heightCreated r < h)
  /\ (forall r, r ∈ t_blocks t -> blk_height r <= h)
  /\ (forall r, r ∈ t_exchange t -> ex_height r < h)
  /\ (forall r, r ∈ t_kyc t -> kr_height r < h /\ null_ge (kr_revoked r) h = false)
  /\ (forall r, r ∈ t_votes t -> vr_height r < h)
  /\ (forall r, r ∈ t_ddutxos t -> du_heightCreated r < h /\ null_ge (du_heightDestroyed r) h = false)
  /\ (forall r, r ∈ t_ddvaults t -> dv_heightCreated r < h /\ null_ge (dv_heightRedeemed r) h = false)
  /\ (forall r, r ∈ t_ddoracle t -> or_height r < h).

Lemma rewound_below h c : below h c -> rewound h c = contents c.
Proof.
  intros (H1 & H2 & H3 & H4 & H5 & H6 & H7 & H8 & H9).
  unfold rewound, contents. cbn -[Z.leb Z.ltb].
  unfold clear_utxos_from, clear_assets_from, clear_blocks_above, clear_exchange_from, clear_kyc_from, clear_votes_from,
    clear_ddutxos_from, clear_ddvaults_from, clear_oracle_from.
  rewrite !delete_is_cleared. f_equal.
  all: match goal with
       | |- update_where _ _ (cleared _ _ _ ?l) = ?l => rewrite <- delete_is_cleared; apply cleared_id
       | _ => apply cleared_id
       end; intros r Hr.
  - apply H1 in Hr as [Hr Hd]. split; [apply Z.leb_gt; lia|done].
  - apply H2 in Hr. split; [|done]. apply andb_false_intro2, Z.leb_gt. lia.
  - apply H3 in Hr. split; [apply Z.ltb_ge; lia|done].
  - apply H4 in Hr. split; [apply Z.leb_gt; lia|done].
  - apply H5 in Hr as [Hr Hd]. split; [apply Z.leb_gt; lia|done].
  - apply H6 in Hr. split; [apply Z.leb_gt; lia|done].
  - apply H7 in Hr as [Hr Hd]. split; [apply Z.leb_gt; lia|done].
  - apply H8 in Hr as [Hr Hd]. split; [apply Z.leb_gt; lia|done].
  - apply H9 in Hr. split; [apply Z.leb_gt; lia|done].
Qed.

(** ** Recording without overwriting *)

(** What a transaction from height [h] on may touch, given what is recorded
    below [h]: an output it spends is not recorded as spent, an identity it
    revokes is not recorded as revoked, an asset it issues has no record, and
    its DigiDollar outputs and vault have none. *)
Definition fresh_utxo (v : view) (txid : string) (vout : Z) : Prop :=
  forall blob r, Blob_of_hex txid = Ok blob -> r ∈ v_utxos v -> at_outpoint blob (i32 vout) r = true ->
    row_heightDestroyed r = None /\ row_spentTXID r = None.
Definition fresh_ddutxo (v : view) (txid : string) (vout : Z) : Prop :=
  forall blob r, Blob_of_hex txid = Ok blob -> r ∈ v_ddutxos v -> ddutxo_at blob vout r = true ->
    du_heightDestroyed r = None /\ du_spentTXID r = None.
Definition fresh_ddvault (v : view) (txid : string) (vout : Z) : Prop :=
  forall blob r, Blob_of_hex txid = Ok blob -> r ∈ v_ddvaults v -> ddvault_at blob vout r = true ->
    dv_heightRedeemed r = None /\ dv_redeemedTXID r = None.
Definition no_ddutxo (v : view) (txid : string) (vout : Z) : Prop :=
  forall blob r, Blob_of_hex txid = Ok blob -> r ∈ v_ddutxos v -> ddutxo_at blob vout r = false.
Definition no_ddvault (v : view) (txid : string) (vout : Z) : Prop :=
  forall blob r, Blob_of_hex txid = Ok blob -> r ∈ v_ddvaults v -> ddvault_at blob vout r = false.
Definition fresh_identity (v : view) (address : string) : Prop :=
  forall r, r ∈ v_kyc v -> kr_address r = c_str address -> kr_revoked r = None.
Definition fresh_asset (v : view) (h : Z) (a : DigiAsset) : Prop :=
  (forall r, r ∈ v_assets v -> ae_assetId r <> c_str (_assetId a)) /\ h <= _heightCreated a < 2147483648.

Definition lossless (v : view) (h : Z) (t : DigiByteTransaction) : Prop :=
  h <= _height t < 2147483648
  /\ Forall (fun i => fresh_utxo v (utxo_txid i) (utxo_vout i) /\ fresh_ddutxo v (utxo_txid i) (utxo_vout i)
                      /\ fresh_ddvault v (utxo_txid i) (utxo_vout i)) (_inputs t)
  /\ Forall (fun o => no_ddutxo v (_txid t) o.1) (_ddOutputs t)
  /\ (_txType t = DIGIDOLLAR_MINT -> no_ddvault v (_txid t) (u16 (_ddVaultOutput t)))
  /\ (_txType t = KYC_REVOKE -> fresh_identity v (getAddress (_kycData t)))
  /\ (_txType t = DIGIASSET_ISSUANCE -> fresh_asset v h (_newAsset t)).

(** What is written while blocks are indexed. *)
Inductive write :=
  | w_tx (t : DigiByteTransaction)
  | w_block (height : Z) (hash : string) (time algo : Z) (difficulty : double)
  | w_rate (height epoch price time participants : Z).

Definition lossless_write (v : view) (h : Z) (w : write) : Prop :=
  match w with
  | w_tx t => lossless v h t
  | w_block height _ _ _ _ => h < height < 2147483648
  | w_rate height _ _ _ _ => h <= height < 2147483648
  end.

Section writes.
Context (core : Sqlite) (pools : list Pool).

(** The state after a write, also if it throws. *)
Definition run_write (c : chain) (w : write) : chain :=
  match w with
  | w_tx t => snd (addToDatabase core pools t c)
  | w_block height hash time algo difficulty => snd (insertBlock height hash time algo difficulty c)
  | w_rate height epoch price time participants => snd (addDigiDollarRate height epoch price time participants c)
  end.
Definition run_writes (ws : list write) (c : chain) : chain := foldl run_write c ws.
End writes.

(** Asset indices are unique and counted by the sequence, which is at most [n]. *)
Definition numbered (n : Z) (c : chain) : Prop :=
  let t := c_tables c in
  NoDup (ae_assetIndex <$> t_assets t)
  /\ (forall r, r ∈ t_assets t -> 1 <= ae_assetIndex r <= t_sequence t)
  /\ 0 <= t_sequence t <= n.

Section stays.
Context (h : Z) (v : view).

Definition holds (n : Z) (c : chain) : Prop := rewound h c = v /\ numbered n c.
Definition stays {A} (n m : Z) (x : M chain A) : Prop := n <= m /\ forall c, holds n c -> holds m (snd (x c)).

Lemma holds_weaken n m c : n <= m -> holds n c -> holds m c.
Proof. intros Hn (H1 & H2 & H3 & H4 & H5). cbv zeta in *. split; [done|]. split; [done|]. split; [done|]. lia. Qed.

Lemma stays_pure {A} n (x : M chain A) : (forall c, snd (x c) = c) -> stays n n x.
Proof. intros H. split; [lia|]. intros c Hc. by rewrite H. Qed.

(** Whatever the first computation can return, the second keeps the view. *)
Lemma stays_bind_result {A B} n k m (x : M chain A) (f : A -> M chain B) :
  stays n k x -> (forall a c c', x c = (Ok a, c') -> stays k m (f a)) -> k <= m -> stays n m (x ≫= f).
Proof.
  intros [Hn Hx] Hf Hk. split; [lia|]. intros c Hc. unfold mbind, M_bind. specialize (Hx c Hc).
  destruct (x c) as [[a| | |] c'] eqn:E; cbn [snd] in *; [by eapply Hf|by apply (holds_weaken k)..].
Qed.

Lemma stays_bind {A B} n k m (x : M chain A) (f : A -> M chain B) :
  stays n k x -> (forall a, stays k m (f a)) -> k <= m -> stays n m (x ≫= f).
Proof. intros. by eapply stays_bind_result. Qed.

Lemma stays_weaken {A} n k m (x : M chain A) : stays n k x -> k <= m -> stays n m x.
Proof. intros [Hn Hx] Hk. split; [lia|]. intros c Hc. apply (holds_weaken k); [done|by apply Hx]. Qed.

Lemma stays_bind_same {A B} n (x : M chain A) (f : A -> M chain B) :
  stays n n x -> (forall a, stays n n (f a)) -> stays n n (x ≫= f).
Proof. intros. by eapply stays_bind. Qed.

Lemma stays_for_each {A} n (f : A -> M chain unit) l :
  Forall (fun x => stays n n (f x)) l -> stays n n (for_each l f).
Proof.
  induction 1 as [|x l Hx _ IH]; cbn [for_each]; [by apply stays_pure|].
  by apply stays_bind_same.
Qed.

Lemma stays_modify n (f : chain -> chain) :
  (forall c, holds n c -> holds n (f c)) -> stays n n (modify f).
Proof. intros H. split; [lia|]. intros c Hc. by apply H. Qed.

(** A statement on a table other than [assets]. *)
Lemma stays_execute n (f : tables -> tables) :
  (forall c, rewound h c = v -> rewound h (set_tables (f (c_tables c)) c) = v) ->
  (forall t, t_assets (f t) = t_assets t /\ t_sequence (f t) = t_sequence t) -> stays n n (execute f).
Proof.
  intros Hf Ha. apply stays_modify. intros c [Hv Hn]. split; [by apply Hf|].
  unfold numbered in *. cbn [c_tables set_tables]. by destruct (Ha (c_tables c)) as [-> ->].
Qed.

(** A statement on a table that a rewind does not touch. *)
Lemma stays_other n (f : tables -> tables) :
  (forall c, rewound h (set_tables (f (c_tables c)) c) = rewound h c) ->
  (forall t, t_assets (f t) = t_assets t /\ t_sequence (f t) = t_sequence t) -> stays n n (execute f).
Proof. intros Hf. apply stays_execute. intros c <-. apply Hf. Qed.

Lemma stays_store {A} n (m : M store A) :
  (forall s, clear_utxos_from h (utxos s) = v_utxos v ->
             clear_utxos_from h (utxos (snd (m s))) = v_utxos v) -> stays n n (on_c_store m).
Proof.
  intros Hm. split; [lia|]. intros c [Hv Hn]. unfold on_c_store. specialize (Hm (c_store c)).
  destruct (m (c_store c)) as [o s]. split; [|done]. rewrite <- Hv in *. unfold rewound, contents in *. cbn in *.
  by rewrite Hm.
Qed.
End stays.

(** Turns a goal about one cleared table into one about its rows. *)
Ltac one_table :=
  intros c Hv; rewrite <- Hv in *; unfold rewound, contents in *; cbn in *; f_equal.

(** ** The outputs *)
Section outputs.
Context (h : Z).
Notation clear := (clear_utxos_from h).

Lemma clear_create r l : h <= row_heightCreated r -> clear (stmtCreateUTXO r l) = clear l.
Proof. intros Hr. apply (cleared_ignore _ _ _ same_key). by apply Z.leb_le. Qed.

Lemma create_assets_cleared `{db : Sqlite} o blob height i l aout s :
  h <= i32 height -> clear (utxos (snd (create_assets o blob height i l aout s))) = clear (utxos s).
Proof.
  intros Hh. revert aout s; induction l as [|a l IH]; intros aout s; [done|]. cbn [create_assets].
  unfold mbind, M_bind, lift, modify. destruct (getAssetIndex false a); [|done..].
  rewrite IH. by apply clear_create.
Qed.

Lemma createUTXO_cleared `{db : Sqlite} o height i s :
  h <= i32 height -> clear (utxos (snd (createUTXO o height i s))) = clear (utxos s).
Proof.
  intros Hh. unfold createUTXO. case_bool_decide; [done|]. destruct (_ && _).
  { unfold modify, cache_utxo. by destruct (_ <? _). }
  unfold mbind, M_bind, lift, modify. destruct (Blob_of_hex (utxo_txid o)); [|done..].
  rewrite create_assets_cleared by done. by apply clear_create.
Qed.

(** A row that a rewind leaves unspent can be spent again from [h] on. *)
Lemma spendUTXO_cleared txid vout height by_ s :
  h <= i32 height ->
  (forall blob r, Blob_of_hex txid = Ok blob -> r ∈ clear (utxos s) -> at_outpoint blob (i32 vout) r = true ->
     row_heightDestroyed r = None /\ row_spentTXID r = None) ->
  clear (utxos (snd (spendUTXO txid vout height by_ s))) = clear (utxos s).
Proof.
  intros Hh Hf. unfold spendUTXO, mbind, M_bind, lift, modify.
  destruct (Blob_of_hex txid) as [blob| | |] eqn:E; [|done..]. destruct (Blob_of_hex by_) as [spender| | |]; [|done..].
  cbn [snd utxos set_utxos]. apply Z.leb_le in Hh.
  apply (cleared_mark _ _ _ (fun r => row_heightDestroyed r = None /\ row_spentTXID r = None)); [done| |eauto].
  intros [] _ [??]. cbn in *. by subst.
Qed.
End outputs.

(** ** The statements *)
Section statements.
Context (h : Z) (v : view) (n : Z).
Notation stays := (stays h v n n).

Lemma stays_createUTXO `{db : Sqlite} o height i : h <= i32 height -> stays (on_c_store (createUTXO o height i)).
Proof. intros Hh. apply stays_store. intros s Hs. by rewrite createUTXO_cleared. Qed.

Lemma stays_spendUTXO txid vout height by_ :
  h <= i32 height -> fresh_utxo v txid vout -> stays (on_c_store (spendUTXO txid vout height by_)).
Proof. intros Hh Hf. apply stays_store. intros s Hs. rewrite spendUTXO_cleared; [done..|]. by rewrite Hs. Qed.

Lemma stays_addExchangeRate address index height rate :
  h <= i32 height -> stays (addExchangeRate address index height rate).
Proof.
  intros Hh. apply stays_other; [|done]. intros c. unfold rewound, contents. cbn. f_equal.
  unfold clear_exchange_from. rewrite !delete_is_cleared.
  apply cleared_replace; [by apply Z.leb_le|]. unfold same_rate. cbn. intros r _ Hr.
  apply andb_true_iff in Hr as [_ Hr]. apply Z.eqb_eq in Hr. apply Z.leb_le. lia.
Qed.

Lemma stays_addKYC address country name hash height :
  h <= i32 height -> stays (addKYC address country name hash height).
Proof.
  intros Hh. unfold addKYC. apply stays_bind_same; [by apply stays_pure|]. intros blob.
  apply stays_other; [|done]. intros c. unfold rewound, contents. cbn. f_equal.
  apply cleared_ignore. by apply Z.leb_le.
Qed.

Lemma stays_revokeKYC address height :
  h <= i32 height -> fresh_identity v address -> stays (revokeKYC address height).
Proof.
  intros Hh Hf. apply stays_execute; [|done]. intros c <-. unfold rewound, contents. cbn. f_equal.
  apply Z.leb_le in Hh. apply (cleared_mark _ _ _ (fun r => kr_revoked r = None)); [done| |].
  - intros [] _ ?. cbn in *. by subst.
  - intros r Hr Hq. apply bool_decide_eq_true in Hq. by apply Hf.
Qed.

Lemma stays_addVote address index count height : h <= i32 height -> stays (addVote address index count height).
Proof.
  intros Hh. apply stays_other; [|done]. intros c. unfold rewound, contents. cbn. f_equal.
  unfold clear_votes_from. rewrite !delete_is_cleared. destruct (existsb _ _).
  - apply cleared_update. intros r _ Hq. cbn. split; [done|]. unfold same_vote in Hq. cbn in Hq.
    apply andb_true_iff in Hq as [_ Hq]. apply Z.eqb_eq in Hq. intros Hp. apply Z.leb_gt in Hp. lia.
  - apply cleared_new. by apply Z.leb_le.
Qed.

Lemma stays_lift_bind {A B} (o : outcome A) (f : A -> M chain B) :
  (forall a, o = Ok a -> stays (f a)) -> stays (lift o ≫= f).
Proof.
  intros Hf. destruct o as [a| | |]; [|by apply stays_pure..].
  destruct (Hf a eq_refl) as [_ H]. split; [lia|]. exact H.
Qed.

Lemma stays_ret {A} (a : A) : stays (mret a).
Proof. by apply stays_pure. Qed.

Lemma stays_when_ok (b : bool) (m : M chain unit) : stays m -> stays (if b then mret tt else m).
Proof. intros Hm. destruct b; [apply stays_ret|done]. Qed.

Lemma stays_createDigiDollarUTXO txid vout address amount height :
  h <= i32 height -> no_ddutxo v txid vout -> stays (createDigiDollarUTXO txid vout address amount height).
Proof.
  intros Hh Hf. unfold createDigiDollarUTXO. case_bool_decide; [apply stays_ret|]. apply stays_when_ok.
  apply stays_lift_bind. intros blob Hb.
  apply stays_execute; [|done]. intros c <-. unfold rewound, contents. cbn. f_equal.
  apply cleared_replace_fresh; [by apply Z.leb_le|done|]. intros r Hr. by apply (Hf blob).
Qed.

Lemma stays_createDigiDollarVault txid vout address collateral minted lockHeight lockTier height :
  h <= i32 height -> no_ddvault v txid vout ->
  stays (createDigiDollarVault txid vout address collateral minted lockHeight lockTier height).
Proof.
  intros Hh Hf. apply stays_lift_bind. intros blob Hb.
  apply stays_execute; [|done]. intros c <-. unfold rewound, contents. cbn. f_equal.
  apply cleared_replace_fresh; [by apply Z.leb_le|done|]. intros r Hr. by apply (Hf blob).
Qed.

Lemma stays_spendDigiDollarUTXO txid vout height by_ :
  h <= i32 height -> fresh_ddutxo v txid vout -> stays (spendDigiDollarUTXO txid vout height by_).
Proof.
  intros Hh Hf. unfold spendDigiDollarUTXO, getDigiDollarOnUTXO.
  apply stays_bind_same; [apply stays_lift_bind; intros; by apply stays_pure|]. intros amount.
  destruct (amount =? 0); [apply stays_ret|].
  apply stays_lift_bind. intros spender _. apply stays_lift_bind. intros blob Hb.
  apply stays_bind_same; [|intros; apply stays_ret].
  apply stays_execute; [|done]. intros c <-. unfold rewound, contents. cbn. f_equal.
  apply Z.leb_le in Hh. apply (cleared_mark _ _ _ (fun r => du_heightDestroyed r = None /\ du_spentTXID r = None)); [done| |eauto].
  intros [] _ [??]. cbn in *. by subst.
Qed.

Lemma stays_redeemDigiDollarVault txid vout height by_ :
  h <= i32 height -> fresh_ddvault v txid vout -> stays (redeemDigiDollarVault txid vout height by_).
Proof.
  intros Hh Hf. unfold redeemDigiDollarVault.
  apply stays_lift_bind. intros blob Hb. apply stays_bind_same; [by apply stays_pure|]. intros [minted|]; [|apply stays_ret].
  apply stays_lift_bind. intros spender _. apply stays_bind_same; [|intros; apply stays_ret].
  apply stays_execute; [|done]. intros c <-. unfold rewound, contents. cbn. f_equal.
  apply Z.leb_le in Hh. apply (cleared_mark _ _ _ (fun r => dv_heightRedeemed r = None /\ dv_redeemedTXID r = None)); [done| |eauto].
  intros [] _ [??]. cbn in *. by subst.
Qed.

Lemma stays_insertBlock height hash time algo difficulty :
  h < i32 height -> stays (insertBlock height hash time algo difficulty).
Proof.
  intros Hh. apply stays_lift_bind. intros blob _. apply stays_other; [|done].
  intros c. unfold rewound, contents. cbn. f_equal. unfold clear_blocks_above. rewrite !delete_is_cleared.
  apply cleared_replace; [by apply Z.ltb_lt|]. cbn. intros r _ Hr. apply Z.eqb_eq in Hr. apply Z.ltb_lt. lia.
Qed.

Lemma stays_addDigiDollarRate height epoch price time participants :
  h <= i32 height -> stays (addDigiDollarRate height epoch price time participants).
Proof.
  intros Hh. apply stays_other; [|done]. intros c. unfold rewound, contents. cbn. f_equal.
  unfold clear_oracle_from. rewrite !delete_is_cleared. apply cleared_ignore. by apply Z.leb_le.
Qed.

(** *** Jobs and data outside the rewind *)
Lemma stays_callOnDownload cid sync extra callback : stays (callOnDownload cid sync extra callback).
Proof.
  unfold callOnDownload. destruct (isValidCID cid); cbn [negb]; [|apply stays_ret]. apply stays_when_ok.
  unfold addIPFSJob. apply stays_bind_same; [|intros; apply stays_ret].
  apply stays_bind_same; [by apply stays_pure|]. intros c.
  apply stays_bind_same; [by apply stays_other|intros; by apply stays_pure].
Qed.

Lemma stays_addUnknown txid data : stays (addUnknown txid data).
Proof. apply stays_lift_bind. intros. by apply stays_other. Qed.
Lemma stays_addEncryptedKey address data : stays (addEncryptedKey address data).
Proof. by apply stays_other. Qed.
Lemma stays_transaction (f : chain -> chain) :
  (forall c, c_store (f c) = c_store c /\ c_tables (f c) = c_tables c) -> stays (modify f).
Proof.
  intros Hf. apply stays_modify. intros c [Hv Hn]. destruct (Hf c) as [E1 E2].
  unfold holds, rewound, contents, numbered in *. cbn in *. by rewrite E1, E2.
Qed.
End statements.

(** ** Assets *)
Lemma update_where_fmap {R A} (k : R -> A) q f (l : list R) :
  (forall r, k (f r) = k r) -> k <$> update_where q f l = k <$> l.
Proof.
  intros Hk. induction l as [|r l IH]; [done|]. unfold update_where in *. cbn. rewrite IH. by destruct (q r); rewrite ?Hk.
Qed.

Lemma update_where_elem {R} q f (l : list R) r :
  r ∈ update_where q f l -> exists r', r' ∈ l /\ (r = r' \/ r = f r').
Proof.
  unfold update_where. intros Hr. apply list_elem_of_In, in_map_iff in Hr as (r' & <- & Hr).
  exists r'. split; [by apply list_elem_of_In|]. destruct (q r'); auto.
Qed.

Lemma select_head {R} q (l : list R) r l' : select_where q l = r :: l' -> r ∈ l /\ q r = true.
Proof.
  intros H. assert (r ∈ select_where q l) as Hr by (rewrite H; by left).
  unfold select_where in Hr. apply list_elem_of_In, List.filter_In in Hr as [??]. by rewrite list_elem_of_In.
Qed.

Lemma NoDup_index (l : list asset_entry) r r' :
  NoDup (ae_assetIndex <$> l) -> r ∈ l -> r' ∈ l -> ae_assetIndex r = ae_assetIndex r' -> r = r'.
Proof.
  intros Hn Hr Hr' E. apply list_elem_of_lookup in Hr as [i Hi]. apply list_elem_of_lookup in Hr' as [j Hj].
  assert (i = j) as ->; [|congruence].
  apply (NoDup_lookup (ae_assetIndex <$> l) i j (ae_assetIndex r)); [done| |]; rewrite list_lookup_fmap.
  - by rewrite Hi.
  - rewrite Hj. cbn. by rewrite E.
Qed.

Section assets.
Context (h : Z) (v : view) (n : Z).

Lemma add_row_stays r :
  1 < h <= ae_heightCreated r -> forall c, holds h v n c -> ae_assetIndex r = t_sequence (c_tables c) + 1 ->
  holds h v (n + 1) (set_tables (set_t_sequence (ae_assetIndex r) (set_t_assets (t_assets (c_tables c) ++ [r]) (c_tables c))) c).
Proof.
  intros Hh c [<- (Hd & Hi & Hn)] Er. split.
  - unfold rewound, contents. cbn. f_equal. unfold clear_assets_from. rewrite !delete_is_cleared.
    apply cleared_new. apply andb_true_iff. split; [apply Z.ltb_lt|apply Z.leb_le]; lia.
  - unfold numbered. cbn. rewrite fmap_app, Er. cbn. split_and!; [| |lia..].
    + apply NoDup_app. split_and!; [done| |apply NoDup_singleton]. intros i Hi' H'. apply list_elem_of_singleton in H' as ->.
      apply list_elem_of_fmap in Hi' as (r' & Hr' & Hi''). apply Hi in Hi''. lia.
    + intros r' [Hr'|Hr']%elem_of_app; [apply Hi in Hr'; lia|]. apply list_elem_of_singleton in Hr' as ->. lia.
Qed.

Lemma stays_addAsset asset :
  1 < h -> n < 2147483647 -> fresh_asset v h asset -> stays h v n (n + 1) (addAsset asset).
Proof.
  intros Hh Hmax [Hf Hc]. split; [lia|]. intros c Hold. unfold addAsset.
  unfold mbind, M_bind, gets, execute, modify, mret, M_ret. cbv zeta.
  destruct (Z.eqb_spec (existing_index asset (c_tables c)) 0) as [_|Hne]; cbn [negb snd].
  {
    unfold stmtAddAsset. cbv zeta. match goal with |- context [_ ++ [?r]] => apply (add_row_stays r) end; [|done|done].
    cbn [ae_heightCreated]. rewrite i32_small by lia. lia. }
  apply (holds_weaken _ _ n); [lia|]. destruct Hold as [<- (Hd & Hi & Hn)].
  assert (exists r0 l, assets_with_id (c_str (_assetId asset)) (c_tables c) = r0 :: l
            /\ existing_index asset (c_tables c) = u64 (i32 (ae_assetIndex r0))) as (r0 & l & E & Ei).
  { unfold existing_index in *. destruct (_ && _); [|done]. destruct (assets_with_id _ _) as [|r0 l]; [done|]. by exists r0, l. }
  apply select_head in E as [Hr0 Hid]. apply bool_decide_eq_true in Hid.
  assert (i64 (existing_index asset (c_tables c)) = ae_assetIndex r0) as Ek.
  { rewrite Ei. apply Hi in Hr0. rewrite i32_small by lia. unfold u64, i64, two64. change (2 ^ 63) with 9223372036854775808. lia. }
  rewrite Ek. split.
  - unfold rewound, contents. cbn. f_equal. unfold clear_assets_from. rewrite !delete_is_cleared.
    apply cleared_update. intros r Hr Hq. cbn. split; [done|]. apply Z.eqb_eq in Hq.
    assert (r = r0) as -> by by apply (NoDup_index (t_assets (c_tables c))). intros Hp. exfalso. apply (Hf r0); [|done].
    unfold rewound, contents. cbn. unfold clear_assets_from. rewrite delete_is_cleared.
    apply (reset_in_cleared (fun r => (1 <? ae_heightCreated r) && (h <=? ae_heightCreated r)) (fun _ => false) (fun r => r)); done.
  - unfold numbered. cbn. rewrite update_where_fmap by done. split_and!; [done| |lia..].
    intros r (r' & Hr' & [-> | ->])%update_where_elem; by apply Hi in Hr'.
Qed.
End assets.

(** ** A transaction *)
Section transaction.
Context (core : Sqlite) (pools : list Pool) (h : Z) (v : view) (n : Z).
Notation stays := (stays h v n n).

Lemma stays_processAssetIssuance asset : stays (processAssetIssuance asset).
Proof.
  unfold processAssetIssuance. apply stays_bind_same; [by apply stays_pure|]. intros c.
  apply stays_when_ok. apply stays_when_ok. apply stays_callOnDownload.
Qed.

Lemma stays_add_rates outputs height index rates : h <= i32 height -> stays (add_rates outputs height index rates).
Proof.
  intros Hh. revert index; induction rates as [|rate rates IH]; intros index; [apply stays_ret|]. cbn [add_rates].
  apply stays_bind_same; [|by intros]. apply stays_when_ok. apply stays_bind_same.
  - apply stays_pure. intros c. unfold vec_at. by repeat case_match.
  - intros o. by apply stays_addExchangeRate.
Qed.

Lemma stays_spend_input t input :
  h <= i32 (_height t) ->
  fresh_utxo v (utxo_txid input) (utxo_vout input) /\ fresh_ddutxo v (utxo_txid input) (utxo_vout input)
  /\ fresh_ddvault v (utxo_txid input) (utxo_vout input) -> stays (spend_input t input).
Proof.
  intros Hh (H1 & H2 & H3). unfold spend_input. case_bool_decide; [apply stays_ret|].
  apply stays_bind_same; [by apply stays_spendUTXO|]. intros _. apply stays_when_ok.
  apply stays_bind_same; [by apply stays_spendDigiDollarUTXO|]. intros _.
  apply stays_bind_same; [by apply stays_redeemDigiDollarVault|]. intros _. apply stays_ret.
Qed.

Lemma stays_vec_at {A} (l : list A) i : stays (vec_at l i).
Proof. apply stays_pure. intros c. unfold vec_at. by repeat case_match. Qed.

Lemma stays_add_dd_output t o :
  h <= i32 (_height t) -> no_ddutxo v (_txid t) o.1 -> stays (add_dd_output t o).
Proof.
  intros Hh Ho. apply stays_bind_same; [apply stays_vec_at|]. intros out. by apply stays_createDigiDollarUTXO.
Qed.

Lemma stays_add_votes t o : h <= i32 (_height t) -> stays (add_votes t o).
Proof.
  intros Hh. apply stays_for_each, Forall_forall. intros a _. apply stays_when_ok.
  apply stays_lift_bind. intros index _. by apply stays_addVote.
Qed.

Lemma stays_add_output t o : h <= i32 (_height t) -> stays (add_output core t o).
Proof. intros Hh. apply stays_bind_same; [by apply stays_pure|]. intros c. by apply stays_createUTXO. Qed.
End transaction.

(** The switch changes nothing the rest of [addToDatabase] reads but the outputs. *)
Definition same_frame (t t' : DigiByteTransaction) : Prop :=
  _inputs t' = _inputs t /\ _ddOutputs t' = _ddOutputs t /\ _txid t' = _txid t /\ _height t' = _height t.

Lemma bind_frame {A} (x : M chain A) (f : A -> M chain DigiByteTransaction) t :
  (forall a c t' c', f a c = (Ok t', c') -> same_frame t t') ->
  forall c t' c', (x ≫= f) c = (Ok t', c') -> same_frame t t'.
Proof. intros Hf c t' c' (a & c1 & _ & H)%bind_ok_inv. by eapply Hf. Qed.

Lemma add_special_frame pools t c t' c' : add_special pools t c = (Ok t', c') -> same_frame t t'.
Proof.
  assert (forall c t' c', (mret t : M chain DigiByteTransaction) c = (Ok t', c') -> same_frame t t') as Hret
    by (intros ??? H; injection H as <- <-; by split_and!).
  unfold add_special, add_issuance. revert c t' c'. repeat case_match; repeat (eapply bind_frame; intros ?); try apply Hret.
  intros ??? H'. injection H' as <- <-. by split_and!.
Qed.

Section database.
Context (core : Sqlite) (pools : list Pool) (h : Z) (v : view).

Lemma stays_add_special n t :
  1 < h -> n < 2147483647 -> lossless v h t -> stays h v n (n + 1) (add_special pools t).
Proof.
  intros Hh Hn (Hr & Hi & Ho & Hvault & Hkyc & Hasset).
  assert (h <= i32 (_height t)) as Hheight by (rewrite i32_small; lia).
  unfold add_special. cbv zeta. repeat case_match;
    repeat match goal with H : (_ =? _) = true |- _ => apply Z.eqb_eq in H end.
  4: { specialize (Hasset ltac:(done)). unfold add_issuance.
       eapply stays_bind; [by apply stays_addAsset| |lia]. intros assetIndex.
       apply stays_bind_same; [apply stays_callOnDownload|]. intros _.
       apply stays_bind_same; [apply stays_processAssetIssuance|]. intros _. destruct (isAssetIndexSet _); [apply stays_ret|].
       apply stays_lift_bind. intros outputs _. apply stays_lift_bind. intros newAsset _. apply stays_ret. }
  all: apply (stays_weaken _ _ n n); [|lia].
  - apply stays_lift_bind; intros country _. apply stays_lift_bind; intros name _. apply stays_lift_bind; intros hash _.
    apply stays_bind_same; [by apply stays_addKYC|intros; apply stays_ret].
  - apply stays_bind_same; [|intros; apply stays_ret]. apply stays_revokeKYC; [done|by apply Hkyc].
  - apply stays_bind_same; [by apply stays_add_rates|intros; apply stays_ret].
  - apply stays_bind_same; [apply stays_vec_at|]. intros o. apply stays_lift_bind; intros data _.
    apply stays_bind_same; [apply stays_addEncryptedKey|intros; apply stays_ret].
  - apply stays_bind_same; [apply stays_vec_at|]. intros vault. apply stays_bind_same; [|intros; apply stays_ret].
    apply stays_createDigiDollarVault; [done|by apply Hvault].
  - apply stays_ret.
  - apply stays_ret.
  - apply stays_lift_bind; intros data _. apply stays_bind_same; [apply stays_addUnknown|intros; apply stays_ret].
  - apply stays_ret.
Qed.

Lemma stays_addToDatabase n t :
  1 < h -> n < 2147483647 -> lossless v h t -> stays h v n (n + 1) (addToDatabase core pools t).
Proof.
  intros Hh Hn Hl. destruct (Hl) as (Hr & Hi & Ho & _).
  assert (h <= i32 (_height t)) as Hheight by (rewrite i32_small; lia).
  unfold addToDatabase. eapply stays_bind; [by apply stays_transaction| |lia]. intros _.
  eapply stays_bind_result; [by apply stays_add_special| |lia]. intros t' c1 c2 (Ei & Eo & Et & Eh)%add_special_frame.
  apply stays_bind_same.
  { apply stays_for_each. rewrite Ei. eapply Forall_impl; [exact Hi|]. intros i Hf. apply stays_spend_input; [by rewrite Eh|done]. }
  intros _. apply stays_bind_same.
  { apply stays_for_each. rewrite Eo. eapply Forall_impl; [exact Ho|]. intros o Hf.
    apply stays_add_dd_output; [by rewrite Eh|by rewrite Et]. }
  intros _. apply stays_bind_same.
  { apply stays_for_each, Forall_forall. intros o _. apply stays_add_output. by rewrite Eh. }
  intros _. apply stays_bind_same.
  { apply stays_for_each, Forall_forall. intros o _. apply stays_add_votes. by rewrite Eh. }
  intros _. apply stays_bind_same; [|intros; apply stays_ret].
  apply stays_transaction. intros c. by case_match.
Qed.

Lemma run_write_holds n w c :
  1 < h -> n < 2147483647 -> lossless_write v h w -> holds h v n c -> holds h v (n + 1) (run_write core pools c w).
Proof.
  intros Hh Hn Hw Hc. destruct w as [t|height hash time algo difficulty|height epoch price time participants]; cbn [run_write lossless_write] in *.
  - destruct (stays_addToDatabase n t Hh Hn Hw) as [_ H]. by apply H.
  - apply (holds_weaken _ _ n); [lia|]. apply stays_insertBlock; [rewrite i32_small; lia|done].
  - apply (holds_weaken _ _ n); [lia|]. apply stays_addDigiDollarRate; [rewrite i32_small; lia|done].
Qed.

Lemma run_writes_holds n ws c :
  1 < h -> n + Z.of_nat (length ws) <= 2147483647 -> Forall (lossless_write v h) ws -> holds h v n c ->
  holds h v (n + Z.of_nat (length ws)) (run_writes core pools ws c).
Proof.
  intros Hh Hn Hw. revert n c Hn; induction Hw as [|w ws Hw _ IH]; intros n c Hn Hc.
  - by rewrite Z.add_0_r.
  - cbn [length] in *. replace (n + Z.of_nat (S (length ws))) with (n + 1 + Z.of_nat (length ws)) by lia.
    apply IH; [lia|]. apply run_write_holds; [done|lia|done..].
Qed.
End database.

(** ** The theorem *)

(** C4: A rewind undoes what was indexed from its height on, in the nine tables
    that it clears ([contents]). After any sequence of stored blocks,
    transactions and oracle prices at heights from [h] on - also when some of
    them end in an exception - that spends no output, revokes no identity and
    issues no asset whose entry below [h] it would overwrite, a rewind to [h]
    leaves in these tables exactly what a rewind of the starting state leaves.
    Started from a state with nothing from height [h] on, it restores them and
    the number of the next asset. The other tables ([not_rewound]: unknown,
    encryptedkeys, the domains, the watched addresses and the job queue) keep
    everything that was written; see [unknown_not_undone]. *)
Theorem rewind_undoes_blocks (core : Sqlite) (pools : list Pool) (h : Z) (c : chain) (ws : list write) :
  1 < h -> numbered (t_sequence (c_tables c)) c ->
  t_sequence (c_tables c) + Z.of_nat (length ws) <= 2147483647 ->
  Forall (lossless_write (rewound h c) h) ws ->
  let c' := snd (clearBlocksAboveHeight h (run_writes core pools ws c)) in
  contents c' = rewound h c
  /\ (below h c ->
        contents c' = contents c
        /\ (t_sequence (c_tables c) = max_index (t_assets (c_tables c)) ->
            t_sequence (c_tables c') = t_sequence (c_tables c)))
  /\ not_rewound c' = not_rewound (run_writes core pools ws c).
Proof.
  intros Hh Hn Hmax Hw c'.
  destruct (run_writes_holds core pools h (rewound h c) (t_sequence (c_tables c)) ws c) as [Hv _]; try done.
  split; [done|]. split; [|done]. intros Hb. assert (contents c' = contents c) as E by by rewrite <- (rewound_below h c Hb).
  split; [done|]. intros ->. apply (f_equal v_assets) in E. cbn in E. cbn. by rewrite E.
Qed.

(** *** A concrete reorganisation *)
Definition empty_tables : tables := mk_tables [] 0 [] [] [] [] [] [] [] [] [] [] [] [] [] 0 ∅.
Definition chain_with (l : list utxo_row) (t : tables) : chain :=
  mk_chain (mk_store l ∅ ∅) t 0 ([], empty_tables) ∅ [] [] [].

Definition coin : utxo_row := mk_row "alice" [0; 1] 0 None 1 5000 90 0 None None.
Definition spend_coin : DigiByteTransaction :=
  set_outputs [mk_AssetUTXO "0002" 0 "bob" 4000 []; mk_AssetUTXO "0002" 1 "alice" 900 []]
    (set_inputs [mk_AssetUTXO "0001" 0 "alice" 5000 []]
      (set_chain 101 "0002" "" 0 (DigiByteTransaction_default 0))).

Lemma rewind_undoes_blocks_witness :
  let c := chain_with [coin] empty_tables in
  let ws := [w_block 101 "00ff" 7 1 (double_of_Z 1); w_tx spend_coin; w_rate 101 3 5000 7 2] in
  length (utxos (c_store (run_writes sample_db [] ws c))) = 3%nat
  /\ contents (snd (clearBlocksAboveHeight 100 (run_writes sample_db [] ws c))) = contents c.
Proof.
  intros c ws. split; [vm_compute; reflexivity|].
  assert (below 100 c) as Hb.
  { unfold below. cbn. split_and!; intros r Hr; try (by apply not_elem_of_nil in Hr). apply list_elem_of_singleton in Hr as ->. by cbn. }
  destruct (rewind_undoes_blocks sample_db [] 100 c ws) as (_ & H & _); [lia| | | |by apply H].
  - split_and!; [apply NoDup_nil_2| |done..]. intros r Hr. by apply not_elem_of_nil in Hr.
  - cbn. lia.
  - rewrite (rewound_below 100 c Hb). repeat constructor; try (cbn; lia); try discriminate; cbn.
    all: match goal with H : ?r ∈ _ |- _ => cbn in H; first [by apply not_elem_of_nil in H|apply list_elem_of_singleton in H as ->; done] end.
Defined.

(** ** What a rewind does not undo *)

(** An asset that exists is issued again above the fork: the content id written
    by the reissue stays after the rewind. *)
Definition old_entry : asset_entry := mk_asset_entry 2 "asset" "old" "issuer" [] 50 50 0.
Definition reissued : DigiAsset :=
  set_heights 50 101 (set_assetIndex 2 (set_cid "new" (set_assetId "asset" DigiAsset_default))).
Definition reissue : DigiByteTransaction :=
  set_newAsset reissued (set_txType DIGIASSET_ISSUANCE (set_chain 101 "0003" "" 0 (DigiByteTransaction_default 0))).

Lemma reissue_not_undone :
  let c := chain_with [] (set_t_sequence 2 (set_t_assets [old_entry] empty_tables)) in
  let c' := snd (clearBlocksAboveHeight 100 (run_writes sample_db [] [w_tx reissue] c)) in
  fst (addToDatabase sample_db [] reissue c) = Ok reissue
  /\ ae_cid <$> t_assets (c_tables c) = ["old"]%string /\ ae_cid <$> t_assets (c_tables c') = ["new"]%string
  /\ ae_heightUpdated <$> t_assets (c_tables c') = [101].
Proof. vm_compute. by split_and!. Qed.

(** Data that is not understood is stored without a height: it stays, and the
    block that is indexed again stores it a second time. *)
Definition note : DigiByteTransaction :=
  set_opReturnHex "6a0101" (set_chain 101 "0005" "" 0 (DigiByteTransaction_default 0)).

Lemma unknown_not_undone :
  let c := chain_with [] empty_tables in
  let c1 := snd (clearBlocksAboveHeight 100 (run_writes sample_db [] [w_tx note] c)) in
  let c2 := run_writes sample_db [] [w_tx note] c1 in
  length (t_unknown (c_tables c)) = 0%nat /\ length (t_unknown (c_tables c1)) = 1%nat /\ length (t_unknown (c_tables c2)) = 2%nat.
Proof. vm_compute. by split_and!. Qed.

(** An identity revoked at height 60 is revoked again at 101: the rewind to 100
    makes it valid again. *)
Definition revoke_again : DigiByteTransaction :=
  set_kycData (KYC_of_address "alice") (set_txType KYC_REVOKE (set_chain 101 "0004" "" 0 (DigiByteTransaction_default 0))).

Lemma second_revocation_forgotten :
  let c := chain_with [] (set_t_kyc [mk_kyc_row "alice" "CAN" "" [] 50 (Some 60)] empty_tables) in
  let c' := snd (clearBlocksAboveHeight 100 (run_writes sample_db [] [w_tx revoke_again] c)) in
  valid 100 (getAddressKYC (db := chain_sqlite sample_db c) "alice") = false
  /\ valid 100 (getAddressKYC (db := chain_sqlite sample_db c') "alice") = true.
Proof. vm_compute. by split. Qed.
