(* ===== verification/ChainAnalyzer.v ===== *)
(** ChainAnalyzer: the thread that follows the chain (src/src/ChainAnalyzer.cpp):
    the block loop, the rewind after a fork, pruning and the recovery after an
    exception.

    DigiByte Core is an interface; its answers can change between two steps, so
    the block loop takes the list of the snapshots it meets, one per turn, and a
    shutdown request is the end of the list.  Log, event stream, RPC cache,
    watchdog and the optional prefetch thread do not touch the chain and are left
    out. *)

From S2P Require Import Prelude.
From S2P Require Import AssetTypes.
From S2P Require Import Database.
From S2P Require Import DigiDollar.
From S2P Require Import DigiAsset.
From S2P Require Import UtxoStore.
From S2P Require Import DigiByteTransaction.
From S2P Require Import TransactionDecode.
From S2P Require Import ChainTables.
From S2P Require Import ChainDatabase.
From S2P Require Import ChainUpdate.

(** ** DigiByte Core *)

(** The fields of [blockinfo_t] that are read. *)
Record blockinfo_t := mk_blockinfo {
  bi_hash : string; bi_confirmations : Z; bi_height : Z; bi_algo : Z; bi_tx : list string; bi_time : Z;
  bi_difficulty : double; bi_nextblockhash : string }.

Class Core := {
  core_rpc : Sqlite;                              (** transactions and block heights *)
  core_getBlockHash : Z -> outcome string;
  core_getBlock : string -> outcome blockinfo_t;
  core_getNodeVersion : outcome Z
}.

(** ** The state *)
Record config := mk_config {
  _pruneAge : Z; _pruneInterval : Z; _pruneExchangeHistory : bool; _pruneUTXOHistory : bool;
  _pruneVoteHistory : bool; _storeNonAssetUTXOs : bool; _trackDigiDollar : bool }.

(** Repeated failures. *)
Record recovery := mk_recovery {
  _lastPassFailed : bool; _errorCount : Z; _errorStreakHeight : Z; _lastErrorHeight : Z }.

Record analyzer := mk_analyzer {
  a_db : chain;
  a_config : config;
  _state : Z;
  a_height : Z;
  _nextHash : string;
  _lastOracleEpoch : Z;
  _thawDayNodeOk : bool;
  _lastRewindHeight : Z;
  _repeatRewindCount : Z;
  a_recovery : recovery
}.

Definition SYNCED : Z := 0.
Definition STOPPED : Z := 1.
Definition INITIALIZING : Z := 2.
Definition REWINDING : Z := 3.
Definition BUSY : Z := 4.

Definition set_db x (a : analyzer) := mk_analyzer x (a_config a) (_state a) (a_height a) (_nextHash a) (_lastOracleEpoch a) (_thawDayNodeOk a) (_lastRewindHeight a) (_repeatRewindCount a) (a_recovery a).
Definition set_config x (a : analyzer) := mk_analyzer (a_db a) x (_state a) (a_height a) (_nextHash a) (_lastOracleEpoch a) (_thawDayNodeOk a) (_lastRewindHeight a) (_repeatRewindCount a) (a_recovery a).
Definition set_state x (a : analyzer) := mk_analyzer (a_db a) (a_config a) x (a_height a) (_nextHash a) (_lastOracleEpoch a) (_thawDayNodeOk a) (_lastRewindHeight a) (_repeatRewindCount a) (a_recovery a).
Definition set_position height hash (a : analyzer) := mk_analyzer (a_db a) (a_config a) (_state a) height hash (_lastOracleEpoch a) (_thawDayNodeOk a) (_lastRewindHeight a) (_repeatRewindCount a) (a_recovery a).
Definition set_lastOracleEpoch x (a : analyzer) := mk_analyzer (a_db a) (a_config a) (_state a) (a_height a) (_nextHash a) x (_thawDayNodeOk a) (_lastRewindHeight a) (_repeatRewindCount a) (a_recovery a).
Definition set_thawDayNodeOk x (a : analyzer) := mk_analyzer (a_db a) (a_config a) (_state a) (a_height a) (_nextHash a) (_lastOracleEpoch a) x (_lastRewindHeight a) (_repeatRewindCount a) (a_recovery a).
Definition set_rewinds height count (a : analyzer) := mk_analyzer (a_db a) (a_config a) (_state a) (a_height a) (_nextHash a) (_lastOracleEpoch a) (_thawDayNodeOk a) height count (a_recovery a).
Definition set_recovery x (a : analyzer) := mk_analyzer (a_db a) (a_config a) (_state a) (a_height a) (_nextHash a) (_lastOracleEpoch a) (_thawDayNodeOk a) (_lastRewindHeight a) (_repeatRewindCount a) x.

Definition on_db {A} (m : M chain A) : M analyzer A := fun a =>
  let '(o, c) := m (a_db a) in (o, set_db c a).

(** ** Configuration *)
Definition PRUNE_INTERVAL_DIVISOR : Z := 8.
Definition exceptionAlreadyPruned : exn := class_exception "ChainAnalyzer::exceptionAlreadyPruned" "Already been pruned".

(** [ceil] of the quotient; the doubles are exact where it is an integer. *)
Definition setPruneAge (age : Z) (c : config) : config :=
  mk_config age (- ((- age) / (PRUNE_INTERVAL_DIVISOR * 100)) * 100) (_pruneExchangeHistory c) (_pruneUTXOHistory c)
    (_pruneVoteHistory c) (_storeNonAssetUTXOs c) (_trackDigiDollar c).

(** The defaults; here the division is one of integers. *)
Definition default_config (storeNonAssetUTXOs : bool) : config :=
  mk_config 5760 (Z.quot (Z.quot 5760 PRUNE_INTERVAL_DIVISOR) 100 * 100) true true true storeNonAssetUTXOs true.

Definition setPruneUTXOHistory (shouldPrune : bool) : M analyzer unit :=
  pruned ← (if shouldPrune then mret (-1) else on_db getBeenPrunedUTXOHistory);
  if negb shouldPrune && (0 <=? pruned) then throw exceptionAlreadyPruned
  else modify (fun a => let c := a_config a in
         set_config (mk_config (_pruneAge c) (_pruneInterval c) (_pruneExchangeHistory c) shouldPrune (_pruneVoteHistory c)
           (_storeNonAssetUTXOs c) (_trackDigiDollar c)) a).

Definition setTrackDigiDollar (shouldTrack : bool) : M analyzer unit :=
  a ← get;
  when (negb shouldTrack && _trackDigiDollar (a_config a)) (on_db (setDigiDollarSyncHeight 0));;
  modify (fun a => let c := a_config a in
    set_config (mk_config (_pruneAge c) (_pruneInterval c) (_pruneExchangeHistory c) (_pruneUTXOHistory c) (_pruneVoteHistory c)
      (_storeNonAssetUTXOs c) shouldTrack) a).

(** The height to prune to, 0 for no pruning now; the remainder by an interval
    of zero is undefined. *)
Definition pruneMax (height : Z) (c : config) : outcome Z :=
  if _pruneAge c <? 0 then Ok 0
  else if _pruneInterval c =? 0 then UB
  else if negb (height mod u32 (_pruneInterval c) =? 0) then Ok 0
  else if height <=? _pruneAge c then Ok 0
  else Ok (u32 (height - _pruneAge c)).

Definition phasePrune : M analyzer unit :=
  a ← get;
  pruneHeight ← lift (pruneMax (u32 (a_height a)) (a_config a));
  if pruneHeight =? 0 then mret tt
  else
    when (_pruneExchangeHistory (a_config a))
      (on_db (pruneExchange (Z.min pruneHeight (u32 (a_height a - EXCHANGE_RATE_LENIENCY)))));;
    when (_pruneUTXOHistory (a_config a)) (on_db (pruneUTXO pruneHeight));;
    when (_pruneVoteHistory (a_config a)) (on_db (pruneVote pruneHeight)).

(** ** Rewinding *)
Definition DIGIBYTE_BLOCK1_HASH : string := "4da631f2ac1bed857bd968c67c913978274d8aabed64ab2bcebc1665d7f4d3a0".

Definition restart : M analyzer unit :=
  on_db reset;; modify (set_position 1 DIGIBYTE_BLOCK1_HASH).

(** The walk back to a block Core agrees on; [false]: the analyzer restarted. *)
Fixpoint rewind_loop (core : Core) (fuel : nat) (hash : string) : M analyzer bool :=
  match fuel with
  | O => out_of_fuel
  | S fuel =>
      a ← get;
      if bool_decide (hash = _nextHash a) then mret true
      else
        let height := i32 (a_height a - 1) in
        put (set_position height (_nextHash a) a);;
        hash ← lift (core_getBlockHash height);
        next ← try_catch (n ← on_db (getBlockHash (u32 height)); mret (Some n))
                 (fun e => if bool_decide (e = exceptionDataPruned) then mret None else throw e);
        match next with
        | None => restart;; mret false
        | Some next => modify (set_position height next);; rewind_loop core fuel hash
        end
  end.

Definition rewind_fuel (a : analyzer) : nat := S (S (Z.to_nat (a_height a))).

Definition phaseRewind (core : Core) : M analyzer unit :=
  a ← get;
  hash ← lift (core_getBlockHash (a_height a));
  if bool_decide (hash = _nextHash a) then mret tt
  else
    modify (set_state REWINDING);;
    found ← rewind_loop core (rewind_fuel a) hash;
    if negb (found : bool) then mret tt
    else
      height ← gets a_height;
      on_db (clearBlocksAboveHeight (u32 height));;
      modify (fun a =>
        if u32 height =? _lastRewindHeight a then set_rewinds (_lastRewindHeight a) (u32 (_repeatRewindCount a + 1)) a
        else set_rewinds (u32 height) 1 a).

(** ** Transactions and blocks *)
Section indexing.
Context (core : Core) (pools : list Pool).

(** Loading reads the tables as they are now; the addresses a decoded asset
    watches are added before the transaction is stored. *)
Definition processTX (txid : string) (height : Z) : M analyzer unit :=
  a ← get;
  let db := chain_sqlite core_rpc (a_db a) in
  let '(o, (st, watch)) :=
    DigiByteTransaction_load db txid height (negb (_storeNonAssetUTXOs (a_config a))) (c_store (a_db a), []) in
  on_db (modify (set_store st));;
  for_each watch (fun address => on_db (addWatchAddress address));;
  t ← lift o;
  on_db (addToDatabase core_rpc pools t);;
  mret tt.


(** Every exception is caught: the price is published again in every epoch. *)
Definition captureOracleCommitment (height : Z) (coinbaseTxid : string) : M analyzer unit :=
  a ← get;
  if height <? DIGIDOLLAR_ACTIVATION_HEIGHT then mret tt
  else
    let epoch_now := height / DIGIDOLLAR_ORACLE_EPOCH_LENGTH in
    if negb (epoch_now =? 0) && (epoch_now <=? _lastOracleEpoch a) then mret tt
    else
      try_catch
        (coinbase ← lift (getRawTransaction (Sqlite := core_rpc) coinbaseTxid);
         match findOracleCommitment coinbase with
         | None => mret tt
         | Some commitment =>
             on_db (addDigiDollarRate height (epoch commitment) (price commitment) (u32 (timestamp commitment))
                      (participants commitment));;
             modify (set_lastOracleEpoch (epoch commitment))
         end)
        (fun _ => mret tt).

Definition THAW_DAY_HEIGHT : Z := 24490000.
Definition THAW_DAY_NODE_VERSION : Z := 92606.
Definition ASSET_START_HEIGHT : Z := 8432316.

Definition check_thaw_day : M analyzer unit :=
  a ← get;
  if _thawDayNodeOk a || (a_height a <? THAW_DAY_HEIGHT) then mret tt
  else
    nodeVersion ← lift core_getNodeVersion;
    if (0 <? nodeVersion) && (nodeVersion <? THAW_DAY_NODE_VERSION)
    then throw (class_exception "runtime_error" "DigiByte Core is too old to index past Thaw Day")
    else when (0 <? nodeVersion) (modify (set_thawDayNodeOk true)).

Definition needs_assets (a : analyzer) : bool :=
  _storeNonAssetUTXOs (a_config a) || (ASSET_START_HEIGHT <=? a_height a).

(** The transactions of a block, in one database transaction. *)
Definition index_transactions (blockData : blockinfo_t) : M analyzer unit :=
  on_db startTransaction;;
  for_each (bi_tx blockData) (fun txid => processTX txid (u32 (bi_height blockData)));;
  on_db endTransaction.

(** One turn of the block loop up to pruning; returns [needsAssetProcessing]. *)
Definition index_block (blockData : blockinfo_t) : M analyzer bool :=
  check_thaw_day;;
  modify (set_state (i32 (0 - bi_confirmations blockData)));;
  a ← get;
  match bi_tx blockData with
  | coinbase :: _ =>
      when (_trackDigiDollar (a_config a)) (captureOracleCommitment (u32 (bi_height blockData)) coinbase)
  | [] => mret tt
  end;;
  when (needs_assets a) (index_transactions blockData);;
  phasePrune;;
  mret (needs_assets a).

(** Moving on to the next block: its header is stored before it is processed,
    in batches of 100 before the asset era. *)
Definition advance (needsAssets : bool) (insertBatch : Z) (blockData : blockinfo_t)
    : M analyzer (string * blockinfo_t * Z) :=
  a ← get;
  when (_trackDigiDollar (a_config a) && (a_height a =? DIGIDOLLAR_ACTIVATION_HEIGHT))
    (on_db (setDigiDollarSyncHeight DIGIDOLLAR_ACTIVATION_HEIGHT));;
  let height := i32 (a_height a + 1) in
  modify (set_position height (bi_nextblockhash blockData));;
  a ← get;
  hash ← (if (_state a <? -110) && negb (Z.rem height 100 =? 0) then mret (_nextHash a)
          else lift (core_getBlockHash height));
  blockData ← lift (core_getBlock hash);
  when (negb needsAssets && (insertBatch =? 0)) (on_db startTransaction);;
  on_db (insertBlock (u32 (bi_height blockData)) (bi_hash blockData) (bi_time blockData) (bi_algo blockData)
           (bi_difficulty blockData));;
  if needsAssets then mret (hash, blockData, insertBatch)
  else if 100 <=? insertBatch + 1 then on_db endTransaction;; mret (hash, blockData, 0)
  else mret (hash, blockData, insertBatch + 1).
End indexing.

(** ** The block loop *)

(** Before a block, or waiting at the tip for its successor. *)
Inductive position :=
  | at_block (hash : string) (blockData : blockinfo_t)
  | at_tip (hash : string) (blockData : blockinfo_t) (needsAssets : bool).

Section sync.
Context (pools : list Pool).

Definition end_of_sync (insertBatch : Z) : M analyzer unit := when (0 <? insertBatch) (on_db endTransaction).

Fixpoint sync_loop (cores : list Core) (pos : position) (insertBatch : Z) : M analyzer unit :=
  match cores with
  | [] => match pos with at_block _ _ => end_of_sync insertBatch | at_tip _ _ _ => mret tt end
  | core :: cores =>
      match pos with
      | at_block hash blockData =>
          a ← get;
          if negb (bool_decide (hash = _nextHash a)) then end_of_sync insertBatch
          else
            needsAssets ← index_block core pools blockData;
            if bool_decide (bi_nextblockhash blockData = ""%string)
            then sync_loop cores (at_tip hash blockData needsAssets) insertBatch
            else
              next ← advance core needsAssets insertBatch blockData;
              let '(hash, blockData, insertBatch) := next in
              sync_loop cores (at_block hash blockData) insertBatch
      | at_tip hash blockData needsAssets =>
          modify (set_state SYNCED);;
          a ← get;
          currentHash ← lift (core_getBlockHash (a_height a));
          if negb (bool_decide (hash = currentHash)) then modify (set_state REWINDING)
          else
            blockData ← lift (core_getBlock hash);
            if bool_decide (bi_nextblockhash blockData = ""%string)
            then sync_loop cores (at_tip hash blockData needsAssets) insertBatch
            else
              next ← advance core needsAssets insertBatch blockData;
              let '(hash, blockData, insertBatch) := next in
              sync_loop cores (at_block hash blockData) insertBatch
      end
  end.

Definition phaseSync (core : Core) (cores : list Core) : M analyzer unit :=
  a ← get;
  hash ← lift (core_getBlockHash (a_height a));
  blockData ← lift (core_getBlock hash);
  sync_loop cores (at_block hash blockData) 0.

(** ** One pass of the thread *)

(** What the next pass does first after a failed one; the pauses are left out. *)
Definition recover (core : Core) : M analyzer unit :=
  a ← get;
  let r := a_recovery a in
  let count := if _errorStreakHeight r <? _lastErrorHeight r then 0 else _errorCount r in
  put (set_recovery (mk_recovery (_lastPassFailed r) (count + 1) (_lastErrorHeight r) (_lastErrorHeight r)) a);;
  height ← on_db getLastBlockHeight;
  hash ← (modify (fun a => set_position (i32 height) (_nextHash a) a);; lift (core_getBlockHash (i32 height)));
  modify (fun a => set_position (i32 height) hash a);;
  on_db (clearBlocksAboveHeight height).

Definition pass_body (core : Core) (cores : list Core) : M analyzer unit :=
  a ← get;
  when (_lastPassFailed (a_recovery a)) (recover core);;
  modify (fun a => let r := a_recovery a in
    set_recovery (mk_recovery false (_errorCount r) (_errorStreakHeight r) (_lastErrorHeight r)) a);;
  phaseRewind core;;
  phaseSync core cores;;
  modify (fun a => let r := a_recovery a in
    set_recovery (mk_recovery (_lastPassFailed r) 0 (_errorStreakHeight r) (_lastErrorHeight r)) a).

Definition mainFunction (core : Core) (cores : list Core) : M analyzer unit :=
  try_catch (pass_body core cores)
    (fun _ =>
       on_db abortTransaction;;
       modify (fun a => let r := a_recovery a in
         set_recovery (mk_recovery true (_errorCount r) (_errorStreakHeight r) (u32 (a_height a))) a)).

(** ** Start of the thread *)

Definition phaseDigiDollarBackfill : M analyzer unit :=
  a ← get;
  let activation := DIGIDOLLAR_ACTIVATION_HEIGHT in
  if negb (_trackDigiDollar (a_config a)) then mret tt
  else if u32 (a_height a) <? activation then mret tt
  else
    synced ← on_db getDigiDollarSyncHeight;
    if activation <=? synced then mret tt
    else
      prunedTo ← on_db getBeenPrunedUTXOHistory;
      if (0 <=? prunedTo) && (activation <=? u32 prunedTo) then mret tt
      else
        let height := activation - 1 in
        modify (fun a => set_position height (_nextHash a) a);;
        on_db (clearBlocksAboveHeight height);;
        hash ← on_db (getBlockHash height);
        modify (fun a => set_lastOracleEpoch 0 (set_position height hash a));;
        on_db (setDigiDollarSyncHeight activation).

(** After [waitForCoreHeight] has returned true. *)
Definition startupFunction (core : Core) : M analyzer unit :=
  modify (set_state INITIALIZING);;
  height ← on_db getLastBlockHeight;
  modify (fun a => set_position (i32 height) (_nextHash a) a);;
  hash ← lift (core_getBlockHash (i32 height));
  modify (fun a => set_position (i32 height) hash a);;
  on_db (clearBlocksAboveHeight (u32 (i32 height)));;
  a ← get;
  when (negb (_storeNonAssetUTXOs (a_config a))) (on_db (setBeenPrunedNonAssetUTXOHistory true));;
  modify (fun a => set_lastOracleEpoch (getDigiDollarLastEpoch (a_db a)) a);;
  phaseDigiDollarBackfill.
End sync.
