(* ===== verification/PruneLemmas.v ===== *)
(** PruneLemmas: what dropping old exchange rates and votes keeps: the samples
    that decide a rate at a later height, the total of every voter. *)

From Stdlib Require Import Floats.SpecFloat.
From S2P Require Import Prelude.
From S2P Require Import BitIOCodec.
From S2P Require Import AssetTypes.
From S2P Require Import Blob.
From S2P Require Import Database.
From S2P Require Import DigiDollar.
From S2P Require Import DigiAsset.
From S2P Require Import UtxoStore.
From S2P Require Import ChainTables.
From S2P Require Import ChainDatabase.
From S2P Require Import ChainUpdate.
From S2P Require Import ChainAnalyzer.

Ltac Zify.zify_post_hook ::= Z.div_mod_to_equations.

(** ** Selecting rows *)
Section select.
Context {R : Type}.
Implicit Types (p q : R -> bool) (l : list R).

Lemma select_app p l l' : select_where p (l ++ l') = select_where p l ++ select_where p l'.
Proof. apply List.filter_app. Qed.

Lemma elem_of_select p l r : r ∈ select_where p l <-> p r = true /\ r ∈ l.
Proof. unfold select_where. rewrite !list_elem_of_In, List.filter_In. tauto. Qed.

Lemma elem_of_delete p l r : r ∈ delete_where p l <-> p r = false /\ r ∈ l.
Proof. unfold delete_where. rewrite !list_elem_of_In, List.filter_In, negb_true_iff. tauto. Qed.

Lemma select_cons p r l : select_where p (r :: l) = if p r then r :: select_where p l else select_where p l.
Proof. done. Qed.

Lemma select_select p q l : select_where p (select_where q l) = select_where (fun r => q r && p r) l.
Proof.
  induction l as [|r l IH]; [done|]. unfold select_where in *. cbn [List.filter]. destruct (q r); cbn; [|done].
  destruct (p r); by rewrite IH.
Qed.

Lemma select_ext p q l : (forall r, r ∈ l -> p r = q r) -> select_where p l = select_where q l.
Proof.
  induction l as [|r l IH]; intros H; [done|]. unfold select_where in *. cbn [List.filter].
  rewrite (H r), IH by (done || (intros; apply H; by right) || by left). done.
Qed.

Lemma select_none p l : (forall r, r ∈ l -> p r = false) -> select_where p l = [].
Proof.
  intros H. induction l as [|r l IH]; [done|]. unfold select_where in *. cbn [List.filter].
  rewrite (H r) by left. apply IH. intros. apply H. by right.
Qed.

Lemma delete_select p l : delete_where p l = select_where (fun r => negb (p r)) l.
Proof. done. Qed.

Lemma NoDup_select p l : NoDup l -> NoDup (select_where p l).
Proof.
  induction 1 as [|r l Hr _ IH]; [constructor|]. unfold select_where. cbn [List.filter]. fold (select_where p l).
  destruct (p r); [|done]. constructor; [|done]. intros H. by apply elem_of_select in H as [_ ?].
Qed.

Lemma NoDup_keys_select {K} (key : R -> K) p l : NoDup (key <$> l) -> NoDup (key <$> select_where p l).
Proof.
  unfold select_where. induction l as [|x l IH]; intros Hn; [constructor|]. cbn in Hn |- *. apply NoDup_cons in Hn as [Hx Hn].
  case_match; [|by apply IH]. cbn. constructor; [|by apply IH]. intros (y & E & Hy)%list_elem_of_fmap. apply Hx. rewrite E.
  apply list_elem_of_fmap_2. by apply (elem_of_select p) in Hy as [_ Hy].
Qed.

(** At most one row, and it is there. *)
Lemma select_single p l r :
  NoDup l -> r ∈ l -> p r = true -> (forall r', r' ∈ l -> p r' = true -> r' = r) -> select_where p l = [r].
Proof.
  intros Hn Hr Hp Hu. pose proof (NoDup_select p l Hn) as Hs.
  assert (forall x, x ∈ select_where p l <-> x = r) as He.
  { intros x. rewrite elem_of_select. split; [intros [? ?]; by apply Hu|by intros ->]. }
  destruct (select_where p l) as [|x [|y s]].
  - exfalso. by apply (not_elem_of_nil r), He.
  - f_equal. apply He. by left.
  - exfalso. apply NoDup_cons in Hs as [Hx _]. apply Hx. assert (x = r) as -> by (apply He; by left).
    assert (y = r) as -> by (apply He; right; by left). by left.
Qed.
End select.

(** ** The newest rates first *)
Lemma insert_by_height_high r l s :
  (forall x, x ∈ s -> ex_height x <= ex_height r) -> insert_by_height r (l ++ s) = insert_by_height r l ++ s.
Proof.
  intros Hs. induction l as [|x l IH]; cbn [app insert_by_height].
  - destruct s as [|x s]; [done|]. cbn. by rewrite (proj2 (Z.leb_le _ _)) by (apply Hs; left).
  - destruct (_ <=? _); [done|]. by rewrite IH.
Qed.

Lemma insert_by_height_low r l s :
  (forall x, x ∈ l -> ex_height r < ex_height x) -> insert_by_height r (l ++ s) = l ++ insert_by_height r s.
Proof.
  intros Hl. induction l as [|x l IH]; [done|]. cbn [app insert_by_height].
  rewrite (proj2 (Z.leb_gt _ _)) by (apply Hl; left). rewrite IH; [done|]. intros. apply Hl. by right.
Qed.

Lemma elem_of_insert_by_height x r l : x ∈ insert_by_height r l <-> x = r \/ x ∈ l.
Proof.
  induction l as [|y l IH]; cbn [insert_by_height]; [by rewrite elem_of_cons|].
  destruct (_ <=? _); rewrite !elem_of_cons, ?IH; tauto.
Qed.

Lemma elem_of_newest_first x l : x ∈ newest_first l <-> x ∈ l.
Proof.
  unfold newest_first. induction l as [|r l IH]; [done|]. cbn [foldr].
  by rewrite elem_of_insert_by_height, elem_of_cons, IH.
Qed.

Lemma newest_first_cons r l : newest_first (r :: l) = insert_by_height r (newest_first l).
Proof. done. Qed.

(** Sorting can be split at any height. *)
Lemma newest_first_split P l :
  newest_first l = newest_first (select_where (fun r => P <=? ex_height r) l)
                   ++ newest_first (select_where (fun r => ex_height r <? P) l).
Proof.
  induction l as [|r l IH]; [done|]. rewrite newest_first_cons, IH, !select_cons.
  destruct (Z.leb_spec P (ex_height r)).
  - rewrite (proj2 (Z.ltb_ge _ _)), newest_first_cons by lia. apply insert_by_height_high. intros x Hx.
    apply elem_of_newest_first, elem_of_select in Hx as [Hx _]. apply Z.ltb_lt in Hx. lia.
  - rewrite (proj2 (Z.ltb_lt _ _)), newest_first_cons by lia. apply insert_by_height_low. intros x Hx.
    apply elem_of_newest_first, elem_of_select in Hx as [Hx _]. apply Z.leb_le in Hx. lia.
Qed.

(** The first of the sorted rows is one with the greatest height. *)
Lemma newest_first_head l b s : newest_first l = b :: s -> b ∈ l /\ (forall x, x ∈ l -> ex_height x <= ex_height b).
Proof.
  revert b s; induction l as [|r l IH]; intros b s H; [done|]. rewrite newest_first_cons in H.
  destruct (newest_first l) as [|y m] eqn:E; cbn [insert_by_height] in H.
  - injection H as <- <-. assert (l = []) as ->.
    { destruct l as [|z l]; [done|]. exfalso. apply (not_elem_of_nil z). rewrite <- E. apply elem_of_newest_first. by left. }
    split; [by left|]. intros x Hx. apply list_elem_of_singleton in Hx as ->. lia.
  - destruct (IH _ _ eq_refl) as [Hy Hm]. destruct (Z.leb_spec (ex_height y) (ex_height r)); injection H as <- <-.
    + split; [by left|]. intros x [->|Hx]%elem_of_cons; [lia|]. apply Hm in Hx. lia.
    + split; [by right|]. intros x [->|Hx]%elem_of_cons; [lia|by apply Hm].
Qed.

(** ** Exchange rates *)
Definition rate_key (r : exchange_row) : string * Z * Z := (ex_address r, ex_index r, ex_height r).

(** The rows as the code writes them: the primary key is unique, an index is
    one byte, heights are not negative. *)
Definition wf_rates (l : list exchange_row) : Prop :=
  NoDup (rate_key <$> l)
  /\ (forall r, r ∈ l -> 0 <= ex_index r < 256 /\ 0 <= ex_height r < 2147483648 /\ c_str (ex_address r) = ex_address r).

Lemma wf_rates_unique l r r' : wf_rates l -> r ∈ l -> r' ∈ l -> rate_key r = rate_key r' -> r = r'.
Proof.
  intros [Hn _] Hr Hr' E. apply list_elem_of_lookup in Hr as [i Hi]. apply list_elem_of_lookup in Hr' as [j Hj].
  assert (i = j) as ->; [|congruence].
  apply (NoDup_lookup (rate_key <$> l) i j (rate_key r)); [done| |]; rewrite list_lookup_fmap; [by rewrite Hi|].
  rewrite Hj. cbn. by rewrite E.
Qed.

Lemma same_rate_key r r' : same_rate r r' = true <-> rate_key r = rate_key r'.
Proof.
  unfold same_rate, rate_key. rewrite !andb_true_iff, bool_decide_eq_true, !Z.eqb_eq. split.
  - by intros [[-> ->] ->].
  - by intros [= -> -> ->].
Qed.

Definition newest_before (P : Z) (t : tables) : list exchange_row := stmtExchangeRatesAtHeight (P - 1) t.

Lemma of_source_self r : of_source (ex_address r) (ex_index r) r = true.
Proof. unfold of_source. by rewrite bool_decide_eq_true_2, Z.eqb_refl. Qed.

Lemma of_source_eq a i r : of_source a i r = true <-> ex_address r = a /\ ex_index r = i.
Proof. unfold of_source. by rewrite andb_true_iff, bool_decide_eq_true, Z.eqb_eq. Qed.

(** The newest row of a source below [P]. *)
Lemma elem_of_newest_before P t r :
  r ∈ newest_before P t <->
  r ∈ t_exchange t /\ ex_height r < P
  /\ (forall r', r' ∈ t_exchange t -> of_source (ex_address r) (ex_index r) r' = true -> ex_height r' < P ->
        ex_height r' <= ex_height r).
Proof.
  unfold newest_before, stmtExchangeRatesAtHeight. rewrite elem_of_select, andb_true_iff, forallb_forall, Z.leb_le.
  split.
  - intros [[H1 H2] H3]. split_and!; [done|lia|]. intros r' Hr' Hs Hh. specialize (H2 r').
    rewrite <- list_elem_of_In, Hs in H2. specialize (H2 Hr').
    rewrite (proj2 (Z.leb_le (ex_height r') (P - 1))) in H2 by lia. cbn in H2. by apply Z.leb_le.
  - intros (H1 & H2 & H3). split_and!; [lia| |done]. intros r' Hr'. apply list_elem_of_In in Hr'.
    destruct (of_source _ _ r') eqn:E; [|done]. destruct (Z.leb_spec (ex_height r') (P - 1)); [|done].
    cbn. apply Z.leb_le, H3; [done..|lia].
Qed.

Lemma NoDup_rates l : wf_rates l -> NoDup l.
Proof. intros [Hn _]. by eapply NoDup_fmap_1. Qed.

(** The rows of a source: what pruning keeps of those below [P]. *)
Lemma newest_of_source P t a i q :
  wf_rates (t_exchange t) ->
  (forall r, ex_height r < P -> q r = of_source a i r) ->
  select_where q (newest_before P t)
  = match newest_first (select_where (fun r => ex_height r <? P) (select_where q (t_exchange t))) with
    | [] => [] | b :: _ => [b] end.
Proof.
  intros Hwf Hq. set (old := select_where _ (select_where q _)).
  assert (forall r, r ∈ old <-> r ∈ t_exchange t /\ ex_height r < P /\ of_source a i r = true) as Hold.
  { intros r. unfold old. rewrite !elem_of_select, Z.ltb_lt. split.
    - intros (H1 & H2 & H3). by rewrite <- Hq.
    - intros (H1 & H2 & H3). by rewrite Hq. }
  destruct (newest_first old) as [|b s] eqn:E.
  - apply select_none. intros r Hr. apply elem_of_newest_before in Hr as (Hr & Hh & _). rewrite Hq by done.
    apply not_true_iff_false. intros Hs. apply (not_elem_of_nil r). rewrite <- E. apply elem_of_newest_first. by apply Hold.
  - apply newest_first_head in E as [Hb Hmax]. apply Hold in Hb as (Hb & Hbh & Hbs).
    pose proof (proj1 (of_source_eq a i b) Hbs) as [Ea Ei].
    apply select_single.
    + unfold newest_before, stmtExchangeRatesAtHeight. apply NoDup_select. by apply NoDup_rates.
    + apply elem_of_newest_before. split_and!; [done..|]. rewrite Ea, Ei. intros r' Hr' Hs Hh. apply Hmax. by apply Hold.
    + by rewrite Hq.
    + intros r Hr Hqr. apply elem_of_newest_before in Hr as (Hr & Hh & Hm). rewrite Hq in Hqr by done.
      pose proof (proj1 (of_source_eq a i r) Hqr) as [Ea' Ei']. apply (wf_rates_unique (t_exchange t)); [done..|].
      unfold rate_key. rewrite Ea, Ei, Ea', Ei'. f_equal.
      assert (ex_height r <= ex_height b) by (apply Hmax; by apply Hold).
      assert (ex_height b <= ex_height r) by (apply Hm; [done|by rewrite Ea', Ei'|done]). lia.
Qed.

(** What the table holds after pruning. *)
Definition pruned_rates (P : Z) (t : tables) : list exchange_row :=
  delete_where (fun r => ex_height r <? P) (t_exchange t) ++ newest_before P t.

Lemma min_rate_stops H (A B : list (double * Z)) b m :
  (u32 b.2 <=? u32 (H - 240)) = true -> min_rate H (A ++ b :: B) m = min_rate H (A ++ [b]) m.
Proof.
  intros Hb. revert m; induction A as [|[x hx] A IH]; intros m; cbn [app min_rate].
  - destruct b as [x hx]. cbn in *. by rewrite Hb.
  - case_match; [done|]. apply IH.
Qed.

(** The samples of a source that decide the rate at height [H] survive. *)
Lemma pruned_rates_accepted P t t' a i H m :
  wf_rates (t_exchange t) -> t_exchange t' = pruned_rates P t -> P + 239 <= H < 2147483648 ->
  min_rate H (select_valid_rates H a i t') m = min_rate H (select_valid_rates H a i t) m.
Proof.
  intros Hwf E HH. unfold select_valid_rates. set (q := fun r => (ex_height r <? H) && of_source a i r).
  assert (forall r, ex_height r < P -> q r = of_source a i r) as Hq.
  { intros r Hr. unfold q. by rewrite (proj2 (Z.ltb_lt _ _)) by lia. }
  rewrite E. unfold pruned_rates. rewrite select_app, (newest_of_source P t a i q Hwf Hq).
  rewrite (newest_first_split P (select_where q (t_exchange t))).
  set (old := newest_first (select_where (fun r => ex_height r <? P) (select_where q (t_exchange t)))).
  set (kept := match old with [] => [] | b :: _ => [b] end).
  assert (forall r, r ∈ old -> ex_height r < P) as Hold.
  { intros r Hr. apply elem_of_newest_first, elem_of_select in Hr as [Hr _]. by apply Z.ltb_lt. }
  assert (forall r, r ∈ old -> 0 <= ex_height r < 2147483648) as Hrange.
  { intros r Hr. apply elem_of_newest_first, elem_of_select in Hr as [_ [_ Hr]%elem_of_select]. by apply (proj2 Hwf). }
  assert (forall r, r ∈ kept -> ex_height r < P) as Hkept.
  { unfold kept. destruct old as [|b s]; intros r Hr; [by apply not_elem_of_nil in Hr|].
    apply list_elem_of_singleton in Hr as ->. apply Hold. by left. }
  rewrite (newest_first_split P (_ ++ kept)), !select_app.
  assert (select_where (fun r => P <=? ex_height r) (select_where q (delete_where (fun r => ex_height r <? P) (t_exchange t)))
          = select_where (fun r => P <=? ex_height r) (select_where q (t_exchange t))) as ->.
  { rewrite delete_select, !select_select. apply select_ext. intros r _. destruct (Z.leb_spec P (ex_height r)).
    - by rewrite (proj2 (Z.ltb_ge _ _)) by lia.
    - by rewrite !andb_false_r. }
  rewrite (select_none (fun r => P <=? ex_height r) kept), app_nil_r by (intros r Hr; apply Z.leb_gt; by apply Hkept).
  rewrite (select_none (fun r => ex_height r <? P)).
  2: { intros r Hr. apply elem_of_select in Hr as [_ Hr]. by apply elem_of_delete in Hr as [Hr _]. }
  cbn [app]. assert (newest_first (select_where (fun r => ex_height r <? P) kept) = kept) as ->.
  { unfold kept in *. destruct old as [|b s]; [done|]. rewrite select_cons, (proj2 (Z.ltb_lt _ _)) by (apply Hkept; by left). done. }
  rewrite !map_app. unfold kept in *. destruct old as [|b s]; [done|]. cbn [map]. symmetry. apply min_rate_stops.
  apply Z.leb_le. pose proof (Hold b ltac:(by left)). pose proof (Hrange b ltac:(by left)).
  cbn. unfold u32, two32. lia.
Qed.

(** ** Votes *)
Definition vote_key (r : vote_row) : Z * string * Z := (vr_assetIndex r, vr_address r, vr_height r).
Definition voter (r : vote_row) : Z * string := (vr_assetIndex r, vr_address r).

(** The votes of [v] in a list of rows. *)
Definition vote_total (v : Z * string) (l : list vote_row) : Z :=
  foldr (fun r n => (if bool_decide (voter r = v) then vr_count r else 0) + n) 0 l.

Definition wf_votes (l : list vote_row) : Prop :=
  NoDup (vote_key <$> l)
  /\ (forall r, r ∈ l -> 0 <= vr_assetIndex r < 2147483648 /\ 0 <= vr_height r < 2147483648
                        /\ c_str (vr_address r) = vr_address r).

Lemma same_vote_key r r' : same_vote r r' = true <-> vote_key r' = vote_key r.
Proof.
  unfold same_vote, vote_key. rewrite !andb_true_iff, bool_decide_eq_true, !Z.eqb_eq. split.
  - by intros [[-> ->] ->].
  - by intros [= -> -> ->].
Qed.
Lemma same_voter_key r r' : same_voter r r' = true <-> voter r' = voter r.
Proof.
  unfold same_voter, voter. rewrite !andb_true_iff, bool_decide_eq_true, !Z.eqb_eq. split.
  - by intros [-> ->].
  - by intros [= -> ->].
Qed.

Lemma vote_key_voter x r : vote_key x = vote_key r -> voter x = voter r.
Proof. intros [= E1 E2 _]. unfold voter. by rewrite E1, E2. Qed.

Lemma vote_total_cons v r l :
  vote_total v (r :: l) = (if bool_decide (voter r = v) then vr_count r else 0) + vote_total v l.
Proof. done. Qed.

Lemma vote_total_app v l l' : vote_total v (l ++ l') = vote_total v l + vote_total v l'.
Proof. induction l as [|r l IH]; cbn [app]; [done|]. rewrite !vote_total_cons, IH. lia. Qed.

Lemma vote_total_delete v p l :
  vote_total v l = vote_total v (delete_where p l) + vote_total v (select_where p l).
Proof.
  unfold delete_where, select_where. induction l as [|r l IH]; [done|]. cbn [List.filter].
  rewrite vote_total_cons, IH. destruct (p r); cbn [negb]; rewrite vote_total_cons; lia.
Qed.

(** An update of the row with a unique key adds to one total. *)
Section update.
Context {K : Type} `{EqDecision K} (key : vote_row -> K) (p : vote_row -> bool) (f : vote_row -> vote_row) (r : vote_row).
Hypothesis p_key : forall x, p x = true <-> key x = key r.
Hypothesis f_key : forall x, key (f x) = key x.
Hypothesis f_voter : forall x, voter (f x) = voter x.
Hypothesis f_count : forall x, vr_count (f x) = vr_count x + vr_count r.
Hypothesis key_voter : forall x, key x = key r -> voter x = voter r.

Lemma keys_update l : key <$> update_where p f l = key <$> l.
Proof. unfold update_where. induction l as [|x l IH]; [done|]. cbn. rewrite <- IH. case_match; by rewrite ?f_key. Qed.

Lemma update_other l : key r ∉ (key <$> l) -> update_where p f l = l.
Proof.
  unfold update_where. induction l as [|x l IH]; intros H; [done|]. cbn in H |- *. apply not_elem_of_cons in H as [Hx H].
  rewrite IH by done. destruct (p x) eqn:E; [|done]. by apply p_key in E.
Qed.

Lemma vote_total_update v l :
  NoDup (key <$> l) -> key r ∈ (key <$> l) -> vote_total v (update_where p f l) = vote_total v l + vote_total v [r].
Proof.
  induction l as [|x l IH]; intros Hn Hr; [by apply not_elem_of_nil in Hr|]. cbn in Hn, Hr. apply NoDup_cons in Hn as [Hx Hn].
  change (update_where p f (x :: l)) with ((if p x then f x else x) :: update_where p f l).
  rewrite !vote_total_cons. destruct (p x) eqn:E.
  - apply p_key in E. rewrite f_voter, f_count, update_other by congruence. rewrite (key_voter x E). cbn. case_match; lia.
  - apply elem_of_cons in Hr as [Hr|Hr].
    + rewrite (proj2 (p_key x)) in E; [done|by rewrite Hr].
    + rewrite IH, vote_total_cons by done. lia.
Qed.

Lemma voters_update l : voter <$> update_where p f l = voter <$> l.
Proof. unfold update_where. induction l as [|x l IH]; [done|]. cbn. rewrite <- IH. case_match; by rewrite ?f_voter. Qed.
End update.

Lemma elem_of_keys {K} (key : vote_row -> K) (p : vote_row -> bool) r l :
  (forall x, p x = true <-> key x = key r) -> existsb p l = true <-> key r ∈ (key <$> l).
Proof.
  intros Hp. rewrite existsb_exists, list_elem_of_fmap. split.
  - intros (x & Hx & E). exists x. split; [symmetry; by apply Hp|by apply list_elem_of_In].
  - intros (x & E & Hx). exists x. split; [by apply list_elem_of_In|by apply Hp].
Qed.

(** Adding a vote adds its count to the voter's total, whichever branch. *)
Lemma stmtAddVote_spec r t :
  NoDup (vote_key <$> t_votes t) ->
  NoDup (vote_key <$> t_votes (stmtAddVote r t))
  /\ (forall v, vote_total v (t_votes (stmtAddVote r t)) = vote_total v (t_votes t) + vote_total v [r])
  /\ (forall v, v ∈ (voter <$> t_votes (stmtAddVote r t)) <-> v ∈ (voter <$> t_votes t) \/ v = voter r).
Proof.
  intros Hn. unfold stmtAddVote. cbn [t_votes set_t_votes].
  pose proof (elem_of_keys vote_key (same_vote r) r (t_votes t) (same_vote_key r)) as He.
  destruct (existsb _ _) eqn:E.
  - apply proj1 in He. specialize (He eq_refl). clear E. rename He into E. split_and!.
    + by rewrite (keys_update vote_key).
    + intros v. apply (vote_total_update vote_key); try done. all: intros x; first [apply same_vote_key|apply vote_key_voter].
    + intros v. rewrite voters_update by done. split; [tauto|]. intros [?| ->]; [done|].
      apply list_elem_of_fmap in E as (x & E & Hx). apply list_elem_of_fmap. exists x. split; [|done]. symmetry. by apply vote_key_voter.
  - split_and!.
    + rewrite fmap_app. apply NoDup_app. split_and!; [done| |apply NoDup_singleton].
      intros k Hk Hr. apply list_elem_of_singleton in Hr as ->. by apply (proj2 He) in Hk.
    + intros v. apply vote_total_app.
    + intros v. rewrite fmap_app, elem_of_app. cbn. by rewrite list_elem_of_singleton.
Qed.

(** *** Groups *)
Lemma add_to_group_spec r l :
  NoDup (voter <$> l) ->
  NoDup (voter <$> add_to_group r l)
  /\ (forall v, vote_total v (add_to_group r l) = vote_total v l + vote_total v [r])
  /\ (forall v, v ∈ (voter <$> add_to_group r l) <-> v ∈ (voter <$> l) \/ v = voter r).
Proof.
  intros Hn. unfold add_to_group.
  pose proof (elem_of_keys voter (same_voter r) r l (same_voter_key r)) as He.
  destruct (existsb _ _) eqn:E.
  - apply proj1 in He. specialize (He eq_refl). clear E. rename He into E. split_and!.
    + by rewrite (keys_update voter).
    + intros v. apply (vote_total_update voter); try done. intros x; apply same_voter_key.
    + intros v. rewrite voters_update by done. split; [tauto|]. by intros [?| ->].
  - split_and!.
    + rewrite fmap_app. apply NoDup_app. split_and!; [done| |apply NoDup_singleton].
      intros k Hk Hr. apply list_elem_of_singleton in Hr as ->. by apply (proj2 He) in Hk.
    + intros v. apply vote_total_app.
    + intros v. rewrite fmap_app, elem_of_app. cbn. by rewrite list_elem_of_singleton.
Qed.

Lemma group_votes_snoc l r : group_votes (l ++ [r]) = add_to_group r (group_votes l).
Proof. unfold group_votes. by rewrite foldl_app. Qed.

Lemma group_votes_spec l :
  NoDup (voter <$> group_votes l)
  /\ (forall v, vote_total v (group_votes l) = vote_total v l)
  /\ (forall v, v ∈ (voter <$> group_votes l) <-> v ∈ (voter <$> l)).
Proof.
  induction l as [|r l (Hn & Ht & Hv)] using rev_ind; [split_and!; [constructor|done..]|].
  rewrite group_votes_snoc. destruct (add_to_group_spec r (group_votes l) Hn) as (Hn' & Ht' & Hv').
  split_and!; [done| |].
  - intros v. by rewrite Ht', Ht, vote_total_app.
  - intros v. rewrite Hv', Hv, fmap_app, elem_of_app. cbn. by rewrite list_elem_of_singleton.
Qed.

(** A property of heights and indexes that every row has, every group has. *)
Lemma group_votes_rows (Q : Z -> string -> Z -> Prop) l :
  (forall i a h h', Q i a h -> Q i a h' -> Q i a (Z.max h h')) ->
  (forall r, r ∈ l -> Q (vr_assetIndex r) (vr_address r) (vr_height r)) ->
  forall g, g ∈ group_votes l -> Q (vr_assetIndex g) (vr_address g) (vr_height g).
Proof.
  intros Hmax. induction l as [|r l IH] using rev_ind; intros Hl g Hg; [by apply not_elem_of_nil in Hg|].
  rewrite group_votes_snoc in Hg. unfold add_to_group in Hg.
  assert (Q (vr_assetIndex r) (vr_address r) (vr_height r)) as Hr by (apply Hl, elem_of_app; right; by left).
  assert (forall g, g ∈ group_votes l -> Q (vr_assetIndex g) (vr_address g) (vr_height g)) as IH'.
  { apply IH. intros x Hx. apply Hl, elem_of_app. by left. }
  destruct (existsb _ _).
  - unfold update_where in Hg. apply list_elem_of_fmap in Hg as (x & -> & Hx). destruct (same_voter r x) eqn:E.
    + cbn. apply same_voter_key in E. injection E as E1 E2. apply Hmax; [by apply IH'|by rewrite E1, E2].
    + by apply IH'.
  - apply elem_of_app in Hg as [Hg|Hg]; [by apply IH'|]. by apply list_elem_of_singleton in Hg as ->.
Qed.

(** The sum of a voter's group is the voter's total. *)
Lemma vote_total_group v l : NoDup (voter <$> l) -> forall g, g ∈ l -> voter g = v -> vote_total v l = vr_count g.
Proof.
  induction l as [|x l IH]; intros Hn g Hg Hv; [by apply not_elem_of_nil in Hg|]. cbn in Hn. apply NoDup_cons in Hn as [Hx Hn].
  rewrite vote_total_cons. apply elem_of_cons in Hg as [->|Hg].
  - rewrite bool_decide_eq_true_2 by done. enough (vote_total v l = 0) by lia. rewrite Hv in Hx. clear -Hx.
    induction l as [|y l IH]; [done|]. cbn in Hx. apply not_elem_of_cons in Hx as [Hy Hx].
    rewrite vote_total_cons, bool_decide_eq_false_2, IH by congruence. done.
  - rewrite bool_decide_eq_false_2, (IH Hn g Hg Hv); [done|]. intros E. apply Hx. rewrite E, <- Hv. by apply list_elem_of_fmap_2.
Qed.

(** A count of [getVoteCounts] in terms of totals. *)
Lemma elem_of_getVoteCounts i a n c :
  (a, n) ∈ getVoteCounts i c <->
  (i32 i, a) ∈ (voter <$> t_votes (c_tables c)) /\ n = u32 (vote_total (i32 i, a) (t_votes (c_tables c))).
Proof.
  unfold getVoteCounts, stmtGetVoteCount. set (l := t_votes (c_tables c)). set (s := select_where _ l).
  destruct (group_votes_spec s) as (Hn & Ht & Hv).
  assert (vote_total (i32 i, a) l = vote_total (i32 i, a) s) as ->.
  { unfold s. generalize l. intros k. induction k as [|r k IH]; [done|]. rewrite select_cons, vote_total_cons, IH.
    destruct (Z.eqb_spec (vr_assetIndex r) (i32 i)); rewrite ?vote_total_cons; [done|].
    by rewrite bool_decide_eq_false_2 by (intros [= ? ?]; congruence). }
  assert ((i32 i, a) ∈ (voter <$> l) <-> (i32 i, a) ∈ (voter <$> group_votes s)) as ->.
  { rewrite Hv, !list_elem_of_fmap. unfold s. split; intros (r & E & Hr); exists r; (split; [done|]).
    - apply elem_of_select. split; [|done]. injection E as -> _. by apply Z.eqb_refl.
    - by apply elem_of_select in Hr as [_ Hr]. }
  rewrite <- Ht. setoid_rewrite list_elem_of_fmap. split.
  - intros (g & [= -> ->] & Hg). assert (voter g = (i32 i, vr_address g)) as E.
    { unfold voter. f_equal. apply (group_votes_rows (fun j _ _ => j = i32 i) s); [done| |done].
      intros r Hr. apply elem_of_select in Hr as [Hr _]. by apply Z.eqb_eq. }
    split; [by exists g|]. f_equal. symmetry. by apply (vote_total_group _ _ Hn).
  - intros [(g & E & Hg) ->]. exists g. rewrite (vote_total_group _ _ Hn g) by done. by injection E as _ ->.
Qed.
