(* ===== verification/PruneTheorems.v ===== *)
(** PruneTheorems: dropping old history cannot be observed by later blocks.
    Exchange rates accepted at later heights, vote counts, unspent outputs and
    the hashes of the remaining blocks are the same before and after pruning. *)

From Stdlib Require Import Floats.SpecFloat.
From S2P Require Import Prelude.
From S2P Require Import BitIOCodec.
From S2P Require Import AssetTypes.
From S2P Require Import Blob.
From S2P Require Import Database.
From S2P Require Import DigiDollar.
From S2P Require Import DigiAsset.
From S2P Require Import UtxoStore.
From S2P Require Import ChainTables.
From S2P Require Import ChainDatabase.
From S2P Require Import ChainUpdate.
From S2P Require Import ChainAnalyzer.
From S2P Require Import PruneLemmas.

Ltac Zify.zify_post_hook ::= Z.div_mod_to_equations.

(** The tables pruning writes. *)
Definition history (c : chain) : list utxo_row * list block_row * list exchange_row * list vote_row :=
  (utxos (c_store c), t_blocks (c_tables c), t_exchange (c_tables c), t_votes (c_tables c)).

(** [m] succeeds and leaves this history. *)
Definition leaves (m : M chain unit) (c : chain) h : Prop := exists c', m c = (Ok tt, c') /\ history c' = h.

Lemma leaves_bind (m : M chain unit) (k : unit -> M chain unit) c h h' :
  leaves m c h -> (forall c', history c' = h -> leaves (k tt) c' h') -> leaves (m ≫= k) c h'.
Proof. intros (c' & E & Hc) Hk. destruct (Hk c' Hc) as (c'' & E' & Hc'). exists c''. split; [|done]. by rewrite (bind_ok _ _ _ _ _ E). Qed.

Lemma setFlagInt_leaves flag state c : leaves (setFlagInt flag state) c (history c).
Proof.
  unfold setFlagInt, getFlagInt, leaves, mbind, M_bind, mret, M_ret, try_catch, get, put, modify, throw, exceptionFailedSelect_c, execute.
  cbv beta. destruct (_flagState c !! flag) as [v|]; [destruct (v =? state); by eexists|].
  destruct (t_flags (c_tables c) !! flag) as [v|]; [destruct (v =? state); by eexists|].
  unfold throw. rewrite bool_decide_eq_true_2 by done. by eexists.
Qed.

(** ** Exchange rates *)
Lemma add_rate_fresh l r s : wf_rates (s ++ r :: l) -> insert_or_replace same_rate r s = s ++ [r].
Proof.
  intros [Hn _]. unfold insert_or_replace. f_equal. unfold delete_where. induction s as [|x s IH]; [done|]. cbn in Hn |- *. apply NoDup_cons in Hn as [Hx Hn].
  destruct (same_rate r x) eqn:E; cbn; [|by rewrite IH].
  apply same_rate_key in E. exfalso. apply Hx. rewrite fmap_app, elem_of_app. right. rewrite <- E. by left.
Qed.

Lemma add_rates_back l c :
  wf_rates (t_exchange (c_tables c) ++ l) ->
  leaves (for_each (map read_rate l) (fun kept => addExchangeRate (ex_address kept) (ex_index kept) (ex_height kept) (ex_value kept))) c
    (utxos (c_store c), t_blocks (c_tables c), t_exchange (c_tables c) ++ l, t_votes (c_tables c)).
Proof.
  revert c; induction l as [|r l IH]; intros c Hwf; cbn [map for_each]; [rewrite app_nil_r; by eexists|].
  assert (mk_exchange_row (c_str (ex_address (read_rate r))) (i32 (ex_index (read_rate r))) (i32 (ex_height (read_rate r)))
            (ex_value (read_rate r)) = r) as E.
  { destruct (proj2 Hwf r) as (Hi & Hh & Ha); [apply elem_of_app; right; by left|]. destruct r as [a i h v]. cbn in *.
    unfold u8, u32, two32. rewrite Ha, !Z.mod_small by lia. by rewrite !i32_small by lia. }
  eapply leaves_bind; [unfold addExchangeRate; rewrite E; by eexists|]. intros c' Hc'. cbn in Hc'.
  injection Hc' as H1 H2 H3 H4. rewrite (add_rate_fresh l) in H3 by done.
  replace (t_exchange (c_tables c) ++ r :: l) with (t_exchange (c_tables c') ++ l) in * by by rewrite H3, <- app_assoc.
  rewrite <- H1, <- H2, <- H4. by apply IH.
Qed.

Lemma wf_rates_pruned P t : wf_rates (t_exchange t) -> wf_rates (pruned_rates P t).
Proof.
  intros [Hn Hr]. unfold pruned_rates, newest_before, stmtExchangeRatesAtHeight. split.
  - rewrite fmap_app. apply NoDup_app. split_and!.
    + by apply (NoDup_keys_select rate_key (fun r => negb (ex_height r <? P))).
    + intros k (x & -> & Hx)%list_elem_of_fmap (y & E & Hy)%list_elem_of_fmap. apply elem_of_delete in Hx as [Hx _].
      apply elem_of_select in Hy as [Hy _]. apply andb_true_iff in Hy as [Hy _]. injection E as _ _ E. lia.
    + by apply NoDup_keys_select.
  - intros r [Hx|Hx]%elem_of_app; [apply elem_of_delete in Hx as [_ Hx]|apply elem_of_select in Hx as [_ Hx]]; by apply Hr.
Qed.

Lemma pruneExchange_leaves P c :
  0 <= P < 2147483648 -> wf_rates (t_exchange (c_tables c)) ->
  leaves (pruneExchange P) c
    (utxos (c_store c), delete_where (fun r => blk_height r <? P) (t_blocks (c_tables c)), pruned_rates P (c_tables c),
     t_votes (c_tables c)).
Proof.
  intros HP Hwf. unfold pruneExchange.
  assert (i32 (u32 (P - 1)) = P - 1) as E by (unfold i32, u32, two32; lia).
  unfold getExchangeRatesAtHeight. rewrite E.
  match goal with |- leaves (gets ?f ≫= ?k) c ?h => change (leaves (k (map read_rate (newest_before P (c_tables c)))) c h) end.
  cbv beta. eapply leaves_bind; [by eexists|]. intros c1 H1. cbn in H1.
  eapply leaves_bind; [by eexists|]. intros c2 H2. cbn in H2.
  injection H1 as Hu1 Hb1 He1 Hv1. injection H2 as Hu2 Hb2 He2 Hv2. rewrite i32_small in * by lia.
  assert (t_exchange (c_tables c2) ++ newest_before P (c_tables c) = pruned_rates P (c_tables c)) as Hp.
  { unfold pruned_rates. by rewrite He2, He1. }
  eapply leaves_bind; [apply add_rates_back; rewrite Hp; by apply wf_rates_pruned|]. intros c3 H3.
  rewrite Hp, Hu2, Hu1, Hb2, Hb1, Hv2, Hv1 in H3. rewrite <- H3. apply setFlagInt_leaves.
Qed.

(** ** Outputs *)
Lemma pruneUTXO_leaves P c :
  leaves (pruneUTXO P) c
    (stmtPruneUTXOs (i32 P) (utxos (c_store c)), delete_where (fun r => blk_height r <? i32 P) (t_blocks (c_tables c)),
     t_exchange (c_tables c), t_votes (c_tables c)).
Proof.
  unfold pruneUTXO. eapply leaves_bind; [by eexists|]. intros c1 H1. cbn in H1.
  eapply leaves_bind; [by eexists|]. intros c2 H2. cbn in H2.
  injection H1 as Hu1 Hb1 He1 Hv1. injection H2 as Hu2 Hb2 He2 Hv2. rewrite Hu1, Hb1, He1, Hv1 in *.
  rewrite <- Hu2, <- Hb2, <- He2, <- Hv2. apply setFlagInt_leaves.
Qed.

(** ** Votes *)

(** The same voters with the same totals modulo [2^32]. *)
Definition same_votes (l l' : list vote_row) : Prop :=
  forall v, (v ∈ (voter <$> l) <-> v ∈ (voter <$> l')) /\ u32 (vote_total v l) = u32 (vote_total v l').

Lemma add_votes_back k c :
  NoDup (vote_key <$> t_votes (c_tables c)) ->
  (forall r, r ∈ k -> 0 <= vr_assetIndex r < 2147483648 /\ c_str (vr_address r) = vr_address r) ->
  exists l', leaves (for_each (map read_vote k) (fun kept => addVote (vr_address kept) (vr_assetIndex kept) (vr_count kept) (vr_height kept))) c
    (utxos (c_store c), t_blocks (c_tables c), t_exchange (c_tables c), l')
  /\ same_votes l' (t_votes (c_tables c) ++ k).
Proof.
  revert c; induction k as [|r k IH]; intros c Hn Hk; cbn [map for_each].
  { exists (t_votes (c_tables c)). rewrite app_nil_r. split; [by eexists|by intros v]. }
  set (r' := mk_vote_row (i32 (vr_assetIndex (read_vote r))) (c_str (vr_address (read_vote r))) (i32 (vr_height (read_vote r)))
              (i64 (vr_count (read_vote r)))).
  destruct (Hk r) as [Hi Ha]; [by left|].
  assert (voter r' = voter r) as Ev.
  { unfold r', voter, read_vote. cbn [vr_assetIndex vr_address vr_height vr_count]. rewrite Ha. f_equal. unfold i32, u32, two32. lia. }
  destruct (stmtAddVote_spec r' (c_tables c) Hn) as (Hn' & Ht' & Hv').
  destruct (IH (set_tables (stmtAddVote r' (c_tables c)) c)) as (l' & Hl & Hs); [done|intros; apply Hk; by right|].
  exists l'. split.
  - destruct Hl as (c' & E & Hc'). exists c'. split; [|exact Hc']. rewrite <- E. done.
  - intros v. destruct (Hs v) as [Hs1 Hs2]. cbn [c_tables set_tables] in *. split.
    + rewrite Hs1, !fmap_app, !elem_of_app, Hv', Ev. cbn. rewrite elem_of_cons. tauto.
    + rewrite Hs2, !vote_total_app, Ht'. rewrite !vote_total_cons, Ev.
      assert (vr_count r' = u32 (vr_count r)) as -> by (unfold r', read_vote; cbn; unfold i64, u32, two32, two64; lia).
      change (vote_total v []) with 0. case_bool_decide; unfold u32, two32; lia.
Qed.

Lemma pruneVote_leaves P c :
  0 <= P < 2147483648 -> wf_votes (t_votes (c_tables c)) ->
  exists l', leaves (pruneVote P) c
    (utxos (c_store c), delete_where (fun r => blk_height r <? P) (t_blocks (c_tables c)), t_exchange (c_tables c), l')
  /\ same_votes l' (t_votes (c_tables c)).
Proof.
  intros HP [Hn Hr]. unfold pruneVote. set (l := t_votes (c_tables c)) in *. rewrite i32_small by lia.
  set (old := select_where (fun r => vr_height r <? P) l).
  set (c2 := set_tables (stmtRemoveNonReachable P (stmtPruneVote P (c_tables c))) c).
  destruct (add_votes_back (group_votes old) c2) as (l' & (c3 & E3 & H3) & Hs).
  { by apply (NoDup_keys_select vote_key (fun r => negb (vr_height r <? P))). }
  { apply (group_votes_rows (fun i a _ => 0 <= i < 2147483648 /\ c_str a = a)); [done|].
    intros r [_ H]%elem_of_select. destruct (Hr r H) as (? & _ & ?). done. }
  exists l'. split.
  - destruct (setFlagInt_leaves "wasPrunedVoteHistory" (i32 P) c3) as (c4 & E4 & H4). exists c4. split; [|by rewrite H4, H3].
    change ((for_each (map read_vote (group_votes old)) (fun kept => addVote (vr_address kept) (vr_assetIndex kept) (vr_count kept) (vr_height kept))
             ≫= fun _ => setBeenPrunedVoteHistory P) c2 = (Ok tt, c4)).
    by rewrite (bind_ok _ _ _ _ _ E3).
  - destruct (group_votes_spec old) as (_ & Ht & Hv). intros v. destruct (Hs v) as [Hs1 Hs2].
    change (t_votes (c_tables c2)) with (delete_where (fun r => vr_height r <? P) l) in Hs1, Hs2. split.
    + rewrite Hs1, fmap_app, elem_of_app, Hv, !list_elem_of_fmap. split.
      * intros [(r & E & Hd)|(r & E & Hd)]; exists r; (split; [done|]).
        -- by apply elem_of_delete in Hd as [_ ?].
        -- by apply elem_of_select in Hd as [_ ?].
      * intros (r & E & H). destruct (vr_height r <? P) eqn:Eh; [right|left]; exists r; (split; [done|]).
        -- by apply elem_of_select.
        -- by apply elem_of_delete.
    + by rewrite Hs2, vote_total_app, Ht, (vote_total_delete v (fun r => vr_height r <? P) l).
Qed.

(** ** The phase *)
Lemma when_leaves b (m : M chain unit) a h :
  leaves m (a_db a) h ->
  exists c', when b (on_db m) a = (Ok tt, set_db c' a) /\ history c' = if b then h else history (a_db a).
Proof.
  intros (c' & E & H). destruct b; cbn [when].
  - exists c'. unfold on_db. by rewrite E.
  - exists (a_db a). by destruct a.
Qed.

Lemma pruneMax_range height c P :
  0 <= height < 2147483648 -> pruneMax height c = Ok P -> 0 <= P <= height.
Proof.
  intros Hh. unfold pruneMax. repeat case_match; intros [= <-]; try lia. unfold u32, two32. lia.
Qed.

Lemma stmtGetBlockHash_pruned P h t t' :
  t_blocks t' = delete_where (fun r => blk_height r <? P) (t_blocks t) -> P <= h -> stmtGetBlockHash h t' = stmtGetBlockHash h t.
Proof.
  intros E Hh. unfold stmtGetBlockHash. rewrite E, delete_select, select_select. do 2 f_equal. apply select_ext.
  intros r _. destruct (Z.eqb_spec (blk_height r) h); [|by rewrite andb_false_r].
  by rewrite (proj2 (Z.ltb_ge _ _)) by lia.
Qed.

Lemma getAcceptedExchangeRate_eq core c c' rate H :
  (forall a i m, min_rate H (select_valid_rates (i32 H) a i (c_tables c')) m = min_rate H (select_valid_rates (i32 H) a i (c_tables c)) m) ->
  getAcceptedExchangeRate (db := chain_sqlite core c') rate H = getAcceptedExchangeRate (db := chain_sqlite core c) rate H.
Proof. intros E. unfold getAcceptedExchangeRate. cbn [stmtGetValidExchangeRate chain_sqlite]. by rewrite E. Qed.

Lemma getVoteCounts_eq i a n c c' :
  same_votes (t_votes (c_tables c')) (t_votes (c_tables c)) -> (a, n) ∈ getVoteCounts i c' <-> (a, n) ∈ getVoteCounts i c.
Proof. intros H. rewrite !elem_of_getVoteCounts. destruct (H (i32 i, a)) as [-> ->]. done. Qed.

(** What the phase does to the four tables. *)
Lemma phasePrune_history (a : analyzer) (P : Z) :
  wf_rates (t_exchange (c_tables (a_db a))) -> wf_votes (t_votes (c_tables (a_db a))) ->
  240 <= a_height a < 2147483648 -> pruneMax (a_height a) (a_config a) = Ok P ->
  exists a', phasePrune a = (Ok tt, a')
    /\ (exists E, E + 240 <= a_height a
          /\ (t_exchange (c_tables (a_db a')) = t_exchange (c_tables (a_db a))
              \/ t_exchange (c_tables (a_db a')) = pruned_rates E (c_tables (a_db a))))
    /\ same_votes (t_votes (c_tables (a_db a'))) (t_votes (c_tables (a_db a)))
    /\ (utxos (c_store (a_db a')) = utxos (c_store (a_db a))
        \/ utxos (c_store (a_db a')) = stmtPruneUTXOs P (utxos (c_store (a_db a))))
    /\ (forall h, P <= h -> stmtGetBlockHash h (c_tables (a_db a')) = stmtGetBlockHash h (c_tables (a_db a))).
Proof.
  intros Hr Hv Hh HP. pose proof (pruneMax_range (a_height a) _ P ltac:(lia) HP) as HPr.
  unfold phasePrune.
  rewrite (bind_ok get _ a a a eq_refl).
  assert (u32 (a_height a) = a_height a) as -> by (apply u32_small; unfold two32; lia).
  rewrite HP, (bind_ok (lift (Ok P)) _ a P a eq_refl).
  destruct (Z.eqb_spec P 0) as [->|HP0].
  { exists a. split_and!; [done| |done|by left|done]. exists (a_height a - 240). split; [lia|by left]. }
  set (E := Z.min P (u32 (a_height a - EXCHANGE_RATE_LENIENCY))).
  assert (0 <= E <= P /\ E + 240 <= a_height a) as [HE HEH] by (unfold E, EXCHANGE_RATE_LENIENCY, u32, two32; lia).
  set (c := a_db a) in *.
  destruct (when_leaves (_pruneExchangeHistory (a_config a)) (pruneExchange E) a _ (pruneExchange_leaves E c ltac:(lia) Hr)) as (c1 & E1 & H1).
  rewrite (bind_ok _ _ _ _ _ E1). fold c in H1.
  destruct (when_leaves (_pruneUTXOHistory (a_config a)) (pruneUTXO P) (set_db c1 a) _ (pruneUTXO_leaves P c1)) as (c2 & E2 & H2).
  rewrite (bind_ok _ _ _ _ _ E2). cbn [a_db set_db] in H2. rewrite i32_small in H2 by lia.
  assert (t_votes (c_tables c2) = t_votes (c_tables c)) as Hv2.
  { destruct (_pruneUTXOHistory _), (_pruneExchangeHistory _); by injection H1; injection H2; congruence. }
  destruct (pruneVote_leaves P c2) as (l' & Hl & Hs); [lia|by rewrite Hv2|].
  destruct (when_leaves (_pruneVoteHistory (a_config a)) (pruneVote P) (set_db c2 (set_db c1 a)) _ Hl) as (c3 & E3 & H3).
  exists (set_db c3 (set_db c2 (set_db c1 a))). split; [exact E3|]. cbn [a_db set_db] in *.
  assert (forall h, P <= h -> stmtGetBlockHash h (c_tables c1) = stmtGetBlockHash h (c_tables c)
    /\ stmtGetBlockHash h (c_tables c2) = stmtGetBlockHash h (c_tables c1)
    /\ stmtGetBlockHash h (c_tables c3) = stmtGetBlockHash h (c_tables c2)) as Hb.
  { intros h Hhh. repeat case_match; injection H1 as _ B1 _ _; injection H2 as _ B2 _ _; injection H3 as _ B3 _ _.
    all: split_and!; first [by eapply stmtGetBlockHash_pruned; [eassumption|lia]|unfold stmtGetBlockHash; congruence]. }
  split_and!.
  - exists E. split; [done|]. repeat case_match; injection H1; injection H2; injection H3; intros; first [left; congruence|right; congruence].
  - intros v. rewrite Hv2 in Hs. assert (t_votes (c_tables c3) = l' \/ t_votes (c_tables c3) = t_votes (c_tables c)) as [->| ->].
    + rewrite <- Hv2. destruct (_pruneVoteHistory _); injection H3; auto.
    + apply Hs.
    + done.
  - assert (utxos (c_store c1) = utxos (c_store c)) as Hu1 by (destruct (_pruneExchangeHistory _); by injection H1).
    rewrite <- Hu1. repeat case_match; injection H2; injection H3; intros; first [left; congruence|right; congruence].
  - intros h Hhh. destruct (Hb h Hhh) as (E5 & E6 & E7). congruence.
Qed.


(** C14: pruning after the block at height [a_height] succeeds and no later block
    can tell: from that height on every accepted exchange rate is the same,
    every address has the same votes, every output not destroyed below the
    pruning height is still there, and so is every block a rewind can go to. *)
Theorem prune_unobservable (core : Sqlite) (a : analyzer) (P H : Z) :
  wf_rates (t_exchange (c_tables (a_db a))) -> wf_votes (t_votes (c_tables (a_db a))) ->
  240 <= a_height a <= H -> H < 2147483648 -> pruneMax (a_height a) (a_config a) = Ok P ->
  exists a', phasePrune a = (Ok tt, a')
    /\ (forall rate, getAcceptedExchangeRate (db := chain_sqlite core (a_db a')) rate H
                     = getAcceptedExchangeRate (db := chain_sqlite core (a_db a)) rate H)
    /\ (forall i address n, (address, n) ∈ getVoteCounts i (a_db a') <-> (address, n) ∈ getVoteCounts i (a_db a))
    /\ (forall r, (forall d, row_heightDestroyed r = Some d -> P <= d) ->
          (r ∈ utxos (c_store (a_db a')) <-> r ∈ utxos (c_store (a_db a))))
    /\ (forall h, P <= h < 2147483648 -> fst (getBlockHash h (a_db a')) = fst (getBlockHash h (a_db a))).
Proof.
  intros Hr Hv Hh HH HP. destruct (phasePrune_history a P) as (a' & E & (E0 & HE0 & Hx) & Hs & Hu & Hb); [done..|lia|done|].
  pose proof (pruneMax_range (a_height a) _ P ltac:(lia) HP) as HPr.
  exists a'. split_and!; [done| | | |].
  - intros rate. apply getAcceptedExchangeRate_eq. intros s i m. rewrite i32_small by lia.
    destruct Hx as [Hx|Hx]; [unfold select_valid_rates; by rewrite Hx|]. apply (pruned_rates_accepted E0); [done..|lia].
  - intros i address n. by apply getVoteCounts_eq.
  - intros r Hd. destruct Hu as [->| ->]; [done|]. unfold stmtPruneUTXOs. rewrite !list_elem_of_In, List.filter_In.
    split; [by intros [? _]|]. intros ?. split; [done|]. destruct (row_heightDestroyed r) as [d|]; [|done].
    specialize (Hd d eq_refl). by rewrite (proj2 (Z.ltb_ge _ _)).
  - intros h Hhh. unfold getBlockHash. rewrite i32_small by lia.
    rewrite !(bind_ok get _ _ _ _ eq_refl), Hb by lia. by destruct (stmtGetBlockHash _ _).
Qed.

(** *** A concrete pruning *)
Definition sample_votes : list vote_row := [mk_vote_row 2 "alice" 50 3; mk_vote_row 2 "bob" 60 1; mk_vote_row 2 "alice" 350 4].
Definition sample_rates : list exchange_row :=
  [mk_exchange_row "rates" 0 10 (double_of_Z 5); mk_exchange_row "rates" 0 90 (double_of_Z 7); mk_exchange_row "rates" 0 300 (double_of_Z 9)].
Definition sample_analyzer : analyzer :=
  mk_analyzer (mk_chain (mk_store [mk_row "alice" [1] 0 None 1 5 10 0 (Some 20) None; mk_row "bob" [2] 0 None 1 6 10 0 None None] ∅ ∅)
                 (set_t_votes sample_votes (set_t_exchange sample_rates (mk_tables [] 0 [mk_block_row 100 [7] 0 0 (double_of_Z 1); mk_block_row 300 [8] 0 0 (double_of_Z 1)]
                    [] [] [] [] [] [] [] [] [] [] [] [] 0 ∅))) 0 ([], mk_tables [] 0 [] [] [] [] [] [] [] [] [] [] [] [] [] 0 ∅) ∅ [] [] [])
    (setPruneAge 100 (default_config false)) SYNCED 400 "" 0 false 0 0 (mk_recovery false 0 0 0).

Definition rows_left (a : analyzer) : nat * nat * nat * nat :=
  (length (utxos (c_store (a_db a))), length (t_blocks (c_tables (a_db a))), length (t_exchange (c_tables (a_db a))),
   length (t_votes (c_tables (a_db a)))).

Lemma prune_unobservable_witness :
  let a := sample_analyzer in
  rows_left a = (2, 2, 3, 3)%nat /\ rows_left (snd (phasePrune a)) = (1, 1, 2, 3)%nat
  /\ (exists a', phasePrune a = (Ok tt, a')
       /\ (("alice"%string, 7) ∈ getVoteCounts 2 (a_db a') <-> ("alice"%string, 7) ∈ getVoteCounts 2 (a_db a))).
Proof.
  intros a. split; [vm_compute; reflexivity|]. split; [vm_compute; reflexivity|].
  destruct (prune_unobservable sample_db a 300 400) as (a' & E & _ & Hv & _ & _).
  - split; [vm_compute; repeat constructor; set_solver|].
    intros r Hr. change (r ∈ sample_rates) in Hr. unfold sample_rates in Hr.
    repeat (apply elem_of_cons in Hr as [->|Hr]; [by cbn|]). by apply not_elem_of_nil in Hr.
  - split; [vm_compute; repeat constructor; set_solver|].
    intros r Hr. change (r ∈ sample_votes) in Hr. unfold sample_votes in Hr.
    repeat (apply elem_of_cons in Hr as [->|Hr]; [by cbn|]). by apply not_elem_of_nil in Hr.
  - vm_compute. by split.
  - lia.
  - vm_compute. reflexivity.
  - exists a'. split; [exact E|apply Hv].
Defined.
