(* ===== verification/AtomicityTheorems.v ===== *)
(** AtomicityTheorems: a block is stored completely or not at all.  Storing a
    transaction opens and closes a nested database transaction and never
    touches the snapshot of the outer one, so abandoning a block brings back
    the tables it found. *)

From S2P Require Import Prelude.
From S2P Require Import AssetTypes.
From S2P Require Import Blob.
From S2P Require Import Database.
From S2P Require Import DigiAsset.
From S2P Require Import UtxoStore.
From S2P Require Import DigiByteTransaction.
From S2P Require Import TransactionDecode.
From S2P Require Import ChainTables.
From S2P Require Import ChainDatabase.
From S2P Require Import ChainUpdate.
From S2P Require Import ChainAnalyzer.

(** The depth of nested transactions and the snapshot taken by the outer one. *)
Definition transaction (c : chain) : Z * (list utxo_row * tables) := (_transactionDepth c, c_begin c).

(** [m] neither opens nor closes a transaction, however it ends. *)
Notation quiet := (keeps transaction).

Lemma quiet_execute f : quiet (execute f).
Proof. done. Qed.
Lemma quiet_on_c_store {A} (m : M store A) : quiet (on_c_store m).
Proof. intros c. unfold on_c_store. by destruct (m (c_store c)). Qed.
#[export] Hint Resolve quiet_execute quiet_on_c_store : keeps.

Section quiet.
Context (core : Sqlite) (pools : list Pool).

Lemma quiet_setFlagInt flag state : quiet (setFlagInt flag state).
Proof.
  intros c. unfold setFlagInt, getFlagInt, mbind, M_bind, try_catch, get, put, mret, M_ret, exceptionFailedSelect_c, throw, modify, execute.
  by repeat (case_match; simplify_eq; cbn).
Qed.

Lemma quiet_callOnDownload cid sync extra callback : quiet (callOnDownload cid sync extra callback).
Proof. unfold callOnDownload, addIPFSJob. keeps_all. Qed.
Hint Resolve quiet_callOnDownload : keeps.

Lemma quiet_addExchangeRate address index height rate : quiet (addExchangeRate address index height rate).
Proof. unfold addExchangeRate. keeps_all. Qed.
Hint Resolve quiet_addExchangeRate : keeps.

Lemma quiet_add_rates outputs height index rates : quiet (add_rates outputs height index rates).
Proof. revert index; induction rates as [|rate rates IH]; intros index; cbn [add_rates]; keeps_all. Qed.
Hint Resolve quiet_add_rates : keeps.

Lemma quiet_add_issuance t : quiet (add_issuance pools t).
Proof. unfold add_issuance, addAsset, processNewMetaData, processAssetIssuance. keeps_all. Qed.
Hint Resolve quiet_add_issuance : keeps.

Lemma quiet_add_special t : quiet (add_special pools t).
Proof. unfold add_special, addKYC, revokeKYC, addEncryptedKey, createDigiDollarVault, addUnknown. keeps_all. Qed.

Lemma quiet_spend_input t input : quiet (spend_input t input).
Proof. unfold spend_input, spendDigiDollarUTXO, redeemDigiDollarVault, getDigiDollarOnUTXO. keeps_all. Qed.

Lemma quiet_add_dd_output t o : quiet (add_dd_output t o).
Proof. unfold add_dd_output, createDigiDollarUTXO. keeps_all. Qed.

Lemma quiet_add_output t o : quiet (add_output core t o).
Proof. unfold add_output. keeps_all. Qed.

Lemma quiet_add_votes t o : quiet (add_votes t o).
Proof. unfold add_votes, addVote. keeps_all. Qed.

Lemma quiet_addWatchAddress address : quiet (addWatchAddress address).
Proof. unfold addWatchAddress. keeps_all. Qed.
End quiet.
#[export] Hint Resolve quiet_add_special quiet_spend_input quiet_add_dd_output quiet_add_output quiet_add_votes quiet_addWatchAddress : keeps.

(** ** Inside an open transaction *)

(** [m], run in an open transaction, keeps the snapshot and leaves the
    transaction open; if it returns, at the same depth. [db] is where the chain is. *)
Section within.
Context {S : Type} (db : S -> chain).

Definition within {A} (m : M S A) : Prop := forall s, 1 <= _transactionDepth (db s) ->
  let '(o, s') := m s in
  c_begin (db s') = c_begin (db s) /\ 1 <= _transactionDepth (db s')
  /\ (is_ok o = true -> _transactionDepth (db s') = _transactionDepth (db s)).

Lemma within_bind {A B} (m : M S A) (f : A -> M S B) : within m -> (forall a, within (f a)) -> within (m ≫= f).
Proof.
  intros Hm Hf s Hs. unfold mbind, M_bind. specialize (Hm s Hs). destruct (m s) as [[a| | |] s1]; [|exact Hm..].
  destruct Hm as (H1 & H2 & H3). specialize (Hf a s1 H2). destruct (f a s1) as [o s2]. destruct Hf as (H4 & H5 & H6).
  split_and!; [congruence|done|]. intros Ho. by rewrite H6, H3.
Qed.

Lemma within_pure {A} (m : M S A) : (forall s, db (snd (m s)) = db s) -> within m.
Proof. intros H s Hs. specialize (H s). destruct (m s) as [o s']. cbn in H. by rewrite H. Qed.

Lemma within_for_each {A} (l : list A) (f : A -> M S unit) : (forall x, within (f x)) -> within (for_each l f).
Proof. intros Hf. induction l as [|x l IH]; cbn [for_each]; [by apply within_pure|]. by apply within_bind. Qed.
End within.

Lemma within_quiet {A} (m : M chain A) : quiet m -> within (fun c => c) m.
Proof.
  intros H c Hc. specialize (H c). destruct (m c) as [o c']. cbn in H. injection H as H1 H2. by rewrite H1, H2.
Qed.

Lemma within_on_db {A} (m : M chain A) : within (fun c => c) m -> within a_db (on_db m).
Proof. intros H a Ha. specialize (H (a_db a) Ha). unfold on_db. by destruct (m (a_db a)) as [o c']. Qed.

(** A transaction of the chain is nested in the open one. *)
Lemma within_nested {A} (m : M chain A) :
  quiet m -> within (fun c => c) (startTransaction;; a ← m; endTransaction;; mret a).
Proof.
  intros Hm c Hc. unfold mbind, M_bind, startTransaction, modify.
  rewrite (proj2 (Z.eqb_neq (_transactionDepth c) 0)) by lia.
  match goal with |- context [m ?c1] => pose proof (Hm c1) as Hq; destruct (m c1) as [[a| | |] c2] end;
    cbn in Hq; injection Hq as H1 H2; cbn; [|rewrite H1, H2; split_and!; [done|lia|done]..].
  rewrite (proj2 (Z.leb_gt (_transactionDepth c2) 0)) by lia. cbn. rewrite H1, H2. split_and!; [done|lia|intros; lia].
Qed.

Lemma within_addToDatabase core pools t : within (fun c => c) (addToDatabase core pools t).
Proof.
  intros c Hc.
  pose proof (within_nested (t ← add_special pools t; for_each (_inputs t) (spend_input t);;
    for_each (_ddOutputs t) (add_dd_output t);; for_each (_outputs t) (add_output core t);;
    for_each (_outputs t) (add_votes t);; mret t)) as H.
  specialize (H ltac:(keeps_all) c Hc).
  match type of H with (let '(_, _) := ?x in _) => assert (addToDatabase core pools t c = x) as -> end; [|exact H].
  unfold addToDatabase, mbind, M_bind. repeat (case_match; simplify_eq; try done).
Qed.

Section blocks.
Context (core : Core) (pools : list Pool).

Lemma within_processTX txid height : within a_db (processTX core pools txid height).
Proof.
  unfold processTX. apply within_bind; [by apply within_pure|]. intros a.
  destruct (DigiByteTransaction_load _ _ _ _) as [o [st watch]].
  apply within_bind; [apply within_on_db, within_quiet; by apply keeps_modify|]. intros _.
  apply within_bind; [apply within_for_each; intros; apply within_on_db, within_quiet; auto with keeps|]. intros _.
  apply within_bind; [by apply within_pure|]. intros t.
  apply within_bind; [apply within_on_db, within_addToDatabase|]. intros _. by apply within_pure.
Qed.

Lemma within_transactions b :
  within a_db (for_each (bi_tx b) (fun txid => processTX core pools txid (u32 (bi_height b)))).
Proof. apply within_for_each. intros txid. apply within_processTX. Qed.
End blocks.

(** ** The theorem *)

(** The transactions [txs] were processed one after another from [a] to [a'],
    each of them returning normally. *)
Inductive stored_in_turn (core : Core) (pools : list Pool) (height : Z) : list string -> analyzer -> analyzer -> Prop :=
| stored_none a : stored_in_turn core pools height [] a a
| stored_next txid txs a a1 a' :
    processTX core pools txid height a = (Ok tt, a1) ->
    stored_in_turn core pools height txs a1 a' ->
    stored_in_turn core pools height (txid :: txs) a a'.

Lemma for_each_stored core pools height txs a a' :
  for_each txs (fun txid => processTX core pools txid height) a = (Ok tt, a') -> stored_in_turn core pools height txs a a'.
Proof.
  revert a; induction txs as [|txid txs IH]; intros a H.
  { cbn in H. injection H as <-. constructor. }
  cbn in H. unfold mbind, M_bind in H.
  destruct (processTX core pools txid height a) as [[[]| | |] a1] eqn:E; try done.
  econstructor; [exact E|by apply IH].
Qed.

(** The outputs and tables a rollback goes back to: those at the start of the
    outermost open database transaction, or the present ones when none is. *)
Definition rollback_point (c : chain) : list utxo_row * tables :=
  if _transactionDepth c =? 0 then (utxos (c_store c), c_tables c) else c_begin c.

(** C8: Storing the transactions of a block is all or nothing. When it returns,
    every transaction of the block was processed, in order and normally, and
    the database is as the last of them left it, with as many database
    transactions open as before. When any of them fails - an exception of the
    node, of a decoder or of the database, after any number of stored
    transactions - the rollback of the recovery path ends outside a database
    transaction with every output and every table as they were at the start of
    the outermost open one: as they were before the block when it was started
    outside a database transaction, as after the last header batch was closed,
    and as before the batch while one is open (see [open_batch_stays_open] for
    the batch that is never closed). *)
Theorem block_all_or_nothing (core : Core) (pools : list Pool) (b : blockinfo_t) (a : analyzer) :
  0 <= _transactionDepth (a_db a) ->
  let '(o, a') := index_transactions core pools b a in
  if is_ok o then
    exists a1, stored_in_turn core pools (u32 (bi_height b)) (bi_tx b) (snd (on_db startTransaction a)) a1
      /\ c_store (a_db a') = c_store (a_db a1) /\ c_tables (a_db a') = c_tables (a_db a1)
      /\ _transactionDepth (a_db a') = _transactionDepth (a_db a)
      /\ rollback_point (a_db a') = (if _transactionDepth (a_db a) =? 0 then (utxos (c_store (a_db a')), c_tables (a_db a')) else c_begin (a_db a))
  else
    let c := snd (abortTransaction (a_db a')) in
    (utxos (c_store c), c_tables c) = rollback_point (a_db a) /\ _transactionDepth c = 0.
Proof.
  intros H0. unfold index_transactions, rollback_point.
  assert (fst (on_db startTransaction a) = Ok tt) as E by done.
  destruct (on_db startTransaction a) as [o1 a1] eqn:E1. cbn in E. subst o1.
  rewrite (bind_ok _ _ _ _ _ E1).
  unfold on_db, startTransaction, modify in E1. cbn in E1. injection E1 as <-.
  unfold mbind, M_bind.
  match goal with |- context [for_each _ _ ?s] => pose proof (within_transactions core pools b s) as H; set (s0 := s) in * end.
  specialize (H ltac:(cbn; lia)).
  destruct (for_each _ _ s0) as [[[]| | |] a2] eqn:E2; destruct H as (H1 & H2 & H3); cbn in H1, H2.
  { specialize (H3 eq_refl). cbn in H3. exists a2. split; [by apply for_each_stored|].
    unfold on_db, endTransaction, modify. cbn. rewrite H3, (proj2 (Z.leb_gt (_transactionDepth (a_db a) + 1) 0)) by lia. cbn.
    rewrite H1. split_and!; [done|done|lia|]. destruct (Z.eqb_spec (_transactionDepth (a_db a)) 0) as [E|E].
    - by rewrite E.
    - rewrite (proj2 (Z.eqb_neq _ 0)) by lia. done. }
  all: cbn; rewrite (proj2 (Z.eqb_neq (_transactionDepth (a_db a2)) 0)) by lia; cbn; rewrite H1; split; [by rewrite <- surjective_pairing|done].
Qed.

(** *** A block whose second transaction cannot be read *)
Definition failing_rpc : Sqlite := {|
  stmtGetHeightAssetCreated := fun _ => None;
  stmtGetAssetRules := fun _ => None;
  stmtGetSpendingAddress := fun _ _ => None;
  stmtGetKYC := fun _ => None;
  stmtGetValidExchangeRate := fun _ _ _ => [];
  stmtGetAsset := fun _ => None;
  stmtIsWatchAddress := fun _ => false;
  beenPrunedNonAssetUTXOHistory := false;
  beenPrunedUTXOHistory := 0;
  digiByteCoreSet := true;
  getRawTransaction := fun txid =>
    if bool_decide (txid = "0a"%string)
    then Ok (mk_getrawtransaction "0a" 1 "" 0 [mk_vin "" 0 "coinbase" []] [mk_vout 700 0 (mk_scriptPubKey "" "pubkeyhash" ["miner"%string])])
    else Throw length_error;
  getBlockHeight := fun _ => Ok 130;
  allocatable := fun _ => true
|}.
Definition sample_block (txs : list string) : blockinfo_t := mk_blockinfo "00" 1 130 1 txs 0 (double_of_Z 1) "".
Definition sample_core : Core := {|
  core_rpc := failing_rpc;
  core_getBlockHash := fun _ => Ok "00"%string;
  core_getBlock := fun _ => Ok (sample_block []);
  core_getNodeVersion := Ok 92700
|}.
Definition no_tables : tables := mk_tables [] 0 [] [] [] [] [] [] [] [] [] [] [] [] [] 0 ∅.
Definition open_chain (depth : Z) : chain := mk_chain (mk_store [] ∅ ∅) no_tables depth ([], no_tables) ∅ [] [] [].
Definition fresh_analyzer (depth height : Z) : analyzer :=
  mk_analyzer (open_chain depth) (default_config true) SYNCED height "00" 0 false 0 0 (mk_recovery false 0 0 0).

Lemma block_all_or_nothing_witness :
  (let '(o, a') := index_transactions sample_core [] (sample_block ["0a"; "0b"]%string) (fresh_analyzer 0 130) in
   is_ok o = false /\ length (utxos (c_store (a_db a'))) = 1%nat
   /\ utxos (c_store (snd (abortTransaction (a_db a')))) = [])
  /\ exists a1, stored_in_turn sample_core [] 130 ["0a"]%string (snd (on_db startTransaction (fresh_analyzer 0 130))) a1
       /\ length (utxos (c_store (a_db a1))) = 1%nat.
Proof.
  split.
  - pose proof (block_all_or_nothing sample_core [] (sample_block ["0a"; "0b"]%string) (fresh_analyzer 0 130) (Z.le_refl 0)) as H.
    assert (is_ok (fst (index_transactions sample_core [] (sample_block ["0a"; "0b"]%string) (fresh_analyzer 0 130))) = false
            /\ length (utxos (c_store (a_db (snd (index_transactions sample_core [] (sample_block ["0a"; "0b"]%string) (fresh_analyzer 0 130)))))) = 1%nat)
      as [E1 E2] by (split; vm_compute; reflexivity).
    destruct (index_transactions _ _ _ _) as [o a']. cbn [fst snd] in E1, E2. rewrite E1 in H. destruct H as (H & _).
    split; [exact E1|]. split; [exact E2|exact (f_equal fst H)].
  - pose proof (block_all_or_nothing sample_core [] (sample_block ["0a"]%string) (fresh_analyzer 0 130) (Z.le_refl 0)) as H.
    assert (is_ok (fst (index_transactions sample_core [] (sample_block ["0a"]%string) (fresh_analyzer 0 130))) = true
            /\ length (utxos (c_store (a_db (snd (index_transactions sample_core [] (sample_block ["0a"]%string) (fresh_analyzer 0 130)))))) = 1%nat)
      as [E1 E2] by (split; vm_compute; reflexivity).
    destruct (index_transactions _ _ _ _) as [o a']. cbn [fst snd] in E1, E2. rewrite E1 in H. destruct H as (a1 & H & Hs & _).
    exists a1. split; [exact H|]. rewrite <- Hs. exact E2.
Defined.

(** ** The batch before the asset era

    Block headers are stored in transactions of 100; a batch that is open when
    the first block of the asset era is reached is not closed: every later
    block is nested in it and nothing is committed. *)
Lemma open_batch_stays_open (core : Core) (pools : list Pool) (b : blockinfo_t) (a : analyzer) :
  1 <= _transactionDepth (a_db a) ->
  let a' := snd (index_transactions core pools b a) in
  1 <= _transactionDepth (a_db a') /\ c_begin (a_db a') = c_begin (a_db a)
  /\ (forall batch b', 1 <= _transactionDepth (a_db (snd (advance core true batch b' a))))
  /\ utxos (c_store (snd (abortTransaction (a_db a')))) = fst (c_begin (a_db a)).
Proof.
  intros Hd. cbv zeta.
  assert (within a_db (index_transactions core pools b)) as Hw.
  { intros s Hs. unfold index_transactions, mbind, M_bind, on_db, startTransaction, endTransaction, modify. cbn [a_db set_db].
    rewrite (proj2 (Z.eqb_neq (_transactionDepth (a_db s)) 0)) by lia.
    match goal with |- context [for_each _ _ ?s] => pose proof (within_transactions core pools b s) as H end.
    specialize (H ltac:(cbn; lia)). destruct (for_each _ _ _) as [[[]| | |] a2]; destruct H as (H1 & H2 & H3); cbn in H1, H3 |- *;
      [|by split_and!..]. rewrite H3, (proj2 (Z.leb_gt (_transactionDepth (a_db s) + 1) 0)) by (done || lia). cbn.
    rewrite H1. split_and!; [done|lia..]. }
  specialize (Hw a Hd). destruct (index_transactions core pools b a) as [o a']. destruct Hw as (H1 & H2 & _). cbn [snd].
  split_and!; [done|done| |].
  - intros batch b'.
    assert (within a_db (advance core true batch b')) as Ha; [|specialize (Ha a Hd); destruct (advance _ _ _ _ _); apply Ha].
    unfold advance. apply within_bind; [by apply within_pure|]. intros a1. apply within_bind.
    { unfold when. destruct (_ && _); [|by apply within_pure]. apply within_on_db, within_quiet, quiet_setFlagInt. }
    intros _. apply within_bind; [by apply within_pure|]. intros _.
    apply within_bind; [by apply within_pure|]. intros a2. apply within_bind; [destruct (_ && _); by apply within_pure|]. intros hash.
    apply within_bind; [by apply within_pure|]. intros b2. apply within_bind; [by apply within_pure|]. intros _.
    apply within_bind; [apply within_on_db, within_quiet; unfold insertBlock; keeps_all|]. intros _. by apply within_pure.
  - cbn. rewrite (proj2 (Z.eqb_neq (_transactionDepth (a_db a')) 0)) by lia. cbn. by rewrite H1.
Qed.
