(* ===== verification/AnalyzerTheorems.v ===== *)
(** AnalyzerTheorems: following the chain. After a fork the analyzer goes back
    to the highest block it still shares with DigiByte Core, or starts over
    when pruning has removed it; without one it indexes every block up to the
    tip, or up to the first one that cannot be indexed. *)

From S2P Require Import Prelude.
From S2P Require Import AssetTypes.
From S2P Require Import Blob.
From S2P Require Import Database.
From S2P Require Import DigiDollar.
From S2P Require Import DigiAsset.
From S2P Require Import UtxoStore.
From S2P Require Import DigiByteTransaction.
From S2P Require Import TransactionDecode.
From S2P Require Import ChainTables.
From S2P Require Import ChainDatabase.
From S2P Require Import ChainUpdate.
From S2P Require Import ChainAnalyzer.
From S2P Require Import AtomicityTheorems.

Ltac Zify.zify_post_hook ::= Z.div_mod_to_equations.

(** ** The search for the fork *)

(** The hash the database has for a height. *)
Definition db_hash (c : chain) (h : Z) : option string := toHex <$> stmtGetBlockHash h (c_tables c).

Lemma getBlockHash_db c h :
  0 <= h < 2147483648 ->
  getBlockHash (u32 h) c = (match db_hash c h with Some d => Ok d | None => Throw exceptionDataPruned end, c).
Proof.
  intros Hh. unfold getBlockHash, db_hash. rewrite (bind_ok get _ c c c eq_refl).
  assert (i32 (u32 h) = h) as -> by (unfold i32, u32, two32; lia). by destruct (stmtGetBlockHash h (c_tables c)).
Qed.

(** The state after starting over, and after going back to a height. *)
Definition restarted (a : analyzer) : analyzer := set_position 1 DIGIBYTE_BLOCK1_HASH (set_db (snd (reset (a_db a))) a).

(** [f] is where the walk from [H] ends: every block above it is orphaned. *)
Definition walk_end (hash_of : Z -> string) (c : chain) (H f : Z) : Prop :=
  0 <= f < H /\ (forall k, f < k < H -> exists d, db_hash c k = Some d /\ d <> hash_of k)
  /\ (forall d, db_hash c f = Some d -> d = hash_of f).

Section search.
Context (core : Core) (hash_of : Z -> string).

Lemma rewind_loop_step fuel hash a :
  1 <= a_height a < 2147483648 -> hash <> _nextHash a ->
  core_getBlockHash (a_height a - 1) = Ok (hash_of (a_height a - 1)) ->
  rewind_loop core (S fuel) hash a =
    match db_hash (a_db a) (a_height a - 1) with
    | None => (Ok false, restarted a)
    | Some d => rewind_loop core fuel (hash_of (a_height a - 1)) (set_position (a_height a - 1) d a)
    end.
Proof.
  intros HH Hne Hc. cbn [rewind_loop]. rewrite (bind_ok get _ a a a eq_refl).
  rewrite bool_decide_eq_false_2 by done. rewrite i32_small by lia. rewrite Hc.
  unfold mbind, M_bind, put, lift, try_catch, on_db. cbn [a_db set_position].
  rewrite getBlockHash_db by lia. by destruct (db_hash (a_db a) (a_height a - 1)).
Qed.

Lemma rewind_loop_spec fuel hash a :
  1 <= a_height a < 2147483648 -> (Z.to_nat (a_height a) < fuel)%nat -> hash <> _nextHash a ->
  (forall h, 0 <= h < a_height a -> core_getBlockHash h = Ok (hash_of h)) -> db_hash (a_db a) 0 = None ->
  exists f, walk_end hash_of (a_db a) (a_height a) f
    /\ rewind_loop core fuel hash a =
       match db_hash (a_db a) f with
       | None => (Ok false, restarted a)
       | Some _ => (Ok true, set_position f (hash_of f) a)
       end.
Proof.
  revert hash a; induction fuel as [|fuel IH]; intros hash a HH Hf Hne Hc H0; [lia|].
  rewrite rewind_loop_step by (done || apply Hc; lia). set (h := a_height a - 1) in *.
  destruct (db_hash (a_db a) h) as [d|] eqn:Ed.
  2: { exists h. rewrite Ed. split; [|done]. split_and!; [lia|lia|intros k ?; lia|congruence]. }
  destruct (decide (hash_of h = d)) as [E|E].
  { exists h. rewrite Ed. split; [split_and!; [lia|lia|intros k ?; lia|congruence]|].
    - subst d. destruct fuel as [|fuel]; [lia|]. cbn [rewind_loop].
      rewrite (bind_ok get _ _ _ _ eq_refl). by rewrite bool_decide_eq_true_2. }
  assert (h <> 0) as Hh0 by (intros Hh; rewrite Hh in Ed; congruence).
  destruct (IH (hash_of h) (set_position h d a)) as (f & (Hf1 & Hf2 & Hf3) & Hr); cbn [a_height _nextHash a_db set_position] in *;
    [lia|lia|done|intros; apply Hc; lia|done|].
  exists f. split; [|rewrite Hr; by destruct (db_hash (a_db a) f)].
  split_and!; [lia|lia| |done]. intros k Hk. destruct (decide (k = h)) as [->|]; [by exists d|]. apply Hf2. lia.
Qed.
End search.

(** C11: After any fork [phaseRewind] ends, and ends in the right place. While
    Core agrees with the last block nothing changes; otherwise every block
    between the analyzer's height and the one it stops at is one Core has
    replaced, and it stops either at a block Core still has, with the database
    rewound to it and nothing more, or - when that block was pruned - at an empty
    database and block 1. *)
Theorem rewind_finds_fork (core : Core) (hash_of : Z -> string) (a : analyzer) :
  1 <= a_height a < 2147483648 ->
  (forall h, 0 <= h <= a_height a -> core_getBlockHash h = Ok (hash_of h)) -> db_hash (a_db a) 0 = None ->
  exists a', phaseRewind core a = (Ok tt, a')
    /\ if bool_decide (hash_of (a_height a) = _nextHash a) then a' = a
       else exists f, walk_end hash_of (a_db a) (a_height a) f
         /\ match db_hash (a_db a) f with
            | None => a' = set_state REWINDING (restarted a)
            | Some _ => a_height a' = f /\ _nextHash a' = hash_of f /\ a_db a' = snd (clearBlocksAboveHeight f (a_db a))
                        /\ a_config a' = a_config a /\ _lastOracleEpoch a' = _lastOracleEpoch a
            end.
Proof.
  intros HH Hc H0. unfold phaseRewind. rewrite (bind_ok get _ a a a eq_refl).
  rewrite (bind_ok (lift (core_getBlockHash (a_height a))) _ a (hash_of (a_height a)) a) by (by unfold lift; rewrite Hc by lia).
  case_bool_decide as Hn; [by exists a|].
  rewrite (bind_ok (modify (set_state REWINDING)) _ a tt (set_state REWINDING a) eq_refl).
  destruct (rewind_loop_spec core hash_of (rewind_fuel a) (hash_of (a_height a)) (set_state REWINDING a)) as (f & Hw & E);
    cbn [a_height _nextHash a_db set_state] in *; [done|unfold rewind_fuel; lia|done|intros; apply Hc; lia|done|].
  destruct (db_hash (a_db a) f) as [d|] eqn:Ed.
  - rewrite (bind_ok _ _ _ _ _ E). cbn [negb].
    eexists. split; [reflexivity|]. exists f. rewrite Ed. split; [done|].
    assert (u32 f = f) as Ef by (destruct Hw; apply u32_small; unfold two32; lia). cbn. rewrite Ef. by case_match.
  - rewrite (bind_ok _ _ _ _ _ E). cbn [negb]. eexists. split; [reflexivity|]. exists f. by rewrite Ed.
Qed.

(** *** A fork two blocks deep *)
Definition forked_core : Core := {|
  core_rpc := sample_db;
  core_getBlockHash := fun h => Ok (if (h <=? 10)%Z then "aa" else "bb")%string;
  core_getBlock := fun _ => Throw length_error;
  core_getNodeVersion := Ok 92700
|}.
Definition forked_analyzer : analyzer :=
  set_position 12 "cc" (set_db (set_tables (set_t_blocks
    [mk_block_row 9 [170] 0 0 (double_of_Z 1); mk_block_row 10 [170] 0 0 (double_of_Z 1); mk_block_row 11 [204] 0 0 (double_of_Z 1)]
    no_tables) (open_chain 0)) (fresh_analyzer 0 12)).

Lemma rewind_finds_fork_witness :
  exists a', phaseRewind forked_core forked_analyzer = (Ok tt, a') /\ a_height a' = 10.
Proof.
  destruct (rewind_finds_fork forked_core (fun h => if (h <=? 10)%Z then "aa" else "bb")%string forked_analyzer) as (a' & E & H).
  - vm_compute. by split.
  - intros h _. reflexivity.
  - vm_compute. reflexivity.
  - exists a'. split; [exact E|]. rewrite bool_decide_eq_false_2 in H by (vm_compute; discriminate).
    destruct H as (f & ((Hf1 & Hf2) & Hf3 & Hf4) & H). cbn [a_height forked_analyzer set_position] in *.
    assert (f = 10) as ->; [|by destruct H as [H _]].
    destruct (decide (f < 10)) as [Hlt|].
    { destruct (Hf3 10 ltac:(lia)) as (d & Hd & Hne). vm_compute in Hd, Hne. congruence. }
    destruct (decide (f = 11)) as [->|]; [|lia]. specialize (Hf4 "cc"%string ltac:(vm_compute; reflexivity)). vm_compute in Hf4. discriminate.
Defined.

(** *** The oracle price of an orphaned epoch

    A rewind deletes the prices stored from its height on, but the epoch of the
    last one stays in memory: the same epoch is not read again. *)
Lemma keeps_epoch_rewind (core : Core) : keeps _lastOracleEpoch (phaseRewind core).
Proof.
  assert (forall A (m : M chain A), keeps _lastOracleEpoch (on_db m)) as Hdb.
  { intros A m a. unfold on_db. by destruct (m (a_db a)). }
  assert (forall fuel hash, keeps _lastOracleEpoch (rewind_loop core fuel hash)) as Hloop.
  { induction fuel as [|fuel IH]; intros hash; [done|]. cbn [rewind_loop]. unfold restart. intros a.
    unfold mbind at 1, M_bind at 1, get. destruct (bool_decide _); [done|].
    match goal with |- _ (snd ((put ?x ;; ?k) a)) = _ => change ((put x ;; k) a) with (k x); change (_lastOracleEpoch a) with (_lastOracleEpoch x); generalize x; change (keeps _lastOracleEpoch k) end.
    keeps_all. }
  unfold phaseRewind, clearBlocksAboveHeight. keeps_all. apply keeps_modify. intros x. by case_match.
Qed.

Lemma oracle_epoch_lost (core : Core) (a : analyzer) (height : Z) (txid : string) :
  height / DIGIDOLLAR_ORACLE_EPOCH_LENGTH <= _lastOracleEpoch a -> 0 < height ->
  let a' := snd (phaseRewind core a) in snd (captureOracleCommitment core height txid a') = a'.
Proof.
  intros He Hp a'. pose proof (keeps_epoch_rewind core a : _lastOracleEpoch a' = _) as El.
  unfold captureOracleCommitment. rewrite (bind_ok get _ a' a' a' eq_refl). destruct (Z.ltb_spec height DIGIDOLLAR_ACTIVATION_HEIGHT) as [|Ha]; [done|].
  rewrite El, (proj2 (Z.leb_le _ _) He).
  rewrite (proj2 (Z.eqb_neq (height / DIGIDOLLAR_ORACLE_EPOCH_LENGTH) 0)); [done|].
  unfold DIGIDOLLAR_ORACLE_EPOCH_LENGTH, DIGIDOLLAR_ACTIVATION_HEIGHT in *. lia.
Qed.

(** ** Indexing up to the tip *)
Definition place (a : analyzer) : Z * string * config := (a_height a, _nextHash a, a_config a).

Lemma keeps_on_db {A} (m : M chain A) : keeps place (on_db m).
Proof. intros a. unfold on_db. by destruct (m (a_db a)). Qed.
#[export] Hint Resolve keeps_on_db : keeps.

Section tip.
Context (pools : list Pool) (core : Core).

Lemma keeps_processTX txid height : keeps place (processTX core pools txid height).
Proof.
  unfold processTX. apply keeps_bind; [auto with keeps|]. intros a. destruct (DigiByteTransaction_load _ _ _ _) as [o [st watch]]. keeps_all.
Qed.
Hint Resolve keeps_processTX : keeps.

Lemma keeps_index_block b : keeps place (index_block core pools b).
Proof. unfold index_block, check_thaw_day, captureOracleCommitment, index_transactions, phasePrune. keeps_all. Qed.

(** Core serves the blocks from height [h] on, and nothing after the last. *)
Fixpoint serves (h : Z) (blocks : list blockinfo_t) : Prop :=
  match blocks with
  | [] => True
  | b :: rest =>
      core_getBlockHash h = Ok (bi_hash b) /\ core_getBlock (bi_hash b) = Ok b /\ bi_height b = h
      /\ bi_hash b <> ""%string /\ is_ok (Blob_of_hex (bi_hash b)) = true
      /\ bi_nextblockhash b = match rest with b' :: _ => bi_hash b' | [] => ""%string end
      /\ serves (h + 1) rest
  end.

Lemma getFlagInt_total flag d c : exists v c', getFlagInt flag (Some d) c = (Ok v, c').
Proof. unfold getFlagInt, mbind, M_bind, get, put, mret, M_ret. repeat case_match; simplify_eq; by eexists _, _. Qed.

Lemma setFlagInt_total flag v c : fst (setFlagInt flag v c) = Ok tt.
Proof.
  unfold setFlagInt, getFlagInt, mbind, M_bind, try_catch, get, put, mret, M_ret, exceptionFailedSelect_c, throw, modify, execute.
  by repeat (case_match; simplify_eq; cbn).
Qed.

(** Moving on to a block Core serves. *)
Lemma advance_to needs batch b b' a :
  bi_nextblockhash b = bi_hash b' -> core_getBlockHash (a_height a + 1) = Ok (bi_hash b') ->
  core_getBlock (bi_hash b') = Ok b' -> is_ok (Blob_of_hex (bi_hash b')) = true -> 0 <= a_height a < 2147483647 ->
  exists a' batch', advance core needs batch b a = (Ok (bi_hash b', b', batch'), a')
    /\ place a' = (a_height a + 1, bi_hash b', a_config a).
Proof.
  intros Hn Hh Hb Hx Hr. unfold advance. rewrite (bind_ok get _ a a a eq_refl).
  assert (exists a1, when (_trackDigiDollar (a_config a) && (a_height a =? DIGIDOLLAR_ACTIVATION_HEIGHT))
            (on_db (setDigiDollarSyncHeight DIGIDOLLAR_ACTIVATION_HEIGHT)) a = (Ok tt, a1) /\ place a1 = place a) as (a1 & E1 & P1).
  { destruct (_ && _); cbn [when]; [|by eexists]. unfold on_db, setDigiDollarSyncHeight.
    pose proof (setFlagInt_total "ddSyncHeight" (i32 DIGIDOLLAR_ACTIVATION_HEIGHT) (a_db a)) as H.
    destruct (setFlagInt _ _ _) as [o c']. cbn in H. subst o. by eexists. }
  rewrite (bind_ok _ _ _ _ _ E1), Hn. rewrite i32_small by lia.
  destruct (Blob_of_hex (bi_hash b')) as [blob| | |] eqn:Eblob; try done.
  unfold mbind, M_bind, modify, get, lift, mret, M_ret. cbn [_state _nextHash set_position a_db]. rewrite Hh.
  injection P1 as P1 P2 P3.
  destruct ((_state a1 <? -110) && _); rewrite Hb; unfold on_db, insertBlock, startTransaction, endTransaction, execute, modify, mbind, M_bind, lift, when;
    rewrite Eblob; (destruct needs; [|destruct (batch =? 0), (100 <=? batch + 1)]); cbn.
  all: eexists _, _; split; [reflexivity|]; unfold place; cbn; by rewrite P3.
Qed.

(** The blocks are indexed one after another, each in the state the one before
    and its header left: all of them, or [n] up to one whose indexing fails. *)
Definition failure {A} (o : outcome A) : outcome unit := _ ← o; Ok tt.
Inductive indexing : blockinfo_t -> list blockinfo_t -> Z -> analyzer -> nat -> outcome unit -> Prop :=
  | index_last b batch a needs a1 :
      index_block core pools b a = (Ok needs, a1) -> indexing b [] batch a 0 (Ok tt)
  | index_fails b blocks batch a o a1 :
      index_block core pools b a = (o, a1) -> is_ok o = false -> indexing b blocks batch a 0 (failure o)
  | index_next b b' blocks batch a needs a1 batch' a2 n o :
      index_block core pools b a = (Ok needs, a1) -> advance core needs batch b a1 = (Ok (bi_hash b', b', batch'), a2) ->
      indexing b' blocks batch' a2 n o -> indexing b (b' :: blocks) batch a (S n) o.

Lemma indexing_length b blocks batch a n o : indexing b blocks batch a n o -> (n <= length blocks)%nat.
Proof. induction 1; cbn; lia. Qed.

(** At the tip nothing moves as long as Core does not. *)
Lemma tip_stays b needs batch k a :
  core_getBlockHash (a_height a) = Ok (bi_hash b) -> core_getBlock (bi_hash b) = Ok b -> bi_nextblockhash b = ""%string ->
  exists a', sync_loop pools (repeat core (S k)) (at_tip (bi_hash b) b needs) batch a = (Ok tt, a')
    /\ place a' = place a /\ _state a' = SYNCED.
Proof.
  intros Hh Hb Hn. assert (forall k a, core_getBlockHash (a_height a) = Ok (bi_hash b) -> _state a = SYNCED ->
    exists a', sync_loop pools (repeat core k) (at_tip (bi_hash b) b needs) batch a = (Ok tt, a')
      /\ place a' = place a /\ _state a' = SYNCED) as H.
  { clear Hh a k. intros k; induction k as [|k IH]; intros a Hh Hs; cbn [repeat sync_loop]; [by eexists|].
    unfold mbind, M_bind, modify, get, lift. cbn [a_height set_state]. rewrite Hh, bool_decide_eq_true_2 by done. cbn [negb].
    rewrite Hb, Hn, bool_decide_eq_true_2 by done.
    destruct (IH (set_state SYNCED a)) as (a' & E & P & S); [done..|]. by exists a'. }
  cbn [repeat sync_loop]. unfold mbind, M_bind, modify, get, lift. cbn [a_height set_state]. rewrite Hh, bool_decide_eq_true_2 by done. cbn [negb].
  rewrite Hb, Hn, bool_decide_eq_true_2 by done.
  destruct (H k (set_state SYNCED a)) as (a' & E & P & S); [done..|]. by exists a'.
Qed.

Lemma sync_from (blocks : list blockinfo_t) b batch k a :
  serves (a_height a) (b :: blocks) -> _nextHash a = bi_hash b ->
  0 <= a_height a -> a_height a + Z.of_nat (length blocks) < 2147483648 ->
  exists n o a', sync_loop pools (repeat core (length blocks + 2 + k)) (at_block (bi_hash b) b) batch a = (o, a')
    /\ indexing b blocks batch a n o
    /\ place a' = (a_height a + Z.of_nat n, bi_hash (nth n (b :: blocks) b), a_config a)
    /\ (is_ok o = true -> n = length blocks /\ _state a' = SYNCED).
Proof.
  revert b batch a; induction blocks as [|b' blocks IH]; intros b batch a Hs Hn H0 Hm; cbn [length] in *.
  all: replace (S (length blocks) + 2 + k)%nat with (S (length blocks + 2 + k)) || idtac; try lia.
  all: cbn [Nat.add repeat sync_loop]; rewrite (bind_ok get _ a a a eq_refl), Hn, bool_decide_eq_true_2 by done; cbn [negb].
  all: pose proof (keeps_index_block b a) as Hp; destruct (index_block core pools b a) as [o a1] eqn:E; cbn [snd] in Hp.
  all: assert (place a = (a_height a + Z.of_nat 0, bi_hash b, a_config a)) as Ha by (unfold place; rewrite Hn; repeat f_equal; lia).
  all: destruct (is_ok o) eqn:Eo;
    [|exists 0%nat, (failure o), a1; split; [unfold mbind, M_bind; rewrite E; by destruct o|];
      split; [by eapply index_fails|]; split; [by rewrite Hp|by destruct o]].
  all: destruct o as [needs| | |]; try done; rewrite (bind_ok _ _ _ _ _ E); destruct Hs as (Hh & Hb & Hbh & _ & _ & Hnext & Hs).
  all: injection Hp as Hp1 Hp2 Hp3.
  - rewrite Hnext, bool_decide_eq_true_2 by done.
    destruct (tip_stays b needs batch k a1) as (a' & E' & P & S); [by rewrite Hp1|done..|].
    exists 0%nat, (Ok tt), a'. split; [exact E'|]. split; [by eapply index_last|]. split; [|done].
    rewrite P. unfold place. rewrite Hp1, Hp2, Hp3, Hn. cbn. repeat f_equal. lia.
  - destruct (Hs) as (Hh' & Hb' & Hbh' & Hne & Hhex & _). rewrite Hnext, bool_decide_eq_false_2 by done.
    destruct (advance_to needs batch b b' a1) as (a2 & batch' & E2 & P2); rewrite ?Hp1; [done..|lia|].
    rewrite (bind_ok _ _ _ _ _ E2). injection P2 as P2 P3 P4. rewrite Hp1 in P2. rewrite Hp3 in P4.
    destruct (IH b' batch' a2) as (n & o & a' & E' & Hi & P & S); rewrite ?P2; [done|done|lia..|].
    exists (Datatypes.S n), o, a'. split; [exact E'|]. split; [by eapply index_next|]. split.
    + apply indexing_length in Hi. rewrite P, P2, P4. change (nth (Datatypes.S n) (b :: b' :: blocks) b) with (nth n (b' :: blocks) b). rewrite (nth_indep (b' :: blocks) b b'); [by rewrite Nat2Z.inj_succ, <- Z.add_1_l, Z.add_assoc|].
      cbn. lia.
    + intros Ho. destruct (S Ho) as [-> Hs']. done.
Qed.
End tip.

(** C37: With a Core that stays on one chain the block loop ends, and where it
    ends is decided by the blocks: from a block the analyzer agrees on, whatever
    the batches and the bulk mode, every block is indexed once and in order, in
    the state its predecessors left. Either all of them are; then the loop
    returns, stands on Core's last block and reports that it is synchronised. Or
    the first one that cannot be indexed ends it with its failure, and the
    analyzer stands on that block. *)
Theorem sync_reaches_tip (pools : list Pool) (core : Core) (b : blockinfo_t) (blocks : list blockinfo_t) (k : nat) (a : analyzer) :
  serves core (a_height a) (b :: blocks) -> _nextHash a = bi_hash b ->
  0 <= a_height a -> a_height a + Z.of_nat (length blocks) < 2147483648 ->
  exists n o a', phaseSync pools core (repeat core (length blocks + 2 + k)) a = (o, a')
    /\ indexing pools core b blocks 0 a n o
    /\ a_height a' = a_height a + Z.of_nat n /\ _nextHash a' = bi_hash (nth n (b :: blocks) b) /\ a_config a' = a_config a
    /\ (is_ok o = true -> n = length blocks /\ _state a' = SYNCED).
Proof.
  intros Hs Hn H0 Hm. destruct (sync_from pools core blocks b 0 k a Hs Hn H0 Hm) as (n & o & a' & E & Hi & P & S).
  destruct Hs as (Hh & Hb & _). exists n, o, a'. injection P as P1 P2 P3. split_and!; [|done..].
  unfold phaseSync, mbind, M_bind, get, lift. by rewrite Hh, Hb.
Qed.

(** *** Three blocks of the asset era

    The second one spends the output of the first and has an OP_RETURN; the
    third has the transactions [last]. *)
Definition paying (txid : string) (input : vin_t) (address : string) : getrawtransaction_t :=
  mk_getrawtransaction txid 1 "" 0 [input]
    [mk_vout 700 0 (mk_scriptPubKey "" "pubkeyhash" [address]); mk_vout 0 1 (mk_scriptPubKey "6a0548656c6c6f" "nulldata" [])].
Definition short_rpc : Sqlite := {|
  stmtGetHeightAssetCreated := fun _ => None;
  stmtGetAssetRules := fun _ => None;
  stmtGetSpendingAddress := fun _ _ => None;
  stmtGetKYC := fun _ => None;
  stmtGetValidExchangeRate := fun _ _ _ => [];
  stmtGetAsset := fun _ => None;
  stmtIsWatchAddress := fun _ => false;
  beenPrunedNonAssetUTXOHistory := false;
  beenPrunedUTXOHistory := 0;
  digiByteCoreSet := true;
  getRawTransaction := fun txid =>
    if bool_decide (txid = "0a"%string) then Ok (paying "0a" (mk_vin "" 0 "coinbase" []) "miner")
    else if bool_decide (txid = "0b"%string) then Ok (paying "0b" (mk_vin "0a" 0 "" []) "heir")
    else Throw length_error;
  getBlockHeight := fun _ => Ok 8432316;
  allocatable := fun _ => true
|}.
Definition era_block (h : Z) (hash next : string) (txs : list string) : blockinfo_t := mk_blockinfo hash 1 h 1 txs 0 (double_of_Z 1) next.
Definition first_block : blockinfo_t := era_block 8432316 "05" "06" ["0a"%string].
Definition later_blocks (last : list string) : list blockinfo_t :=
  [era_block 8432317 "06" "07" ["0b"%string]; era_block 8432318 "07" "" last].
Definition short_core (last : list string) : Core := {|
  core_rpc := short_rpc;
  core_getBlockHash := fun h => Ok (if (h =? 8432316)%Z then "05" else if (h =? 8432317)%Z then "06" else "07")%string;
  core_getBlock := fun hash => Ok (if bool_decide (hash = "05"%string) then first_block
                                   else if bool_decide (hash = "06"%string) then era_block 8432317 "06" "07" ["0b"%string]
                                   else era_block 8432318 "07" "" last);
  core_getNodeVersion := Ok 92700
|}.
Definition short_analyzer : analyzer := set_position 8432316 "05" (fresh_analyzer 0 8432316).
#[local] Notation short_sync last :=
  (phaseSync [] (short_core last) (repeat (short_core last) (length (later_blocks last) + 2 + 0)) short_analyzer).
(** Who got an output, when, and when it was spent *)
Definition output_rows (a : analyzer) : list (string * Z * option Z) :=
  map (fun r => (row_address r, row_heightCreated r, row_heightDestroyed r)) (utxos (c_store (a_db a))).

(** What the two runs come to *)
#[local] Notation summary r := (fst r, a_height (snd r), output_rows (snd r)).
Lemma short_sync_all :
  summary (short_sync []) = (Ok tt, 8432318, [("miner"%string, 8432316, Some 8432317); ("heir"%string, 8432317, None)]).
Proof. vm_compute. reflexivity. Qed.
Lemma short_sync_stops :
  summary (short_sync ["0c"%string])
  = (Throw length_error, 8432318, [("miner"%string, 8432316, Some 8432317); ("heir"%string, 8432317, None)]).
Proof. vm_compute. reflexivity. Qed.

Lemma sync_reaches_tip_witness :
  (exists a', short_sync [] = (Ok tt, a') /\ indexing [] (short_core []) first_block (later_blocks []) 0 short_analyzer 2 (Ok tt)
    /\ _state a' = SYNCED /\ output_rows a' = [("miner"%string, 8432316, Some 8432317); ("heir"%string, 8432317, None)])
  /\ exists n a', short_sync ["0c"%string] = (Throw length_error, a')
    /\ indexing [] (short_core ["0c"%string]) first_block (later_blocks ["0c"%string]) 0 short_analyzer n (Throw length_error)
    /\ a_height a' = 8432318 /\ _nextHash a' = bi_hash (nth n (first_block :: later_blocks ["0c"%string]) first_block).
Proof.
  pose proof short_sync_all as S1. pose proof short_sync_stops as S2. split.
  - destruct (sync_reaches_tip [] (short_core []) first_block (later_blocks []) 0 short_analyzer)
      as (n & o & a' & E & Hi & _ & _ & _ & Hok); [vm_compute; by split_and!|reflexivity|vm_compute; discriminate|vm_compute; reflexivity|].
    rewrite E in S1 |- *. injection S1 as Eo Eh Er. subst o. destruct (Hok eq_refl) as [-> Hs].
    exists a'. split; [reflexivity|]. split; [exact Hi|]. split; [exact Hs|exact Er].
  - destruct (sync_reaches_tip [] (short_core ["0c"%string]) first_block (later_blocks ["0c"%string]) 0 short_analyzer)
      as (n & o & a' & E & Hi & _ & Hn & _); [vm_compute; by split_and!|reflexivity|vm_compute; discriminate|vm_compute; reflexivity|].
    rewrite E in S2 |- *. injection S2 as Eo Eh Er. subst o.
    exists n, a'. split; [reflexivity|]. split; [exact Hi|]. split; [exact Eh|exact Hn].
Defined.

(** ** Forks that are not noticed

    After a failed pass, and at every start, the analyzer takes the hash of its
    height from Core and not from its database: Core agrees with itself, so no
    rewind follows, even if the blocks below have been replaced. *)
Lemma core_hash_no_rewind (core : Core) (a : analyzer) :
  core_getBlockHash (a_height a) = Ok (_nextHash a) -> phaseRewind core a = (Ok tt, a).
Proof. intros H. unfold phaseRewind, mbind, M_bind, get, lift. by rewrite H, bool_decide_eq_true_2. Qed.

Lemma recovery_trusts_core (core : Core) (a a' : analyzer) :
  recover core a = (Ok tt, a') -> phaseRewind core a' = (Ok tt, a').
Proof.
  unfold recover. rewrite (bind_ok get _ a a a eq_refl). cbv zeta.
  unfold on_db, getLastBlockHeight. unfold mbind, M_bind, put, gets, get, modify, lift, mret, M_ret, exceptionFailedSelect_c, throw. cbn [a_db set_recovery].
  destruct (stmtGetBlockHeight (c_tables (a_db a))) as [h|]; [|done]. cbn [set_position a_db set_db a_height].
  destruct (core_getBlockHash (i32 (u32 h))) as [hash| | |] eqn:E; [|done..].
  intros [= <-]. by apply core_hash_no_rewind.
Qed.

Lemma startup_trusts_core (core : Core) (a a' : analyzer) :
  _trackDigiDollar (a_config a) = false -> _storeNonAssetUTXOs (a_config a) = true ->
  startupFunction core a = (Ok tt, a') -> phaseRewind core a' = (Ok tt, a').
Proof.
  intros Ht Hs. unfold startupFunction, phaseDigiDollarBackfill.
  unfold on_db, getLastBlockHeight. unfold mbind, M_bind, put, gets, get, modify, lift, mret, M_ret, when, clearBlocksAboveHeight, exceptionFailedSelect_c, throw. cbn [a_db set_state].
  destruct (stmtGetBlockHeight (c_tables (a_db a))) as [h|]; [|done]. cbn [set_position a_db set_db a_height set_state a_config set_lastOracleEpoch].
  destruct (core_getBlockHash (i32 (u32 h))) as [hash| | |] eqn:E; [|done..].
  unfold modify. cbn. rewrite Hs. cbn. rewrite Ht. cbn. intros [= <-]. by apply core_hash_no_rewind.
Qed.

(** A database that stopped on a branch Core has left: blocks 9 and 10 are
    orphaned, the start keeps block 9's data and notices nothing. *)
Lemma startup_keeps_orphans :
  let core := {| core_rpc := sample_db; core_getBlockHash := fun _ => Ok "bb"%string;
                 core_getBlock := fun _ => Throw length_error; core_getNodeVersion := Ok 92700 |} in
  let orphan := mk_row "alice" [1] 0 None 1 5000 9 0 None None in
  let c := set_store (mk_store [orphan] ∅ ∅) (set_tables (set_t_blocks
    [mk_block_row 9 [170] 0 0 (double_of_Z 1); mk_block_row 10 [170] 0 0 (double_of_Z 1)] no_tables) (open_chain 0)) in
  let a := set_config (mk_config 5760 700 true true true true false) (set_db c (fresh_analyzer 0 0)) in
  let a' := snd (pass_body [] core [] (snd (startupFunction core a))) in
  db_hash (a_db a') 9 = Some "aa"%string /\ utxos (c_store (a_db a')) = [orphan] /\ a_height a' = 10 /\ _nextHash a' = "bb"%string.
Proof. vm_compute. by split_and!. Qed.
