(* ===== verification/IpfsQueue.v ===== *)
(** IpfsQueue: the queue of IPFS jobs in the chain database (getNextIPFSJob to
    addIPFSJob of src/src/Database.cpp) and the worker that empties it
    (mainFunction, pin, unpin of src/src/IPFS.cpp).

    Several workers run at once. A worker is split where it leaves the database:
    [getNextIPFSJob], and what it does with the answer of the node; and a pause
    is split between its statement and its entry in memory.
    The clock is read where the code reads it and is an argument. *)

From S2P Require Import Prelude.
From S2P Require Import BitIOCodec.
From S2P Require Import CString.
From S2P Require Import DigiDollar.
From S2P Require Import AssetTypes.
From S2P Require Import Blob.
From S2P Require Import Database.
From S2P Require Import DigiAsset.
From S2P Require Import UtxoStore.
From S2P Require Import ChainTables.
From S2P Require Import ChainDatabase.

(** ** Statements on the table *)
Definition with_lock (x : bool) (r : ipfs_row) : ipfs_row :=
  mk_ipfs_row (job_index r) (job_sync r) x (job_cid r) (job_extra r) (job_callback r) (job_pause r) (job_maxTime r).
Definition with_pause (x : option Z) (r : ipfs_row) : ipfs_row :=
  mk_ipfs_row (job_index r) (job_sync r) (job_lock r) (job_cid r) (job_extra r) (job_callback r) x (job_maxTime r).

Definition on_jobs (f : list ipfs_row -> list ipfs_row) (t : tables) : tables := set_t_ipfs (f (t_ipfs t)) (t_ipfs_sequence t) t.
Definition in_sync (sync : string) (r : ipfs_row) : bool := bool_decide (job_sync r = sync).
Definition ready (r : ipfs_row) : bool := match job_pause r with None => negb (job_lock r) | Some _ => false end.

(** SELECT jobIndex,sync,cid,extra,callback,maxTime FROM ipfs WHERE pause is NULL AND lock is false ORDER BY jobIndex ASC LIMIT 1 *)
Definition stmtGetNextIPFSJob (t : tables) : option ipfs_row := head (select_where ready (t_ipfs t)).
(** SELECT count( * ) FROM ipfs *)
Definition stmtNumberOfIPFSJobs (t : tables) : Z := Z.of_nat (length (t_ipfs t)).
(** DELETE FROM ipfs WHERE jobIndex=? *)
Definition stmtClearNextIPFSJob_a (jobIndex : Z) : tables -> tables := on_jobs (delete_where (fun r => job_index r =? jobIndex)).
(** UPDATE ipfs set lock=false WHERE sync=? *)
Definition stmtClearNextIPFSJob_b (sync : string) : tables -> tables := on_jobs (update_where (in_sync sync) (with_lock false)).
(** UPDATE ipfs set pause=?, lock=false WHERE sync=? *)
Definition stmtSetIPFSPauseSync (pause : Z) (sync : string) : tables -> tables :=
  on_jobs (update_where (in_sync sync) (fun r => with_lock false (with_pause (Some pause) r))).
(** UPDATE ipfs set pause=NULL WHERE pause<? *)
Definition stmtClearIPFSPause (now : Z) : tables -> tables :=
  on_jobs (update_where (fun r => null_lt (job_pause r) now) (with_pause None)).
(** UPDATE ipfs set lock=true WHERE sync=? *)
Definition stmtSetIPFSLockSync (sync : string) : tables -> tables := on_jobs (update_where (in_sync sync) (with_lock true)).
(** UPDATE ipfs set pause=?, lock=false WHERE jobIndex=? *)
Definition stmtSetIPFSPauseJob (pause jobIndex : Z) : tables -> tables :=
  on_jobs (update_where (fun r => job_index r =? jobIndex) (fun r => with_lock false (with_pause (Some pause) r))).
(** UPDATE ipfs set lock=true WHERE jobIndex=? *)
Definition stmtSetIPFSLockJob (jobIndex : Z) : tables -> tables :=
  on_jobs (update_where (fun r => job_index r =? jobIndex) (with_lock true)).

(** ** Operations *)

(** The sync values whose jobs are handled one by one in any order. *)
Definition unordered (sync : string) : bool :=
  bool_decide (sync = "pin"%string) || bool_decide (sync = "_"%string) || bool_decide (sync = ""%string).

Definition set_paused x (c : chain) := mk_chain (c_store c) (c_tables c) (_transactionDepth c) (c_begin c) (_flagState c) (_exchangeWatchAddresses c) (_masterDomainAssetId c) x.

Definition getIPFSJobCount : M chain Z := gets (fun c => u32 (i32 (stmtNumberOfIPFSJobs (c_tables c)))).

(** A job handed to a worker. *)
Record job := mk_job {
  jobIndex : Z; cid : string; sync : string; extra : string; maxSleep : Z; callback : string }.

(** The entries of the list in memory that have expired are dropped, and if
    there were any the table is swept. *)
Definition clear_pauses (now : Z) : M chain unit :=
  c ← get;
  let kept := List.filter (fun p => negb (p.2 <? now)) (_ipfsCurrentlyPaused c) in
  put (set_paused kept c);;
  when (length kept <? length (_ipfsCurrentlyPaused c))%nat (execute (stmtClearIPFSPause (i64 now))).

Definition UINT_MAX : Z := 4294967295.
Definition remaining (maxTime now : Z) : Z :=
  if maxTime =? 0 then UINT_MAX else if maxTime <=? now then 0 else u32 (maxTime - now).

(** [now] and [now'] are the two readings of the clock; [None] is job number 0. *)
Definition getNextIPFSJob (now now' : Z) : M chain (option job) :=
  clear_pauses now;;
  found ← gets (fun c => stmtGetNextIPFSJob (c_tables c));
  match found with
  | None => mret None
  | Some r =>
      let index := u32 (i32 (job_index r)) in
      let maxTime := u64 (default 0 (job_maxTime r)) in
      let symbol := if bool_decide (job_callback r = "_"%string) then ("_" ++ to_string index)%string else job_callback r in
      execute (if unordered (job_sync r) then stmtSetIPFSLockJob (i32 index) else stmtSetIPFSLockSync (c_str (job_sync r)));;
      mret (Some (mk_job index (job_cid r) (job_sync r) (job_extra r) (remaining maxTime now') symbol))
  end.

(** The two halves of a pause: the statement on the table, and the entry in
    memory, which no lock connects with it. *)
Definition pause_in_table (jobIndex : Z) (sync : string) (unpauseTime : Z) : M chain unit :=
  execute (if unordered sync then stmtSetIPFSPauseJob (i64 unpauseTime) (i32 jobIndex)
           else stmtSetIPFSPauseSync (i64 unpauseTime) (c_str sync)).
Definition pause_in_memory (sync : string) (unpauseTime : Z) : M chain unit :=
  when (negb (unordered sync)) (modify (fun c => set_paused (_ipfsCurrentlyPaused c ++ [(sync, unpauseTime)]) c)).
Definition pauseIPFSSync (jobIndex : Z) (sync : string) (pauseLengthInMilliSeconds now : Z) : M chain unit :=
  let unpauseTime := u64 (now + pauseLengthInMilliSeconds) in
  pause_in_table jobIndex sync unpauseTime;;
  pause_in_memory sync unpauseTime.

Definition removeIPFSJob (jobIndex : Z) (sync : string) : M chain unit :=
  execute (stmtClearNextIPFSJob_a (i32 jobIndex));;
  execute (stmtClearNextIPFSJob_b (c_str sync)).

(** [addIPFSJob] with a time limit: the deadline is computed when it is added. *)
Definition addTimedIPFSJob (cid sync extra : string) (maxSleep now : Z) (callbackSymbol : string) : M chain Z :=
  addIPFSJob cid sync extra (if maxSleep =? 0 then None else Some (i64 (u64 (now + maxSleep)))) callbackSymbol.

(** INSERT ... SELECT 'pin', 0, cid, '', '', NULL, NULL FROM assets WHERE cid != '' *)
Definition stmtRepinAssets (t : tables) : tables :=
  foldl (fun t r => stmtInsertIPFSJob "pin" (ae_cid r) "" "" None None t) t
    (select_where (fun r => negb (bool_decide (ae_cid r = ""%string))) (t_assets t)).

(** Opening the database: the promises of the last run are dropped ([LIKE "_"]
    matches every callback symbol of one character), locks and pauses cleared. *)
Definition initialize_queue : M chain unit :=
  execute (on_jobs (delete_where (fun r => (length (chars (job_callback r)) =? 1)%nat)));;
  execute (on_jobs (map (fun r => with_lock false (with_pause None r))));;
  modify (set_paused []).

(** ** The worker *)

(** The node: the size of a file, and the answer to a command within a time. *)
Class IpfsNode := {
  ipfs_getSize : string -> outcome Z;
  ipfs_command : string -> Z -> outcome string
}.

Record ipfs := mk_ipfs {
  i_chain : chain; _pinnedCache : gset string;
  _timeoutPin : Z; _timeoutDownload : Z; _timeoutRetry : Z }.
Definition set_i_chain x (i : ipfs) := mk_ipfs x (_pinnedCache i) (_timeoutPin i) (_timeoutDownload i) (_timeoutRetry i).
Definition set_pinnedCache x (i : ipfs) := mk_ipfs (i_chain i) x (_timeoutPin i) (_timeoutDownload i) (_timeoutRetry i).
Definition on_queue {A} (m : M chain A) : M ipfs A := fun i => let '(o, c) := m (i_chain i) in (o, set_i_chain c i).

Definition exceptionTimeout : exn := class_exception "IPFS::exceptionTimeout" "Timeout".

(** The call of a job's callback: symbol, cid, extra, content, failed. *)
Definition call : Type := string * string * string * string * bool.

Section worker.
Context `{node : IpfsNode} (ulong_max : Z).

(** [pin/add] and [pin/rm], every failure swallowed. *)
Definition change_pin (command : string) (j : job) (f : gset string -> gset string) : M ipfs unit :=
  i ← get;
  try_catch
    (allowed ← (if bool_decide (extra j = ""%string) then mret true
                else size ← lift (ipfs_getSize (cid j)); limit ← lift (stoul ulong_max (extra j)); mret (size <? limit));
     if allowed : bool then
       lift (ipfs_command (command ++ cid j) (u32 (_timeoutPin i * 1000)));;
       modify (fun i => set_pinnedCache (f (_pinnedCache i)) i)
     else mret tt)
    (fun _ => mret tt).

(** The time a download gets, and whether it is the job's last. *)
Definition download_time (timeoutDownload maxSleep : Z) : Z * bool :=
  let timeout := u32 (timeoutDownload * 1000) in
  if (0 <? maxSleep) && (maxSleep <? timeout) then (maxSleep, true) else (timeout, false).

(** The content, or [None] when the job is to be tried again later. *)
Definition download (j : job) (now : Z) : M ipfs (option (string * bool)) :=
  i ← get;
  let '(timeout, lastTry) := download_time (_timeoutDownload i) (maxSleep j) in
  match ipfs_command ("cat/" ++ cid j) timeout with
  | Ok content => mret (Some (content, false))
  | Throw e =>
      if bool_decide (e = exceptionTimeout) then
        if lastTry : bool then mret (Some (""%string, true))
        else on_queue (pauseIPFSSync (jobIndex j) (sync j) (u32 (_timeoutRetry i * 1000)) now);; mret None
      else throw e
  | o => lift (_ ← o; Ok None)
  end.

(** What a worker does with a job; returns the callback it makes. *)
Definition perform (j : job) (now : Z) : M ipfs (option call) :=
  if negb (isValidCID (cid j)) || isLostCID (cid j) then on_queue (removeIPFSJob (jobIndex j) (sync j));; mret None
  else
    result ← (if bool_decide (sync j = "pin"%string) then
                change_pin "pin/add/" j (fun s => {[cid j]} ∪ s);; mret (Some (""%string, false))
              else if bool_decide (sync j = "unpin"%string) then
                change_pin "pin/rm/" j (fun s => s ∖ {[cid j]});; mret (Some (""%string, false))
              else download j now);
    match result with
    | None => mret None
    | Some (content, failed) =>
        on_queue (removeIPFSJob (jobIndex j) (sync j));;
        mret (Some (callback j, cid j, extra j, content, failed))
    end.

(** One run of the worker thread's function, alone. *)
Definition IPFS_mainFunction (now now' now'' : Z) : M ipfs (option call) :=
  found ← on_queue (getNextIPFSJob now now');
  match found with None => mret None | Some j => perform j now'' end.
End worker.

(** [IPFS::pin] and [IPFS::unpin] *)
Definition pin (cid : string) (maxSize : Z) : M chain unit :=
  if negb (isValidCID cid) then mret tt
  else if isLostCID cid then throw exceptionTimeout
  else if maxSize =? 0 then mret tt
  else addIPFSJob cid "pin" (if maxSize =? 1 then "" else to_string maxSize) None "";; mret tt.
Definition unpin (cid : string) : M chain unit :=
  if negb (isValidCID cid) then mret tt else addIPFSJob cid "unpin" "" None "";; mret tt.
