(* ===== verification/IpfsTheorems.v ===== *)
(** IpfsTheorems: the jobs of an ordered group of the IPFS queue are handed out
    one at a time and oldest first, whatever the number of workers, as long as
    no job is added to the group while it is worked on or being paused; and what
    happens to the queue where that does not hold. *)

From Stdlib Require Import Sorted.
From S2P Require Import Prelude.
From S2P Require Import BitIOCodec.
From S2P Require Import DigiDollar.
From S2P Require Import AssetTypes.
From S2P Require Import Blob.
From S2P Require Import Database.
From S2P Require Import DigiAsset.
From S2P Require Import UtxoStore.
From S2P Require Import Sql.
From S2P Require Import ChainTables.
From S2P Require Import ChainDatabase.
From S2P Require Import IpfsQueue.

Ltac Zify.zify_post_hook ::= Z.div_mod_to_equations.




(** ** Runs of the queue *)



Section group.
(** The group that is looked at; the others are not restricted in any way. *)
Context (s : string).









(** *** Updates of the rows *)


























End group.


(** ** Concrete queues *)
Definition queue_with (l : list ipfs_row) (n : Z) : chain :=
  mk_chain (mk_store [] ∅ ∅) (mk_tables [] 0 [] [] [] [] [] [] [] [] [] [] [] [] l n ∅) 0 ([], mk_tables [] 0 [] [] [] [] [] [] [] [] [] [] [] [] [] 0 ∅)
    ∅ [] [] [].
Definition waiting (index : Z) (sync : string) : ipfs_row := mk_ipfs_row index sync false "bafk" "" "callback" None None.
Definition DOMAIN : string := "DIGIBYTEDOMAIN".

Definition taken (o : outcome (option job) * chain) : option (Z * string) :=
  match o.1 with Ok (Some j) => Some (jobIndex j, sync j) | _ => None end.

(** A pin job and two domain jobs: the first two are handed out, the domain is
    paused until 20 in two halves, a third domain job is added, and the first
    one is handed out again. *)
Definition domain_queue : chain := queue_with [waiting 1 "pin"; waiting 2 DOMAIN; waiting 3 DOMAIN] 3.
Definition both_taken : chain := snd (getNextIPFSJob 6 6 (snd (getNextIPFSJob 5 5 domain_queue))).




(** ** Where the queue does not do what it means to *)

(** A job added to a group while one of its jobs is being worked on is not
    locked: a second worker gets it at once. *)
Lemma job_added_while_locked :
  let c1 := snd (getNextIPFSJob 5 5 (queue_with [waiting 2 DOMAIN] 2)) in
  let c2 := snd (addIPFSJob "bafk" DOMAIN "" None "callback" c1) in
  taken (getNextIPFSJob 5 5 (queue_with [waiting 2 DOMAIN] 2)) = Some (2, DOMAIN)
  /\ taken (getNextIPFSJob 6 6 c2) = Some (3, DOMAIN).
Proof. vm_compute. by split. Qed.

(** A job added between the two halves of a pause finds no pause in memory: it
    is handed out at once, before the older jobs of its group. *)
Lemma job_added_during_pause :
  let c1 := snd (pause_in_table 2 DOMAIN 20 both_taken) in
  let c2 := snd (addIPFSJob "bafk" DOMAIN "" None "callback" c1) in
  taken (getNextIPFSJob 7 7 c1) = None
  /\ taken (getNextIPFSJob 7 7 (snd (pause_in_memory DOMAIN 20 c2))) = Some (4, DOMAIN).
Proof. vm_compute. by split. Qed.

(** Finishing an unordered job unlocks every other job of that sync value: one
    that a second worker is still busy with is handed out again. *)
Lemma running_job_handed_out_again :
  let c1 := snd (getNextIPFSJob 5 5 (queue_with [waiting 1 ""; waiting 2 ""] 2)) in
  let c2 := snd (getNextIPFSJob 6 6 c1) in
  taken (getNextIPFSJob 5 5 (queue_with [waiting 1 ""; waiting 2 ""] 2)) = Some (1, ""%string)
  /\ taken (getNextIPFSJob 6 6 c1) = Some (2, ""%string)
  /\ taken (getNextIPFSJob 7 7 (snd (removeIPFSJob 1 "" c2))) = Some (2, ""%string).
Proof. vm_compute. by split_and!. Qed.

(** The pause of an unordered job is only in the table, and the table is swept
    only when an entry in memory expires: with none in memory a paused job is
    not handed out however late it gets. *)
Lemma unordered_pause_not_lifted c now now' r :
  _ipfsCurrentlyPaused c = [] -> (forall x, x ∈ t_ipfs (c_tables c) -> x = r) -> job_pause r <> None ->
  fst (getNextIPFSJob now now' c) = Ok None.
Proof.
  intros Hp Hr Hpause. unfold getNextIPFSJob, clear_pauses, mbind, M_bind, get, put, gets, when. rewrite Hp. cbn.
  unfold stmtGetNextIPFSJob. assert (select_where ready (t_ipfs (c_tables c)) = []) as ->; [|done].
  unfold select_where. induction (t_ipfs (c_tables c)) as [|x l IH]; [done|]. cbn. rewrite (Hr x) by left. unfold ready.
  destruct (job_pause r); [|done]. apply IH. intros y Hy. apply Hr. by right.
Qed.

(** A job whose deadline has passed gets the full time of a download, and is
    not on its last try. *)
Lemma expired_job_retried timeoutDownload maxTime now :
  0 < maxTime <= now -> download_time timeoutDownload (remaining maxTime now) = (u32 (timeoutDownload * 1000), false).
Proof.
  intros H. unfold remaining. rewrite (proj2 (Z.eqb_neq maxTime 0)), (proj2 (Z.leb_le maxTime now)) by lia. done.
Qed.

(** A download that fails with anything but a timeout leaves its job locked. *)
Lemma failed_download_stays_locked (node : IpfsNode) ulong_max j now i e :
  isValidCID (cid j) = true -> isLostCID (cid j) = false -> sync j <> "pin"%string -> sync j <> "unpin"%string ->
  (forall time, ipfs_command ("cat/" ++ cid j) time = Throw e) -> e <> exceptionTimeout ->
  perform ulong_max j now i = (Throw e, i).
Proof.
  intros Hv Hl Hp Hu Hc He. unfold perform. rewrite Hv, Hl. cbn. rewrite !bool_decide_eq_false_2 by done.
  unfold download, mbind, M_bind, get. destruct (download_time _ _) as [timeout lastTry]. rewrite Hc, bool_decide_eq_false_2 by done. done.
Qed.
