(* ===== verification/DigiByteDomain.v ===== *)
(** DigiByteDomain: the ".dgb" domains (src/src/DigiByteDomain.cpp) on the domain
    tables of ChainDatabase.  Issuances of a master asset are turned into jobs by
    [processAssetIssuance] (ChainUpdate); this file has what happens when the
    metadata arrives.  The JSON reader is an interface. *)

From S2P Require Import Prelude.
From S2P Require Import BitIOCodec.
From S2P Require Import AssetTypes.
From S2P Require Import Blob.
From S2P Require Import Database.
From S2P Require Import DigiAsset.
From S2P Require Import UtxoStore.
From S2P Require Import ChainTables.
From S2P Require Import ChainDatabase.

(** The parts of the document that are read: the members of "DNS" in the order
    of the reader with their [asString], and "next" if it is a string. *)
Record metadata := mk_metadata { DNS : list (string * outcome string); next : option string }.
Class JsonReader := { read_metadata : string -> outcome metadata }.

Definition isDomain (domain : string) : bool :=
  let n := length (chars domain) in
  if (n <? 4)%nat then false else bool_decide (drop (n - 4) (chars domain) = chars ".dgb").

Definition getAssetId (domain : string) : M chain string := getDomainAssetId domain true.

(** What has changed since the last metadata: new and revoked domains, or
    [None] when a known domain names another asset. *)
Fixpoint scan (members : list (string * outcome string)) : M chain (option (list (string * outcome string) * list string)) :=
  match members with
  | [] => mret (Some ([], []))
  | (domain, value) :: members =>
      assetId ← lift value;
      known ← try_catch (id ← getDomainAssetId domain false; mret (Some id))
                (fun e => if bool_decide (e = exceptionUnknownDomain) then mret None else throw e);
      match known with
      | Some onDB =>
          if bool_decide (onDB = assetId) then scan members
          else if bool_decide (assetId = ""%string) then
            found ← scan members;
            mret ((fun '(new, revoked) => (new, domain :: revoked)) <$> found)
          else setDomainCompromised;; mret None
      | None =>
          found ← scan members;
          mret ((fun '(new, revoked) => ((domain, value) :: new, revoked)) <$> found)
      end
  end.

Definition _callbackNewMetadata `{JsonReader} (content : string) : M chain unit :=
  c ← get;
  if isDomainCompromised c then mret tt
  else
    document ← lift (read_metadata content);
    found ← scan (DNS document);
    match found with
    | None => mret tt
    | Some (new, revoked) =>
        for_each new (fun d => assetId ← lift d.2; addDomain d.1 assetId);;
        for_each revoked revokeDomain;;
        match next document with Some id => setMasterDomainAssetId id | None => mret tt end
    end.

(** ** What a domain can and cannot become *)

(** The row of a domain only ever gains its revocation. *)
Definition registered (domain : string) (c : chain) : option domain_row := stmtGetDomainAssetId domain (c_tables c).
Definition later (c c' : chain) : Prop := forall domain r, registered domain c = Some r ->
  exists r', registered domain c' = Some r' /\ dr_assetId r' = dr_assetId r /\ (dr_revoked r = true -> dr_revoked r' = true).

#[global] Instance later_preorder : PreOrder later.
Proof.
  split.
  - intros c domain r E. by exists r.
  - intros c1 c2 c3 H1 H2 domain r E. destruct (H1 domain r E) as (r1 & E1 & Ei1 & Hr1). destruct (H2 domain r1 E1) as (r2 & E2 & Ei2 & Hr2).
    exists r2. split_and!; [done|congruence|auto].
Qed.

(** [m] only moves domains forward, however it ends. *)
Definition forward {A} (m : M chain A) : Prop := forall c, later c (snd (m c)).

Lemma forward_keeps {A} (m : M chain A) : keeps (fun c => t_domains (c_tables c)) m -> forward m.
Proof. intros H c domain r E. exists r. split; [|done]. unfold registered, stmtGetDomainAssetId in *. by rewrite H. Qed.

Lemma forward_bind {A B} (m : M chain A) (f : A -> M chain B) : forward m -> (forall a, forward (f a)) -> forward (m ≫= f).
Proof.
  intros Hm Hf c. specialize (Hm c). unfold mbind, M_bind. destruct (m c) as [[a| | |] c1]; cbn in *; [|done..]. etrans; [done|apply Hf].
Qed.

Lemma forward_for_each {A} (l : list A) (f : A -> M chain unit) : (forall x, forward (f x)) -> forward (for_each l f).
Proof. intros Hf. induction l as [|x l IH]; cbn [for_each]; [by apply forward_keeps|]. by apply forward_bind. Qed.

Lemma forward_addDomain domain assetId : forward (addDomain domain assetId).
Proof.
  intros c d r E. exists r. split; [|done]. unfold registered, stmtGetDomainAssetId, select_where in *. cbn.
  rewrite List.filter_app. by destruct (List.filter _ _).
Qed.

Lemma forward_revokeDomain domain : forward (revokeDomain domain).
Proof.
  intros c d r. unfold registered, stmtGetDomainAssetId, select_where, update_where. cbn. unfold update_where.
  induction (t_domains (c_tables c)) as [|x l IH]; [done|]. cbn. intros E.
  destruct (bool_decide (dr_domain x = d)) eqn:Ex.
  - injection E as ->. destruct (bool_decide (dr_domain r = c_str domain)); cbn; rewrite Ex; by eexists.
  - destruct (IH E) as (r' & E' & H). exists r'. split; [|done]. destruct (bool_decide (dr_domain x = c_str domain)); cbn; by rewrite Ex.
Qed.

Lemma keeps_setMaster id : keeps (fun c => t_domains (c_tables c)) (setMasterDomainAssetId id).
Proof. by intros c. Qed.

Lemma scan_domains members : keeps (fun c => t_domains (c_tables c)) (scan members).
Proof.
  induction members as [|[domain value] members IH]; cbn [scan]; [by intros c|].
  apply keeps_bind; [done|]. intros assetId. apply keeps_bind.
  { intros c. unfold try_catch, getDomainAssetId, mbind, M_bind, get, mret, M_ret, throw.
    destruct (stmtGetDomainAssetId _ _); cbn; [done|]. by case_match. }
  intros [onDB|]; [|apply keeps_bind; [done|by intros]].
  case_match; [done|]. case_match; (apply keeps_bind; [|by intros]); [done|apply keeps_setMaster].
Qed.

Section callback.
Context `{JsonReader}.

Lemma callback_forward content : forward (_callbackNewMetadata content).
Proof.
  unfold _callbackNewMetadata. apply forward_bind; [by apply forward_keeps|]. intros c. destruct (isDomainCompromised c); [by apply forward_keeps|].
  apply forward_bind; [by apply forward_keeps|]. intros document.
  apply forward_bind; [apply forward_keeps, scan_domains|]. intros [[new revoked]|]; [|by apply forward_keeps].
  apply forward_bind; [apply forward_for_each; intros d; apply forward_bind; [by apply forward_keeps|intros; apply forward_addDomain]|]. intros _.
  apply forward_bind; [apply forward_for_each; intros; apply forward_revokeDomain|]. intros _.
  destruct (next document); [apply forward_keeps, keeps_setMaster|by apply forward_keeps].
Qed.

Lemma compromised_stays content c : isDomainCompromised c = true -> _callbackNewMetadata content c = (Ok tt, c).
Proof. intros Hc. unfold _callbackNewMetadata. rewrite (bind_ok get _ c c c eq_refl). by rewrite Hc. Qed.

Lemma setDomainCompromised_spec c :
  let c' := snd (setDomainCompromised c) in
  fst (setDomainCompromised c) = Ok tt /\ isDomainCompromised c' = true /\ t_domains (c_tables c') = t_domains (c_tables c).
Proof.
  unfold setDomainCompromised, setMasterDomainAssetId, mbind, M_bind, gets, execute, modify. cbn. split_and!; [done| |done].
  unfold isDomainCompromised. cbn. by rewrite last_snoc.
Qed.

(** A member that names another asset for a known domain compromises the system. *)
Lemma scan_tampered members c domain id r :
  Forall (fun m => is_ok m.2 = true) members -> (domain, Ok id) ∈ members -> id <> ""%string ->
  registered (c_str domain) c = Some r -> dr_assetId r <> id ->
  exists c', scan members c = (Ok None, c') /\ isDomainCompromised c' = true /\ t_domains (c_tables c') = t_domains (c_tables c).
Proof.
  intros Hok Hin Hid Hr Hne. induction members as [|[d v] members IH]; [by apply not_elem_of_nil in Hin|].
  apply Forall_cons in Hok as [Hv Hok]. cbn in Hv. destruct v as [assetId| | |]; try done. cbn [scan].
  rewrite (bind_ok (lift (Ok assetId)) _ c assetId c eq_refl).
  assert (try_catch (id ← getDomainAssetId d false; mret (Some id))
            (fun e => if bool_decide (e = exceptionUnknownDomain) then mret None else throw e) c
          = (Ok (dr_assetId <$> registered (c_str d) c), c)) as E.
  { unfold try_catch, getDomainAssetId, registered, mbind, M_bind, get, mret, M_ret. destruct (stmtGetDomainAssetId _ _); [done|].
    unfold throw. by rewrite bool_decide_eq_true_2. }
  rewrite (bind_ok _ _ _ _ _ E). apply elem_of_cons in Hin as [[= <- <-]|Hin].
  - rewrite Hr. cbn [fmap option_fmap option_map]. rewrite !bool_decide_eq_false_2 by done.
    destruct (setDomainCompromised_spec c) as (H1 & H2 & H3). destruct (setDomainCompromised c) as [o c'] eqn:Es. cbn in *. subst o.
    exists c'. by rewrite (bind_ok _ _ _ _ _ Es).
  - destruct (IH Hok Hin) as (c' & Es & H1 & H2).
    destruct (registered (c_str d) c) as [r'|]; cbn [fmap option_fmap option_map];
      [case_bool_decide; [by exists c'|]; case_bool_decide|].
    + exists c'. by rewrite (bind_ok _ _ _ _ _ Es).
    + destruct (setDomainCompromised_spec c) as (Hs1 & Hs2 & Hs3). destruct (setDomainCompromised c) as [o c2] eqn:Es2. cbn in *. subst o.
      exists c2. by rewrite (bind_ok _ _ _ _ _ Es2).
    + exists c'. by rewrite (bind_ok _ _ _ _ _ Es).
Qed.

(** The callbacks of a list of documents, in order, whatever each returns. *)
Definition run_callbacks (contents : list string) (c : chain) : chain :=
  foldl (fun c content => snd (_callbackNewMetadata content c)) c contents.

Lemma run_callbacks_later contents c : later c (run_callbacks contents c).
Proof.
  revert c; induction contents as [|content contents IH]; intros c; [done|]. cbn. etrans; [apply callback_forward|apply IH].
Qed.
Lemma run_callbacks_compromised contents c : isDomainCompromised c = true -> run_callbacks contents c = c.
Proof. induction contents as [|content contents IH]; intros Hc; [done|]. cbn. rewrite compromised_stays by done. by apply IH. Qed.
End callback.

(** C38: A registered domain is never reassigned. Whatever metadata arrives later,
    in any number of documents, readable or not, a domain keeps the asset it was
    registered with and a revoked domain stays revoked; a readable document that
    names another asset for it changes no domain, and from then on no document
    changes anything. *)
Theorem domain_never_reassigned (reader : JsonReader) (contents : list string) (c : chain) (domain : string) (r : domain_row) :
  registered (c_str domain) c = Some r ->
  (exists r', registered (c_str domain) (run_callbacks contents c) = Some r' /\ dr_assetId r' = dr_assetId r
     /\ (dr_revoked r = true -> dr_revoked r' = true))
  /\ (forall content document id, read_metadata content = Ok document -> isDomainCompromised c = false ->
        Forall (fun m => is_ok m.2 = true) (DNS document) -> (domain, Ok id) ∈ DNS document -> id <> ""%string -> id <> dr_assetId r ->
        t_domains (c_tables (run_callbacks (content :: contents) c)) = t_domains (c_tables c)
        /\ run_callbacks (content :: contents) c = run_callbacks [content] c).
Proof.
  intros Hr. split; [by apply run_callbacks_later|].
  intros content document id Hread Hc Hok Hin Hid Hne.
  destruct (scan_tampered (DNS document) c domain id r) as (c' & Es & H1 & H2); [done..|congruence|].
  assert (_callbackNewMetadata content c = (Ok tt, c')) as E.
  { unfold _callbackNewMetadata. rewrite (bind_ok get _ c c c eq_refl), Hc.
    rewrite (bind_ok (lift (read_metadata content)) _ c document c) by (unfold lift; by rewrite Hread).
    by rewrite (bind_ok _ _ _ _ _ Es). }
  unfold run_callbacks. cbn [foldl]. rewrite E. cbn [snd]. change (foldl _ c' contents) with (run_callbacks contents c').
  by rewrite run_callbacks_compromised.
Qed.

(** *** A domain registered, then taken over *)
Definition sample_reader : JsonReader := {|
  read_metadata := fun content =>
    if bool_decide (content = "first"%string) then Ok (mk_metadata [("shop.dgb"%string, Ok "asset1"%string)] None)
    else Ok (mk_metadata [("new.dgb"%string, Ok "asset3"%string); ("shop.dgb"%string, Ok "asset2"%string)] (Some "next"%string))
|}.
Definition domain_chain : chain :=
  mk_chain (mk_store [] ∅ ∅) (mk_tables [] 0 [] [] [] [] [] [] [] [] [] [mk_master_row master_seed true] [] [] [] 0 ∅) 0
    ([], mk_tables [] 0 [] [] [] [] [] [] [] [] [] [] [] [] [] 0 ∅) ∅ [] [master_seed] [].

Lemma domain_never_reassigned_witness :
  let c := run_callbacks (H := sample_reader) ["first"%string] domain_chain in
  registered "shop.dgb" c = Some (mk_domain_row "shop.dgb" "asset1" false)
  /\ t_domains (c_tables (run_callbacks (H := sample_reader) ["second"; "first"]%string c)) = t_domains (c_tables c).
Proof.
  intros c. split; [vm_compute; reflexivity|].
  destruct (domain_never_reassigned sample_reader ["first"%string] c "shop.dgb" (mk_domain_row "shop.dgb" "asset1" false)) as [_ H];
    [vm_compute; reflexivity|].
  apply (H "second"%string (mk_metadata [("new.dgb"%string, Ok "asset3"%string); ("shop.dgb"%string, Ok "asset2"%string)] (Some "next"%string)) "asset2"%string).
  - vm_compute. reflexivity.
  - vm_compute. reflexivity.
  - repeat constructor.
  - right. by left.
  - discriminate.
  - vm_compute. discriminate.
Defined.
