(* ===== verification/StoragePlan.v ===== *)
(** StoragePlan: who the pool pays for storage, and how much each is owed
    (src/pool/StoragePlan.h), and the money arithmetic of a payout
    (src/pool/PayoutMath.h).

    The scores and weights are doubles and are computed with IEEE arithmetic.
    [int64_t] sums are undefined when they leave the range. *)

From Stdlib Require Import Floats.SpecFloat.
From Stdlib Require Import Permutation.
From S2P Require Import Prelude.
From S2P Require Import BitIOCodec.
From S2P Require Import CString.

Ltac Zify.zify_post_hook ::= Z.div_mod_to_equations.

(** ** PayoutMath.h *)
Definition DUST_DGB : spec_float := dlit 1 10000.
Definition payoutSats (dgb : spec_float) : outcome Z :=
  let dgb := if dlt dgb (dbl 0) then dbl 0 else dgb in
  to_int64 (dadd (dmul dgb (dbl 100000000)) (dlit 5 10)).
Definition isBelowDust (dgb : spec_float) : bool := dlt dgb DUST_DGB.

(** ** The plan *)
Record Config := mk_Config {
  replicas : Z; maxPaidNodes : Z; legacyFactor : spec_float; unknownSizeBytes : Z }.
Definition default_Config : Config := mk_Config 3 10 (dlit 5 10) 1.

Record Node := mk_Node {
  n_peerId : string; n_reliability : spec_float; n_coverage : spec_float; n_proofScore : spec_float;
  n_proofAnswered : Z; n_firstSeen : Z }.
Record Cid := mk_Cid { c_cid : string; c_sizeBytes : Z }.
Record Weight := mk_Weight {
  w_peerId : string; w_assignedBytes : Z; w_assignedCids : Z; w_held : spec_float; w_legacy : bool;
  w_weight : spec_float }.
Definition default_Weight : Weight := mk_Weight "" 0 0 (dbl 0) false (dbl 0).

Definition fnv1a (s : string) : Z :=
  foldl (fun h c => u64 (Z.lxor h (byteZ c) * 1099511628211)) 1469598103934665603 (chars s).

Definition heldScore (n : Node) (cfg : Config) : spec_float :=
  let f := if dlt (legacyFactor cfg) (dbl 0) then dbl 0
           else if dlt (dbl 1) (legacyFactor cfg) then dbl 1 else legacyFactor cfg in
  if 0 <? n_proofAnswered n then n_proofScore n else dmul (n_coverage n) f.

(** The test of [remove_if], the order of [sort]. *)
Definition eligible (cfg : Config) (n : Node) : bool :=
  negb (dle (n_reliability n) (dbl 0) || dle (heldScore n cfg) (dbl 0)).
Definition paid_before (a b : Node) : bool :=
  if negb (deq (n_reliability a) (n_reliability b)) then dlt (n_reliability b) (n_reliability a)
  else if negb (n_firstSeen a =? n_firstSeen b) then n_firstSeen a <? n_firstSeen b
  else String.ltb (n_peerId a) (n_peerId b).

Definition paidSet (nodes : list Node) (cfg : Config) : list Node :=
  let nodes := sort paid_before (List.filter (eligible cfg) nodes) in
  if (0 <? maxPaidNodes cfg) && (maxPaidNodes cfg <? Z.of_nat (length nodes))
  then take (Z.to_nat (maxPaidNodes cfg)) nodes else nodes.

Definition ranks_higher (a b : Z * string) : bool :=
  if negb (a.1 =? b.1) then b.1 <? a.1 else String.ltb a.2 b.2.

Definition assignees (cid : string) (paid : list Node) (replicas : Z) : list string :=
  let ranked := map (fun n => (fnv1a (cid ++ "|" ++ n_peerId n), n_peerId n)) paid in
  map snd (take (Z.to_nat replicas) (sort ranks_higher ranked)).

Definition bytes_of (cfg : Config) (c : Cid) : Z :=
  if 0 <? c_sizeBytes c then c_sizeBytes c else unknownSizeBytes cfg.

(** [byPeer[peer].assignedBytes += bytes; byPeer[peer].assignedCids += 1] *)
Definition assign (bytes : Z) (peer : string) (byPeer : gmap string Weight) : outcome (gmap string Weight) :=
  let w := default default_Weight (byPeer !! peer) in
  sum ← add_int64 (w_assignedBytes w) bytes;
  Ok (<[peer := mk_Weight (w_peerId w) sum (u32 (w_assignedCids w + 1)) (w_held w) (w_legacy w) (w_weight w)]> byPeer).
Fixpoint assign_all (bytes : Z) (peers : list string) (byPeer : gmap string Weight) : outcome (gmap string Weight) :=
  match peers with
  | [] => Ok byPeer
  | peer :: peers => byPeer ← assign bytes peer byPeer; assign_all bytes peers byPeer
  end.
Fixpoint assign_cids (cfg : Config) (paid : list Node) (replicas : Z) (cids : list Cid)
    (byPeer : gmap string Weight) : outcome (gmap string Weight) :=
  match cids with
  | [] => Ok byPeer
  | c :: cids =>
      byPeer ← assign_all (bytes_of cfg c) (assignees (c_cid c) paid replicas) byPeer;
      assign_cids cfg paid replicas cids byPeer
  end.

Definition weights (nodes : list Node) (cids : list Cid) (cfg : Config) : outcome (list Weight) :=
  let paid := paidSet nodes cfg in
  let replicas := if replicas cfg =? 0 then 1 else replicas cfg in
  let byPeer : gmap string Weight :=
    foldl (fun m n => <[n_peerId n := mk_Weight (n_peerId n) 0 0 (heldScore n cfg) (n_proofAnswered n =? 0) (dbl 0)]> m)
          ∅ paid in
  byPeer ← assign_cids cfg paid replicas cids byPeer;
  Ok (map (fun n =>
        let w := default default_Weight (byPeer !! n_peerId n) in
        mk_Weight (w_peerId w) (w_assignedBytes w) (w_assignedCids w) (w_held w) (w_legacy w)
          (dmul (dmul (dbl (w_assignedBytes w)) (w_held w)) (n_reliability n))) paid).

Definition isAssigned (cid peerId : string) (paid : list Node) (replicas : Z) : bool :=
  existsb (fun p => bool_decide (p = peerId)) (assignees cid paid (if replicas =? 0 then 1 else replicas)).

(** ** Storage challenges *)
Definition CHALLENGE_MAX_BYTES : Z := 64 * 1024.
Definition CHALLENGE_DEADLINE_SECONDS : Z := 120.
Definition PROOF_EMA : spec_float := dlit 2 10.

Record Range := mk_Range { r_offset : Z; r_length : Z }.
Definition challengeRange (sizeBytes seed : Z) : Range :=
  if sizeBytes <=? 0 then mk_Range 0 0
  else
    let length := Z.min sizeBytes CHALLENGE_MAX_BYTES in
    let span := sizeBytes - length in
    mk_Range (if 0 <? span then seed mod (span + 1) else 0) length.

Definition nextProofScore (current : spec_float) (passed : bool) : spec_float :=
  dadd (dmul PROOF_EMA (if passed then dbl 1 else dbl 0)) (dmul (dsub (dbl 1) PROOF_EMA) current).

Definition sameHash (a b : string) : bool :=
  let norm s := map tolower (List.filter (fun c => negb (bool_decide (c ∈ white))) (chars s)) in
  (Z.of_nat (length (norm a)) =? 64) && bool_decide (norm a = norm b).

(** Read from pool.cfg: anything missing or malformed keeps the default. *)
Definition keep_default {A} (d : A) (o : outcome A) : A := match o with Ok a => a | _ => d end.
Definition configFrom (cfg : gmap string string) : Config :=
  let num key out := match cfg !! key with
                     | None => out
                     | Some s => keep_default out (n ← stoll s; Ok (u32 n)) end in
  mk_Config (num "poolreplicas"%string 3) (num "poolmaxpaidnodes"%string 10)
    (match cfg !! "poollegacyweight"%string with
     | None => dlit 5 10
     | Some s => keep_default (dlit 5 10) (stod s) end) 1.
