(* ===== verification/StoragePlanTheorems.v ===== *)
(** StoragePlanTheorems: what the storage plan promises: the paid set is the
    best-ranked eligible nodes whatever order they come in, an assignment moves
    only the files of the node that leaves, every file is paid to the same
    number of nodes, and a challenge stays inside its file. *)

From Stdlib Require Import Floats.SpecFloat.
From Stdlib Require Import Permutation Sorted.
From S2P Require Import Prelude.
From S2P Require Import BitIOCodec.
From S2P Require Import CString.
From S2P Require Import StoragePlan.

Ltac Zify.zify_post_hook ::= Z.div_mod_to_equations.

(** ** The two orders *)
Definition is_node_of (nodes : list Node) (n : Node) : Prop := n ∈ nodes /\ not_nan (n_reliability n).

Lemma same_id nodes (x y : Node) :
  NoDup (n_peerId <$> nodes) -> x ∈ nodes -> y ∈ nodes -> n_peerId x = n_peerId y -> x = y.
Proof.
  intros Hn [i Hi]%list_elem_of_lookup [j Hj]%list_elem_of_lookup E.
  assert (i = j) as ->; [|congruence].
  apply (NoDup_lookup _ i j (n_peerId x) Hn); rewrite list_lookup_fmap; [by rewrite Hi|by rewrite Hj, E].
Qed.

Lemma paid_order nodes : NoDup (n_peerId <$> nodes) -> StrictTotal (is_node_of nodes) paid_before.
Proof.
  intros Hn. unfold paid_before.
  assert (forall x y, is_node_of nodes x -> is_node_of nodes y ->
    (if negb (deq (n_reliability x) (n_reliability y)) then dlt (n_reliability y) (n_reliability x)
     else if negb (n_firstSeen x =? n_firstSeen y) then n_firstSeen x <? n_firstSeen y
     else String.ltb (n_peerId x) (n_peerId y)) = true
    <-> key_lt (dkey (n_reliability y)) (dkey (n_reliability x))
        \/ dkey (n_reliability x) = dkey (n_reliability y)
           /\ (n_firstSeen x < n_firstSeen y
               \/ n_firstSeen x = n_firstSeen y /\ String.ltb (n_peerId x) (n_peerId y) = true)) as H.
  { intros x y [_ Hx] [_ Hy]. pose proof (deq_key _ _ Hx Hy) as He. pose proof (dlt_key _ _ Hy Hx) as Hl.
    destruct (deq (n_reliability x) (n_reliability y)); cbn [negb].
    - assert (dkey (n_reliability x) = dkey (n_reliability y)) as Ek by by apply He.
      rewrite Ek. unfold key_lt.
      destruct (Z.eqb_spec (n_firstSeen x) (n_firstSeen y)); cbn [negb]; rewrite ?Z.ltb_lt; intuition lia.
    - assert (dkey (n_reliability x) <> dkey (n_reliability y)) by (intros E; by apply He in E). tauto. }
  split.
  - intros x Hx. apply not_true_iff_false. rewrite H by done. unfold key_lt.
    rewrite (lt_irrefl (P := fun _ => True)) by done. intuition lia.
  - intros x y z Hx Hy Hz. rewrite !H by done. unfold key_lt.
    destruct (dkey (n_reliability x)) as [[? ?] ?], (dkey (n_reliability y)) as [[? ?] ?],
             (dkey (n_reliability z)) as [[? ?] ?]; cbn.
    intros [H1|[E1 [H1|[F1 G1]]]] [H2|[E2 [H2|[F2 G2]]]]; simplify_eq;
      try (left; lia); try (right; split; [done|left; lia]).
    right. split; [done|]. right. split; [lia|]. by apply (lt_trans (P := fun _ => True) _ (n_peerId y)).
  - intros x y Hx Hy. rewrite <- !not_true_iff_false, !H by done. unfold key_lt.
    intros [H1 H2]%Decidable.not_or [H3 H4]%Decidable.not_or.
    assert (dkey (n_reliability x) = dkey (n_reliability y)) as Ek.
    { destruct (dkey (n_reliability x)) as [[? ?] ?], (dkey (n_reliability y)) as [[? ?] ?]. cbn in H1, H3.
      f_equal; [f_equal|]; lia. }
    rewrite Ek in H2, H4. pose proof (eq_refl (dkey (n_reliability y))) as E0. assert (n_firstSeen x = n_firstSeen y) as Ef
      by (destruct (Z.lt_trichotomy (n_firstSeen x) (n_firstSeen y)) as [?|[?|?]]; tauto).
    destruct Hx as [Hx _], Hy as [Hy _]. apply (same_id nodes); try done.
    apply (lt_total (P := fun _ => True)); try done; apply not_true_iff_false; intros E; pose proof (eq_sym Ef); tauto.
Qed.

#[export] Instance rank_order : StrictTotal (fun _ => True) ranks_higher.
Proof.
  split; unfold ranks_higher; intros [a s].
  - intros _. cbn. rewrite Z.eqb_refl. by apply (lt_irrefl (P := fun _ => True)).
  - intros [b t] [c u] _ _ _. cbn.
    destruct (Z.eqb_spec a b), (Z.eqb_spec b c), (Z.eqb_spec a c); cbn; rewrite ?Z.ltb_lt; try lia.
    by apply (lt_trans (P := fun _ => True)).
  - intros [b t] _ _. cbn. destruct (Z.eqb_spec a b) as [->|?]; cbn; rewrite ?Z.eqb_refl; cbn.
    + intros H1 H2. f_equal. by apply (lt_total (P := fun _ => True)).
    + destruct (Z.eqb_spec b a); cbn; [lia|]. rewrite !Z.ltb_ge. lia.
Qed.

(** ** The paid set *)
Lemma elem_of_filter_b {A} (Q : A -> bool) (l : list A) x : x ∈ List.filter Q l <-> x ∈ l /\ Q x = true.
Proof. by rewrite !list_elem_of_In, List.filter_In. Qed.
Lemma nodup_map_filter {A B} (g : A -> B) (Q : A -> bool) (l : list A) : NoDup (map g l) -> NoDup (map g (List.filter Q l)).
Proof.
  induction l as [|x l IH]; cbn; [done|]. intros [Hn Hd]%NoDup_cons. case_match; cbn; [|auto].
  apply NoDup_cons. split; [|auto]. intros H1. apply Hn. apply list_elem_of_fmap in H1 as (y & E & Hy).
  apply elem_of_filter_b in Hy as [Hy _]. apply list_elem_of_fmap. eauto.
Qed.
Lemma NoDup_peers nodes : NoDup (n_peerId <$> nodes) -> NoDup nodes.
Proof. apply NoDup_fmap_1. Qed.
Lemma NoDup_filter_b {A} (Q : A -> bool) (l : list A) : NoDup l -> NoDup (List.filter Q l).
Proof. intros ?. by apply NoDup_ListNoDup, List.NoDup_filter, NoDup_ListNoDup. Qed.

Lemma nodes_ordered nodes cfg :
  Forall (fun n => not_nan (n_reliability n)) nodes ->
  Forall (is_node_of nodes) (List.filter (eligible cfg) nodes).
Proof.
  rewrite !Forall_forall. intros H n [Hn _]%elem_of_filter_b. split; [done|by apply H].
Qed.

Lemma ascending_take {A} (lt : A -> A -> bool) k l : ascending lt l -> ascending lt (take k l).
Proof.
  intros Hs. revert k. induction Hs as [|x l Hs IH Hx]; intros [|k]; cbn; try constructor; [apply IH|].
  by apply Forall_take.
Qed.
Lemma ascending_take_drop {A} (lt : A -> A -> bool) k l x y :
  ascending lt l -> x ∈ take k l -> y ∈ drop k l -> lt x y = true.
Proof.
  intros Hs. revert k. induction Hs as [|z l Hs IH Hz]; intros [|k]; cbn; try (intros ? ?; set_solver).
  rewrite Forall_forall in Hz. intros [->|Hx]%elem_of_cons Hy; [|by apply (IH k)].
  apply Hz. eapply (subseteq_drop k); exact Hy.
Qed.

(** The paid set consists of eligible nodes in rank order, as many as the
    cap allows; every eligible node left out ranks behind every paid one; and
    it does not depend on the order in which the nodes are given. *)
Theorem paid_set_best nodes cfg :
  NoDup (n_peerId <$> nodes) -> Forall (fun n => not_nan (n_reliability n)) nodes -> 0 <= maxPaidNodes cfg ->
  let paid := paidSet nodes cfg in
  let count := Z.of_nat (length (List.filter (eligible cfg) nodes)) in
  ascending paid_before paid
  /\ (forall n, n ∈ paid -> n ∈ nodes /\ eligible cfg n = true)
  /\ Z.of_nat (length paid) = (if maxPaidNodes cfg =? 0 then count else Z.min (maxPaidNodes cfg) count)
  /\ (forall n m, n ∈ paid -> m ∈ nodes -> eligible cfg m = true -> m ∉ paid -> paid_before n m = true)
  /\ (forall nodes', Permutation nodes nodes' -> paidSet nodes' cfg = paid).
Proof.
  intros Hn Hnan Hmax paid count. pose proof (paid_order nodes Hn) as HT.
  pose proof (nodes_ordered nodes cfg Hnan) as HP.
  pose proof (NoDup_filter_b (eligible cfg) _ (NoDup_peers _ Hn)) as Hf.
  pose proof (sort_ascending _ _ _ HP Hf) as Hs.
  pose proof (sort_permutation paid_before (List.filter (eligible cfg) nodes)) as Hp.
  assert (exists k, paid = take k (sort paid_before (List.filter (eligible cfg) nodes))
    /\ Z.of_nat (Nat.min k (Z.to_nat count)) = if maxPaidNodes cfg =? 0 then count else Z.min (maxPaidNodes cfg) count)
    as (k & Ek & Hk).
  { unfold paid, paidSet. rewrite (Permutation_length Hp). fold count.
    destruct (Z.ltb_spec 0 (maxPaidNodes cfg)), (Z.ltb_spec (maxPaidNodes cfg) count); cbn [andb];
      [eexists; split; [done|]|exists (Z.to_nat count); split..];
      try (rewrite take_ge; [done|rewrite (Permutation_length Hp); lia]);
      destruct (Z.eqb_spec (maxPaidNodes cfg) 0); lia. }
  split_and!.
  - rewrite Ek. by apply ascending_take.
  - intros n. rewrite Ek. intros Hin%(subseteq_take k). rewrite Hp in Hin. by apply elem_of_filter_b.
  - rewrite <- Hk, Ek, length_take, (Permutation_length Hp). unfold count. lia.
  - intros n m Hin Hm Hel Hout. rewrite Ek in *. apply (ascending_take_drop _ k _ _ _ Hs Hin).
    assert (m ∈ sort paid_before (List.filter (eligible cfg) nodes)) as Hm' by (rewrite Hp; by apply elem_of_filter_b).
    rewrite <- (take_drop k (sort _ _)) in Hm'. apply elem_of_app in Hm'. tauto.
  - intros nodes' Hp'. unfold paid, paidSet.
    by rewrite (sort_permuted _ _ _ (List.filter (eligible cfg) nodes') HP Hf) by by apply filter_permuted.
Qed.

(** ** Assignments *)
Definition others (p : string) (paid : list Node) : list Node :=
  List.filter (fun n => negb (String.eqb (n_peerId n) p)) paid.
Definition ranked (cid : string) (paid : list Node) : list (Z * string) :=
  map (fun n => (fnv1a (cid ++ "|" ++ n_peerId n), n_peerId n)) paid.
Definition without (p : string) (l : list string) : list string := List.filter (fun q => negb (String.eqb q p)) l.

Lemma assignees_eq cid paid r :
  assignees cid paid r = take (Z.to_nat r) (map snd (sort ranks_higher (ranked cid paid))).
Proof. unfold assignees. by rewrite <- firstn_map. Qed.

Lemma map_snd_ranked cid paid : map snd (ranked cid paid) = n_peerId <$> paid.
Proof. unfold ranked. by rewrite map_map. Qed.
Lemma NoDup_ranked cid paid : NoDup (n_peerId <$> paid) -> NoDup (ranked cid paid).
Proof. rewrite <- (map_snd_ranked cid). apply (NoDup_fmap_1 snd). Qed.

Lemma filter_map_b {A B} (Q : B -> bool) (f : A -> B) l :
  List.filter Q (map f l) = map f (List.filter (fun x => Q (f x)) l).
Proof. induction l as [|x l IH]; cbn; [done|]. rewrite IH. by destruct (Q (f x)). Qed.

(** The ranking of the nodes that stay is the old one without the node that leaves. *)
Lemma ranking_others cid paid p :
  NoDup (n_peerId <$> paid) ->
  map snd (sort ranks_higher (ranked cid (others p paid)))
  = without p (map snd (sort ranks_higher (ranked cid paid))).
Proof.
  intros Hn. unfold without. rewrite filter_map_b.
  assert (ranked cid (others p paid) = List.filter (fun x => negb (String.eqb x.2 p)) (ranked cid paid)) as ->.
  { unfold ranked, others. by rewrite filter_map_b. }
  rewrite (sort_filter (fun _ => True)); [done|exact _|by apply Forall_true|by apply NoDup_ranked].
Qed.

Lemma without_cons p q l : without p (q :: l) = if String.eqb q p then without p l else q :: without p l.
Proof. unfold without. cbn. by destruct (String.eqb q p). Qed.
Lemma without_not_in p l : p ∉ l -> without p l = l.
Proof.
  induction l as [|q l IH]; [done|]. rewrite not_elem_of_cons, without_cons. intros [Hne Hn].
  destruct (String.eqb_spec q p) as [->|_]; [done|]. by f_equal; apply IH.
Qed.
Lemma take_without p k l :
  NoDup l -> exists next, take k (without p l) = without p (take k l) ++ next
    /\ (length next <= 1)%nat /\ (p ∉ take k l -> next = []).
Proof.
  revert k. induction l as [|q l IH]; intros k Hn; [exists []; destruct k; cbn; split_and!; done || lia|].
  destruct k as [|k]; [exists []; cbn; split_and!; done || lia|]. apply NoDup_cons in Hn as [Hq Hn].
  cbn [take]. rewrite !without_cons. destruct (String.eqb_spec q p) as [->|Hne].
  - rewrite !without_not_in by (done || by intros H%(subseteq_take k)).
    destruct (l !! k) as [x|] eqn:Ex.
    + exists [x]. rewrite (take_S_r _ _ x) by done. cbn. split_and!; [done|lia|]. intros H. destruct H. left.
    + exists []. apply lookup_ge_None in Ex. rewrite !take_ge, app_nil_r by lia. cbn. split_and!; done || lia.
  - destruct (IH k Hn) as (next & E & Hl & Hnone).
    exists next. cbn. rewrite E. split_and!; [done|done|]. rewrite not_elem_of_cons. tauto.
Qed.

(** Assignments are stable. When a node leaves, every file it did not hold
    keeps its holders; a file it held keeps the other holders in their order
    and gets at most one new one behind them. (Read backwards: a node that
    joins displaces at most the last holder of a file.) *)
Theorem assignment_stability cid paid p r :
  NoDup (n_peerId <$> paid) ->
  exists next,
    assignees cid (others p paid) r = without p (assignees cid paid r) ++ next
    /\ (length next <= 1)%nat
    /\ (p ∉ assignees cid paid r -> assignees cid (others p paid) r = assignees cid paid r).
Proof.
  intros Hn. rewrite !assignees_eq, ranking_others by done.
  destruct (take_without p (Z.to_nat r) (map snd (sort ranks_higher (ranked cid paid)))) as (next & E & Hl & Hnone).
  { change (NoDup (snd <$> sort ranks_higher (ranked cid paid))).
    rewrite sort_permutation. change (NoDup (map snd (ranked cid paid))). by rewrite map_snd_ranked. }
  exists next. split_and!; [done|done|]. intros Hp. rewrite E, (Hnone Hp), app_nil_r. by apply without_not_in.
Qed.

(** ** Weights *)
Definition zsum (l : list Z) : Z := foldr Z.add 0 l.

Section weights.
Context (cfg : Config) (paid : list Node) (r : Z).
Hypothesis Hpaid : NoDup (n_peerId <$> paid).

Definition holds (p : string) (c : Cid) : bool := bool_decide (p ∈ assignees (c_cid c) paid r).
Definition assigned_bytes (cids : list Cid) (p : string) : Z :=
  zsum (map (bytes_of cfg) (List.filter (holds p) cids)).
Definition assigned_count (cids : list Cid) (p : string) : Z := Z.of_nat (length (List.filter (holds p) cids)).

Definition grow (b k : Z) (w : Weight) : Weight :=
  mk_Weight (w_peerId w) (w_assignedBytes w + b) (u32 (w_assignedCids w + k)) (w_held w) (w_legacy w) (w_weight w).
Lemma grow_grow b1 k1 b2 k2 w : grow b2 k2 (grow b1 k1 w) = grow (b1 + b2) (k1 + k2) w.
Proof. unfold grow. cbn. f_equal; [lia|]. unfold u32, two32. lia. Qed.

Lemma assignees_spec cid : (** distinct paid nodes, as many as there are copies *)
  NoDup (assignees cid paid r) /\ (forall p, p ∈ assignees cid paid r -> p ∈ n_peerId <$> paid)
  /\ Z.of_nat (length (assignees cid paid r)) = Z.min (Z.max r 0) (Z.of_nat (length paid)).
Proof.
  rewrite assignees_eq. set (l := map snd (sort ranks_higher (ranked cid paid))).
  assert (Permutation l (n_peerId <$> paid)) as Hp.
  { unfold l. rewrite <- (map_snd_ranked cid). apply (fmap_Permutation snd), sort_permutation. }
  split_and!.
  - apply (sublist_NoDup _ l); [by rewrite Hp|apply sublist_take].
  - intros p Hin%(subseteq_take _ l). by rewrite Hp in Hin.
  - rewrite length_take, (Permutation_length Hp), length_fmap. lia.
Qed.

Lemma assign_all_spec b peers (m : gmap string Weight) :
  NoDup peers -> 0 <= b ->
  (forall p, p ∈ peers -> exists w, m !! p = Some w /\ 0 <= w_assignedBytes w /\ w_assignedBytes w + b < 9223372036854775808) ->
  exists m', assign_all b peers m = Ok m'
    /\ forall p, m' !! p = if bool_decide (p ∈ peers) then grow b 1 <$> m !! p else m !! p.
Proof.
  revert m. induction peers as [|q peers IH]; intros m Hn Hb Hm; cbn [assign_all].
  - exists m. split; [done|]. intros p. by rewrite bool_decide_false by apply not_elem_of_nil.
  - apply NoDup_cons in Hn as [Hq Hn]. destruct (Hm q) as (w & Ew & Hw & Hlt); [left|].
    assert (assign b q m = Ok (<[q := grow b 1 w]> m)) as Ea.
    { unfold assign. rewrite Ew. cbn [default]. unfold id. by rewrite add_int64_ok by lia. }
    destruct (IH (<[q := grow b 1 w]> m)) as (m' & E & H'); [done|done| |].
    { intros p Hp. assert (q <> p) by (intros ->; done). rewrite lookup_insert_ne by done. apply Hm. by right. }
    exists m'. split; [cbn; rewrite Ea; exact E|]. intros p. rewrite H'.
    destruct (decide (p = q)) as [->|Hne].
    + rewrite bool_decide_false, bool_decide_true, lookup_insert_eq, Ew by (done || left). done.
    + rewrite lookup_insert_ne by done.
      destruct (bool_decide_reflect (p ∈ peers)) as [Hin|Hin].
      * by rewrite bool_decide_true by by right.
      * by rewrite bool_decide_false by (rewrite elem_of_cons; tauto).
Qed.

Lemma assign_cids_spec cids (m : gmap string Weight) :
  (forall c, c ∈ cids -> 0 <= bytes_of cfg c) ->
  (forall p, p ∈ n_peerId <$> paid -> is_Some (m !! p)) ->
  (forall p w, m !! p = Some w -> 0 <= w_assignedBytes w /\ w_assignedBytes w + zsum (map (bytes_of cfg) cids) < 9223372036854775808) ->
  exists m', assign_cids cfg paid r cids m = Ok m'
    /\ forall p, m' !! p = grow (assigned_bytes cids p) (assigned_count cids p) <$> m !! p
                 \/ m' !! p = m !! p /\ assigned_count cids p = 0.
Proof.
  revert m. induction cids as [|c cids IH]; intros m Hb Hd Hm; cbn [assign_cids]; [exists m; split; [done|by right]|].
  destruct (assignees_spec (c_cid c)) as (Hn & Hin & _).
  assert (0 <= bytes_of cfg c) as Hc by (apply Hb; left).
  assert (0 <= zsum (map (bytes_of cfg) cids)) as Hpos.
  { clear -Hb. induction cids as [|d cids IH]; cbn; [done|].
    assert (0 <= bytes_of cfg d) by (apply Hb; set_solver).
    enough (0 <= foldr Z.add 0 (map (bytes_of cfg) cids)) by lia. apply IH. set_solver. }
  destruct (assign_all_spec (bytes_of cfg c) _ m Hn Hc) as (m1 & E1 & H1).
  { intros p Hp. destruct (Hd p (Hin p Hp)) as [w Hw]. exists w. specialize (Hm p w Hw). cbn in Hm. unfold zsum in *. split; [done|lia]. }
  destruct (IH m1) as (m2 & E2 & H2).
  - intros d Hd'. apply Hb. by right.
  - intros p Hp. rewrite H1. destruct (Hd p Hp) as [w ->]. case_bool_decide; eauto.
  - intros p w. rewrite H1. specialize (Hm p). case_bool_decide; destruct (m !! p) as [v|]; try done;
      intros [= <-]; specialize (Hm v eq_refl); cbn in *; unfold zsum in *; lia.
  - exists m2. split; [rewrite E1; exact E2|]. intros p.
    destruct (H2 p) as [->|[-> H0]]; rewrite H1; unfold assigned_bytes, assigned_count, holds in *; cbn [List.filter];
      case_bool_decide; cbn [map length zsum foldr]; auto.
    + left. destruct (m !! p) as [w|]; [|done]. cbn. rewrite grow_grow. do 2 f_equal. lia.
    + left. destruct (m !! p) as [w|]; [|done]. cbn. f_equal.
      assert (List.filter (λ c0, bool_decide (p ∈ assignees (c_cid c0) paid r)) cids = []) as -> by (apply nil_length_inv; lia).
      cbn. f_equal. lia.
Qed.
End weights.

Lemma zsum_map_add {A} (f g : A -> Z) l : zsum (map (fun x => f x + g x) l) = zsum (map f l) + zsum (map g l).
Proof. unfold zsum. induction l as [|x l IH]; cbn; lia. Qed.
Lemma zsum_indicator (ids k : list string) b :
  NoDup ids -> NoDup k -> (forall p, p ∈ k -> p ∈ ids) ->
  zsum (map (fun p => if bool_decide (p ∈ k) then b else 0) ids) = b * Z.of_nat (length k).
Proof.
  intros Hi Hk Hin.
  assert (Permutation (List.filter (fun p => bool_decide (p ∈ k)) ids) k) as <-.
  { apply NoDup_Permutation; [by apply NoDup_filter_b|done|]. intros p.
    rewrite elem_of_filter_b, bool_decide_eq_true. split; [tauto|auto]. }
  clear. unfold zsum. induction ids as [|p ids IH]; cbn; [lia|]. case_bool_decide; cbn; lia.
Qed.

Lemma assigned_total cfg paid r cids :
  NoDup (n_peerId <$> paid) ->
  zsum (map (assigned_bytes cfg paid r cids) (n_peerId <$> paid))
  = Z.min (Z.max r 0) (Z.of_nat (length paid)) * zsum (map (bytes_of cfg) cids).
Proof.
  intros Hn. induction cids as [|c cids IH].
  - unfold assigned_bytes. cbn. clear. induction (n_peerId <$> paid); cbn; unfold zsum in *; lia.
  - destruct (assignees_spec paid r Hn (c_cid c)) as (Hk & Hin & Hl).
    transitivity (zsum (map (fun p => (if bool_decide (p ∈ assignees (c_cid c) paid r) then bytes_of cfg c else 0)
                                      + assigned_bytes cfg paid r cids p) (n_peerId <$> paid))).
    { f_equal. apply map_ext. intros p. unfold assigned_bytes. cbn [List.filter]. unfold holds at 1.
      by case_bool_decide. }
    rewrite zsum_map_add, IH, zsum_indicator, Hl by done. cbn. unfold zsum. lia.
Qed.

Lemma byPeer_lookup (f : Node -> Weight) (paid : list Node) (m : gmap string Weight) n :
  NoDup (n_peerId <$> paid) -> n ∈ paid ->
  foldl (fun m n => <[n_peerId n := f n]> m) m paid !! n_peerId n = Some (f n).
Proof.
  revert m. induction paid as [|q paid IH]; intros m Hn Hin; [by apply not_elem_of_nil in Hin|].
  cbn in *. apply NoDup_cons in Hn as [Hq Hn]. apply elem_of_cons in Hin as [->|Hin]; [|by apply IH].
  clear IH Hn. assert ((<[n_peerId q := f q]> m) !! n_peerId q = Some (f q)) as H by by apply lookup_insert_eq.
  revert H. generalize (<[n_peerId q := f q]> m). clear m. induction paid as [|p paid IH]; intros m H; [done|].
  cbn in *. apply not_elem_of_cons in Hq as [Hne Hq]. apply IH; [done|]. by rewrite lookup_insert_ne.
Qed.
Lemma byPeer_inv (f : Node -> Weight) (paid : list Node) (m : gmap string Weight) p w :
  foldl (fun m n => <[n_peerId n := f n]> m) m paid !! p = Some w -> m !! p = Some w \/ exists n, w = f n.
Proof.
  revert m. induction paid as [|q paid IH]; intros m H; [by left|]. cbn in H.
  destruct (IH _ H) as [Hm|?]; [|by right]. destruct (decide (n_peerId q = p)) as [<-|Hne].
  - rewrite lookup_insert_eq in Hm. injection Hm as <-. eauto.
  - rewrite lookup_insert_ne in Hm by done. by left.
Qed.

Lemma paidSet_NoDup nodes cfg : NoDup (n_peerId <$> nodes) -> NoDup (n_peerId <$> paidSet nodes cfg).
Proof.
  intros Hn. assert (NoDup (n_peerId <$> List.filter (eligible cfg) nodes)) as Hf.
  { induction nodes as [|n nodes IH]; cbn in *; [done|]. apply NoDup_cons in Hn as [Hq Hn].
    destruct (eligible cfg n); [|by apply IH]. cbn. apply NoDup_cons. split; [|by apply IH].
    intros H. destruct Hq. apply list_elem_of_fmap in H as (m & E & [Hm _]%elem_of_filter_b).
    rewrite E. by apply list_elem_of_fmap_2. }
  rewrite <- (sort_permutation paid_before (List.filter (eligible cfg) nodes)) in Hf.
  unfold paidSet. case_match; [|done]. rewrite fmap_take. apply (sublist_NoDup _ _ Hf), sublist_take.
Qed.

(** C28: The plan never overflows as long as the sizes of the files add up to
    less than 2^63. A paid node is assigned exactly the files that list it among their holders, with
    their bytes; its weight is those bytes times held times reliability; and
    over all paid nodes every byte is paid [replicas] times (or once per paid
    node when there are fewer). *)
Theorem weights_spec nodes cids cfg :
  NoDup (n_peerId <$> nodes) -> 0 <= replicas cfg -> 0 <= unknownSizeBytes cfg ->
  zsum (map (bytes_of cfg) cids) < 9223372036854775808 ->
  let paid := paidSet nodes cfg in
  let r := if replicas cfg =? 0 then 1 else replicas cfg in
  exists ws, weights nodes cids cfg = Ok ws
    /\ Forall2 (fun n w => w_peerId w = n_peerId n /\ w_held w = heldScore n cfg
         /\ w_legacy w = (n_proofAnswered n =? 0)
         /\ w_assignedBytes w = assigned_bytes cfg paid r cids (n_peerId n)
         /\ w_assignedCids w = u32 (assigned_count paid r cids (n_peerId n))
         /\ w_weight w = dmul (dmul (dbl (w_assignedBytes w)) (w_held w)) (n_reliability n)) paid ws
    /\ zsum (map w_assignedBytes ws) = Z.min r (Z.of_nat (length paid)) * zsum (map (bytes_of cfg) cids).
Proof.
  intros Hn Hr Hu Hsum paid r. pose proof (paidSet_NoDup nodes cfg Hn) as Hp. fold paid in Hp.
  set (f n := mk_Weight (n_peerId n) 0 0 (heldScore n cfg) (n_proofAnswered n =? 0) (dbl 0)).
  set (m0 := foldl (fun m n => <[n_peerId n := f n]> m) (∅ : gmap string Weight) paid).
  destruct (assign_cids_spec cfg paid r Hp cids m0) as (m & Em & Hm).
  - intros c _. unfold bytes_of. destruct (Z.ltb_spec 0 (c_sizeBytes c)); lia.
  - intros p (n & -> & Hin)%list_elem_of_fmap. unfold m0. rewrite byPeer_lookup by done. eauto.
  - intros p w Hw. apply byPeer_inv in Hw as [Hw|[n ->]]; [by rewrite lookup_empty in Hw|]. cbn. lia.
  - assert (forall n, n ∈ paid -> default default_Weight (m !! n_peerId n)
      = grow (assigned_bytes cfg paid r cids (n_peerId n)) (assigned_count paid r cids (n_peerId n)) (f n)) as Hw.
    { intros n Hin. destruct (Hm (n_peerId n)) as [->|[-> H0]]; unfold m0; rewrite byPeer_lookup by done; cbn; [done|].
      unfold assigned_bytes, assigned_count in *. rewrite (nil_length_inv (List.filter _ _)) by lia. done. }
    unfold weights. fold paid r. change (foldl _ ∅ paid) with m0. rewrite Em. eexists. split; [reflexivity|].
    split.
    + apply Forall2_fmap_r, Forall_Forall2_diag, Forall_forall. intros n Hin. cbn.
      rewrite (Hw n Hin). by split_and!.
    + rewrite map_map. cbn [w_assignedBytes].
      replace (map _ paid) with (map (assigned_bytes cfg paid r cids) (n_peerId <$> paid)).
      * rewrite assigned_total by done. f_equal. unfold r. destruct (Z.eqb_spec (replicas cfg) 0); lia.
      * change (n_peerId <$> paid) with (map n_peerId paid). rewrite map_map. apply map_ext_in. intros n Hin%list_elem_of_In.
        by rewrite (Hw n Hin).
Qed.

(** ** Challenges *)
Lemma challenge_in_file size seed :
  0 < size -> 0 <= seed ->
  let g := challengeRange size seed in
  0 <= r_offset g /\ 0 < r_length g <= CHALLENGE_MAX_BYTES /\ r_offset g + r_length g <= size
  /\ (size <= CHALLENGE_MAX_BYTES -> g = mk_Range 0 size).
Proof.
  intros Hs Hd. unfold challengeRange, CHALLENGE_MAX_BYTES. rewrite (proj2 (Z.leb_gt _ _)) by done.
  set (l := size `min` _). assert (0 < l <= 65536 /\ l <= size) as [Hl Hle] by (unfold l; lia). cbn [r_offset r_length].
  destruct (Z.ltb_spec 0 (size - l)) as [Hp|Hp].
  - pose proof (Z.mod_pos_bound seed (size - l + 1) ltac:(lia)). split_and!; try lia.
  - split_and!; try lia. intros _. f_equal. unfold l. lia.
Qed.
Lemma isAssigned_spec cid p paid r :
  isAssigned cid p paid r = true <-> p ∈ assignees cid paid (if r =? 0 then 1 else r).
Proof.
  unfold isAssigned. rewrite existsb_exists. setoid_rewrite <- list_elem_of_In. split.
  - by intros (q & Hq & ->%bool_decide_eq_true).
  - intros Hp. exists p. by rewrite bool_decide_eq_true.
Qed.

(** ** Three nodes: two that prove, one on an older client. *)
Definition plan_nodes : list Node :=
  [mk_Node "QmA" (dlit 9 10) (dlit 5 10) (dlit 8 10) 12 100; mk_Node "QmB" (dbl 1) (dbl 1) (dbl 0) 0 300;
   mk_Node "QmC" (dlit 9 10) (dbl 0) (dbl 1) 3 50; mk_Node "QmD" (dbl 0) (dbl 1) (dbl 1) 3 20].
Definition plan_cids : list Cid := [mk_Cid "bafy1" 1000; mk_Cid "bafy2" 0; mk_Cid "bafy3" 250].

Lemma plan_nodes_ok : NoDup (n_peerId <$> plan_nodes).
Proof. apply (bool_decide_unpack _). vm_compute. exact I. Defined.

Lemma paid_set_best_witness :
  n_peerId <$> paidSet plan_nodes default_Config = ["QmB"; "QmC"; "QmA"]%string
  /\ paidSet (rev plan_nodes) default_Config = paidSet plan_nodes default_Config.
Proof.
  split; [vm_compute; reflexivity|].
  apply (paid_set_best plan_nodes default_Config plan_nodes_ok); [|vm_compute; discriminate|].
  - unfold plan_nodes. repeat constructor; vm_compute; discriminate.
  - apply Permutation_rev.
Defined.

Lemma assignment_stability_witness :
  exists next, assignees "bafy1" (others "QmC" (paidSet plan_nodes default_Config)) 2
               = without "QmC" (assignees "bafy1" (paidSet plan_nodes default_Config) 2) ++ next
    /\ (length next <= 1)%nat.
Proof.
  destruct (assignment_stability "bafy1" (paidSet plan_nodes default_Config) "QmC" 2) as (next & E & Hl & _).
  - apply (bool_decide_unpack _). vm_compute. exact I.
  - exists next. split; [exact E|exact Hl].
Defined.

Lemma weights_spec_witness :
  exists ws, weights plan_nodes plan_cids default_Config = Ok ws /\ zsum (map w_assignedBytes ws) = 3 * 1251.
Proof.
  destruct (weights_spec plan_nodes plan_cids default_Config plan_nodes_ok) as (ws & E & _ & Hs);
    [vm_compute; discriminate|vm_compute; discriminate|vm_compute; reflexivity|].
  exists ws. split; [exact E|]. rewrite Hs. vm_compute. reflexivity.
Defined.
