(* ===== verification/PoolDatabase.v ===== *)
(** PoolDatabase: the state of the pool server (src/pool/PoolDatabase.cpp): the
    registered nodes, the permanent list with its pages, the storage challenges,
    the payout ledger and the configuration table.

    Every method holds the database's mutex for its whole body, so it is one
    step; the clock is the argument [now], and [random] is the order the
    ORDER BY RANDOM() of two queries happened to choose.  Statements succeed.
    An [unsigned int] page or limit is bound as a signed 32-bit [int]. *)

From Stdlib Require Import Floats.SpecFloat.
From stdpp Require Import pretty.
From S2P Require Import Prelude.
From S2P Require Import BitIOCodec.
From S2P Require Import CString.
From S2P Require Import Sql.
From S2P Require Import StoragePlan.

(** ** Tables *)
Record node_row := mk_node_row {
  nr_peerId : string; nr_payoutAddress : string; nr_firstSeen : Z; nr_lastSeen : Z;
  nr_lastVerifyOk : Z; nr_verifyFails : Z; nr_lastAddr : option string;
  nr_coverageScore : spec_float; nr_reliabilityScore : spec_float; nr_secret : string;
  nr_proofScore : spec_float; nr_proofAnswered : Z }.
Record perm_row := mk_perm_row {
  pa_assetId : string; pa_txHash : string; pa_cid : string; pa_page : Z; pa_added : Z; pa_sizeBytes : Z }.
Record challenge_row := mk_challenge_row {
  ch_id : string; ch_peerId : string; ch_cid : string; ch_offset : Z; ch_length : Z; ch_issuedAt : Z;
  ch_answeredAt : option Z; ch_passed : option bool }.
Record page_row := mk_page_row { pg_page : Z; pg_done : bool; pg_daily : string }.
Record payout_row := mk_payout_row {
  po_id : Z; po_payoutAddress : string; po_amountDgbSat : Z; po_owedAt : Z;
  po_paidTxid : option string; po_paidAt : option Z }.

Record pool_db := mk_pool_db {
  p_nodes : list node_row;
  p_assets : list perm_row;
  p_challenges : list challenge_row;
  p_pages : list page_row;
  p_ledger : list payout_row;
  p_ledger_sequence : Z;            (** sqlite_sequence of payouts_ledger *)
  p_config : list (string * string) }.

Definition buildSchema : pool_db := mk_pool_db [] [] [] [] [] 0 [].

Definition on_nodes f (d : pool_db) := mk_pool_db (f (p_nodes d)) (p_assets d) (p_challenges d) (p_pages d) (p_ledger d) (p_ledger_sequence d) (p_config d).
Definition on_assets f (d : pool_db) := mk_pool_db (p_nodes d) (f (p_assets d)) (p_challenges d) (p_pages d) (p_ledger d) (p_ledger_sequence d) (p_config d).
Definition on_challenges f (d : pool_db) := mk_pool_db (p_nodes d) (p_assets d) (f (p_challenges d)) (p_pages d) (p_ledger d) (p_ledger_sequence d) (p_config d).
Definition on_pages f (d : pool_db) := mk_pool_db (p_nodes d) (p_assets d) (p_challenges d) (f (p_pages d)) (p_ledger d) (p_ledger_sequence d) (p_config d).
Definition on_ledger f (d : pool_db) := mk_pool_db (p_nodes d) (p_assets d) (p_challenges d) (p_pages d) (f (p_ledger d)) (p_ledger_sequence d) (p_config d).
Definition set_sequence n (d : pool_db) := mk_pool_db (p_nodes d) (p_assets d) (p_challenges d) (p_pages d) (p_ledger d) n (p_config d).
Definition on_config f (d : pool_db) := mk_pool_db (p_nodes d) (p_assets d) (p_challenges d) (p_pages d) (p_ledger d) (p_ledger_sequence d) (f (p_config d)).

Definition is_node (peerId : string) (r : node_row) : bool := String.eqb (nr_peerId r) (c_str peerId).
Definition update_node (peerId : string) (f : node_row -> node_row) : M pool_db unit :=
  modify (on_nodes (update_where (is_node peerId) f)).

(** NULLIF(x, '') *)
Definition nullif_empty (s : string) : option string := if String.eqb s "" then None else Some s.

(** ** Registration *)
Definition upsertNode (peerId payoutAddress secret observedIp : string) (now : Z) : M pool_db unit :=
  d ← get;
  match select_where (is_node peerId) (p_nodes d) with
  | [] =>
      modify (on_nodes (fun l => l ++ [mk_node_row (c_str peerId) (c_str payoutAddress) now now 0 0
                                         (nullif_empty (c_str observedIp)) (dbl 0) (dbl 0) (c_str secret) (dbl 0) 0]))
  | r :: _ =>
      let storedSecret := nr_secret r in
      let secretOk := String.eqb storedSecret "" || (negb (String.eqb secret "") && String.eqb secret storedSecret) in
      if negb secretOk then mret tt
      else update_node peerId (fun r => mk_node_row (nr_peerId r) (c_str payoutAddress) (nr_firstSeen r) now
             (nr_lastVerifyOk r) (nr_verifyFails r)
             (match nullif_empty (c_str observedIp) with Some a => Some a | None => nr_lastAddr r end)
             (nr_coverageScore r) (nr_reliabilityScore r)
             (if String.eqb (nr_secret r) "" then c_str secret else nr_secret r)
             (nr_proofScore r) (nr_proofAnswered r))
  end.

Definition nodeSecretMatches (peerId secret : string) : M pool_db bool :=
  if String.eqb secret "" then mret false
  else gets (fun d => match select_where (is_node peerId) (p_nodes d) with
                      | r :: _ => String.eqb secret (nr_secret r)
                      | [] => false
                      end).

(** ** Verification *)
Definition set_verify (ok fails : Z) (r : node_row) : node_row :=
  mk_node_row (nr_peerId r) (nr_payoutAddress r) (nr_firstSeen r) (nr_lastSeen r) ok fails (nr_lastAddr r)
    (nr_coverageScore r) (nr_reliabilityScore r) (nr_secret r) (nr_proofScore r) (nr_proofAnswered r).
Definition recordVerifySuccess (peerId : string) (now : Z) : M pool_db unit :=
  update_node peerId (set_verify now 0).
Definition recordVerifyFailure (peerId : string) : M pool_db unit :=
  update_node peerId (fun r => set_verify (nr_lastVerifyOk r) (nr_verifyFails r + 1) r).

Definition set_scores (coverage reliability : spec_float) (r : node_row) : node_row :=
  mk_node_row (nr_peerId r) (nr_payoutAddress r) (nr_firstSeen r) (nr_lastSeen r) (nr_lastVerifyOk r)
    (nr_verifyFails r) (nr_lastAddr r) coverage reliability (nr_secret r) (nr_proofScore r) (nr_proofAnswered r).
Definition updateNodeScores (peerId : string) (coverageObs : spec_float) (hasCoverageSample verifyOk : bool)
    : M pool_db unit :=
  let A := dlit 1 10 in
  let ema obs score := dadd (dmul A obs) (dmul (dsub (dbl 1) A) score) in
  update_node peerId (fun r =>
    set_scores (if hasCoverageSample then ema coverageObs (nr_coverageScore r) else nr_coverageScore r)
      (ema (if verifyOk then dbl 1 else dbl 0) (nr_reliabilityScore r)) r).

Definition week : Z := 7 * 24 * 60 * 60.
Definition day : Z := 24 * 60 * 60.

Definition getPeerIdsForVerification (n now : Z) : M pool_db (list string) :=
  gets (fun d => map nr_peerId (limit (i32 n)
    (order_by (fun a b => nr_lastVerifyOk a <? nr_lastVerifyOk b)
      (select_where (fun r => now - week <=? nr_lastSeen r) (p_nodes d))))).

Definition countVerifiedSince (unixSeconds : Z) : M pool_db Z :=
  gets (fun d => u32 (i32 (count (select_where (fun r => unixSeconds <=? nr_lastVerifyOk r) (p_nodes d))))).
Definition countFailedOut : M pool_db Z :=
  gets (fun d => u32 (i32 (count (select_where (fun r => 3 <=? nr_verifyFails r) (p_nodes d))))).

(** ** The inputs of the storage plan *)
Definition plan_node (r : node_row) : Node :=
  mk_Node (nr_peerId r) (nr_reliabilityScore r) (nr_coverageScore r) (nr_proofScore r) (nr_proofAnswered r)
    (nr_firstSeen r).
Definition payable (now : Z) (r : node_row) : bool :=
  (now - week <=? nr_lastSeen r) && (now - day <=? nr_lastVerifyOk r) && (nr_verifyFails r <? 3).
Definition getPlanNodes (now : Z) : M pool_db (list Node) :=
  gets (fun d => List.filter (fun n => negb (String.eqb (n_peerId n) ""))
    (map plan_node (order_by (fun a b => String.ltb (nr_peerId a) (nr_peerId b))
      (select_where (payable now) (p_nodes d))))).

(** GROUP BY cid: the cids in order, each with its rows *)
Definition has_cid (r : perm_row) : bool := negb (String.eqb (pa_cid r) "").
Definition rows_of (cid : string) (d : pool_db) : list perm_row :=
  select_where (fun r => String.eqb (pa_cid r) cid) (p_assets d).
Definition cids_of (d : pool_db) : list string :=
  order_by String.ltb (remove_dups (map pa_cid (select_where has_cid (p_assets d)))).
Definition getPlanCids : M pool_db (list Cid) :=
  gets (fun d => map (fun c => mk_Cid c (max_of pa_sizeBytes 0 (rows_of c d))) (cids_of d)).

Definition getCidsMissingSize (random : list string -> list string) (n : Z) : M pool_db (list string) :=
  gets (fun d => limit (i32 n) (random
    (List.filter (fun c => max_of pa_sizeBytes 0 (rows_of c d) =? 0) (cids_of d)))).
Definition setCidSize (cid : string) (sizeBytes : Z) : M pool_db unit :=
  if sizeBytes <=? 0 then mret tt
  else modify (on_assets (update_where (fun r => String.eqb (pa_cid r) (c_str cid))
         (fun r => mk_perm_row (pa_assetId r) (pa_txHash r) (pa_cid r) (pa_page r) (pa_added r) sizeBytes))).

Record PayoutTarget := mk_PayoutTarget {
  pt_peerId : string; pt_payoutAddress : string; pt_coverage : spec_float; pt_reliability : spec_float;
  pt_weight : spec_float; pt_assignedBytes : Z; pt_assignedCids : Z; pt_held : spec_float; pt_legacy : bool }.
Definition default_Node : Node := mk_Node "" (dbl 0) (dbl 0) (dbl 0) 0 0.

Definition getVerifiedPayoutTargets (plan : Config) (now : Z) : M pool_db (list PayoutTarget) :=
  nodes ← getPlanNodes now;
  cids ← getPlanCids;
  ws ← lift (weights nodes cids plan);
  d ← get;
  let nodeOf : gmap string Node := foldl (fun m n => <[n_peerId n := n]> m) ∅ nodes in
  let addressOf : gmap string string := foldl (fun m r => <[nr_peerId r := nr_payoutAddress r]> m) ∅ (p_nodes d) in
  let target w :=
    let n := default default_Node (nodeOf !! w_peerId w) in
    mk_PayoutTarget (w_peerId w) (default ""%string (addressOf !! w_peerId w)) (n_coverage n) (n_reliability n)
      (w_weight w) (w_assignedBytes w) (w_assignedCids w) (w_held w) (w_legacy w) in
  mret (List.filter (fun t => negb (String.eqb (pt_payoutAddress t) "") && dlt (dbl 0) (pt_weight t)) (map target ws)).

(** ** Storage challenges *)
Record Challenge := mk_Challenge {
  cl_id : string; cl_peerId : string; cl_cid : string; cl_offset : Z; cl_length : Z; cl_issuedAt : Z }.
Definition readChallenge (r : challenge_row) : Challenge :=
  mk_Challenge (ch_id r) (ch_peerId r) (ch_cid r) (ch_offset r) (ch_length r) (ch_issuedAt r).
Definition unanswered (r : challenge_row) : bool := match ch_answeredAt r with None => true | _ => false end.
Definition no_verdict (r : challenge_row) : bool := match ch_passed r with None => true | _ => false end.
Definition answer (at_ : Z) (r : challenge_row) : challenge_row :=
  mk_challenge_row (ch_id r) (ch_peerId r) (ch_cid r) (ch_offset r) (ch_length r) (ch_issuedAt r) (Some at_) (ch_passed r).
Definition judge (passed : option bool) (r : challenge_row) : challenge_row :=
  mk_challenge_row (ch_id r) (ch_peerId r) (ch_cid r) (ch_offset r) (ch_length r) (ch_issuedAt r) (ch_answeredAt r) passed.
Definition set_proof (score : spec_float) (answered : Z) (r : node_row) : node_row :=
  mk_node_row (nr_peerId r) (nr_payoutAddress r) (nr_firstSeen r) (nr_lastSeen r) (nr_lastVerifyOk r)
    (nr_verifyFails r) (nr_lastAddr r) (nr_coverageScore r) (nr_reliabilityScore r) (nr_secret r) score answered.

Definition getOpenChallenge (peerId : string) (now : Z) : M pool_db (option Challenge) :=
  gets (fun d =>
    match order_by (fun a b => ch_issuedAt b <? ch_issuedAt a)
            (select_where (fun r => String.eqb (ch_peerId r) (c_str peerId) && unanswered r
                                    && (now - CHALLENGE_DEADLINE_SECONDS <=? ch_issuedAt r)) (p_challenges d)) with
    | r :: _ => Some (readChallenge r)
    | [] => None
    end).

(** A second challenge with the same id violates the primary key and is not stored. *)
Definition insertChallenge (c : Challenge) : M pool_db unit :=
  modify (on_challenges (insert_or_ignore (fun a b => String.eqb (ch_id a) (ch_id b))
    (mk_challenge_row (c_str (cl_id c)) (c_str (cl_peerId c)) (c_str (cl_cid c)) (cl_offset c) (cl_length c)
       (cl_issuedAt c) None None))).

Definition claimChallenge (id peerId : string) (now : Z) : M pool_db (option Challenge) :=
  d ← get;
  match select_where (fun r => String.eqb (ch_id r) (c_str id) && String.eqb (ch_peerId r) (c_str peerId)
                               && unanswered r && (now - CHALLENGE_DEADLINE_SECONDS <=? ch_issuedAt r))
          (p_challenges d) with
  | [] => mret None
  | found :: _ =>
      let claim r := String.eqb (ch_id r) (c_str id) && unanswered r in
      modify (on_challenges (update_where claim (answer now)));;
      mret (if count (select_where claim (p_challenges d)) =? 1 then Some (readChallenge found) else None)
  end.

Definition recordProofResult (id peerId : string) (passed : bool) : M pool_db unit :=
  d ← get;
  let judged r := String.eqb (ch_id r) (c_str id) && String.eqb (ch_peerId r) (c_str peerId) && no_verdict r in
  modify (on_challenges (update_where judged (judge (Some passed))));;
  if negb (count (select_where judged (p_challenges d)) =? 1) then mret tt
  else update_node peerId (fun r =>
         set_proof (dadd (dmul PROOF_EMA (if passed then dbl 1 else dbl 0)) (dmul (dsub (dbl 1) PROOF_EMA) (nr_proofScore r)))
           (nr_proofAnswered r + 1) r).

Definition expireChallenges (now : Z) : M pool_db Z :=
  d ← get;
  let cutoff := now - CHALLENGE_DEADLINE_SECONDS in
  let late r := unanswered r && (ch_issuedAt r <? cutoff) in
  let overdue := map ch_peerId (select_where late (p_challenges d)) in
  modify (on_nodes (update_where
    (fun r => (0 <? nr_proofAnswered r) && bool_decide (nr_peerId r ∈ overdue))
    (fun r => set_proof (dmul (dsub (dbl 1) PROOF_EMA) (nr_proofScore r)) (nr_proofAnswered r + 1) r)));;
  d ← get;
  let scored := map nr_peerId (select_where (fun r => 0 <? nr_proofAnswered r) (p_nodes d)) in
  modify (on_challenges (update_where late
    (fun r => judge (if bool_decide (ch_peerId r ∈ scored) then Some false else None) (answer now r))));;
  mret (u32 (i32 (count (select_where late (p_challenges d))))).

(** ** The payout ledger *)
Definition insert_payout (payoutAddress : string) (amountDgbSat owedAt : Z) (paidTxid : option string) (paidAt : option Z)
    : M pool_db Z :=
  id ← gets (fun d => p_ledger_sequence d + 1);
  modify (on_ledger (fun l => l ++ [mk_payout_row id payoutAddress amountDgbSat owedAt paidTxid paidAt]));;
  modify (set_sequence id);;
  mret id.

Definition recordPayout (payoutAddress : string) (amountDgbSat : Z) (txid : string) (now : Z) : M pool_db unit :=
  insert_payout (c_str payoutAddress) amountDgbSat now (Some (c_str txid)) (Some now);; mret tt.
Definition recordPendingPayout (payoutAddress : string) (amountDgbSat now : Z) : M pool_db unit :=
  insert_payout (c_str payoutAddress) amountDgbSat now None None;; mret tt.
Definition PERIOD_GUARD : string := "__PERIOD_GUARD__".
Definition beginPayoutPeriod (now : Z) : M pool_db Z := insert_payout PERIOD_GUARD 0 now None None.
Definition abortPayoutPeriod (guardId : Z) : M pool_db unit :=
  if guardId <? 0 then mret tt else modify (on_ledger (delete_where (fun r => po_id r =? guardId))).

Definition paid (r : payout_row) : bool := match po_paidTxid r with Some _ => true | None => false end.
(** SUM of more than an [int64_t] holds is an error, and the total stays 0. *)
Definition getPaidTotalDgb : M pool_db spec_float :=
  gets (fun d => let s := sum_of po_amountDgbSat (select_where paid (p_ledger d)) in
    if (-9223372036854775808 <=? s) && (s <? 9223372036854775808) then ddiv (dbl s) (dbl 100000000) else dbl 0).
Definition getPaidCount : M pool_db Z := gets (fun d => u32 (i32 (count (select_where paid (p_ledger d))))).
Definition getLastPayoutAt : M pool_db Z := gets (fun d => max_of po_owedAt 0 (p_ledger d)).

Record PayoutRow := mk_PayoutRow { py_payoutAddress : string; py_amountDgbSat : Z; py_paidAt : Z; py_txid : string }.
Definition getRecentPayouts (n : Z) : M pool_db (list PayoutRow) :=
  gets (fun d => map (fun r => mk_PayoutRow (po_payoutAddress r) (po_amountDgbSat r) (default 0 (po_paidAt r))
                                 (default ""%string (po_paidTxid r)))
    (limit (i32 n) (order_by (fun a b => default 0 (po_paidAt b) <? default 0 (po_paidAt a))
      (select_where paid (p_ledger d))))).

(** ** The permanent list *)
Definition removePermanentCids (cids : list string) : M pool_db Z :=
  if bool_decide (cids = []) then mret 0
  else
    (fix loop (cids : list string) (removed : Z) : M pool_db Z :=
       match cids with
       | [] => mret removed
       | cid :: cids =>
           if String.eqb cid "" then loop cids removed
           else
             d ← get;
             let hit r := String.eqb (pa_cid r) (c_str cid) in
             modify (on_assets (delete_where hit));;
             loop cids (u32 (removed + count (select_where hit (p_assets d))))
       end) cids 0.

(** cid GLOB '*[^A-Za-z0-9]*' *)
Definition malformed (cid : string) : bool := existsb (fun c => negb (is_alnum c)) (chars cid).
Definition removeMalformedPermanentCids : M pool_db Z :=
  d ← get;
  modify (on_assets (delete_where (fun r => malformed (pa_cid r))));;
  mret (u32 (count (select_where (fun r => malformed (pa_cid r)) (p_assets d)))).

Definition same_asset (a b : perm_row) : bool :=
  String.eqb (pa_assetId a) (pa_assetId b) && String.eqb (pa_txHash a) (pa_txHash b) && String.eqb (pa_cid a) (pa_cid b).
Definition insertPermanentAsset (assetId txHash cid : string) (page now : Z) : M pool_db unit :=
  modify (on_assets (insert_or_ignore same_asset
    (mk_perm_row (c_str assetId) (c_str txHash) (c_str cid) (i32 page) now 0))).

Definition getAllPermanentAssets : M pool_db (list (string * string * string)) :=
  gets (fun d => map (fun r => (pa_assetId r, pa_txHash r, pa_cid r)) (p_assets d)).
Definition getActiveNodeIps (sinceUnix : Z) : M pool_db (list string) :=
  gets (fun d => omap (fun r => match nr_lastAddr r with Some a => if String.eqb a "" then None else Some a | None => None end)
    (order_by (fun a b => String.ltb (nr_peerId a) (nr_peerId b))
      (select_where (fun r => sinceUnix <=? nr_lastSeen r) (p_nodes d)))).
Definition getSampleCids (random : list string -> list string) (n : Z) : M pool_db (list string) :=
  gets (fun d => limit (i32 n) (random (map pa_cid (select_where has_cid (p_assets d))))).

(** INSERT ... ON CONFLICT(page) DO UPDATE *)
Definition upsert_page (page : Z) (fresh : page_row) (f : page_row -> page_row) (l : list page_row) : list page_row :=
  if existsb (fun r => pg_page r =? page) l then update_where (fun r => pg_page r =? page) f l else l ++ [fresh].
Definition setPermanentPageDone (page : Z) (done : bool) (daily : string) : M pool_db unit :=
  modify (on_pages (upsert_page (i32 page) (mk_page_row (i32 page) done (c_str daily))
                      (fun r => mk_page_row (pg_page r) done (c_str daily)))).

Definition PAGE_CAP : Z := 500.
Definition page_done (page : Z) (d : pool_db) : bool :=
  match select_where (fun r => pg_page r =? page) (p_pages d) with r :: _ => pg_done r | [] => false end.
Definition getWritablePage : M pool_db Z :=
  d ← get;
  let maxPage := max_of pa_page (-1) (p_assets d) in
  if maxPage <? 0 then mret 23
  else if page_done (i32 maxPage) d then mret (u32 (maxPage + 1))
  else if PAGE_CAP <=? u32 (i32 (count (select_where (fun r => pa_page r =? i32 maxPage) (p_assets d))))
  then
    modify (on_pages (upsert_page (i32 maxPage) (mk_page_row (i32 maxPage) true "0")
                        (fun r => mk_page_row (pg_page r) true (pg_daily r))));;
    mret (u32 (maxPage + 1))
  else mret (u32 maxPage).

Definition hasPermanentData : M pool_db bool := gets (fun d => 0 <? i32 (count (p_assets d))).

(** ** JSON *)
Definition hex4 (v : Z) : list ascii :=
  map (fun d => nth (Z.to_nat d) (chars BITIO_CHARSET_HEX) "0"%char)
      [v / 4096 mod 16; v / 256 mod 16; v / 16 mod 16; v mod 16].
Definition backslash : ascii := ch 92.
Definition escape_char (c : ascii) : list ascii :=
  let v := byteZ c in
  if v =? 34 then [backslash; quote]
  else if v =? 92 then [backslash; backslash]
  else if v =? 10 then [backslash; "n"%char]
  else if v =? 13 then [backslash; "r"%char]
  else if v =? 9 then [backslash; "t"%char]
  else if v <? 32 then backslash :: "u"%char :: hex4 v
  else [c].
Definition jsonEscape (s : string) : string := str (concat (map escape_char (chars s))).
Definition q : string := str [quote].
Definition quoted (s : string) : string := (q ++ s ++ q)%string.

(** The loop over the rows of a page: what has been written, the key whose
    array is open, and whether the array has an element. *)
Record page_writer := mk_page_writer { pw_json : string; pw_firstKey : bool; pw_currentKey : string; pw_firstCid : bool }.
Definition write_row (w : page_writer) (r : perm_row) : page_writer :=
  let key := (pa_assetId r ++ "-" ++ pa_txHash r)%string in
  let w := if String.eqb key (pw_currentKey w) then w
           else mk_page_writer (pw_json w ++ (if pw_firstKey w then "" else "],") ++ quoted (jsonEscape key) ++ ":[")%string
                  false key true in
  mk_page_writer (pw_json w ++ (if pw_firstCid w then "" else ",") ++ quoted (jsonEscape (pa_cid r)))%string
    (pw_firstKey w) (pw_currentKey w) false.

Definition page_order (a b : perm_row) : bool :=
  if negb (String.eqb (pa_assetId a) (pa_assetId b)) then String.ltb (pa_assetId a) (pa_assetId b)
  else if negb (String.eqb (pa_txHash a) (pa_txHash b)) then String.ltb (pa_txHash a) (pa_txHash b)
  else String.ltb (pa_cid a) (pa_cid b).
Definition page_rows (page : Z) (d : pool_db) : list perm_row :=
  order_by page_order (select_where (fun r => pa_page r =? i32 page) (p_assets d)).

Definition page_end (daily : string) (done : bool) : string :=
  ("}," ++ quoted "daily" ++ ":" ++ quoted (jsonEscape daily) ++ "," ++ quoted "done" ++ ":"
     ++ (if done then "true" else "false") ++ "}")%string.
Definition buildPermanentPageJson (page : Z) : M pool_db string :=
  gets (fun d =>
    let '(dailyStr, done) := match select_where (fun r => pg_page r =? i32 page) (p_pages d) with
                             | r :: _ => (pg_daily r, pg_done r)
                             | [] => ("0"%string, false) end in
    let rows := page_rows page d in
    let w := foldl write_row (mk_page_writer ("{" ++ quoted "changes" ++ ":{") true "" true) rows in
    if bool_decide (rows = [])
    then ("{" ++ quoted "error" ++ ":" ++ quoted ("page " ++ pretty (Z.to_N page) ++ " not populated") ++ "}")%string
    else (pw_json w ++ (if pw_firstKey w then "" else "]") ++ page_end dailyStr done)%string).

Fixpoint separated (l : list string) : string :=
  match l with
  | [] => ""
  | [x] => x
  | x :: l => x ++ "," ++ separated l
  end.
Definition visible (now : Z) (r : node_row) : bool := (now - week <=? nr_lastSeen r) && (nr_verifyFails r <? 3).
Definition buildNodesJson (now : Z) : M pool_db string :=
  gets (fun d => ("[" ++ separated (map (fun r => "{" ++ quoted "id" ++ ":" ++ quoted (jsonEscape (nr_peerId r)) ++ "}")%string
    (order_by (fun a b => (nr_lastSeen b <? nr_lastSeen a)%Z) (select_where (visible now) (p_nodes d)))) ++ "]")%string).
Definition map_entry : string :=
  "{" ++ quoted "version" ++ ":5," ++ quoted "country" ++ ":" ++ quoted "NA" ++ "," ++ quoted "region" ++ ":" ++ quoted "NA"
  ++ "," ++ quoted "city" ++ ":" ++ quoted "NA" ++ "," ++ quoted "longitude" ++ ":0," ++ quoted "latitude" ++ ":0}".
Definition buildMapJson (now : Z) : M pool_db string :=
  gets (fun d => ("[" ++ separated (repeat map_entry
    (Z.to_nat (i32 (count (select_where (fun r => (now - week <=? nr_lastSeen r)%Z) (p_nodes d)))))) ++ "]")%string).

(** ** Counters and configuration *)
Definition countNodesSeenSince (unixSeconds : Z) : M pool_db Z :=
  gets (fun d => u32 (i32 (count (select_where (fun r => unixSeconds <=? nr_lastSeen r) (p_nodes d))))).
Definition countTotalNodes : M pool_db Z := gets (fun d => u32 (i32 (count (p_nodes d)))).
Definition countActiveNodes (now : Z) : M pool_db Z :=
  gets (fun d => u32 (i32 (count (select_where (visible now) (p_nodes d))))).
Definition countPermanentAssets : M pool_db Z :=
  gets (fun d => u32 (i32 (count (remove_dups (map pa_assetId (p_assets d)))))).
Definition countPermanentPages : M pool_db Z := gets (fun d => u32 (i32 (count (p_pages d)))).
Definition setConfig (key value : string) : M pool_db unit :=
  modify (on_config (fun l => if existsb (fun kv => String.eqb kv.1 (c_str key)) l
                              then update_where (fun kv => String.eqb kv.1 (c_str key)) (fun kv => (kv.1, c_str value)) l
                              else l ++ [(c_str key, c_str value)])).
Definition getConfig (key defaultValue : string) : M pool_db string :=
  gets (fun d => match select_where (fun kv => String.eqb kv.1 (c_str key)) (p_config d) with
                 | kv :: _ => kv.2
                 | [] => defaultValue end).
