(* ===== verification/PoolText.v ===== *)
(** PoolText: the text formats of the pool server: form bodies, the scan for a
    JSON field, HTTP headers, addresses of clients, query strings, on-chain
    announcements (src/pool/PoolServer.cpp), percent encoding and peer ids
    (src/pool/PoolVerifier.cpp), the configuration file and payout addresses
    (src/pool/PoolDashboard.cpp), wallet names (src/pool/CoreRpc.h). *)

From Stdlib Require Import Floats.SpecFloat.
From stdpp Require Import pretty.
From S2P Require Import Prelude.
From S2P Require Import BitIOCodec.
From S2P Require Import CString.
From S2P Require Import Sql.
From S2P Require Import PoolDatabase.

Notation text := (list ascii).

(** ** Form bodies *)
Definition unhex (h : ascii) : Z :=
  let v := byteZ h in
  if (48 <=? v) && (v <=? 57) then v - 48
  else if (97 <=? v) && (v <=? 102) then v - 97 + 10
  else if (65 <=? v) && (v <=? 70) then v - 65 + 10
  else -1.
Fixpoint urlDecode (s : text) : text :=
  match s with
  | [] => []
  | c :: s' =>
      if byteZ c =? 43 then ch 32 :: urlDecode s'
      else match s' with
           | hi :: lo :: rest =>
               if (byteZ c =? 37) && (0 <=? unhex hi) && (0 <=? unhex lo)
               then ch (Z.lor (Z.shiftl (unhex hi) 4) (unhex lo)) :: urlDecode rest
               else c :: urlDecode s'
           | _ => c :: urlDecode s'
           end
  end.

Definition form_pair (kv : text) (out : gmap string string) : gmap string string :=
  match split_at (ch 61) kv with
  | (key, Some value) => <[str (urlDecode key) := str (urlDecode value)]> out
  | (key, None) => match kv with [] => out | _ => <[str (urlDecode kv) := ""%string]> out end
  end.
Fixpoint parse_pairs (fuel : nat) (body : text) (out : gmap string string) : gmap string string :=
  match body, fuel with
  | [], _ | _, O => out
  | _, S fuel =>
      match split_at (ch 38) body with
      | (kv, Some rest) => parse_pairs fuel rest (form_pair kv out)
      | (kv, None) => form_pair kv out
      end
  end.
Definition parseFormBody (body : string) : gmap string string :=
  parse_pairs (length (chars body)) (chars body) ∅.

(** ** The value of a JSON field, unquoted; empty when it is missing *)
Definition until (stop : ascii -> bool) : text -> text :=
  fix go l := match l with [] => [] | c :: l => if stop c then [] else c :: go l end.
Definition jsonField (body key : string) : string :=
  let body := chars body in
  let needle := quote :: chars key ++ [quote] in
  match find_sub needle body with
  | None => ""
  | Some pos =>
      match split_at (ch 58) (drop (pos + length needle) body) with
      | (_, None) => ""
      | (_, Some rest) =>
          match skip_spaces rest with
          | [] => ""
          | c :: rest' =>
              if Ascii.eqb c quote
              then match split_at quote rest' with (v, Some _) => str v | _ => "" end
              else str (until (fun c => is_space c || bool_decide (c ∈ [ch 44; ch 125; ch 93])) (c :: rest'))
          end
      end
  end%string.

(** The escape of the public pages also hides the characters of HTML. *)
Definition escape_char_html (c : ascii) : text :=
  let v := byteZ c in
  if v =? 60 then chars "\u003c" else if v =? 62 then chars "\u003e" else if v =? 38 then chars "\u0026"
  else escape_char c.
Definition jsonEscapeHtml (s : string) : string := str (concat (map escape_char_html (chars s))).

(** ** Headers and addresses *)
Definition crlf : text := [ch 13; ch 10].
Definition getHeaderValue (headers name : string) : string :=
  let lc := map tolower (chars headers) in
  let key := map tolower (chars name) in
  match find_sub (crlf ++ key ++ [ch 58]) lc with
  | None => ""
  | Some p =>
      let rest := drop (p + 2 + length key + 1) (chars headers) in
      str (trim blank (match find_sub crlf rest with Some e => take e rest | None => rest end))
  end.

Definition isPublicIp (ip : string) : bool :=
  if String.eqb ip "" then false
  else if String.eqb ip "::1" || String.eqb ip "0.0.0.0" then false
  else if starts "127." ip || starts "10." ip || starts "192.168." ip || starts "169.254." ip then false
  else if starts "172." ip && (match split_at (ch 46) (drop 4 (chars ip)) with
                               | (second, Some _) => match stoi (str second) with
                                                     | Ok v => (16 <=? v) && (v <=? 31)
                                                     | _ => false end
                               | _ => false end) then false
  else let lc := str (map tolower (chars ip)) in negb (starts "fc" lc || starts "fd" lc || starts "fe80" lc).

Definition resolveClientIp (headers socketPeer serverPublicIp : string) : string :=
  let xff := getHeaderValue headers "X-Forwarded-For" in
  let first := let f := (split_at (ch 44) (chars xff)).1 in
               match trim blank f with [] => str f | t => str t end in
  let xrip := getHeaderValue headers "X-Real-IP" in
  if negb (String.eqb xff "") && isPublicIp first then first
  else if isPublicIp xrip then xrip
  else if isPublicIp socketPeer then socketPeer
  else serverPublicIp.

(** ** Query strings *)
Fixpoint query_find (fuel : nat) (needle qs : text) : string :=
  match fuel with
  | O => ""
  | S fuel =>
      let '(kv, rest) := split_at (ch 38) qs in
      if is_prefix needle kv then str (drop (length needle) kv)
      else match rest with Some rest => query_find fuel needle rest | None => "" end
  end.
Definition queryParam (pathWithQuery key : string) : string :=
  match split_at (ch 63) (chars pathWithQuery) with
  | (_, Some qs) => query_find (S (length qs)) (chars key ++ [ch 61]) qs
  | _ => ""
  end.

(** ** The pools' own JSON *)
Definition key_at (s key : string) : option text :=
  let needle := quote :: chars key ++ [quote] in
  p ← find_sub needle (chars s); (split_at (ch 58) (drop p (chars s))).2.
Definition peerJsonNum (s key : string) (fallback : spec_float) : spec_float :=
  match key_at s key with
  | Some rest => match stod (str rest) with Ok d => d | _ => fallback end
  | None => fallback
  end.
Definition peerJsonStr (s key : string) : string :=
  match key_at s key with
  | Some rest => match split_at quote rest with
                 | (_, Some rest) => match split_at quote rest with (v, Some _) => str v | _ => "" end
                 | _ => ""
                 end
  | None => ""
  end%string.
Fixpoint array_end (depth : Z) (l : text) : option nat :=
  match l with
  | [] => None
  | c :: l =>
      if byteZ c =? 91 then S <$> array_end (depth + 1) l
      else if byteZ c =? 93 then if depth - 1 =? 0 then Some 1%nat else S <$> array_end (depth - 1) l
      else S <$> array_end depth l
  end.
Definition peerJsonArray (s key : string) : string :=
  let needle := quote :: chars key ++ [quote] in
  match p ← find_sub needle (chars s); find_from [ch 91] (chars s) p with
  | Some p => let rest := drop p (chars s) in
              match array_end 0 rest with Some n => str (take n rest) | None => "[]" end
  | None => "[]"
  end%string.
(** The objects of a flat array: from each opening brace to the next closing one. *)
Fixpoint objects (fuel : nat) (s : text) : list text :=
  match fuel with
  | O => []
  | S fuel =>
      match (split_at (ch 123) s).2 with
      | Some rest => match split_at (ch 125) rest with
                     | (obj, Some rest) => (ch 123 :: obj ++ [ch 125]) :: objects fuel rest
                     | _ => []
                     end
      | None => []
      end
  end.
Definition objects_of (s : string) : list string := map str (objects (length (chars s)) (chars s)).

Definition urlHost (url : string) : string :=
  let u := chars url in
  let u := match find_sub (chars "://") u with Some p => drop (p + 3) u | None => u end in
  str (split_at (ch 47) u).1.
Definition strip_url (u : string) : string := str (rev (trim_left [ch 47; ch 32] (rev (chars u)))).

(** ** On-chain announcements *)
Definition hex_char (v : Z) : ascii := nth (Z.to_nat v) (chars BITIO_CHARSET_HEX) "0"%char.
Definition toHex (s : string) : string :=
  str (concat (map (fun c => [hex_char (byteZ c / 16); hex_char (byteZ c mod 16)]) (chars s))).

(** [std::stoi(s, nullptr, 16)] of at most two characters *)
Definition stoi16 (s : text) : option Z :=
  let '(negative, l) := read_sign (skip_spaces s) in
  match (digits_of hex_value l).1 with
  | [] => None
  | ds => let v := foldl (fun n d => n * 16 + d) 0 ds in Some (if negative : bool then - v else v)
  end.
Fixpoint decode_url (l : text) : text :=
  match l with
  | a :: b :: l =>
      match stoi16 [a; b] with
      | Some v => if (v <? 32) || (126 <? v) then [] else ch v :: decode_url l
      | None => []
      end
  | _ => []
  end.
Definition decodeAnnouncement (hex : string) : string :=
  match find_sub (chars "4447535031") (chars hex) with
  | None => ""
  | Some m => let url := str (decode_url (drop (m + 10) (chars hex))) in if starts "http" url then url else ""
  end%string.

(** ** Percent encoding, peer ids, wallet names, content ids *)
Definition hex_upper (v : Z) : ascii := nth (Z.to_nat v) (chars "0123456789ABCDEF") "0"%char.
Definition percent (c : ascii) : text := [ch 37; hex_upper (byteZ c / 16); hex_upper (byteZ c mod 16)].
Definition unreserved (c : ascii) : bool := is_alnum c || bool_decide (c ∈ chars "-_.~").
Definition urlEscape (s : string) : string :=
  str (concat (map (fun c => if unreserved c then [c] else percent c) (chars s))).
(** [CoreRpc::detail::encode] is the same function. *)
Definition encode_wallet (s : string) : string := urlEscape s.

Definition extractPeerId (s : string) : string :=
  let id := match rfind_sub (chars "/p2p/") (chars s) with Some p => drop (p + 5) (chars s) | None => chars s end in
  str (split_at (ch 47) id).1.

Definition parseWalletName (raw : string) : string :=
  let v := trim blank (chars raw) in
  str (match v with
       | c :: _ :: _ => if Ascii.eqb c quote && bool_decide (last v = Some quote) then take (length v - 2) (drop 1 v) else v
       | _ => v
       end).

Definition safeCid (cid : string) : bool :=
  let n := Z.of_nat (length (chars cid)) in
  negb (n =? 0) && (n <=? 128) && forallb is_alnum (chars cid).

(** ** pool.cfg and payout addresses *)
Fixpoint lines_of (fuel : nat) (l : text) : list text :=
  match l, fuel with
  | [], _ | _, O => []
  | _, S fuel => match split_at (ch 10) l with
                 | (line, Some rest) => line :: lines_of fuel rest
                 | (line, None) => [line]
                 end
  end.
Definition config_line (line : text) (out : gmap string string) : gmap string string :=
  let line := if bool_decide (last line = Some (ch 13)) then take (length line - 1) line else line in
  match line with
  | [] => out
  | c :: _ =>
      if byteZ c =? 35 then out
      else match split_at (ch 61) line with
           | (key, Some value) => <[str key := str value]> out
           | _ => out
           end
  end.
Definition readPoolConfig (file : option string) : gmap string string :=
  match file with
  | None => ∅
  | Some file => foldl (fun out line => config_line line out) ∅ (lines_of (length (chars file)) (chars file))
  end.

Definition base58_chars : text := chars "123456789ABCDEFGHJKLMNPQRSTUVWXYZabcdefghijkmnopqrstuvwxyz".
Definition isValidDgbAddress (a : string) : bool :=
  let l := chars a in
  let n := Z.of_nat (length l) in
  if (n <? 26) || (90 <? n) then false
  else if starts "dgb1" a then forallb (fun c => is_lower c || is_digit c) l
  else match l with
       | c :: _ => (bool_decide (c = "D"%char) || bool_decide (c = "S"%char)) && forallb (fun c => bool_decide (c ∈ base58_chars)) l
       | [] => false
       end.
