(* ===== verification/PoolServer.v ===== *)
(** PoolServer: the request handlers of the pool (src/pool/PoolServer.cpp) on
    its database, with the calls to the pool's IPFS node (src/pool/KuboClient.h).

    A handler returns the status and the body of the response.  The node is the
    interface [Kubo]: what its HTTP API answers, or nothing when the transfer
    fails.  Random numbers are arguments ([draws]). *)

From Stdlib Require Import Floats.SpecFloat.
From stdpp Require Import pretty.
From S2P Require Import Prelude.
From S2P Require Import BitIOCodec.
From S2P Require Import CString.
From S2P Require Import Sql.
From S2P Require Import Blob.
From S2P Require Import DigiDollar.
From S2P Require Import SHA256.
From S2P Require Import StoragePlan.
From S2P Require Import PoolDatabase.
From S2P Require Import PoolText.


(** ** The pool's IPFS node *)
Class Kubo := {
  kubo_cat : string -> Z -> Z -> option string;        (** cid, offset, length *)
  kubo_stat : string -> option string                   (** cid *)
}.

(** Bytes [offset, offset+length) of the file *)
Definition catRange `{Kubo} (cid : string) (offset length : Z) : option string :=
  if negb (safeCid cid) || (offset <? 0) || (length <=? 0) then None
  else out ← kubo_cat cid offset length;
       if Z.of_nat (List.length (chars out)) =? length then Some out else None.

Fixpoint read_size (l : text) (v : Z) (any : bool) : outcome (option Z) :=
  match l with
  | c :: l =>
      if is_digit c
      then t ← (if v * 10 <? 9223372036854775808 then Ok (v * 10) else UB);
           v ← add_int64 t (byteZ c - 48); read_size l v true
      else Ok (if any then Some v else None)
  | [] => Ok (if any then Some v else None)
  end.
Definition fileSize `{Kubo} (cid : string) : outcome (option Z) :=
  if negb (safeCid cid) then Ok None
  else match kubo_stat cid with
       | None => Ok None
       | Some r => match find_sub (quote :: chars "Size" ++ [quote; ch 58]) (chars r) with
                   | None => Ok None
                   | Some p => read_size (drop (p + 7) (chars r)) 0 false
                   end
       end.

(** [SHA256::toString] of the digest of a text *)
Definition sha256_hex (bytes : string) : string :=
  Blob.toHex (digest (update (SHA256_init (repeat 0 64)) (map byteZ (chars bytes)))).

(** ** What the operator configured *)
Record server_config := mk_server_config {
  _plan : Config; _ingestToken : string; _challengeIpfsApi : string; _payoutsEnabled : bool;
  _peers : list string; _peerToken : string }.
Definition setPeers (peers : list string) : list string :=
  List.filter (fun u => negb (String.eqb u "")) (map strip_url peers).

Definition response : Type := (Z * string)%type.
Definition error_body (s : string) : string := ("{" ++ quoted "error" ++ ":" ++ quoted s ++ "}")%string.

(** ** Registration and storage challenges *)
Record draws := mk_draws { d_pick : Z; d_seed : Z; d_id1 : Z; d_id2 : Z }.
Fixpoint hex16 (n : nat) (v : Z) : text :=
  match n with O => [] | S n => hex16 n (v / 16) ++ [hex_char (v mod 16)] end.
Definition challenge_id (d : draws) : string := str (hex16 16 (d_id1 d) ++ hex16 16 (d_id2 d)).

Definition challenge_json (c : Challenge) : string :=
  "{" ++ quoted "id" ++ ":" ++ quoted (jsonEscapeHtml (cl_id c)) ++ "," ++ quoted "cid" ++ ":"
  ++ quoted (jsonEscapeHtml (cl_cid c)) ++ "," ++ quoted "offset" ++ ":" ++ int_string (cl_offset c) ++ ","
  ++ quoted "length" ++ ":" ++ int_string (cl_length c) ++ "," ++ quoted "deadline" ++ ":"
  ++ int_string CHALLENGE_DEADLINE_SECONDS ++ "}".

Section server.
Context {HK : Kubo} (cfg : server_config) (ulong_max : Z).

Definition challengeFor (peerId : string) (rng : draws) (now : Z) : M pool_db string :=
  if String.eqb (_challengeIpfsApi cfg) "" then mret ""%string
  else
    open ← getOpenChallenge peerId now;
    match open with
    | Some c => mret (challenge_json c)
    | None =>
        cids ← getPlanCids;
        nodes ← getPlanNodes now;
        let paid := paidSet nodes (_plan cfg) in
        let any := List.filter (fun x => (0 <? c_sizeBytes x) && safeCid (c_cid x)) cids in
        let assigned := List.filter (fun x => isAssigned (c_cid x) peerId paid (replicas (_plan cfg))) any in
        let pool := match assigned with [] => any | _ => assigned end in
        match pool !! Z.to_nat (d_pick rng mod Z.of_nat (length pool)) with
        | None => mret ""%string
        | Some pick =>
            let range := challengeRange (c_sizeBytes pick) (d_seed rng) in
            let c := mk_Challenge (challenge_id rng) peerId (c_cid pick) (r_offset range) (r_length range) now in
            insertChallenge c;; mret (challenge_json c)
        end
    end.

Definition handleKeepalive (body clientIp : string) (rng : draws) (now : Z) : M pool_db response :=
  let form := parseFormBody body in
  challenge ←
    match form !! "address"%string, form !! "peerId"%string with
    | Some address, Some peerId =>
        if negb (String.eqb address "") && negb (String.eqb peerId "")
        then
          let secret := default ""%string (form !! "secret"%string) in
          upsertNode peerId address secret clientIp now;;
          known ← nodeSecretMatches peerId secret;
          if known : bool then challengeFor peerId rng now else mret ""%string
        else mret ""%string
    | _, _ => mret ""%string
    end;
  mret (200, "{" ++ quoted "error" ++ ":" ++ quoted "unsubscribe failed will time out anyways"
             ++ (if String.eqb challenge "" then "" else "," ++ quoted "challenge" ++ ":" ++ challenge) ++ "}")%string.

Definition handleList (body clientIp : string) (now : Z) : M pool_db response :=
  let peerId := jsonField body "peerId" in
  let payout := jsonField body "payout" in
  let secret := jsonField body "secret" in
  (if negb (String.eqb peerId "") && negb (String.eqb payout "")
   then upsertNode peerId payout secret clientIp now else mret tt);;
  mret (200, "{" ++ quoted "payoutsEnabled" ++ ":" ++ (if _payoutsEnabled cfg then "true" else "false") ++ ","
             ++ quoted "phase" ++ ":" ++ (if _payoutsEnabled cfg then "3" else "1") ++ ","
             ++ quoted "changes" ++ ":{}}")%string.

(** POST /proof up to the read of the pool's own copy, and after it: in between
    the database is free for other requests. *)
Definition proof_claim (body : string) (now : Z) : M pool_db (response + Challenge) :=
  let form := parseFormBody body in
  let peerId := default ""%string (form !! "peerId"%string) in
  let secret := default ""%string (form !! "secret"%string) in
  let id := default ""%string (form !! "id"%string) in
  if String.eqb (_challengeIpfsApi cfg) ""
  then mret (inl (404, error_body "storage challenges are off on this pool"))
  else
    known ← (if String.eqb peerId "" || String.eqb id "" then mret false else nodeSecretMatches peerId secret);
    if negb known then mret (inl (403, error_body "unknown node or wrong secret"))
    else
      claimed ← claimChallenge id peerId now;
      mret (match claimed with
            | None => inl (409, error_body "no open challenge with that id (already answered, expired, or not yours)")
            | Some c => inr c
            end).
Definition proof_judge (body : string) (c : Challenge) : M pool_db response :=
  let form := parseFormBody body in
  let peerId := default ""%string (form !! "peerId"%string) in
  let answer := default ""%string (form !! "sha256"%string) in
  match catRange (cl_cid c) (cl_offset c) (cl_length c) with
  | None => mret (200, "{" ++ quoted "ok" ++ ":true," ++ quoted "passed" ++ ":null," ++ quoted "reason" ++ ":"
                       ++ quoted "the pool could not read that file itself" ++ "}")%string
  | Some bytes =>
      let passed := sameHash (sha256_hex bytes) answer in
      recordProofResult (cl_id c) peerId passed;;
      mret (200, "{" ++ quoted "ok" ++ ":true," ++ quoted "passed" ++ ":" ++ (if passed then "true" else "false") ++ "}")%string
  end.
Definition handleProof (body : string) (now : Z) : M pool_db response :=
  claimed ← proof_claim body now;
  match claimed with inl r => mret r | inr c => proof_judge body c end.

(** ** The permanent list *)
Definition handlePermanent (path : string) : M pool_db response :=
  let l := chars path in
  if Z.of_nat (length l) <=? 11 + 5 then mret (400, error_body "bad path")
  else match stoul ulong_max (str (take (length l - 11 - 5) (drop 11 l))) with
       | Ok page => body ← buildPermanentPageJson (u32 page); mret (200, body)
       | _ => mret (400, error_body "bad page")
       end.

Fixpoint pieces (fuel : nat) (l : text) : list string :=
  match fuel with
  | O => []
  | S fuel =>
      let '(piece, rest) := split_at (ch 44) l in
      match trim white piece with [] => [] | t => [str t] end
      ++ match rest with Some rest => pieces fuel rest | None => [] end
  end.
Definition cid_list (cidsRaw : string) : list string := pieces (S (length (chars cidsRaw))) (chars cidsRaw).

Definition authorized (body : string) : option response :=
  if String.eqb (_ingestToken cfg) ""
  then Some (403, error_body "ingestion disabled: set pooladmintoken in pool.cfg")
  else if String.eqb (jsonField body "token") (_ingestToken cfg) then None else Some (403, error_body "forbidden").

Definition handlePermanentAdd (body : string) (now : Z) : M pool_db response :=
  match authorized body with
  | Some r => mret r
  | None =>
      let assetId := jsonField body "assetId" in
      let txHash := jsonField body "txHash" in
      let cidsRaw := jsonField body "cids" in
      if String.eqb assetId "" || String.eqb txHash "" || String.eqb cidsRaw ""
      then mret (400, error_body "assetId, txHash and cids (comma-separated) are required")
      else
        let cids := cid_list cidsRaw in
        if bool_decide (cids = []) then mret (400, error_body "cids contained no valid entries")
        else
          page ← getWritablePage;
          for_each cids (fun cid => insertPermanentAsset assetId txHash cid page now);;
          mret (200, "{" ++ quoted "ok" ++ ":true," ++ quoted "page" ++ ":" ++ int_string page ++ "," ++ quoted "added"
                     ++ ":" ++ int_string (Z.of_nat (length cids)) ++ "}")%string
  end.

Definition handlePermanentRemove (body : string) : M pool_db response :=
  match authorized body with
  | Some r => mret r
  | None =>
      let malformed := jsonField body "malformed" in
      let cidsRaw := jsonField body "cids" in
      let wantsSweep := String.eqb malformed "true" || String.eqb malformed "1" in
      if wantsSweep && negb (String.eqb cidsRaw "")
      then mret (400, error_body "send either cids or malformed, not both")
      else if wantsSweep
      then
        removed ← removeMalformedPermanentCids;
        mret (200, "{" ++ quoted "ok" ++ ":true," ++ quoted "mode" ++ ":" ++ quoted "malformed" ++ "," ++ quoted "removed"
                   ++ ":" ++ int_string removed ++ "}")%string
      else if String.eqb cidsRaw "" then mret (400, error_body "cids (comma-separated) or malformed:true is required")
      else
        let cids := cid_list cidsRaw in
        if bool_decide (cids = []) then mret (400, error_body "cids contained no valid entries")
        else
          removed ← removePermanentCids cids;
          mret (200, "{" ++ quoted "ok" ++ ":true," ++ quoted "mode" ++ ":" ++ quoted "cids" ++ "," ++ quoted "requested"
                     ++ ":" ++ int_string (Z.of_nat (length cids)) ++ "," ++ quoted "removed" ++ ":"
                     ++ int_string removed ++ "}")%string
  end.
End server.

(** ** The pages of the permanent list and of the nodes *)
Definition handleNodes (now : Z) : M pool_db response := body ← buildNodesJson now; mret (200, body).
Definition handleMap (now : Z) : M pool_db response := body ← buildMapJson now; mret (200, body).
Definition handleBad : response := (200, "{" ++ quoted "assets" ++ ":[]," ++ quoted "cids" ++ ":[]}")%string.

(** ** Peer pools *)
Definition peerAuthOk (cfg : server_config) (query : string) : bool :=
  if String.eqb (_peerToken cfg) "" then true else String.eqb (queryParam query "token") (_peerToken cfg).

Definition ledger_json (r : PayoutRow) : string :=
  "{" ++ quoted "address" ++ ":" ++ quoted (jsonEscapeHtml (py_payoutAddress r)) ++ "," ++ quoted "amount" ++ ":"
  ++ fixed 8 (ddiv (dbl (py_amountDgbSat r)) (dbl 100000000)) ++ "," ++ quoted "paidAt" ++ ":" ++ int_string (py_paidAt r) ++ "}".
Definition handlePeerLedger (cfg : server_config) (query : string) : M pool_db response :=
  if negb (peerAuthOk cfg query) then mret (403, error_body "bad peer token")
  else rows ← getRecentPayouts 500; mret (200, "[" ++ separated (map ledger_json rows) ++ "]")%string.

Definition asset_json (r : string * string * string) : string :=
  "{" ++ quoted "a" ++ ":" ++ quoted (jsonEscapeHtml r.1.1) ++ "," ++ quoted "t" ++ ":" ++ quoted (jsonEscapeHtml r.1.2) ++ ","
  ++ quoted "c" ++ ":" ++ quoted (jsonEscapeHtml r.2) ++ "}".
Definition handlePeerAssets (cfg : server_config) (query : string) : M pool_db response :=
  if negb (peerAuthOk cfg query) then mret (403, error_body "bad peer token")
  else assets ← getAllPermanentAssets; mret (200, "[" ++ separated (map asset_json assets) ++ "]")%string.

(** The addresses a peer paid since [now - windowSeconds], with the latest
    time; the conversion of a time to [int64_t] can be undefined. *)
Fixpoint paid_addresses (objs : list string) (cutoff : Z) (out : gmap string Z) : outcome (gmap string Z) :=
  match objs with
  | [] => Ok out
  | obj :: objs =>
      let addr := peerJsonStr obj "address" in
      paidAt ← to_int64 (peerJsonNum obj "paidAt" (dbl 0));
      paid_addresses objs cutoff
        (if negb (String.eqb addr "") && (cutoff <=? paidAt)
         then match out !! addr with
              | Some t => if t <? paidAt then <[addr := paidAt]> out else out
              | None => <[addr := paidAt]> out
              end
         else out)
  end.
(** [body] is the answer of GET /peer/ledger, or nothing when it failed. *)
Definition fetchPeerPaidAddresses (body : option string) (windowSeconds now : Z) : outcome (option (gmap string Z)) :=
  match body with
  | None => Ok None
  | Some body => out ← paid_addresses (objects_of body) (now - windowSeconds) ∅; Ok (Some out)
  end.

(** The part of [peerSyncLoop] that copies a peer's permanent list. *)
Definition mirrorPeerAssets (body : option string) (now : Z) : M pool_db unit :=
  match body with
  | None => mret tt
  | Some assets =>
      page ← getWritablePage;
      for_each (objects_of assets) (fun obj =>
        let c := peerJsonStr obj "c" in
        when (negb (String.eqb c ""))
          (insertPermanentAsset (peerJsonStr obj "a") (peerJsonStr obj "t") c page now))
  end.

(** ** Routing *)
Inductive endpoint : Type :=
  | Permanent | Keepalive | List_ | Proof_ | PermanentAdd | PermanentRemove | Nodes | Map_ | Bad | Stats
  | PeerStatus | PeerLedger | PeerAssets | PeerList | PeerAnnounce | PeerTestAnnounce | NotFound.
Definition route (method path : string) : endpoint :=
  let GET := String.eqb method "GET" in
  let POST := String.eqb method "POST" in
  if GET && starts "/permanent/" path then Permanent
  else if POST && String.eqb path "/keepalive" then Keepalive
  else if POST && starts "/list/" path then List_
  else if POST && String.eqb path "/proof" then Proof_
  else if POST && String.eqb path "/permanent/add" then PermanentAdd
  else if POST && String.eqb path "/permanent/remove" then PermanentRemove
  else if GET && String.eqb path "/nodes.json" then Nodes
  else if GET && String.eqb path "/map.json" then Map_
  else if GET && String.eqb path "/bad.json" then Bad
  else if GET && String.eqb path "/pool/stats.json" then Stats
  else if GET && starts "/peer/status" path then PeerStatus
  else if GET && starts "/peer/ledger" path then PeerLedger
  else if GET && starts "/peer/assets" path then PeerAssets
  else if GET && starts "/peer/list" path then PeerList
  else if POST && String.eqb path "/peer/announce" then PeerAnnounce
  else if POST && starts "/peer/testannounce" path then PeerTestAnnounce
  else NotFound.
