(* ===== verification/PoolPayout.v ===== *)
(** PoolPayout: how the pool pays its nodes (the payout half of
    src/pool/PoolDashboard.cpp and src/pool/CoreRpc.h): the budget, the plan
    with its guards and filters, the one [sendmany] that pays it, and the
    automatic payout.

    All of it runs on the dashboard's thread; the other threads of the pool only
    touch the database between two of its steps.  DigiByte Core is an interface:
    the answer to a request body, or the message of a failed transfer.  Log
    lines are left out; the requests that could move money are recorded in
    [sent]. *)

From Stdlib Require Import Floats.SpecFloat.
From stdpp Require Import pretty.
From S2P Require Import Prelude.
From S2P Require Import BitIOCodec.
From S2P Require Import CString.
From S2P Require Import Sql.
From S2P Require Import StoragePlan.
From S2P Require Import PoolDatabase.
From S2P Require Import PoolText.
From S2P Require Import PoolServer.

Definition config : Type := gmap string string.
Definition cfgGet (cfg : config) (key def : string) : string := default def (cfg !! key).
(** [try { x = parse(cfg[key]) } catch (...) {}] *)
Definition cfg_int (cfg : config) (key : string) (def : Z) : Z :=
  match cfg !! key with Some s => keep_default def (stoi s) | None => def end.

(** ** DigiByte Core *)
Inductive http : Type :=
  | Response (status : Z) (body : string)
  | Failed (what : string).
Definition ok_status (status : Z) : bool := (200 <=? status) && (status <? 300).

Definition walletNamed (cfg : config) : bool := match cfg !! "poolrpcwallet"%string with Some _ => true | None => false end.
Definition walletName (cfg : config) : string :=
  match cfg !! "poolrpcwallet"%string with Some raw => parseWalletName raw | None => "" end.
Definition rpc_url (cfg : config) (user pass : string) (port : Z) : string :=
  let base := ("http://" ++ user ++ ":" ++ pass ++ "@127.0.0.1:" ++ int_string port)%string in
  if negb (walletNamed cfg) then base else (base ++ "/wallet/" ++ encode_wallet (walletName cfg))%string.

Definition rpc_body (method params : string) : string :=
  "{" ++ quoted "jsonrpc" ++ ":" ++ quoted "1.0" ++ "," ++ quoted "id" ++ ":" ++ quoted "pool" ++ ","
  ++ quoted "method" ++ ":" ++ quoted method ++ "," ++ quoted "params" ++ ":[" ++ params ++ "]}".
Definition has (needle body : string) : bool := contains (chars needle) (chars body).

Definition coreValidatesAddress (core : string -> http) (rpcUser address : string) : bool :=
  if String.eqb rpcUser "" then true
  else match core (rpc_body "validateaddress" (quoted address)) with
       | Failed _ => true
       | Response status resp =>
           if negb (ok_status status) then true
           else if has (quoted "isvalid" ++ ":true") resp then true
           else if has (quoted "isvalid" ++ ":false") resp then false else true
       end.

(** Every "amount" of the list, added up *)
Fixpoint sum_amounts (fuel : nat) (resp : text) (total : spec_float) : spec_float :=
  match fuel with
  | O => total
  | S fuel =>
      let key := quote :: chars "amount" ++ [quote] in
      match find_sub key resp with
      | None => total
      | Some pos =>
          match (split_at (ch 58) (drop (pos + length key) resp)).2 with
          | None => total
          | Some rest =>
              match trim_left blank rest with
              | [] => total
              | v => sum_amounts fuel rest (match stod (str v) with Ok d => dadd total d | _ => total end)
              end
          end
      end
  end.
Definition getWalletBalance (core : string -> http) (rpcUser : string) : spec_float :=
  if String.eqb rpcUser "" then dbl (-1)
  else match core (rpc_body "listunspent" "1,9999999") with
       | Failed _ => dbl (-1)
       | Response status resp =>
           if negb (ok_status status) then dbl (-1)
           else match find_sub (quote :: chars "result" ++ [quote]) (chars resp) with
                | None => dbl (-1)
                | Some rpos =>
                    let rest := drop rpos (chars resp) in
                    let null := match (split_at (ch 58) (drop 8 rest)).2 with
                                | Some v => is_prefix (chars "null") (trim_left blank v)
                                | None => false end in
                    if null : bool then dbl (-1) else sum_amounts (length rest) rest (dbl 0)
                end
       end.

(** ** The budget *)
Definition feeReserve (outputCount : Z) : spec_float :=
  dadd (dlit 1 100) (dmul (dlit 2 10000) (dbl outputCount)).
Definition cfg_double (cfg : config) (key : string) : spec_float := keep_default (dbl 0) (stod (cfgGet cfg key "0")).
Definition computeBudget (cfg : config) (core : string -> http) (outputCount : Z) : spec_float :=
  let fee := feeReserve outputCount in
  let bal := getWalletBalance core (cfgGet cfg "rpcuser" "") in
  let percent := cfg_double cfg "poolpayoutpercent" in
  if dlt (dbl 0) percent
  then
    let percent := if dlt (dbl 100) percent then dbl 100 else percent in
    if dlt bal (dbl 0) then dbl (-1)
    else
      let budget := dmul bal (ddiv percent (dbl 100)) in
      let budget := if dlt (dsub bal fee) budget then dsub bal fee else budget in
      if dlt budget (dbl 0) then dbl 0 else budget
  else
    let spend := cfg_double cfg "poolspendperperiod" in
    if dle (dbl 0) bal && dlt (dsub bal fee) spend
    then let spend := dsub bal fee in if dlt spend (dbl 0) then dbl 0 else spend
    else spend.

(** ** The plan *)
Definition payments : Type := list (string * spec_float).

(** One payment per distinct address, in the order of the first node *)
Fixpoint pay_address (address : string) (amt : spec_float) (p : payments) : payments :=
  match p with
  | [] => [(address, amt)]
  | (a, x) :: p => if String.eqb a address then (a, dadd x amt) :: p else (a, x) :: pay_address address amt p
  end.
Definition aggregate (spend totalWeight : spec_float) (targets : list PayoutTarget) : payments :=
  foldl (fun p t =>
    let amt := ddiv (dmul spend (pt_weight t)) totalWeight in
    if dle amt (dbl 0) then p else pay_address (pt_payoutAddress t) amt p) [] targets.
Definition total_weight (targets : list PayoutTarget) : spec_float :=
  foldl (fun s t => dadd s (pt_weight t)) (dbl 0) targets.

(** What the peer pools answer to GET /peer/ledger *)
Fixpoint paid_by_peers (answers : list (option string)) (window now : Z) (out : gmap string Z) : outcome (gmap string Z) :=
  match answers with
  | [] => Ok out
  | a :: answers =>
      one ← fetchPeerPaidAddresses a window now;
      paid_by_peers answers window now (match one with Some m => m ∪ out | None => out end)
  end.

(** What a step of the dashboard can see. *)
Record environment := mk_environment {
  e_now : Z; e_cfg : config; e_core : string -> http; e_peers : list (option string) }.

Definition periodHours (cfg : config) : Z := cfg_int cfg "poolpayoutperiodhours" 24.
Definition payouts_enabled (cfg : config) : bool := negb (cfg_int cfg "poolpayouts" 0 =? 0).

(** Without the addresses that a peer pool has paid in this period *)
Definition without_paid (e : environment) (pending : payments) : outcome payments :=
  if negb (cfg_int (e_cfg e) "poolpeerpayoutdedupe" 1 =? 0) && negb (bool_decide (e_peers e = []))
  then
    paidByPeers ← paid_by_peers (e_peers e) (periodHours (e_cfg e) * 3600) (e_now e) ∅;
    Ok (List.filter (fun pp => match paidByPeers !! pp.1 with Some _ => false | None => true end) pending)
  else Ok pending.

(** The payments, or [None] when a guard refuses. *)
Definition planned_payments (e : environment) (lastPayout : Z) (targets : list PayoutTarget) : outcome (option payments) :=
  let cfg := e_cfg e in
  let rpcUser := cfgGet cfg "rpcuser" "" in
  if negb (payouts_enabled cfg) then Ok None
  else if negb (walletNamed cfg) then Ok None
  else if bool_decide (targets = []) then Ok None
  else if String.eqb rpcUser "" then Ok None
  else if (0 <? periodHours cfg) && (0 <? lastPayout) && (e_now e - lastPayout <? periodHours cfg * 3600) then Ok None
  else
    let spend := computeBudget cfg (e_core e) (Z.of_nat (length targets)) in
    if dlt spend (dbl 0) then Ok None
    else if deq spend (dbl 0) then Ok None
    else if dle (total_weight targets) (dbl 0) then Ok None
    else
      let pending := aggregate spend (total_weight targets) targets in
      pending ← without_paid e pending;
      let pending := List.filter (fun pp => negb (isBelowDust pp.2)) pending in
      let pending := List.filter (fun pp => isValidDgbAddress pp.1 && coreValidatesAddress (e_core e) rpcUser pp.1) pending in
      if bool_decide (pending = []) then Ok None else Ok (Some pending).

(** ** The batch *)
(** "%lld.%08lld" of a non-negative amount in satoshi *)
Definition amount_text (sat : Z) : string :=
  int_string (Z.quot sat 100000000) ++ "." ++ str (digits_pad 8 (Z.rem sat 100000000)).
Fixpoint amounts_json (payouts : payments) : outcome (option string) :=
  match payouts with
  | [] => Ok (Some "")
  | (a, x) :: rest =>
      if negb (isValidDgbAddress a) then Ok None
      else
        sat ← payoutSats x;
        others ← amounts_json rest;
        Ok (match others with
            | None => None
            | Some o => Some (quoted a ++ ":" ++ amount_text sat ++ (if bool_decide (rest = []) then "" else "," ++ o))
            end)
  end%string.

Inductive send_result : Type :=
  | Sent (txid : string)         (** one transaction for the whole batch *)
  | Nothing                      (** "ERROR...": nothing was sent *)
  | Unknown.                     (** "TIMEOUT...": it may have been sent *)

Definition sendmany_answer (a : http) : send_result :=
  match a with
  | Failed _ => Unknown
  | Response status body =>
      if negb (ok_status status) then Nothing
      else
        let l := chars body in
        let error := match find_sub (quote :: chars "error" ++ [quote]) l with
          | Some epos => match (split_at (ch 58) (drop (epos + 7) l)).2 with
                         | Some v => match trim_left blank v with
                                     | [] => false
                                     | v => negb (is_prefix (chars "null") v) end
                         | None => false end
          | None => false end in
        if error then Nothing
        else match find_sub (quote :: chars "result" ++ [quote]) l with
             | None => Nothing
             | Some rpos =>
                 match (split_at (ch 58) (drop (rpos + 8) l)).2 with
                 | Some v => match trim_left blank v with
                             | c :: v => if Ascii.eqb c quote
                                         then match split_at quote v with
                                              | (txid, Some _) => Sent (str txid)
                                              | _ => Nothing end
                                         else Nothing
                             | [] => Nothing end
                 | None => Nothing end
             end
  end.
(** [result.substr(0, 7) == "TIMEOUT"] and the like on what [sendMany] returned *)
Definition classify (r : send_result) : send_result :=
  match r with
  | Sent txid => if starts "TIMEOUT" txid then Unknown else if starts "ERROR" txid then Nothing else Sent txid
  | r => r
  end.

(** ** The dashboard *)
Record request := mk_request { rq_at : Z; rq_payments : payments; rq_result : send_result }.
Record dashboard := mk_dashboard {
  d_db : pool_db;
  _pendingPayouts : payments;
  _awaitingPayoutConfirm : bool;
  _nextAutoPayoutCheck : Z;
  _nextAutoPayoutAttempt : Z;
  _nextOverdueWarning : Z;
  _quit : bool;
  sent : list request }.            (** the sendmany requests made, latest first *)

Definition set_db x (d : dashboard) := mk_dashboard x (_pendingPayouts d) (_awaitingPayoutConfirm d) (_nextAutoPayoutCheck d) (_nextAutoPayoutAttempt d) (_nextOverdueWarning d) (_quit d) (sent d).
Definition set_pending x (d : dashboard) := mk_dashboard (d_db d) x (_awaitingPayoutConfirm d) (_nextAutoPayoutCheck d) (_nextAutoPayoutAttempt d) (_nextOverdueWarning d) (_quit d) (sent d).
Definition set_awaiting x (d : dashboard) := mk_dashboard (d_db d) (_pendingPayouts d) x (_nextAutoPayoutCheck d) (_nextAutoPayoutAttempt d) (_nextOverdueWarning d) (_quit d) (sent d).
Definition set_nextCheck x (d : dashboard) := mk_dashboard (d_db d) (_pendingPayouts d) (_awaitingPayoutConfirm d) x (_nextAutoPayoutAttempt d) (_nextOverdueWarning d) (_quit d) (sent d).
Definition set_nextAttempt x (d : dashboard) := mk_dashboard (d_db d) (_pendingPayouts d) (_awaitingPayoutConfirm d) (_nextAutoPayoutCheck d) x (_nextOverdueWarning d) (_quit d) (sent d).
Definition set_nextWarning x (d : dashboard) := mk_dashboard (d_db d) (_pendingPayouts d) (_awaitingPayoutConfirm d) (_nextAutoPayoutCheck d) (_nextAutoPayoutAttempt d) x (_quit d) (sent d).
Definition set_quit x (d : dashboard) := mk_dashboard (d_db d) (_pendingPayouts d) (_awaitingPayoutConfirm d) (_nextAutoPayoutCheck d) (_nextAutoPayoutAttempt d) (_nextOverdueWarning d) x (sent d).
Definition add_sent x (d : dashboard) := mk_dashboard (d_db d) (_pendingPayouts d) (_awaitingPayoutConfirm d) (_nextAutoPayoutCheck d) (_nextAutoPayoutAttempt d) (_nextOverdueWarning d) (_quit d) (x :: sent d).

(** A call of the database. *)
Definition on_db {A} (m : M pool_db A) : M dashboard A := fun d =>
  let '(o, db) := m (d_db d) in (o, set_db db d).

Definition planPayout (e : environment) : M dashboard bool :=
  modify (set_pending []);;
  lastPayout ← on_db getLastPayoutAt;
  targets ← on_db (getVerifiedPayoutTargets (configFrom (e_cfg e)) (e_now e));
  plan ← lift (planned_payments e lastPayout targets);
  match plan with
  | Some p => modify (set_pending p);; mret true
  | None => mret false
  end.

(** [answer] is what Core says to the sendmany request, were it made. *)
Definition sendMany (payouts : payments) (answer : http) (now : Z) : M dashboard send_result :=
  if bool_decide (payouts = []) then mret Nothing
  else
    amounts ← lift (amounts_json payouts);
    match amounts with
    | None => mret Nothing
    | Some _ =>
        let r := classify (sendmany_answer answer) in
        modify (add_sent (mk_request now payouts r));; mret r
    end.
Definition sendmany_params (payouts : payments) : outcome (option string) :=
  amounts ← amounts_json payouts;
  Ok (match amounts with Some a => Some (quoted "" ++ ",{" ++ a ++ "}")%string | None => None end).

Definition record_all (f : string -> Z -> M pool_db unit) (payouts : payments) : M dashboard unit :=
  for_each payouts (fun pay => sat ← lift (payoutSats pay.2); on_db (f pay.1 sat)).

(** Up to the answer of Core, and what follows it: the period's guard is in the
    ledger before anything is sent, and the rows of the batch are written when
    the answer is there. *)
Definition broadcast (answer : http) (now : Z) : M dashboard (Z * send_result) :=
  periodGuardId ← on_db (beginPayoutPeriod now);
  d ← get;
  result ← sendMany (_pendingPayouts d) answer now;
  mret (periodGuardId, result).
Definition settle (periodGuardId : Z) (result : send_result) (now : Z) : M dashboard unit :=
  d ← get;
  (match result with
   | Unknown => record_all (fun a sat => recordPendingPayout a sat now) (_pendingPayouts d)
   | Nothing => on_db (abortPayoutPeriod periodGuardId)
   | Sent txid => record_all (fun a sat => recordPayout a sat txid now) (_pendingPayouts d)
   end);;
  modify (set_pending []).
Definition executePayout (answer : http) (now later : Z) : M dashboard unit :=
  r ← broadcast answer now;
  settle r.1 r.2 later.

(** One key of the console *)
Definition processKey (key : ascii) (e : environment) (answer : http) (later : Z) : M dashboard unit :=
  let one_of (s : string) := bool_decide (key ∈ chars s) in
  d ← get;
  if one_of "qQ"%string || (byteZ key =? 3) then modify (set_quit true)
  else if _awaitingPayoutConfirm d
  then
    modify (set_awaiting false);;
    if one_of "yY"%string then executePayout answer (e_now e) later else modify (set_pending [])
  else if one_of "eE"%string
  then
    planned ← planPayout e;
    when planned (modify (set_awaiting true))
  else mret tt.

Definition maybeAutoPayout (e : environment) (answer : http) (later : Z) : M dashboard unit :=
  let now := e_now e in
  let cfg := e_cfg e in
  d ← get;
  if now <? _nextAutoPayoutCheck d then mret tt
  else
    modify (set_nextCheck (now + 60));;
    if _awaitingPayoutConfirm d then mret tt
    else if negb (payouts_enabled cfg) then mret tt
    else
      let hours := periodHours cfg in
      lastPayout ← on_db getLastPayoutAt;
      let due := (lastPayout <=? 0) || ((0 <? hours) && (hours * 3600 <=? now - lastPayout)) in
      if cfg_int cfg "poolautopayout" 0 =? 0
      then
        let overdueAfter := (if 0 <? hours then hours else 24) * 3600 * 2 in
        when ((0 <? lastPayout) && (overdueAfter <=? now - lastPayout) && (_nextOverdueWarning d <=? now))
          (modify (set_nextWarning (now + 24 * 3600)))
      else if hours <=? 0
      then when (_nextAutoPayoutAttempt d <=? now) (modify (set_nextAttempt (now + 3600)))
      else if negb due || (now <? _nextAutoPayoutAttempt d) then mret tt
      else
        modify (set_nextAttempt (now + 3600));;
        planned ← planPayout e;
        if negb planned then mret tt else executePayout answer now later.
