(* ===== verification/PoolTheorems.v ===== *)
(** PoolTheorems: what the pool's database promises whatever requests arrive and
    however the threads interleave: a payout address that is bound to a secret
    only changes for that secret, and a storage challenge is answered and
    scored at most once. *)

From Stdlib Require Import Floats.SpecFloat.
From S2P Require Import Prelude.
From S2P Require Import BitIOCodec.
From S2P Require Import CString.
From S2P Require Import BitIOText.
From S2P Require Import Sql.
From S2P Require Import StoragePlan.
From S2P Require Import PoolDatabase.

Ltac Zify.zify_post_hook ::= Z.div_mod_to_equations.

(** ** The operations that write, and their interleavings

    Each holds the database's mutex, so the threads of the pool (requests,
    verifier, dashboard, peer synchronisation) produce a sequence of them. *)
Inductive pool_op : Type :=
  | OpUpsert (peerId payoutAddress secret ip : string) (now : Z)
  | OpVerifySuccess (peerId : string) (now : Z)
  | OpVerifyFailure (peerId : string)
  | OpScores (peerId : string) (coverage : spec_float) (sampled ok : bool)
  | OpCidSize (cid : string) (size : Z)
  | OpInsertChallenge (c : Challenge)
  | OpClaim (id peerId : string) (now : Z)
  | OpProof (id peerId : string) (passed : bool)
  | OpExpire (now : Z)
  | OpInsertAsset (assetId txHash cid : string) (page now : Z)
  | OpRemoveCids (cids : list string)
  | OpRemoveMalformed
  | OpPageDone (page : Z) (done : bool) (daily : string)
  | OpWritablePage
  | OpPayout (address : string) (sat : Z) (txid : string) (now : Z)
  | OpPending (address : string) (sat now : Z)
  | OpBeginPeriod (now : Z)
  | OpAbortPeriod (guardId : Z)
  | OpSetConfig (key value : string).

Definition run_op (o : pool_op) : M pool_db unit :=
  match o with
  | OpUpsert p a s ip now => upsertNode p a s ip now
  | OpVerifySuccess p now => recordVerifySuccess p now
  | OpVerifyFailure p => recordVerifyFailure p
  | OpScores p c sampled ok => updateNodeScores p c sampled ok
  | OpCidSize c n => setCidSize c n
  | OpInsertChallenge c => insertChallenge c
  | OpClaim id p now => claimChallenge id p now;; mret tt
  | OpProof id p b => recordProofResult id p b
  | OpExpire now => expireChallenges now;; mret tt
  | OpInsertAsset a t c page now => insertPermanentAsset a t c page now
  | OpRemoveCids cids => removePermanentCids cids;; mret tt
  | OpRemoveMalformed => removeMalformedPermanentCids;; mret tt
  | OpPageDone page done daily => setPermanentPageDone page done daily
  | OpWritablePage => getWritablePage;; mret tt
  | OpPayout a sat txid now => recordPayout a sat txid now
  | OpPending a sat now => recordPendingPayout a sat now
  | OpBeginPeriod now => beginPayoutPeriod now;; mret tt
  | OpAbortPeriod id => abortPayoutPeriod id
  | OpSetConfig k v => setConfig k v
  end.
Definition run_ops (ops : list pool_op) (d : pool_db) : pool_db := foldl (fun d o => (run_op o d).2) d ops.

(** ** What an operation leaves alone *)
Definition ident (r : node_row) : string * string * string := (nr_peerId r, nr_payoutAddress r, nr_secret r).

Lemma map_update_where {R A} (k : R -> A) p f (l : list R) :
  (forall r, k (f r) = k r) -> map k (update_where p f l) = map k l.
Proof. intros H. unfold update_where. rewrite map_map. apply map_ext. intros r. by case_match. Qed.

Ltac unfold_ops := unfold upsertNode, recordVerifySuccess, recordVerifyFailure, updateNodeScores, setCidSize,
  insertChallenge, claimChallenge, recordProofResult, expireChallenges, insertPermanentAsset,
  removeMalformedPermanentCids, setPermanentPageDone, getWritablePage, recordPayout, recordPendingPayout,
  beginPayoutPeriod, abortPayoutPeriod, setConfig, update_node, insert_payout in *.

Lemma keeps_removePermanentCids {K} (k : pool_db -> K) cids :
  (forall f d, k (on_assets f d) = k d) -> keeps k (removePermanentCids cids).
Proof.
  intros H. unfold removePermanentCids. case_match; [apply keeps_ret|].
  generalize 0 at 1. intros n. change (bool_decide (cids = [])) with (bool_decide (cids = [])) in *.
  revert n. clear -H. induction cids as [|c cids IH]; intros n; [apply keeps_ret|].
  destruct (String.eqb c ""); [apply IH|]. apply keeps_bind; [apply keeps_get|intros d].
  apply keeps_bind; [by apply keeps_modify|intros _; apply IH].
Qed.

(** Everything but a registration keeps the identities of the nodes. *)
Definition idents (d : pool_db) : list (string * string * string) := map ident (p_nodes d).
Lemma keeps_idents o : (forall p a s ip now, o <> OpUpsert p a s ip now) -> keeps idents (run_op o).
Proof.
  intros Ho. destruct o; cbn [run_op]; try (by destruct (Ho peerId payoutAddress secret ip now));
    try (apply keeps_bind; [apply keeps_removePermanentCids; done|intros; apply keeps_ret]);
    unfold_ops; keeps_all; try done; intros d; unfold idents; cbn; by apply map_update_where.
Qed.

(** ** Payout addresses *)
Definition rows_for (p : string) (d : pool_db) : list (string * string * string) :=
  List.filter (fun i => String.eqb i.1.1 (c_str p)) (idents d).
(** Node [p] is registered with payout address [a] under secret [s]. *)
Definition bound (p s a : string) (d : pool_db) : Prop := rows_for p d = [(c_str p, a, s)].

Lemma rows_for_select p d : rows_for p d = map ident (select_where (is_node p) (p_nodes d)).
Proof.
  unfold rows_for, idents, select_where, is_node. induction (p_nodes d) as [|r l IH]; cbn; [done|].
  rewrite IH. by destruct (String.eqb (nr_peerId r) (c_str p)).
Qed.

Lemma filter_update_other (p q : string) f (l : list node_row) :
  c_str q <> c_str p -> (forall r, nr_peerId (f r) = nr_peerId r) ->
  List.filter (fun i => String.eqb i.1.1 (c_str p)) (map ident (update_where (is_node q) f l))
  = List.filter (fun i => String.eqb i.1.1 (c_str p)) (map ident l).
Proof.
  intros Hne Hf. unfold update_where, is_node. induction l as [|r l IH]; cbn; [done|]. rewrite IH.
  destruct (String.eqb_spec (nr_peerId r) (c_str q)) as [E|_]; cbn; [|done].
  rewrite Hf, E. by destruct (String.eqb_spec (c_str q) (c_str p)).
Qed.

Lemma bound_upsert p s a d p' a' s' ip now :
  s <> ""%string -> bound p s a d -> (c_str p' = c_str p -> s' <> s) ->
  bound p s a (upsertNode p' a' s' ip now d).2.
Proof.
  intros Hs Hb Hne. unfold bound, upsertNode, update_node in *. cbn.
  pose proof (rows_for_select p d) as Hsel. rewrite Hb in Hsel.
  destruct (select_where (is_node p') (p_nodes d)) as [|r l] eqn:E; unfold mbind, M_bind, get, modify; cbn;
    rewrite E; cbn.
  - rewrite <- Hb. unfold rows_for, idents. cbn. rewrite map_app, List.filter_app. cbn.
    destruct (String.eqb_spec (c_str p') (c_str p)) as [Ec|_]; [|by rewrite app_nil_r].
    exfalso. unfold is_node in *. rewrite Ec in E. by rewrite E in Hsel.
  - destruct (decide (c_str p' = c_str p)) as [Ec|Ec].
    + unfold is_node in *. rewrite Ec in E. rewrite E in Hsel. cbn in Hsel.
      injection Hsel as _ _ Hr _. rewrite <- Hr.
      destruct (String.eqb_spec s ""); [done|]. destruct (String.eqb_spec s' s); [by destruct (Hne Ec)|].
      rewrite andb_false_r. cbn. done.
    + case_match; cbn; [done|]. rewrite <- Hb. unfold rows_for, idents. cbn. by apply filter_update_other.
Qed.

(** C7: Once a node is registered under a secret, no sequence of operations on
    the pool's database changes its payout address, its secret or its
    registration unless one of them is a registration of that node with that
    secret; and no other secret passes the check that keepalives and proofs
    make. *)
Theorem payout_address_guarded p s a d ops :
  bound p s a d -> s <> ""%string ->
  (forall p' a' s' ip now, OpUpsert p' a' s' ip now ∈ ops -> c_str p' = c_str p -> s' <> s) ->
  bound p s a (run_ops ops d)
  /\ forall s', (nodeSecretMatches p s' (run_ops ops d)).1 = Ok (bool_decide (s' = s)).
Proof.
  intros Hb Hs Hops. assert (bound p s a (run_ops ops d)) as Hb'.
  { revert d Hb. induction ops as [|o ops IH]; intros d Hb; [done|]. cbn.
    apply IH; [intros p' a' s' ip now Hin; apply (Hops p' a' s' ip now); by right|].
    assert ((exists p' a' s' ip now, o = OpUpsert p' a' s' ip now) \/ forall p' a' s' ip now, o <> OpUpsert p' a' s' ip now)
      as [(p' & a' & s' & ip & now & ->)|Ho] by (destruct o; eauto 10; by right).
    - apply bound_upsert; [done|done|]. apply (Hops p' a' s' ip now). left.
    - unfold bound, rows_for. by rewrite (keeps_idents o). }
  split; [done|]. intros s'. unfold bound in Hb'. rewrite rows_for_select in Hb'.
  unfold nodeSecretMatches. destruct (String.eqb_spec s' "") as [->|_]; cbn.
  - by rewrite bool_decide_false.
  - destruct (select_where (is_node p) (p_nodes (run_ops ops d))) as [|r [|]]; try done. injection Hb' as _ _ ->.
    by destruct (String.eqb_spec s' s); [rewrite bool_decide_true|rewrite bool_decide_false].
Qed.

(** A node, an attacker who knows its peer id, and the verifier. *)
Definition guarded_db : pool_db := (upsertNode "QmVictim" "DVictim" "s3cret" "" 100 buildSchema).2.
Definition attack : list pool_op :=
  [OpUpsert "QmVictim" "DAttacker" "guess" "6.6.6.6" 200; OpVerifyFailure "QmVictim";
   OpUpsert "QmVictim" "DAttacker" "" "6.6.6.6" 300; OpUpsert "QmOther" "DAttacker" "guess" "" 400].
Lemma payout_address_guarded_witness :
  bound "QmVictim" "s3cret" "DVictim" (run_ops attack guarded_db) /\ p_nodes (run_ops attack guarded_db) <> [].
Proof.
  split; [|vm_compute; discriminate].
  apply (payout_address_guarded "QmVictim" "s3cret" "DVictim" guarded_db attack); [vm_compute; reflexivity|discriminate|].
  intros p' a' s' ip now Hin. unfold attack in Hin.
  repeat (apply elem_of_cons in Hin as [Hin|Hin]; [try discriminate Hin; injection Hin as -> -> -> -> ->; discriminate|]).
  by apply elem_of_nil in Hin.
Defined.

(** ** Storage challenges

    [handleProof] claims a challenge, reads the pool's own copy of the file
    while the database is free for others, and then records the verdict.  A
    state is the database with the challenges that are claimed and not yet
    judged. *)
Definition claims : Type := list (string * string).
Definition state : Type := (pool_db * claims)%type.
Definition other_op (o : pool_op) : Prop := match o with OpClaim _ _ _ | OpProof _ _ _ => False | _ => True end.

Inductive step : state -> state -> Prop :=
  | step_op o d fl : other_op o -> step (d, fl) ((run_op o d).2, fl)
  | step_claimed id p now d d' c fl :
      claimChallenge id p now d = (Ok (Some c), d') -> step (d, fl) (d', (cl_id c, p) :: fl)
  | step_refused id p now d d' fl : claimChallenge id p now d = (Ok None, d') -> step (d, fl) (d', fl)
  | step_judged id p passed d fl before after :
      fl = before ++ (id, p) :: after -> step (d, fl) ((recordProofResult id p passed d).2, before ++ after)
  | step_unreadable id p d fl before after :
      fl = before ++ (id, p) :: after -> step (d, fl) (d, before ++ after).

(** How many challenges of a node have a verdict; how many answers it is credited with *)
Definition verdict_of (p : string) (r : challenge_row) : bool := String.eqb (ch_peerId r) p && negb (no_verdict r).
Definition verdicts (p : string) (l : list challenge_row) : Z := count (List.filter (verdict_of p) l).
Definition credits (d : pool_db) : list (string * Z) := map (fun r => (nr_peerId r, nr_proofAnswered r)) (p_nodes d).

Record challenges_ok (s : state) : Prop := mk_challenges_ok {
  ids_distinct : NoDup (map ch_id (p_challenges s.1));
  peers_distinct : NoDup (map fst (credits s.1));
  open_no_verdict r : r ∈ p_challenges s.1 -> unanswered r = true -> no_verdict r = true;
  claims_distinct : NoDup (map fst s.2);
  claims_pending id p : (id, p) ∈ s.2 ->
    exists r, r ∈ p_challenges s.1 /\ ch_id r = c_str id /\ ch_peerId r = c_str p /\ unanswered r = false
      /\ no_verdict r = true /\ c_str id = id;
  answers_backed p n : (p, n) ∈ credits s.1 -> 0 <= n <= verdicts p (p_challenges s.1) }.

(** Every verdict that was given stays. *)
Definition verdicts_stay (l l' : list challenge_row) : Prop :=
  forall r, r ∈ l -> no_verdict r = false -> exists r', r' ∈ l' /\ ch_id r' = ch_id r /\ ch_passed r' = ch_passed r.
Lemma verdicts_stay_refl l : verdicts_stay l l.
Proof. intros r Hr _. eauto. Qed.
Lemma verdicts_stay_trans l1 l2 l3 : verdicts_stay l1 l2 -> verdicts_stay l2 l3 -> verdicts_stay l1 l3.
Proof.
  intros H1 H2 r Hr Hp. destruct (H1 r Hr Hp) as (r' & Hr' & <- & E).
  destruct (H2 r' Hr') as (r'' & ? & <- & ?); [unfold no_verdict in *; by rewrite E|]. exists r''. by rewrite <- E.
Qed.
Lemma verdicts_stay_update p f l :
  (forall r, ch_id (f r) = ch_id r) -> (forall r, r ∈ l -> p r = true -> no_verdict r = false -> ch_passed (f r) = ch_passed r) ->
  verdicts_stay l (update_where p f l).
Proof.
  intros Hid Hf r Hr Hn. exists (if p r then f r else r). split.
  - unfold update_where. by apply (list_elem_of_fmap_2 (fun r => if p r then f r else r)).
  - destruct (p r) eqn:E; [split; [apply Hid|by apply Hf]|done].
Qed.

Lemma c_str_idem s : c_str (c_str s) = c_str s.
Proof.
  unfold c_str. f_equal. rewrite chars_str. induction (chars s) as [|c l IH]; cbn; [done|].
  destruct (byteZ c =? 0) eqn:E; cbn; [done|]. rewrite E. by f_equal.
Qed.

Lemma count_app {R} (l k : list R) : count (l ++ k) = count l + count k.
Proof. unfold count. rewrite length_app. lia. Qed.
Lemma count_nonneg {R} (l : list R) : 0 <= count l.
Proof. unfold count. lia. Qed.

(** A row of a table with distinct keys is the only one with its key. *)
Lemma select_by_key {R} (key : R -> string) (l : list R) (r : R) (p : R -> bool) :
  NoDup (map key l) -> r ∈ l -> p r = true -> (forall x, p x = true -> key x = key r) -> select_where p l = [r].
Proof.
  intros Hn Hr Hp Hk. unfold select_where. induction l as [|x l IH]; [by apply elem_of_nil in Hr|].
  cbn in *. apply NoDup_cons in Hn as [Hx Hn].
  assert (forall y, y ∈ l -> key y <> key x) as Hne.
  { intros y Hy E. apply Hx. rewrite <- E. by apply (list_elem_of_fmap_2 key). }
  apply elem_of_cons in Hr as [->|Hr].
  - rewrite Hp. f_equal. destruct (List.filter p l) as [|y k] eqn:E; [done|].
    assert (y ∈ List.filter p l) as Hy by (rewrite E; left).
    apply list_elem_of_In, List.filter_In in Hy as [Hy%list_elem_of_In Hpy].
    by destruct (Hne y Hy (Hk y Hpy)).
  - destruct (p x) eqn:E; [by destruct (Hne r Hr); rewrite (Hk x E)|]. by apply IH.
Qed.


(** *** Counting verdicts through an update *)
Section update.
Context (p : challenge_row -> bool) (f : challenge_row -> challenge_row).
Hypothesis f_id : forall r, ch_id (f r) = ch_id r.
Hypothesis f_peer : forall r, ch_peerId (f r) = ch_peerId r.
Hypothesis f_keeps : forall r, p r = true -> no_verdict r = false -> no_verdict (f r) = false.

Lemma update_ids l : map ch_id (update_where p f l) = map ch_id l.
Proof. by apply map_update_where. Qed.
Lemma verdicts_cons q r l : verdicts q (r :: l) = (if verdict_of q r then 1 else 0) + verdicts q l.
Proof. unfold verdicts, count. cbn. destruct (verdict_of q r); cbn [length]; lia. Qed.
Lemma verdict_update q r : verdict_of q r = true -> p r = true -> verdict_of q (f r) = true.
Proof.
  unfold verdict_of. rewrite f_peer, !andb_true_iff, !negb_true_iff. intros [-> Hn] Hp. split; [done|by apply f_keeps].
Qed.
Lemma verdicts_update q l : verdicts q l <= verdicts q (update_where p f l).
Proof.
  induction l as [|r l IH]; [done|]. unfold update_where in *. cbn [map]. rewrite !verdicts_cons.
  destruct (p r) eqn:Ep, (verdict_of q r) eqn:Ev; try lia.
  - rewrite verdict_update by done. lia.
  - destruct (verdict_of q (f r)); lia.
Qed.
Lemma verdicts_update_more q l r :
  r ∈ l -> p r = true -> verdict_of q r = false -> verdict_of q (f r) = true ->
  verdicts q l + 1 <= verdicts q (update_where p f l).
Proof.
  intros Hr Hp Hn Hv. induction l as [|x l IH]; [by apply elem_of_nil in Hr|].
  change (update_where p f (x :: l)) with ((if p x then f x else x) :: update_where p f l).
  rewrite !verdicts_cons. pose proof (verdicts_update q l). apply elem_of_cons in Hr as [<-|Hr].
  - rewrite Hp, Hn, Hv. lia.
  - specialize (IH Hr). destruct (p x) eqn:Ep, (verdict_of q x) eqn:Ev; try lia.
    + rewrite verdict_update by done. lia.
    + destruct (verdict_of q (f x)); lia.
Qed.
End update.

(** *** The writers *)
Definition view (d : pool_db) : list challenge_row * list (string * Z) := (p_challenges d, credits d).
Lemma view_ok d d' fl : view d' = view d -> challenges_ok (d, fl) -> challenges_ok (d', fl).
Proof.
  intros [= Ec Ep] [H1 H2 H3 H4 H5 H6]. split; cbn in *; by rewrite ?Ec, ?Ep.
Qed.

Definition quiet (o : pool_op) : Prop :=
  match o with OpUpsert _ _ _ _ _ | OpInsertChallenge _ | OpExpire _ | OpClaim _ _ _ | OpProof _ _ _ => False | _ => True end.
Lemma keeps_view o : quiet o -> keeps view (run_op o).
Proof.
  intros Ho. destruct o; try done; cbn [run_op];
    try (apply keeps_bind; [apply keeps_removePermanentCids; done|intros; apply keeps_ret]);
    unfold_ops; keeps_all; try done; intros d; unfold view, credits; cbn; f_equal; by apply map_update_where.
Qed.

Lemma upsert_ok p a s ip now d fl : challenges_ok (d, fl) -> challenges_ok ((upsertNode p a s ip now d).2, fl).
Proof.
  intros H. unfold upsertNode, update_node, mbind, M_bind, get, modify. cbn.
  destruct (select_where (is_node p) (p_nodes d)) as [|r l] eqn:E; cbn.
  - destruct H as [H1 H2 H3 H4 H5 H6]. split; cbn in *; try done; unfold credits in *; cbn; rewrite !map_app; cbn.
    + apply NoDup_app. split_and!; [done| |repeat constructor; by apply not_elem_of_nil].
      intros q Hq Hq'%list_elem_of_singleton. subst q.
      change (c_str p ∈ fst <$> map (fun r => (nr_peerId r, nr_proofAnswered r)) (p_nodes d)) in Hq.
      apply list_elem_of_fmap in Hq as ([q n] & Eq & Hq). cbn in Eq. subst q.
      apply list_elem_of_fmap in Hq as (r & [= Er _] & Hr).
      assert (r ∈ select_where (is_node p) (p_nodes d)) as Hsel.
      { apply list_elem_of_In, List.filter_In. split; [by apply list_elem_of_In|].
        unfold is_node. apply String.eqb_eq. by rewrite Er. }
      rewrite E in Hsel. by apply elem_of_nil in Hsel.
    + intros q n [Hq|[= -> ->]%list_elem_of_singleton]%elem_of_app; [by apply H6|]. split; [done|apply count_nonneg].
  - case_match; cbn; [done|]. apply (view_ok d); [|done]. unfold view, credits. cbn. f_equal.
    by apply map_update_where.
Qed.

Lemma insertChallenge_ok c d fl :
  challenges_ok (d, fl) ->
  challenges_ok ((insertChallenge c d).2, fl) /\ verdicts_stay (p_challenges d) (p_challenges (insertChallenge c d).2).
Proof.
  intros H. unfold insertChallenge, modify, insert_or_ignore, on_challenges. cbn. set (r := mk_challenge_row _ _ _ _ _ _ _ _).
  destruct (existsb _ (p_challenges d)) eqn:E; cbn; [split; [by apply (view_ok d)|apply verdicts_stay_refl]|].
  split; [|intros x Hx _; exists x; split; [by apply elem_of_app; left|done]].
  destruct H as [H1 H2 H3 H4 H5 H6]. split; cbn in *; rewrite ?E; try done.
  - rewrite map_app. apply NoDup_app. split_and!; [done| |repeat constructor; by apply not_elem_of_nil].
    intros i Hi Hi'%list_elem_of_singleton. subst i.
    change (ch_id r ∈ ch_id <$> p_challenges d) in Hi. apply list_elem_of_fmap in Hi as (x & Ei & Hx).
    apply not_true_iff_false in E. destruct E.
    apply existsb_exists. exists x. split; [by apply list_elem_of_In|]. rewrite <- Ei. apply String.eqb_refl.
  - intros x [Hx| ->%list_elem_of_singleton]%elem_of_app; [by apply H3|done].
  - intros id p Hin. destruct (H5 id p Hin) as (x & Hx & ?). exists x. split; [by apply elem_of_app; left|done].
  - intros p n Hpn. specialize (H6 p n Hpn). unfold verdicts in *. rewrite List.filter_app, count_app.
    pose proof (count_nonneg (List.filter (verdict_of p) [r])). lia.
Qed.

(** An update of open challenges that closes them leaves the claimed ones alone. *)
Lemma close_ok p f d d' fl :
  (forall r, ch_id (f r) = ch_id r) ->
  (forall r, p r = true -> unanswered r = true) -> (forall r, p r = true -> unanswered (f r) = false) ->
  p_challenges d' = update_where p f (p_challenges d) -> map fst (credits d') = map fst (credits d) ->
  (forall q n, (q, n) ∈ credits d' -> 0 <= n <= verdicts q (p_challenges d')) ->
  challenges_ok (d, fl) -> challenges_ok (d', fl).
Proof.
  intros Hid Hopen Hclose Ec Ep Hback [H1 H2 H3 H4 H5 H6]. split; cbn in *; [| | |done| |done].
  - by rewrite Ec, update_ids.
  - by rewrite Ep.
  - intros r. rewrite Ec. intros (x & Hx & ->)%elem_of_update. destruct (p x) eqn:E; [|by apply H3].
    by rewrite Hclose.
  - intros id q Hin. destruct (H5 id q Hin) as (r & Hr & Hi & Hq & Ha & Hn & Hc). exists r.
    split_and!; try done. rewrite Ec. apply elem_of_update. exists r. split; [done|].
    destruct (p r) eqn:E; [|done]. by rewrite Hopen in Ha.
Qed.

Lemma claim_cases id p now d fl :
  challenges_ok (d, fl) ->
  claimChallenge id p now d = (Ok None, d)
  \/ exists r, r ∈ p_challenges d /\ ch_id r = c_str id /\ ch_peerId r = c_str p /\ unanswered r = true
       /\ now - CHALLENGE_DEADLINE_SECONDS <= ch_issuedAt r
       /\ claimChallenge id p now d
          = (Ok (Some (readChallenge r)),
             on_challenges (update_where (fun r => String.eqb (ch_id r) (c_str id) && unanswered r) (answer now)) d).
Proof.
  intros [H1 _ _ _ _ _]. cbn in H1. unfold claimChallenge, mbind, M_bind, get, modify, mret, M_ret.
  destruct (select_where _ (p_challenges d)) as [|r l] eqn:E; [by left|right].
  assert (r ∈ r :: l) as Hr by left. rewrite <- E in Hr. unfold select_where in Hr.
  apply list_elem_of_In, List.filter_In in Hr as [Hr%list_elem_of_In Hp].
  rewrite !andb_true_iff, !String.eqb_eq, Z.leb_le in Hp. destruct Hp as [[[Hi Hq] Hu] Ht].
  exists r. split_and!; try done.
  rewrite (select_by_key ch_id (p_challenges d) r (fun r => String.eqb (ch_id r) (c_str id) && unanswered r)); try done.
  - by rewrite Hi, String.eqb_refl.
  - intros x [Hx%String.eqb_eq _]%andb_true_iff. by rewrite Hx, Hi.
Qed.

Lemma claimed_ok id p now d d' c fl :
  challenges_ok (d, fl) -> claimChallenge id p now d = (Ok (Some c), d') ->
  challenges_ok (d', (cl_id c, p) :: fl) /\ verdicts_stay (p_challenges d) (p_challenges d').
Proof.
  intros H Hclaim. destruct (claim_cases id p now d fl H) as [E|(r & Hr & Hi & Hq & Hu & _ & E)];
    rewrite E in Hclaim; [done|]. injection Hclaim as <- <-. cbn [on_challenges p_challenges].
  set (claim := fun r => String.eqb (ch_id r) (c_str id) && unanswered r).
  assert (challenges_ok (on_challenges (update_where claim (answer now)) d, fl)) as [H1 H2 H3 H4 H5 H6].
  { apply (close_ok claim (answer now) d); try done.
    - by intros x [_ ?]%andb_true_iff.
    - intros q n Hin. cbn. pose proof (answers_backed _ H q n Hin). cbn in *.
      pose proof (verdicts_update claim (answer now) ltac:(done) ltac:(done) q (p_challenges d)). lia. }
  split; [|by apply verdicts_stay_update].
  assert (ch_id r ∉ map fst fl) as Hfresh.
  { intros Hin. change (ch_id r ∈ fst <$> fl) in Hin. apply list_elem_of_fmap in Hin as ([i q] & Ei & Hin). cbn in Ei.
    destruct (claims_pending _ H i q Hin) as (x & Hx & Hxi & _ & Hxa & _ & Hci). cbn in Hx.
    assert (x = r) as ->; [|by rewrite Hu in Hxa].
    apply list_elem_of_lookup in Hx as [a Ha]. apply list_elem_of_lookup in Hr as [b Hb].
    assert (a = b) as ->; [|congruence].
    apply (NoDup_lookup _ a b (ch_id x) (ids_distinct _ H)); cbn; change (map ch_id ?l) with (ch_id <$> l);
      rewrite list_lookup_fmap; [by rewrite Ha|rewrite Hb; cbn; f_equal; by rewrite Hxi, Hci]. }
  split; try done; cbn in *.
  - by apply NoDup_cons.
  - intros i q [[= -> ->]|Hin]%elem_of_cons; [|by apply H5].
    exists (answer now r). split_and!; try done.
    + apply elem_of_update. exists r. split; [done|]. unfold claim. by rewrite Hi, Hu, String.eqb_refl.
    + by rewrite Hi, c_str_idem.
    + apply (open_no_verdict _ H r Hr Hu).
    + by rewrite Hi, c_str_idem.
Qed.

Lemma row_unique (l : list challenge_row) r x :
  NoDup (map ch_id l) -> r ∈ l -> x ∈ l -> ch_id x = ch_id r -> x = r.
Proof.
  intros Hn [a Ha]%list_elem_of_lookup [b Hb]%list_elem_of_lookup E. assert (a = b) as ->; [|congruence].
  apply (NoDup_lookup _ a b (ch_id r) Hn); change (map ch_id ?l) with (ch_id <$> l); rewrite list_lookup_fmap;
    [by rewrite Ha|by rewrite Hb; cbn; f_equal].
Qed.

Lemma judged_ok id p passed d before after :
  challenges_ok (d, before ++ (id, p) :: after) ->
  challenges_ok ((recordProofResult id p passed d).2, before ++ after)
  /\ verdicts_stay (p_challenges d) (p_challenges (recordProofResult id p passed d).2).
Proof.
  intros H. pose proof (ids_distinct _ H) as Hids. cbn in Hids. assert ((id, p) ∈ before ++ (id, p) :: after) as Hin by set_solver.
  destruct (claims_pending _ H id p Hin) as (r & Hr & Hi & Hq & Ha & Hn & Hc). cbn in Hr.
  set (judged := fun r => String.eqb (ch_id r) (c_str id) && String.eqb (ch_peerId r) (c_str p) && no_verdict r).
  assert (judged r = true) as Hj by (unfold judged; by rewrite Hi, Hq, !String.eqb_refl).
  assert (forall x, judged x = true -> ch_id x = ch_id r) as Hkey.
  { intros x. unfold judged. rewrite !andb_true_iff, String.eqb_eq. intros [[-> _] _]. done. }
  assert (forall x, x ∈ p_challenges d -> judged x = true -> x = r) as Honly.
  { intros x Hx Hjx. apply (row_unique (p_challenges d)); [exact Hids|done|done|by apply Hkey]. }
  unfold recordProofResult, update_node, mbind, M_bind, get, modify. cbn [snd fst].
  change (select_where _ (p_challenges d)) with (select_where judged (p_challenges d)).
  rewrite (select_by_key ch_id _ r judged Hids) by done. change (count [r] =? 1) with true. cbn [negb snd].
  fold judged.
  split; [|apply verdicts_stay_update; [done|]; intros x Hx Hjx Hv; rewrite (Honly x Hx Hjx) in Hv; by rewrite Hn in Hv].
  destruct H as [H1 H2 H3 H4 H5 H6]. cbn [fst snd] in *. split; cbn [fst snd p_challenges on_nodes on_challenges].
  - by rewrite update_ids.
  - unfold credits in *. cbn [p_nodes on_nodes on_challenges]. rewrite map_map in *.
    change (NoDup (map nr_peerId (p_nodes d))) in H2. change (NoDup (map nr_peerId (update_where (is_node p)
      (fun r0 => set_proof (dadd (dmul PROOF_EMA (if passed then dbl 1 else dbl 0))
        (dmul (dsub (dbl 1) PROOF_EMA) (nr_proofScore r0))) (nr_proofAnswered r0 + 1) r0) (p_nodes d)))).
    by rewrite map_update_where.
  - intros x (y & Hy & ->)%elem_of_update. destruct (judged y) eqn:E; [|by apply H3].
    rewrite (Honly y Hy E). unfold unanswered in *. cbn. by rewrite Ha.
  - rewrite map_app in *. cbn in H4. apply NoDup_app in H4 as (? & Hd & [_ ?]%NoDup_cons). apply NoDup_app.
    split_and!; [done| |done]. intros x Hx Hx'. apply (Hd x Hx). by right.
  - intros i q Hiq. destruct (H5 i q) as (x & Hx & Hxi & Hxq & Hxa & Hxn & Hxc); [set_solver|].
    exists x. split_and!; try done. apply elem_of_update. exists x. split; [done|].
    destruct (judged x) eqn:E; [|done]. exfalso. apply Hkey in E. rewrite Hxi, Hi, Hc, Hxc in E. subst i.
    rewrite map_app in H4. cbn in H4. apply NoDup_app in H4 as (_ & Hd & [Hd' _]%NoDup_cons).
    apply elem_of_app in Hiq as [Hiq|Hiq].
    + apply (Hd id); [|by left]. change (id ∈ fst <$> before). apply list_elem_of_fmap. by exists (id, q).
    + apply Hd'. change (id ∈ fst <$> after). apply list_elem_of_fmap. by exists (id, q).
  - intros q n Hqn. unfold credits in Hqn. cbn in Hqn. change (map ?g ?l) with (g <$> l) in Hqn.
    apply list_elem_of_fmap in Hqn as (m & [= -> ->] & (m0 & Hm0 & ->)%elem_of_update).
    assert ((nr_peerId m0, nr_proofAnswered m0) ∈ credits d) as Hm by by apply (list_elem_of_fmap_2 (fun r => (nr_peerId r, nr_proofAnswered r))).
    specialize (H6 _ _ Hm).
    destruct (is_node p m0) eqn:E; cbn.
    + unfold is_node in E. apply String.eqb_eq in E. rewrite E in *.
      pose proof (verdicts_update_more judged (judge (Some passed)) ltac:(done) ltac:(done) (c_str p) (p_challenges d) r Hr Hj) as Hmore.
      unfold verdict_of in Hmore. cbn in Hmore. rewrite Hq, String.eqb_refl, Hn in Hmore. specialize (Hmore eq_refl eq_refl). lia.
    + pose proof (verdicts_update judged (judge (Some passed)) ltac:(done) ltac:(done) (nr_peerId m0) (p_challenges d)). lia.
Qed.

Lemma expire_ok now d fl :
  challenges_ok (d, fl) ->
  challenges_ok ((expireChallenges now d).2, fl)
  /\ verdicts_stay (p_challenges d) (p_challenges (expireChallenges now d).2).
Proof.
  intros H. unfold expireChallenges, mbind, M_bind, get, modify, mret, M_ret. cbn [fst snd on_nodes p_nodes p_challenges].
  set (late := fun r => unanswered r && (ch_issuedAt r <? now - CHALLENGE_DEADLINE_SECONDS)).
  set (overdue := map ch_peerId (select_where late (p_challenges d))).
  set (penalised := fun r => (0 <? nr_proofAnswered r) && bool_decide (nr_peerId r ∈ overdue)).
  set (score := fun r => set_proof (dmul (dsub (dbl 1) PROOF_EMA) (nr_proofScore r)) (nr_proofAnswered r + 1) r).
  set (nodes' := update_where penalised score (p_nodes d)).
  set (scored := map nr_peerId (select_where (fun r => 0 <? nr_proofAnswered r) nodes')).
  set (close := fun r => judge (if bool_decide (ch_peerId r ∈ scored) then Some false else None) (answer now r)).
  assert (forall r, r ∈ p_challenges d -> late r = true -> no_verdict r = true) as Hopen.
  { intros r Hr [Hu _]%andb_true_iff. by apply (open_no_verdict _ H). }
  (* an open challenge has no verdict, so closing it can only add one *)
  set (late' := fun r => late r && no_verdict r).
  assert (update_where late close (p_challenges d) = update_where late' close (p_challenges d)) as Elate.
  { unfold update_where. apply map_ext_in. intros r Hr%list_elem_of_In. unfold late'.
    destruct (late r) eqn:E; [|done]. by rewrite (Hopen r Hr E). }
  assert (forall r, late' r = true -> no_verdict r = false -> no_verdict (close r) = false) as Hkeeps
    by (intros r [_ ->]%andb_true_iff; done).
  split.
  - apply (close_ok late close d); try done.
    + by intros r [? _]%andb_true_iff.
    + unfold credits. cbn. fold nodes'. rewrite !map_map. unfold nodes'. by rewrite map_update_where.
    + intros q n Hin. cbn. rewrite Elate. unfold credits in Hin. cbn in Hin. fold nodes' in Hin.
      change (map ?g ?l) with (g <$> l) in Hin. apply list_elem_of_fmap in Hin as (m & [= -> ->] & Hm).
      pose proof Hm as (m0 & Hm0 & Em)%elem_of_update.
      assert ((nr_peerId m0, nr_proofAnswered m0) ∈ credits d) as Hc
        by by apply (list_elem_of_fmap_2 (fun r => (nr_peerId r, nr_proofAnswered r))).
      apply (answers_backed _ H) in Hc. cbn in Hc.
      destruct (penalised m0) eqn:E; subst m; cbn.
      * unfold penalised in E. apply andb_true_iff in E as [Hpos Hover]. apply bool_decide_eq_true in Hover.
        apply list_elem_of_fmap in Hover as (r & Er & Hr). unfold select_where in Hr.
        apply list_elem_of_In, List.filter_In in Hr as [Hr%list_elem_of_In Hl].
        pose proof (Hopen r Hr Hl) as Hnv.
        assert (nr_peerId m0 ∈ scored) as Hs.
        { apply list_elem_of_fmap. exists (score m0). split; [done|]. unfold select_where.
          apply list_elem_of_In, List.filter_In. split; [by apply list_elem_of_In|].
          apply Z.ltb_lt. apply Z.ltb_lt in Hpos. unfold score, set_proof. cbn. lia. }
        pose proof (verdicts_update_more late' close ltac:(done) Hkeeps (nr_peerId m0) (p_challenges d) r Hr) as Hmore.
        unfold late' at 1, verdict_of, close at 1 2 in Hmore. cbn in Hmore. rewrite Hl, Hnv, Er, String.eqb_refl in Hmore.
        rewrite bool_decide_true in Hmore by by rewrite <- Er. specialize (Hmore eq_refl eq_refl eq_refl). rewrite Er in *. lia.
      * pose proof (verdicts_update late' close ltac:(done) Hkeeps (nr_peerId m0) (p_challenges d)). lia.
  - change (verdicts_stay (p_challenges d) (update_where late close (p_challenges d))). rewrite Elate. apply verdicts_stay_update; [done|]. intros r _ [_ ->]%andb_true_iff. done.
Qed.

Lemma drop_claim_ok d before c after : challenges_ok (d, before ++ c :: after) -> challenges_ok (d, before ++ after).
Proof.
  intros [H1 H2 H3 H4 H5 H6]. split; cbn in *; try done.
  - rewrite map_app in *. cbn in H4. apply NoDup_app in H4 as (? & Hd & [_ ?]%NoDup_cons). apply NoDup_app.
    split_and!; [done| |done]. intros x Hx Hx'. apply (Hd x Hx). by right.
  - intros i q Hiq. apply H5. set_solver.
Qed.

Lemma step_ok s s' : challenges_ok s -> step s s' -> challenges_ok s' /\ verdicts_stay (p_challenges s.1) (p_challenges s'.1).
Proof.
  intros H Hstep. destruct Hstep as [o d fl Ho|id p now d d' c fl E|id p now d d' fl E|id p b d fl before after ->
    |id p d fl before after ->]; cbn [fst snd].
  - destruct o; try done; try (split; [by eapply view_ok; [eapply keeps_view; exact I|]|]);
      try (assert (view (run_op _ d).2 = view d) as [= -> _]; [by apply keeps_view|apply verdicts_stay_refl]).
    + split; [by apply upsert_ok|]. cbn [run_op]. unfold upsertNode, update_node, mbind, M_bind, get, modify. cbn.
      destruct (select_where _ _); [apply verdicts_stay_refl|]. case_match; apply verdicts_stay_refl.
    + by apply insertChallenge_ok.
    + by apply expire_ok.
  - by apply (claimed_ok id p now d d' c fl).
  - destruct (claim_cases id p now d fl H) as [E'|(r & _ & _ & _ & _ & _ & E')]; rewrite E in E'; [|done].
    injection E' as ->. split; [done|apply verdicts_stay_refl].
  - by apply judged_ok.
  - split; [by eapply drop_claim_ok|apply verdicts_stay_refl].
Qed.

Lemma steps_ok s s' :
  challenges_ok s -> rtc step s s' -> challenges_ok s' /\ verdicts_stay (p_challenges s.1) (p_challenges s'.1).
Proof.
  intros H Hs. induction Hs as [s|s s1 s' H1 _ IH]; [split; [done|apply verdicts_stay_refl]|].
  destruct (step_ok s s1 H H1) as [Hok Hv]. destruct (IH Hok) as [? Hv']. split; [done|].
  by apply (verdicts_stay_trans _ _ _ Hv).
Qed.
Lemma empty_ok : challenges_ok (buildSchema, []).
Proof. split; cbn; try constructor; intros; by apply elem_of_nil in H || (match goal with H : _ ∈ [] |- _ => by apply elem_of_nil in H end). Qed.

(** C9: However requests, the verifier and the other threads interleave from an
    empty database on: a node is never credited with more answers than it has
    challenges with a verdict, a challenge is never claimed by two answers at
    once or claimed again after it was judged, and a verdict never changes. *)
Theorem challenge_scored_once s s' :
  rtc step (buildSchema, []) s -> rtc step s s' ->
  (forall p n, (p, n) ∈ credits s'.1 -> 0 <= n <= verdicts p (p_challenges s'.1))
  /\ NoDup (map fst s'.2)
  /\ (forall id p, (id, p) ∈ s'.2 -> exists r, r ∈ p_challenges s'.1 /\ ch_id r = id /\ ch_peerId r = c_str p /\ ch_passed r = None)
  /\ verdicts_stay (p_challenges s.1) (p_challenges s'.1).
Proof.
  intros H1 H2. destruct (steps_ok _ _ empty_ok H1) as [Hs _]. destruct (steps_ok _ _ Hs H2) as [Hs' Hv].
  split_and!; [by apply answers_backed|by apply claims_distinct| |done].
  intros id p Hin. destruct (claims_pending _ Hs' id p Hin) as (r & Hr & Hi & Hq & _ & Hn & Hc).
  exists r. rewrite <- Hc at 1. split_and!; try done. unfold no_verdict in Hn. by destruct (ch_passed r).
Qed.

(** A node is registered, asked, answers correctly; a late second answer finds nothing to claim. *)
Definition asked : Challenge := mk_Challenge "c1" "QmA" "bafy1" 0 1000 100.
Definition asked_db : pool_db := (insertChallenge asked (upsertNode "QmA" "DA" "s" "" 90 buildSchema).2).2.
Lemma asked_run : rtc step (buildSchema, []) (asked_db, []).
Proof.
  eapply rtc_l; [apply (step_op (OpUpsert "QmA" "DA" "s" "" 90)); exact I|].
  eapply rtc_l; [apply (step_op (OpInsertChallenge asked)); exact I|]. apply rtc_refl.
Qed.
Definition claimed_db : pool_db := (claimChallenge "c1" "QmA" 150 asked_db).2.
Definition judged_db : pool_db := (recordProofResult "c1" "QmA" true claimed_db).2.
Lemma challenge_scored_once_witness :
  credits judged_db = [("QmA"%string, 1)] /\ verdicts "QmA" (p_challenges judged_db) = 1
  /\ (forall p n, (p, n) ∈ credits judged_db -> 0 <= n <= verdicts p (p_challenges judged_db)).
Proof.
  split; [vm_compute; reflexivity|]. split; [vm_compute; reflexivity|].
  apply (challenge_scored_once (asked_db, []) (judged_db, []) asked_run).
  eapply rtc_l; [apply (step_claimed "c1" "QmA" 150); vm_compute; reflexivity|].
  eapply rtc_l; [apply (step_judged "c1" "QmA" true _ _ [] []); reflexivity|]. apply rtc_refl.
Defined.

(** The penalty for ignored challenges counts nodes, not challenges: two that
    are overdue together cost a node one step of its score. *)
Definition ignored_db : pool_db :=
  (insertChallenge (mk_Challenge "c3" "QmA" "bafy1" 0 1000 330)
    (insertChallenge (mk_Challenge "c2" "QmA" "bafy1" 0 1000 200) judged_db).2).2.
Lemma two_ignored_one_fail :
  verdicts "QmA" (p_challenges (expireChallenges 500 ignored_db).2) = 3
  /\ credits (expireChallenges 500 ignored_db).2 = [("QmA"%string, 2)].
Proof. by vm_compute. Qed.
