(* ===== verification/PoolVerifier.v ===== *)
(** PoolVerifier: who the pool believes to be storing its files
    (src/pool/PoolVerifier.cpp): one round of the verifier's thread over its
    database, and the theorem that a node is marked reachable only when it could
    be dialled, when the network names it as a provider of a file that can be
    fetched, or when its registered id contains the pool's own.

    The pool's IPFS node is an interface: the body of its answer to a call, or
    nothing when the call fails.  The thread asks one thing after another, so
    the answers of a round are functions of the question. *)

From Stdlib Require Import Floats.SpecFloat.
From S2P Require Import Prelude.
From S2P Require Import BitIOCodec.
From S2P Require Import CString.
From S2P Require Import Sql.
From S2P Require Import StoragePlan.
From S2P Require Import StoragePlanTheorems.
From S2P Require Import PoolDatabase.
From S2P Require Import PoolText.
From S2P Require Import PoolServer.
From S2P Require Import PoolTheorems.

(** ** The calls *)
Class Swarm := {
  ipfs_id : option string;                      (** id *)
  ipfs_findprovs : string -> option string;     (** routing/findprovs?arg=...&num-providers=20 *)
  ipfs_cat256 : string -> option string;        (** cat?arg=...&length=256 *)
  ipfs_connect : string -> option string        (** swarm/connect?arg=... *)
}.

(** The text between the next two quotes *)
Definition between_quotes (l : text) : option string :=
  match (split_at quote l).2 with
  | None => None
  | Some rest => match split_at quote rest with
                 | (id, Some _) => Some (str id)
                 | _ => None
                 end
  end.
Definition local_peer_id (answer : option string) : string :=
  match answer with
  | None => ""
  | Some body =>
      let l := chars body in
      let key s := quote :: chars s ++ [quote] in
      match (match find_sub (key "ID") l with Some p => Some p | None => find_sub (key "id") l end) with
      | None => ""
      | Some p =>
          (** without a colon the search starts at [npos + 1], which is 0 *)
          let rest := match (split_at (ch 58) (drop p l)).2 with Some r => r | None => l end in
          default "" (between_quotes rest)
      end
  end%string.

Fixpoint provider_ids (fuel : nat) (l : text) : gset string :=
  match fuel with
  | O => ∅
  | S fuel =>
      let key := quote :: chars "ID" ++ [quote; ch 58; quote] in
      match find_sub key l with
      | None => ∅
      | Some p =>
          match split_at quote (drop (p + length key) l) with
          | (id, Some rest) => (if bool_decide (id = []) then ∅ else {[str id]}) ∪ provider_ids fuel rest
          | _ => ∅
          end
      end
  end.

Record verifier := mk_verifier { v_db : pool_db; _probesAttempted : Z; _probesSucceeded : Z }.
Definition on_vdb {A} (m : M pool_db A) : M verifier A := fun v =>
  let '(o, db) := m (v_db v) in (o, mk_verifier db (_probesAttempted v) (_probesSucceeded v)).
Definition probe_attempted (v : verifier) : verifier := mk_verifier (v_db v) (u64 (_probesAttempted v + 1)) (_probesSucceeded v).
Definition probe_succeeded (v : verifier) : verifier := mk_verifier (v_db v) (_probesAttempted v) (u64 (_probesSucceeded v + 1)).

Section verifier.
Context {HS : Swarm} {HK : Kubo}.

Definition findProviders (cid : string) : gset string :=
  if String.eqb cid "" then ∅
  else match ipfs_findprovs (urlEscape cid) with
       | None => ∅
       | Some body => provider_ids (length (chars body)) (chars body)
       end.

Definition error_envelope (body : string) : bool :=
  contains (quote :: chars "Type" ++ [quote; ch 58; quote] ++ chars "error" ++ [quote]) (chars body).
Definition fetchable (cid : string) : bool :=
  if String.eqb cid "" then false
  else match ipfs_cat256 (urlEscape cid) with
       | None => false
       | Some body => if String.eqb body "" then false else negb (error_envelope body)
       end.

Definition dialPeer (peer : string) : bool :=
  let target := if contains [ch 47] (chars peer) then peer else ("/p2p/" ++ peer)%string in
  match ipfs_connect (urlEscape target) with
  | None => false
  | Some body =>
      if String.eqb body "" then false
      else if error_envelope body then false
      else contains (chars "success") (chars body)
  end.

Definition names_peer (myId : string) (prov : string) : bool := String.eqb (extractPeerId prov) myId.
Definition verifyPeer (peer : string) (providers : gset string) : bool :=
  if dialPeer peer then true
  else
    let myId := extractPeerId peer in
    if String.eqb myId "" then false
    else existsb (fun prov => negb (String.eqb prov "") && names_peer myId prov) (elements providers).

(** ** A round *)
Definition is_self (localPeerId peer : string) : bool :=
  negb (String.eqb localPeerId "") && contains (chars localPeerId) (chars peer).
Definition hits (peer : string) (samples : list (gset string)) : Z :=
  let myId := extractPeerId peer in
  count (List.filter (fun provs => existsb (fun id => negb (String.eqb myId "") && names_peer myId id) (elements provs)) samples).
Definition coverage_of (isSelf : bool) (peer : string) (samples : list (gset string)) : spec_float :=
  if isSelf then dbl 1
  else match samples with
       | [] => dbl 0
       | _ => ddiv (dbl (hits peer samples)) (dbl (count samples))
       end.

Definition verify_one (localPeerId : string) (providers : gset string) (samples : list (gset string))
    (now : string -> Z) (peer : string) : M verifier unit :=
  modify probe_attempted;;
  let isSelf := is_self localPeerId peer in
  let ok := if isSelf then true else verifyPeer peer providers in
  (if ok : bool
   then modify probe_succeeded;; on_vdb (recordVerifySuccess peer (now peer))
   else on_vdb (recordVerifyFailure peer));;
  on_vdb (updateNodeScores peer (coverage_of isSelf peer samples) (isSelf || negb (bool_decide (samples = []))) ok).

(** [started], [now] of a peer and [later] are what the clock says at the calls
    of the database that read it; the two orders are SQLite's RANDOM(). *)
Definition verify_round (random random' : list string -> list string) (started : Z) (now : string -> Z) (later : Z)
    : M verifier unit :=
  peers ← on_vdb (getPeerIdsForVerification 10 started);
  cids ← on_vdb (getSampleCids random 6);
  let contentLive := existsb fetchable cids in
  let samples := if contentLive then map findProviders cids else [] in
  let providers := ⋃ samples in
  for_each peers (verify_one (local_peer_id ipfs_id) providers samples now);;
  missing ← on_vdb (getCidsMissingSize random' 5);
  for_each missing (fun cid =>
    size ← lift (fileSize cid);
    match size with
    | Some n => on_vdb (setCidSize cid n)
    | None => mret tt
    end);;
  on_vdb (expireChallenges later);;
  mret tt.

End verifier.

(** ** What a round leaves behind *)
Section spec.
Context {HS : Swarm} {HK : Kubo}.

(** A sampled file can be fetched, and the network names [peer] as a provider
    of a sampled file. *)
Definition provides (cids : list string) (peer : string) : Prop :=
  existsb fetchable cids = true
  /\ exists cid prov, cid ∈ cids /\ prov ∈ findProviders cid /\ prov <> ""%string
     /\ extractPeerId prov = extractPeerId peer /\ extractPeerId peer <> ""%string.
Definition vouched (cids : list string) (peer : string) : Prop :=
  is_self (local_peer_id ipfs_id) peer = true \/ dialPeer peer = true \/ provides cids peer.

Definition verified (cids : list string) (peer : string) : bool :=
  is_self (local_peer_id ipfs_id) peer
  || verifyPeer peer (⋃ (if existsb fetchable cids then map findProviders cids else [])).

Lemma verified_vouched cids peer : verified cids peer = true <-> vouched cids peer.
Proof.
  unfold verified, vouched, verifyPeer, provides. destruct (is_self _ peer); cbn; [split; auto|].
  destruct (dialPeer peer); [split; auto|]. destruct (String.eqb_spec (extractPeerId peer) "") as [E|E].
  { split; [done|]. intros [?|[?|(_ & ? & ? & _ & _ & _ & _ & []%(fun H => H E))]]; done. }
  rewrite existsb_exists. setoid_rewrite <- list_elem_of_In. setoid_rewrite elem_of_elements.
  setoid_rewrite elem_of_union_list. setoid_rewrite andb_true_iff. setoid_rewrite negb_true_iff.
  setoid_rewrite String.eqb_neq. unfold names_peer. setoid_rewrite String.eqb_eq.
  destruct (existsb fetchable cids); split.
  - intros (prov & (X & HX & Hp) & Hn & He). apply list_elem_of_fmap in HX as (cid & -> & Hc).
    right; right. split; [done|]. exists cid, prov. done.
  - intros [?|[?|(_ & cid & prov & Hc & Hp & Hn & He & _)]]; [done..|]. exists prov. split; [|done].
    exists (findProviders cid). split; [|done]. apply list_elem_of_fmap. eauto.
  - intros (prov & (X & HX & Hp) & _). by apply elem_of_nil in HX.
  - intros [?|[?|[? _]]]; done.
Qed.

(** The part of a row that says whether a node is reachable *)
Definition vrow (r : node_row) : string * Z * Z := (nr_peerId r, nr_lastVerifyOk r, nr_verifyFails r).
Definition vrows (d : pool_db) : list (string * Z * Z) := map vrow (p_nodes d).
Definition judged (cids : list string) (now : string -> Z) (peer : string) (x : string * Z * Z) : string * Z * Z :=
  if String.eqb x.1.1 (c_str peer)
  then if verified cids peer then (x.1.1, now peer, 0) else (x.1.1, x.1.2, x.2 + 1)
  else x.

Lemma keeps_on_vdb {K A} (k : pool_db -> K) (m : M pool_db A) : keeps k m -> keeps (fun v => k (v_db v)) (on_vdb m).
Proof. intros H v. unfold on_vdb. specialize (H (v_db v)). by destruct (m (v_db v)). Qed.

Lemma update_vrows peer f d :
  (forall r, nr_peerId (f r) = nr_peerId r) ->
  vrows (update_node peer f d).2
  = map (fun r => vrow (if is_node peer r then f r else r)) (p_nodes d).
Proof. intros H. unfold update_node, modify, vrows, update_where. cbn. by rewrite map_map. Qed.

Lemma verify_one_vrows cids now peer v :
  let samples := if existsb fetchable cids then map findProviders cids else [] in
  exists v', verify_one (local_peer_id ipfs_id) (⋃ samples) samples now peer v = (Ok tt, v')
  /\ vrows (v_db v') = map (judged cids now peer) (vrows (v_db v)).
Proof.
  intros samples. unfold verify_one, mbind, M_bind, modify, on_vdb, updateNodeScores.
  fold (verified cids peer).
  set (cov := coverage_of _ _ _). set (smp := _ || _). clearbody cov smp.
  assert ((if is_self (local_peer_id ipfs_id) peer then true else verifyPeer peer (⋃ samples)) = verified cids peer) as ->.
  { unfold verified. fold samples. by destruct (is_self _ peer). }
  destruct (verified cids peer) eqn:Ev; (eexists; split; [reflexivity|]); cbn;
    unfold vrows, update_where; cbn; rewrite !map_map; apply map_ext; intros r; unfold judged, is_node; cbn;
    rewrite Ev; destruct (nr_peerId r =? c_str peer)%string eqn:E; cbn; by rewrite ?E.
Qed.

Lemma verify_peers_vrows cids now peers v :
  let samples := if existsb fetchable cids then map findProviders cids else [] in
  exists v', for_each peers (verify_one (local_peer_id ipfs_id) (⋃ samples) samples now) v = (Ok tt, v')
  /\ vrows (v_db v') = map (fun x => foldl (fun x peer => judged cids now peer x) x peers) (vrows (v_db v)).
Proof.
  intros samples. revert v. induction peers as [|peer peers IH]; intros v; cbn [for_each foldl].
  - exists v. by rewrite map_id.
  - destruct (verify_one_vrows cids now peer v) as (v1 & E1 & H1). fold samples in E1.
    destruct (IH v1) as (v2 & E2 & H2). exists v2. unfold mbind, M_bind. rewrite E1. split; [done|].
    by rewrite H2, H1, map_map.
Qed.
End spec.

Section round.
Context {HS : Swarm} {HK : Kubo}.

Lemma foldl_judged cids now peers x :
  NoDup peers -> Forall (fun p => c_str p = p) peers ->
  foldl (fun x peer => judged cids now peer x) x peers
  = if bool_decide (x.1.1 ∈ peers)
    then if verified cids x.1.1 then (x.1.1, now x.1.1, 0) else (x.1.1, x.1.2, x.2 + 1)
    else x.
Proof.
  intros Hn Hc. revert x. induction peers as [|p peers IH]; intros x; cbn [foldl].
  { by rewrite bool_decide_false by (by intros ?%elem_of_nil). }
  apply NoDup_cons in Hn as [Hp Hn]. apply Forall_cons in Hc as [Ep Hc]. rewrite (IH Hn Hc). clear IH.
  unfold judged. rewrite Ep. destruct (String.eqb_spec x.1.1 p) as [->|Hx].
  - rewrite (bool_decide_true (p ∈ p :: peers)) by (left).
    by destruct (verified cids p); cbn; rewrite bool_decide_false.
  - rewrite (bool_decide_ext (x.1.1 ∈ p :: peers) (x.1.1 ∈ peers)); [done|]. rewrite elem_of_cons. naive_solver.
Qed.

Lemma map_eq_rows {A B} (f : A -> B) (g : B -> B) l l' :
  map f l' = map g (map f l) -> Forall2 (fun r r' => f r' = g (f r)) l l'.
Proof.
  revert l'. induction l as [|r l IH]; intros [|r' l'] H; cbn in H; try discriminate; [constructor|].
  injection H as H1 H2. constructor; auto.
Qed.

Lemma keeps_vrows_sizes cids :
  keeps (fun v => vrows (v_db v)) (for_each cids (fun cid =>
    size ← lift (fileSize cid);
    match size with Some n => on_vdb (setCidSize cid n) | None => mret tt end)).
Proof.
  apply keeps_for_each. intros cid. apply keeps_bind; [apply keeps_lift|intros [n|]]; [|apply keeps_ret].
  apply (keeps_on_vdb vrows). unfold setCidSize. keeps_all; done.
Qed.
Lemma keeps_vrows_expire later : keeps (fun v => vrows (v_db v)) (on_vdb (expireChallenges later)).
Proof.
  apply (keeps_on_vdb vrows). unfold expireChallenges. keeps_all; try done.
  intros d. unfold vrows. cbn. by apply map_update_where.
Qed.

Definition chosen (started : Z) (d : pool_db) : list string :=
  match (getPeerIdsForVerification 10 started d).1 with Ok l => l | _ => [] end.
Definition sampled (random : list string -> list string) (d : pool_db) : list string :=
  match (getSampleCids random 6 d).1 with Ok l => l | _ => [] end.

Lemma verify_round_vrows random random' started now later v :
  vrows (v_db (verify_round random random' started now later v).2)
  = map (fun x => foldl (fun x peer => judged (sampled random (v_db v)) now peer x) x (chosen started (v_db v)))
        (vrows (v_db v)).
Proof.
  destruct v as [db a b]. cbn.
  destruct (verify_peers_vrows (sampled random db) now (chosen started db) (mk_verifier db a b)) as (v' & E & H).
  cbn in H. rewrite <- H. clear H.
  unfold verify_round. unfold mbind at 1, M_bind at 1. unfold on_vdb at 1, getPeerIdsForVerification, gets. cbn [v_db].
  unfold mbind at 1, M_bind at 1. unfold on_vdb at 1, getSampleCids, gets. cbn [v_db _probesAttempted _probesSucceeded].
  unfold sampled, getSampleCids, gets, chosen, getPeerIdsForVerification, gets in E. cbn [fst] in E.
  unfold mbind at 1, M_bind at 1. rewrite E. cbn [snd].
  apply (keeps_bind (fun v => vrows (v_db v))).
  { apply (keeps_on_vdb vrows). unfold getCidsMissingSize. keeps_all. }
  intros missing. apply keeps_bind; [apply keeps_vrows_sizes|intros _].
  apply keeps_bind; [apply keeps_vrows_expire|intros ?; apply keeps_ret].
Qed.

Lemma chosen_peers started db :
  NoDup (map nr_peerId (p_nodes db)) ->
  NoDup (chosen started db) /\ forall p, p ∈ chosen started db -> exists r, r ∈ p_nodes db /\ p = nr_peerId r.
Proof.
  intros Hn. unfold chosen, getPeerIdsForVerification, gets. cbn [fst]. set (rows := order_by _ _).
  assert (forall r, r ∈ rows -> r ∈ p_nodes db) as Hin.
  { intros r Hr%elem_of_order_by. by apply elem_of_filter_b in Hr as [? _]. }
  assert (NoDup (map nr_peerId rows)) as Hr.
  { unfold rows, order_by. rewrite (sort_permutation _ _). unfold select_where. by apply nodup_map_filter. }
  split.
  - assert (map nr_peerId (limit (i32 10) rows) = limit (i32 10) (map nr_peerId rows)) as ->
      by (unfold limit; case_match; [done|symmetry; apply firstn_map]).
    by apply NoDup_limit.
  - intros p (r & -> & Hp)%list_elem_of_fmap. exists r. split; [|done]. by apply Hin, (elem_of_limit (i32 10)).
Qed.
End round.

(** C13: After a round the nodes outside the batch are as they were, and a node of
    the batch is marked reachable now exactly when it is vouched for: it could be
    dialled, or the network names its exact id as a provider of a sampled file
    while sampled content can be fetched, or its registered id contains the id
    of the pool's own IPFS node.  Otherwise one more failure is counted. *)
Theorem verify_round_spec {HS : Swarm} {HK : Kubo} random random' started now later v :
  let db := v_db v in
  let db' := v_db (verify_round random random' started now later v).2 in
  let cids := sampled random db in
  let peers := chosen started db in
  NoDup (map nr_peerId (p_nodes db)) -> (forall r, r ∈ p_nodes db -> c_str (nr_peerId r) = nr_peerId r) ->
  Forall2 (fun r r' =>
    let p := nr_peerId r in
    nr_peerId r' = p
    /\ (p ∉ peers -> nr_lastVerifyOk r' = nr_lastVerifyOk r /\ nr_verifyFails r' = nr_verifyFails r)
    /\ (p ∈ peers -> vouched cids p -> nr_lastVerifyOk r' = now p /\ nr_verifyFails r' = 0)
    /\ (p ∈ peers -> ~ vouched cids p ->
        nr_lastVerifyOk r' = nr_lastVerifyOk r /\ nr_verifyFails r' = nr_verifyFails r + 1))
    (p_nodes db) (p_nodes db').
Proof.
  cbv zeta. intros Hn Hc. destruct (chosen_peers started (v_db v) Hn) as [Hnd Hin].
  assert (Forall (fun p => c_str p = p) (chosen started (v_db v))) as Hstr.
  { apply Forall_forall. intros p (r & Hr & ->)%Hin. by apply Hc. }
  pose proof (verify_round_vrows random random' started now later v) as H.
  apply (map_eq_rows vrow) in H. eapply Forall2_impl; [exact H|]. clear H. intros r r' H. cbv beta in H.
  rewrite (foldl_judged _ _ _ _ Hnd Hstr) in H. cbn [vrow fst snd] in H.
  rewrite <- (verified_vouched _ (nr_peerId r)).
  unfold vrow in H. destruct (verified _ (nr_peerId r)) eqn:Ev; case_bool_decide; injection H as -> -> ->;
    split_and!; try done.
Qed.

(** One honest node that can be dialled, and a ghost. *)
Definition honest_swarm : Swarm := {|
  ipfs_id := Some ("{" ++ quoted "ID" ++ ":" ++ quoted "QmPool" ++ "}")%string;
  ipfs_findprovs := fun _ => None; ipfs_cat256 := fun _ => None;
  ipfs_connect := fun t => if contains (chars "QmHonest") (chars t) then Some "connect QmHonest success"%string else None |}.
Definition no_kubo : Kubo := {| kubo_cat := fun _ _ _ => None; kubo_stat := fun _ => None |}.
Definition two_nodes : verifier :=
  mk_verifier (upsertNode "QmGhost" "DG" "g" "" 100 (upsertNode "QmHonest" "DH" "h" "" 100 buildSchema).2).2 0 0.
Definition after_round : pool_db :=
  v_db (verify_round (HS := honest_swarm) (HK := no_kubo) (fun l => l) (fun l => l) 200 (fun _ => 201) 202 two_nodes).2.
Lemma verify_round_spec_witness :
  vrows after_round = [("QmHonest"%string, 201, 0); ("QmGhost"%string, 0, 1)]
  /\ Forall2 (fun r r' => nr_peerId r' = nr_peerId r) (p_nodes (v_db two_nodes)) (p_nodes after_round).
Proof.
  split; [vm_compute; reflexivity|].
  eapply Forall2_impl; [apply (verify_round_spec (HS := honest_swarm) (HK := no_kubo)
    (fun l => l) (fun l => l) 200 (fun _ => 201) 202 two_nodes)|].
  - apply (bool_decide_unpack _). vm_compute. exact I.
  - apply Forall_forall. repeat constructor.
  - intros r r' [E _]. exact E.
Defined.

(** Anybody can register an id that contains the pool's own: it passes every
    round with full coverage, without a node behind it. *)
Lemma embedded_id_always_verified {HS : Swarm} (before after : string) cids samples :
  let peer := (before ++ local_peer_id ipfs_id ++ after)%string in
  local_peer_id ipfs_id <> ""%string ->
  vouched cids peer /\ coverage_of (is_self (local_peer_id ipfs_id) peer) peer samples = dbl 1.
Proof.
  intros peer Hne. assert (is_self (local_peer_id ipfs_id) peer = true) as H.
  { unfold is_self. rewrite (proj2 (String.eqb_neq _ _) Hne). cbn. unfold peer. rewrite !chars_app. apply contains_middle. }
  split; [by left|]. by rewrite H.
Qed.

(** Ten nodes that never answer keep the batch to themselves: the choice goes by
    the last success, which a failure does not move, so while they stay
    registered no other node is ever verified again. *)
Definition seen (r : node_row) : string * Z * Z := (nr_peerId r, nr_lastVerifyOk r, nr_lastSeen r).
Lemma sort_map {A B} (f : A -> B) (lt : A -> A -> bool) (lt' : B -> B -> bool) l :
  (forall x y, lt x y = lt' (f x) (f y)) -> map f (sort lt l) = sort lt' (map f l).
Proof.
  intros H. unfold sort. induction l as [|x l IH]; cbn [foldr map]; [done|]. rewrite <- IH.
  generalize (foldr (insert_sorted lt) [] l). clear -H. intros k.
  induction k as [|y k IH]; cbn; [done|]. rewrite H. case_match; cbn; congruence.
Qed.
Lemma filter_map {A B} (f : A -> B) (Q : B -> bool) l : map f (List.filter (fun x => Q (f x)) l) = List.filter Q (map f l).
Proof. induction l as [|x l IH]; cbn; [done|]. case_match; cbn; congruence. Qed.

Lemma chosen_seen started db :
  chosen started db
  = map (fun x => x.1.1) (limit (i32 10) (order_by (fun a b => a.1.2 <? b.1.2)
      (List.filter (fun x => started - week <=? x.2) (map seen (p_nodes db))))).
Proof.
  unfold chosen, getPeerIdsForVerification, gets. cbn [fst]. unfold select_where, order_by.
  rewrite <- (filter_map seen (fun x => started - week <=? x.2)).
  rewrite <- (sort_map seen (fun a b => nr_lastVerifyOk a <? nr_lastVerifyOk b)) by done.
  change (fun x => started - week <=? (seen x).2) with (fun r => started - week <=? nr_lastSeen r).
  set (l := sort _ _). unfold limit. destruct (i32 10 <? 0); [by rewrite map_map|]. by rewrite firstn_map, map_map.
Qed.

Lemma verify_round_lastSeen {HS : Swarm} {HK : Kubo} random random' started now later :
  keeps (fun v => map nr_lastSeen (p_nodes (v_db v))) (verify_round random random' started now later).
Proof.
  set (k := fun v => _). assert (forall A (m : M pool_db A), keeps (fun d => map nr_lastSeen (p_nodes d)) m -> keeps k (on_vdb m)) as Hk.
  { intros A m. apply (keeps_on_vdb (fun d => map nr_lastSeen (p_nodes d))). }
  unfold verify_round, verify_one. keeps_all; try done; apply Hk;
    unfold getPeerIdsForVerification, getSampleCids, getCidsMissingSize, setCidSize, expireChallenges,
      recordVerifySuccess, recordVerifyFailure, updateNodeScores, update_node; keeps_all; try done;
    intros d; cbn; by apply map_update_where.
Qed.

Lemma unvouched_batch_chosen_again {HS : Swarm} {HK : Kubo} random random' started started' now later v :
  let db := v_db v in
  let db' := v_db (verify_round random random' started now later v).2 in
  NoDup (map nr_peerId (p_nodes db)) -> (forall r, r ∈ p_nodes db -> c_str (nr_peerId r) = nr_peerId r) ->
  (forall p, p ∈ chosen started db -> ~ vouched (sampled random db) p) ->
  (forall r, r ∈ p_nodes db -> (started - week <=? nr_lastSeen r) = (started' - week <=? nr_lastSeen r)) ->
  chosen started' db' = chosen started db.
Proof.
  intros db db' Hn Hc Hv Hw.
  pose proof (verify_round_vrows random random' started now later v) as H. apply (map_eq_rows vrow) in H. fold db db' in H.
  destruct (chosen_peers started db Hn) as [Hnd Hin].
  assert (Forall (fun p => c_str p = p) (chosen started db)) as Hstr.
  { apply Forall_forall. intros p (r & Hr & ->)%Hin. by apply Hc. }
  pose proof (verify_round_lastSeen random random' started now later v) as Hseen. cbn in Hseen. fold db db' in Hseen.
  assert (map seen (p_nodes db') = map seen (p_nodes db)) as E.
  { clear Hw Hc Hn Hin. revert Hseen. induction H as [|r r' l l' Hr _ IH]; cbn; [done|]. intros [= E1 E2]. rewrite (IH E2).
    f_equal. rewrite (foldl_judged _ _ _ _ Hnd Hstr) in Hr. unfold vrow in Hr. cbn in Hr. unfold seen.
    case_bool_decide as Hp; [|by injection Hr as -> -> _; rewrite E1].
    destruct (verified _ (nr_peerId r)) eqn:Ev; [by apply verified_vouched, (Hv _ Hp) in Ev|].
    by injection Hr as -> -> _; rewrite E1. }
  rewrite !chosen_seen, E. do 3 f_equal. clear -Hw. induction (p_nodes db) as [|r l IH]; cbn; [done|].
  rewrite (Hw r) by left. rewrite IH; [done|]. intros x Hx. apply Hw. by right.
Qed.
