(* ===== verification/PoolDiscovery.v ===== *)
(** PoolDiscovery: how pools find each other (the second half of
    src/pool/PoolServer.cpp): the directory of pools with the probe that guards
    it, gossip between pools, the announcement in a transaction of the pool's
    wallet, and the scan of new blocks for the announcements of others.

    Other pools and DigiByte Core are interfaces, and so is the JSON reader
    (jsoncpp); what is built from its result is the code's.  Two threads write
    the directory under a mutex: the discovery loop and the handler of POST
    /peer/announce. *)

From Stdlib Require Import Floats.SpecFloat.
From S2P Require Import Prelude.
From S2P Require Import BitIOCodec.
From S2P Require Import CString.
From S2P Require Import Sql.
From S2P Require Import PoolDatabase.
From S2P Require Import PoolText.
From S2P Require Import PoolServer.

(** ** The nodes of another pool *)
(** A member of the array: "lat" and "lon" where both are numbers, "city" and
    "country" where they are texts. *)
Record json_node := mk_json_node { jn_place : option (spec_float * spec_float); jn_city : option string; jn_country : option string }.
Class JsonReader := { read_nodes : string -> option (list json_node) }.

Definition resize100 (s : option string) : string := str (take 100 (chars (default ""%string s))).
Definition on_earth (p : spec_float * spec_float) : bool :=
  dle (dbl (-90)) p.1 && dle p.1 (dbl 90) && dle (dbl (-180)) p.2 && dle p.2 (dbl 180).
Definition node_entry (host : string) (p : spec_float * spec_float) (n : json_node) : string :=
  "{" ++ quoted "pool" ++ ":" ++ quoted (jsonEscapeHtml host) ++ "," ++ quoted "lat" ++ ":" ++ fixed 6 p.1 ++ ","
  ++ quoted "lon" ++ ":" ++ fixed 6 p.2 ++ "," ++ quoted "city" ++ ":" ++ quoted (jsonEscapeHtml (resize100 (jn_city n)))
  ++ "," ++ quoted "country" ++ ":" ++ quoted (jsonEscapeHtml (resize100 (jn_country n))) ++ "}".
Definition MAX_NODES : Z := 500.
Fixpoint node_entries (host : string) (n : Z) (nodes : list json_node) : list string :=
  match nodes with
  | [] => []
  | node :: nodes =>
      if MAX_NODES <=? n then []
      else match jn_place node with
           | Some p => if on_earth p then node_entry host p node :: node_entries host (n + 1) nodes
                       else node_entries host n nodes
           | None => node_entries host n nodes
           end
  end.
Definition sanitizeNodesArray `{JsonReader} (rawArr poolHost : string) : string :=
  match read_nodes rawArr with
  | None => "[]"
  | Some nodes => "[" ++ separated (node_entries poolHost 0 nodes) ++ "]"
  end.

(** ** State and configuration *)
Record DiscoveredPool := mk_DiscoveredPool {
  dp_url : string; dp_lastSeen : Z; dp_up : bool; dp_nodesActive : Z; dp_treasuryBalance : spec_float }.
Record discovery := mk_discovery {
  s_db : pool_db;
  _directory : gmap string DiscoveredPool;
  _directoryNodesJson : gmap string string;
  calls : list (string * string);          (** the calls of Core's wallet, latest first *)
  posts : list (string * string) }.        (** what was posted to other pools, latest first *)
Record pool_identity := mk_pool_identity {
  _publicUrl : string; _seed : string; known_peers : list string;
  _onchain : bool; _rpcUser : string; _walletPass : string }.
Definition setDiscovery (publicUrl seed : string) (c : pool_identity) : pool_identity :=
  mk_pool_identity (strip_url publicUrl) (strip_url seed) (known_peers c) (_onchain c) (_rpcUser c) (_walletPass c).

Definition on_sdb {A} (m : M pool_db A) : M discovery A := fun s =>
  let '(o, db) := m (s_db s) in (o, mk_discovery db (_directory s) (_directoryNodesJson s) (calls s) (posts s)).
Definition MAX_DIR : Z := 1000.
Definition dir_size (s : discovery) : Z := Z.of_nat (size (_directory s)).
Definition list_pool (url : string) (dp : DiscoveredPool) (nodes : string) (s : discovery) : discovery :=
  if (dir_size s <? MAX_DIR) || bool_decide (is_Some (_directory s !! url))
  then mk_discovery (s_db s) (<[url := dp]> (_directory s)) (<[url := nodes]> (_directoryNodesJson s)) (calls s) (posts s)
  else s.

(** The conversion of a double to [unsigned int], to [long]: undefined outside the range *)
Definition to_uint (d : spec_float) : outcome Z := v ← to_int64 d; if (0 <=? v) && (v <? 4294967296) then Ok v else UB.
Definition to_long (long_max : Z) (d : spec_float) : outcome Z :=
  v ← to_int64 d; if (- long_max - 1 <=? v) && (v <=? long_max) then Ok v else UB.

(** ** Other pools *)
Class Web := {
  pool_stats : string -> option string;      (** GET <url>/pool/stats.json *)
  pool_list : string -> option string        (** GET <url>/peer/list *)
}.
Definition in_quotes (s : string) (body : string) : bool := contains (quote :: chars s ++ [quote]) (chars body).

Definition probePool `{Web, JsonReader} (url : string) (now : Z) : outcome (option (DiscoveredPool * string)) :=
  match pool_stats url with
  | None => Ok None
  | Some body =>
      if negb (in_quotes "activeNodes" body) || negb (in_quotes "donationAddress" body) then Ok None
      else
        active ← to_uint (peerJsonNum body "activeNodes" (dbl 0));
        Ok (Some (mk_DiscoveredPool url now true active (peerJsonNum body "treasuryBalance" (dbl 0)),
                  sanitizeNodesArray (peerJsonArray body "nodes") (urlHost url)))
  end.

Definition probe_and_list `{Web, JsonReader} (now : Z) (url : string) : M discovery bool :=
  found ← lift (probePool url now);
  match found with
  | Some (dp, nodes) => modify (list_pool url dp nodes);; mret true
  | None => mret false
  end.

(** The urls of a list of pools: the text between each pair of quotes *)
Fixpoint quoted_texts (fuel : nat) (l : text) : list string :=
  match fuel with
  | O => []
  | S fuel =>
      match (split_at quote l).2 with
      | Some rest => match split_at quote rest with
                     | (u, Some rest) => str u :: quoted_texts fuel rest
                     | _ => []
                     end
      | None => []
      end
  end.
Definition http_url (u : string) : bool := starts "https://" u || starts "http://" u.
Definition gossip `{Web} (c : pool_identity) (src : string) : gset string :=
  match pool_list src with
  | None => ∅
  | Some body =>
      let arr := chars (peerJsonArray body "pools") in
      list_to_set (List.filter (fun u => negb (String.eqb u "" || String.eqb u (_publicUrl c)) && http_url u)
                     (quoted_texts (length arr) arr))
  end.

Fixpoint add_new (us seen : list string) : list string :=
  match us with
  | [] => []
  | u :: us => if String.eqb u "" || bool_decide (u ∈ seen) then add_new us seen else u :: add_new us (u :: seen)
  end.
Definition directory_urls (s : discovery) : list string := order_by String.ltb (elements (dom (_directory s))).
Definition handlePeerList (c : pool_identity) : M discovery response :=
  gets (fun s =>
    let pools := add_new (_publicUrl c :: known_peers c ++ directory_urls s) [] in
    (200, "{" ++ quoted "pools" ++ ":[" ++ separated (map (fun u => quoted (jsonEscapeHtml u)) pools) ++ "]}")%string).

Definition handlePeerAnnounce `{Web, JsonReader} (c : pool_identity) (body : string) (now : Z) : M discovery response :=
  let url := str (rev (trim_left [ch 47] (rev (chars (peerJsonStr body "url"))))) in
  if negb (http_url url) then mret (400, error_body "url must be http(s)")
  else if String.eqb url (_publicUrl c) then mret (200, "{" ++ quoted "ok" ++ ":true}")%string
  else
    listed ← probe_and_list now url;
    mret (if listed : bool then (200, "{" ++ quoted "ok" ++ ":true}")%string
          else (400, error_body "that url did not respond as a pool (/pool/stats.json)")).

(** ** DigiByte Core *)
(** The answer of a call whatever its status, or nothing when the transfer
    failed, and the block count when a request for it succeeds. *)
Class ChainRpc := {
  rpc_answer : list (string * string) -> string -> string -> option string;
  block_count : spec_float
}.
Definition rpcRaw `{ChainRpc} (c : pool_identity) (method params : string) : M discovery string :=
  if String.eqb (_rpcUser c) "" then mret ""%string
  else
    s ← get;
    let r := rpc_answer (calls s) method params in
    modify (fun s => mk_discovery (s_db s) (_directory s) (_directoryNodesJson s) ((method, params) :: calls s) (posts s));;
    mret (default ""%string r).
(** A call that changes nothing at Core *)
Definition ask `{ChainRpc} (c : pool_identity) (method params : string) : string :=
  if String.eqb (_rpcUser c) "" then "" else default ""%string (rpc_answer [] method params).
Definition no_result (s : string) : bool := String.eqb s "" || String.eqb s "null".

Definition unlock_wallet `{ChainRpc} (c : pool_identity) : M discovery unit :=
  when (negb (String.eqb (_walletPass c) ""))
    (rpcRaw c "walletpassphrase" ("[" ++ quoted (jsonEscapeHtml (_walletPass c)) ++ ",60]");; mret tt).
Definition lock_wallet `{ChainRpc} (c : pool_identity) : M discovery unit :=
  when (negb (String.eqb (_walletPass c) "")) (rpcRaw c "walletlock" "[]";; mret tt).

Definition announced_last (db : string) : Z := match stoll db with Ok v => v | _ => 0 end.
(** The calls of an announcement of [data] *)
Definition send_announcement `{ChainRpc} (c : pool_identity) (data : string) (now : Z) : M discovery string :=
  raw ← rpcRaw c "createrawtransaction" ("[[],[{" ++ quoted "data" ++ ":" ++ quoted (PoolText.toHex data) ++ "}]]");
  let rawHex := jsonField raw "result" in
  if no_result rawHex then mret "error: createrawtransaction failed"%string
  else
    funded ← rpcRaw c "fundrawtransaction" ("[" ++ quoted rawHex ++ "]");
    let fundedHex := jsonField funded "hex" in
    if String.eqb fundedHex "" then mret "error: fundrawtransaction failed (pool wallet empty, or RPC error)"%string
    else
      unlock_wallet c;;
      signed ← rpcRaw c "signrawtransactionwithwallet" ("[" ++ quoted fundedHex ++ "]");
      let signedHex := jsonField signed "hex" in
      if String.eqb signedHex "" then lock_wallet c;; mret "error: sign failed (wallet locked? set poolwalletpassphrase)"%string
      else
        answer ← rpcRaw c "sendrawtransaction" ("[" ++ quoted signedHex ++ "]");
        let txid := jsonField answer "result" in
        lock_wallet c;;
        if no_result txid then mret "error: sendrawtransaction failed"%string
        else on_sdb (setConfig "lastOnchainAnnounce" (int_string now));; mret txid.
Definition doOnchainAnnounce `{ChainRpc} (c : pool_identity) (force : bool) (now : Z) : M discovery string :=
  if String.eqb (_publicUrl c) "" then mret "error: poolpublicurl not set"%string
  else if String.eqb (_rpcUser c) "" then mret "error: no DigiByte Core RPC configured (rpcuser)"%string
  else
    early ← (if force then mret false
             else last ← on_sdb (getConfig "lastOnchainAnnounce" "0");
                  mret (now - announced_last last <? 7 * 24 * 3600));
    if early : bool then mret "skipped: already announced within the last week"%string
    else
      let data := ("DGSP1" ++ _publicUrl c)%string in
      if (78 <? length (chars data))%nat then mret "error: url too long for an OP_RETURN (max ~73 chars)"%string
      else send_announcement c data now.
Definition onchainAnnounce `{ChainRpc} (c : pool_identity) (now : Z) : M discovery unit :=
  when (_onchain c) (doOnchainAnnounce c false now;; mret tt).

Definition handlePeerTestAnnounce `{ChainRpc} (c : pool_identity) (cfg : server_config) (query : string) (now : Z) : M discovery response :=
  if String.eqb (_peerToken cfg) "" || negb (String.eqb (queryParam query "token") (_peerToken cfg))
  then mret (403, error_body "set poolpeertoken and pass ?token=<it> to use this")
  else
    r ← doOnchainAnnounce c true now;
    let ok := negb (starts "error:" r) && negb (starts "skipped:" r) in
    mret (200, if ok : bool then "{" ++ quoted "ok" ++ ":true," ++ quoted "txid" ++ ":" ++ quoted (jsonEscapeHtml r) ++ "}"
               else "{" ++ quoted "ok" ++ ":false," ++ quoted "result" ++ ":" ++ quoted (jsonEscapeHtml r) ++ "}")%string.

(** *** The scan *)
Definition dgsp : text := chars "44475350".
(** The text around a position, from the quote before it to the quote behind *)
Definition quoted_around (before after : text) : option string :=
  match split_at quote (rev before), split_at quote after with
  | (l, Some _), (r, Some _) => Some (str (rev l ++ r))
  | _, _ => None
  end.
Fixpoint block_urls (fuel : nat) (publicUrl : string) (before after : text) : gset string :=
  match fuel with
  | O => ∅
  | S fuel =>
      match find_sub dgsp after with
      | None => ∅
      | Some p =>
          let before' := before ++ take p after in
          let after' := drop p after in
          let found : gset string :=
            match quoted_around before' after' with
            | Some hex => let u := decodeAnnouncement hex in
                          if String.eqb u "" || String.eqb u publicUrl then ∅ else {[u]}
            | None => ∅
            end in
          found ∪ block_urls fuel publicUrl (before' ++ take 8 after') (drop 8 after')
      end
  end.
Definition announced `{ChainRpc} (c : pool_identity) (hash : string) : gset string :=
  let rb := chars (ask c "getblock" ("[" ++ quoted hash ++ ",2]")) in
  block_urls (length rb) (_publicUrl c) [] rb.
Definition block_hash `{ChainRpc} (c : pool_identity) (h : Z) : string :=
  jsonField (ask c "getblockhash" ("[" ++ int_string h ++ "]")) "result".
Fixpoint scan_blocks `{ChainRpc} (c : pool_identity) (n : nat) (h : Z) (out : gset string) : gset string :=
  match n with
  | O => out
  | S n => let hash := block_hash c h in
           if no_result hash then out else scan_blocks c n (h + 1) (out ∪ announced c hash)
  end.

Definition MAXPERCYCLE : Z := 60.
Definition stol (long_max : Z) : string -> outcome Z := sto_signed "stol" (long_max + 1).
Definition add_long (long_max a b : Z) : outcome Z := if (a + b <=? long_max) then Ok (a + b) else UB.
Definition onchainScan `{ChainRpc} (long_max : Z) (c : pool_identity) (out : gset string) : M discovery (gset string) :=
  if negb (_onchain c) || String.eqb (_rpcUser c) "" then mret out
  else
    tip ← lift (to_long long_max block_count);
    if tip <=? 0 then mret out
    else
      lastStr ← on_sdb (getConfig "lastOnchainScanHeight" "");
      if String.eqb lastStr "" then on_sdb (setConfig "lastOnchainScanHeight" (int_string tip));; mret out
      else
        let last := match stol long_max lastStr with Ok v => v | _ => tip end in
        bound ← lift (add_long long_max last MAXPERCYCLE);
        let to := Z.min tip bound in
        let out := scan_blocks c (Z.to_nat (to - last)) (last + 1) out in
        when (last <? to) (on_sdb (setConfig "lastOnchainScanHeight" (int_string to)));;
        mret out.

(** ** A cycle of the discovery loop *)
Definition prune (now : Z) (s : discovery) : discovery :=
  let fresh (e : string * DiscoveredPool) := now - dp_lastSeen e.2 <= 24 * 3600 in
  let kept := filter fresh (_directory s) in
  mk_discovery (s_db s) kept
    (filter (fun e => bool_decide (is_Some (_directory s !! e.1)) -> is_Some (kept !! e.1)) (_directoryNodesJson s)) (calls s) (posts s).
Definition sources (c : pool_identity) (s : discovery) : list string :=
  (if String.eqb (_seed c) "" then [] else [_seed c]) ++ known_peers c ++ directory_urls s.
(** The post to the seed; whatever becomes of it is ignored. *)
Definition announce_to_seed (c : pool_identity) (s : discovery) : discovery :=
  if String.eqb (_seed c) "" || String.eqb (_publicUrl c) "" then s
  else mk_discovery (s_db s) (_directory s) (_directoryNodesJson s) (calls s)
         (((_seed c ++ "/peer/announce")%string, ("{" ++ quoted "url" ++ ":" ++ quoted (_publicUrl c) ++ "}")%string) :: posts s).
(** A cycle that is not cut short by the end of the program.  The members of the
    set are probed in its order; [clock] is the time of a probe. *)
Definition discovery_cycle `{Web, JsonReader, ChainRpc} (long_max : Z) (c : pool_identity) (clock : string -> Z) (now later : Z)
    : M discovery unit :=
  srcs ← gets (sources c);
  modify (announce_to_seed c);;
  onchainAnnounce c now;;
  toProbe ← onchainScan long_max c (⋃ map (gossip c) srcs);
  for_each (order_by String.ltb (elements toProbe)) (fun u => probe_and_list (clock u) u;; mret tt);;
  modify (prune later).
