(* ===== verification/PoolDiscoveryTheorems.v ===== *)
(** PoolDiscoveryTheorems: what the pool republishes of strangers is bounded and
    harmless; an announcement that is in a block is found; and announcing never
    leaves the wallet open. *)

From Stdlib Require Import Floats.SpecFloat.
From stdpp Require Import pretty.
From S2P Require Import Prelude.
From S2P Require Import BitIOCodec.
From S2P Require Import BitIOText.
From S2P Require Import CString.
From S2P Require Import Sql.
From S2P Require Import StoragePlan.
From S2P Require Import PoolDatabase.
From S2P Require Import PoolText.
From S2P Require Import PoolServer.
From S2P Require Import PoolDiscovery.

Ltac Zify.zify_post_hook ::= Z.div_mod_to_equations.

Lemma ascii_forall (P : ascii -> bool) c : forallb (fun v => P (charZ v)) (seqZ 0 256) = true -> P c = true.
Proof. intros H. rewrite <- (charZ_byteZ c). by apply (byte_forall (fun v => P (charZ v))). Qed.

(** ** Harmless text *)
Definition harmless_char (c : ascii) : bool := negb ((byteZ c =? 60) || (byteZ c =? 62) || (byteZ c =? 38)).
Definition harmless (s : string) : bool := forallb harmless_char (chars s).

Lemma harmless_app a b : harmless (a ++ b) = harmless a && harmless b.
Proof. unfold harmless. by rewrite chars_app, forallb_app. Qed.
Lemma harmless_escape s : harmless (jsonEscapeHtml s) = true.
Proof.
  unfold harmless, jsonEscapeHtml. rewrite chars_str. induction (chars s) as [|c l IH]; cbn; [done|].
  rewrite forallb_app, IH, andb_true_r. apply (ascii_forall (fun c => forallb harmless_char (escape_char_html c))).
  by vm_compute.
Qed.
Lemma harmless_quoted s : harmless (quoted s) = harmless s.
Proof. unfold quoted. by rewrite !harmless_app, andb_true_r. Qed.

Lemma harmless_pretty (n : N) : forallb harmless_char (chars (pretty n)) = true.
Proof.
  pose proof (pretty_digits n) as H. rewrite forallb_forall in *. intros c Hc. specialize (H c Hc).
  pose proof (ascii_forall (fun c => implb (is_digit c) (harmless_char c)) c ltac:(by vm_compute)) as Hd.
  cbv beta in Hd. by rewrite H in Hd.
Qed.
Lemma forallb_take_drop {A} (P : A -> bool) n l :
  forallb P l = true -> forallb P (take n l) = true /\ forallb P (drop n l) = true.
Proof. rewrite <- (take_drop n l) at 1. by rewrite forallb_app, andb_true_iff. Qed.
Lemma harmless_fixed k d : harmless (fixed k d) = true.
Proof.
  assert (forall n, harmless (fixed_digits k n) = true) as Hf.
  { intros n. unfold harmless, fixed_digits. rewrite chars_str.
    assert (forallb harmless_char (digits_pad (S k) n) = true) as Hd.
    { unfold digits_pad. rewrite forallb_app, harmless_pretty, andb_true_r.
      generalize (S k - length (chars (pretty (Z.to_N n))))%nat. intros m. by induction m. }
    set (l := digits_pad (S k) n) in *. clearbody l. set (m := (length l - k)%nat). clearbody m.
    destruct (forallb_take_drop _ m l Hd) as [H1 H2]. rewrite forallb_app, H1.
    destruct (k =? 0)%nat; [done|]. exact H2. }
  destruct d as [[]|[]| |[] m e]; cbn [fixed]; rewrite ?harmless_app, ?Hf; done.
Qed.

(** ** What is built from a stranger's nodes *)
Definition placed (n : json_node) : bool := match jn_place n with Some p => on_earth p | None => false end.
Definition entry_of (host : string) (n : json_node) : string :=
  match jn_place n with Some p => node_entry host p n | None => "" end.

Lemma node_entries_spec host n nodes :
  node_entries host n nodes = take (Z.to_nat (MAX_NODES - n)) (map (entry_of host) (List.filter placed nodes)).
Proof.
  revert n. induction nodes as [|node nodes IH]; intros n; cbn [node_entries List.filter map]; [by rewrite take_nil|].
  destruct (Z.leb_spec MAX_NODES n) as [Hn|Hn].
  { by replace (Z.to_nat (MAX_NODES - n)) with O by lia. }
  unfold placed at 1. unfold entry_of. destruct (jn_place node) as [p|] eqn:Ep; [|apply IH].
  destruct (on_earth p); [|apply IH]. cbn [map]. rewrite Ep. fold entry_of.
  replace (Z.to_nat (MAX_NODES - n)) with (S (Z.to_nat (MAX_NODES - (n + 1)))) by lia. cbn [take]. f_equal. apply IH.
Qed.
Lemma harmless_entry host p n : harmless (node_entry host p n) = true.
Proof. unfold node_entry. by rewrite !harmless_app, !harmless_quoted, !harmless_fixed, !harmless_escape. Qed.
Lemma harmless_separated l : Forall (fun s => harmless s = true) l -> harmless (separated l) = true.
Proof.
  induction l as [|x [|y l] IH]; intros H; [done|by apply Forall_cons in H as [? _]|].
  apply Forall_cons in H as [Hx H]. change (separated (x :: y :: l)) with (x ++ "," ++ separated (y :: l))%string.
  by rewrite !harmless_app, Hx, IH.
Qed.

(** Whatever a stranger's node list holds, what the pool publishes of it is a
    list of at most 500 entries, each for a node of the list with a place on
    earth, in the order of the list. *)
Lemma sanitizeNodesArray_spec {HJ : JsonReader} (rawArr poolHost : string) :
  sanitizeNodesArray rawArr poolHost
  = ("[" ++ separated (map (entry_of poolHost) (take 500 (List.filter placed (default [] (read_nodes rawArr))))) ++ "]")%string.
Proof.
  unfold sanitizeNodesArray. destruct (read_nodes rawArr) as [l|]; [|done]. cbn [default].
  by rewrite node_entries_spec, firstn_map.
Qed.
(** What the pool republishes of the pool at [url] *)
Definition published (url n : string) : Prop :=
  harmless n = true /\ exists nodes, n = ("[" ++ separated (map (entry_of (urlHost url)) nodes) ++ "]")%string
  /\ (length nodes <= 500)%nat /\ forallb placed nodes = true.
Lemma sanitizeNodesArray_published {HJ : JsonReader} (rawArr url : string) :
  published url (sanitizeNodesArray rawArr (urlHost url)).
Proof.
  rewrite sanitizeNodesArray_spec. split.
  - rewrite !harmless_app, harmless_separated; [done|].
    apply Forall_forall. intros s (n & -> & _)%list_elem_of_fmap. unfold entry_of.
    destruct (jn_place n); [apply harmless_entry|done].
  - set (l := default [] _). eexists. split; [done|]. split; [rewrite length_take; lia|].
    assert (forallb placed (List.filter placed l) = true) as H.
    { apply forallb_forall. by intros n [_ H]%filter_In. }
    by destruct (forallb_take_drop _ 500 _ H).
Qed.

(** ** The directory

    A state of the discovery, whatever the other pools, Core and the JSON reader
    answer at each step. *)
Section directory.
Context (c : pool_identity) (cfg : server_config) (long_max : Z).

Inductive discovery_step : discovery -> discovery -> Prop :=
  | step_cycle (W : Web) (J : JsonReader) (R : ChainRpc) clock now later s :
      discovery_step s (discovery_cycle long_max c clock now later s).2
  | step_announced (W : Web) (J : JsonReader) body now s : discovery_step s (handlePeerAnnounce c body now s).2
  | step_test (R : ChainRpc) query now s : discovery_step s (handlePeerTestAnnounce c cfg query now s).2
  | step_database (m : M pool_db unit) s : discovery_step s (on_sdb m s).2.

Record directory_ok (s : discovery) : Prop := mk_directory_ok {
  bounded : dir_size s <= MAX_DIR;
  entries_ok u dp : _directory s !! u = Some dp ->
    dp_url dp = u /\ starts "http" u = true /\ u <> _publicUrl c /\ 0 <= dp_nodesActive dp < 4294967296;
  nodes_ok u n : _directoryNodesJson s !! u = Some n -> is_Some (_directory s !! u) /\ published u n }.

Definition same_directory (s s' : discovery) : Prop :=
  _directory s' = _directory s /\ _directoryNodesJson s' = _directoryNodesJson s.
Lemma same_ok s s' : same_directory s s' -> directory_ok s -> directory_ok s'.
Proof. intros [E1 E2] []. split; unfold dir_size in *; rewrite ?E1, ?E2; done. Qed.

Lemma list_pool_ok url dp nodes s :
  dp_url dp = url -> starts "http" url = true -> url <> _publicUrl c -> 0 <= dp_nodesActive dp < 4294967296 ->
  published url nodes -> directory_ok s -> directory_ok (list_pool url dp nodes s).
Proof.
  intros H1 H2 H3 H4 H5 [Hb He Hn]. unfold list_pool. case_match eqn:Hc; [|by split]. split; cbn.
  - unfold dir_size, MAX_DIR in *. cbn. rewrite map_size_insert. destruct (_directory s !! url); cbn.
    + lia.
    + rewrite orb_false_r in Hc. lia.
  - intros u x [[<- <-]|[_ Hx]]%lookup_insert_Some; [done|by apply He].
  - intros u n [[<- <-]|[Hne Hx]]%lookup_insert_Some; [by simplify_map_eq|].
    rewrite lookup_insert_ne by done. by apply Hn.
Qed.

Lemma probePool_ok {W : Web} {J : JsonReader} url now dp nodes :
  probePool url now = Ok (Some (dp, nodes)) ->
  dp_url dp = url /\ dp_lastSeen dp = now /\ 0 <= dp_nodesActive dp < 4294967296 /\ published url nodes.
Proof.
  unfold probePool. destruct (pool_stats url) as [body|]; [|done]. case_match; [done|].
  unfold to_uint. destruct (to_int64 _) as [v| | |]; try done. cbn. case_match eqn:Hv; [|done]. cbn. intros [= <- <-]. cbn.
  split_and!; try done; [lia..|apply sanitizeNodesArray_published].
Qed.
Lemma probe_and_list_ok {W : Web} {J : JsonReader} now url s :
  starts "http" url = true -> url <> _publicUrl c -> directory_ok s -> directory_ok (probe_and_list now url s).2.
Proof.
  intros H1 H2 Hok. unfold probe_and_list, mbind, M_bind, lift.
  destruct (probePool url now) as [[[dp nodes]|]| | |] eqn:E; try done. cbn.
  destruct (probePool_ok _ _ _ _ E) as (? & _ & ? & ?). by apply list_pool_ok.
Qed.

Lemma prune_ok now s : directory_ok s -> directory_ok (prune now s).
Proof.
  intros [Hb He Hn]. split; unfold dir_size in *; cbn.
  - etrans; [|exact Hb]. apply inj_le. apply map_subseteq_size, map_filter_subseteq.
  - intros u dp [H _]%map_lookup_filter_Some. by apply He.
  - intros u n [H Hk]%map_lookup_filter_Some. destruct (Hn u n H) as [Hd Hh]. split; [|done].
    apply Hk. by apply bool_decide_pack.
Qed.

(** *** Urls that are probed *)
Definition stranger (u : string) : Prop := starts "http" u = true /\ u <> _publicUrl c.
Lemma http_url_starts u : http_url u = true -> starts "http" u = true.
Proof.
  unfold http_url, starts. intros [H|H]%orb_true_iff; apply is_prefix_spec in H as [r ->];
    [apply (is_prefix_app (chars "http") (chars "s://" ++ r))|apply (is_prefix_app (chars "http") (chars "://" ++ r))].
Qed.
Lemma gossip_strangers {W : Web} src u : u ∈ gossip c src -> stranger u.
Proof.
  unfold gossip. destruct (pool_list src) as [body|]; [|set_solver].
  rewrite elem_of_list_to_set, list_elem_of_In, filter_In. intros [_ [Hu Hh]%andb_true_iff].
  apply negb_true_iff, orb_false_iff in Hu as [_ Hu%String.eqb_neq]. split; [by apply http_url_starts|done].
Qed.
Lemma block_urls_strangers fuel before after u : u ∈ block_urls fuel (_publicUrl c) before after -> stranger u.
Proof.
  revert before after. induction fuel as [|fuel IH]; intros before after; cbn [block_urls]; [set_solver|].
  destruct (find_sub dgsp after) as [p|]; [|set_solver]. rewrite elem_of_union. intros [H|H]; [|by eapply IH].
  destruct (quoted_around _ _) as [hex|]; [|set_solver].
  destruct (String.eqb_spec (decodeAnnouncement hex) ""); [set_solver|].
  destruct (String.eqb_spec (decodeAnnouncement hex) (_publicUrl c)); cbn in H; [set_solver|].
  apply elem_of_singleton in H as ->. split; [|done]. revert n. unfold decodeAnnouncement.
  repeat case_match; done.
Qed.
Lemma scan_blocks_strangers {R : ChainRpc} n h out :
  (forall u, u ∈ out -> stranger u) -> forall u, u ∈ scan_blocks c n h out -> stranger u.
Proof.
  revert h out. induction n as [|n IH]; intros h out Ho u; cbn [scan_blocks]; [apply Ho|].
  case_match; [apply Ho|]. apply IH. intros v [Hv|Hv]%elem_of_union; [by apply Ho|by eapply block_urls_strangers].
Qed.

(** *** What leaves the directory alone *)
Lemma same_refl s : same_directory s s. Proof. done. Qed.
Lemma same_trans s s' s'' : same_directory s s' -> same_directory s' s'' -> same_directory s s''.
Proof. intros [E1 E2] [E3 E4]. split; by rewrite ?E3, ?E4. Qed.
Definition leaves {A} (m : M discovery A) : Prop := forall s, same_directory s (m s).2.
Lemma leaves_ret {A} (x : A) : leaves (mret x). Proof. done. Qed.
Lemma leaves_lift {A} (o : outcome A) : leaves (lift o). Proof. done. Qed.
Lemma leaves_dir_bind {A B} (m : M discovery A) (k : A -> M discovery B) : leaves m -> (forall x, leaves (k x)) -> leaves (m ≫= k).
Proof.
  intros Hm Hk s. unfold mbind, M_bind. specialize (Hm s). destruct (m s) as [[x| | |] s1]; try done.
  eapply same_trans; [exact Hm|apply Hk].
Qed.
Lemma leaves_when b (m : M discovery unit) : leaves m -> leaves (when b m).
Proof. by destruct b. Qed.
Lemma leaves_on_sdb {A} (m : M pool_db A) : leaves (on_sdb m).
Proof. intros s. unfold on_sdb. by destruct (m (s_db s)). Qed.
Lemma leaves_rpc {R : ChainRpc} method params : leaves (rpcRaw c method params).
Proof. intros s. unfold rpcRaw. by destruct (_rpcUser c =? "")%string. Qed.
Ltac leave := repeat first
  [ apply leaves_ret | apply leaves_lift | apply leaves_on_sdb | apply leaves_rpc | apply leaves_when
  | apply leaves_dir_bind; [|intros ?] | case_match ].
Lemma leaves_announce {R : ChainRpc} force now : leaves (doOnchainAnnounce c force now).
Proof.
  unfold doOnchainAnnounce, send_announcement, unlock_wallet, lock_wallet. leave.
Qed.
Lemma leaves_onchainAnnounce {R : ChainRpc} now : leaves (onchainAnnounce c now).
Proof. unfold onchainAnnounce. apply leaves_when, leaves_dir_bind; [apply leaves_announce|intros; apply leaves_ret]. Qed.
Lemma leaves_scan {R : ChainRpc} out : leaves (onchainScan long_max c out).
Proof. unfold onchainScan. leave. Qed.
Lemma scan_strangers {R : ChainRpc} out s found s' :
  (forall u, u ∈ out -> stranger u) -> onchainScan long_max c out s = (Ok found, s') -> forall u, u ∈ found -> stranger u.
Proof.
  intros Ho. unfold onchainScan. case_match; [by intros [= <- _]|].
  unfold mbind, M_bind, lift. destruct (to_long _ _) as [tip| | |]; try done.
  case_match; [by intros [= <- _]|].
  destruct (on_sdb (getConfig _ _) s) as [[last| | |] s1]; try done.
  case_match.
  { unfold on_sdb. destruct (setConfig _ _ _) as [[]]; intros [= <- _]; done. }
  destruct (add_long _ _ _) as [b| | |]; try done.
  destruct (when _ _ s1) as [[]]; intros [= <- _]; by apply scan_blocks_strangers.
Qed.

(** *** The steps *)
Lemma probes_ok {W : Web} {J : JsonReader} (clock : string -> Z) us s :
  Forall stranger us -> directory_ok s -> directory_ok (for_each us (fun u => probe_and_list (clock u) u;; mret tt) s).2.
Proof.
  intros H. revert s. induction H as [|u us [H1 H2] _ IH]; intros s Hok; [done|].
  cbn [for_each]. unfold mbind, M_bind.
  pose proof (probe_and_list_ok (clock u) u s H1 H2 Hok) as Hu. destruct (probe_and_list (clock u) u s) as [[b| | |] s1]; try done.
  cbn. by apply IH.
Qed.
Lemma announce_ok {W : Web} {J : JsonReader} body now s : directory_ok s -> directory_ok (handlePeerAnnounce c body now s).2.
Proof.
  intros Hok. unfold handlePeerAnnounce. set (url := str _). destruct (http_url url) eqn:Hh; [cbn [negb]|done].
  destruct (String.eqb_spec url (_publicUrl c)); [done|]. unfold mbind, M_bind.
  pose proof (probe_and_list_ok now url s (http_url_starts _ Hh) n Hok) as Hu.
  by destruct (probe_and_list now url s) as [[b| | |] s1].
Qed.
Lemma cycle_ok {W : Web} {J : JsonReader} {R : ChainRpc} clock now later s :
  directory_ok s -> directory_ok (discovery_cycle long_max c clock now later s).2.
Proof.
  intros Hok. unfold discovery_cycle.
  match goal with |- directory_ok ((gets _ ≫= ?k) _).2 => change (directory_ok (k (sources c s) s).2) end. cbv beta.
  match goal with |- directory_ok ((modify _ ≫= ?k) _).2 => change (directory_ok (k tt (announce_to_seed c s)).2) end. cbv beta.
  set (s0 := announce_to_seed c s).
  assert (directory_ok s0) as H0 by (apply (same_ok s); [unfold s0, announce_to_seed; by case_match|done]).
  unfold mbind at 1, M_bind at 1. pose proof (same_ok _ _ (leaves_onchainAnnounce now s0) H0) as H1.
  destruct (onchainAnnounce c now s0) as [[[]| | |] s1]; try done. cbn [snd] in H1.
  unfold mbind at 1, M_bind at 1. set (out := ⋃ _).
  pose proof (same_ok _ _ (leaves_scan out s1) H1) as H2.
  destruct (onchainScan long_max c out s1) as [[found| | |] s2] eqn:E; try done. cbn [snd] in H2.
  assert (Forall stranger (order_by String.ltb (elements found))) as Hf.
  { apply Forall_forall. intros u Hu. rewrite elem_of_order_by, elem_of_elements in Hu.
    eapply scan_strangers; [|exact E|exact Hu]. intros v Hv. unfold out in Hv.
    apply elem_of_union_list in Hv as (X & (src & -> & _)%list_elem_of_fmap & Hv). by eapply gossip_strangers. }
  unfold mbind at 1, M_bind at 1. pose proof (probes_ok clock _ s2 Hf H2) as H3.
  destruct (for_each _ _ s2) as [[[]| | |] s3]; try done. cbn in *. by apply prune_ok.
Qed.
Lemma test_ok {R : ChainRpc} query now s : directory_ok s -> directory_ok (handlePeerTestAnnounce c cfg query now s).2.
Proof.
  apply same_ok. revert s. change (leaves (handlePeerTestAnnounce c cfg query now)). unfold handlePeerTestAnnounce.
  case_match; [apply leaves_ret|]. apply leaves_dir_bind; [apply leaves_announce|intros; apply leaves_ret].
Qed.
Lemma discovery_step_ok s s' : discovery_step s s' -> directory_ok s -> directory_ok s'.
Proof.
  intros [] Hok; [by apply cycle_ok|by apply announce_ok|by apply test_ok|by eapply same_ok, Hok; apply leaves_on_sdb].
Qed.
Definition empty_directory (s : discovery) : Prop := _directory s = ∅ /\ _directoryNodesJson s = ∅.
Lemma empty_directory_ok s : empty_directory s -> directory_ok s.
Proof.
  intros [E1 E2]. split; unfold dir_size; rewrite ?E1, ?E2; [by vm_compute|intros ?? ?; by simplify_map_eq..].
Qed.

(** A cycle that reaches its end has pruned. *)
Lemma cycle_prunes {W : Web} {J : JsonReader} {R : ChainRpc} clock now later s s' u dp :
  discovery_cycle long_max c clock now later s = (Ok tt, s') -> _directory s' !! u = Some dp -> later - dp_lastSeen dp <= 24 * 3600.
Proof.
  unfold discovery_cycle, gets, modify, mbind, M_bind.
  destruct (onchainAnnounce c now _) as [[[]| | |] s1]; try done.
  destruct (onchainScan _ _ _ s1) as [[found| | |] s2]; try done.
  destruct (for_each _ _ s2) as [[[]| | |] s3]; try done.
  intros [= <-]. cbn. intros [_ H]%map_lookup_filter_Some. exact H.
Qed.
Lemma discovery_steps_ok s s' : rtc discovery_step s s' -> directory_ok s -> directory_ok s'.
Proof. induction 1 as [|s s1 s' H _ IH]; [done|]. intros Hok. apply IH. by eapply discovery_step_ok. Qed.
End directory.

(** C27: Whatever other pools, announcers, the blockchain and Core answer, and in
    whatever order cycles and requests come, the directory stays within its
    bound; every entry is under its own url, which begins with http and is not
    the pool's own; what is republished of a pool is its sanitised list -- no
    character of markup, 500 entries at most, all of them on earth -- and belongs
    to a listed pool; and when a cycle ends no entry is older than a day. *)
Theorem directory_safe c cfg long_max s0 s :
  empty_directory s0 -> rtc (discovery_step c cfg long_max) s0 s ->
  dir_size s <= MAX_DIR
  /\ (forall u dp, _directory s !! u = Some dp ->
        dp_url dp = u /\ starts "http" u = true /\ u <> _publicUrl c /\ 0 <= dp_nodesActive dp < 4294967296)
  /\ (forall u n, _directoryNodesJson s !! u = Some n -> is_Some (_directory s !! u) /\ published u n)
  /\ (forall (W : Web) (J : JsonReader) (R : ChainRpc) clock now later s' u dp,
        discovery_cycle long_max c clock now later s = (Ok tt, s') -> _directory s' !! u = Some dp ->
        later - dp_lastSeen dp <= 24 * 3600).
Proof.
  intros H0 Hs. destruct (discovery_steps_ok c cfg long_max s0 s Hs (empty_directory_ok c s0 H0)) as [Hb He Hn].
  split_and!; [done|done|done|]. intros. by eapply cycle_prunes.
Qed.


(** A pool with one node on earth, one elsewhere and one with a name full of
    markup is announced. *)
Definition evil_web : Web := {|
  pool_stats := fun u => if String.eqb u "https://pool.example"
    then Some (quoted "activeNodes" ++ ":3," ++ quoted "donationAddress" ++ ":" ++ quoted "x" ++ "," ++ quoted "nodes" ++ ":[1]")%string else None;
  pool_list := fun _ => None |}.
Definition evil_nodes : JsonReader := {| read_nodes := fun _ => Some
  [mk_json_node (Some (dbl 10, dbl 20)) (Some "Rome"%string) None; mk_json_node (Some (dbl 100, dbl 20)) None None;
   mk_json_node None None None; mk_json_node (Some (dbl 1, dbl 2)) (Some "<script>&"%string) None] |}.
Definition finder : pool_identity := mk_pool_identity "https://mine.example" "" [] false "" "".
Definition no_config : server_config :=
  mk_server_config default_Config "" "" false [] "".
Definition before_any : discovery := mk_discovery buildSchema ∅ ∅ [] [].
Definition after_announcement : discovery :=
  (@handlePeerAnnounce evil_web evil_nodes finder ("{" ++ quoted "url" ++ ":" ++ quoted "https://pool.example" ++ "}") 1000 before_any).2.
Lemma directory_safe_witness :
  dir_size after_announcement = 1 /\ dir_size after_announcement <= MAX_DIR
  /\ is_Some (_directoryNodesJson after_announcement !! "https://pool.example"%string).
Proof.
  destruct (directory_safe finder no_config 2147483647 before_any after_announcement) as (Hb & _).
  - split; reflexivity.
  - apply rtc_once. unfold after_announcement. apply step_announced.
  - split; [by vm_compute|]. split; [exact Hb|]. vm_compute. by eexists.
Defined.

(** ** Announcements in blocks *)
Definition marker : text := chars "4447535031".
(** The script of an OP_RETURN output: the opcode, a push and the data *)
Definition op_return (data : string) : string :=
  let n := Z.of_nat (length (chars data)) in
  str ((if n <=? 75 then [ch 106; ch n] else [ch 106; ch 76; ch n]) ++ chars data).
Definition printable (s : string) : bool := forallb (fun c => (32 <=? byteZ c) && (byteZ c <=? 126)) (chars s).

Lemma toHex_app a b : chars (toHex (str (a ++ b))) = chars (toHex (str a)) ++ chars (toHex (str b)).
Proof. unfold toHex. by rewrite !chars_str, map_app, concat_app. Qed.

Lemma decode_toHex s : printable s = true -> decode_url (chars (toHex s)) = chars s.
Proof.
  unfold printable, toHex. rewrite chars_str. induction (chars s) as [|c l IH]; cbn [forallb map concat app]; [done|].
  intros [Hc Hl]%andb_true_iff. cbn [decode_url].
  assert (stoi16 [hex_char (byteZ c / 16); hex_char (byteZ c mod 16)] = Some (byteZ c)) as ->.
  { pose proof (byte_forall (fun v => bool_decide (stoi16 [hex_char (v / 16); hex_char (v mod 16)] = Some v)) c ltac:(by vm_compute)) as H.
    by apply bool_decide_eq_true in H. }
  apply andb_true_iff in Hc as [H1%Z.leb_le H2%Z.leb_le]. rewrite (proj2 (Z.ltb_ge _ _)), (proj2 (Z.ltb_ge _ _)) by lia. cbn [orb].
  rewrite (IH Hl). f_equal. apply charZ_byteZ.
Qed.

Lemma marker_first (n : nat) rest :
  (n <= 78)%nat ->
  let pre := if Z.of_nat n <=? 75 then [ch 106; ch (Z.of_nat n)] else [ch 106; ch 76; ch (Z.of_nat n)] in
  find_sub marker (chars (toHex (str pre)) ++ marker ++ rest) = Some (length (chars (toHex (str pre)))).
Proof.
  intros Hn. do 79 (destruct n as [|n]; [vm_compute; reflexivity|]). lia.
Qed.

Lemma decode_announcement url :
  printable url = true -> starts "http" url = true -> (length (chars url) <= 73)%nat ->
  decodeAnnouncement (toHex (op_return ("DGSP1" ++ url))) = url.
Proof.
  intros Hp Hh Hlen. unfold decodeAnnouncement, op_return. rewrite chars_app.
  assert (length (chars "DGSP1" ++ chars url) <= 78)%nat as Hn by (rewrite length_app; cbn; lia).
  set (n := length (chars "DGSP1" ++ chars url)) in *. rewrite toHex_app.
  assert (chars (toHex (str (chars "DGSP1" ++ chars url))) = marker ++ chars (toHex url)) as ->.
  { by rewrite toHex_app, !str_chars. }
  pose proof (marker_first n (chars (toHex url)) Hn) as E. cbv zeta in E. fold marker. rewrite E.
  rewrite <- drop_drop, drop_app_length. change 10%nat with (length marker). rewrite drop_app_length.
  rewrite decode_toHex, str_chars by done. by rewrite Hh.
Qed.

(** *** Finding an announcement in the text of a block *)
Lemma app_longer {A} (a b c d : list A) : a ++ b = c ++ d -> (length c <= length a)%nat -> exists e, a = c ++ e /\ d = e ++ b.
Proof. intros E H. exists (drop (length c) a). apply (f_equal (drop (length c))) in E as E2. rewrite drop_app_le, drop_app_length in E2 by done.
  split; [|done]. apply (f_equal (take (length c))) in E. rewrite take_app_le, take_app_length in E by done.
  rewrite <- E at 1. by rewrite take_drop.
Qed.
Ltac lens := repeat (rewrite ?length_app, ?length_cons in * ); change (length dgsp) with 8%nat in *; cbn [length] in *; lia.
Lemma quote_not_in_dgsp : quote ∉ dgsp.
Proof. by apply (bool_decide_unpack _); vm_compute. Qed.

Lemma block_urls_finds fuel publicUrl before after B H1 H2 A :
  let u := decodeAnnouncement (str (H1 ++ dgsp ++ H2)) in
  before ++ after = B ++ quote :: H1 ++ dgsp ++ H2 ++ quote :: A ->
  (length before <= length B + 1 + length H1)%nat -> (length after <= fuel)%nat ->
  quote ∉ H1 -> quote ∉ H2 -> u <> ""%string -> u <> publicUrl ->
  u ∈ block_urls fuel publicUrl before after.
Proof.
  intros u. revert before after. induction fuel as [|fuel IH]; intros before after E Hb Hf Q1 Q2 Hu Hp.
  { destruct after; [|cbn in Hf; lia]. apply (f_equal length) in E. lens. }
  cbn [block_urls].
  assert (exists X, after = X ++ dgsp ++ H2 ++ quote :: A) as (X & EX).
  { destruct (app_longer (B ++ quote :: H1) (dgsp ++ H2 ++ quote :: A) before after) as (X & _ & EX);
      [by rewrite E, <- app_assoc|rewrite length_app; cbn; lia|eauto]. }
  assert (exists p, find_sub dgsp after = Some p /\ (length before + p <= length B + 1 + length H1)%nat) as (p & Ep & Hlen).
  { destruct (find_sub_first dgsp X (H2 ++ quote :: A)) as (p & Ep & Hp'). rewrite EX. exists p. split; [done|].
    apply (f_equal length) in E. rewrite EX in E. lens. }
  rewrite Ep. destruct (find_sub_spec _ _ _ Ep) as [rest Erest].
  set (before' := before ++ take p after). set (after' := drop p after) in *.
  assert (before' ++ after' = B ++ quote :: H1 ++ dgsp ++ H2 ++ quote :: A) as E'.
  { unfold before', after'. by rewrite <- app_assoc, take_drop. }
  assert (length before' <= length B + 1 + length H1)%nat as Hb'.
  { unfold before'. rewrite length_app, length_take. lia. }
  destruct (Nat.le_gt_cases (length B + 1) (length before')) as [Hin|Hout].
  - apply elem_of_union_l.
    destruct (app_longer before' after' (B ++ [quote]) (H1 ++ dgsp ++ H2 ++ quote :: A)) as (P & EP & EH);
      [by rewrite E', <- app_assoc|rewrite length_app; cbn; lia|].
    destruct (app_longer H1 (dgsp ++ H2 ++ quote :: A) P after') as (Q & EQ & EA); [done| |].
    { rewrite EP, !length_app in Hb'. cbn in Hb'. lia. }
    assert (quoted_around before' after' = Some (str (H1 ++ dgsp ++ H2))) as ->; [|].
    { unfold quoted_around. rewrite EP, !rev_app_distr. cbn [rev app].
      rewrite EQ in Q1. apply not_elem_of_app in Q1 as [QP QQ].
      rewrite split_at_stop by (by rewrite list_elem_of_In, <- in_rev, <- list_elem_of_In).
      rewrite EA. replace (Q ++ dgsp ++ H2 ++ quote :: A) with ((Q ++ dgsp ++ H2) ++ quote :: A) by (by rewrite <- !app_assoc).
      rewrite split_at_stop.
      - rewrite rev_involutive, EQ, <- !app_assoc. done.
      - rewrite !not_elem_of_app. split_and!; try done. apply quote_not_in_dgsp. }
    fold u. rewrite (proj2 (String.eqb_neq _ _) Hu), (proj2 (String.eqb_neq _ _) Hp). cbn. set_solver.
  - apply elem_of_union_r. apply IH; try done.
    + by rewrite <- app_assoc, take_drop.
    + destruct (app_longer B (quote :: H1 ++ dgsp ++ H2 ++ quote :: A) before' after') as (B' & EB & EB2); [done|lia|].
      assert (8 <= length B')%nat as H8.
      { destruct (Nat.le_gt_cases 8 (length B')) as [?|Hlt]; [done|]. exfalso. apply quote_not_in_dgsp.
        rewrite Erest in EB2. apply (f_equal (fun l => l !! length B')) in EB2.
        rewrite lookup_app_l in EB2 by (cbn; lia). rewrite list_lookup_middle in EB2 by done. by apply list_elem_of_lookup_2 in EB2. }
      rewrite EB in *. rewrite !length_app, length_take in *. lia.
    + unfold after' at 1. rewrite !length_drop. unfold after'.
      assert (length after' = length dgsp + length rest)%nat as El by (by rewrite Erest, length_app).
      unfold after' in El. rewrite length_drop in El. cbn in El. lia.
Qed.

Lemma quote_not_in_hex s : quote ∉ chars (toHex s).
Proof.
  unfold toHex. rewrite chars_str. induction (chars s) as [|c l IH]; cbn [map concat]; [by apply not_elem_of_nil|].
  apply not_elem_of_app. split; [|done].
  pose proof (byte_forall (fun v => bool_decide (quote ∉ [hex_char (v / 16); hex_char (v mod 16)])) c ltac:(by vm_compute)) as H.
  by apply bool_decide_eq_true in H.
Qed.

Lemma announcement_in_block {HC : ChainRpc} c hash url B A :
  printable url = true -> starts "http" url = true -> (length (chars url) <= 73)%nat -> url <> _publicUrl c ->
  chars (ask c "getblock" ("[" ++ quoted hash ++ ",2]")) = B ++ quote :: chars (toHex (op_return ("DGSP1" ++ url))) ++ quote :: A ->
  url ∈ announced c hash.
Proof.
  intros Hp Hh Hlen Hown E. unfold announced. rewrite E.
  pose proof (decode_announcement url Hp Hh Hlen) as Hd. unfold op_return in Hd, E |- *.
  set (pre := if _ <=? 75 then _ else _) in *. clearbody pre.
  assert (chars (toHex (str (pre ++ chars ("DGSP1" ++ url)))) = chars (toHex (str pre)) ++ dgsp ++ (chars "31" ++ chars (toHex url))) as EH.
  { by rewrite chars_app, !toHex_app, !str_chars. }
  assert (url = decodeAnnouncement (str (chars (toHex (str pre)) ++ dgsp ++ chars "31" ++ chars (toHex url)))) as Eu.
  { rewrite <- Hd at 1. f_equal. by rewrite <- EH, str_chars. }
  rewrite EH. rewrite Eu at 1.
  apply (block_urls_finds _ _ [] _ B (chars (toHex (str pre))) (chars "31" ++ chars (toHex url)) A); rewrite <- ?Eu; try done.
  - by rewrite <- !app_assoc.
  - cbn. lia.
  - apply quote_not_in_hex.
  - apply not_elem_of_app. split; [|apply quote_not_in_hex]. by apply (bool_decide_unpack _); vm_compute.
  - intros ->. done.
Qed.

Lemma scan_blocks_spec {HC : ChainRpc} c n h out :
  (forall k, h <= k < h + Z.of_nat n -> no_result (block_hash c k) = false) ->
  forall u, u ∈ scan_blocks c n h out <-> u ∈ out \/ exists k, h <= k < h + Z.of_nat n /\ u ∈ announced c (block_hash c k).
Proof.
  revert h out. induction n as [|n IH]; intros h out Hk u; cbn [scan_blocks].
  { split; [by left|]. intros [?|(k & ? & _)]; [done|lia]. }
  rewrite (Hk h) by lia. rewrite IH by (intros k ?; apply Hk; lia). rewrite elem_of_union. split.
  - intros [[?|?]|(k & ? & ?)]; [by left|right; exists h; split; [lia|done]|right; exists k; split; [lia|done]].
  - intros [?|(k & ? & ?)]; [by left; left|]. destruct (decide (k = h)) as [->|]; [by left; right|].
    right. exists k. split; [lia|done].
Qed.

(** *** The configuration keeps what it is told *)
Lemma c_str_keeps s : forallb (fun c => negb (byteZ c =? 0)) (chars s) = true -> c_str s = s.
Proof.
  intros H. unfold c_str. rewrite <- (str_chars s) at 2. f_equal. induction (chars s) as [|c l IH]; [done|].
  cbn in *. apply andb_true_iff in H as [Hc Hl]. destruct (byteZ c =? 0); [done|]. by rewrite IH.
Qed.
Lemma c_str_int z : c_str (int_string z) = int_string z.
Proof.
  apply c_str_keeps. assert (forall n : N, forallb (fun c => negb (byteZ c =? 0)) (chars (pretty n)) = true) as H.
  { intros n. pose proof (pretty_digits n) as H. rewrite forallb_forall in *. intros c Hc. specialize (H c Hc).
    pose proof (ascii_forall (fun c => implb (is_digit c) (negb (byteZ c =? 0))) c ltac:(by vm_compute)) as Hd.
    cbv beta in Hd. by rewrite H in Hd. }
  destruct z as [|p|p]; [by vm_compute|apply (H (Npos p))|]. unfold int_string, pretty, pretty_Z.
  rewrite chars_app, forallb_app. apply (H (Npos p)).
Qed.
Lemma getConfig_setConfig key v def d : getConfig key def (setConfig key v d).2 = (Ok (c_str v), (setConfig key v d).2).
Proof.
  unfold getConfig, setConfig, gets, modify. f_equal. cbn. set (k := c_str key).
  destruct (existsb (fun kv => String.eqb kv.1 k) (p_config d)) eqn:He.
  - unfold update_where, select_where. revert He. induction (p_config d) as [|kv l IH]; cbn; [done|].
    destruct (kv.1 =? k)%string eqn:E; cbn; rewrite E; [done|exact IH].
  - unfold select_where. rewrite List.filter_app. replace (List.filter (fun kv => (kv.1 =? k)%string) (p_config d)) with (@nil (string * string)).
    { cbn. by rewrite String.eqb_refl. }
    revert He. induction (p_config d) as [|kv l IH]; cbn; [done|]. destruct (kv.1 =? k)%string; [done|exact IH].
Qed.
Lemma on_sdb_pure {A} (m : M pool_db A) s : (m (s_db s)).2 = s_db s -> on_sdb m s = ((m (s_db s)).1, s).
Proof. intros H. unfold on_sdb. destruct (m (s_db s)) as [o db]. cbn in H. subst db. by destruct s. Qed.

Definition scan_height (s : discovery) : string :=
  match (getConfig "lastOnchainScanHeight" "" (s_db s)).1 with Ok v => v | _ => "" end.

(** C29: A scan that starts behind block [last] reads on to the tip of the chain,
    but 60 blocks at most, and remembers where it stopped.  When Core knows these
    blocks it has every announcement in them: one that another pool made for its
    url is found in whichever output of the block it is. *)
Theorem announcement_found {HC : ChainRpc} long_max c out s tip last :
  _onchain c = true -> _rpcUser c <> ""%string -> to_long long_max block_count = Ok tip -> 0 < tip ->
  scan_height s <> ""%string -> stol long_max (scan_height s) = Ok last -> last + 60 <= long_max ->
  let to := Z.min tip (last + 60) in
  (forall h, last < h <= to -> no_result (block_hash c h) = false) ->
  exists found s', onchainScan long_max c out s = (Ok found, s')
  /\ scan_height s' = (if last <? to then int_string to else scan_height s)
  /\ (forall u, u ∈ found <-> u ∈ out \/ exists h, last < h <= to /\ u ∈ announced c (block_hash c h))
  /\ (forall h url B A, last < h <= to ->
      printable url = true -> starts "http" url = true -> (length (chars url) <= 73)%nat -> url <> _publicUrl c ->
      chars (ask c "getblock" ("[" ++ quoted (block_hash c h) ++ ",2]"))
      = B ++ quote :: chars (toHex (op_return ("DGSP1" ++ url))) ++ quote :: A -> url ∈ found).
Proof.
  intros Ho Hu Ht Htip Hs Hl Hb to Hk.
  assert (forall u, u ∈ scan_blocks c (Z.to_nat (to - last)) (last + 1) out
    <-> u ∈ out \/ exists h, last < h <= to /\ u ∈ announced c (block_hash c h)) as Hfound.
  { intros u. rewrite scan_blocks_spec by (intros h ?; apply Hk; lia).
    split; (intros [?|(h & ? & ?)]; [by left|right; exists h; split; [lia|done]]). }
  assert (exists s', onchainScan long_max c out s = (Ok (scan_blocks c (Z.to_nat (to - last)) (last + 1) out), s')
    /\ scan_height s' = (if last <? to then int_string to else scan_height s)) as (s' & E & Eh).
  { unfold onchainScan. rewrite Ho, (proj2 (String.eqb_neq _ _) Hu). cbn [negb orb].
    unfold mbind, M_bind, lift at 1. rewrite Ht. rewrite (proj2 (Z.leb_gt _ _) Htip).
    rewrite on_sdb_pure by done. destruct (getConfig "lastOnchainScanHeight" "" (s_db s)).1 as [v| | |] eqn:Ev;
      unfold scan_height in *; rewrite Ev in *; try done.
    rewrite (proj2 (String.eqb_neq _ _) Hs), Hl. unfold lift, add_long, MAXPERCYCLE.
    rewrite (proj2 (Z.leb_le _ _) Hb). fold to. destruct (last <? to); cbn [when].
    - unfold on_sdb. destruct (setConfig "lastOnchainScanHeight" (int_string to) (s_db s)) as [o db] eqn:Eset.
      pose proof (getConfig_setConfig "lastOnchainScanHeight" (int_string to) "" (s_db s)) as Eg. rewrite Eset in Eg. cbn [snd] in Eg.
      assert (o = Ok tt) as -> by (unfold setConfig, modify in Eset; by injection Eset as <- _).
      eexists. split; [reflexivity|]. cbn [s_db]. rewrite Eg. cbn. apply c_str_int.
    - exists s. split; [done|]. by rewrite Ev. }
  exists (scan_blocks c (Z.to_nat (to - last)) (last + 1) out), s'. split_and!; try done.
  intros h url B A Hh Hp Hhttp Hlen Hown Ebody. apply Hfound. right. exists h. split; [done|].
  by apply (announcement_in_block c (block_hash c h) url B A).
Qed.

(** A chain of 105 blocks, the last of which announces another pool. *)
Definition other_pool : string := "https://pool.example".
Definition tx_json : string :=
  "{" ++ quoted "result" ++ ":{" ++ quoted "tx" ++ ":[{" ++ quoted "hex" ++ ":" ++ quoted (toHex (op_return ("DGSP1" ++ other_pool))) ++ "}]}}".
Definition small_chain (missing : string) : ChainRpc := {|
  rpc_answer := fun _ method params =>
    if String.eqb method "getblockhash"
    then Some ("{" ++ quoted "result" ++ ":" ++ (if String.eqb params missing then "null" else quoted ("h" ++ params)) ++ "}")%string
    else if contains (chars "h[105]") (chars params) then Some tx_json else Some "{}"%string;
  block_count := dbl 105 |}.
Definition scanner : pool_identity := mk_pool_identity "https://mine.example" "" [] true "user" "".
Definition scanned_to (h : string) : discovery := mk_discovery (setConfig "lastOnchainScanHeight" h buildSchema).2 ∅ ∅ [] [].
Lemma announcement_found_witness :
  exists found s', onchainScan (H := small_chain "") 2147483647 scanner ∅ (scanned_to "100") = (Ok found, s')
  /\ scan_height s' = "105"%string /\ other_pool ∈ found.
Proof.
  destruct (announcement_found (HC := small_chain "") 2147483647 scanner ∅ (scanned_to "100") 105 100) as (found & s' & E & Eh & Hf & _);
    try (vm_compute; (reflexivity || discriminate)).
  - intros h Hh. assert (h = 101 \/ h = 102 \/ h = 103 \/ h = 104 \/ h = 105) as Hc by (cbn in Hh; lia).
    destruct Hc as [->|[->|[->|[->| ->]]]]; vm_compute; reflexivity.
  - exists found, s'. split; [done|]. split; [rewrite Eh; vm_compute; reflexivity|].
    apply Hf. right. exists 105. split; [cbn; lia|]. apply (bool_decide_unpack _). vm_compute. exact I.
Defined.

(** A block that Core cannot name ends the scan, but the height is advanced past
    it and everything behind it: their announcements are never read. *)
Lemma unavailable_blocks_skipped :
  let r := onchainScan (H := small_chain "[101]") 2147483647 scanner ∅ (scanned_to "100") in
  r.1 = Ok ∅ /\ scan_height r.2 = "105"%string.
Proof. vm_compute. split; reflexivity. Qed.

(** ** The wallet *)
(** The wallet is open after these calls (latest first). *)
Fixpoint left_open (calls : list (string * string)) : bool :=
  match calls with
  | [] => false
  | (m, _) :: calls => if String.eqb m "walletlock" then false else if String.eqb m "walletpassphrase" then true else left_open calls
  end.
Definition sends (calls : list (string * string)) : nat := length (List.filter (fun c => String.eqb c.1 "sendrawtransaction") calls).

Definition last_announced (s : discovery) : Z :=
  match (getConfig "lastOnchainAnnounce" "0" (s_db s)).1 with Ok v => announced_last v | _ => 0 end.

Definition called (call : string * string) (s : discovery) : discovery :=
  mk_discovery (s_db s) (_directory s) (_directoryNodesJson s) (call :: calls s) (posts s).
Lemma rpc_called {HC : ChainRpc} c method params s :
  _rpcUser c <> ""%string ->
  rpcRaw c method params s = (Ok (default ""%string (rpc_answer (calls s) method params)), called (method, params) s).
Proof. intros Hu. unfold rpcRaw. by rewrite (proj2 (String.eqb_neq _ _) Hu). Qed.

(** The end of an announcement that began in [s] *)
Definition ends_well (s s' : discovery) : Prop :=
  exists new, calls s' = new ++ calls s /\ (sends new <= 1)%nat /\ left_open new = false
  /\ (sends new = 0%nat -> s_db s' = s_db s) /\ _directory s' = _directory s.
Ltac calls_since l base := match l with base => constr:(@nil (string * string)) | ?x :: ?l' => let p := calls_since l' base in constr:(x :: p) end.
Ltac well := match goal with |- ends_well ?s ?s' =>
  let l := eval cbn [calls called s_db snd fst] in (calls s') in let new := calls_since l (calls s) in exists new; cbn; split_and!; (done || lia) end.

Ltac call_core := rewrite rpc_called by done; cbn [fst snd]; try match goal with |- context [default ""%string (rpc_answer ?a ?b ?d)] => generalize (default ""%string (rpc_answer a b d)); intros ? end.
Lemma send_announcement_well {HC : ChainRpc} c data now s :
  _rpcUser c <> ""%string -> ends_well s (send_announcement c data now s).2.
Proof.
  intros Hu. unfold send_announcement, unlock_wallet, lock_wallet, when, on_sdb, setConfig, modify, mbind, M_bind, mret, M_ret.
  destruct (_walletPass c =? "")%string; cbn [negb];
    repeat (call_core || (case_match; [repeat call_core; well|])).
  all: well.
Qed.

(** Announcing asks Core to send at most one transaction and leaves the wallet
    locked whenever it unlocked it; within a week of the last announcement it
    does nothing at all unless it is forced; and the date is only moved when a
    transaction was sent. *)
Theorem announce_once_and_lock {HC : ChainRpc} c force now s :
  exists new, let s' := (doOnchainAnnounce c force now s).2 in
  calls s' = new ++ calls s /\ (sends new <= 1)%nat /\ left_open new = false
  /\ (force = false -> now - last_announced s < 7 * 24 * 3600 -> new = [])
  /\ (sends new = 0%nat -> s_db s' = s_db s) /\ _directory s' = _directory s.
Proof.
  cut (ends_well s (doOnchainAnnounce c force now s).2
       /\ (force = false -> now - last_announced s < 7 * 24 * 3600 -> (doOnchainAnnounce c force now s).2 = s)).
  { intros [(new & E & H1 & H2 & H3 & H4) Hweek]. exists new. cbv zeta. split_and!; try done. intros Hf Hw.
    rewrite (Hweek Hf Hw) in E. by apply (app_inv_tail (calls s) [] new) in E. }
  assert (ends_well s s) as Hs by (exists []; cbn; split_and!; (done || lia)).
  unfold doOnchainAnnounce. destruct (_publicUrl c =? "")%string; [done|].
  destruct (String.eqb_spec (_rpcUser c) "") as [|Hu]; [done|].
  set (rest := fun early : bool => _).
  set (early := if force then _ else _).
  assert (early s = (Ok (negb force && (now - last_announced s <? 7 * 24 * 3600)), s)) as He.
  { unfold early. destruct force; [done|]. cbn [negb andb]. unfold mbind, M_bind. by rewrite on_sdb_pure. }
  assert ((early ≫= rest) s = rest (negb force && (now - last_announced s <? 7 * 24 * 3600)) s) as ->.
  { unfold mbind, M_bind. by rewrite He. }
  unfold rest. destruct (Z.ltb_spec (now - last_announced s) (7 * 24 * 3600)) as [Hw|Hw], force; cbn [negb andb]; try done;
    (split; [case_match; [done|by apply send_announcement_well]|]); intros Hf Hw2; (discriminate Hf || lia).
Qed.
