(* ===== verification/PoolPayoutTheorems.v ===== *)
(** PoolPayoutTheorems: the pool pays at most once per period, whatever the
    operator presses, whatever DigiByte Core answers and wherever the process
    dies; what is sent is what the ledger says; and a planned batch cannot be
    rejected for a bad address or an amount below the dust limit. *)

From Stdlib Require Import Floats.SpecFloat.
From stdpp Require Import pretty.
From S2P Require Import Prelude.
From S2P Require Import BitIOCodec.
From S2P Require Import BitIOText.
From S2P Require Import CString.
From S2P Require Import Sql.
From S2P Require Import StoragePlan.
From S2P Require Import StoragePlanTheorems.
From S2P Require Import PoolDatabase.
From S2P Require Import PoolText.
From S2P Require Import PoolServer.
From S2P Require Import PoolTheorems.
From S2P Require Import PoolPayout.

Ltac Zify.zify_post_hook ::= Z.div_mod_to_equations.

(** ** The dashboard in its world

    A state is the clock and the dashboard.  The operator presses keys, the
    minute's check runs, the other threads write to the database, the process
    dies (also right after Core was asked to send) and starts again. *)
Section world.
Context (P : Z).      (** poolpayoutperiodhours *)

Definition ledger_free (o : pool_op) : Prop :=
  match o with OpPayout _ _ _ _ | OpPending _ _ _ | OpBeginPeriod _ | OpAbortPeriod _ => False | _ => True end.
Definition restart (d : dashboard) : dashboard := mk_dashboard (d_db d) [] false 0 0 0 false (sent d).
Definition may_look (t : Z) (e : environment) (later : Z) : Prop := t <= e_now e <= later /\ periodHours (e_cfg e) = P.

Inductive tick : Z * dashboard -> Z * dashboard -> Prop :=
  | tick_key key e answer later t d : may_look t e later -> tick (t, d) (later, (processKey key e answer later d).2)
  | tick_auto e answer later t d : may_look t e later -> tick (t, d) (later, (maybeAutoPayout e answer later d).2)
  | tick_other o t d : ledger_free o -> tick (t, d) (t, set_db (run_op o (d_db d)).2 d)
  | tick_restart t d : tick (t, d) (t, restart d)
  | tick_crash_confirmed answer now t d :
      t <= now -> _awaitingPayoutConfirm d = true ->
      tick (t, d) (now, restart (broadcast answer now (set_awaiting false d)).2)
  | tick_crash_auto e answer t d d' :
      may_look t e (e_now e) -> _awaitingPayoutConfirm d = false -> planPayout e d = (Ok true, d') ->
      tick (t, d) (e_now e, restart (broadcast answer (e_now e) d').2).

Definition lastPayoutAt (d : dashboard) : Z := max_of po_owedAt 0 (p_ledger (d_db d)).
Definition moved (r : request) : Prop := rq_result r <> Nothing.
Definition apart (later earlier : request) : Prop := moved earlier -> rq_at earlier + P * 3600 <= rq_at later.

Definition ids_ok (db : pool_db) : Prop := forall r, r ∈ p_ledger db -> po_id r <= p_ledger_sequence db.

Definition ledger_ok (d : dashboard) : Prop := ids_ok (d_db d) /\ 0 <= p_ledger_sequence (d_db d).

Definition due (from now : Z) (d : dashboard) : Prop :=
  (forall r, r ∈ sent d -> moved r -> rq_at r + P * 3600 <= now) /\ (0 < from -> from + P * 3600 <= now).

(** [from] is the last payout when the observation begins. *)
Record payouts_ok (from : Z) (s : Z * dashboard) : Prop := mk_payouts_ok {
  clock_positive : 0 < s.1;
  from_past : from <= lastPayoutAt s.2;
  sequence_ok : ledger_ok s.2;
  sent_before r : r ∈ sent s.2 -> 0 < rq_at r <= s.1;
  sent_guarded r : r ∈ sent s.2 -> moved r -> rq_at r <= lastPayoutAt s.2;
  sent_apart : ForallOrdPairs apart (sent s.2);
  sent_after r : r ∈ sent s.2 -> 0 < from -> from + P * 3600 <= rq_at r;
  confirm_apart : _awaitingPayoutConfirm s.2 = true -> due from s.1 s.2 }.

(** *** The ledger *)
Lemma max_of_snoc {R} (f : R -> Z) l r : 0 <= f r -> max_of f 0 (l ++ [r]) = Z.max (max_of f 0 l) (f r).
Proof. intros H. destruct l as [|x l]; cbn [app max_of foldl]; [lia|]. by rewrite foldl_app. Qed.

Definition owed (now : Z) (r : payout_row) : Prop := now <= po_owedAt r.
(** [db'] has rows of time [now] or later behind those of [db]. *)
Record grown (now : Z) (db db' : pool_db) : Prop := mk_grown {
  grown_ids : ids_ok db -> ids_ok db';
  grown_rows : exists rows, p_ledger db' = p_ledger db ++ rows /\ Forall (owed now) rows;
  grown_seq : p_ledger_sequence db <= p_ledger_sequence db' }.
Lemma grown_refl now db : grown now db db.
Proof. split; [done| |done]. exists []. by rewrite app_nil_r. Qed.
Lemma grown_trans now a b c : grown now a b -> grown now b c -> grown now a c.
Proof.
  intros [? (r1 & E1 & F1) ?] [? (r2 & E2 & F2) ?]. split; [auto| |lia].
  exists (r1 ++ r2). rewrite E2, E1, app_assoc. split; [done|by apply Forall_app].
Qed.
Lemma insert_payout_grown lo a sat now txid at_ db :
  lo <= now -> let r := insert_payout a sat now txid at_ db in
  grown lo db r.2 /\ r.1 = Ok (p_ledger_sequence db + 1)
  /\ p_ledger r.2 = p_ledger db ++ [mk_payout_row (p_ledger_sequence db + 1) a sat now txid at_]
  /\ p_ledger_sequence r.2 = p_ledger_sequence db + 1.
Proof.
  intros Hlo. unfold insert_payout, mbind, M_bind, gets, modify, mret, M_ret.
  cbn. split_and!; try done. split; cbn; [|exists [mk_payout_row (p_ledger_sequence db + 1) a sat now txid at_]; split; [done|by apply Forall_singleton]|lia].
  intros H r [Hr| ->%list_elem_of_singleton]%elem_of_app; cbn; [|lia]. specialize (H r Hr). lia.
Qed.
Lemma grown_last now db db' : 0 <= now -> grown now db db' -> max_of po_owedAt 0 (p_ledger db) <= max_of po_owedAt 0 (p_ledger db').
Proof.
  intros Hn [_ (rows & -> & Hr) _]. induction rows as [|r rows IH] using rev_ind; [by rewrite app_nil_r|].
  apply Forall_app in Hr as [Hr [Hx _]%Forall_cons]. unfold owed in Hx. rewrite app_assoc, max_of_snoc by lia.
  specialize (IH Hr). lia.
Qed.
Lemma last_now now db db' r :
  0 <= now -> grown now db db' -> r ∈ p_ledger db -> po_owedAt r = now -> now <= max_of po_owedAt 0 (p_ledger db').
Proof.
  intros Hn Hg Hr E. transitivity (max_of po_owedAt 0 (p_ledger db)); [|by apply (grown_last now)].
  clear Hg. revert Hr. induction (p_ledger db) as [|x l IH] using rev_ind; [intros H; by apply elem_of_nil in H|].
  destruct (Z.le_gt_cases 0 (po_owedAt x)) as [Hx|Hx].
  - rewrite max_of_snoc by done. intros [Hr| ->%list_elem_of_singleton]%elem_of_app; [specialize (IH Hr)|]; lia.
  - intros [Hr| ->%list_elem_of_singleton]%elem_of_app; [|lia]. specialize (IH Hr).
    destruct l as [|y l]; [by apply elem_of_nil in Hr|]. cbn [app max_of] in *. rewrite foldl_app. cbn. lia.
Qed.

(** *** The parts of a payout *)
Lemma record_all_grown f pays now d :
  (forall a sat db, grown now db (f a sat db).2) ->
  grown now (d_db d) (d_db (record_all f pays d).2) /\ sent (record_all f pays d).2 = sent d
  /\ _awaitingPayoutConfirm (record_all f pays d).2 = _awaitingPayoutConfirm d.
Proof.
  intros Hf. revert d. unfold record_all. induction pays as [|[a x] pays IH]; intros d; cbn [for_each].
  - split; [apply grown_refl|done].
  - unfold mbind, M_bind, lift. cbn [fst snd]. destruct (payoutSats x) as [sat| | |]; try (split; [apply grown_refl|done]).
    unfold on_db at 1 3 5. specialize (Hf a sat (d_db d)). destruct (f a sat (d_db d)) as [o db] eqn:E. cbn [snd] in Hf.
    destruct o; cbn [snd set_db d_db sent _awaitingPayoutConfirm]; try done.
    destruct (IH (set_db db d)) as (H1 & H2 & H3). cbn in H1, H2, H3. split_and!; [|done|done].
    by apply (grown_trans _ _ db).
Qed.

Lemma sendMany_spec pays answer now d :
  let r := sendMany pays answer now d in
  d_db r.2 = d_db d /\ _awaitingPayoutConfirm r.2 = _awaitingPayoutConfirm d /\ _pendingPayouts r.2 = _pendingPayouts d
  /\ ((sent r.2 = sent d /\ forall x, r.1 = Ok x -> x = Nothing)
      \/ exists x, r.1 = Ok x /\ sent r.2 = mk_request now pays x :: sent d).
Proof.
  unfold sendMany. case_match; cbn.
  - split_and!; try done. left. split; [done|]. by intros x [= <-].
  - unfold mbind, M_bind, lift. destruct (amounts_json pays) as [[s|]| | |]; cbn; split_and!; try done;
      [right; eauto|left; split; [done|by intros x [= <-]]|left..]; done.
Qed.

Definition pays_ok (now : Z) (d d' : dashboard) : Prop :=
  ids_ok (d_db d') /\ lastPayoutAt d <= lastPayoutAt d' /\ _awaitingPayoutConfirm d' = _awaitingPayoutConfirm d
  /\ (sent d' = sent d
      \/ exists r, sent d' = r :: sent d /\ rq_at r = now /\ (moved r -> now <= lastPayoutAt d')).

Definition guard_row (now : Z) (db : pool_db) : payout_row :=
  mk_payout_row (p_ledger_sequence db + 1) PERIOD_GUARD 0 now None None.
Lemma broadcast_spec answer now d :
  let r := broadcast answer now d in
  p_ledger (d_db r.2) = p_ledger (d_db d) ++ [guard_row now (d_db d)]
  /\ grown now (d_db d) (d_db r.2)
  /\ _awaitingPayoutConfirm r.2 = _awaitingPayoutConfirm d /\ _pendingPayouts r.2 = _pendingPayouts d
  /\ (forall id x, r.1 = Ok (id, x) -> id = p_ledger_sequence (d_db d) + 1)
  /\ ((sent r.2 = sent d /\ forall id x, r.1 = Ok (id, x) -> x = Nothing)
      \/ exists id x, r.1 = Ok (id, x) /\ sent r.2 = mk_request now (_pendingPayouts d) x :: sent d).
Proof.
  unfold broadcast, on_db, beginPayoutPeriod, mbind, M_bind, get, mret, M_ret.
  destruct (insert_payout_grown now PERIOD_GUARD 0 now None None (d_db d) (Z.le_refl now)) as (Hg & E1 & E2 & E3).
  destruct (insert_payout _ _ _ _ _ _) as [o db]. cbn in *. subst o.
  set (d1 := set_db db d). destruct (sendMany_spec (_pendingPayouts d) answer now d1) as (F1 & F2 & F3 & F4).
  change (_pendingPayouts d1) with (_pendingPayouts d).
  destruct (sendMany (_pendingPayouts d) answer now d1) as [o d2]. cbn in *. rewrite <- F1 in E2, Hg.
  destruct o as [x| | |]; cbn; (split_and!; [done|done|done|done|congruence|]).
  - destruct F4 as [[F4 F5]|(y & [= ->] & F4)]; [left|right; eauto].
    split; [done|]. intros ? ? [= _ <-]. by apply F5.
  - left. destruct F4 as [[F4 _]|(y & [=] & _)]. done.
  - left. destruct F4 as [[F4 _]|(y & [=] & _)]. done.
  - left. destruct F4 as [[F4 _]|(y & [=] & _)]. done.
Qed.

(** Undoing the guard brings the old ledger back: no older row has its id. *)
Lemma abort_undoes now d db :
  ids_ok (d_db d) -> p_ledger db = p_ledger (d_db d) ++ [guard_row now (d_db d)] -> 0 <= p_ledger_sequence (d_db d) ->
  p_ledger (abortPayoutPeriod (p_ledger_sequence (d_db d) + 1) db).2 = p_ledger (d_db d)
  /\ p_ledger_sequence (abortPayoutPeriod (p_ledger_sequence (d_db d) + 1) db).2 = p_ledger_sequence db.
Proof.
  intros Hids E Hs. unfold abortPayoutPeriod. rewrite (proj2 (Z.ltb_ge _ _)) by lia. cbn. split; [|done].
  rewrite E. unfold delete_where. rewrite List.filter_app. cbn. rewrite Z.eqb_refl. cbn. rewrite app_nil_r.
  unfold ids_ok in Hids. clear E. induction (p_ledger (d_db d)) as [|r l IH]; cbn; [done|].
  assert (po_id r <= p_ledger_sequence (d_db d)) by (apply Hids; left).
  destruct (Z.eqb_spec (po_id r) (p_ledger_sequence (d_db d) + 1)); [lia|]. cbn. f_equal. apply IH. intros x Hx. apply Hids. by right.
Qed.

Lemma broadcast_pays answer now d :
  0 < now -> ledger_ok d -> pays_ok now d (broadcast answer now d).2 /\ ledger_ok (broadcast answer now d).2.
Proof.
  intros Hnow [Hids Hseq]. destruct (broadcast_spec answer now d) as (E & Hg & Ha & _ & _ & Hs).
  assert (now <= lastPayoutAt (broadcast answer now d).2) as Hl.
  { unfold lastPayoutAt. apply (last_now now (d_db (broadcast answer now d).2) _ (guard_row now (d_db d))); [lia|apply grown_refl| |done].
    rewrite E. set_solver. }
  split; [split_and!|split].
  - by apply (grown_ids _ _ _ Hg).
  - apply (grown_last now); [lia|done].
  - done.
  - destruct Hs as [[Hs _]|(id & x & _ & Hs)]; [by left|right]. eexists. by split_and!.
  - by apply (grown_ids _ _ _ Hg).
  - pose proof (grown_seq _ _ _ Hg). lia.
Qed.

Lemma executePayout_pays answer now later d :
  0 < now -> now <= later -> ledger_ok d -> pays_ok now d (executePayout answer now later d).2 /\ ledger_ok (executePayout answer now later d).2.
Proof.
  intros Hnow Hlater Hok. destruct (broadcast_pays answer now d Hnow Hok) as [Hpays Hok'].
  destruct (broadcast_spec answer now d) as (E & Hg & Ha & Hp & Hid & Hs).
  unfold executePayout, mbind, M_bind.
  destruct (broadcast answer now d) as [[[id x]| | |] d1] eqn:Eb; cbn [fst snd] in *; try done.
  specialize (Hid id x eq_refl). subst id.
  assert (forall f pays, (forall a sat db, grown now db (f a sat db).2) ->
    let d2 := (record_all f pays d1).2 in
    grown now (d_db d1) (d_db d2) /\ pays_ok now d d2 /\ ledger_ok d2) as Hrec.
  { intros f pays Hf. destruct (record_all_grown f pays now d1 Hf) as (H1 & H2 & H3). cbn. split; [done|].
    destruct Hpays as (P1 & P2 & P3 & P4), Hok' as [O1 O2].
    assert (lastPayoutAt d1 <= lastPayoutAt (record_all f pays d1).2) by (apply (grown_last now); [lia|done]).
    pose proof (grown_ids _ _ _ H1 O1). pose proof (grown_seq _ _ _ H1). split; [|by split; [|lia]].
    split_and!; [done|lia|congruence|]. rewrite H2. destruct P4 as [?|(r & ? & ? & Hm)]; [by left|right].
    exists r. split_and!; [done|done|]. intros Hr. specialize (Hm Hr). lia. }
  unfold settle, mbind, M_bind, get, modify. cbn [fst snd].
  destruct x as [txid| |].
  - specialize (Hrec (fun a sat => recordPayout a sat txid later) (_pendingPayouts d1)) as (_ & H1 & H2).
    { intros a sat db. unfold recordPayout, mbind, M_bind, mret, M_ret.
      destruct (insert_payout_grown now (c_str a) sat later (Some (c_str txid)) (Some later) db Hlater) as (Hgr & E1 & _).
      destruct (insert_payout _ _ _ _ _ _) as [o db']. cbn in E1, Hgr. by subst o. }
    revert H1 H2. destruct (record_all _ _ d1) as [[] d2]; intros H1 H2; by split.
  - destruct Hok as [Hids Hseq]. unfold on_db. destruct (abort_undoes now d (d_db d1) Hids E Hseq) as [A1 A2].
    destruct (abortPayoutPeriod _ _) as [o db] eqn:Eabort. cbn in A1, A2.
    assert (pays_ok now d (set_pending [] (set_db db d1)) /\ ledger_ok (set_pending [] (set_db db d1))) as Hres.
    { destruct Hpays as (P1 & P2 & P3 & P4), Hok' as [O1 O2]. pose proof (grown_seq _ _ _ Hg).
      split; [split_and!|split]; unfold ids_ok, lastPayoutAt; cbn; rewrite ?A1, ?A2; try done; try lia.
      - intros r Hr. specialize (Hids r Hr). lia.
      - destruct Hs as [[Hs _]|(id & x & [= <- <-] & Hs)]; [by left|right]. rewrite Hs. eexists. split_and!; [done|done|].
        by intros [].
      - intros r Hr. specialize (Hids r Hr). lia. }
    unfold abortPayoutPeriod in Eabort. case_match; injection Eabort as <- <-; exact Hres.
  - specialize (Hrec (fun a sat => recordPendingPayout a sat later) (_pendingPayouts d1)) as (_ & H1 & H2).
    { intros a sat db. unfold recordPendingPayout, mbind, M_bind, mret, M_ret.
      destruct (insert_payout_grown now (c_str a) sat later None None db Hlater) as (Hgr & E1 & _).
      destruct (insert_payout _ _ _ _ _ _) as [o db']. cbn in E1, Hgr. by subst o. }
    revert H1 H2. destruct (record_all _ _ d1) as [[] d2]; intros H1 H2; by split.
Qed.

(** *** The plan *)
Lemma getVerifiedPayoutTargets_keeps c now db : (getVerifiedPayoutTargets c now db).2 = db.
Proof.
  apply (keeps_bind (fun x => x)); [unfold getPlanNodes; keeps_all; try done|intros nodes].
  apply (keeps_bind (fun x => x)); [unfold getPlanCids; keeps_all; try done|intros cids; keeps_all].
Qed.

Lemma planned_due e last targets p :
  0 < periodHours (e_cfg e) -> 0 < last -> planned_payments e last targets = Ok (Some p) ->
  last + periodHours (e_cfg e) * 3600 <= e_now e.
Proof.
  intros H1 H2. unfold planned_payments. repeat (case_match; [discriminate|]). intros _.
  match goal with H : (0 <? _) && (0 <? last) && _ = false |- _ =>
    rewrite !(proj2 (Z.ltb_lt _ _)) in H by assumption; cbn [andb] in H; apply Z.ltb_ge in H; lia end.
Qed.

Lemma planPayout_spec e d :
  let r := planPayout e d in
  d_db r.2 = d_db d /\ sent r.2 = sent d /\ _awaitingPayoutConfirm r.2 = _awaitingPayoutConfirm d
  /\ (r.1 = Ok true -> 0 < periodHours (e_cfg e) -> 0 < lastPayoutAt d ->
      lastPayoutAt d + periodHours (e_cfg e) * 3600 <= e_now e).
Proof.
  unfold planPayout, mbind, M_bind, modify, on_db, getLastPayoutAt, gets, lift. cbn.
  pose proof (getVerifiedPayoutTargets_keeps (configFrom (e_cfg e)) (e_now e) (d_db d)) as Hk.
  destruct (getVerifiedPayoutTargets _ _ _) as [[targets| | |] db]; cbn in Hk |- *; subst db; try done.
  fold (lastPayoutAt d). destruct (planned_payments e (lastPayoutAt d) targets) as [[p|]| | |] eqn:Ep; cbn; try done.
  split_and!; try done. intros _ HP Hl. by apply (planned_due e _ targets p).
Qed.

(** *** Every step keeps the invariant *)
Lemma run_op_ledger o db : ledger_free o ->
  p_ledger (run_op o db).2 = p_ledger db /\ p_ledger_sequence (run_op o db).2 = p_ledger_sequence db.
Proof.
  intros Ho. split; revert db; [change (keeps p_ledger (run_op o))|change (keeps p_ledger_sequence (run_op o))];
    (destruct o; cbn in Ho; try done; cbn [run_op];
      try (apply keeps_bind; [apply keeps_removePermanentCids; done|intros; apply keeps_ret]);
      unfold_ops; keeps_all; done).
Qed.

Lemma due_later from now later d : due from now d -> now <= later -> due from later d.
Proof. intros [H1 H2] Hl. split; [intros r Hr Hm; specialize (H1 r Hr Hm); lia|lia]. Qed.

Lemma due_planned from t e later d :
  0 < P -> may_look t e later -> payouts_ok from (t, d) -> (planPayout e d).1 = Ok true -> due from (e_now e) d.
Proof.
  intros HP [Ht HPe] [] Hplan. cbn in *. destruct (planPayout_spec e d) as (_ & _ & _ & H). rewrite HPe in H.
  specialize (H Hplan HP). split.
  - intros r Hr Hm. specialize (sent_before0 r Hr). specialize (sent_guarded0 r Hr Hm). lia.
  - lia.
Qed.

Lemma payouts_ok_idle from t now d d' :
  payouts_ok from (t, d) -> t <= now -> p_ledger (d_db d') = p_ledger (d_db d) ->
  p_ledger_sequence (d_db d') = p_ledger_sequence (d_db d) -> sent d' = sent d ->
  (_awaitingPayoutConfirm d' = true -> due from now d) -> payouts_ok from (now, d').
Proof.
  intros [] Ht El Es E Ha. cbn in *.
  split; unfold ledger_ok, ids_ok, lastPayoutAt, due in *; cbn; rewrite ?El, ?Es, ?E; try done; try lia.
  intros r Hr. specialize (sent_before0 r Hr). lia.
Qed.

Lemma payouts_ok_pay from t now later d d' :
  payouts_ok from (t, d) -> t <= now <= later -> due from now d -> _awaitingPayoutConfirm d = false ->
  pays_ok now d d' -> ledger_ok d' -> payouts_ok from (later, d').
Proof.
  intros [] Ht [Hd Hf] Ha (P1 & P2 & P3 & P4) Hok. cbn in *. assert (0 < now) by lia.
  destruct P4 as [E|(q & E & Hq & Hm)].
  { split; cbn; try done; try lia; rewrite ?E; try done; try congruence.
    - intros r Hr. specialize (sent_before0 r Hr). lia.
    - intros r Hr Hmr. specialize (sent_guarded0 r Hr Hmr). lia. }
  split; cbn; try done; try lia; rewrite ?E; try congruence.
  - intros r [->|Hr]%elem_of_cons; [lia|]. specialize (sent_before0 r Hr). lia.
  - intros r [->|Hr]%elem_of_cons Hmr; [specialize (Hm Hmr); lia|]. specialize (sent_guarded0 r Hr Hmr). lia.
  - constructor; [|done]. apply Forall_forall. intros r Hr Hmr. rewrite Hq. by apply Hd.
  - intros r [->|Hr]%elem_of_cons Hfr; [rewrite Hq; by apply Hf|]. by apply sent_after0.
Qed.

Lemma executePayout_ok from t now later answer d d0 :
  payouts_ok from (t, d0) -> t <= now <= later -> due from now d0 -> d_db d = d_db d0 -> sent d = sent d0 ->
  _awaitingPayoutConfirm d = false ->
  payouts_ok from (later, (executePayout answer now later d).2) /\ payouts_ok from (now, restart (broadcast answer now d).2).
Proof.
  intros Hok [Ht Hlater] Hdue Edb Es Ha.
  assert (payouts_ok from (t, d)) as Hok'.
  { apply (payouts_ok_idle from t t d0); rewrite ?Edb; try done; congruence. }
  assert (due from now d) as Hdue'. { unfold due. by rewrite Es. }
  assert (0 < now). { destruct Hok. cbn in *. lia. }
  destruct (executePayout_pays answer now later d) as [H1 H2], (broadcast_pays answer now d) as [H3 H4];
    try done; [by destruct Hok'..|].
  split.
  { apply (payouts_ok_pay from t now later d); auto. }
  pose proof (payouts_ok_pay from t now now d _ Hok' (conj Ht (Z.le_refl now)) Hdue' Ha H3 H4) as H5.
  by apply (payouts_ok_idle from now now (broadcast answer now d).2).
Qed.

Lemma processKey_ok from key t e answer later d :
  0 < P -> may_look t e later -> payouts_ok from (t, d) -> payouts_ok from (later, (processKey key e answer later d).2).
Proof.
  intros HP Hlook Hok. assert (t <= later) as Ht by (destruct Hlook; lia). unfold processKey, mbind, M_bind, get, modify, mret, M_ret. cbn.
  assert (forall b, due from later d -> payouts_ok from (later, set_awaiting b d)) as Hset.
  { intros b Hdue. by apply (payouts_ok_idle from t _ d). }
  assert (_awaitingPayoutConfirm d = true -> due from later d) as Hconfirm.
  { intros Ha. apply (due_later from t); [apply (confirm_apart _ _ Hok Ha)|done]. }
  case_match; cbn; [apply (payouts_ok_idle from t _ d); auto|].
  destruct (_awaitingPayoutConfirm d) eqn:Ha; cbn.
  - case_match; [|by apply (payouts_ok_idle from t _ d)].
    apply (executePayout_ok from t (e_now e) later answer (set_awaiting false d) d); auto; [apply Hlook|].
    apply (due_later from t); [apply (confirm_apart _ _ Hok Ha)|apply Hlook].
  - case_match; [|by apply (payouts_ok_idle from t _ d); cbn; rewrite ?Ha].
    destruct (planPayout_spec e d) as (H1 & H2 & H3 & _).
    pose proof (due_planned from t e later d HP Hlook Hok) as Hdue.
    destruct (planPayout e d) as [[[]| | |] d']; cbn in *;
      (apply (payouts_ok_idle from t _ d); cbn; rewrite ?H1, ?H2, ?H3, ?Ha; try done; try lia; intros; auto; try congruence).
    apply (due_later from (e_now e)); [auto|apply Hlook].
Qed.

Lemma maybeAutoPayout_ok from t e answer later d :
  0 < P -> may_look t e later -> payouts_ok from (t, d) -> payouts_ok from (later, (maybeAutoPayout e answer later d).2).
Proof.
  intros HP Hlook Hok. assert (t <= later) as Ht by (destruct Hlook; lia). unfold maybeAutoPayout, mbind, M_bind, get, modify, mret, M_ret, on_db, getLastPayoutAt, gets. cbn.
  assert (forall d', d_db d' = d_db d -> sent d' = sent d -> _awaitingPayoutConfirm d' = _awaitingPayoutConfirm d ->
    payouts_ok from (later, d')) as Hidle.
  { intros d' H1 H2 H3. apply (payouts_ok_idle from t _ d); rewrite ?H1; try done. rewrite H3. intros Ha.
    apply (due_later from t); [apply (confirm_apart _ _ Hok Ha)|done]. }
  repeat (match goal with |- context [if ?b then _ else _] => destruct b eqn:? end; cbn; [by apply Hidle|]).
  destruct (cfg_int _ _ _ =? 0); [unfold when; case_match; by apply Hidle|].
  destruct (periodHours _ <=? 0); [unfold when; case_match; by apply Hidle|].
  case_match; [by apply Hidle|].
  set (d0 := set_nextAttempt (e_now e + 3600) (set_db (d_db d) (set_nextCheck (e_now e + 60) d))).
  destruct (planPayout_spec e d0) as (H1 & H2 & H3 & _).
  assert (payouts_ok from (t, d0)) as Hok0 by (apply (payouts_ok_idle from t _ d); cbn; try done; congruence).
  pose proof (due_planned from t e later d0 HP Hlook Hok0) as Hdue.
  destruct (planPayout e d0) as [[[]| | |] d']; cbn in *; try (apply Hidle; congruence).
  apply (executePayout_ok from t (e_now e) later answer d' d0); auto; [apply Hlook|congruence].
Qed.

Lemma tick_ok from s s' : 0 < P -> payouts_ok from s -> tick s s' -> payouts_ok from s'.
Proof.
  intros HP Hok Ht. destruct Ht as [key e answer later t d Ht|e answer later t d Ht|o t d Ho|t d|answer now t d Ht Ha|e answer t d d' Ht Ha Hp].
  - by apply (processKey_ok from key t).
  - by apply (maybeAutoPayout_ok from t).
  - destruct (run_op_ledger o (d_db d) Ho) as [E1 E2].
    apply (payouts_ok_idle from t t d); cbn; auto; [lia|]. intros H. by apply (confirm_apart _ _ Hok).
  - by apply (payouts_ok_idle from t t d).
  - apply (executePayout_ok from t now now answer (set_awaiting false d) d); auto; [lia|].
    apply (due_later from t); [apply (confirm_apart _ _ Hok Ha)|done].
  - destruct (planPayout_spec e d) as (H1 & H2 & H3 & _). rewrite Hp in *. cbn in *.
    apply (executePayout_ok from t (e_now e) (e_now e) answer d' d); [done|apply Ht| |done|done|congruence].
    apply (due_planned from t e (e_now e)); auto. by rewrite Hp.
Qed.
End world.

Lemma ledger_ok_empty d : p_ledger (d_db d) = [] -> 0 <= p_ledger_sequence (d_db d) -> ledger_ok d.
Proof. intros E H. split; [|done]. intros r. rewrite E. by intros Hr%elem_of_nil. Qed.

(** ** Once per period *)
(** C3: Whatever the operator presses, whatever Core and the peer pools answer,
    whatever the other threads write, and wherever the process dies: between two
    requests that could move money lie at least [poolpayoutperiodhours] hours,
    counted from every payout that went out or may have gone out. *)
Theorem paid_once_per_period P t0 d0 t1 d1 :
  0 < P -> 0 < t0 -> ledger_ok d0 -> sent d0 = [] -> _awaitingPayoutConfirm d0 = false ->
  rtc (tick P) (t0, d0) (t1, d1) ->
  ForallOrdPairs (apart P) (sent d1)
  /\ forall r, r ∈ sent d1 -> 0 < lastPayoutAt d0 -> lastPayoutAt d0 + P * 3600 <= rq_at r.
Proof.
  intros HP Ht Hl Hs Ha Hsteps. assert (payouts_ok P (lastPayoutAt d0) (t0, d0)) as Hok.
  { split; cbn; rewrite ?Hs, ?Ha; try done; try constructor; set_solver. }
  assert (payouts_ok P (lastPayoutAt d0) (t1, d1)) as [].
  { revert Hok. induction Hsteps as [|s s' s'' Hstep _ IH]; [done|intros Hok]. apply IH. by apply (tick_ok P _ s). }
  split; [done|]. intros r Hr. by apply sent_after0.
Qed.

(** Two nodes, one operator who asks twice, and the automatic payout. *)
Definition pool_config : config := list_to_map [
  ("rpcuser", "u"); ("poolrpcwallet", "pool"); ("poolpayouts", "1"); ("poolautopayout", "1");
  ("poolspendperperiod", "10"); ("poolpayoutperiodhours", "24")]%string.
Definition core_says (body : string) : http :=
  if has "listunspent" body then Response 200 ("{" ++ quoted "result" ++ ":[{" ++ quoted "amount" ++ ":100.0}]}")
  else Response 200 ("{" ++ quoted "result" ++ ":{" ++ quoted "isvalid" ++ ":true}}").
Definition core_sends : http := Response 200 ("{" ++ quoted "result" ++ ":" ++ quoted "f00d" ++ "}").
Definition at_time (t : Z) : environment := mk_environment t pool_config core_says [].
Definition paying_node (p a : string) : node_row :=
  mk_node_row p a 100 1000000 1000000 0 None (dbl 1) (dbl 1) "s" (dbl 1) 5.
Definition paying_pool : dashboard :=
  mk_dashboard (mk_pool_db
    [paying_node "QmA" "DAAAAAAAAAAAAAAAAAAAAAAAAAAAAAAAAA"; paying_node "QmB" "DBBBBBBBBBBBBBBBBBBBBBBBBBBBBBBBBB"]
    [mk_perm_row "La" "tx" "bafyA" 0 0 1000; mk_perm_row "La" "tx" "bafyB" 0 0 500] [] [] [] 0 [])
    [] false 0 0 0 false [].
Definition planned_pool : dashboard := (processKey "e" (at_time 1000000) core_sends 1000001 paying_pool).2.
Definition paid_pool : dashboard := (processKey "y" (at_time 1000100) core_sends 1000130 planned_pool).2.
Definition asked_again : dashboard := (processKey "e" (at_time 1000200) core_sends 1000201 paid_pool).2.
Definition verified_again : dashboard := set_db (run_op (OpVerifySuccess "QmA" 1080000) (d_db asked_again)).2 asked_again.
Definition auto_paid : dashboard := (maybeAutoPayout (at_time (1000130 + 24 * 3600)) core_sends 1086540 verified_again).2.
Ltac looks := split; [split; vm_compute; discriminate|vm_compute; reflexivity].
Lemma paid_once_per_period_witness :
  map rq_at (sent auto_paid) = [1000130 + 24 * 3600; 1000100] /\ ForallOrdPairs (apart 24) (sent auto_paid).
Proof.
  split; [vm_compute; reflexivity|].
  apply (paid_once_per_period 24 1000000 paying_pool 1086540 auto_paid); try (vm_compute; reflexivity).
  - apply ledger_ok_empty; vm_compute; [reflexivity|discriminate].
  - eapply rtc_l; [apply (tick_key 24 "e" (at_time 1000000) core_sends 1000001); looks|].
    eapply rtc_l; [apply (tick_key 24 "y" (at_time 1000100) core_sends 1000130); looks|].
    eapply rtc_l; [apply (tick_key 24 "e" (at_time 1000200) core_sends 1000201); looks|].
    eapply rtc_l; [apply (tick_other 24 (OpVerifySuccess "QmA" 1080000)); exact I|].
    eapply rtc_l; [apply (tick_auto 24 (at_time (1000130 + 24 * 3600)) core_sends 1086540); looks|].
    apply rtc_refl.
Defined.

(** ** A planned batch is payable *)
Lemma pay_address_keys a x (p : payments) :
  (NoDup (map fst p) -> NoDup (map fst (pay_address a x p)))
  /\ forall b, b ∈ map fst (pay_address a x p) -> b = a \/ b ∈ map fst p.
Proof.
  induction p as [|[c y] p [IH1 IH2]]; cbn; [split; [intros _; apply NoDup_singleton|set_solver]|].
  destruct (String.eqb_spec c a) as [->|Hc]; cbn; [split; [done|set_solver]|]. split.
  - intros [Hn Hd]%NoDup_cons. apply NoDup_cons. split; [|auto]. intros [->|H]%IH2; done.
  - intros b [->|H]%elem_of_cons; [right; left|]. apply IH2 in H as [?|?]; [by left|right; by right].
Qed.
Lemma aggregate_addresses spend total targets :
  NoDup (map fst (aggregate spend total targets))
  /\ forall a, a ∈ map fst (aggregate spend total targets) -> a ∈ map pt_payoutAddress targets.
Proof.
  unfold aggregate. induction targets as [|t targets [IH1 IH2]] using rev_ind; [split; [constructor|set_solver]|].
  rewrite foldl_app, map_app. cbn. case_match.
  { split; [done|]. intros a Ha. specialize (IH2 a Ha). set_solver. }
  set (p := foldl _ _ _) in *. clearbody p. generalize (ddiv (dmul spend (pt_weight t)) total). intros x.
  destruct (pay_address_keys (pt_payoutAddress t) x p) as [H1 H2]. split; [auto|]. intros a [->|Ha]%H2; set_solver.
Qed.

Lemma without_paid_spec e pending l :
  without_paid e pending = Ok l ->
  (forall x, x ∈ l -> x ∈ pending) /\ (NoDup (map fst pending) -> NoDup (map fst l))
  /\ (cfg_int (e_cfg e) "poolpeerpayoutdedupe" 1 <> 0 ->
      forall paid, paid_by_peers (e_peers e) (periodHours (e_cfg e) * 3600) (e_now e) ∅ = Ok paid ->
      forall x, x ∈ l -> paid !! x.1 = None).
Proof.
  unfold without_paid. case_match eqn:Hb.
  - destruct (paid_by_peers _ _ _ _) as [paid| | |]; try discriminate. intros [= <-].
    split_and!; [|apply (nodup_map_filter fst)|]; [intros x [? _]%elem_of_filter_b; done|].
    intros _ ? [= <-] x [_ Hx]%elem_of_filter_b. by destruct (paid !! x.1).
  - intros [= <-]. split_and!; try done. intros Hd paid Hp x _.
    apply andb_false_iff in Hb as [Hb%negb_false_iff|Hb%negb_false_iff].
    + apply Z.eqb_eq in Hb. done.
    + apply bool_decide_eq_true in Hb. rewrite Hb in Hp. by injection Hp as <-.
Qed.

Lemma amounts_json_accepts (p : payments) : (forall a x, (a, x) ∈ p -> isValidDgbAddress a = true) -> amounts_json p <> Ok None.
Proof.
  induction p as [|[a x] p IH]; intros H; cbn [amounts_json]; [done|].
  rewrite (H a x) by left. cbn. destruct (payoutSats x); try done. cbn.
  assert (amounts_json p <> Ok None) as Hp by (apply IH; intros b y Hy; apply (H b y); by right).
  by destruct (amounts_json p) as [[]| | |].
Qed.

(** C26: A planned batch goes to distinct addresses of the nodes to pay, each one
    an address that the pool and Core accept and that no peer pool has paid in
    the period, each with an amount that is not dust; and it is planned only
    with payouts enabled, a wallet named and a user for Core.  So [sendMany]
    never refuses one of its addresses. *)
Theorem planned_batch_payable e last targets p :
  planned_payments e last targets = Ok (Some p) ->
  p <> [] /\ NoDup (map fst p)
  /\ payouts_enabled (e_cfg e) = true /\ walletNamed (e_cfg e) = true /\ cfgGet (e_cfg e) "rpcuser" "" <> ""%string
  /\ (forall a x, (a, x) ∈ p ->
        a ∈ map pt_payoutAddress targets /\ isValidDgbAddress a = true
        /\ coreValidatesAddress (e_core e) (cfgGet (e_cfg e) "rpcuser" "") a = true /\ isBelowDust x = false
        /\ (cfg_int (e_cfg e) "poolpeerpayoutdedupe" 1 <> 0 ->
            forall paid, paid_by_peers (e_peers e) (periodHours (e_cfg e) * 3600) (e_now e) ∅ = Ok paid -> paid !! a = None))
  /\ amounts_json p <> Ok None.
Proof.
  unfold planned_payments. cbv zeta. repeat (case_match; [discriminate|]).
  destruct (aggregate_addresses (computeBudget (e_cfg e) (e_core e) (Z.of_nat (length targets))) (total_weight targets) targets) as [Hnd Hin].
  set (all := aggregate _ _ _) in *. clearbody all.
  destruct (without_paid e all) as [l| | |] eqn:Ew; try discriminate. cbn.
  destruct (without_paid_spec _ _ _ Ew) as (W1 & W2 & W3). clear H1. case_bool_decide as Hne; [discriminate|].
  intros [= <-]. set (p := List.filter _ _) in *.
  assert (forall a x, (a, x) ∈ p -> (a, x) ∈ l /\ isBelowDust x = false /\ isValidDgbAddress a = true
    /\ coreValidatesAddress (e_core e) (cfgGet (e_cfg e) "rpcuser" "") a = true) as Hp.
  { intros a x [[Hx Hd]%elem_of_filter_b [Hv Hc]%andb_true_iff]%elem_of_filter_b. cbn in *. by apply negb_true_iff in Hd. }
  split_and!; [done|by do 2 apply (nodup_map_filter fst); auto|by apply negb_false_iff..|by apply String.eqb_neq| |].
  - intros a x Hx. destruct (Hp a x Hx) as (Hl & Hd & Hv & Hc).
    split_and!; try done; [|intros Hcfg paid Hpaid; by apply (W3 Hcfg paid Hpaid (a, x))].
    apply Hin, list_elem_of_fmap. exists (a, x). auto.
  - apply amounts_json_accepts. intros a x Hx. by destruct (Hp a x Hx) as (_ & _ & ? & _).
Qed.
Definition first_targets : list PayoutTarget :=
  match (getVerifiedPayoutTargets (configFrom pool_config) 1000000 (d_db paying_pool)).1 with Ok l => l | _ => [] end.
Lemma planned_batch_payable_witness :
  map fst (_pendingPayouts planned_pool) = ["DAAAAAAAAAAAAAAAAAAAAAAAAAAAAAAAAA"; "DBBBBBBBBBBBBBBBBBBBBBBBBBBBBBBBBB"]%string
  /\ NoDup (map fst (_pendingPayouts planned_pool)).
Proof.
  split; [vm_compute; reflexivity|].
  apply (planned_batch_payable (at_time 1000000) 0 first_targets). vm_compute. reflexivity.
Defined.

(** ** What a payout leaves behind *)
(** The rows of a batch, one per payment, in satoshi, with consecutive ids *)
Fixpoint ledger_rows (id now : Z) (txid : option string) (at_ : option Z) (p : payments) : list payout_row :=
  match p with
  | [] => []
  | (a, x) :: p =>
      mk_payout_row id (c_str a) (match payoutSats x with Ok sat => sat | _ => 0 end) now txid at_
      :: ledger_rows (id + 1) now txid at_ p
  end.
Definition payable_payment (x : string * spec_float) : Prop :=
  isValidDgbAddress x.1 = true /\ exists sat, payoutSats x.2 = Ok sat.

Lemma payable_all (p : payments) :
  forallb (fun x => isValidDgbAddress x.1 && match payoutSats x.2 with Ok _ => true | _ => false end) p = true ->
  Forall payable_payment p.
Proof.
  intros H. rewrite forallb_forall in H. apply List.Forall_forall. intros x Hx. specialize (H x Hx).
  apply andb_true_iff in H as [Hv Hs]. split; [done|]. destruct (payoutSats x.2) as [sat| | |]; try done. by exists sat.
Qed.

Lemma record_all_rows f now txid at_ p d :
  (forall a sat db, f a sat db = (Ok tt, (insert_payout (c_str a) sat now txid at_ db).2)) -> Forall payable_payment p ->
  (record_all f p d).1 = Ok tt /\ sent (record_all f p d).2 = sent d
  /\ p_ledger (d_db (record_all f p d).2)
     = p_ledger (d_db d) ++ ledger_rows (p_ledger_sequence (d_db d) + 1) now txid at_ p.
Proof.
  intros Hf. revert d. unfold record_all. induction p as [|[a x] p IH]; intros d Hp; cbn [for_each ledger_rows].
  { by rewrite app_nil_r. }
  apply Forall_cons in Hp as [[_ [sat Hsat]] Hp]. cbn in Hsat.
  unfold mbind, M_bind, lift, on_db. cbn [fst snd]. rewrite Hsat, Hf.
  destruct (insert_payout_grown now (c_str a) sat now txid at_ (d_db d) (Z.le_refl now)) as (_ & _ & E2 & E3).
  set (db := (insert_payout _ _ _ _ _ _).2) in *. clearbody db.
  destruct (IH (set_db db d) Hp) as (H1 & H2 & H3). unfold on_db, mbind, M_bind, lift in H1, H2, H3. cbn in E2, E3, H3.
  split_and!; [done|done|]. rewrite H3, E2, E3, <- app_assoc. done.
Qed.

Lemma amounts_json_ok (p : payments) : Forall payable_payment p -> exists s, amounts_json p = Ok (Some s).
Proof.
  induction p as [|[a x] p IH]; cbn [amounts_json]; [eauto|]. intros [[Hv [sat Hs]] [s E]%IH]%Forall_cons. cbn in Hv, Hs.
  rewrite Hv, Hs, E. cbn. eauto.
Qed.

(** C12: A payable batch is asked for once, and the answer decides the ledger:
    a transaction id leaves the guard of the period and one paid row per address,
    a clear refusal leaves the ledger as it was, and an answer that never came,
    or cannot be trusted, leaves the guard and the amounts owed. *)
Theorem payout_settled answer now later d :
  let p := _pendingPayouts d in
  let r := classify (sendmany_answer answer) in
  let guarded := p_ledger (d_db d) ++ [guard_row now (d_db d)] in
  p <> [] -> Forall payable_payment p -> ledger_ok d ->
  exists d', executePayout answer now later d = (Ok tt, d')
  /\ _pendingPayouts d' = [] /\ sent d' = mk_request now p r :: sent d
  /\ p_ledger (d_db d')
     = match r with
       | Sent txid => guarded ++ ledger_rows (p_ledger_sequence (d_db d) + 2) later (Some (c_str txid)) (Some later) p
       | Nothing => p_ledger (d_db d)
       | Unknown => guarded ++ ledger_rows (p_ledger_sequence (d_db d) + 2) later None None p
       end.
Proof.
  intros p r guarded Hne Hp [Hids Hseq]. destruct (amounts_json_ok p Hp) as [s Hs].
  destruct (insert_payout_grown now PERIOD_GUARD 0 now None None (d_db d) (Z.le_refl now)) as (_ & E1 & E2 & E3).
  assert (exists db, broadcast answer now d = (Ok (p_ledger_sequence (d_db d) + 1, r), add_sent (mk_request now p r) (set_db db d))
    /\ p_ledger db = guarded /\ p_ledger_sequence db = p_ledger_sequence (d_db d) + 1) as (db & Eb & El & Es).
  { unfold broadcast, sendMany, on_db, beginPayoutPeriod, mbind, M_bind, get, lift, modify, mret, M_ret.
    destruct (insert_payout _ _ _ _ _ _) as [o db]. cbn in *. subst o. fold p. rewrite bool_decide_false, Hs by done.
    by exists db. }
  unfold executePayout, mbind, M_bind. rewrite Eb. cbn [fst snd]. unfold settle, mbind, M_bind, get, modify.
  set (d1 := add_sent _ _). change (_pendingPayouts d1) with p.
  assert (forall f txid at_,
    (forall a sat db, f a sat db = (Ok tt, (insert_payout (c_str a) sat later txid at_ db).2)) ->
    exists d2, record_all f p d1 = (Ok tt, d2) /\ sent d2 = sent d1
    /\ p_ledger (d_db d2) = guarded ++ ledger_rows (p_ledger_sequence (d_db d) + 2) later txid at_ p) as Hrec.
  { intros f txid at_ Hf. destruct (record_all_rows f later txid at_ p d1 Hf Hp) as (H1 & H2 & H3).
    destruct (record_all f p d1) as [o d2]. exists d2. cbn in *. subst o. rewrite H3, El, Es. split_and!; try done.
    f_equal. f_equal. lia. }
  destruct r as [txid| |].
  - destruct (Hrec (fun a sat => recordPayout a sat txid later) (Some (c_str txid)) (Some later) ltac:(done)) as (d2 & -> & H1 & H2).
    eexists. split; [reflexivity|]. done.
  - destruct (abort_undoes now d db Hids El Hseq) as [H1 _]. unfold on_db, abortPayoutPeriod in *.
    rewrite (proj2 (Z.ltb_ge _ _)) in * by lia. eexists. split; [reflexivity|]. done.
  - destruct (Hrec (fun a sat => recordPendingPayout a sat later) None None ltac:(done)) as (d2 & -> & H1 & H2).
    eexists. split; [reflexivity|]. done.
Qed.
Lemma payout_settled_witness :
  map po_amountDgbSat (p_ledger (d_db paid_pool)) = [0; 500000000; 500000000]
  /\ exists d', executePayout (Failed "Timeout was reached") 1000100 1000160 planned_pool = (Ok tt, d')
     /\ map po_paidTxid (p_ledger (d_db d')) = [None; None; None].
Proof.
  split; [vm_compute; reflexivity|].
  destruct (payout_settled (Failed "Timeout was reached") 1000100 1000160 planned_pool) as (d' & E & _ & _ & H).
  - vm_compute. discriminate.
  - apply payable_all. vm_compute. reflexivity.
  - apply ledger_ok_empty; vm_compute; [reflexivity|discriminate].
  - exists d'. split; [done|]. rewrite H. vm_compute. reflexivity.
Defined.
