(* ===== verification/AssetWallet.v ===== *)
(** AssetWallet: spending assets with the wallet of DigiByte Core
    (src/src/AssetWallet.cpp): the coins of the wallet with their assets, the
    choice of inputs, amounts, and funding, signing and broadcasting.

    Core is an interface: its answer to a call is a function of the calls before
    it.  The state of an operation is the chain database and these calls. *)

From Stdlib Require Import Floats.SpecFloat.
From S2P Require Import Prelude.
From S2P Require Import BitIO.
From S2P Require Import BitIOCodec.
From S2P Require Import AssetTypes.
From S2P Require Import DigiAssetRules.
From S2P Require Import CString.
From S2P Require Import Database.
From S2P Require Import DigiAsset.
From S2P Require Import UtxoStore.
From S2P Require Import ChainTables.
From S2P Require Import ChainDatabase.
From S2P Require Import ChainUpdate.
From S2P Require Import DigiByteTransaction.
From S2P Require Import TransactionBuilder.

(** ** The wallet of DigiByte Core *)
Record unspenttxout_t := mk_unspent {
  us_txid : string; us_n : Z; us_address : string; us_amount : spec_float; us_confirmations : Z }.
Definition outpoint : Type := string * Z.
Definition point (u : unspenttxout_t) : outpoint := (us_txid u, us_n u).

Inductive wallet_call :=
  | call_listunspent (minconf : Z)
  | call_getblockcount
  | call_gettxout (coin : outpoint)
  | call_lockunspent (unlock : bool) (coins : list outpoint)
  | call_createrawtransaction (inputs : list outpoint) (outputs : list (string * string)) (data : string)
  | call_fundrawtransaction (hex : string) (changePosition : Z)
  | call_signrawtransactionwithwallet (hex : string)
  | call_signrawtransaction (hex : string)
  | call_decoderawtransaction (hex : string)
  | call_sendrawtransaction (hex : string)
  | call_getwalletinfo
  | call_estimatesmartfee
  | call_getrawchangeaddress
  | call_getnewaddress.

(** What Core answers after the calls before (latest first).  An exception of
    [sendcommand] is a [DigiByteException]. *)
Class CoreWallet := {
  core_listunspent : list wallet_call -> Z -> outcome (list unspenttxout_t);
  core_getblockcount : list wallet_call -> outcome Z;
  core_gettxout_null : list wallet_call -> outpoint -> outcome bool;
  core_lockunspent : list wallet_call -> bool -> list outpoint -> outcome bool;
  core_createrawtransaction : list wallet_call -> list outpoint -> list (string * string) -> string -> outcome string;
  core_fundrawtransaction : list wallet_call -> string -> Z -> outcome (string * spec_float);
  core_signwithwallet : list wallet_call -> string -> outcome (bool * string);
  core_sign : list wallet_call -> string -> outcome (bool * string);
  core_decode : list wallet_call -> string -> outcome (list vin_t);
  core_send : list wallet_call -> string -> outcome string;
  core_paytxfee : list wallet_call -> outcome (option spec_float);       (** when it is a number *)
  core_feerate : list wallet_call -> outcome (option spec_float);
  core_getrawchangeaddress : list wallet_call -> outcome string;
  core_getnewaddress : list wallet_call -> outcome string
}.

Definition DigiByteException (code : Z) (message : string) : exn :=
  class_exception ("DigiByteException " ++ int_string code) message.
Definition is_DigiByteException (e : exn) : bool :=
  match e with class_exception cls _ => starts "DigiByteException " cls | _ => false end.
Definition hasCode (code : Z) (e : exn) : bool :=
  match e with class_exception cls _ => String.eqb cls ("DigiByteException " ++ int_string code) | _ => false end.
Definition messageContains (s : string) (e : exn) : bool :=
  match e with class_exception _ what => contains (chars s) (chars what) | _ => false end.
Definition RPC_MISC_ERROR : Z := -1.
Definition RPC_INVALID_PARAMS : Z := -32602.
Definition RPC_WALLET_INSUFFICIENT_FUNDS : Z := -6.

Record wallet := mk_wallet { w_chain : chain; w_calls : list wallet_call }.
Definition on_chain {A} (m : M chain A) : M wallet A := fun w =>
  let '(o, c) := m (w_chain w) in (o, mk_wallet c (w_calls w)).
Definition ask {A} (call : wallet_call) (answer : list wallet_call -> outcome A) : M wallet A := fun w =>
  (answer (w_calls w), mk_wallet (w_chain w) (call :: w_calls w)).

(** ** Amounts *)
(** [llround]: halves away from zero; out of range there is no result. *)
Definition llround (d : spec_float) : outcome Z :=
  let rounded := match d with
    | S754_zero _ => Some 0
    | S754_finite s m e =>
        let v := if 0 <=? e then Zpos m * 2 ^ e else (2 * Zpos m + 2 ^ (- e)) / (2 * 2 ^ (- e)) in
        Some (if s then - v else v)
    | _ => None
    end in
  match rounded with
  | Some v => if (-9223372036854775808 <=? v) && (v <? 9223372036854775808) then Ok v else UB
  | None => UB
  end.
Definition dgb_sats (d : spec_float) : outcome Z := v ← llround (dmul d (dbl 100000000)); Ok (u64 v).

(** What jsoncpp makes of a JSON value that is used as an amount *)
Inductive json_amount :=
  | amount_integral (asInt64 : outcome Z) (asString : string)
  | amount_double (asDouble : spec_float)
  | amount_string (asString : string)
  | amount_other (asString : outcome string).

Definition MAX_ASSET_COUNT : Z := 18014398509481983.
Definition two63 : Z := 9223372036854775808.

(** [find('.')]: what is before the first point, and behind it *)
Definition split_point (l : list ascii) : list ascii * list ascii :=
  match split_at (ch 46) l with (w, Some f) => (w, f) | (w, None) => (w, []) end.
Fixpoint drop_zeros (l : list ascii) : list ascii :=
  match l with c :: l' => if byteZ c =? 48 then drop_zeros l' else l | [] => [] end.
(** [isdigit] of a plain [char] is undefined for a negative one. *)
Fixpoint all_digits (l : list ascii) : outcome bool :=
  match l with
  | [] => Ok true
  | c :: l => if 128 <=? byteZ c then UB else if is_digit c then all_digits l else Ok false
  end.
Definition stoull (l : list ascii) : outcome Z := stoul (two64 - 1) (str l).

Definition invalid {A} (what : string) : outcome A := Throw (out_of_range what).

Definition parse_decimal (text : string) (decimals multiplier : Z) : outcome Z :=
  if String.eqb text "" then invalid "Invalid amount"
  else
    let '(whole, frac) := split_point (chars text) in
    let frac := rev (drop_zeros (rev frac)) in
    if decimals <? Z.of_nat (length frac) then invalid "Amount has more decimals than the asset allows"
    else
      let frac := frac ++ repeat (ch 48) (Z.to_nat decimals - length frac) in
      if bool_decide (whole = []) && bool_decide (frac = []) then invalid "Invalid amount"
      else
        digits ← all_digits (whole ++ frac);
        if negb digits then invalid "Invalid amount"
        else
          wholeVal ← (if bool_decide (whole = []) then Ok 0 else stoull whole);
          if negb (multiplier =? 0) && (MAX_ASSET_COUNT / multiplier <? wholeVal) then invalid "Amount too large"
          else
            fracVal ← (if bool_decide (frac = []) then Ok 0 else stoull frac);
            let result := u64 (fracVal + u64 (wholeVal * multiplier)) in
            if result =? 0 then invalid "Amount must be positive"
            else if MAX_ASSET_COUNT <? result then invalid "Amount too large"
            else Ok result.

(** [snprintf] into 32 bytes *)
Definition printed (k : nat) (d : spec_float) : string := str (take 31 (chars (fixed k d))).
Definition parseAssetAmount (amount : json_amount) (decimals : Z) : outcome Z :=
  multiplier ← (pow10 decimals tt).1;
  match amount with
  | amount_integral asInt64 _ =>
      v ← asInt64;
      if v <=? 0 then invalid "Amount must be positive"
      else if negb (multiplier =? 0) && (MAX_ASSET_COUNT / multiplier <? v) then invalid "Amount too large"
      else Ok (u64 (v * multiplier))
  | amount_double d => parse_decimal (printed (Z.to_nat decimals) d) decimals multiplier
  | amount_string s => parse_decimal s decimals multiplier
  | amount_other s => s ← s; parse_decimal s decimals multiplier
  end.

Definition satsToDecimal (sats : Z) : string :=
  let frac := chars (to_string (sats mod 100000000)) in
  to_string (sats / 100000000) ++ "." ++ str (repeat (ch 48) (8 - length frac) ++ frac).

(** The loop over the characters: the digits before and behind the point *)
Definition bad_amount (what : string) : exn := DigiByteException RPC_INVALID_PARAMS what.
Fixpoint scan_amount (l : list ascii) (dot : bool) (whole frac : list ascii) : outcome (list ascii * list ascii) :=
  match l with
  | [] => Ok (whole, frac)
  | c :: l =>
      if byteZ c =? 46 then if dot then Throw (bad_amount "Invalid DigiByte amount") else scan_amount l true whole frac
      else if is_digit c then if dot then scan_amount l dot whole (frac ++ [c]) else scan_amount l dot (whole ++ [c]) frac
      else Throw (bad_amount "Invalid DigiByte amount")
  end.
Definition stoll_or_range (l : list ascii) : outcome Z :=
  if bool_decide (l = []) then Ok 0
  else match stoll (str l) with
       | Throw _ => Throw (bad_amount "DigiByte amount out of range")
       | r => r
       end.
(** The product and the sum are of [int64_t]. *)
Definition in_int64 (v : Z) : outcome Z := if (- two63 <=? v) && (v <? two63) then Ok v else UB.
Definition parse_sats (s : list ascii) : outcome Z :=
  let s := match s with c :: s' => if byteZ c =? 43 then s' else s | [] => [] end in
  if match s with c :: _ => byteZ c =? 45 | [] => false end
  then Throw (bad_amount "DigiByte amount must not be negative")
  else
    '(whole, frac) ← scan_amount s false [] [];
    if bool_decide (whole = []) && bool_decide (frac = []) then Throw (bad_amount "Invalid DigiByte amount")
    else if (8 <? length frac)%nat then Throw (bad_amount "DigiByte amount has more than 8 decimals")
    else
      let frac := frac ++ repeat (ch 48) (8 - length frac) in
      w ← stoll_or_range whole;
      w ← in_int64 (w * 100000000);
      f ← stoll_or_range frac;
      in_int64 (w + f).
Definition dgbToSats (amount : json_amount) : outcome Z :=
  match amount with
  | amount_string s | amount_integral _ s => parse_sats (chars s)
  | amount_double d => parse_sats (chars (printed 8 d))
  | amount_other _ => Throw (bad_amount "Invalid DigiByte amount")
  end.

(** ** The coins of the wallet *)
Section asset_wallet.
Context {CW : CoreWallet} (core : Sqlite).

Definition is_DataPruned (e : exn) : bool := bool_decide (e = exceptionDataPruned).
(** [db->getAssetUTXO(txid, n)] on the stored chain, the height left at 0 *)
Definition coin_on_chain (u : unspenttxout_t) : M wallet AssetUTXO :=
  on_chain (fun c => on_c_store (getAssetUTXO (db := chain_sqlite core c) (us_txid u) (us_n u) 0) c).

Definition wallet_coin (u : unspenttxout_t) : M wallet AssetUTXO :=
  entry ← try_catch (coin_on_chain u)
            (fun e => if is_DataPruned e then mret (mk_AssetUTXO (us_txid u) (u16 (us_n u)) "" 0 []) else throw e);
  sats ← lift (dgb_sats (us_amount u));
  mret (mk_AssetUTXO (utxo_txid entry) (utxo_vout entry) (us_address u) sats (assets entry)).
Fixpoint wallet_coins (l : list unspenttxout_t) : M wallet (list AssetUTXO) :=
  match l with
  | [] => mret []
  | u :: l => x ← wallet_coin u; xs ← wallet_coins l; mret (x :: xs)
  end.
Definition getWalletUTXOs (minconf : Z) : M wallet (list AssetUTXO) :=
  unspent ← ask (call_listunspent minconf) (fun h => core_listunspent h minconf);
  wallet_coins unspent.

(** ** Assets that a wallet can transfer *)
Definition refused (what : string) : outcome unit := Throw (DigiByteException RPC_MISC_ERROR what).
Definition lead : string := "This asset has a ".
Definition tail_text : string :=
  " rule.  A wallet built transfer cannot add the output that rule requires, so the transfer would fail validation and every unit in the transaction would be destroyed, including the change.  Refusing.".
Definition signer_text : string :=
  "This asset has a required signer rule.  A wallet built transfer cannot collect the signatures that rule requires, so the transfer would fail validation and every unit in the transaction would be destroyed, including the change.  Refusing.".
Definition expired_text : string :=
  "This asset has expired.  No transfer of it can pass validation any more, and attempting one would destroy every unit in the transaction, including the change.  Refusing.".
Definition assertTransferableAsset_at (asset : DigiAsset) (chainHeight nowSeconds : Z) : outcome unit :=
  let rules := _rules asset in
  if empty rules then Ok tt
  else if getIfRequiresRoyalty rules then refused (lead ++ "royalty" ++ tail_text)
  else if 0 <? getRequiredBurn rules then refused (lead ++ "required burn" ++ tail_text)
  else if 0 <? getRequiredSignerWeight rules then refused signer_text
  else if getIfExpired chainHeight nowSeconds rules then refused expired_text
  else Ok tt.
Definition assertTransferableAsset (now : Z) (asset : DigiAsset) : M wallet unit :=
  height ← on_chain getLastBlockHeight;
  lift (assertTransferableAsset_at asset height now).

(** ** Choosing inputs *)
(** [asset.getAssetIndex() == assetIndex] for one of the assets, in order *)
Fixpoint holds_index (assetIndex : Z) (l : list DigiAsset) : outcome (option DigiAsset) :=
  match l with
  | [] => Ok None
  | a :: l => i ← getAssetIndex false a; if i =? assetIndex then Ok (Some a) else holds_index assetIndex l
  end.
Fixpoint candidates_of (assetIndex now : Z) (l : list AssetUTXO) : M wallet (list AssetUTXO) :=
  match l with
  | [] => mret []
  | utxo :: l =>
      found ← lift (holds_index assetIndex (assets utxo));
      match found with
      | Some asset =>
          assertTransferableAsset now asset;;
          rest ← candidates_of assetIndex now l; mret (utxo :: rest)
      | None => candidates_of assetIndex now l
      end
  end.

(** Every asset that the database gives has an index, so [getAssetIndex] does
    not throw here. *)
Definition countOf (assetIndex : Z) (utxo : AssetUTXO) : Z :=
  foldl (fun total a => if _assetIndex a =? assetIndex then u64 (total + getCount a) else total) 0 (assets utxo).
Definition pure_coin (utxo : AssetUTXO) : bool := (length (assets utxo) =? 1)%nat.
Definition picked_before (assetIndex : Z) (a b : AssetUTXO) : bool :=
  if negb (Bool.eqb (pure_coin a) (pure_coin b)) then pure_coin a
  else countOf assetIndex b <? countOf assetIndex a.

(** The loop for one coin that is enough *)
Fixpoint single_coin (assetIndex amount : Z) (l : list AssetUTXO) (single : option AssetUTXO) : option AssetUTXO :=
  match l with
  | [] => single
  | utxo :: l =>
      if negb (pure_coin utxo) then single_coin assetIndex amount l single
      else
        let have := countOf assetIndex utxo in
        if have <? amount then single_coin assetIndex amount l single
        else if have =? amount then Some utxo
        else match single with
             | Some s => single_coin assetIndex amount l (if have <? countOf assetIndex s then Some utxo else single)
             | None => single_coin assetIndex amount l (Some utxo)
             end
  end.
(** The loop that gathers coins; the total is of [uint64_t]. *)
Fixpoint gather (assetIndex amount : Z) (l : list AssetUTXO) (total : Z) : list AssetUTXO * Z :=
  match l with
  | [] => ([], total)
  | utxo :: l =>
      if amount <=? total then ([], total)
      else let '(rest, t) := gather assetIndex amount l (u64 (total + countOf assetIndex utxo)) in (utxo :: rest, t)
  end.

Definition exceptionNotEnoughFunds : exn :=
  class_exception "DigiByteTransaction::exceptionNotEnoughFunds" "Not enough funds".
(** [std::sort] may order coins that are equal for [picked_before] differently. *)
Definition choose (assetIndex amount : Z) (candidates : list AssetUTXO) : outcome (list AssetUTXO) :=
  let candidates := CString.sort (picked_before assetIndex) candidates in
  match single_coin assetIndex amount candidates None with
  | Some single => Ok [single]
  | None =>
      let '(selected, total) := gather assetIndex amount candidates 0 in
      if total <? amount then Throw exceptionNotEnoughFunds else Ok selected
  end.
Definition selectAssetInputs (assetIndex amount now : Z) : M wallet (list AssetUTXO) :=
  coins ← getWalletUTXOs 1;
  candidates ← candidates_of assetIndex now (List.filter (fun u => negb (is_empty (assets u))) coins);
  lift (choose assetIndex amount candidates).

(** ** Funding *)
Definition buildRawTransaction (tx : DigiByteTransaction) : M wallet string :=
  data ← lift (encodeAssetOpReturn tx);
  let inputs := map (fun i => (utxo_txid i, utxo_vout i)) (_inputs tx) in
  let outputs := map (fun o => (utxo_address o, satsToDecimal (digibyte o))) (_outputs tx) in
  ask (call_createrawtransaction inputs outputs data) (fun h => core_createrawtransaction h inputs outputs data).

Definition is_input (tx : DigiByteTransaction) (u : unspenttxout_t) : bool :=
  existsb (fun i => String.eqb (utxo_txid i) (us_txid u) && (utxo_vout i =? us_n u)) (_inputs tx).
(** The height a coin was created at, 0 while it is unconfirmed *)
Definition utxoHeight (chainHeight confirmations : Z) : Z :=
  if (0 <? confirmations) && (u32 confirmations <=? chainHeight) then u32 (chainHeight - u32 confirmations + 1) else 0.

Definition isHeightIndexed (height : Z) : M wallet bool :=
  if height =? 0 then mret false
  else try_catch (newest ← on_chain getLastBlockHeight; mret (height <? newest))
         (fun e => if bool_decide (e = class_exception "Database::exceptionFailedSelect" "") then mret false else throw e).
Definition carries_assets (u : unspenttxout_t) (height : Z) : M wallet bool :=
  try_catch (utxo ← coin_on_chain u; mret (negb (is_empty (assets utxo))))
    (fun e => if is_DataPruned e then indexed ← isHeightIndexed height; mret (negb indexed) else throw e).
Definition needsLock (chainHeight : Z) (u : unspenttxout_t) : M wallet bool :=
  let height := utxoHeight chainHeight (us_confirmations u) in
  needs ← (if height =? 0 then mret true else carries_assets u height);
  if needs : bool then mret true
  else ask (call_gettxout (point u)) (fun h => core_gettxout_null h (point u)).

(** The coins to lock, and whether one of them is unconfirmed *)
Fixpoint to_lock (tx : DigiByteTransaction) (chainHeight : Z) (l : list unspenttxout_t) : M wallet (list outpoint * bool) :=
  match l with
  | [] => mret ([], false)
  | u :: l =>
      if is_input tx u then to_lock tx chainHeight l
      else
        needs ← needsLock chainHeight u;
        '(coins, unconfirmed) ← to_lock tx chainHeight l;
        mret (if needs : bool then (point u :: coins, (us_confirmations u =? 0) || unconfirmed) else (coins, unconfirmed))
  end.
Definition lock_coins (unlock : bool) (coins : list outpoint) : M wallet unit :=
  if bool_decide (coins = []) then mret tt
  else ask (call_lockunspent unlock coins) (fun h => core_lockunspent h unlock coins);; mret tt.

(** What the attempt asks the wallet to do, between locking and unlocking *)
Definition ask_funding (tx : DigiByteTransaction) (rawHex : string) (feeSats : bool) : M wallet (string * Z) :=
  let position := Z.of_nat (length (_outputs tx)) + 1 in
  '(hex, fee) ← ask (call_fundrawtransaction rawHex position) (fun h => core_fundrawtransaction h rawHex position);
  sats ← (if feeSats then lift (dgb_sats fee) else mret 0);
  mret (hex, sats).
(** [None]: try again later *)
Definition fundOnce (tx : DigiByteTransaction) (rawHex : string) (attempt : Z) (feeSats : bool) : M wallet (option (string * Z)) :=
  chainHeight ← ask call_getblockcount (fun h => core_getblockcount h);
  unspent ← ask (call_listunspent 0) (fun h => core_listunspent h 0);
  '(toLock, lockedUnconfirmed) ← to_lock tx (u32 chainHeight) unspent;
  lock_coins false toLock;;
  funded ← try_catch (r ← ask_funding tx rawHex feeSats; mret (Some r))
    (fun e =>
      lock_coins true toLock;;
      if is_DigiByteException e && negb (negb (messageContains "nsufficient" e) || negb lockedUnconfirmed || (4 <=? attempt))
      then mret None else throw e);
  match funded with
  | Some r => lock_coins true toLock;; mret (Some r)
  | None => mret None
  end.

(** ** What the fee will be *)
Definition feeRate_fallback : Z := 100000.
Definition vSize (tx : DigiByteTransaction) : outcome Z :=
  data ← encodeAssetOpReturn tx;
  Ok (200 + Z.of_nat (length (chars data)) / 2 + Z.of_nat (length (_outputs tx)) * 35 + Z.of_nat (length (_inputs tx)) * 70 + 150).
Definition positive_double (d : spec_float) : bool := dlt (dbl 0) d.
Definition estimateMinerFee (tx : DigiByteTransaction) : M wallet Z :=
  exact ← try_catch
    (rawHex ← buildRawTransaction tx;
     funded ← fundOnce tx rawHex 4 true;
     mret (match funded with Some (_, fee) => if 0 <? fee then Some fee else None | None => None end))
    (fun _ => mret None);
  match exact with
  | Some fee => mret fee
  | None =>
      '(feeRate, final) ← try_catch
        (paytxfee ← ask call_getwalletinfo (fun h => core_paytxfee h);
         match paytxfee with
         | Some d =>
             if positive_double d then
               feeRate ← lift (dgb_sats d);
               try_catch (size ← lift (vSize tx); mret (feeRate, Some (u64 (feeRate * size) / 1000))) (fun _ => mret (feeRate, None))
             else mret (feeRate_fallback, None)
         | None => mret (feeRate_fallback, None)
         end)
        (fun _ => mret (feeRate_fallback, None));
      match final with
      | Some fee => mret fee
      | None =>
          feeRate ← try_catch
            (est ← ask call_estimatesmartfee (fun h => core_feerate h);
             match est with
             | Some d => if positive_double d then lift (floor_u64 (dmul d (dbl 100000000))) else mret feeRate
             | None => mret feeRate
             end)
            (fun _ => mret feeRate);
          size ← lift (vSize tx);
          mret (u64 (feeRate * size) / 1000)
      end
  end.

(** ** Sending *)
Definition what_of (e : exn) : string :=
  match e with out_of_range s | invalid_argument s => s | length_error => "" | class_exception _ s => s end.
(** The indexer's own check of the rules *)
Definition verify_rules (tx : DigiByteTransaction) (now : Z) : M wallet unit :=
  if isIssuance tx then mret tt
  else
    height ← on_chain getLastBlockHeight;
    w ← get;
    let verifyTx := set_chain height (_txid tx) (_blockHash tx) now tx in
    match (tx_checkRulesPass (db := chain_sqlite core (w_chain w)) verifyTx).1 with
    | Throw e =>
        if is_RuleFailed e
        then throw (DigiByteException RPC_MISC_ERROR
               ("Refusing to broadcast: this transfer would fail the asset's rules and burn the asset (" ++ what_of e ++ ")."))
        else throw e
    | o => lift o
    end.

Definition locked_text : string :=
  "Wallet is encrypted and locked.  Unlock it first with: walletpassphrase " ++ str [quote] ++ "<passphrase>" ++ str [quote] ++ " <seconds>".
Definition throwIfWalletLocked (e : exn) : M wallet unit :=
  if hasCode (-13) e || messageContains "walletpassphrase" e then throw (DigiByteException RPC_MISC_ERROR locked_text) else mret tt.
Definition sign_transaction (fundedHex : string) : M wallet (bool * string) :=
  try_catch (ask (call_signrawtransactionwithwallet fundedHex) (fun h => core_signwithwallet h fundedHex))
    (fun e =>
      if negb (is_DigiByteException e) then throw e
      else
        throwIfWalletLocked e;;
        try_catch (ask (call_signrawtransaction fundedHex) (fun h => core_sign h fundedHex))
          (fun e2 => if is_DigiByteException e2 then throwIfWalletLocked e2;; throw e2 else throw e2)).
(** The first input must still be the first. *)
Definition check_first_input (tx : DigiByteTransaction) (hex : string) : M wallet unit :=
  match _inputs tx with
  | [] => mret tt
  | input :: _ =>
      vins ← ask (call_decoderawtransaction hex) (fun h => core_decode h hex);
      first ← vec_at vins 0;
      if negb (String.eqb (txid first) (utxo_txid input)) || negb (out_n first =? utxo_vout input)
      then throw (tx_exception "Wallet changed the transaction input order while funding") else mret tt
  end.
Definition broadcast_signed (hex : string) (attempt : Z) : M wallet (option string) :=
  try_catch (txid ← ask (call_sendrawtransaction hex) (fun h => core_send h hex); mret (Some txid))
    (fun e => if is_DigiByteException e && negb (negb (messageContains "onflict" e) || (4 <=? attempt)) then mret None else throw e).

(** The loop; an attempt that is retried waits first.  Returns the txid and the
    signed transaction. *)
Fixpoint attempts (fuel : nat) (attempt : Z) (tx : DigiByteTransaction) (rawHex : string) : M wallet (string * string) :=
  match fuel with
  | O => out_of_fuel
  | S fuel =>
      funded ← fundOnce tx rawHex attempt false;
      match funded with
      | None => attempts fuel (attempt + 1) tx rawHex
      | Some (fundedHex, _) =>
          '(complete, hex) ← sign_transaction fundedHex;
          if negb complete then throw (tx_exception "Wallet could not fully sign the transaction.  Is the wallet unlocked?")
          else
            check_first_input tx hex;;
            sent ← broadcast_signed hex attempt;
            match sent with
            | Some txid => mret (txid, hex)
            | None => attempts fuel (attempt + 1) tx rawHex
            end
      end
  end.
Definition fundSignSend (now : Z) (tx : DigiByteTransaction) : M wallet (string * string) :=
  verify_rules tx now;;
  rawHex ← buildRawTransaction tx;
  attempts 5 0 tx rawHex.

End asset_wallet.
