(* ===== verification/WalletMethods.v ===== *)
(** WalletMethods: the RPC methods that move assets of the wallet
    (src/src/RPC/Methods/sendasset.cpp, sendmanyassets.cpp, burnasset.cpp,
    reissueasset.cpp) with the resolution of domains they use.

    The JSON library is an interface; what a method takes from its parameters is
    the code's. *)

From S2P Require Import Prelude.
From S2P Require Import BitIOCodec.
From S2P Require Import AssetTypes.
From S2P Require Import DigiDollar.
From S2P Require Import DigiAssetRules.
From S2P Require Import KYC.
From S2P Require Import CString.
From S2P Require Import Sql.
From S2P Require Import Database.
From S2P Require Import DigiAsset.
From S2P Require Import UtxoStore.
From S2P Require Import ChainTables.
From S2P Require Import ChainDatabase.
From S2P Require Import ChainUpdate.
From S2P Require Import DigiByteDomain.
From S2P Require Import DigiByteTransaction.
From S2P Require Import TransactionBuilder.
From S2P Require Import AssetWallet.

(** ** JSON values *)
Class Json := {
  Value : Type;
  json_size : Value -> Z;
  json_at : Value -> nat -> Value;
  json_elements : Value -> list Value;
  json_member : Value -> string -> option Value;        (** when [isMember] *)
  json_string : Value -> option string;                 (** when [isString] *)
  json_int : Value -> option Z;                         (** when [isInt] *)
  json_bool : Value -> option bool;                     (** when [isBool] *)
  json_isObject : Value -> bool;
  json_isArray : Value -> bool;
  json_asString : Value -> outcome string;
  json_asAmount : Value -> json_amount
}.

Definition invalid_params {A} (what : string) : M wallet A := throw (DigiByteException RPC_INVALID_PARAMS what).
Definition misc_error {A} (what : string) : M wallet A := throw (DigiByteException RPC_MISC_ERROR what).

(** What a method answers: the txid, the costs of a dry run, or a reissuance *)
Inductive result :=
  | Txid (txid : string)
  | Costs (outputSats minerFeeSats : Z)
  | Reissued (txid assetId : string) (warning : bool).

(** ** Domains *)
(** SELECT address,SUM(amount) FROM utxos WHERE assetIndex=? AND heightDestroyed IS NULL GROUP BY address *)
Definition held_row (assetIndex : Z) (r : utxo_row) : bool :=
  (row_assetIndex r =? assetIndex) && match row_heightDestroyed r with None => true | Some _ => false end.
Definition getAssetHolders (assetIndex : Z) (c : chain) : list (string * Z) :=
  let rows := List.filter (held_row (i64 assetIndex)) (utxos (c_store c)) in
  map (fun a => (a, u64 (sum_of row_amount (List.filter (fun r => String.eqb (row_address r) a) rows))))
    (CString.sort String.ltb (remove_dups (map row_address rows))).

Definition exceptionBurnedDomain : exn := class_exception "DigiByteDomain::exceptionBurnedDomain" "Domain has been burned".
Definition getDomainAddress (core : Sqlite) (domain : string) : M chain string :=
  assetId ← getDomainAssetId domain true;
  c ← get;
  assetIndex ← lift (getAssetIndex_of core assetId "" 0 c);
  match getAssetHolders assetIndex c with
  | [] => throw exceptionBurnedDomain
  | (address, _) :: _ => mret address
  end.

Section methods.
Context {JS : Json} {CW : CoreWallet} (core : Sqlite).

Definition resolve (address : string) : M wallet string :=
  if isDomain address then on_chain (getDomainAddress core address) else mret address.

(** ** The asset a parameter names *)
Definition is_FailedSelect (e : exn) : bool := bool_decide (e = class_exception "Database::exceptionFailedSelect" "").
Definition or_unknown_asset {A} (m : M wallet A) : M wallet A :=
  try_catch m (fun e => if is_FailedSelect e then misc_error "Asset doesn't exist" else throw e).
Definition asset_index (p : Value) (what : string) : M wallet Z :=
  match json_string p with
  | Some assetId => c ← gets w_chain; lift (getAssetIndex_of core assetId "" 0 c)
  | None => match json_int p with Some i => mret (u64 i) | None => invalid_params what end
  end.
Definition indexed_asset (assetIndex : Z) : M wallet DigiAsset :=
  c ← gets w_chain; lift (getAsset (db := chain_sqlite core c) assetIndex 0).
Definition named_asset (p : Value) : M wallet (Z * DigiAsset) :=
  assetIndex ← or_unknown_asset (asset_index p "Invalid params");
  asset ← or_unknown_asset (indexed_asset assetIndex);
  mret (assetIndex, asset).

(** [catch (const std::out_of_range& e)] *)
Definition or_invalid {A} (o : outcome A) : M wallet A :=
  match o with Throw (out_of_range what) => invalid_params what | o => lift o end.
Definition amount_of (p : Value) (asset : DigiAsset) : M wallet Z :=
  or_invalid (parseAssetAmount (json_asAmount p) (_divisibility asset)).

(** The options [changeAddress] (or [toAddress]) and [dryrun] *)
Definition address_option (options : Value) (key : string) : M wallet string :=
  match json_member options key with
  | Some v => address ← lift (json_asString v); resolve address
  | None => mret ""%string
  end.
Definition dryrun_option (options : Value) : M wallet bool :=
  match json_member options "dryrun" with
  | Some v => match json_bool v with Some b => mret b | None => invalid_params "dryrun must be a bool" end
  | None => mret false
  end.
Definition send_options (params : Value) (i : nat) (key : string) : M wallet (string * bool) :=
  if json_size params =? Z.of_nat i + 1 then
    let options := json_at params i in
    if negb (json_isObject options) then invalid_params "Invalid params"
    else address ← address_option options key; dryrun ← dryrun_option options; mret (address, dryrun)
  else mret (""%string, false).

Definition select_inputs (assetIndex amount now : Z) (what : string) : M wallet (list AssetUTXO) :=
  try_catch (selectAssetInputs core assetIndex amount now)
    (fun e => if bool_decide (e = exceptionNotEnoughFunds) then throw (DigiByteException RPC_WALLET_INSUFFICIENT_FUNDS what) else throw e).

(** ** What the inputs carry *)

(** Add to the entry with the same index, or append. *)
Fixpoint merge_asset (asset : DigiAsset) (l : list DigiAsset) : outcome (list DigiAsset) :=
  match l with
  | [] => Ok [asset]
  | other :: l =>
      i ← getAssetIndex false other;
      j ← getAssetIndex false asset;
      if i =? j then Ok (addCount (getCount asset) other :: l) else l ← merge_asset asset l; Ok (other :: l)
  end.
(** The units of [assetIndex], and the other assets *)
Fixpoint split_assets (assetIndex : Z) (l : list DigiAsset) (changeAmount : Z) (otherAssets : list DigiAsset)
    : outcome (Z * list DigiAsset) :=
  match l with
  | [] => Ok (changeAmount, otherAssets)
  | a :: l =>
      i ← getAssetIndex false a;
      if i =? assetIndex then split_assets assetIndex l (u64 (changeAmount + getCount a)) otherAssets
      else otherAssets ← merge_asset a otherAssets; split_assets assetIndex l changeAmount otherAssets
  end.

Definition build (m : M DigiByteTransaction unit) (now : Z) : M wallet DigiByteTransaction :=
  lift (exec m (DigiByteTransaction_default now)).
Definition add_inputs (inputs : list AssetUTXO) : M DigiByteTransaction unit := for_each inputs addInput.

Definition change_address (changeAddress : string) : M wallet string :=
  if String.eqb changeAddress "" then ask call_getrawchangeaddress core_getrawchangeaddress else mret changeAddress.
Definition change_assets (asset : DigiAsset) (changeAmount : Z) (otherAssets : list DigiAsset) : list DigiAsset :=
  if 0 <? changeAmount then setCount changeAmount asset :: otherAssets else otherAssets.

Definition output_sats (tx : DigiByteTransaction) : Z := foldl (fun s o => u64 (s + digibyte o)) 0 (_outputs tx).
Definition finish (tx : DigiByteTransaction) (dryrun : bool) (now : Z) : M wallet result :=
  if dryrun then fee ← estimateMinerFee core tx; mret (Costs (output_sats tx) fee)
  else sent ← fundSignSend core now tx; mret (Txid sent.1).

(** The transaction of a transfer or a burn *)
Definition with_change (first : M DigiByteTransaction unit) (inputs : list AssetUTXO) (asset : DigiAsset)
    (changeAddress : string) (changeAmount : Z) (otherAssets : list DigiAsset) (now : Z) : M wallet DigiByteTransaction :=
  tx ← build (add_inputs inputs;; first) now;
  if (0 <? changeAmount) || negb (is_empty otherAssets) then
    address ← change_address changeAddress;
    lift (exec (addDigiAssetOutput address (change_assets asset changeAmount otherAssets)) tx)
  else mret tx.

(** ** sendasset *)
Definition sendasset (now : Z) (params : Value) : M wallet result :=
  if (json_size params <? 3) || (4 <? json_size params) then invalid_params "Invalid params"
  else match json_string (json_at params 0) with
  | None => invalid_params "Invalid params"
  | Some recipient =>
      recipient ← resolve recipient;
      '(assetIndex, asset) ← named_asset (json_at params 1);
      if assetIndex =? 1 then invalid_params "Use sendtoaddress to send DigiByte"
      else
        assertTransferableAsset now asset;;
        amount ← amount_of (json_at params 2) asset;
        '(changeAddress, dryrun) ← send_options params 3 "changeAddress";
        inputs ← select_inputs assetIndex amount now "Wallet does not hold enough of this asset";
        '(total, otherAssets) ← lift (split_assets assetIndex (concat (map assets inputs)) 0 []);
        let changeAmount := u64 (total - amount) in
        for_each otherAssets (assertTransferableAsset now);;
        tx ← with_change (addDigiAssetOutput recipient [setCount amount asset]) inputs asset changeAddress changeAmount otherAssets now;
        finish tx dryrun now
  end.

(** ** burnasset *)
Definition burnasset (now : Z) (params : Value) : M wallet result :=
  if (json_size params <? 2) || (3 <? json_size params) then invalid_params "Invalid params"
  else
    '(assetIndex, asset) ← named_asset (json_at params 0);
    if assetIndex =? 1 then invalid_params "DigiByte can not be burned"
    else
      amount ← amount_of (json_at params 1) asset;
      '(changeAddress, dryrun) ← send_options params 2 "changeAddress";
      inputs ← select_inputs assetIndex amount now "Wallet does not hold enough of this asset";
      '(total, otherAssets) ← lift (split_assets assetIndex (concat (map assets inputs)) 0 []);
      let changeAmount := u64 (total - amount) in
      when (0 <? changeAmount) (assertTransferableAsset now asset);;
      for_each otherAssets (assertTransferableAsset now);;
      tx ← with_change (addAssetBurn [setCount amount asset]) inputs asset changeAddress changeAmount otherAssets now;
      finish tx dryrun now.

(** ** sendmanyassets *)
Record SendEntry := mk_SendEntry { se_address : string; se_assetIndex : Z; se_amount : Z; se_asset : DigiAsset }.

Definition send_entry (now : Z) (entry : Value) : M wallet SendEntry :=
  match json_member entry "address", json_member entry "asset", json_member entry "amount" with
  | Some address, Some assetParam, Some amountParam =>
      match json_isObject entry, json_string address with
      | true, Some address =>
          address ← resolve address;
          '(assetIndex, asset) ← or_unknown_asset
            (assetIndex ← asset_index assetParam "asset must be an assetId or assetIndex";
             asset ← indexed_asset assetIndex; mret (assetIndex, asset));
          if assetIndex =? 1 then invalid_params "Use sendtoaddress to send DigiByte"
          else
            assertTransferableAsset now asset;;
            amount ← amount_of amountParam asset;
            mret (mk_SendEntry address assetIndex amount asset)
      | _, _ => invalid_params "each send needs address, asset and amount"
      end
  | _, _, _ => invalid_params "each send needs address, asset and amount"
  end.
Fixpoint send_entries (now : Z) (l : list Value) : M wallet (list SendEntry) :=
  match l with
  | [] => mret []
  | e :: l => s ← send_entry now e; rest ← send_entries now l; mret (s :: rest)
  end.

(** [std::map] from index to total, in ascending order of the index *)
Definition total_per_asset (sends : list SendEntry) : list (Z * Z) :=
  map (fun i => (i, foldl (fun t s => if se_assetIndex s =? i then u64 (t + se_amount s) else t) 0 sends))
    (CString.sort Z.ltb (remove_dups (map se_assetIndex sends))).

Definition same_coin (a b : AssetUTXO) : bool := String.eqb (utxo_txid a) (utxo_txid b) && (utxo_vout a =? utxo_vout b).
Definition add_coin (inputs : list AssetUTXO) (utxo : AssetUTXO) : list AssetUTXO :=
  if existsb (fun existing => same_coin existing utxo) inputs then inputs else inputs ++ [utxo].
Definition index_text (i : Z) : string := "Wallet does not hold enough of asset index " ++ to_string i.
Fixpoint select_all (needed : list (Z * Z)) (now : Z) (inputs : list AssetUTXO) : M wallet (list AssetUTXO) :=
  match needed with
  | [] => mret inputs
  | (index, amount) :: needed =>
      selection ← select_inputs index amount now (index_text index);
      select_all needed now (foldl add_coin inputs selection)
  end.

(** The assets of the inputs, merged, by index *)
Fixpoint insert_change (a : DigiAsset) (l : list DigiAsset) : list DigiAsset :=
  match l with
  | [] => [a]
  | b :: l' => if _assetIndex a =? _assetIndex b then addCount (getCount a) b :: l'
               else if _assetIndex a <? _assetIndex b then a :: l else b :: insert_change a l'
  end.
Fixpoint change_map (l : list DigiAsset) (change : list DigiAsset) : outcome (list DigiAsset) :=
  match l with
  | [] => Ok change
  | a :: l => _ ← getAssetIndex false a; change_map l (insert_change a change)
  end.
Definition subtract_needed (needed : list (Z * Z)) (change : list DigiAsset) : list DigiAsset :=
  map (fun a => match List.find (fun n => n.1 =? _assetIndex a) needed with
                | Some n => setCount (u64 (getCount a - n.2)) a
                | None => a
                end) change.

(** One output per recipient, in the order of their first entries *)
Fixpoint add_part (asset : DigiAsset) (amount : Z) (l : list DigiAsset) : list DigiAsset :=
  match l with
  | [] => [setCount amount asset]
  | part :: l => if _assetIndex part =? _assetIndex asset then addCount amount part :: l else part :: add_part asset amount l
  end.
Fixpoint add_recipient (s : SendEntry) (l : list (string * list DigiAsset)) : list (string * list DigiAsset) :=
  match l with
  | [] => [(se_address s, [setCount (se_amount s) (se_asset s)])]
  | (a, parts) :: l =>
      if String.eqb a (se_address s) then (a, add_part (se_asset s) (se_amount s) parts) :: l
      else (a, parts) :: add_recipient s l
  end.
Definition per_recipient (sends : list SendEntry) : list (string * list DigiAsset) :=
  foldl (fun l s => add_recipient s l) [] sends.

Definition sendmanyassets (now : Z) (params : Value) : M wallet result :=
  if (json_size params <? 1) || (2 <? json_size params) then invalid_params "Invalid params"
  else
    let list := json_at params 0 in
    if negb (json_isArray list) || (json_size list =? 0) || (31 <? json_size list)
    then invalid_params "sends must be an array of 1 to 31 {address,asset,amount} objects"
    else
      sends ← send_entries now (json_elements list);
      let totalPerAsset := total_per_asset sends in
      changeAddress ← (if json_size params =? 2 then
                         let options := json_at params 1 in
                         if negb (json_isObject options) then invalid_params "Invalid params"
                         else address_option options "changeAddress"
                       else mret ""%string);
      inputs ← select_all totalPerAsset now [];
      changeAssets ← lift (change_map (concat (map assets inputs)) []);
      let leftovers := List.filter (fun a => 0 <? getCount a) (subtract_needed totalPerAsset changeAssets) in
      for_each leftovers (assertTransferableAsset now);;
      tx ← build (add_inputs inputs;; for_each (per_recipient sends) (fun r => addDigiAssetOutput r.1 r.2)) now;
      tx ← (if is_empty leftovers then mret tx
            else address ← change_address changeAddress;
                 lift (exec (addDigiAssetOutput address leftovers) tx));
      sent ← fundSignSend core now tx;
      mret (Txid sent.1).

(** ** reissueasset *)
Definition aggregation_of (existing : DigiAsset) : Z :=
  if isDispersed existing then DISPERSED else if isHybrid existing then HYBRID else AGGREGABLE.
Definition issuer_coin (issuerAddress : string) (coins : list AssetUTXO) : option AssetUTXO :=
  List.find (fun u => String.eqb (utxo_address u) issuerAddress && is_empty (assets u)) coins.
(** The id derived from the first input of the signed transaction, if that works *)
Definition derived_id (addition : DigiAsset) (signedHex : string) : M wallet string :=
  try_catch (vins ← ask (call_decoderawtransaction signedHex) (fun h => core_decode h signedHex);
             first ← vec_at vins 0;
             lift (calculateAssetId (_locked addition) first (getIssuanceFlags addition)))
    (fun _ => mret ""%string).

Definition reissueasset (now : Z) (params : Value) : M wallet result :=
  if (json_size params <? 2) || (3 <? json_size params) then invalid_params "Invalid params"
  else
    '(assetIndex, existing) ← named_asset (json_at params 0);
    if assetIndex =? 1 then invalid_params "DigiByte is not an asset"
    else if isLocked existing then invalid_params "Asset is locked - no more can ever be issued"
    else
      amount ← amount_of (json_at params 1) existing;
      '(toAddress, dryrun) ← send_options params 2 "toAddress";
      toAddress ← (if String.eqb toAddress "" && negb dryrun then ask call_getnewaddress core_getnewaddress else (mret toAddress : M wallet string));
      let issuerAddress := getAddress (_issuer existing) in
      if String.eqb issuerAddress "" then misc_error "Could not determine the asset's issuer address"
      else
        coins ← getWalletUTXOs core 1;
        match issuer_coin issuerAddress coins with
        | None =>
            throw (DigiByteException RPC_WALLET_INSUFFICIENT_FUNDS
              ("Wallet holds no spendable DigiByte on the issuer address " ++ issuerAddress
               ++ " - send some DGB there first(the reissuance must spend from that address)"))
        | Some issuerInput =>
            addition ← or_invalid (DigiAsset_new (_cid existing) amount (_divisibility existing) false (aggregation_of existing) default_rules);
            tx ← build (addInput issuerInput;; setIssuance addition;;
                        addDigiAssetOutput (if String.eqb toAddress "" then issuerAddress else toAddress) [addition]) now;
            if dryrun : bool then fee ← estimateMinerFee core tx; mret (Costs (output_sats tx) fee)
            else
              sent ← fundSignSend core now tx;
              newAssetId ← derived_id addition sent.2;
              mret (Reissued sent.1 (if String.eqb newAssetId "" then _assetId existing else newAssetId)
                      (negb (String.eqb newAssetId "") && negb (String.eqb newAssetId (_assetId existing))))
        end.

End methods.
