(* ===== verification/WalletAmounts.v ===== *)
(** WalletAmounts: amounts in text.  What the program prints for an amount of an
    asset or of DigiByte is read back as the same amount. *)

From Stdlib Require Import Floats.SpecFloat.
From stdpp Require Import pretty.
From S2P Require Import Prelude.
From S2P Require Import BitIO.
From S2P Require Import BitIOCodec.
From S2P Require Import BitIOText.
From S2P Require Import CString.
From S2P Require Import DigiAsset.
From S2P Require Import AssetWallet.

Ltac Zify.zify_post_hook ::= Z.div_mod_to_equations.

(** ** Decimal digits *)
Definition digits (l : list ascii) : Prop := forallb is_digit l = true.
(** The number that a list of digits stands for *)
Definition number (l : list ascii) : Z := foldl (fun n c => n * 10 + (byteZ c - 48)) 0 l.

Lemma digits_cons c l : digits (c :: l) <-> is_digit c = true /\ digits l.
Proof. apply andb_true_iff. Qed.
Lemma digits_app l l' : digits (l ++ l') <-> digits l /\ digits l'.
Proof. unfold digits. by rewrite forallb_app, andb_true_iff. Qed.
Lemma digit_range c : is_digit c = true -> 48 <= byteZ c <= 57.
Proof. unfold is_digit. lia. Qed.
Lemma digits_repeat n : digits (repeat (ch 48) n).
Proof. induction n; [done|]. by apply digits_cons. Qed.

Lemma number_fold l acc : foldl (fun n c => n * 10 + (byteZ c - 48)) acc l = acc * 10 ^ Z.of_nat (length l) + number l.
Proof.
  unfold number. revert acc. induction l as [|c l IH]; intros acc; [cbn; lia|]. cbn [foldl length].
  rewrite IH, (IH (0 * 10 + _)), Nat2Z.inj_succ, Z.pow_succ_r by lia. ring.
Qed.
Lemma number_app l l' : number (l ++ l') = number l * 10 ^ Z.of_nat (length l') + number l'.
Proof. unfold number at 1. rewrite foldl_app, number_fold. done. Qed.
Lemma number_cons c l : number (c :: l) = (byteZ c - 48) * 10 ^ Z.of_nat (length l) + number l.
Proof. unfold number at 1. cbn [foldl]. by rewrite number_fold. Qed.
Lemma number_range l : digits l -> 0 <= number l < 10 ^ Z.of_nat (length l).
Proof.
  induction l as [|c l IH]; [done|]. rewrite digits_cons, number_cons. intros [Hc%digit_range Hl]. specialize (IH Hl).
  cbn [length]. rewrite Nat2Z.inj_succ, Z.pow_succ_r by lia. nia.
Qed.
Lemma number_zeros n l : number (repeat (ch 48) n ++ l) = number l.
Proof. induction n as [|n IH]; [done|]. cbn [repeat app]. rewrite number_cons, IH. change (byteZ (ch 48)) with 48. lia. Qed.
Lemma leading_digits_number l : digits l -> decimal (leading_digits l) = number l.
Proof.
  unfold decimal, number. generalize 0. induction l as [|c l IH]; intros n; [done|]. rewrite digits_cons. intros [Hc Hl].
  cbn [leading_digits foldl]. rewrite Hc. cbn [foldl]. by apply IH.
Qed.
Lemma leading_digits_none l : digits l -> l <> [] -> leading_digits l <> [].
Proof. destruct l as [|c l]; [done|]. rewrite digits_cons. intros [Hc _] _. cbn. by rewrite Hc. Qed.
Lemma digit_skips c l : is_digit c = true -> read_sign (skip_spaces (c :: l)) = (false, c :: l).
Proof.
  intros Hc%digit_range. cbn. unfold is_space. replace (_ || _) with false by lia. cbn.
  by rewrite (proj2 (Z.eqb_neq _ 45)), (proj2 (Z.eqb_neq _ 43)) by lia.
Qed.

Lemma stoull_digits l : digits l -> l <> [] -> number l < two64 -> stoull l = Ok (number l).
Proof.
  intros Hl Hne Hn. unfold stoull, stoul. rewrite chars_str. destruct l as [|c l]; [done|].
  rewrite digit_skips by by apply digits_cons in Hl as [? _].
  pose proof (leading_digits_none _ Hl Hne). rewrite <- (leading_digits_number _ Hl) in *.
  destruct (leading_digits (c :: l)) as [|d ds]; [done|].
  by destruct (Z.ltb_spec (two64 - 1) (decimal (d :: ds))); [unfold two64 in *; lia|].
Qed.
Lemma stoll_digits l : digits l -> l <> [] -> number l < two63 -> stoll (str l) = Ok (number l).
Proof.
  intros Hl Hne Hn. unfold stoll, sto_signed. rewrite chars_str. pose proof (number_range l Hl) as Hr. destruct l as [|c l]; [done|].
  rewrite digit_skips by by apply digits_cons in Hl as [? _].
  pose proof (leading_digits_none _ Hl Hne). rewrite <- (leading_digits_number _ Hl) in *.
  destruct (leading_digits (c :: l)) as [|d ds]; [done|]. unfold two63 in Hn.
  by replace (_ && _) with true by lia.
Qed.

(** *** The digits that are printed *)
Lemma pretty_char_value x : (x < 10)%N -> byteZ (pretty_N_char x) - 48 = Z.of_N x.
Proof.
  intros H. assert (x = 0 \/ x = 1 \/ x = 2 \/ x = 3 \/ x = 4 \/ x = 5 \/ x = 6 \/ x = 7 \/ x = 8 \/ x = 9)%N as Hx by lia.
  repeat destruct Hx as [->|Hx]; try reflexivity. by subst x.
Qed.
Lemma pretty_go_number n s : number (chars (pretty_N_go n s)) = Z.of_N n * 10 ^ Z.of_nat (length (chars s)) + number (chars s).
Proof.
  revert s. induction (N.lt_wf_0 n) as [n _ IH]. intros s. destruct (decide (0 < n)%N) as [Hn|Hn].
  2: { assert (n = 0%N) as -> by lia. rewrite pretty_N_go_0. lia. }
  rewrite pretty_N_go_step, IH by (done || by apply N.div_lt).
  change (chars (String ?c ?s)) with (c :: chars s). rewrite number_cons, pretty_char_value by (apply N.mod_lt; done).
  cbn [length]. rewrite Nat2Z.inj_succ, Z.pow_succ_r by lia. rewrite (N.div_mod n 10) at 3 by done. lia.
Qed.
Lemma pretty_number n : number (chars (pretty n)) = Z.of_N n.
Proof. unfold pretty, pretty_N. case_decide; [by subst|]. rewrite pretty_go_number. cbn. lia. Qed.
Lemma pretty_nonempty (n : N) : chars (pretty n) <> [].
Proof.
  unfold pretty, pretty_N. case_decide; [done|].
  assert (forall m s, chars s <> [] \/ (0 < m)%N -> chars (pretty_N_go m s) <> []) as H'; [|apply H'; right; lia].
  intros m. induction (N.lt_wf_0 m) as [m _ IH]. intros s Hs. destruct (decide (0 < m)%N) as [Hm|Hm].
  - rewrite pretty_N_go_step by done. apply IH; [by apply N.div_lt|by left].
  - assert (m = 0%N) as -> by lia. rewrite pretty_N_go_0. by destruct Hs.
Qed.
Lemma to_string_digits z : digits (chars (to_string z)).
Proof. apply pretty_digits. Qed.
Lemma to_string_number z : 0 <= z -> number (chars (to_string z)) = z.
Proof. intros H. unfold to_string. rewrite pretty_number. lia. Qed.
Lemma pretty_go_length k n s : (n < 10 ^ N.of_nat k)%N -> (length (chars (pretty_N_go n s)) <= k + length (chars s))%nat.
Proof.
  revert n s. induction k as [|k IH]; intros n s Hn.
  { assert (n = 0%N) as -> by (cbn in Hn; lia). by rewrite pretty_N_go_0. }
  destruct (decide (0 < n)%N) as [H|H]; [|assert (n = 0%N) as -> by lia; rewrite pretty_N_go_0; lia].
  rewrite pretty_N_go_step by done. rewrite Nat2N.inj_succ, N.pow_succ_r in Hn by lia.
  assert (n `div` 10 < 10 ^ N.of_nat k)%N as Hdiv by (by apply N.Div0.div_lt_upper_bound).
  specialize (IH _ (String (pretty_N_char (n `mod` 10)) s) Hdiv).
  change (chars (String ?c s)) with (c :: chars s) in IH. cbn [length] in IH. lia.
Qed.
Lemma to_string_length k z : (0 < k)%nat -> 0 <= z < 10 ^ Z.of_nat k -> (length (chars (to_string z)) <= k)%nat.
Proof.
  intros Hk Hz. unfold to_string, pretty, pretty_N. case_decide; [cbn; lia|].
  etrans; [apply (pretty_go_length k)|cbn; lia].
  apply N2Z.inj_lt. rewrite N2Z.inj_pow, nat_N_Z, Z2N.id by lia. apply Hz.
Qed.

(** *** Trailing zeros that are cut and added again *)
Lemma drop_zeros_spec l : exists n, l = repeat (ch 48) n ++ drop_zeros l.
Proof.
  induction l as [|c l [n IH]]; [by exists 0%nat|]. cbn [drop_zeros]. destruct (Z.eqb_spec (byteZ c) 48) as [E|E]; [|by exists 0%nat].
  exists (S n). cbn. rewrite <- IH. f_equal. rewrite <- (charZ_byteZ c), E. done.
Qed.
Lemma rev_repeat {A} (x : A) n : rev (repeat x n) = repeat x n.
Proof. induction n as [|n IH]; [done|]. cbn. rewrite IH, <- repeat_cons. done. Qed.
Lemma trailing_zeros l :
  let cut := rev (drop_zeros (rev l)) in
  (length cut <= length l)%nat /\ cut ++ repeat (ch 48) (length l - length cut) = l.
Proof.
  cbn zeta. destruct (drop_zeros_spec (rev l)) as [n E]. set (k := drop_zeros (rev l)) in *.
  assert (l = rev k ++ repeat (ch 48) n) as El.
  { rewrite <- (rev_involutive l), E, rev_app_distr, rev_repeat. done. }
  rewrite El, length_app, repeat_length. split; [lia|]. do 2 f_equal. lia.
Qed.
Lemma all_digits_true l : digits l -> all_digits l = Ok true.
Proof.
  induction l as [|c l IH]; [done|]. rewrite digits_cons. intros [Hc Hl]. cbn. rewrite Hc, IH by done.
  apply digit_range in Hc. destruct (Z.leb_spec 128 (byteZ c)); [lia|done].
Qed.
Lemma digits_no_point l : digits l -> ch 46 ∉ l.
Proof.
  induction l as [|c l IH]; [by intros _ ?%elem_of_nil|]. rewrite digits_cons. intros [Hc Hl] [<-|H]%elem_of_cons; [done|by apply IH].
Qed.

(** Digits, a point, and as many digits as the asset has decimals *)
Lemma parse_decimal_digits w f decimals :
  digits w -> w <> [] -> digits f -> Z.of_nat (length f) = decimals -> 0 <= decimals <= 18 ->
  0 < number (w ++ f) <= MAX_ASSET_COUNT -> parse_decimal (str (w ++ ch 46 :: f)) decimals (10 ^ decimals) = Ok (number (w ++ f)).
Proof.
  intros Hw Hne Hf Hlen Hd Hn. unfold parse_decimal. destruct (String.eqb_spec (str (w ++ ch 46 :: f)) "") as [E|_].
  { apply (f_equal chars) in E. rewrite chars_str in E. by destruct w. }
  unfold split_point. rewrite chars_str, split_at_stop by by apply digits_no_point.
  destruct (trailing_zeros f) as [Hl Hpad]. set (cut := rev (drop_zeros (rev f))) in *. cbv beta iota zeta.
  destruct (Z.ltb_spec decimals (Z.of_nat (length cut))); [lia|].
  replace (Z.to_nat decimals) with (length f) by lia. rewrite Hpad, (bool_decide_eq_false_2 _ Hne). cbn [andb].
  rewrite all_digits_true by by apply digits_app. cbn [mbind outcome_bind negb].
  pose proof (number_range w Hw). pose proof (number_range f Hf) as Hrf. rewrite number_app, Hlen in *.
  assert (0 < 10 ^ decimals) by (apply Z.pow_pos_nonneg; lia).
  assert (10 ^ decimals <= 10 ^ 18) by (apply Z.pow_le_mono_r; lia).
  assert (number w <= MAX_ASSET_COUNT / 10 ^ decimals) by (apply Z.div_le_lower_bound; lia).
  unfold MAX_ASSET_COUNT in *. assert (number w < two64) by (unfold two64; nia).
  rewrite (stoull_digits w) by done. cbn [mbind outcome_bind].
  rewrite (proj2 (Z.eqb_neq (10 ^ decimals) 0)) by lia. cbn [negb andb].
  destruct (Z.ltb_spec (18014398509481983 / 10 ^ decimals) (number w)); [lia|].
  assert ((if bool_decide (f = []) then Ok 0 else stoull f) = Ok (number f)) as ->.
  { case_bool_decide as E; [by subst|]. apply stoull_digits; [done..|unfold two64; lia]. }
  cbn [mbind outcome_bind]. rewrite (u64_small (number w * _)), u64_small by (unfold two64; nia).
  rewrite (Z.add_comm (number f)). destruct (Z.eqb_spec (number w * 10 ^ decimals + number f) 0); [lia|].
  by destruct (Z.ltb_spec 18014398509481983 (number w * 10 ^ decimals + number f)); [lia|].
Qed.

Lemma pow10_small d : 0 <= d <= 18 -> (pow10 d tt).1 = Ok (10 ^ d).
Proof.
  intros H. unfold pow10, checkValueRange. destruct (Z.ltb_spec d 0); [lia|]. by destruct (Z.ltb_spec 18 d); [lia|].
Qed.

(** C31: An amount of an asset that is printed with its decimals
    ([getStrCount]) is read back by [parseAssetAmount] as the same number of
    units, whatever the decimals; this is so for every number of units that can
    be encoded in a transaction. Without decimals the text ends in the point
    ("5.", where the doc of [getStrCount] shows "1"), which is read back too. *)
Theorem asset_amount_roundtrip a :
  0 <= _divisibility a <= 18 -> 0 < _count a <= MAX_ASSET_COUNT ->
  parseAssetAmount (amount_string (getStrCount a)) (_divisibility a) = Ok (_count a).
Proof.
  intros Hd Hc. unfold parseAssetAmount. set (d := _divisibility a) in *.
  set (l := chars (to_string (_count a))). assert (digits l) as Hl by apply to_string_digits.
  assert (number l = _count a) as Hn by (apply to_string_number; lia).
  unfold getStrCount. fold d l. set (needed := d + 1 - Z.of_nat (length l)).
  assert (exists r, (if 0 <? needed then repeat "0"%char (Z.to_nat needed) ++ l else l) = r /\ digits r /\ number r = _count a
    /\ d + 1 <= Z.of_nat (length r)) as (r & -> & Hr & Hnr & Hlen).
  { destruct (Z.ltb_spec 0 needed); eexists; (split; [done|]).
    - change "0"%char with (ch 48). rewrite number_zeros, length_app, repeat_length. split_and!; [|done|lia].
      apply digits_app. split; [apply digits_repeat|done].
    - split_and!; [done..|lia]. }
  set (point := Z.to_nat (Z.of_nat (length r) - d)).
  assert (length (drop point r) = Z.to_nat d) as Ht by (rewrite length_drop; lia).
  rewrite <- (take_drop point r) in Hr, Hnr. apply digits_app in Hr as [Hw Hf].
  assert (take point r <> []) as Hne.
  { intros E. apply (f_equal length) in E. rewrite length_take in E. cbn in E. lia. }
  pose proof (parse_decimal_digits (take point r) (drop point r) d Hw Hne Hf ltac:(lia) Hd ltac:(lia)) as H.
  rewrite Hnr in H. change ("."%char) with (ch 46). by rewrite pow10_small.
Qed.

(** *** DigiByte *)
Lemma scan_digits l dot whole frac rest : digits l ->
  scan_amount (l ++ rest) dot whole frac
  = if dot then scan_amount rest dot whole (frac ++ l) else scan_amount rest dot (whole ++ l) frac.
Proof.
  revert whole frac. induction l as [|c l IH]; intros whole frac; [by rewrite !app_nil_r; destruct dot|].
  rewrite digits_cons. intros [Hc Hl]. cbn [app scan_amount]. rewrite Hc. apply digit_range in Hc.
  rewrite (proj2 (Z.eqb_neq _ 46)) by lia. destruct dot; rewrite IH by done; by rewrite <- app_assoc.
Qed.

(** An amount of DigiByte that is printed for Core ([satsToDecimal]) is read
    back by [dgbToSats] as the same number of satoshis. *)
Theorem sats_roundtrip sats : 0 <= sats < two63 -> dgbToSats (amount_string (satsToDecimal sats)) = Ok sats.
Proof.
  intros Hs. unfold dgbToSats, satsToDecimal. set (w := chars (to_string (sats / 100000000))).
  set (f := chars (to_string (sats mod 100000000))). set (g := repeat (ch 48) (8 - length f) ++ f).
  assert (digits w) as Hw by apply to_string_digits. assert (digits f) as Hf by apply to_string_digits.
  assert (number w = sats / 100000000) as Hnw by (apply to_string_number; lia).
  assert (number f = sats mod 100000000) as Hnf by (apply to_string_number; lia).
  assert (length f <= 8)%nat as Hlf by (apply to_string_length; lia).
  assert (digits g) as Hg by (apply digits_app; split; [apply digits_repeat|done]).
  assert (number g = sats mod 100000000) as Hng by (unfold g; by rewrite number_zeros).
  assert (length g = 8%nat) as Hlg by (unfold g; rewrite length_app, repeat_length; lia).
  assert (w <> []) as Hne by apply pretty_nonempty.
  rewrite !chars_app, chars_str. fold w. change (chars ".") with [ch 46]. cbn [app].
  clearbody w g. unfold parse_sats. destruct w as [|c w']; [done|].
  assert (48 <= byteZ c <= 57) as Hc by (apply digit_range; by apply digits_cons in Hw as [? _]).
  cbn [app]. rewrite (proj2 (Z.eqb_neq _ 43)), (proj2 (Z.eqb_neq _ 45)) by lia. change (c :: w' ++ ?x) with ((c :: w') ++ x).
  rewrite scan_digits by done. cbn [scan_amount]. change (byteZ (ch 46) =? 46) with true. cbv iota.
  rewrite <- (app_nil_r g), scan_digits by done. cbn [scan_amount app mbind outcome_bind].
  rewrite (bool_decide_eq_false_2 _ Hne), Hlg. cbn [andb Nat.ltb Nat.leb Nat.sub repeat]. rewrite app_nil_r.
  assert (g <> []) as Hgne by by destruct g.
  unfold stoll_or_range. rewrite (bool_decide_eq_false_2 _ Hne), (bool_decide_eq_false_2 _ Hgne).
  unfold two63 in *. rewrite !stoll_digits by (done || (unfold two63; lia)). rewrite Hnw, Hng. cbn [mbind outcome_bind].
  unfold in_int64, two63. replace (_ && _) with true by lia. cbn [mbind outcome_bind]. replace (_ && _) with true by lia. f_equal. lia.
Qed.

Lemma asset_amount_roundtrip_witness :
  getStrCount (set_count 5 (set_assetIndex 7 DigiAsset_default)) = "5."%string
  /\ parseAssetAmount (amount_string (getStrCount (set_count 5 (set_assetIndex 7 DigiAsset_default)))) 0 = Ok 5.
Proof.
  split; [vm_compute; reflexivity|].
  apply (asset_amount_roundtrip (set_count 5 (set_assetIndex 7 DigiAsset_default))); cbn; unfold MAX_ASSET_COUNT; lia.
Defined.
Lemma sats_roundtrip_witness :
  satsToDecimal 123456789012 = "1234.56789012"%string /\ dgbToSats (amount_string (satsToDecimal 123456789012)) = Ok 123456789012.
Proof. split; [vm_compute; reflexivity|]. apply sats_roundtrip. unfold two63. lia. Defined.

(** *** Text that has no meaning in the program *)

(** More than 92233720368 DigiByte overflow the product, which is not behind the
    [try] that turns an amount out of range into an error. *)
Lemma large_amount_overflows : dgbToSats (amount_string "92233720369") = UB.
Proof. vm_compute. reflexivity. Qed.
(** A byte that is not ASCII is given to [isdigit] as a negative [char]. *)
Lemma foreign_digit_undefined : parseAssetAmount (amount_string (str [ch 49; ch 195; ch 169])) 2 = UB.
Proof. vm_compute. reflexivity. Qed.
