(* ===== verification/ConfigFile.v ===== *)
(** ConfigFile: the configuration file (src/src/Config.cpp): lines of key=value
    that are read into a map beside the lines themselves, typed access, and
    writing the lines back.

    The file system is not modelled: [refresh] gets the contents of the file,
    [None] when it cannot be opened, and [write] gives them. *)

From stdpp Require Import gmap strings pretty.
From S2P Require Import Prelude.
From S2P Require Import BitIOCodec.
From S2P Require Import CString.

Record config := mk_config {
  _values : gmap string string;
  _rawLines : list string;
  _keyToLineIndex : gmap string nat
}.
Definition set_values f (c : config) : config := mk_config (f (_values c)) (_rawLines c) (_keyToLineIndex c).
Definition set_rawLines f (c : config) : config := mk_config (_values c) (f (_rawLines c)) (_keyToLineIndex c).
Definition set_lineIndex f (c : config) : config := mk_config (_values c) (_rawLines c) (f (_keyToLineIndex c)).

Definition clear : config := mk_config ∅ [] ∅.

Definition exceptionConfigFileMissing : exn := class_exception "Config::exceptionConfigFileMissing" "Config Exception: File missing".
Definition exceptionCorruptConfigFile_Missing (key : string) : exn :=
  class_exception "Config::exceptionCorruptConfigFile_Missing" ("Config Exception: Missing " ++ key).
Definition exceptionCorruptConfigFile_WrongType (what : string) : exn :=
  class_exception "Config::exceptionCorruptConfigFile_WrongType" ("Config Exception: " ++ what).

(** ** Reading *)
Definition newline : ascii := ch 10.
(** The lines that [getline] gives *)
Fixpoint file_lines (l : list ascii) : list (list ascii) :=
  match l with
  | [] => []
  | c :: l =>
      if Ascii.eqb newline c then [] :: file_lines l
      else match file_lines l with line :: lines => (c :: line) :: lines | [] => [[c]] end
  end.
Definition strip_return (l : list ascii) : list ascii :=
  match rev l with c :: r => if byteZ c =? 13 then rev r else l | [] => [] end.
(** The key and the value of a line; a second [getline] that reads nothing fails. *)
Definition parse_line (line : list ascii) : option (string * string) :=
  match find_first_not blank line with
  | None => None
  | Some firstReal =>
      if bool_decide (line !! firstReal = Some (ch 35)) then None
      else match split_at (ch 61) line with
           | (key, Some (c :: value)) => Some (str key, str (c :: value))
           | _ => None
           end
  end.
Definition read_line (line : list ascii) (c : config) : config :=
  let line := strip_return line in
  let idx := length (_rawLines c) in
  let c := set_rawLines (fun l => l ++ [str line]) c in
  match parse_line line with
  | Some (key, value) => set_lineIndex <[key := idx]> (set_values <[key := value]> c)
  | None => c
  end.
Definition refresh (file : option string) : outcome config :=
  match file with
  | None => Throw exceptionConfigFileMissing
  | Some contents => Ok (foldl (fun c line => read_line line c) clear (file_lines (chars contents)))
  end.

(** ** Writing *)
(** The entries of a [std::map] in its order *)
Definition in_order {A} (m : gmap string A) : list (string * A) :=
  CString.sort (fun a b => String.ltb a.1 b.1) (map_to_list m).
Definition write (c : config) : string :=
  match _rawLines c with
  | [] => foldr (fun kv text => (kv.1 ++ "=" ++ kv.2 ++ str [newline] ++ text)%string) ""%string (in_order (_values c))
  | lines => foldr (fun line text => (line ++ str [newline] ++ text)%string) ""%string lines
  end.

(** ** Types *)
(** [std::isdigit] of a plain [char] is undefined for a negative one. *)
Fixpoint only_digits (l : list ascii) : outcome bool :=
  match l with
  | [] => Ok true
  | c :: l => if 128 <=? byteZ c then UB else if is_digit c then only_digits l else Ok false
  end.
Definition isInteger (value : string) : outcome bool :=
  match chars value with
  | [] => Ok false
  | c :: l => only_digits (if (byteZ c =? 43) || (byteZ c =? 45) then l else c :: l)
  end.
Definition isBool (value : string) : bool :=
  match chars value with
  | [c] => (byteZ c =? 48) || (byteZ c =? 49)
  | _ => String.eqb value "true" || String.eqb value "false"
  end.
Definition UNKNOWN : Z := 0.
Definition STRING : Z := 1.
Definition INTEGER : Z := 10.
Definition isKey (key : string) (type : Z) (c : config) : outcome bool :=
  match _values c !! key with
  | None => Ok false
  | Some value =>
      if type =? UNKNOWN then Ok true
      else if type =? INTEGER then isInteger value
      else Ok (type =? STRING)
  end.

(** ** Access *)
Definition getString (key : string) (c : config) : outcome string :=
  match _values c !! key with Some v => Ok v | None => Throw (exceptionCorruptConfigFile_Missing key) end.
Definition getString_default (key defaultValue : string) (c : config) : string :=
  default defaultValue (_values c !! key).
(** The body of the [try]; [stoi] throws [out_of_range] as [at] does. *)
Definition integer_of (key value : string) : outcome Z :=
  ok ← isInteger value;
  if negb ok then Throw (exceptionCorruptConfigFile_WrongType (key ++ " is not an integer")) else stoi value.
Definition bool_of (key value : string) : outcome bool :=
  if negb (isBool value) then Throw (exceptionCorruptConfigFile_WrongType (key ++ " is not an boolean"))
  else if String.eqb value "true" then Ok true
  else if String.eqb value "false" then Ok false
  else v ← stoi value; Ok (negb (v =? 0)).
Definition or_missing {A} (o : outcome A) (missing : outcome A) : outcome A :=
  match o with Throw (out_of_range _) => missing | o => o end.
Definition value_at {A} (key : string) (f : string -> string -> outcome A) (missing : outcome A) (c : config) : outcome A :=
  match _values c !! key with Some v => or_missing (f key v) missing | None => missing end.
Definition getInteger (key : string) : config -> outcome Z :=
  value_at key integer_of (Throw (exceptionCorruptConfigFile_Missing key)).
Definition getInteger_default (key : string) (defaultValue : Z) : config -> outcome Z := value_at key integer_of (Ok defaultValue).
Definition getBool (key : string) : config -> outcome bool :=
  value_at key bool_of (Throw (exceptionCorruptConfigFile_Missing key)).
Definition getBool_default (key : string) (defaultValue : bool) : config -> outcome bool := value_at key bool_of (Ok defaultValue).

Definition getPlaceholderKeys (c : config) : list string :=
  List.filter (fun k => bool_decide (ch 35 ∈ chars k)) (map fst (in_order (_values c))).

(** ** Groups of keys *)
Definition with_prefix (keyPrefix : string) (kv : string * string) : bool := starts keyPrefix kv.1.
Definition without_prefix (keyPrefix key : string) : string := str (drop (length (chars keyPrefix)) (chars key)).
Definition group (keyPrefix : string) (c : config) : list (string * string) :=
  map (fun kv => (without_prefix keyPrefix kv.1, kv.2)) (List.filter (with_prefix keyPrefix) (in_order (_values c))).
Definition getStringMap (keyPrefix : string) (c : config) : gmap string string := list_to_map (group keyPrefix c).
Fixpoint integer_map (l : list (string * string)) (result : gmap string Z) : outcome (gmap string Z) :=
  match l with
  | [] => Ok result
  | (k, v) :: l =>
      ok ← isInteger v;
      if ok : bool then n ← stoi v; integer_map l (<[k := n]> result) else integer_map l result
  end.
Definition getIntegerMap (keyPrefix : string) (c : config) : outcome (gmap string Z) := integer_map (group keyPrefix c) ∅.
Definition truth (v : string) : bool :=
  if String.eqb v "true" then true else if String.eqb v "false" then false else String.eqb v "1".
Definition getBoolMap (keyPrefix : string) (c : config) : gmap string bool :=
  list_to_map (map (fun kv => (kv.1, truth kv.2)) (List.filter (fun kv => isBool kv.2) (group keyPrefix c))).

(** ** Changing *)
Definition setString (key value : string) (c : config) : config :=
  let c := set_values <[key := value]> c in
  let newLine := (key ++ "=" ++ value)%string in
  match _keyToLineIndex c !! key with
  | Some i => set_rawLines <[i := newLine]> c
  | None => set_rawLines (fun l => l ++ [newLine]) (set_lineIndex <[key := length (_rawLines c)]> c)
  end.
Definition setInteger (key : string) (value : Z) : config -> config := setString key (int_string value).
Definition setBool (key : string) (value : bool) : config -> config := setInteger key (Z.b2z value).
Definition set_entries {A} (show : A -> string) (key : string) (values : gmap string A) (c : config) : config :=
  foldl (fun c kv => setString (key ++ kv.1) (show kv.2) c) c (in_order values).
Definition setStringMap : string -> gmap string string -> config -> config := set_entries (fun v => v).
Definition setIntegerMap : string -> gmap string Z -> config -> config := set_entries int_string.
Definition setBoolMap : string -> gmap string bool -> config -> config := set_entries (fun v => int_string (Z.b2z v)).
