(* ===== verification/ConfigTheorems.v ===== *)
(** ConfigTheorems: settings that are changed and written are read back, and the
    other lines of the file stay as they were. *)

From stdpp Require Import gmap strings pretty.
From S2P Require Import Prelude.
From S2P Require Import BitIOCodec.
From S2P Require Import BitIOText.
From S2P Require Import CString.
From S2P Require Import DigiAsset.
From S2P Require Import WalletAmounts.
From S2P Require Import ConfigFile.

Ltac Zify.zify_post_hook ::= Z.div_mod_to_equations.

(** ** Lines *)
Definition reload (lines : list string) : config := foldl (fun c line => read_line (chars line) c) clear lines.
(** A line that can be written and read again *)
Definition clean (line : string) : Prop := newline ∉ chars line /\ strip_return (chars line) = chars line.
(** What [refresh] leaves: the maps are those of the lines. *)
Record loaded (c : config) : Prop := { lines_clean : Forall clean (_rawLines c); maps_read : c = reload (_rawLines c) }.

Lemma reload_app l l' : reload (l ++ l') = foldl (fun c line => read_line (chars line) c) (reload l) l'.
Proof. apply foldl_app. Qed.
Lemma read_line_lines line c : _rawLines (read_line line c) = _rawLines c ++ [str (strip_return line)].
Proof. unfold read_line. by destruct (parse_line _) as [[k v]|]. Qed.
Lemma strip_return_newline l : newline ∉ l -> newline ∉ strip_return l.
Proof.
  unfold strip_return. intros H. destruct (rev l) as [|c r] eqn:E; [apply not_elem_of_nil|]. case_match; [|done].
  intros Hin. apply H. rewrite <- (rev_involutive l), E. cbn. apply elem_of_app. by left.
Qed.

Lemma file_lines_newline l : Forall (fun line => newline ∉ line) (file_lines l).
Proof.
  induction l as [|c l IH]; cbn [file_lines]; [constructor|].
  destruct (Ascii.eqb_spec newline c) as [E|E]; [by constructor; [apply not_elem_of_nil|]|].
  destruct (file_lines l) as [|line lines].
  - constructor; [|constructor]. by intros H%list_elem_of_singleton.
  - apply Forall_cons in IH as [Hl Hls]. constructor; [|done]. intros [?|?]%elem_of_cons; congruence || done.
Qed.
Lemma file_lines_line line l : newline ∉ line -> file_lines (line ++ newline :: l) = line :: file_lines l.
Proof.
  induction line as [|c line IH]; cbn [app file_lines]; intros H; [by rewrite Ascii.eqb_refl|].
  apply not_elem_of_cons in H as [Hc Hl]. destruct (Ascii.eqb_spec newline c); [done|]. by rewrite IH.
Qed.
Lemma write_lines lines : Forall clean lines ->
  file_lines (chars (foldr (fun line text => (line ++ str [newline] ++ text)%string) ""%string lines)) = map chars lines.
Proof.
  induction 1 as [|line lines [Hn _] _ IH]; [done|]. cbn [foldr map].
  rewrite !chars_app, chars_str. cbn [app]. rewrite file_lines_line by done. by rewrite IH.
Qed.
Lemma foldl_map {A B C} (f : C -> B -> C) (g : A -> B) c l : foldl f c (map g l) = foldl (fun c x => f c (g x)) c l.
Proof. revert c. induction l as [|x l IH]; intros c; [done|]. apply IH. Qed.

Lemma write_loaded c : loaded c -> refresh (Some (write c)) = Ok c.
Proof.
  intros [Hc Hm]. unfold refresh, write. destruct (_rawLines c) as [|line lines] eqn:E.
  { rewrite Hm. reflexivity. }
  f_equal. rewrite write_lines, foldl_map by done. symmetry. exact Hm.
Qed.

Lemma refresh_loaded s c :
  Forall (fun line => strip_return (strip_return line) = strip_return line) (file_lines (chars s)) ->
  refresh (Some s) = Ok c -> loaded c.
Proof.
  intros Hs [= <-]. pose proof (file_lines_newline (chars s)) as Hn. revert Hs Hn. generalize (file_lines (chars s)).
  assert (loaded clear) as H0 by (split; [constructor|done]). revert H0. generalize clear.
  intros c Hc lines. revert c Hc. induction lines as [|line lines IH]; intros c [Hcl Hm] Hs Hn; [done|].
  apply Forall_cons in Hs as [Hs Hss]. apply Forall_cons in Hn as [Hn Hns]. cbn [foldl]. apply IH; [|done..]. split.
  - rewrite read_line_lines. apply Forall_app. split; [done|]. repeat constructor; rewrite chars_str; [by apply strip_return_newline|done].
  - rewrite read_line_lines, reload_app, <- Hm. cbn. unfold read_line at 2. rewrite chars_str, Hs. reflexivity.
Qed.

(** ** Entries *)
Definition entry_ok (key value : string) : bool :=
  forallb (fun c => negb (Ascii.eqb newline c) && negb (Ascii.eqb (ch 61) c)) (chars key)
  && match find_first_not blank (chars key) with Some i => bool_decide (chars key !! i <> Some (ch 35)) | None => true end
  && forallb (fun c => negb (Ascii.eqb newline c)) (chars value)
  && match rev (chars value) with c :: _ => negb (byteZ c =? 13) | [] => false end.

Lemma forallb_not_in (c : ascii) l : forallb (fun d => negb (Ascii.eqb c d)) l = true -> c ∉ l.
Proof. rewrite forallb_forall. intros H Hin. apply list_elem_of_In, H in Hin. by rewrite Ascii.eqb_refl in Hin. Qed.
Lemma first_not_app set l l' :
  find_first_not set (l ++ l') = match find_first_not set l with Some i => Some i | None => Nat.add (length l) <$> find_first_not set l' end.
Proof.
  induction l as [|c l IH]; cbn [app find_first_not length]; [by destruct (find_first_not set l')|].
  case_bool_decide; [|done]. rewrite IH. destruct (find_first_not set l); [done|]. by destruct (find_first_not set l').
Qed.
Lemma first_not_bound set l i : find_first_not set l = Some i -> (i < length l)%nat.
Proof.
  revert i. induction l as [|c l IH]; intros i; cbn; [done|]. case_bool_decide; [|intros [= <-]; lia].
  destruct (find_first_not set l) as [j|]; [|done]. intros [= <-]. specialize (IH j eq_refl). lia.
Qed.
Lemma entry_line key value : entry_ok key value = true ->
  clean (key ++ "=" ++ value) /\ parse_line (chars (key ++ "=" ++ value)) = Some (key, value).
Proof.
  unfold entry_ok. rewrite !andb_true_iff. intros [[[Hk Hf] Hv] Hr].
  assert (newline ∉ chars key /\ ch 61 ∉ chars key) as [Hkn Hke].
  { split; apply forallb_not_in; rewrite forallb_forall in *; intros c Hc; specialize (Hk c Hc);
      apply andb_true_iff in Hk; tauto. }
  apply forallb_not_in in Hv. rewrite !chars_app. change (chars "=") with [ch 61]. cbn [app].
  destruct (rev (chars value)) as [|e r] eqn:Er; [done|].
  assert (chars value = rev r ++ [e]) as Ev by (rewrite <- (rev_involutive (chars value)), Er; done).
  split; [split|].
  - rewrite !chars_app. change (chars "=") with [ch 61]. cbn [app]. rewrite elem_of_app, elem_of_cons. intros [?|[[=]|?]]; done.
  - rewrite !chars_app. change (chars "=") with [ch 61]. cbn [app]. unfold strip_return. rewrite rev_app_distr. cbn [rev].
    rewrite Er. cbn [app]. destruct (byteZ e =? 13); done.
  - unfold parse_line. rewrite split_at_stop by done. rewrite first_not_app.
    assert (exists v vs, chars value = v :: vs) as (v & vs & Evs) by (rewrite Ev; destruct (rev r); cbn; eauto).
    rewrite Evs, <- Evs, !str_chars. destruct (find_first_not blank (chars key)) as [i|] eqn:Ei.
    + apply bool_decide_eq_true in Hf. rewrite bool_decide_eq_false_2; [done|].
      by rewrite lookup_app_l by (by apply first_not_bound in Ei).
    + change (find_first_not blank (ch 61 :: chars value)) with (Some 0%nat). cbn [fmap option_fmap option_map].
      rewrite lookup_app_r, Nat.add_0_r, Nat.sub_diag by lia. by rewrite bool_decide_eq_false_2.
Qed.

(** ** Changing a value *)
Definition line_key (line : string) : option string := fst <$> parse_line (strip_return (chars line)).
Lemma reload_length lines : length (_rawLines (reload lines)) = length lines.
Proof.
  induction lines as [|l lines IH] using rev_ind; [done|]. rewrite reload_app. cbn. by rewrite read_line_lines, !length_app, IH.
Qed.
(** The line of a key is the last one with this key. *)
Lemma index_split lines key i : _keyToLineIndex (reload lines) !! key = Some i ->
  exists l1 old l2 v, lines = l1 ++ old :: l2 /\ length l1 = i
    /\ parse_line (strip_return (chars old)) = Some (key, v) /\ Forall (fun l => line_key l <> Some key) l2.
Proof.
  revert i. induction lines as [|line lines IH] using rev_ind; intros i; [done|]. pose proof (reload_length lines) as Hlen.
  rewrite reload_app. cbn [foldl]. unfold read_line. cbn [_keyToLineIndex set_rawLines].
  destruct (parse_line (strip_return (chars line))) as [[k v]|] eqn:Ep.
  - cbn [_keyToLineIndex set_lineIndex set_values set_rawLines]. intros [[-> <-]|[Hne Hk]]%lookup_insert_Some.
    + exists lines, line, [], v. split_and!; [done|by rewrite Hlen|done|constructor].
    + apply IH in Hk as (l1 & old & l2 & v' & -> & Hl & Ho & Hf). exists l1, old, (l2 ++ [line]), v'.
      rewrite <- app_assoc. split_and!; [done..|]. apply Forall_app. split; [done|]. repeat constructor.
      unfold line_key. rewrite Ep. cbn. congruence.
  - cbn [_keyToLineIndex set_rawLines]. intros Hk. apply IH in Hk as (l1 & old & l2 & v' & -> & Hl & Ho & Hf).
    exists l1, old, (l2 ++ [line]), v'. rewrite <- app_assoc. split_and!; [done..|]. apply Forall_app. split; [done|].
    repeat constructor. unfold line_key. by rewrite Ep.
Qed.

(** [c] with another value and another line for a key that it has *)
Definition patch (i : nat) (line key value : string) (c : config) : config :=
  set_rawLines <[i := line]> (set_values <[key := value]> c).
Lemma read_line_patch i line key value l c :
  (i < length (_rawLines c))%nat -> line_key (str l) <> Some key ->
  read_line l (patch i line key value c) = patch i line key value (read_line l c).
Proof.
  intros Hi Hk. unfold line_key in Hk. rewrite chars_str in Hk. unfold read_line, patch.
  cbn [_rawLines set_rawLines set_values]. rewrite length_insert.
  destruct (parse_line _) as [[k v]|]; unfold set_rawLines, set_values, set_lineIndex; cbn; rewrite insert_app_l by done; [|done].
  f_equal. rewrite insert_insert_ne; [done|]. cbn in Hk. congruence.
Qed.
Lemma read_lines_patch i line key value ls c :
  (i < length (_rawLines c))%nat -> Forall (fun l => line_key l <> Some key) ls ->
  foldl (fun c l => read_line (chars l) c) (patch i line key value c) ls
  = patch i line key value (foldl (fun c l => read_line (chars l) c) c ls).
Proof.
  revert c. induction ls as [|l ls IH]; intros c Hi Hf; [done|]. apply Forall_cons in Hf as [Hl Hf]. cbn [foldl].
  rewrite read_line_patch by (rewrite ?str_chars; done). apply IH; [|done]. rewrite read_line_lines, length_app. lia.
Qed.

Lemma setString_loaded key value c : loaded c -> entry_ok key value = true -> loaded (setString key value c).
Proof.
  intros [Hc Hm] He. destruct (entry_line key value He) as [Hcl Hp]. set (line := (key ++ "=" ++ value)%string) in *.
  assert (strip_return (chars line) = chars line) as Hs by apply Hcl. unfold setString. fold line. cbn [_keyToLineIndex set_values].
  destruct (_keyToLineIndex c !! key) as [i|] eqn:Ei.
  - rewrite Hm in Ei. apply index_split in Ei as (l1 & old & l2 & v & El & Hl & Ho & Hf).
    change (loaded (patch i line key value c)). split.
    + cbn. by apply Forall_insert.
    + cbn [patch _rawLines set_rawLines set_values]. rewrite El, insert_app_r_alt, Hl, Nat.sub_diag by lia. cbn [list_insert].
      rewrite Hm at 1. rewrite El. rewrite !(reload_app l1). cbn [foldl].
      rewrite <- (read_lines_patch i line key value l2); [|rewrite read_line_lines, length_app, reload_length; cbn; lia|done].
      change (<[0%nat:=line]> (old :: l2)) with (line :: l2). cbn [foldl]. f_equal. unfold read_line. rewrite Ho, Hs, Hp.
      pose proof (reload_length l1) as Hr. rewrite Hl in Hr.
      unfold patch, set_rawLines, set_values, set_lineIndex. cbn. rewrite insert_app_r_alt, Hr, Nat.sub_diag by lia. cbn.
      rewrite insert_insert_eq, str_chars. done.
  - cbn [_rawLines set_rawLines set_lineIndex]. split.
    + cbn. apply Forall_app. split; [done|]. apply Forall_singleton. exact Hcl.
    + cbn [_rawLines set_rawLines set_lineIndex set_values]. rewrite reload_app, <- Hm. cbn [foldl]. unfold read_line.
      rewrite Hs, Hp, str_chars. done.
Qed.

Definition set_all (kvs : list (string * string)) (c : config) : config := foldl (fun c kv => setString kv.1 kv.2 c) c kvs.
Lemma set_all_loaded kvs c : loaded c -> Forall (fun kv => entry_ok kv.1 kv.2 = true) kvs -> loaded (set_all kvs c).
Proof.
  revert c. induction kvs as [|[k v] kvs IH]; intros c Hc Hk; [done|]. apply Forall_cons in Hk as [Hk Hks].
  apply IH; [by apply setString_loaded|done].
Qed.
Lemma setString_value key value c k : _values (setString key value c) !! k = <[key := value]> (_values c) !! k.
Proof. unfold setString. cbn. by destruct (_keyToLineIndex c !! key). Qed.
Lemma set_all_value kvs c k : _values (set_all kvs c) !! k = match list_to_map (M := gmap string string) (rev kvs) !! k with Some v => Some v | None => _values c !! k end.
Proof.
  induction kvs as [|[key v] kvs IH] using rev_ind; [done|]. unfold set_all in *. rewrite foldl_app. cbn [foldl fst snd].
  rewrite setString_value, rev_app_distr. cbn [rev app list_to_map foldr]. cbn.
  destruct (decide (k = key)) as [->|Hne]; [by rewrite !lookup_insert_eq|]. by rewrite !lookup_insert_ne.
Qed.
Lemma setString_line key value c i : (i < length (_rawLines c))%nat -> _keyToLineIndex c !! key <> Some i ->
  _rawLines (setString key value c) !! i = _rawLines c !! i
  /\ (length (_rawLines c) <= length (_rawLines (setString key value c)))%nat
  /\ forall k, _keyToLineIndex c !! k <> Some i -> _keyToLineIndex (setString key value c) !! k <> Some i.
Proof.
  intros Hi Hk. unfold setString. cbn [_keyToLineIndex set_values]. destruct (_keyToLineIndex c !! key) as [j|] eqn:Ej; cbn.
  - split_and!; [|by rewrite length_insert|done]. rewrite list_lookup_insert_ne; [done|congruence].
  - split_and!; [by rewrite lookup_app_l|rewrite length_app; lia|]. intros k Hne [[_ H]|[_ H]]%lookup_insert_Some; [lia|done].
Qed.
Lemma set_all_line kvs c i : (i < length (_rawLines c))%nat ->
  Forall (fun kv => _keyToLineIndex c !! kv.1 <> Some i) kvs -> _rawLines (set_all kvs c) !! i = _rawLines c !! i.
Proof.
  revert c. induction kvs as [|[k v] kvs IH]; intros c Hi Hf; [done|]. apply Forall_cons in Hf as [Hk Hf].
  destruct (setString_line k v c i Hi Hk) as (E & Hl & Hn). cbn [set_all foldl]. rewrite <- E. apply IH; [cbn; lia|].
  eapply Forall_impl; [exact Hf|]. intros kv. apply Hn.
Qed.

(** C35: Settings that a line can hold survive ([entry_ok]: a key without line
    break and equals sign that does not make the line a comment, and a value
    that is not empty, has no line break and does not end in a carriage return;
    for the empty value see [empty_setting_lost]). After any sequence of such
    settings in a configuration that was read from a file, writing the file and
    reading it again gives the same state; every key has the value that was set
    last or its old one, and every line that is not the line of a key that was
    set, comments and blank lines included, is still the same line at the same
    place. *)
Theorem config_sets_survive c kvs : loaded c -> Forall (fun kv => entry_ok kv.1 kv.2 = true) kvs ->
  let c' := set_all kvs c in
  refresh (Some (write c')) = Ok c'
  /\ (forall k, getString k c' = match list_to_map (M := gmap string string) (rev kvs) !! k with Some v => Ok v | None => getString k c end)
  /\ (forall i line, _rawLines c !! i = Some line -> Forall (fun kv => _keyToLineIndex c !! kv.1 <> Some i) kvs ->
        _rawLines c' !! i = Some line).
Proof.
  intros Hc Hk c'. split_and!.
  - by apply write_loaded, set_all_loaded.
  - intros k. unfold getString. unfold c'. rewrite set_all_value. by destruct (list_to_map (rev kvs) !! k).
  - intros i line Hl Hf. unfold c'. rewrite set_all_line; [done|by apply lookup_lt_Some in Hl|done].
Qed.

(** *** Numbers *)
Lemma only_digits_true l : digits l -> only_digits l = Ok true.
Proof.
  induction l as [|c l IH]; [done|]. rewrite digits_cons. intros [Hc Hl]. cbn. rewrite Hc, IH by done.
  apply digit_range in Hc. destruct (Z.leb_spec 128 (byteZ c)); [lia|done].
Qed.
Lemma int_string_cases z : exists l, digits l /\ l <> [] /\ number l = Z.abs z
  /\ chars (int_string z) = if z <? 0 then ch 45 :: l else l.
Proof.
  exists (chars (pretty (Z.to_N (Z.abs z)))). split_and!; [apply pretty_digits|apply pretty_nonempty|rewrite pretty_number; lia|].
  destruct z as [|p|p]; reflexivity.
Qed.
Lemma stoi_int_string z : - 2147483648 <= z < 2147483648 -> isInteger (int_string z) = Ok true /\ stoi (int_string z) = Ok z.
Proof.
  intros Hz. destruct (int_string_cases z) as (l & Hl & Hne & Hn & E).
  assert (exists c r, l = c :: r /\ 48 <= byteZ c <= 57) as (c & r & -> & Hc).
  { destruct l as [|c r]; [done|]. exists c, r. split; [done|]. apply digits_cons in Hl as [H _]. by apply digit_range. }
  pose proof (leading_digits_none _ Hl Hne) as Hld. pose proof (leading_digits_number _ Hl) as Hdn. split.
  - unfold isInteger. rewrite E. destruct (z <? 0); [by apply only_digits_true|].
    rewrite (proj2 (Z.eqb_neq _ 43)), (proj2 (Z.eqb_neq _ 45)) by lia. by apply only_digits_true.
  - unfold stoi, sto_signed. rewrite E. destruct (Z.ltb_spec z 0).
    + change (read_sign (skip_spaces (ch 45 :: c :: r))) with (true, c :: r). cbv iota beta.
      destruct (leading_digits (c :: r)) as [|d ds]; [done|]. rewrite Hdn, Hn.
      replace (- Z.abs z) with z by lia. by replace (_ && _) with true by lia.
    + rewrite digit_skips by (apply digits_cons in Hl; tauto). destruct (leading_digits (c :: r)) as [|d ds]; [done|].
      rewrite Hdn, Hn. replace (Z.abs z) with z by lia. by replace (_ && _) with true by lia.
Qed.

(** A number or a truth value that is set is the one that is read, also by
    the program that reads the file later. *)
Theorem config_numbers_survive c key z b : loaded c -> - 2147483648 <= z < 2147483648 -> entry_ok key "0" = true ->
  (exists c', refresh (Some (write (setInteger key z c))) = Ok c' /\ getInteger key c' = Ok z)
  /\ exists c', refresh (Some (write (setBool key b c))) = Ok c' /\ getBool key c' = Ok b.
Proof.
  intros Hc Hz Hk.
  assert (forall z', entry_ok key (int_string z') = true) as Hent.
  { intros z'. destruct (int_string_cases z') as (l & Hl & Hne & _ & E). unfold entry_ok in *. rewrite !andb_true_iff in *.
    destruct Hk as [[[H1 H2] _] _]. split_and!; [done|done|..]; rewrite E.
    - assert (forallb (fun c => negb (Ascii.eqb newline c)) l = true) as Hl'.
      { unfold digits in Hl. rewrite forallb_forall in *. intros c' Hin. specialize (Hl c' Hin). apply digit_range in Hl.
        destruct (Ascii.eqb_spec newline c') as [<-|]; [by vm_compute in Hl; destruct Hl|done]. }
      by destruct (z' <? 0).
    - destruct (rev l) as [|c' r'] eqn:Er; [by apply (f_equal (@rev ascii)) in Er; rewrite rev_involutive in Er|].
      assert (is_digit c' = true) as Hd.
      { assert (c' ∈ l) as Hin by (rewrite <- (rev_involutive l), Er; cbn; apply elem_of_app; right; by left).
        unfold digits in Hl. rewrite forallb_forall in Hl. apply Hl. by apply list_elem_of_In. }
      apply digit_range in Hd. destruct (z' <? 0); cbn [rev]; rewrite Er; cbn; lia. }
  split.
  - exists (setInteger key z c). split; [apply write_loaded, setString_loaded; auto|].
    unfold getInteger, value_at, setInteger. rewrite setString_value, lookup_insert_eq. unfold integer_of.
    destruct (stoi_int_string z Hz) as [-> ->]. done.
  - exists (setBool key b c). split; [apply write_loaded, setString_loaded; auto|].
    unfold getBool, value_at, setBool, setInteger. rewrite setString_value, lookup_insert_eq. by destruct b; vm_compute.
Qed.

(** *** What does not survive *)
(** A setting without a value is gone when the file is read again. *)
Lemma empty_setting_lost key : newline ∉ chars key -> ch 61 ∉ chars key ->
  parse_line (chars (key ++ "=" ++ "")) = None.
Proof.
  intros Hn He. rewrite !chars_app. change (chars "=" ++ chars "") with [ch 61]. unfold parse_line.
  rewrite split_at_stop by done. destruct (find_first_not _ _); [|done]. by case_bool_decide.
Qed.
(** A number that does not fit is reported as missing, or replaced by the default. *)
Lemma large_number_missing key c : _values c !! key = Some "2147483648"%string ->
  getInteger key c = Throw (exceptionCorruptConfigFile_Missing key) /\ forall d, getInteger_default key d c = Ok d.
Proof. intros E. unfold getInteger, getInteger_default, value_at. rewrite E. by vm_compute. Qed.
(** A sign alone counts as an integer, and reading it is not an error of the configuration. *)
Lemma lone_sign_accepted key c : _values c !! key = Some "-"%string ->
  isKey key INTEGER c = Ok true /\ getInteger key c = stoi "-" /\ exists e, stoi "-" = Throw (invalid_argument e).
Proof. intros E. unfold isKey, getInteger, value_at. rewrite E. split_and!; [by vm_compute..|]. eexists. by vm_compute. Qed.

(** *** Witnesses *)
Definition sample_file : string :=
  ("# node" ++ str [ch 10] ++ "rpcuser=me" ++ str [ch 10] ++ str [ch 10] ++ "rpcport=14022" ++ str [ch 13; ch 10])%string.
Definition sample : config := match refresh (Some sample_file) with Ok c => c | _ => clear end.
Lemma sample_loaded : loaded sample.
Proof. apply (refresh_loaded sample_file); [|reflexivity]. vm_compute. repeat constructor. Qed.

Lemma config_sets_survive_witness : exists c',
  refresh (Some (write c')) = Ok c' /\ getString "rpcuser" c' = Ok "you"%string /\ getString "rpcport" c' = Ok "14022"%string
  /\ getString "new" c' = Ok "x=y"%string /\ _rawLines c' !! 0%nat = Some "# node"%string /\ _rawLines c' !! 2%nat = Some ""%string.
Proof.
  destruct (config_sets_survive sample [("rpcuser", "me2"); ("new", "x=y"); ("rpcuser", "you")] sample_loaded) as (H & Hv & Hl).
  { repeat constructor. }
  eexists. split; [exact H|]. rewrite !Hv. split_and!; [vm_compute; reflexivity..| |].
  - apply Hl; [vm_compute; reflexivity|]. repeat constructor; vm_compute; congruence.
  - apply Hl; [vm_compute; reflexivity|]. repeat constructor; vm_compute; congruence.
Defined.
Lemma config_numbers_survive_witness :
  exists c', refresh (Some (write (setInteger "rpcport" (-5) sample))) = Ok c' /\ getInteger "rpcport" c' = Ok (-5).
Proof.
  destruct (config_numbers_survive sample "rpcport" (-5) true sample_loaded) as [H _]; [lia|reflexivity|exact H].
Defined.
