(* ===== verification/WalletTheorems.v ===== *)
(** WalletTheorems: what the wallet functions promise: the fee of a transaction
    is not paid with coins that are known to carry assets, every lock is taken
    back, a transaction is broadcast once and a failure means that it was not,
    and the chosen inputs cover the amount.  Also where this fails. *)

From Stdlib Require Import Floats.SpecFloat.
From stdpp Require Import pretty.
From S2P Require Import Prelude.
From S2P Require Import BitIO.
From S2P Require Import BitIOCodec.
From S2P Require Import Serialize.
From S2P Require Import AssetTypes.
From S2P Require Import DigiAssetRules.
From S2P Require Import CString.
From S2P Require Import Blob.
From S2P Require Import Database.
From S2P Require Import DigiAsset.
From S2P Require Import UtxoStore.
From S2P Require Import UtxoTheorems.
From S2P Require Import ChainTables.
From S2P Require Import ChainDatabase.
From S2P Require Import ChainUpdate.
From S2P Require Import DigiByteTransaction.
From S2P Require Import TransactionBuilder.
From S2P Require Import BuilderTheorems.
From S2P Require Import AssetWallet.

Ltac Zify.zify_post_hook ::= Z.div_mod_to_equations.

(** ** Computations that only make certain calls *)
Definition same_rows (c c' : chain) : Prop := utxos (c_store c') = utxos (c_store c) /\ c_tables c' = c_tables c.

Section silent.
Context {CW : CoreWallet} (core : Sqlite).

(** [m] makes only calls that [ok] allows, and stores nothing. *)
Definition silent {A} (ok : wallet_call -> bool) (m : M wallet A) : Prop := forall w,
  same_rows (w_chain w) (w_chain (m w).2)
  /\ exists new, w_calls (m w).2 = new ++ w_calls w /\ forallb ok new = true.

Lemma silent_here {A} ok (m : M wallet A) : (forall w, (m w).2 = w) -> silent ok m.
Proof. intros H w. rewrite H. split; [done|]. by exists []. Qed.
Lemma silent_ret {A} ok (x : A) : silent ok (mret x).
Proof. by apply silent_here. Qed.
Lemma silent_lift {A} ok (o : outcome A) : silent ok (lift o).
Proof. by apply silent_here. Qed.
Lemma silent_throw {A} ok e : silent ok (throw e : M wallet A).
Proof. by apply silent_here. Qed.
Lemma silent_ask {A} ok call (answer : list wallet_call -> outcome A) : ok call = true -> silent ok (ask call answer).
Proof. intros H w. split; [done|]. exists [call]. cbn. by rewrite H. Qed.
Lemma silent_then {A} ok (m : M wallet A) (w : wallet) (w' : wallet) :
  silent ok m -> same_rows (w_chain w) (w_chain w') /\ (exists new, w_calls w' = new ++ w_calls w /\ forallb ok new = true) ->
  same_rows (w_chain w) (w_chain (m w').2) /\ exists new, w_calls (m w').2 = new ++ w_calls w /\ forallb ok new = true.
Proof.
  intros Hm ([E1 E2] & n & En & Hn). destruct (Hm w') as ([F1 F2] & n' & En' & Hn'). split; [by split; etrans|].
  exists (n' ++ n). by rewrite En', En, app_assoc, forallb_app, Hn, Hn'.
Qed.
Lemma silent_bind {A B} ok (m : M wallet A) (k : A -> M wallet B) : silent ok m -> (forall x, silent ok (k x)) -> silent ok (m ≫= k).
Proof.
  intros Hm Hk w. specialize (Hm w). unfold mbind, M_bind. destruct (m w) as [[x| | |] w']; cbn in *; try done.
  by apply silent_then.
Qed.
Lemma silent_catch {A} ok (m : M wallet A) h : silent ok m -> (forall e, silent ok (h e)) -> silent ok (try_catch m h).
Proof.
  intros Hm Hh w. specialize (Hm w). unfold try_catch. destruct (m w) as [[x|e| |] w']; cbn in *; try done.
  by apply silent_then.
Qed.
Lemma silent_more {A} (ok ok' : wallet_call -> bool) (m : M wallet A) :
  (forall c, ok c = true -> ok' c = true) -> silent ok m -> silent ok' m.
Proof.
  intros H Hm w. destruct (Hm w) as (Hs & new & E & Hn). split; [done|]. exists new. split; [done|].
  rewrite forallb_forall in *. eauto.
Qed.
Lemma silent_coin ok u : silent ok (coin_on_chain core u).
Proof.
  intros w. unfold coin_on_chain, on_chain, on_c_store. set (db := chain_sqlite core (w_chain w)).
  pose proof (getAssetUTXO_caches (db := db) (us_txid u) (us_n u) 0 (c_store (w_chain w))) as [E _].
  destruct (getAssetUTXO _ _ _ _) as [o s]. cbn in *. split; [by split|]. by exists [].
Qed.
Lemma height_reads (w : wallet) : (on_chain getLastBlockHeight w).2 = w.
Proof.
  destruct w as [c h]. unfold on_chain, getLastBlockHeight, mbind, M_bind, get. cbn. by destruct (stmtGetBlockHeight _).
Qed.
Lemma silent_height ok : silent ok (on_chain getLastBlockHeight).
Proof. apply silent_here, height_reads. Qed.
End silent.

Ltac be_silent := repeat first
  [ apply silent_ret | apply silent_lift | apply silent_throw | apply silent_coin | apply silent_height
  | apply silent_ask; reflexivity | apply silent_bind; [|intros ?] | apply silent_catch; [|intros ?] | case_match ].

(** ** Locks *)
Section locks.
Context {CW : CoreWallet}.

(** The coins that are locked after these calls (latest first) *)
Fixpoint locks (calls : list wallet_call) : gset outpoint :=
  match calls with
  | [] => ∅
  | call_lockunspent unlock coins :: before =>
      match core_lockunspent before unlock coins with
      | Ok _ => if unlock then locks before ∖ list_to_set coins else locks before ∪ list_to_set coins
      | _ => locks before
      end
  | _ :: before => locks before
  end.
(** Each of the calls [new], with the calls before it *)
Fixpoint each_call (P : wallet_call -> list wallet_call -> Prop) (new old : list wallet_call) : Prop :=
  match new with [] => True | c :: new => P c (new ++ old) /\ each_call P new old end.
Lemma each_call_app P new new' old : each_call P (new ++ new') old <-> each_call P new (new' ++ old) /\ each_call P new' old.
Proof. induction new as [|c new IH]; cbn; [tauto|]. rewrite IH, app_assoc. tauto. Qed.
Lemma each_call_no P ok new old :
  forallb ok new = true -> (forall c before, ok c = true -> P c before) -> each_call P new old.
Proof. intros H HP. induction new as [|c new IH]; [done|]. cbn in *. apply andb_true_iff in H as [Hc H]. split; auto. Qed.
Definition is_lock (c : wallet_call) : bool := match c with call_lockunspent _ _ => true | _ => false end.
Lemma locks_same new old : forallb (fun c => negb (is_lock c)) new = true -> locks (new ++ old) = locks old.
Proof. induction new as [|c new IH]; [done|]. cbn. intros [Hc H]%andb_true_iff. by destruct c; cbn in *; try apply IH. Qed.
End locks.

(** The database knows that a coin carries assets: one of its rows is not the
    DigiByte of the output. *)
Definition known_assets (c : chain) (u : unspenttxout_t) : Prop := exists blob r,
  Blob_of_hex (us_txid u) = Ok blob /\ r ∈ utxos (c_store c) /\ at_outpoint blob (i32 (us_n u)) r = true
  /\ u32 (row_assetIndex r) <> 1.
Lemma known_same c c' u : same_rows c c' -> known_assets c u -> known_assets c' u.
Proof. intros [E _] (b & r & H). exists b, r. by rewrite E. Qed.

Lemma insert_row_permutation r l : Permutation (insert_row r l) (r :: l).
Proof.
  induction l as [|x l IH]; [done|]. cbn [insert_row]. destruct (aout_le _ _); [done|]. rewrite IH. apply Permutation_swap.
Qed.
Lemma sort_aout_permutation l : Permutation (sort_aout l) l.
Proof. induction l as [|x l IH]; [done|]. cbn. by rewrite insert_row_permutation, IH. Qed.

Section funding.
Context {CW : CoreWallet} (core : Sqlite).

(** *** Reading an asset never reports pruned data *)
Definition library_error (e : exn) : bool := match e with class_exception _ _ => false | _ => true end.
Definition no_class {A} (m : M Z A) : Prop := forall s, match (m s).1 with Throw e => library_error e = true | _ => True end.
Lemma no_class_bind {A B} (m : M Z A) (k : A -> M Z B) : no_class m -> (forall x, no_class (k x)) -> no_class (m ≫= k).
Proof. intros Hm Hk s. specialize (Hm s). unfold mbind, M_bind. destruct (m s) as [[x|e| |] s']; cbn in *; [apply Hk|done..]. Qed.
Lemma no_class_ret {A} (x : A) : no_class (mret x). Proof. done. Qed.
Lemma no_class_get : no_class (get (S := Z)). Proof. done. Qed.
Lemma no_class_put i : no_class (put (S := Z) i). Proof. done. Qed.
Lemma no_class_vec {A} (l : list A) i : no_class (vec_at l i).
Proof. intros s. unfold vec_at. repeat case_match; try done; cbn in *; congruence. Qed.
Lemma no_class_throw {A} e : library_error e = true -> no_class (throw e : M Z A).
Proof. by intros H s. Qed.
Lemma no_class_fuel {A} : no_class (out_of_fuel : M Z A). Proof. done. Qed.
Ltac plain := repeat first
  [ apply no_class_ret | apply no_class_get | apply no_class_put | apply no_class_vec | apply no_class_fuel
  | apply no_class_throw; reflexivity | apply no_class_bind; [|intros ?] | case_match ].
Lemma no_class_u8 data : no_class (deserialize_u8 data).
Proof. unfold deserialize_u8, past_end. plain. Qed.
Lemma no_class_u64 data : no_class (deserialize_u64 data).
Proof. unfold deserialize_u64, past_end. plain. Qed.
Lemma no_class_letters fuel data size : no_class (read_letters fuel data size).
Proof. revert size. induction fuel as [|fuel IH]; intros size; cbn [read_letters]; plain. apply IH. Qed.
Lemma no_class_string alloc data : no_class (deserialize_string alloc data).
Proof.
  unfold deserialize_string, past_end. apply no_class_bind; [apply no_class_u64|intros size].
  apply no_class_bind; [done|intros i]. repeat case_match; try done.
  apply no_class_bind; [apply no_class_letters|done].
Qed.
Lemma no_class_elements {T} `{Serializable T} fuel alloc data size :
  no_class (deserialize (T := T) alloc data) -> no_class (read_elements (T := T) fuel alloc data size).
Proof.
  intros Hd. revert size. induction fuel as [|fuel IH]; intros size; cbn [read_elements]; case_match; try done.
  apply no_class_bind; [exact Hd|intros v]. apply no_class_bind; [apply IH|done].
Qed.
Lemma no_class_vector {T} `{Serializable T} alloc data :
  no_class (deserialize (T := T) alloc data) -> no_class (deserialize_vector (T := T) alloc data).
Proof.
  intros Hd. unfold deserialize_vector. apply no_class_bind; [apply no_class_u64|intros size].
  case_match; [by apply no_class_elements|done].
Qed.
Lemma no_class_pair {A B C} (da : M Z A) (db : M Z B) (mk : A -> B -> C) :
  no_class da -> no_class db -> no_class (a ← da; b ← db; mret (mk a b)).
Proof. intros Ha Hb. apply no_class_bind; [done|intros a]. by apply no_class_bind. Qed.
Lemma no_class_optional {A} flag (d : M Z A) set output : no_class d -> no_class (optional flag d set output).
Proof. intros H. unfold optional. plain. exact H. Qed.
Create HintDb plain.
#[local] Hint Resolve no_class_u8 no_class_u64 no_class_string no_class_vector no_class_optional : plain.
Lemma no_class_rate alloc data : no_class (ExchangeRate.deserialize alloc data).
Proof.
  unfold ExchangeRate.deserialize. apply no_class_bind; [apply no_class_string|intros ?].
  repeat (apply no_class_bind; [auto with plain|intros ?]). done.
Qed.
Lemma no_class_rules alloc data output : no_class (deserialize_rules alloc data output).
Proof.
  unfold deserialize_rules. case_match; [done|]. apply no_class_bind; [apply no_class_u8|intros f]. case_match; [done|].
  apply no_class_bind; [apply no_class_u8|intros g].
  repeat (apply no_class_bind; [|intros ?]); apply no_class_optional;
    repeat first [apply no_class_u64|apply no_class_string|apply no_class_vector|apply no_class_rate|apply no_class_pair].
Qed.

(** What reading a coin with assets gives *)
Definition finds_assets (o : outcome AssetUTXO) : Prop :=
  match o with Ok utxo => assets utxo <> [] | Throw e => e <> exceptionDataPruned | _ => True end.
Lemma push_carry_throws base size fuel carry cells e : Base58.push_carry base size fuel carry cells <> Throw e.
Proof. revert carry cells. induction fuel as [|fuel IH]; intros carry cells; cbn; repeat case_match; done || apply IH. Qed.
Lemma decode_chars_throws size data result e : Base58.decode_chars size data result <> Throw e.
Proof.
  revert result. induction data as [|c data IH]; intros result; cbn [Base58.decode_chars]; [done|].
  destruct (Base58.decode_cells _ _) as [r carry]. pose proof (push_carry_throws 256 size 8 carry r) as Hp.
  destruct (Base58.push_carry _ _ _ _ _); cbn; [apply IH|apply Hp|discriminate..].
Qed.
Lemma vec_at_library (l : list Z) i e : fst (vec_at l i tt) = Throw e -> library_error e = true.
Proof. unfold vec_at. repeat case_match; cbn; intros; by simplify_eq/=. Qed.
Lemma id_divisibility_library id e : id_divisibility id = Throw e -> library_error e = true.
Proof.
  unfold id_divisibility, Base58.decode.
  pose proof (decode_chars_throws (Base58.work_size (length (chars id))) (chars id) [0]) as Hd.
  unfold mbind, outcome_bind.
  destruct (Base58.decode_chars _ _ _); try done; [apply vec_at_library|intros [= ->]; by destruct (Hd e)].
Qed.
Lemma DigiAsset_stored_library i id cid issuer rules hc hu n e :
  DigiAsset_stored i id cid issuer rules hc hu n = Throw e -> library_error e = true.
Proof.
  assert (forall k : Z -> DigiAsset, (d ← id_divisibility id; Ok (k d)) = Throw e -> library_error e = true) as Hid.
  { intros k. pose proof (id_divisibility_library id) as Hl. unfold mbind, outcome_bind.
    destruct (id_divisibility id); [done|intros [= ->]; by apply Hl|done..]. }
  unfold DigiAsset_stored. repeat case_match; try (intros [= <-]; done); apply Hid.
Qed.
Lemma getAsset_not_pruned (db : Sqlite) i n e : getAsset i n = Throw e -> e <> exceptionDataPruned.
Proof.
  unfold getAsset. destruct (stmtGetAsset i) as [[[[[[id cid] issuer] rules] hc] hu]|]; [|intros [= <-]; done].
  unfold mbind, outcome_bind. pose proof (no_class_rules allocatable rules default_rules 0) as Hr.
  destruct (deserialize_rules _ _ _ 0) as [[x|e0| |] st]; cbn in *; try done; [|intros [= <-] ->; done].
  intros H%DigiAsset_stored_library ->. done.
Qed.
Lemma read_rows_assets (db : Sqlite) rows x :
  (exists r, r ∈ rows /\ u32 (row_assetIndex r) <> 1) \/ assets x <> [] -> finds_assets (read_rows rows x).
Proof.
  revert x. induction rows as [|r rows IH]; intros x; cbn [read_rows].
  { intros [(r & Hr & _)|H]; [by apply elem_of_nil in Hr|done]. }
  intros Hor. destruct (Z.eqb_spec (u32 (row_assetIndex r)) 1) as [E|E].
  - apply IH. destruct Hor as [(r' & [->|Hr']%elem_of_cons & Hi)|Ha]; [done|left; eauto|right; exact Ha].
  - destruct (getAsset _ _) as [a|e| |] eqn:Ea; try done; [|by apply getAsset_not_pruned in Ea].
    unfold mbind, outcome_bind. apply IH. right. cbn. by destruct (assets x).
Qed.
Lemma known_coin u w : known_assets (w_chain w) u -> finds_assets (coin_on_chain core u w).1.
Proof.
  intros (blob & r & Hb & Hr & Ha & Hi). unfold coin_on_chain, on_chain, on_c_store.
  destruct (getAssetUTXO _ _ _ _) as [o s] eqn:E. cbn. revert E.
  unfold getAssetUTXO. rewrite Hb. unfold mbind at 1, M_bind at 1, lift at 1. unfold mbind at 1, M_bind at 1, get.
  assert (r ∈ stmtGetAssetUTXO blob (i32 (us_n u)) (utxos (c_store (w_chain w)))) as Hin.
  { unfold stmtGetAssetUTXO. rewrite sort_aout_permutation. apply list_elem_of_In, filter_In. by rewrite <- list_elem_of_In. }
  destruct (stmtGetAssetUTXO _ _ _) as [|r0 rows]; [by apply elem_of_nil in Hin|].
  unfold lift. intros [= <- _].
  apply (read_rows_assets (chain_sqlite core (w_chain w)) (r0 :: rows) (mk_AssetUTXO (us_txid u) (u16 (us_n u)) "" 0 [])).
  left. eauto.
Qed.

Definition is_gettxout (c : wallet_call) : bool := match c with call_gettxout _ => true | _ => false end.
Lemma silent_needsLock H u : silent is_gettxout (needsLock core H u).
Proof. unfold needsLock, carries_assets, isHeightIndexed. be_silent. Qed.
Lemma silent_to_lock tx H l : silent is_gettxout (to_lock core tx H l).
Proof.
  induction l as [|u l IH]; cbn [to_lock]; [apply silent_ret|]. case_match; [exact IH|].
  apply silent_bind; [apply silent_needsLock|intros needs]. apply silent_bind; [exact IH|intros [coins unc]]. apply silent_ret.
Qed.

Lemma needsLock_known H u w b w' :
  utxoHeight H (us_confirmations u) = 0 \/ known_assets (w_chain w) u -> needsLock core H u w = (Ok b, w') -> b = true.
Proof.
  intros Hor. unfold needsLock. destruct (Z.eqb_spec (utxoHeight H (us_confirmations u)) 0) as [E|E].
  { by intros [= <- _]. }
  destruct Hor as [|Hk]; [done|]. unfold carries_assets. intros R. apply bind_ok_inv in R as (needs & w1 & R1 & R2).
  assert (needs = true) as ->; [|by injection R2].
  unfold try_catch in R1. destruct ((coin_on_chain core u ≫= _) w) as [[x|e| |] w2] eqn:Ec; try done.
  - injection R1 as -> _. apply bind_ok_inv in Ec as (utxo & w3 & Ec & [= <- _]).
    apply known_coin in Hk. rewrite Ec in Hk. cbn in Hk. by destruct (assets utxo).
  - apply known_coin in Hk. unfold mbind, M_bind in Ec.
    destruct (coin_on_chain core u w) as [[?|?| |] w3] eqn:E3; simplify_eq/=.
    exfalso. unfold is_DataPruned in R1. by rewrite bool_decide_eq_false_2 in R1.
Qed.

Lemma to_lock_known tx H l w coins unc w' u :
  to_lock core tx H l w = (Ok (coins, unc), w') -> u ∈ l -> is_input tx u = false ->
  utxoHeight H (us_confirmations u) = 0 \/ known_assets (w_chain w) u -> point u ∈ coins.
Proof.
  revert w coins unc w'. induction l as [|v l IH]; intros w coins unc w' R Hu Hi Hk; [by apply elem_of_nil in Hu|].
  cbn [to_lock] in R. destruct (is_input tx v) eqn:Ev.
  { apply elem_of_cons in Hu as [->|Hu]; [congruence|]. eapply IH; eauto. }
  apply bind_ok_inv in R as (needs & w1 & R1 & R). apply bind_ok_inv in R as ([coins2 unc2] & w2 & R2 & R3).
  apply elem_of_cons in Hu as [->|Hu].
  - assert (needs = true) as -> by (eapply needsLock_known; eauto). injection R3 as <- _ _. left.
  - assert (point u ∈ coins2) as Hin.
    { eapply IH; [exact R2|exact Hu|exact Hi|]. destruct Hk as [|Hk]; [by left|right]. eapply known_same; [|exact Hk].
      pose proof (silent_needsLock H v w) as [Hs _]. by rewrite R1 in Hs. }
    destruct needs; injection R3 as <- _ _; [by right|done].
Qed.
Lemma to_lock_listed tx H l w coins unc w' c :
  to_lock core tx H l w = (Ok (coins, unc), w') -> c ∈ coins -> c ∈ map point l.
Proof.
  revert w coins unc w'. induction l as [|v l IH]; intros w coins unc w' R Hc; cbn [to_lock] in R.
  { injection R as <- _ _. done. }
  cbn. apply elem_of_cons. destruct (is_input tx v); [right; eapply IH; eauto|].
  apply bind_ok_inv in R as (needs & w1 & R1 & R). apply bind_ok_inv in R as ([coins2 unc2] & w2 & R2 & R3).
  destruct needs; injection R3 as <- _ _; [|right; eapply IH; eauto].
  apply elem_of_cons in Hc as [->|Hc]; [by left|right; eapply IH; eauto].
Qed.

(** *** The calls of one attempt *)
Definition lock_call (unlock : bool) (coins : list outpoint) : list wallet_call :=
  if bool_decide (coins = []) then [] else [call_lockunspent unlock coins].
Definition called (new : list wallet_call) (w : wallet) : wallet := mk_wallet (w_chain w) (new ++ w_calls w).
Definition refusal {A} (r : outcome A) : Prop := match r with Ok _ => False | _ => True end.
Definition answered unlock coins calls : Prop := coins = [] \/ exists b, core_lockunspent calls unlock coins = Ok b.
Lemma lock_coins_run unlock coins w : exists o, lock_coins unlock coins w = (o, called (lock_call unlock coins) w)
  /\ ((o = Ok tt /\ answered unlock coins (w_calls w))
      \/ (refusal o /\ coins <> [] /\ refusal (core_lockunspent (w_calls w) unlock coins))).
Proof.
  unfold lock_coins, lock_call, called, answered. case_bool_decide as E.
  { exists (Ok tt). destruct w. eauto. }
  unfold mbind, M_bind, ask. cbn. destruct (core_lockunspent _ _ _) as [b|e| |];
    eexists; (split; [done|]); [left; eauto|right..]; by split_and!.
Qed.
Lemma locks_locked coins w :
  answered false coins (w_calls w) ->
  locks (w_calls (called (lock_call false coins) w)) = locks (w_calls w) ∪ list_to_set coins.
Proof.
  unfold lock_call, called. case_bool_decide as E; [intros _; subst; cbn; set_solver|].
  intros [?|[b H]]; [done|]. cbn. by rewrite H.
Qed.
Lemma locks_unlocked coins w :
  answered true coins (w_calls w) ->
  locks (w_calls (called (lock_call true coins) w)) = locks (w_calls w) ∖ list_to_set coins.
Proof.
  unfold lock_call, called. case_bool_decide as E; [intros _; subst; cbn; set_solver|].
  intros [?|[b H]]; [done|]. cbn. by rewrite H.
Qed.
(** The funding call itself *)
Lemma ask_funding_run tx rawHex feeSats w : exists o,
  ask_funding tx rawHex feeSats w = (o, called [call_fundrawtransaction rawHex (Z.of_nat (length (_outputs tx)) + 1)] w).
Proof.
  unfold ask_funding, called, mbind, M_bind, ask. cbn. destruct (core_fundrawtransaction _ _ _) as [[hex fee]|e| |]; eauto.
  destruct feeSats; unfold lift; [|eauto]. destruct (dgb_sats fee); eauto.
Qed.

Definition asks_coins (c : wallet_call) : bool :=
  match c with call_getblockcount | call_listunspent _ | call_gettxout _ => true | _ => false end.
(** Where an attempt stops: while it looks at the coins, while it locks them,
    within the funding (no result), or with the coins unlocked again *)
Definition attempt_ends tx rawHex (r : outcome (option (string * Z))) w w' : Prop :=
  (refusal r /\ exists new, w_calls w' = new ++ w_calls w /\ forallb asks_coins new = true)
  \/ exists H unspent coins unc w3, core_getblockcount (w_calls w) = Ok H
       /\ core_listunspent (call_getblockcount :: w_calls w) 0 = Ok unspent
       /\ to_lock core tx (u32 H) unspent (called [call_listunspent 0; call_getblockcount] w) = (Ok (coins, unc), w3)
       /\ let w4 := called (lock_call false coins) w3 in
          let w5 := called [call_fundrawtransaction rawHex (Z.of_nat (length (_outputs tx)) + 1)] w4 in
          let w6 := called (lock_call true coins) w5 in
          (refusal r /\ w' = w4 /\ coins <> [] /\ refusal (core_lockunspent (w_calls w3) false coins))
          \/ answered false coins (w_calls w3)
              /\ ((w' = w5 /\ match r with UB | Fuel => True | _ => False end) \/ w' = w6).

Lemma fundOnce_run tx rawHex attempt fs w r w' :
  fundOnce core tx rawHex attempt fs w = (r, w') -> attempt_ends tx rawHex r w w'.
Proof.
  unfold fundOnce. unfold mbind at 1, M_bind at 1, ask at 1.
  destruct (core_getblockcount (w_calls w)) as [H|e| |] eqn:EH;
    try (intros [= <- <-]; left; split; [done|]; by exists [call_getblockcount]).
  unfold mbind at 1, M_bind at 1, ask at 1. cbn [w_calls w_chain].
  destruct (core_listunspent _ 0) as [unspent|e| |] eqn:EL;
    try (intros [= <- <-]; left; split; [done|]; by exists [call_listunspent 0; call_getblockcount]).
  change (mk_wallet (w_chain w) (call_listunspent 0 :: call_getblockcount :: w_calls w))
    with (called [call_listunspent 0; call_getblockcount] w).
  unfold mbind at 1, M_bind at 1.
  destruct (silent_to_lock tx (u32 H) unspent (called [call_listunspent 0; call_getblockcount] w)) as (_ & new & En & Hn).
  destruct (to_lock _ _ _ _ _) as [[[coins unc]|e| |] w3] eqn:ET; cbn in En.
  2-4: intros [= <- <-]; left; split; [done|]; exists (new ++ [call_listunspent 0; call_getblockcount]);
       rewrite <- app_assoc; split; [done|]; rewrite forallb_app; apply andb_true_iff; split; [|done];
       clear En; induction new as [|[] new IH]; cbn in *; auto; done.
  intros R. right. exists H, unspent, coins, unc, w3. repeat (split; [done|]). cbn zeta. revert R.
  destruct (lock_coins_run false coins w3) as (o & El & [[-> Hok]|(Ho & Hc & Ha)]); unfold mbind at 1, M_bind at 1; rewrite El.
  2: { destruct o; [done|..]; intros [= <- <-]; left; split_and!; try done. }
  set (w4 := called (lock_call false coins) w3). intros R. right. split; [exact Hok|]. revert R.
  destruct (ask_funding_run tx rawHex fs w4) as (o & Ef). unfold mbind at 1, M_bind at 1, try_catch at 1.
  unfold mbind at 1, M_bind at 1. rewrite Ef. set (w5 := called _ w4).
  destruct o as [x|e| |]; [| |intros [= <- <-]; by left..]; intros R; right; revert R;
    destruct (lock_coins_run true coins w5) as (o2 & Eu & _); unfold mret, M_ret, mbind, M_bind; rewrite Eu;
    destruct o2; try (intros [= _ <-]; done).
  destruct (is_DigiByteException e && _); intros [= _ <-]; done.
Qed.

Lemma no_locks_asked new : forallb asks_coins new = true -> forallb (fun c => negb (is_lock c)) new = true.
Proof. rewrite !forallb_forall. intros H c Hc. specialize (H c Hc). by destruct c. Qed.
Lemma to_lock_locks tx H l w :
  locks (w_calls (to_lock core tx H l w).2) = locks (w_calls w).
Proof.
  destruct (silent_to_lock tx H l w) as (_ & new & -> & Hn). apply locks_same.
  rewrite forallb_forall in *. intros c Hc. specialize (Hn c Hc). by destruct c.
Qed.

Definition is_funding (c : wallet_call) : bool := match c with call_fundrawtransaction _ _ => true | _ => false end.
(** C16: When the wallet is asked to fund the transaction, every coin it listed
    that is not an input is locked if it is unconfirmed, or of a height the
    chain does not have, or if the database has a row of an asset on it: the
    fee is never paid with a coin that is known to carry assets. *)
Theorem fee_never_spends_assets tx rawHex attempt feeSats w r w' H unspent :
  fundOnce core tx rawHex attempt feeSats w = (r, w') ->
  core_getblockcount (w_calls w) = Ok H -> core_listunspent (call_getblockcount :: w_calls w) 0 = Ok unspent ->
  exists new, w_calls w' = new ++ w_calls w
    /\ each_call (fun c before => match c with
         | call_fundrawtransaction _ _ => forall u, u ∈ unspent -> is_input tx u = false ->
             utxoHeight (u32 H) (us_confirmations u) = 0 \/ known_assets (w_chain w) u -> point u ∈ locks before
         | _ => True
         end) new (w_calls w).
Proof.
  intros R EH EL. destruct (fundOnce_run _ _ _ _ _ _ _ R) as [(_ & new & En & Hn)|(H' & l & coins & unc & w3 & EH' & EL' & ET & R')].
  { exists new. split; [exact En|]. eapply each_call_no; [exact Hn|]. by intros []. }
  rewrite EH in EH'. injection EH' as <-. rewrite EL in EL'. injection EL' as <-.
  set (P := fun (c : wallet_call) (before : list wallet_call) => _).
  assert (forall new old, forallb (fun c => negb (is_funding c)) new = true -> each_call P new old) as HP.
  { intros new old Hn. eapply each_call_no; [exact Hn|]. by intros []. }
  destruct (silent_to_lock tx (u32 H) unspent (called [call_listunspent 0; call_getblockcount] w)) as (_ & new & En & Hn).
  rewrite ET in En. cbn [snd w_calls called] in En. cbn zeta in R'.
  assert (forallb (fun c => negb (is_funding c)) (new ++ [call_listunspent 0; call_getblockcount]) = true) as Hf.
  { rewrite forallb_app, andb_true_r. rewrite forallb_forall in *. intros c Hc. specialize (Hn c Hc). by destruct c. }
  assert (forall b cs, forallb (fun c => negb (is_funding c)) (lock_call b cs) = true) as Hl.
  { intros b cs. unfold lock_call. by case_bool_decide. }
  assert (w_calls w3 = (new ++ [call_listunspent 0; call_getblockcount]) ++ w_calls w) as E3 by (rewrite <- app_assoc; exact En).
  clear En Hn. set (seen := new ++ [call_listunspent 0; call_getblockcount]) in *. clearbody seen.
  destruct R' as [(_ & -> & _)|(Hok & R')].
  { exists (lock_call false coins ++ seen). cbn. rewrite E3, app_assoc. split; [done|]. apply HP. by rewrite forallb_app, Hl. }
  set (call := call_fundrawtransaction _ _) in *.
  assert (each_call P (call :: lock_call false coins ++ seen) (w_calls w)) as Hfund.
  { cbn [each_call]. split; [|apply HP; by rewrite forallb_app, Hl]. intros u Hu Hi Hk.
    rewrite <- app_assoc, <- E3. change (point u ∈ locks (w_calls (called (lock_call false coins) w3))).
    rewrite locks_locked by done. apply elem_of_union_r, elem_of_list_to_set.
    exact (to_lock_known _ _ _ _ _ _ _ _ ET Hu Hi Hk). }
  destruct R' as [[-> _]| ->].
  - exists (call :: lock_call false coins ++ seen). split; [|exact Hfund]. cbn. by rewrite E3, app_assoc.
  - exists (lock_call true coins ++ call :: lock_call false coins ++ seen). split.
    { cbn [called w_calls]. rewrite E3, <- app_assoc. cbn [app]. by rewrite <- app_assoc. }
    apply each_call_app. split; [apply HP, Hl|exact Hfund].
Qed.
End funding.

(** ** Every lock is taken back *)

(** What Core documents of its locks: it unlocks the coins that are locked, and
    does not list a locked coin. *)
Class LockLaws `{CoreWallet} : Prop := {
  unlock_answers : forall calls coins, list_to_set coins ⊆ locks calls -> exists b, core_lockunspent calls true coins = Ok b;
  listed_free : forall calls l u, core_listunspent calls 0 = Ok l -> u ∈ l -> point u ∉ locks calls
}.

Section released.
Context `{LL : LockLaws} (core : Sqlite).

(** If [m] returns or throws, the same coins are locked as before. *)
Definition locks_kept {A} (m : M wallet A) : Prop := forall w,
  match (m w).1 with UB | Fuel => True | _ => locks (w_calls (m w).2) = locks (w_calls w) end.
Lemma kept_here {A} (m : M wallet A) : (forall w, w_calls (m w).2 = w_calls w) -> locks_kept m.
Proof. intros Hm w. rewrite Hm. by destruct (m w).1. Qed.
Lemma kept_ask {A} call (answer : list wallet_call -> outcome A) : is_lock call = false -> locks_kept (ask call answer).
Proof. intros Hc w. cbn. destruct (answer (w_calls w)); try done; by destruct call. Qed.
Lemma kept_bind {A B} (m : M wallet A) (k : A -> M wallet B) : locks_kept m -> (forall x, locks_kept (k x)) -> locks_kept (m ≫= k).
Proof.
  intros Hm Hk w. specialize (Hm w). unfold mbind, M_bind. destruct (m w) as [[x|e| |] w1]; cbn in *; try done.
  specialize (Hk x w1). destruct (k x w1) as [[y|e| |] w2]; cbn in *; congruence.
Qed.
Lemma kept_catch {A} (m : M wallet A) h : locks_kept m -> (forall e, locks_kept (h e)) -> locks_kept (try_catch m h).
Proof.
  intros Hm Hh w. specialize (Hm w). unfold try_catch. destruct (m w) as [[x|e| |] w1]; cbn in *; try done.
  specialize (Hh e w1). destruct (h e w1) as [[y|e'| |] w2]; cbn in *; congruence.
Qed.
Lemma kept_fundOnce tx rawHex attempt fs : locks_kept (fundOnce core tx rawHex attempt fs).
Proof.
  intros w. destruct (fundOnce core tx rawHex attempt fs w) as [r w'] eqn:R. cbn.
  destruct (fundOnce_run core _ _ _ _ _ _ _ R) as [(_ & new & -> & Hn)|(top & l & coins & unc & w3 & _ & EL & ET & R')].
  { rewrite (locks_same new) by by apply no_locks_asked. by destruct r. }
  assert (locks (w_calls w3) = locks (w_calls w)) as E3.
  { pose proof (to_lock_locks core tx (u32 top) l (called [call_listunspent 0; call_getblockcount] w)) as E. by rewrite ET in E. }
  assert (locks (w_calls w3) ## list_to_set coins) as Hd.
  { intros c Hc Hin%elem_of_list_to_set. rewrite E3 in Hc. apply (to_lock_listed _ _ _ _ _ _ _ _ _ ET) in Hin.
    apply list_elem_of_fmap in Hin as (u & -> & Hu). by apply (listed_free _ _ u EL). }
  cbn zeta in R'. destruct R' as [(Hr & -> & Hc & Ha)|(Hok & [[_ Hr]| ->])].
  - unfold lock_call. rewrite bool_decide_eq_false_2 by done. cbn. rewrite <- E3.
    destruct (core_lockunspent _ _ _); [done|by destruct r..].
  - by destruct r.
  - rewrite locks_unlocked.
    2: { destruct (decide (coins = [])) as [->|Hne]; [by left|right]. apply unlock_answers. cbn.
         pose proof (locks_locked coins w3 Hok) as E. cbn in E. rewrite E. set_solver. }
    pose proof (locks_locked coins w3 Hok) as E. cbn in E |- *. rewrite E.
    assert ((locks (w_calls w3) ∪ list_to_set coins) ∖ list_to_set coins = locks (w_calls w)) as -> by (rewrite <- E3; set_solver).
    by destruct r.
Qed.

Ltac keeps := repeat first
  [ apply kept_fundOnce | apply kept_ask; reflexivity | apply kept_bind; [|intros ?] | apply kept_catch; [|intros ?]
  | apply kept_here; reflexivity | case_match ].
Lemma kept_attempts fuel attempt tx rawHex : locks_kept (attempts core fuel attempt tx rawHex).
Proof.
  revert attempt. induction fuel as [|fuel IH]; intros attempt; cbn [attempts]; [by apply kept_here|].
  apply kept_bind; [apply kept_fundOnce|intros [[hex fee]|]]; [|apply IH].
  apply kept_bind; [|intros [[] signed]; cbn [negb]; [|by apply kept_here]].
  { unfold sign_transaction, throwIfWalletLocked. keeps. }
  apply kept_bind; [unfold check_first_input, vec_at; keeps|intros _].
  apply kept_bind; [unfold broadcast_signed; keeps|intros [txid|]]; [by apply kept_here|apply IH].
Qed.
Lemma kept_verify tx now : locks_kept (verify_rules core tx now).
Proof.
  unfold verify_rules. case_match; [by apply kept_here|]. apply kept_bind.
  { apply kept_here. intros w. by rewrite height_reads. }
  intros height. apply kept_bind; [by apply kept_here|intros w]. keeps.
Qed.

(** C20: Whether a transaction was sent or an exception ended the work, the
    coins of the wallet that are locked are the ones that were locked before:
    no attempt leaves a lock behind, and none is taken from anybody else. *)
Theorem locks_are_returned now tx : locks_kept (fundSignSend core now tx).
Proof.
  unfold fundSignSend, buildRawTransaction. apply kept_bind; [apply kept_verify|intros _].
  apply kept_bind; [|intros rawHex; apply kept_attempts]. apply kept_bind; [by apply kept_here|intros data]. by apply kept_ask.
Qed.
End released.

(** ** A transaction is sent once *)
Section sending.
Context {CW : CoreWallet} (core : Sqlite).

(** Every request to broadcast, with what Core answered (latest first) *)
Fixpoint sends (calls : list wallet_call) : list (string * outcome string) :=
  match calls with
  | [] => []
  | call_sendrawtransaction hex :: before => (hex, core_send before hex) :: sends before
  | _ :: before => sends before
  end.
(** Core answered that it did not take the transaction, because another one
    spends its coins. *)
Definition refused_conflict (answer : outcome string) : bool :=
  match answer with Throw e => is_DigiByteException e && messageContains "onflict" e | _ => false end.
Definition no_send (c : wallet_call) : bool := match c with call_sendrawtransaction _ => false | _ => true end.
Lemma sends_same {A} (m : M wallet A) w : silent no_send m -> sends (w_calls (m w).2) = sends (w_calls w).
Proof.
  intros Hm. destruct (Hm w) as (_ & new & -> & Hn). induction new as [|c new IH]; [done|]. cbn in *.
  apply andb_true_iff in Hn as [Hc Hn]. rewrite <- IH by done. by destruct c.
Qed.

Lemma silent_lock_coins unlock coins : silent no_send (lock_coins unlock coins).
Proof. unfold lock_coins. be_silent. Qed.
Lemma silent_fundOnce tx rawHex attempt fs : silent no_send (fundOnce core tx rawHex attempt fs).
Proof.
  unfold fundOnce, ask_funding. be_silent; try apply silent_lock_coins.
  eapply silent_more; [|apply silent_to_lock]. by intros [].
Qed.
Lemma silent_sign hex : silent no_send (sign_transaction hex).
Proof. unfold sign_transaction, throwIfWalletLocked. be_silent. Qed.
Lemma silent_first tx hex : silent no_send (check_first_input tx hex).
Proof. unfold check_first_input. be_silent. apply silent_here. intros w. unfold vec_at. by repeat case_match. Qed.
Lemma silent_verify tx now : silent no_send (verify_rules core tx now).
Proof. unfold verify_rules. be_silent. by apply silent_here. Qed.
Lemma silent_build tx : silent no_send (buildRawTransaction tx).
Proof. unfold buildRawTransaction. be_silent. Qed.

(** What a run that asked for the broadcasts [new] ends with: either none of
    them was more than a refused one, and it has failed; or the last was, those
    before it were refused, and the run ends with what Core answered to it. *)
Definition settled_sends (r : outcome (string * string)) (new : list (string * outcome string)) : Prop :=
  (is_ok r = false /\ forallb (fun s => refused_conflict s.2) new = true)
  \/ exists hex answer refusals, new = (hex, answer) :: refusals
       /\ forallb (fun s => refused_conflict s.2) refusals = true /\ refused_conflict answer = false
       /\ r = (txid ← answer; Ok (txid, hex)).
Definition sent_once (most : nat) (r : outcome (string * string)) (w w' : wallet) : Prop :=
  exists new, sends (w_calls w') = new ++ sends (w_calls w) /\ (length new <= most)%nat /\ settled_sends r new.
Lemma sent_none most r w w' : is_ok r = false -> sends (w_calls w') = sends (w_calls w) -> sent_once most r w w'.
Proof. intros Hr E. exists []. split_and!; [done|cbn; lia|by left]. Qed.
Lemma sent_after {A} (m : M wallet A) k most w :
  silent no_send m -> (forall x w1, sent_once most (k x w1).1 w1 (k x w1).2) ->
  sent_once most ((m ≫= k) w).1 w ((m ≫= k) w).2.
Proof.
  intros Hm Hk. pose proof (sends_same m w Hm) as E. unfold mbind, M_bind in *.
  destruct (m w) as [[x|e| |] w1]; cbn in E |- *; try by apply sent_none.
  destruct (Hk x w1) as (new & En & H). exists new. by rewrite En, E.
Qed.
(** A refused request before a run that settles *)
Lemma sent_refused most r hex answer w w1 w' :
  sends (w_calls w1) = (hex, answer) :: sends (w_calls w) -> refused_conflict answer = true ->
  sent_once most r w1 w' -> sent_once (S most) r w w'.
Proof.
  intros E Ha (new & En & Hl & Hs). exists (new ++ [(hex, answer)]). rewrite En, E, <- app_assoc. split; [done|].
  rewrite length_app. split; [cbn; lia|]. destruct Hs as [[Hr Hf]|(h & a & l & -> & Hf & Hs)]; [left|right].
  - by rewrite forallb_app, Hf; cbn; rewrite Ha.
  - exists h, a, (l ++ [(hex, answer)]). by rewrite forallb_app, Hf; cbn; rewrite Ha.
Qed.
Lemma sent_weaken n m r w w' : (n <= m)%nat -> sent_once n r w w' -> sent_once m r w w'.
Proof. intros H (new & E & Hl & Hs). exists new. split_and!; [done|lia|done]. Qed.
Lemma sent_attempts fuel attempt tx rawHex w :
  sent_once fuel (attempts core fuel attempt tx rawHex w).1 w (attempts core fuel attempt tx rawHex w).2.
Proof.
  revert attempt w. induction fuel as [|fuel IH]; intros attempt w; cbn [attempts]; [by apply sent_none|].
  apply sent_after; [apply silent_fundOnce|intros [[hex fee]|] w1]; [|by eapply sent_weaken; [|apply IH]; lia].
  apply sent_after; [apply silent_sign|intros [[] signed] w2]; cbn [negb]; [|by apply sent_none].
  apply sent_after; [apply silent_first|intros [] w3].
  unfold broadcast_signed, try_catch, mbind, M_bind, ask, mret, M_ret, throw.
  set (answer := core_send (w_calls w3) signed). set (w4 := mk_wallet (w_chain w3) (call_sendrawtransaction signed :: w_calls w3)).
  assert (forall r, (refused_conflict answer = true /\ is_ok r = false) \/ (refused_conflict answer = false /\ r = (txid ← answer; Ok (txid, signed))) ->
    sent_once (S fuel) r w3 w4) as Hend.
  { intros r Hr. exists [(signed, answer)]. split_and!; [done|cbn; lia|]. destruct Hr as [[Ha Hr]|[Ha Hr]]; [left|right].
    - cbn. by rewrite Ha.
    - by exists signed, answer, []. }
  destruct answer as [txid|e| |] eqn:E; cbn [fst snd]; [apply Hend; by right| |apply Hend; by right..].
  destruct (is_DigiByteException e) eqn:E1, (messageContains "onflict" e) eqn:E2; cbn [andb negb orb];
    try (apply Hend; right; cbn; by rewrite E1, ?E2).
  destruct (4 <=? attempt); cbn [negb fst snd].
  { apply Hend. left. cbn. by rewrite E1, E2. }
  apply (sent_refused _ _ signed answer _ w4); [by cbn; subst answer; rewrite E|subst answer; by rewrite E; cbn; rewrite E1, E2|apply IH].
Qed.

(** C17: A send is never repeated once Core may have taken the transaction. It
    asks Core at most five times to broadcast; every request that is followed
    by another one was refused because of a conflict, so that Core did not take
    it. A send that returns was answered with the txid it returns, for the
    transaction it returns; when the last request fails in any other way -
    Core refuses it, the answer is lost, or the call does not end - the send
    fails in that way and asks nothing more. *)
Theorem sends_once_or_not_at_all now tx w r w' :
  fundSignSend core now tx w = (r, w') ->
  exists new, sends (w_calls w') = new ++ sends (w_calls w) /\ (length new <= 5)%nat /\ settled_sends r new.
Proof.
  intros R. change (sent_once 5 r w w'). replace r with (fundSignSend core now tx w).1 by by rewrite R.
  replace w' with (fundSignSend core now tx w).2 by by rewrite R.
  apply sent_after; [apply silent_verify|intros [] w1]. apply sent_after; [apply silent_build|intros rawHex w2]. apply sent_attempts.
Qed.

(** *** Five attempts *)
Lemma last_attempt_ends tx rawHex fs w w' : fundOnce core tx rawHex 4 fs w <> (Ok None, w').
Proof.
  unfold fundOnce. intros R. apply bind_ok_inv in R as (H & w1 & _ & R). apply bind_ok_inv in R as (l & w2 & _ & R).
  apply bind_ok_inv in R as ([coins unc] & w3 & _ & R). apply bind_ok_inv in R as ([] & w4 & _ & R).
  apply bind_ok_inv in R as (funded & w5 & R1 & R2). destruct funded as [x|].
  { by apply bind_ok_inv in R2 as (? & ? & _ & [=]). }
  unfold try_catch in R1. destruct ((ask_funding _ _ _ ≫= _) w4) as [[x|e| |] w6] eqn:Ef; try done.
  { apply bind_ok_inv in Ef as (? & ? & _ & [= <- _]). done. }
  apply bind_ok_inv in R1 as (? & ? & _ & R1). rewrite orb_true_r, andb_false_r in R1. done.
Qed.
Lemma last_broadcast_ends hex w w' : broadcast_signed hex 4 w <> (Ok None, w').
Proof.
  unfold broadcast_signed, try_catch, mbind, M_bind, ask. destruct (core_send (w_calls w) hex); try done.
  rewrite orb_true_r, andb_false_r. done.
Qed.
Lemma bind_same {A B} (m : M wallet A) (k k' : A -> M wallet B) w :
  (forall x w1, m w = (Ok x, w1) -> k x w1 = k' x w1) -> (m ≫= k) w = (m ≫= k') w.
Proof. intros H. unfold mbind, M_bind. destruct (m w) as [[x|e| |] w1]; [by apply H|done..]. Qed.
Lemma attempts_more fuel n attempt tx rawHex w :
  attempt + Z.of_nat fuel = 4 -> attempts core (S fuel + n) attempt tx rawHex w = attempts core (S fuel) attempt tx rawHex w.
Proof.
  revert attempt w. induction fuel as [|fuel IH]; intros attempt w Ha; cbn [attempts Nat.add];
    apply bind_same; intros [[hex fee]|] w1 Ef.
  2: { exfalso. replace attempt with 4 in Ef by lia. by apply last_attempt_ends in Ef. }
  3: { apply (IH (attempt + 1)). lia. }
  all: apply bind_same; intros [[] signed] w2 _; cbn [negb]; [|done]; apply bind_same; intros [] w3 _;
    apply bind_same; intros [txid|] w4 Es; [done|].
  - exfalso. replace attempt with 4 in Es by lia. by apply last_broadcast_ends in Es.
  - apply (IH (attempt + 1)). lia.
Qed.
(** The loop ends: however many turns it could take, it makes at most five
    attempts and then returns or throws what Core answered. *)
Theorem five_attempts_are_enough n tx rawHex w : attempts core (5 + n) 0 tx rawHex w = attempts core 5 0 tx rawHex w.
Proof. by apply (attempts_more 4). Qed.

(** *** What is sent was signed, and is still the transaction *)
(** The last answer to a request to sign, and to decode *)
Fixpoint last_signed (calls : list wallet_call) : option string :=
  match calls with
  | [] => None
  | call_signrawtransactionwithwallet hex :: before =>
      match core_signwithwallet before hex with Ok (true, signed) => Some signed | _ => None end
  | call_signrawtransaction hex :: before =>
      match core_sign before hex with Ok (true, signed) => Some signed | _ => None end
  | _ :: before => last_signed before
  end.
Definition decoded (hex : string) (calls : list wallet_call) : list vin_t :=
  match calls with
  | call_decoderawtransaction h :: before =>
      if String.eqb h hex then match core_decode before h with Ok l => l | _ => [] end else []
  | _ => []
  end.
Definition checked_send (tx : DigiByteTransaction) (c : wallet_call) (before : list wallet_call) : Prop :=
  match c with
  | call_sendrawtransaction hex => last_signed before = Some hex
      /\ forall input inputs, _inputs tx = input :: inputs ->
           exists first others, decoded hex before = first :: others
             /\ txid first = utxo_txid input /\ out_n first = utxo_vout input
  | _ => True
  end.
(** [m] only makes calls that [P] allows. *)
Definition makes {A} (P : wallet_call -> list wallet_call -> Prop) (m : M wallet A) w : Prop :=
  exists new, w_calls (m w).2 = new ++ w_calls w /\ each_call P new (w_calls w).
Lemma makes_quiet {A} tx (m : M wallet A) w : silent no_send m -> makes (checked_send tx) m w.
Proof.
  intros Hm. destruct (Hm w) as (_ & new & E & Hn). exists new. split; [done|]. eapply each_call_no; [exact Hn|]. by intros [].
Qed.
Lemma makes_bind {A B} P (m : M wallet A) (k : A -> M wallet B) w :
  makes P m w -> (forall x w1, m w = (Ok x, w1) -> makes P (k x) w1) -> makes P (m ≫= k) w.
Proof.
  intros (new & E & Hn) Hk. unfold makes, mbind, M_bind. destruct (m w) as [[x|e| |] w1]; cbn in *; eauto.
  destruct (Hk x w1 eq_refl) as (new' & E' & Hn'). exists (new' ++ new). rewrite E', E, app_assoc. split; [done|].
  apply each_call_app. by rewrite <- E.
Qed.
Lemma signed_last hex w signed w' : sign_transaction hex w = (Ok (true, signed), w') -> last_signed (w_calls w') = Some signed.
Proof.
  unfold sign_transaction, try_catch, ask. destruct (core_signwithwallet (w_calls w) hex) as [[b s]|e| |] eqn:E; try done.
  { intros [= -> -> <-]. cbn. by rewrite E. }
  destruct (is_DigiByteException e); [|done]. cbn [negb]. intros R. apply bind_ok_inv in R as ([] & w1 & R1 & R).
  destruct (core_sign (w_calls w1) hex) as [[b s]|e2| |] eqn:E2; try done.
  { injection R as -> -> <-. cbn. by rewrite E2. }
  destruct (is_DigiByteException e2); [|done]. by apply bind_ok_inv in R as (? & ? & _ & [=]).
Qed.
Lemma first_checked tx hex w w' signed :
  check_first_input tx hex w = (Ok tt, w') -> last_signed (w_calls w) = Some signed -> hex = signed ->
  checked_send tx (call_sendrawtransaction hex) (w_calls w').
Proof.
  intros R Hs ->. unfold check_first_input in R. cbn. destruct (_inputs tx) as [|input inputs].
  { injection R as <-. split; [done|]. by intros ? ? [=]. }
  apply bind_ok_inv in R as (vins & w1 & R1 & R). unfold ask in R1. injection R1 as Ed <-.
  apply bind_ok_inv in R as (first & w2 & R1 & R). unfold vec_at in R1. destruct vins as [|v vins]; [done|].
  injection R1 as <- <-. destruct (String.eqb_spec (txid v) (utxo_txid input)) as [Et|]; [|done].
  destruct (Z.eqb_spec (out_n v) (utxo_vout input)) as [Ev|]; [|done]. injection R as <-. split; [exact Hs|].
  intros ? ? [= <- <-]. exists v, vins. cbn. by rewrite String.eqb_refl, Ed.
Qed.
Lemma attempts_checked fuel attempt tx rawHex w : makes (checked_send tx) (attempts core fuel attempt tx rawHex) w.
Proof.
  revert attempt w. induction fuel as [|fuel IH]; intros attempt w; cbn [attempts].
  { apply makes_quiet. by apply silent_here. }
  apply makes_bind; [apply makes_quiet, silent_fundOnce|intros [[hex fee]|] w1 _]; [|apply IH].
  apply makes_bind; [apply makes_quiet, silent_sign|intros [[] signed] w2 Es]; cbn [negb]; [|by apply makes_quiet, silent_here].
  apply makes_bind; [apply makes_quiet, silent_first|intros [] w3 Ef].
  apply makes_bind; [|intros [txid|] w4 _; [by apply makes_quiet, silent_here|apply IH]].
  exists [call_sendrawtransaction signed]. split.
  { unfold broadcast_signed, try_catch, mbind, M_bind, ask. destruct (core_send _ _) as [?|e| |]; try done.
    by destruct (is_DigiByteException e && _). }
  split; [|done]. cbn [app]. eapply first_checked; [exact Ef|by apply signed_last in Es|done].
Qed.

(** C24: Every transaction that is given to the network is the one that Core
    signed completely just before, and its first input, from which an issued
    asset takes its id, is the one the transaction was built with. *)
Theorem only_signed_is_sent now tx w r w' :
  fundSignSend core now tx w = (r, w') ->
  exists new, w_calls w' = new ++ w_calls w /\ each_call (checked_send tx) new (w_calls w).
Proof.
  intros R. assert (makes (checked_send tx) (fundSignSend core now tx) w) as (new & E & Hn).
  { apply makes_bind; [apply makes_quiet, silent_verify|intros [] w1 _].
    apply makes_bind; [apply makes_quiet, silent_build|intros rawHex w2 _]. apply attempts_checked. }
  rewrite R in E. eauto.
Qed.
End sending.

(** ** A wallet *)
Definition asset_coin : unspenttxout_t := mk_unspent "00ff" 1 "addr" (dbl 1) 10.
Definition demo_core (listed : list wallet_call -> list unspenttxout_t) : CoreWallet := {|
  core_listunspent := fun calls _ => Ok (listed calls);
  core_getblockcount := fun _ => Ok 100;
  core_gettxout_null := fun _ _ => Ok false;
  core_lockunspent := fun _ _ _ => Ok true;
  core_createrawtransaction := fun _ _ _ _ => Ok "raw"%string;
  core_fundrawtransaction := fun _ _ _ => Ok ("funded"%string, dbl 1);
  core_signwithwallet := fun _ _ => Ok (true, "signed"%string);
  core_sign := fun _ _ => Ok (true, "signed"%string);
  core_decode := fun _ _ => Ok [mk_vin "" 0 "" []];
  core_send := fun _ _ => Ok "sent"%string;
  core_paytxfee := fun _ => Ok None;
  core_feerate := fun _ => Ok None;
  core_getrawchangeaddress := fun _ => Ok "change"%string;
  core_getnewaddress := fun _ => Ok "new"%string
|}.
(** One coin, which is listed while it is not locked *)
Definition demo_listed (calls : list wallet_call) : list unspenttxout_t :=
  if decide (point asset_coin ∈ locks (CW := demo_core (fun _ => [])) calls) then [] else [asset_coin].
Definition demo : CoreWallet := demo_core demo_listed.
#[local] Existing Instance demo.
Lemma demo_locks : LockLaws (H := demo).
Proof.
  split; [by intros; exists true|]. intros calls l u. cbn. unfold demo_listed. case_decide as E; intros [= <-] Hu.
  - by apply elem_of_nil in Hu.
  - by apply list_elem_of_singleton in Hu as ->.
Qed.
(** Its transaction is indexed, with 50 units of the asset 7. *)
Definition demo_rows : list utxo_row :=
  [mk_row "addr" [0; 255] 1 (Some 0) 1 600 50 0 None None; mk_row "addr" [0; 255] 1 (Some 1) 7 50 50 0 None None].
Definition demo_tables (flags : gmap string Z) : tables :=
  mk_tables [mk_asset_entry 7 "La3k8W5zw6KcNJqAbZkQGDVKVbsLwRkR3n3xLa" "bafk" "issuer" (serialize_rules [] default_rules) 50 50 0]
    0 [mk_block_row 80 [0] 1 1 (dbl 1)] [] [] [] [] [] [] [] [] [] [] [] [] 0 flags.
Definition demo_wallet (rows : list utxo_row) (flags : gmap string Z) : wallet :=
  mk_wallet (mk_chain (mk_store rows ∅ ∅) (demo_tables flags) 0 ([], demo_tables ∅) ∅ [] [] []) [].

Lemma each_call_impl (P Q : wallet_call -> list wallet_call -> Prop) new old :
  (forall c before, P c before -> Q c before) -> each_call P new old -> each_call Q new old.
Proof. intros H. induction new as [|c new IH]; [done|]. cbn. intros [Hc Hn]. auto. Qed.

Lemma fee_never_spends_assets_witness :
  known_assets (w_chain (demo_wallet demo_rows ∅)) asset_coin /\
  exists new, w_calls (fundOnce sample_db sample_build "raw" 0 false (demo_wallet demo_rows ∅)).2 = new ++ []
    /\ each_call (fun c before => match c with call_fundrawtransaction _ _ => point asset_coin ∈ locks before | _ => True end) new [].
Proof.
  assert (known_assets (w_chain (demo_wallet demo_rows ∅)) asset_coin) as Hk.
  { exists [0; 255], (mk_row "addr" [0; 255] 1 (Some 1) 7 50 50 0 None None). split_and!; [reflexivity| |reflexivity|done].
    cbn. right. by left. }
  split; [exact Hk|].
  destruct (fundOnce sample_db sample_build "raw" 0 false (demo_wallet demo_rows ∅)) as [r w'] eqn:R.
  destruct (fee_never_spends_assets sample_db sample_build "raw" 0 false (demo_wallet demo_rows ∅) r w' 100 [asset_coin] R)
    as (new & E & Hn); [reflexivity|reflexivity|].
  exists new. split; [exact E|]. eapply each_call_impl; [|exact Hn].
  intros c before H. destruct c; try exact I. apply H; [by left|reflexivity|right; exact Hk].
Defined.

Lemma locks_are_returned_witness :
  (fundSignSend sample_db 0 sample_build (demo_wallet demo_rows ∅)).1 = Ok ("sent", "signed")%string
  /\ locks (w_calls (fundSignSend sample_db 0 sample_build (demo_wallet demo_rows ∅)).2) = ∅.
Proof.
  assert ((fundSignSend sample_db 0 sample_build (demo_wallet demo_rows ∅)).1 = Ok ("sent", "signed")%string) as E by (vm_compute; reflexivity).
  split; [exact E|]. pose proof (locks_are_returned (LL := demo_locks) sample_db 0 sample_build (demo_wallet demo_rows ∅)) as H.
  rewrite E in H. exact H.
Defined.

(** Core refuses the first request, and answers the second one with a txid or
    not at all. *)
Definition conflict : exn := DigiByteException (-26) "txn-mempool-conflict".
Definition lost : exn := DigiByteException (-1) "Operation timed out".
Definition demo_answers (second : outcome string) : CoreWallet := {|
  core_listunspent := core_listunspent;
  core_getblockcount := core_getblockcount;
  core_gettxout_null := core_gettxout_null;
  core_lockunspent := core_lockunspent;
  core_createrawtransaction := core_createrawtransaction;
  core_fundrawtransaction := core_fundrawtransaction;
  core_signwithwallet := core_signwithwallet;
  core_sign := core_sign;
  core_decode := core_decode;
  core_send := fun calls _ => if forallb no_send calls then Throw conflict else second;
  core_paytxfee := core_paytxfee;
  core_feerate := core_feerate;
  core_getrawchangeaddress := core_getrawchangeaddress;
  core_getnewaddress := core_getnewaddress
|}.
Definition demo_send (second : outcome string) : outcome (string * string) * wallet :=
  fundSignSend (CW := demo_answers second) sample_db 0 sample_build (demo_wallet demo_rows ∅).

Lemma sends_once_or_not_at_all_witness :
  (demo_send (Ok "sent"%string)).1 = Ok ("sent", "signed")%string
  /\ (exists new, sends (CW := demo_answers (Ok "sent"%string)) (w_calls (demo_send (Ok "sent"%string)).2) = new ++ []
        /\ (length new <= 5)%nat /\ settled_sends (Ok ("sent", "signed")%string) new)
  /\ (demo_send (Throw lost)).1 = Throw lost
  /\ sends (CW := demo_answers (Throw lost)) (w_calls (demo_send (Throw lost)).2)
       = [("signed", Throw lost); ("signed", Throw conflict)]%string
  /\ exists new, sends (CW := demo_answers (Throw lost)) (w_calls (demo_send (Throw lost)).2) = new ++ []
        /\ (length new <= 5)%nat /\ settled_sends (Throw lost) new.
Proof.
  split; [vm_compute; reflexivity|]. split.
  { apply (sends_once_or_not_at_all (CW := demo_answers (Ok "sent"%string)) sample_db 0 sample_build (demo_wallet demo_rows ∅)).
    vm_compute. reflexivity. }
  split; [vm_compute; reflexivity|]. split; [vm_compute; reflexivity|].
  apply (sends_once_or_not_at_all (CW := demo_answers (Throw lost)) sample_db 0 sample_build (demo_wallet demo_rows ∅)).
  vm_compute. reflexivity.
Defined.

Lemma only_signed_is_sent_witness :
  exists new, w_calls (fundSignSend sample_db 0 sample_build (demo_wallet demo_rows ∅)).2 = new ++ []
    /\ each_call (checked_send sample_build) new [].
Proof.
  destruct (fundSignSend sample_db 0 sample_build (demo_wallet demo_rows ∅)) as [r w'] eqn:R.
  exact (only_signed_is_sent sample_db 0 sample_build (demo_wallet demo_rows ∅) r w' R).
Defined.

(** ** Where the fee can still be paid with assets *)

(** A node that does not store plain outputs answers "no assets" for every coin
    it has no row of, so the height of the coin is never compared with the
    newest block: a coin of a block that is not analyzed yet is not locked. *)
Theorem unanalyzed_coin_not_locked `{CW : CoreWallet} (core : Sqlite) H u w blob :
  utxoHeight H (us_confirmations u) <> 0 ->
  Blob_of_hex (us_txid u) = Ok blob -> stmtGetAssetUTXO blob (i32 (us_n u)) (utxos (c_store (w_chain w))) = [] ->
  _utxoCacheActive (c_store (w_chain w)) !! cache_key (us_txid u) (us_n u) = None ->
  _utxoCacheOld (c_store (w_chain w)) !! cache_key (us_txid u) (us_n u) = None ->
  flag_value "wasPrunedNonAssetUTXOHistory" (w_chain w) <> 0 ->
  (needsLock core H u w).1 = core_gettxout_null (w_calls w) (point u).
Proof.
  intros Hh Hb Hr Ha Ho Hf. unfold needsLock. rewrite (proj2 (Z.eqb_neq _ _) Hh). unfold carries_assets, try_catch.
  unfold mbind at 1, M_bind at 1. unfold mbind at 1, M_bind at 1. unfold coin_on_chain, on_chain, on_c_store, getAssetUTXO.
  rewrite Hb. unfold mbind at 1, M_bind at 1, lift at 1. unfold mbind at 1, M_bind at 1, get. rewrite Hr, Ha, Ho.
  unfold chain_sqlite. cbn [beenPrunedNonAssetUTXOHistory]. rewrite (proj2 (Z.eqb_neq _ _) Hf). cbn [negb].
  unfold mret, M_ret. cbn [assets is_empty negb]. by destruct w as [[] ?].
Qed.
Lemma unanalyzed_coin_not_locked_witness :
  (needsLock (CW := demo) sample_db 100 asset_coin (demo_wallet [] {["wasPrunedNonAssetUTXOHistory"%string := 1]})).1 = Ok false.
Proof.
  change (Ok false) with (core_gettxout_null (w_calls (demo_wallet [] {["wasPrunedNonAssetUTXOHistory"%string := 1]})) (point asset_coin)).
  apply (unanalyzed_coin_not_locked sample_db 100 asset_coin (demo_wallet [] {["wasPrunedNonAssetUTXOHistory"%string := 1]}) [0; 255]);
    try reflexivity; discriminate.
Defined.

(** Two requests at once: the second is not told of the coin that the first has
    locked, so it does not lock it; the first unlocks it and the second asks for
    its funding while the coin is free. *)
Definition two_requests : list wallet_call :=
  [call_lockunspent true [point asset_coin]; call_fundrawtransaction "first" 2;      (* the first *)
   call_listunspent 0; call_getblockcount;                                         (* the second *)
   call_lockunspent false [point asset_coin]; call_listunspent 0; call_getblockcount].
Lemma second_request_spends_assets :
  core_listunspent (drop 3 two_requests) 0 = Ok [] /\ point asset_coin ∉ locks two_requests.
Proof. split; [reflexivity|]. unfold two_requests. cbn. set_solver. Qed.
