(* ===== verification/SpendTheorems.v ===== *)
(** SpendTheorems: what a spend of the wallet moves: the coins that are chosen
    cover the amount, a transfer loses no unit of its inputs, and amounts in
    text are read back as they were written. *)

From Stdlib Require Import Floats.SpecFloat.
From stdpp Require Import pretty.
From S2P Require Import Prelude.
From S2P Require Import BitIO.
From S2P Require Import BitStream.
From S2P Require Import BitIOBlocks.
From S2P Require Import BitIOCodec.
From S2P Require Import AssetTypes.
From S2P Require Import DigiAssetRules.
From S2P Require Import CString.
From S2P Require Import Sql.
From S2P Require Import Database.
From S2P Require Import DigiAsset.
From S2P Require Import DigiByteTransaction.
From S2P Require Import Transfer.
From S2P Require Import TransferTheorems.
From S2P Require Import TransactionBuilder.
From S2P Require Import BuilderTheorems.
From S2P Require Import AssetWallet.
From S2P Require Import WalletTheorems.
From S2P Require Import WalletMethods.

Ltac Zify.zify_post_hook ::= Z.div_mod_to_equations.

(** ** The chosen coins *)
Definition enough (k amount : Z) (u : AssetUTXO) : bool := pure_coin u && (amount <=? countOf k u).
Definition coins_ok (coins : list AssetUTXO) : Prop := Forall count_ok (concat (map assets coins)).

Lemma held_out_cons k u coins : held_out k (u :: coins) = held k (assets u) + held_out k coins.
Proof. unfold held_out. cbn. apply held_app. Qed.
Lemma held_out_app k l l' : held_out k (l ++ l') = held_out k l + held_out k l'.
Proof. unfold held_out. by rewrite map_app, concat_app, held_app. Qed.
Lemma held_out_permutation k l l' : Permutation l l' -> held_out k l = held_out k l'.
Proof. induction 1; rewrite ?held_out_cons; lia. Qed.
Lemma coins_ok_nil : coins_ok [].
Proof. constructor. Qed.
Lemma coins_ok_cons u coins : coins_ok (u :: coins) <-> Forall count_ok (assets u) /\ coins_ok coins.
Proof. unfold coins_ok. cbn. apply Forall_app. Qed.
Lemma held_out_nonneg k coins : coins_ok coins -> 0 <= held_out k coins.
Proof. apply held_nonneg. Qed.
Lemma coins_ok_permutation l l' : Permutation l l' -> coins_ok l -> coins_ok l'.
Proof. induction 1; rewrite ?coins_ok_cons in *; tauto. Qed.

Lemma countOf_held k u : Forall count_ok (assets u) -> held k (assets u) < two64 -> countOf k u = held k (assets u).
Proof.
  unfold countOf. assert (forall l acc, 0 <= acc -> Forall count_ok l -> acc + held k l < two64 ->
    foldl (fun t a => if _assetIndex a =? k then u64 (t + getCount a) else t) acc l = acc + held k l) as H.
  { induction l as [|a l IH]; intros acc Ha Hok Hs; cbn [foldl held foldr] in *; [lia|].
    apply Forall_cons in Hok as [Hc Hok]. pose proof (held_nonneg k l Hok). unfold units, getCount, count_ok in *.
    change (foldr (fun a n => (if _assetIndex a =? k then _count a else 0) + n) 0 l) with (held k l) in *.
    case_match; rewrite ?u64_small by lia; rewrite IH by (done || lia); lia. }
  intros Hok Hs. rewrite H by (done || lia). lia.
Qed.

Lemma gather_takes k amount l total sel t :
  gather k amount l total = (sel, t) -> 0 <= total -> coins_ok l -> total + held_out k l < two64 ->
  exists left_over, l = sel ++ left_over /\ t = total + held_out k sel /\ (amount <= t \/ left_over = []).
Proof.
  revert total sel t. induction l as [|u l IH]; intros total sel t; cbn [gather].
  { intros [= <- <-] _ _ _. exists []. cbn. split_and!; [done|unfold held_out; cbn; lia|by right]. }
  rewrite coins_ok_cons, held_out_cons. intros H Ht [Hu Hl] Hs. pose proof (held_out_nonneg k l Hl). pose proof (held_nonneg k _ Hu).
  destruct (Z.leb_spec amount total).
  { injection H as <- <-. exists (u :: l). split_and!; [done|unfold held_out; cbn; lia|by left]. }
  destruct (gather k amount l _) as [rest t'] eqn:E. injection H as <- <-.
  rewrite (countOf_held k u) in E by (done || lia). rewrite u64_small in E by lia.
  apply IH in E as (left_over & -> & -> & Hor); [|lia|done|lia]. exists left_over. rewrite held_out_cons. split_and!; [done|lia|done].
Qed.

(** [r] is the coin of [S] with the fewest units among those that are enough. *)
Definition fewest k amount (S : AssetUTXO -> Prop) (r : option AssetUTXO) : Prop :=
  match r with
  | Some s => enough k amount s = true /\ S s /\ forall u, S u -> enough k amount u = true -> countOf k s <= countOf k u
  | None => forall u, S u -> enough k amount u = false
  end.
Lemma fewest_more k amount (S S' : AssetUTXO -> Prop) r : (forall u, S u <-> S' u) -> fewest k amount S r -> fewest k amount S' r.
Proof. unfold fewest. intros HS. destruct r; setoid_rewrite HS; done. Qed.
Lemma single_coin_fewest k amount l (S : AssetUTXO -> Prop) single :
  fewest k amount S single -> fewest k amount (fun u => S u \/ u ∈ l) (single_coin k amount l single).
Proof.
  revert S single. induction l as [|v l IH]; intros S single Hs; cbn [single_coin].
  { eapply fewest_more; [|exact Hs]. intros u. rewrite elem_of_nil. tauto. }
  assert (forall s, fewest k amount (fun u => S u \/ u = v) s ->
            fewest k amount (fun u => S u \/ u ∈ v :: l) (single_coin k amount l s)) as Hnext.
  { intros s H. eapply fewest_more; [|by apply IH]. intros u. cbn. rewrite elem_of_cons. tauto. }
  assert (enough k amount v = false -> fewest k amount (fun u => S u \/ u = v) single) as Hskip.
  { intros Hv. destruct single as [s|]; cbn in *; [|naive_solver].
    destruct Hs as (? & ? & Hm). split_and!; [done|by left|]. intros u [Hu| ->]; [by apply Hm|congruence]. }
  unfold enough in Hskip. destruct (pure_coin v) eqn:Ev; cbn [negb]; [|by apply Hnext, Hskip].
  destruct (Z.ltb_spec (countOf k v) amount) as [Hlt|Hge]; [apply Hnext, Hskip; lia|].
  assert (enough k amount v = true) as Hv by (unfold enough; rewrite Ev; lia).
  destruct (Z.eqb_spec (countOf k v) amount) as [He|He].
  { split_and!; [done|right; by left|]. intros u _ Hu. unfold enough in Hu. lia. }
  destruct single as [s|]; apply Hnext; cbn in *.
  - destruct Hs as (Hs & Hin & Hm). destruct (Z.ltb_spec (countOf k v) (countOf k s)); cbn; split_and!; auto;
      intros u [Hu| ->] Hue; try lia; specialize (Hm u Hu Hue); lia.
  - split_and!; auto. intros u [Hu| ->] Hue; [|lia]. rewrite (Hs u Hu) in Hue. done.
Qed.

(** C19: The inputs of a spend: when the wallet holds enough of the asset, coins
    of it that hold at least the amount, no coin twice; the one coin with the
    fewest superfluous units if there is a coin with this asset alone that is
    enough. When it does not hold enough, the request is refused. *)
Theorem chosen_coins_cover k amount coins : coins_ok coins -> held_out k coins < two64 ->
  match choose k amount coins with
  | Ok sel => sel ⊆+ coins /\ amount <= held_out k sel
      /\ forall u, u ∈ coins -> enough k amount u = true -> exists s, sel = [s] /\ enough k amount s = true /\ countOf k s <= countOf k u
  | Throw e => e = exceptionNotEnoughFunds /\ held_out k coins < amount
  | UB | Fuel => False
  end.
Proof.
  intros Hok Hs. unfold choose. set (l := CString.sort _ coins).
  assert (Permutation l coins) as Hp by apply sort_permutation.
  pose proof (single_coin_fewest k amount l (fun _ => False) None) as Hb. cbn in Hb. specialize (Hb ltac:(done)).
  assert (forall u, u ∈ coins <-> False \/ u ∈ l) as Hin by (intros u; rewrite Hp; tauto).
  apply (coins_ok_permutation coins l) in Hok; [|done]. rewrite <- (held_out_permutation k _ _ Hp) in *.
  destruct (single_coin k amount l None) as [s|].
  - destruct Hb as (He & [[]|Hl] & Hm). split_and!.
    + apply singleton_submseteq_l. by rewrite <- Hp.
    + unfold enough in He. rewrite held_out_cons. change (held_out k []) with 0. rewrite <- countOf_held; [lia|..].
      * apply Forall_forall. unfold coins_ok in Hok. rewrite Forall_forall in Hok. intros a Ha. apply Hok.
        apply list_elem_of_In, in_concat. exists (assets s). split; [apply in_map|]; by apply list_elem_of_In.
      * destruct (list_elem_of_split _ _ Hl) as (l1 & l2 & E). rewrite E in Hs, Hok. rewrite held_out_app, held_out_cons in Hs.
        unfold coins_ok in Hok. rewrite map_app, concat_app in Hok. cbn in Hok. apply Forall_app in Hok as [H1 [H2 H3]%Forall_app].
        pose proof (held_nonneg k _ H1). pose proof (held_nonneg k _ H3). unfold held_out in *. lia.
    + intros u Hu%Hin Hue. exists s. auto.
  - destruct (gather k amount l 0) as [sel t] eqn:E. apply gather_takes in E as (left_over & El & -> & Hor); [|done..].
    clearbody l. subst l. rewrite held_out_app in *. destruct (Z.ltb_spec (0 + held_out k sel) amount) as [Hlt|Hge].
    + destruct Hor as [?| ->]; [lia|]. split; [done|]. unfold held_out at 2. cbn. lia.
    + split_and!; [rewrite <- Hp; by apply submseteq_inserts_r|lia|].
      intros u Hu%Hin Hue. cbn in Hb. rewrite Hb in Hue; done.
Qed.

(** ** What a transfer moves *)
Lemma held_cons' k a l : held k (a :: l) = units k a + held k l.
Proof. done. Qed.
Lemma merge_held a l l' : merge_asset a l = Ok l' -> count_ok a -> Forall count_ok l ->
  units (_assetIndex a) a + held (_assetIndex a) l < two64 ->
  (forall k, held k l' = held k l + units k a) /\ Forall count_ok l'.
Proof.
  intros H Ha. revert l' H. induction l as [|o l IH]; intros l' H Hl Hs; cbn [merge_asset] in H.
  { injection H as <-. split; [intros k; cbn; lia|by constructor]. }
  apply Forall_cons in Hl as [Ho Hl]. unfold getAssetIndex in H.
  destruct (_assetIndex o =? 0) eqn:Eo; [done|]. cbn [mbind outcome_bind] in H.
  destruct (_assetIndex a =? 0) eqn:Ea; [done|]. cbn [mbind outcome_bind] in H.
  rewrite held_cons' in Hs. pose proof (held_nonneg (_assetIndex a) l Hl).
  destruct (Z.eqb_spec (_assetIndex o) (_assetIndex a)) as [E|E].
  - injection H as <-. unfold units in Hs. rewrite E, Z.eqb_refl in Hs. unfold count_ok, getCount in *. split.
    + intros k. rewrite !held_cons'. unfold units, addCount. cbn. rewrite E. rewrite u64_small by lia. case_match; lia.
    + constructor; [|done]. unfold count_ok. cbn. apply u64_range.
  - destruct (merge_asset a l) as [m| | |] eqn:Em; try done. injection H as <-.
    assert (0 <= units (_assetIndex a) o) by (unfold units; unfold count_ok in Ho; case_match; lia).
    destruct (IH m eq_refl Hl ltac:(lia)) as [Hh Hm]. split; [|by constructor]. intros k. rewrite !held_cons', Hh. lia.
Qed.
Lemma split_held i l acc others total others' :
  split_assets i l acc others = Ok (total, others') -> 0 <= acc -> Forall count_ok l -> Forall count_ok others ->
  acc + held i l < two64 -> (forall k, held k others + held k l < two64) ->
  total = acc + held i l /\ Forall count_ok others' /\ forall k, held k others' = held k others + (if k =? i then 0 else held k l).
Proof.
  revert acc others. induction l as [|a l IH]; intros acc others H Hacc Hl Ho Hs Hk; cbn [split_assets] in H.
  { injection H as <- <-. cbn. split_and!; [lia|done|]. intros k. case_match; lia. }
  apply Forall_cons in Hl as [Ha Hl]. unfold getAssetIndex in H.
  destruct (_assetIndex a =? 0) eqn:Ea; [done|]. cbn [mbind outcome_bind] in H. rewrite held_cons' in Hs.
  pose proof (held_nonneg i l Hl). unfold units in Hs.
  destruct (Z.eqb_spec (_assetIndex a) i) as [E|E].
  - unfold count_ok, getCount in *. rewrite u64_small in H by lia. apply IH in H as (-> & Hok & Hh); try done; try lia.
    2: { intros k. specialize (Hk k). rewrite held_cons' in Hk. unfold units in Hk. case_match; lia. }
    rewrite held_cons'. unfold units. rewrite (proj2 (Z.eqb_eq _ _) E). split_and!; [lia|done|].
    intros k. rewrite Hh, held_cons'. unfold units. rewrite E. destruct (Z.eqb_spec k i), (Z.eqb_spec i k); lia.
  - destruct (merge_asset a others) as [m| | |] eqn:Em; try done.
    assert (units (_assetIndex a) a + held (_assetIndex a) others < two64) as Hsm.
    { specialize (Hk (_assetIndex a)). rewrite held_cons' in Hk. pose proof (held_nonneg (_assetIndex a) l Hl). lia. }
    destruct (merge_held _ _ _ Em Ha Ho Hsm) as [Hh Hm]. apply IH in H as (-> & Hok & Hh'); try done; try lia.
    2: { intros k. rewrite Hh. specialize (Hk k). rewrite held_cons' in Hk. lia. }
    rewrite held_cons'. unfold units. rewrite (proj2 (Z.eqb_neq _ _) E). split_and!; [lia|done|].
    intros k. rewrite Hh', Hh, held_cons'. unfold units.
    destruct (Z.eqb_spec k i), (Z.eqb_spec (_assetIndex a) k); lia.
Qed.

Lemma exec_inv {S A} (m : M S A) s s' : exec m s = Ok s' -> exists x, m s = (Ok x, s').
Proof. unfold exec. destruct (m s) as [[x|e| |] s1]; intros; simplify_eq. by exists x. Qed.
Lemma writable_inv (t t' : DigiByteTransaction) : checkWritable t = (Ok tt, t') -> t' = t.
Proof.
  unfold checkWritable. intros R. apply bind_ok_inv in R as (? & ? & R1 & R). injection R1 as <- <-.
  destruct (isWritable t); [|done]. by injection R as <-.
Qed.
Lemma addInput_inv u t t' : addInput u t = (Ok tt, t') ->
  _inputs t' = _inputs t ++ [u] /\ _outputs t' = _outputs t /\ _burns t' = _burns t
  /\ (_txType t <> DIGIASSET_ISSUANCE -> _txType t' <> DIGIASSET_ISSUANCE).
Proof.
  unfold addInput. intros R. apply bind_ok_inv in R as ([] & ? & ->%writable_inv & R).
  apply bind_ok_inv in R as (? & ? & R1 & R). injection R1 as <- <-. destruct (_ && _); [done|].
  destruct (is_empty (assets u)); cbn in R; [injection R as <-; done|].
  unfold mbind, M_bind, modify in R. cbn in R. by destruct (_txType t =? STANDARD); injection R as <-.
Qed.
Lemma addInputs_inv l t t' : add_inputs l t = (Ok tt, t') ->
  _inputs t' = _inputs t ++ l /\ _outputs t' = _outputs t /\ _burns t' = _burns t
  /\ (_txType t <> DIGIASSET_ISSUANCE -> _txType t' <> DIGIASSET_ISSUANCE).
Proof.
  unfold add_inputs. revert t. induction l as [|u l IH]; intros t R; cbn in R.
  { injection R as <-. by rewrite app_nil_r. }
  apply bind_ok_inv in R as ([] & t1 & (E1 & E2 & E3 & E4)%addInput_inv & R). apply IH in R as (-> & -> & -> & E).
  rewrite E1, <- app_assoc. split_and!; auto.
Qed.
Lemma addDigiAssetOutput_inv address l t t' : addDigiAssetOutput address l t = (Ok tt, t') ->
  _inputs t' = _inputs t /\ _burns t' = _burns t /\ _txType t' = _txType t
  /\ exists out, _outputs t' = _outputs t ++ [out] /\ utxo_address out = address /\ assets out = l.
Proof.
  unfold addDigiAssetOutput. intros R. apply bind_ok_inv in R as ([] & ? & ->%writable_inv & R).
  apply bind_ok_inv in R as (? & ? & R1 & R). injection R1 as <- <-. repeat (case_match; [done|]).
  injection R as <-. cbn. split_and!; eauto.
Qed.
Lemma build_inv first inputs now w t w' : build (add_inputs inputs;; first) now w = (Ok t, w') ->
  exists t1, first t1 = (Ok tt, t) /\ _inputs t1 = inputs /\ _outputs t1 = [] /\ _burns t1 = []
    /\ _txType t1 <> DIGIASSET_ISSUANCE.
Proof.
  unfold build, lift. intros [= R _]. apply exec_inv in R as ([] & R). apply bind_ok_inv in R as ([] & t1 & R1 & R).
  apply addInputs_inv in R1 as (E1 & E2 & E3 & E4). exists t1. split_and!; [done..|by apply E4].
Qed.

(** The change carries what is left of every asset. *)
Lemma change_assets_held asset changeAmount others k :
  0 <= changeAmount -> held k (change_assets asset changeAmount others) = held k others + (if _assetIndex asset =? k then changeAmount else 0).
Proof.
  intros Hc. unfold change_assets. destruct (Z.ltb_spec 0 changeAmount) as [H|H].
  - rewrite held_cons'. unfold units. cbn. case_match; lia.
  - case_match; lia.
Qed.

Section spend.
Context {CW : CoreWallet}.

(** A transaction of the wallet that sends [amount] to the recipient *)
Record transfer_of (recipient : string) (amount : Z) (asset : DigiAsset) (inputs : list AssetUTXO) (tx : DigiByteTransaction) : Prop := {
  spends : _inputs tx = inputs;
  burns_nothing : _burns tx = [];
  not_issuance : _txType tx <> DIGIASSET_ISSUANCE;
  keeps_units : forall k, held_out k (_outputs tx) = held_out k inputs;
  fits_counts : coins_ok (_outputs tx);
  gives : exists out change, _outputs tx = out :: change /\ utxo_address out = recipient /\ assets out = [setCount amount asset]
            /\ (length change <= 1)%nat
}.
(** What the wallet holds in these coins, and wants of them *)
Record spendable (amount : Z) (asset : DigiAsset) (inputs : list AssetUTXO) : Prop := {
  coins_fit : coins_ok inputs;
  sums_fit : forall k, held_out k inputs < two64;
  covers : 0 <= amount <= held_out (_assetIndex asset) inputs
}.
Lemma with_change_transfer recipient amount inputs asset changeAddress total others now w tx w' :
  spendable amount asset inputs ->
  split_assets (_assetIndex asset) (concat (map assets inputs)) 0 [] = Ok (total, others) ->
  with_change (addDigiAssetOutput recipient [setCount amount asset]) inputs asset changeAddress (u64 (total - amount)) others now w
    = (Ok tx, w') ->
  transfer_of recipient amount asset inputs tx.
Proof.
  intros [Hok Hs Ha] Hsp R. assert (forall k, held k (concat (map assets inputs)) = held_out k inputs) as Hh by done.
  apply split_held in Hsp as (-> & Ho & Hr); [|done|exact Hok|done|rewrite Hh; apply Hs|intros k; rewrite Hh; apply Hs].
  unfold with_change in R. apply bind_ok_inv in R as (t & w1 & R1 & R).
  apply build_inv in R1 as (t1 & R1 & Hi & Hout & Hb & Hty).
  apply addDigiAssetOutput_inv in R1 as (Ei & Eb & Ety & out & Eo & Haddr & Hout1).
  rewrite Hout in Eo. cbn in Eo. rewrite Hh in R. pose proof (Hs (_assetIndex asset)). rewrite u64_small in R by lia.
  set (left_over := 0 + held_out (_assetIndex asset) inputs - amount) in *.
  assert (forall k, held k others = if k =? _assetIndex asset then 0 else held_out k inputs) as Hr'.
  { intros k. rewrite Hr, Hh. change (held k []) with 0. by destruct (k =? _). }
  assert (forall k, held_out k [out] + (held k others + (if _assetIndex asset =? k then left_over else 0)) = held_out k inputs) as Hall.
  { intros k. rewrite held_out_cons, Hout1, Hr', held_cons'. change (held k []) with 0. change (held_out k []) with 0.
    unfold units. change (_assetIndex (setCount amount asset)) with (_assetIndex asset).
    change (_count (setCount amount asset)) with amount. rewrite (Z.eqb_sym k).
    destruct (Z.eqb_spec (_assetIndex asset) k) as [<-|]; lia. }
  assert (coins_ok [out]) as Hoo.
  { apply coins_ok_cons. rewrite Hout1. split; [|apply coins_ok_nil]. repeat constructor; cbn; lia. }
  destruct ((0 <? left_over) || negb (is_empty others)) eqn:Ec.
  - apply bind_ok_inv in R as (address & w2 & R1 & R). unfold lift in R. injection R as R <-.
    apply exec_inv in R as ([] & R). apply addDigiAssetOutput_inv in R as (Ei' & Eb' & Ety' & out' & Eo' & _ & Ha').
    constructor; [congruence..| | |].
    + intros k. rewrite Eo', Eo. cbn [app]. rewrite <- Hall, !held_out_cons, Ha', change_assets_held by lia.
      change (held_out k []) with 0. lia.
    + rewrite Eo', Eo. apply coins_ok_cons. split; [by apply coins_ok_cons in Hoo as [? _]|]. apply coins_ok_cons.
      rewrite Ha'. split; [|apply coins_ok_nil]. unfold change_assets. case_match; [|done]. constructor; [|done]. unfold count_ok; cbn; lia.
    + exists out, [out']. rewrite Eo', Eo. by split_and!.
  - injection R as <- <-. apply orb_false_iff in Ec as [Ec1 Ec2]. constructor; [congruence..| | |].
    + intros k. rewrite Eo, <- Hall. destruct others; [|done]. change (held k []) with 0. case_match; lia.
    + by rewrite Eo.
    + exists out, []. rewrite Eo. split_and!; [done..|cbn; lia].
Qed.

(** A transfer of the wallet loses no unit: of every asset its inputs carry,
    its outputs carry as many units. The first output is the recipient's, with
    the amount and nothing else, and at most one other takes the change;
    nothing is burned. *)
Theorem transfer_keeps_every_unit recipient amount inputs asset changeAddress total others now w tx w' :
  spendable amount asset inputs ->
  split_assets (_assetIndex asset) (concat (map assets inputs)) 0 [] = Ok (total, others) ->
  with_change (addDigiAssetOutput recipient [setCount amount asset]) inputs asset changeAddress (u64 (total - amount)) others now w
    = (Ok tx, w') ->
  _inputs tx = inputs /\ _burns tx = [] /\ (forall k, held_out k (_outputs tx) = held_out k inputs)
  /\ exists out change, _outputs tx = out :: change /\ utxo_address out = recipient /\ assets out = [setCount amount asset]
       /\ (length change <= 1)%nat.
Proof. intros Hs Hsp R. by destruct (with_change_transfer _ _ _ _ _ _ _ _ _ _ _ Hs Hsp R). Qed.

Lemma held_input_assets k inputs : held_in k (input_assets inputs) = held_out k inputs.
Proof.
  unfold held_in, held_out, input_assets. induction inputs as [|u inputs IH]; [done|]. cbn [map concat].
  rewrite filter_cons. destruct (decide (assets u <> [])) as [H|H]; cbn [concat]; rewrite held_app; [by rewrite held_app, IH|].
  rewrite IH. destruct (assets u); [done|]. by destruct H.
Qed.
Lemma concat_input_assets inputs : concat (input_assets inputs) = concat (map assets inputs).
Proof.
  unfold input_assets. induction inputs as [|u inputs IH]; [done|]. cbn [map concat]. rewrite filter_cons.
  destruct (decide (assets u <> [])) as [H|H]; cbn [concat]; rewrite IH; [done|]. destruct (assets u); [done|]. by destruct H.
Qed.

(** C18: What is sent arrives: the instructions that are built for a transfer of
    the wallet make every indexer that reads them with the same inputs give
    the recipient's output exactly the amount, and no unit of any asset of the
    inputs is lost: the two outputs carry them all. *)
Theorem sent_assets_arrive recipient amount inputs asset changeAddress total others now w tx w' data data' :
  spendable amount asset inputs -> Forall (fun c => 0 < _count c) (concat (map assets inputs)) ->
  split_assets (_assetIndex asset) (concat (map assets inputs)) 0 [] = Ok (total, others) ->
  with_change (addDigiAssetOutput recipient [setCount amount asset]) inputs asset changeAddress (u64 (total - amount)) others now w
    = (Ok tx, w') ->
  wf data -> buildTransferInstructions tx data = (Ok tt, data') ->
  exists code, appended data code data' /\
  forall (b : BitIO) (foot : list bool) (t1 : DigiByteTransaction),
    wf b -> fits b -> rest b = code ++ foot -> Z.of_nat (length foot) = footer_bits (_txType tx) ->
    (forall s, legacy_break t1 (_txType tx) s = (Ok false, s)) ->
    concat (map assets (_outputs t1)) = [] -> (length (_outputs tx) <= length (_outputs t1))%nat ->
    exists t2, route_assets b inputs (_txType tx) t1 = (Ok tt, t2)
      /\ (forall k, held_at k 0 (_outputs t2) = if _assetIndex asset =? k then amount else 0)
      /\ forall k, held_at k 0 (_outputs t2) + held_at k 1 (_outputs t2) = held_out k inputs.
Proof.
  intros Hs Hpos Hsp R Hw Hb. destruct (with_change_transfer _ _ _ _ _ _ _ _ _ _ _ Hs Hsp R) as [Hi Hbu Hty Hk Ho Hg].
  destruct Hs as [Hok Hsum Ha]. assert (source_inputs tx = input_assets inputs) as Esrc.
  { unfold source_inputs. by rewrite (proj2 (Z.eqb_neq _ _) Hty), Hi. }
  destruct (builder_code tx data data') as (code & Hcode & Hread); [|done|done|].
  { constructor; rewrite ?Esrc, ?Hbu; [by rewrite concat_input_assets|intros k; by rewrite held_input_assets| |exact Ho|done|by left].
    unfold inputs_ok. by rewrite concat_input_assets. }
  exists code. split; [done|]. intros b foot t1 Hwb Hf Hr Hfoot Hl H1 Hlen.
  destruct (Hread b foot inputs t1) as (t2 & E & Hheld); try done. exists t2. split; [done|].
  destruct Hg as (out & change & Eo & _ & Hout & Hch). setoid_rewrite Hheld. split.
  - intros k. unfold held_at. rewrite Eo. cbn [lookup list_lookup]. rewrite Hout. cbn. unfold units. cbn. case_match; lia.
  - intros k. rewrite <- Hk, Eo, held_out_cons. unfold held_at.
    destruct change as [|u [|]]; [|rewrite held_out_cons|cbn in Hch; lia]; cbn -[held held_out Z.add]; change (held_out k []) with 0; lia.
Qed.
End spend.

(** *** A transfer of 4 of 10 units, with another asset in the inputs *)
#[local] Existing Instance demo.
Definition demo_inputs : list AssetUTXO := [mk_AssetUTXO "00aa" 0 "me" 600 [sample_asset 5 10; sample_asset 6 3]].
Lemma demo_spendable : spendable 4 (sample_asset 5 0) demo_inputs.
Proof.
  split.
  - by repeat constructor.
  - intros k. unfold held_out, demo_inputs, units. cbn -[two64]. unfold units. cbn -[two64]. unfold two64. repeat case_match; lia.
  - cbn. lia.
Qed.

Lemma chosen_coins_cover_witness :
  choose 5 3 [sample_utxo "a" [sample_asset 5 10]; sample_utxo "b" [sample_asset 5 4]] = Ok [sample_utxo "b" [sample_asset 5 4]]
  /\ 3 <= held_out 5 [sample_utxo "b" [sample_asset 5 4]].
Proof.
  assert (choose 5 3 [sample_utxo "a" [sample_asset 5 10]; sample_utxo "b" [sample_asset 5 4]] = Ok [sample_utxo "b" [sample_asset 5 4]])
    as E by (vm_compute; reflexivity).
  split; [exact E|]. pose proof (chosen_coins_cover 5 3 [sample_utxo "a" [sample_asset 5 10]; sample_utxo "b" [sample_asset 5 4]]) as H.
  rewrite E in H. apply H; [by repeat constructor|reflexivity].
Defined.
Lemma transfer_keeps_every_unit_witness :
  exists tx w, with_change (addDigiAssetOutput "you" [setCount 4 (sample_asset 5 0)]) demo_inputs (sample_asset 5 0) "me" (u64 (10 - 4))
      [sample_asset 6 3] 0 (demo_wallet [] ∅) = (Ok tx, w)
    /\ held_out 6 (_outputs tx) = 3.
Proof.
  destruct (with_change _ _ _ _ (u64 (10 - 4)) _ _ _) as [[tx|e| |] w] eqn:R; try (vm_compute in R; discriminate).
  exists tx, w. split; [done|].
  destruct (transfer_keeps_every_unit "you" 4 demo_inputs (sample_asset 5 0) "me" 10 [sample_asset 6 3] 0 (demo_wallet [] ∅) tx w
    demo_spendable eq_refl R) as (_ & _ & Hk & _). rewrite Hk. reflexivity.
Defined.

(** What the indexer makes of it *)
Definition demo_run : outcome DigiByteTransaction * wallet :=
  with_change (addDigiAssetOutput "you" [setCount 4 (sample_asset 5 0)]) demo_inputs (sample_asset 5 0) "me" (u64 (10 - 4))
    [sample_asset 6 3] 0 (demo_wallet [] ∅).
Definition demo_tx : DigiByteTransaction := match demo_run.1 with Ok tx => tx | _ => DigiByteTransaction_default 0 end.
Definition demo_data : BitIO := snd (buildTransferInstructions demo_tx empty_BitIO).
Lemma sent_assets_arrive_witness :
  exists t2, route_assets demo_data demo_inputs DIGIASSET_TRANSFER (sample_tx demo_inputs 3) = (Ok tt, t2)
    /\ held_at 5 0 (_outputs t2) = 4 /\ held_at 5 0 (_outputs t2) + held_at 5 1 (_outputs t2) = 10.
Proof.
  edestruct (sent_assets_arrive "you" 4 demo_inputs (sample_asset 5 0) "me" 10 [sample_asset 6 3] 0 (demo_wallet [] ∅) demo_tx
               demo_run.2 empty_BitIO demo_data demo_spendable) as (code & Ha & H).
  - by repeat constructor.
  - reflexivity.
  - vm_compute. reflexivity.
  - apply wf_empty.
  - vm_compute. reflexivity.
  - destruct Ha as (Hw & Hp & Habs & Hlen).
    edestruct (H demo_data [] (sample_tx demo_inputs 3)) as (t2 & E & K & T);
      [exact Hw|reflexivity| |reflexivity|reflexivity|reflexivity|apply (Nat.leb_le 2 3); reflexivity|].
    + unfold rest. rewrite Hp, Habs, app_nil_r. reflexivity.
    + exists t2. split_and!; [exact E|by rewrite K|by rewrite T].
Defined.
