(* ===== verification/RpcCache.v ===== *)
(** RpcCache: JSON values, the answer of an RPC method with the rules that say how
    long it may be kept (src/src/RPC/Response.cpp), and the cache of answers
    (src/src/RPC/Cache.cpp).

    The sizes of C++ objects, which the code takes with [sizeof], and the text
    that jsoncpp prints are members of a class.  Every operation of the cache
    holds its mutex, so it is one step.  The order in which an
    [unordered_map] is walked is not specified: [rank] gives it, for each
    call, and decides among answers of the same age. *)

From stdpp Require Import gmap strings.
From S2P Require Import Prelude.
From S2P Require Import BitIOCodec.
From S2P Require Import CString.
From S2P Require Import SHA256.

(** ** JSON *)
Inductive json :=
  | JNull
  | JBool (b : bool)
  | JInt (z : Z)
  | JReal (d : SpecFloat.spec_float)
  | JString (s : string)
  | JArray (l : list json)
  | JObject (l : list (string * json)).

Class JsonLib := {
  sizeof_Value : Z;
  sizeof_Response : Z;
  sizeof_time_point : Z;
  toStyledString : json -> string;
  writeString : json -> string;
  parseFromStream : string -> json + string;      (** the value, or the error *)
  real_text : SpecFloat.spec_float -> string;
  not_an_object : string;                         (** what the library throws *)
  not_convertible : string;
  sizeof_small : 0 < sizeof_Value < 65536 /\ 0 < sizeof_Response < 65536 /\ 0 < sizeof_time_point < 65536
}.

(** The members of an object, in the order of their names *)
Fixpoint set_member (key : string) (v : json) (l : list (string * json)) : list (string * json) :=
  match l with
  | [] => [(key, v)]
  | (k, w) :: l' =>
      if String.eqb key k then (key, v) :: l'
      else if String.ltb key k then (key, v) :: l
      else (k, w) :: set_member key v l'
  end.
Fixpoint get_member (key : string) (l : list (string * json)) : option json :=
  match l with
  | [] => None
  | (k, v) :: l => if String.eqb key k then Some v else get_member key l
  end.
Definition object (l : list (string * json)) : json := JObject (foldl (fun o kv => set_member kv.1 kv.2 o) [] l).

(** *** Reading a value *)
Section reading.
Context `{JsonLib}.

Definition json_error (what : string) : exn := class_exception "Json::LogicError" what.
Definition isMember (name : string) (v : json) : outcome bool :=
  match v with
  | JObject l => Ok (bool_decide (is_Some (get_member name l)))
  | JNull => Ok false
  | _ => Throw (json_error not_an_object)
  end.
Definition member (name : string) (v : json) : outcome json :=
  match v with
  | JObject l => Ok (default JNull (get_member name l))
  | JNull => Ok JNull
  | _ => Throw (json_error not_an_object)
  end.
Definition asString (v : json) : outcome string :=
  match v with
  | JNull => Ok ""%string
  | JBool b => Ok (if b then "true" else "false")%string
  | JInt z => Ok (int_string z)
  | JReal d => Ok (real_text d)
  | JString s => Ok s
  | _ => Throw (json_error not_convertible)
  end.
Definition isArray (v : json) : bool := match v with JArray _ => true | _ => false end.

(** [&&] and the conditional expression read a member only when it exists. *)
Definition member_or_null (name : string) (v : json) : outcome json :=
  has ← isMember name v;
  if has : bool then member name v else Ok JNull.
End reading.

(** ** An answer *)
Record Response := mk_Response {
  _result : json;
  _error : bool;
  _size : Z;
  _invalidateOnAddressChange : list string;
  _blocksGoodFor : Z;
  _invalidateOnNewAsset : bool
}.

Section response.
Context `{JsonLib}.

Fixpoint estimateJsonMemoryUsage (value : json) : Z :=
  match value with
  | JString s => u64 (sizeof_Value + Z.of_nat (length (chars s)))
  | JArray l => foldl (fun size v => u64 (size + estimateJsonMemoryUsage v)) sizeof_Value l
  | JObject l => foldl (fun size kv => u64 (size + estimateJsonMemoryUsage kv.2)) sizeof_Value l
  | _ => sizeof_Value
  end.

Definition new_Response : Response := mk_Response JNull false sizeof_Response [] 0 false.
Definition setResult (result : json) (r : Response) : Response :=
  mk_Response result false (u64 (_size r + estimateJsonMemoryUsage result)) (_invalidateOnAddressChange r)
    (_blocksGoodFor r) (_invalidateOnNewAsset r).
Definition setError (error : json) (r : Response) : Response :=
  mk_Response error true (u64 (_size r + estimateJsonMemoryUsage error)) (_invalidateOnAddressChange r)
    (_blocksGoodFor r) (_invalidateOnNewAsset r).
Definition addInvalidateOnAddressChange (address : string) (r : Response) : Response :=
  if bool_decide (address ∈ _invalidateOnAddressChange r) then r
  else mk_Response (_result r) (_error r) (u64 (_size r + Z.of_nat (length (chars address))))
         (_invalidateOnAddressChange r ++ [address]) (_blocksGoodFor r) (_invalidateOnNewAsset r).
Definition setBlocksGoodFor (blocks : Z) (r : Response) : Response :=
  mk_Response (_result r) (_error r) (_size r) (_invalidateOnAddressChange r) blocks (_invalidateOnNewAsset r).
Definition setInvalidateOnNewAsset (r : Response) : Response :=
  mk_Response (_result r) (_error r) (_size r) (_invalidateOnAddressChange r) (_blocksGoodFor r) true.

Definition empty_response (r : Response) : bool := _size r =? sizeof_Response.
Definition isCacheable (r : Response) : bool := 0 <=? _blocksGoodFor r.
(** The next three give the size when the answer must be dropped, and 0 otherwise. *)
Definition response_addressChanged (address : string) (r : Response) : Z :=
  if bool_decide (address ∈ _invalidateOnAddressChange r) then _size r else 0.
Definition response_newBlockAdded (r : Response) : Z * Response :=
  let r := setBlocksGoodFor (_blocksGoodFor r - 1) r in
  (if _blocksGoodFor r <? 0 then _size r else 0, r).
Definition response_newAssetIssued (r : Response) : Z := if _invalidateOnNewAsset r then _size r else 0.

Definition toJSON (id : json) (r : Response) : json :=
  object (if _error r then [("result", JNull); ("error", _result r); ("id", id)]
          else [("result", _result r); ("error", JNull); ("id", id)]).
End response.

(** ** The cache *)
Definition key := list Z.
Record CacheEntry := mk_CacheEntry { response : Response; timestamp : Z }.
Record Cache := mk_Cache { _cacheMap : gmap key CacheEntry; _currentCacheSize : Z }.
Definition new_Cache : Cache := mk_Cache ∅ 0.
Definition _maxCacheSize : Z := 100 * 1024 * 1024.

Section cache.
Context `{JsonLib}.

Definition _entryOverhead : Z := 32 + sizeof_time_point + 16.
Definition generateKey (method : string) (params : json) : key :=
  sha256 (map byteZ (chars (method ++ toStyledString params))).

Definition isCached (method : string) (params : json) (c : Cache) : option Response :=
  response <$> _cacheMap c !! generateKey method params.

(** The map in the order in which it is walked *)
Definition walk (rank : key -> Z) (m : gmap key CacheEntry) : list (key * CacheEntry) :=
  CString.sort (fun a b => rank a.1 <? rank b.1) (map_to_list m).
Definition oldest_of (l : list (key * CacheEntry)) : option (key * CacheEntry) :=
  match l with
  | [] => None
  | e :: l => Some (foldl (fun oldest it => if timestamp it.2 <? timestamp oldest.2 then it else oldest) e l)
  end.
Fixpoint remove_loop (rank : key -> Z) (fuel : nat) (c : Cache) : outcome Cache :=
  if _maxCacheSize <? _currentCacheSize c then
    match oldest_of (walk rank (_cacheMap c)) with
    | None => Ok c
    | Some (k, e) =>
        match fuel with
        | O => Fuel
        | S fuel =>
            remove_loop rank fuel
              (mk_Cache (delete k (_cacheMap c)) (u64 (_currentCacheSize c - (_size (response e) + _entryOverhead))))
        end
    end
  else Ok c.
Definition removeOldestEntries (rank : key -> Z) (c : Cache) : outcome Cache := remove_loop rank (size (_cacheMap c)) c.

Definition addResponse (now : Z) (rank : key -> Z) (method : string) (params : json) (r : Response) (c : Cache) : outcome Cache :=
  if negb (isCacheable r) then Ok c
  else
    let key := generateKey method params in
    removeOldestEntries rank
      (match _cacheMap c !! key with
       | Some old =>
           mk_Cache (<[key := mk_CacheEntry r now]> (_cacheMap c)) (u64 (_currentCacheSize c + (_size r - _size (response old))))
       | None =>
           mk_Cache (<[key := mk_CacheEntry r now]> (_cacheMap c)) (u64 (_currentCacheSize c + (_size r + _entryOverhead)))
       end).

(** One pass over the entries: [verdict] gives the size to take off when an entry
    is dropped, 0 when it is kept, and the answer as it is kept. *)
Definition sweep (verdict : Response -> Z * Response) (c : Cache) : Cache :=
  mk_Cache
    (omap (fun e => let '(deleteSize, r) := verdict (response e) in
                    if 0 <? deleteSize then None else Some (mk_CacheEntry r (timestamp e))) (_cacheMap c))
    (map_fold (fun _ e total => let deleteSize := (verdict (response e)).1 in
                                if 0 <? deleteSize then u64 (total - (deleteSize + _entryOverhead)) else total)
       (_currentCacheSize c) (_cacheMap c)).
Definition cache_addressChanged (address : string) : Cache -> Cache :=
  sweep (fun r => (response_addressChanged address r, r)).
Definition cache_newBlockAdded : Cache -> Cache := sweep response_newBlockAdded.
Definition cache_newAssetIssued : Cache -> Cache := sweep (fun r => (response_newAssetIssued r, r)).
End cache.
