(* ===== verification/RpcServer.v ===== *)
(** RpcServer: the RPC server (src/src/RPC/Server.cpp): its settings, reading a
    request from a socket, authentication, the list of allowed methods,
    carrying out a call with the cache, and the reply.

    The handlers of the methods, DigiByte Core, the clock, and jsoncpp are
    members of a class.  Listening, threads and the log are not modelled; a
    connection is what its client sends, in the pieces that arrive. *)

From stdpp Require Import gmap strings.
From S2P Require Import Prelude.
From S2P Require Import BitIOCodec.
From S2P Require Import CString.
From S2P Require Import ConfigFile.
From S2P Require Import AssetWallet.
From S2P Require Import RpcCache.

Definition HTTP_BAD_REQUEST : Z := 400.
Definition HTTP_UNAUTHORIZED : Z := 401.
Definition RPC_METHOD_NOT_FOUND : Z := -32601.
Definition RPC_PARSE_ERROR : Z := -32700.
Definition RPC_FORBIDDEN_BY_SAFE_MODE : Z := -2.

Definition cacheableRpcCommands : list string :=
  ["getbestblockhash"; "getblock"; "getblockchaininfo"; "getblockcount"; "getblockfilter"; "getblockhash"; "getblockheader";
   "getblockstats"; "getchaintips"; "getchaintxstats"; "getdifficulty"; "getmempoolancestors"; "getmempooldescendants";
   "getmempoolentry"; "getmempoolinfo"; "getrawmempool"; "gettxout"; "gettxoutproof"; "gettxoutsetinfo"; "preciousblock";
   "pruneblockchain"; "savemempool"; "scantxoutset"; "verifychain"; "verifytxoutproof"]%string.

(** What the server takes from other code: [W] is the state of the rest of the program. *)
Class RpcWorld (W : Type) := {
  methods : string -> option (json -> M W Response);
  sendcommand : string -> json -> M W json;
  steady_now : W -> Z;
  map_order : W -> key -> Z;
  error_blob : string -> option (Z * string)      (** code and message of an error object of Core *)
}.

(** ** Settings *)
Record settings := mk_settings {
  _username : string;
  _password : string;
  _port : Z;
  _allowedRPC : gmap string bool;
  _showParamsOnError : bool;
  _poolSize : Z
}.
Definition read_settings (c : config) : outcome settings :=
  username ← getString "rpcuser" c;
  password ← getString "rpcpassword" c;
  port ← getInteger_default "rpcassetport" 14024 c;
  showParams ← getBool_default "rpcdebugshowparamsonerror" false c;
  poolSize ← getInteger_default "rpcthreads" 16 c;
  Ok (mk_settings username password (u32 port) (getBoolMap "rpcallow" c) showParams (u64 poolSize)).

(** ** Text *)
Definition base64_charset : string := "ABCDEFGHIJKLMNOPQRSTUVWXYZabcdefghijklmnopqrstuvwxyz0123456789+/".
Fixpoint base64_loop (val valb : Z) (input : list ascii) : list ascii :=
  match input with
  | [] => []
  | c :: input =>
      if is_space c then base64_loop val valb input
      else if byteZ c =? 61 then []
      else match find_char c (chars base64_charset) with
           | None => []
           | Some pos =>
               let val := i32 (Z.shiftl val 6) + pos in
               let valb := valb + 6 in
               if 0 <=? valb then ch (Z.land (Z.shiftr val valb) 255) :: base64_loop val (valb - 8) input
               else base64_loop val valb input
           end
  end.
Definition base64Decode (input : list ascii) : list ascii := base64_loop 0 (-8) input.

Definition crlf : list ascii := [ch 13; ch 10].
(** The header is searched at the start of a line.  [::tolower] of a negative
    [char] is undefined. *)
Fixpoint header_start (fuel : nat) (needle lower : list ascii) (pos : nat) : outcome (option nat) :=
  match fuel with
  | O => Fuel
  | S fuel =>
      match find_from needle lower pos with
      | None => Ok None
      | Some pos =>
          if (pos =? 0)%nat || ((2 <=? pos)%nat && bool_decide (CString.sub (pos - 2) 2 lower = crlf)) then Ok (Some pos)
          else header_start fuel needle lower (pos + 1)
      end
  end.
Definition headers_needle (wanted : string) : list ascii := map tolower (chars wanted) ++ chars ": ".

Section server.
Context `{JsonLib}.
Context {W : Type} `{RpcWorld W}.

(** What the constructor of [DigiByteException] makes of a message *)
Definition thrown (code : Z) (message : string) : exn :=
  match error_blob message with Some (c, m) => DigiByteException c m | None => DigiByteException code message end.

Definition getHeader (headers : list ascii) (wantedHeader : string) : outcome (list ascii) :=
  if existsb (fun c => 128 <=? byteZ c) headers then UB
  else
    let lower := map tolower headers in
    start ← header_start (S (S (length lower))) (headers_needle wantedHeader) lower 0;
    match start with
    | None => Throw (thrown HTTP_BAD_REQUEST (wantedHeader ++ " header not found"))
    | Some start =>
        let headerLength := length (headers_needle wantedHeader) in
        let value := drop (start + headerLength) headers in
        match find_from crlf lower start with
        | Some stop => if (stop <? start + headerLength)%nat then Ok value else Ok (take (stop - start - headerLength) value)
        | None => Ok value
        end
    end.

Variable cfg : settings.

Definition basicAuth (headers : list ascii) : outcome bool :=
  authHeader ← getHeader headers "Authorization";
  if (length authHeader <? 6)%nat then Ok false
  else Ok (bool_decide (base64Decode (drop 6 authHeader) = chars (_username cfg ++ ":" ++ _password cfg))).

(** ** Reading a request *)
(** What has not been read yet, in the pieces in which it arrives, and what
    reading throws when the client is gone or silent. *)
Record socket := mk_socket { pieces : list (list ascii); read_error : exn }.
Definition read_some (n : nat) : M socket (list ascii) :=
  s ← get;
  match pieces s with
  | [] => throw (read_error s)
  | p :: ps =>
      if (length p <=? n)%nat then put (mk_socket ps (read_error s));; mret p
      else put (mk_socket (drop n p :: ps) (read_error s));; mret (take n p)
  end.
Definition MAX_HEADERS : nat := 64 * 1024.
Definition MAX_BODY : Z := 16 * 1024 * 1024.
Fixpoint read_headers (fuel : nat) (requestStr : list ascii) : M socket (list ascii * option nat) :=
  match fuel with
  | O => out_of_fuel
  | S fuel =>
      data ← try_catch (read_some 1024) (fun _ => mret []);
      if bool_decide (data = []) then
        if bool_decide (requestStr = []) then throw (thrown HTTP_BAD_REQUEST "empty") else mret (requestStr, None)
      else
        let requestStr := requestStr ++ data in
        match find_sub (crlf ++ crlf) requestStr with
        | Some bodyStart => mret (requestStr, Some bodyStart)
        | None =>
            if (MAX_HEADERS <? length requestStr)%nat then throw (thrown HTTP_BAD_REQUEST "Request headers too large")
            else read_headers fuel requestStr
        end
  end.
Fixpoint read_body (fuel : nat) (remainingContent : Z) (jsonContent : list ascii) : M socket (list ascii) :=
  if 0 <? remainingContent then
    match fuel with
    | O => out_of_fuel
    | S fuel =>
        data ← read_some (Z.to_nat (Z.min remainingContent 1024));
        read_body fuel (remainingContent - Z.of_nat (length data)) (jsonContent ++ data)
    end
  else mret jsonContent.
Definition reads_left (s : socket) : nat := S (foldr (fun p n => S (length p) + n)%nat O (pieces s)).

Definition parseRequest : M socket json :=
  fuel ← gets reads_left;
  '(requestStr, bodyStart) ← read_headers fuel [];
  match bodyStart with
  | None => throw (thrown HTTP_BAD_REQUEST "Invalid HTTP request: No request body found.")
  | Some bodyStart =>
      let headers := take bodyStart requestStr in
      authenticated ← lift (basicAuth headers);
      if negb authenticated
      then throw (thrown HTTP_UNAUTHORIZED "Invalid HTTP request: No valid authentication provided.")
      else
        contentLength ← try_catch (value ← lift (getHeader headers "Content-Length"); lift (stoi (str value)))
                          (fun _ => throw (thrown HTTP_BAD_REQUEST "Invalid or missing Content-Length"));
        if (contentLength <? 0) || (MAX_BODY <? contentLength)
        then throw (thrown HTTP_BAD_REQUEST "Request body length out of range")
        else
          let jsonContent := drop (bodyStart + 4) requestStr in
          jsonContent ← read_body fuel (contentLength - Z.of_nat (length jsonContent)) jsonContent;
          match parseFromStream (str jsonContent) with
          | inl doc => mret doc
          | inr errs => throw (thrown RPC_PARSE_ERROR ("JSON parsing error: " ++ errs))
          end
  end.

(** ** Calls *)
Record server := mk_server { _allowRPCDefault : Z; rpcCache : Cache; world : W }.
Definition set_allowDefault (v : Z) (s : server) : server := mk_server v (rpcCache s) (world s).
Definition set_cache (c : Cache) (s : server) : server := mk_server (_allowRPCDefault s) c (world s).
Definition set_world (w : W) (s : server) : server := mk_server (_allowRPCDefault s) (rpcCache s) w.
Definition on_world {A} (m : M W A) : M server A := fun s => let '(r, w) := m (world s) in (r, set_world w s).

Definition isOperatorToolMethod (method : string) : bool :=
  String.eqb method "version" || String.eqb method "syncstate" || String.eqb method "getnodestats"
  || String.eqb method "getipfscount" || String.eqb method "shutdown".
Fixpoint is_allowed (fuel : nat) (method : string) : M server bool :=
  match _allowedRPC cfg !! method with
  | Some allowed => mret allowed
  | None =>
      if isOperatorToolMethod method then mret true
      else
        d ← gets _allowRPCDefault;
        (if d =? -1 then
           match fuel with
           | O => out_of_fuel
           | S fuel =>
               modify (set_allowDefault 0);;
               wildcard ← is_allowed fuel "*";
               modify (set_allowDefault (if wildcard : bool then 1 else 0))
           end
         else mret tt);;
        d ← gets _allowRPCDefault;
        mret (negb (d =? 0))
  end.
Definition isRPCAllowed (method : string) : M server bool := is_allowed 1 method.

Definition call_method (methodName : string) (params : json) : M server Response :=
  match methods methodName with
  | Some handler => on_world (handler params)
  | None =>
      walletResponse ← on_world (sendcommand methodName params);
      let r := setResult walletResponse new_Response in
      mret (if bool_decide (methodName ∈ cacheableRpcCommands) then r else setBlocksGoodFor (-1) r)
  end.
Definition cache_response (methodName : string) (params : json) (r : Response) : M server unit :=
  s ← get;
  c ← lift (addResponse (steady_now (world s)) (map_order (world s)) methodName params r (rpcCache s));
  modify (set_cache c).
Definition executeCall (methodName : string) (params id : json) : M server json :=
  allowed ← isRPCAllowed methodName;
  if negb allowed then throw (thrown RPC_FORBIDDEN_BY_SAFE_MODE (methodName ++ " is forbidden"))
  else
    c ← gets rpcCache;
    match isCached methodName params c with
    | Some r => mret (toJSON id r)
    | None =>
        r ← call_method methodName params;
        cache_response methodName params r;;
        mret (toJSON id r)
    end.

(** ** Requests *)
Definition handleRpcRequest (request : json) : M server json :=
  id ← lift (member_or_null "id" request);
  method ← lift (member_or_null "method" request);
  match method with
  | JString methodName =>
      hasParams ← lift (isMember "params" request);
      params ← lift (member_or_null "params" request);
      if hasParams && negb (isArray params) then throw (thrown RPC_INVALID_PARAMS "Invalid params")
      else executeCall methodName params id
  | _ => throw (thrown RPC_METHOD_NOT_FOUND "Method not found")
  end.

Definition createErrorResponse (code : Z) (message : string) (request : json) : outcome json :=
  hasId ← isMember "id" request;
  id ← member_or_null "id" request;
  Ok (object ([("result", JNull); ("error", object [("code", JInt code); ("message", JString message)])]
              ++ if hasId : bool then [("id", id)] else [])).
Definition http_reply (response : json) : string :=
  let jsonResponse := writeString response in
  ("HTTP/1.1 200 OK" ++ str crlf ++ "Content-Length: " ++ int_string (Z.of_nat (length (chars jsonResponse))) ++ str crlf
   ++ "Content-Type: application/json" ++ str crlf ++ str crlf ++ jsonResponse)%string.

Definition message_of (e : exn) : string :=
  match e with
  | out_of_range m | invalid_argument m | class_exception _ m => m
  | length_error => "length_error"
  end.
(** The code that [DigiByteException] carries *)
Definition code_of (e : exn) : Z :=
  match e with
  | class_exception cls _ => match stoi (str (drop 18 (chars cls))) with Ok c => c | _ => -1 end
  | _ => -1
  end.
(** What is sent after an exception, or nothing *)
Definition error_reply (e : exn) (request : json) : outcome (option string) :=
  let em := message_of e in
  if is_DigiByteException e then
    if String.eqb em "empty" || contains (chars ">>empty<<") (chars em) then Ok None
    else response ← createErrorResponse (code_of e) em request; Ok (Some (http_reply response))
  else response ← createErrorResponse RPC_MISC_ERROR ("Unexpected Error: " ++ em) request; Ok (Some (http_reply response)).
Definition handleConnection (client : socket) : M server (option string) :=
  try_catch
    (match fst (parseRequest client) with
     | Throw e => lift (error_reply e JNull)
     | UB => undefined
     | Fuel => out_of_fuel
     | Ok request =>
         try_catch
           (method ← lift (member "method" request);
            lift (asString method);;
            response ← handleRpcRequest request;
            mret (Some (http_reply response)))
           (fun e => lift (error_reply e request))
     end)
    (fun _ => mret None).
End server.
