(* ===== verification/CacheTheorems.v ===== *)
(** CacheTheorems: the cache of RPC answers stays within its size, drops the oldest
    answers first, and serves only answers that nothing has invalidated since
    they were added. *)

From stdpp Require Import gmap strings.
From S2P Require Import Prelude.
From S2P Require Import BitIOCodec.
From S2P Require Import CString.
From S2P Require Import RpcCache.

#[local] Opaque generateKey.

Section cache_theorems.
Context `{JsonLib}.

(** ** Histories *)
Inductive event :=
  | Added (now : Z) (rank : key -> Z) (method : string) (params : json) (r : Response)
  | AddressChanged (address : string)
  | BlockAdded
  | AssetIssued.
Definition step (e : event) (c : Cache) : outcome Cache :=
  match e with
  | Added now rank method params r => addResponse now rank method params r c
  | AddressChanged a => Ok (cache_addressChanged a c)
  | BlockAdded => Ok (cache_newBlockAdded c)
  | AssetIssued => Ok (cache_newAssetIssued c)
  end.
Fixpoint run (es : list event) (c : Cache) : outcome Cache :=
  match es with [] => Ok c | e :: es => c ← step e c; run es c end.

(** An answer without wrapped sizes; [small_response] shows that answers are built so. *)
Definition sized (r : Response) : Prop := 0 < _size r < two64 / 2.
Definition event_ok (e : event) : Prop := match e with Added _ _ _ _ r => sized r | _ => True end.

(** ** Sizes *)
Definition cost (e : CacheEntry) : Z := _size (response e) + _entryOverhead.
Definition total (m : gmap key CacheEntry) : Z := map_fold (fun _ e n => cost e + n) 0 m.
Definition map_sized (m : gmap key CacheEntry) : Prop := forall k e, m !! k = Some e -> sized (response e).

Lemma overhead_range : 0 < _entryOverhead < 131072.
Proof. pose proof sizeof_small. unfold _entryOverhead. lia. Qed.
Lemma total_empty : total ∅ = 0.
Proof. apply map_fold_empty. Qed.
Lemma total_insert k e m : m !! k = None -> total (<[k := e]> m) = cost e + total m.
Proof. intros Hk. unfold total. rewrite map_fold_insert_L; [done| |done]. intros. lia. Qed.
Lemma total_delete k e m : m !! k = Some e -> total m = cost e + total (delete k m).
Proof. intros Hk. rewrite <- (insert_delete_id m k e Hk) at 1. by rewrite total_insert by apply lookup_delete_eq. Qed.
Lemma total_replace k e e' m : m !! k = Some e -> total (<[k := e']> m) = total m + (_size (response e') - _size (response e)).
Proof.
  intros Hk. rewrite (total_delete k e m Hk), <- insert_delete_eq, total_insert by apply lookup_delete_eq. unfold cost. lia.
Qed.
Lemma sized_delete k m : map_sized m -> map_sized (delete k m).
Proof. intros Hm k' e [_ Hk]%lookup_delete_Some. by eapply Hm. Qed.
Lemma cost_nonneg m : map_sized m -> 0 <= total m.
Proof.
  induction m as [|k e m Hk IH] using map_ind; intros Hm; [by rewrite total_empty|]. rewrite total_insert by done.
  assert (0 < cost e). { pose proof overhead_range. destruct (Hm k e); [by rewrite lookup_insert_eq|]. unfold cost. lia. }
  assert (map_sized m). { intros k' e' Hk'. apply (Hm k'). rewrite lookup_insert_ne by congruence. done. }
  specialize (IH ltac:(done)). lia.
Qed.

(** What every reachable cache satisfies *)
Record accounted (c : Cache) : Prop := {
  acc_sized : map_sized (_cacheMap c);
  acc_size : _currentCacheSize c = total (_cacheMap c)
}.

Lemma oldest_in l o : oldest_of l = Some o -> o ∈ l /\ forall x, x ∈ l -> timestamp o.2 <= timestamp x.2.
Proof.
  destruct l as [|a l]; [done|]. cbn. intros [= <-]. revert a. induction l as [|b l IH]; intros a; cbn [foldl].
  - split; [by left|]. intros x ->%list_elem_of_singleton. lia.
  - destruct (Z.ltb_spec (timestamp b.2) (timestamp a.2)).
    + destruct (IH b) as [Hin Hle]. split; [by right|]. intros x [->|Hx]%elem_of_cons; [|by apply Hle].
      specialize (Hle b ltac:(by left)). lia.
    + destruct (IH a) as [Hin Hle]. split; [apply elem_of_cons in Hin as [->|]; [by left|by right; right]|].
      intros x [->|[->|Hx]%elem_of_cons]%elem_of_cons; [apply Hle; by left| |apply Hle; by right].
      specialize (Hle a ltac:(by left)). lia.
Qed.
Lemma walk_elem rank m k e : (k, e) ∈ walk rank m <-> m !! k = Some e.
Proof. unfold walk. rewrite sort_permutation. apply elem_of_map_to_list. Qed.
Lemma walk_oldest rank m : oldest_of (walk rank m) = None -> m = ∅.
Proof.
  intros E. destruct (walk rank m) eqn:Ew; [|done]. apply map_empty. intros k. destruct (m !! k) as [e|] eqn:Ek; [|done].
  apply (walk_elem rank) in Ek. rewrite Ew in Ek. by apply elem_of_nil in Ek.
Qed.

(** What [removeOldestEntries] does: it ends, within the cap, and what it drops
    is not younger than what it keeps. *)
Definition trimmed (c c' : Cache) : Prop :=
  accounted c' /\ _currentCacheSize c' <= _maxCacheSize /\ _cacheMap c' ⊆ _cacheMap c
  /\ (_currentCacheSize c <= _maxCacheSize -> c' = c)
  /\ forall k e k' e', _cacheMap c !! k = Some e -> _cacheMap c' !! k = None -> _cacheMap c' !! k' = Some e' -> timestamp e <= timestamp e'.
Lemma remove_loop_trims rank fuel c : accounted c -> total (_cacheMap c) < two64 -> (size (_cacheMap c) <= fuel)%nat ->
  exists c', remove_loop rank fuel c = Ok c' /\ trimmed c c'.
Proof.
  revert c. induction fuel as [|fuel IH]; intros c [Hs Ha] Hb Hf; cbn [remove_loop];
    destruct (Z.ltb_spec _maxCacheSize (_currentCacheSize c)) as [Hmax|Hmax];
    try (exists c; split; [done|]; split_and!; [done|lia|done|done|congruence]).
  - assert (_cacheMap c = ∅) as E by (apply map_size_empty_iff; lia).
    rewrite E, total_empty in Ha. rewrite Ha in Hmax. by vm_compute in Hmax.
  - destruct (oldest_of _) as [[k e]|] eqn:E.
    + apply oldest_in in E as [Hk Hold]. cbn [snd] in Hold. apply walk_elem in Hk.
      assert (Hd : total (_cacheMap c) = cost e + total (delete k (_cacheMap c))) by by apply total_delete.
      pose proof (cost_nonneg _ (sized_delete k _ Hs)). pose proof overhead_range. pose proof (Hs _ _ Hk) as [? ?].
      edestruct (IH (mk_Cache (delete k (_cacheMap c)) (u64 (_currentCacheSize c - cost e)))) as (c' & E' & Hacc & Hc & Hsub & Hid & Hage).
      * split; [by apply sized_delete|]. cbn. rewrite u64_small; unfold cost in *; lia.
      * cbn. unfold cost in *. lia.
      * cbn [_cacheMap]. rewrite map_size_delete, Hk. lia.
      * exists c'. split; [exact E'|]. split_and!; [done..|by etrans; [exact Hsub|apply delete_subseteq]|lia|].
        intros k1 e1 k2 e2 Hk1 Hk2 Hk3. destruct (decide (k1 = k)) as [->|].
        -- rewrite Hk in Hk1. injection Hk1 as <-. apply (Hold (k2, e2)). apply walk_elem.
           pose proof (lookup_weaken _ _ _ _ Hk3 Hsub) as Hk4. cbn in Hk4. apply lookup_delete_Some in Hk4. tauto.
        -- eapply (Hage k1); [|done|exact Hk3]. cbn. by rewrite lookup_delete_ne.
    + apply walk_oldest in E. rewrite E, total_empty in Ha. rewrite Ha in Hmax. by vm_compute in Hmax.
Qed.

(** ** The operations *)
Definition fair (v : Response -> Z * Response) : Prop :=
  forall r, ((v r).1 = 0 \/ (v r).1 = _size r) /\ _size (v r).2 = _size r.
Definition kept (v : Response -> Z * Response) (e : CacheEntry) : option CacheEntry :=
  let '(deleteSize, r) := v (response e) in if 0 <? deleteSize then None else Some (mk_CacheEntry r (timestamp e)).
Lemma kept_cost v e e' : fair v -> kept v e = Some e' -> _size (response e') = _size (response e) /\ cost e' = cost e.
Proof.
  intros Hv. unfold kept, cost. pose proof (Hv (response e)) as [_ Hr]. destruct (v _) as [d r]. cbn in Hr.
  case_match; [done|]. intros [= <-]. cbn. lia.
Qed.

Lemma sweep_accounted v c : fair v -> accounted c -> total (_cacheMap c) < two64 ->
  accounted (sweep v c) /\ total (_cacheMap (sweep v c)) <= total (_cacheMap c).
Proof.
  intros Hv [Hs Ha] Hb. pose proof overhead_range as Ho. change (sweep v c) with
    (mk_Cache (omap (kept v) (_cacheMap c)) (_currentCacheSize (sweep v c))).
  assert (map_sized (omap (kept v) (_cacheMap c))) as Hs'.
  { intros k e. rewrite lookup_omap. intros (e0 & Hk & E)%bind_Some. specialize (Hs _ _ Hk).
    apply kept_cost in E as [E _]; [|done]. unfold sized in *. lia. }
  cut (_currentCacheSize (sweep v c) = u64 (_currentCacheSize c - (total (_cacheMap c) - total (omap (kept v) (_cacheMap c))))
       /\ total (omap (kept v) (_cacheMap c)) <= total (_cacheMap c)).
  { intros [E Hle]. split; [|done]. split; [done|]. cbn [_currentCacheSize _cacheMap]. pose proof (cost_nonneg _ Hs').
    rewrite E, Ha, u64_small; lia. }
  pose proof (cost_nonneg _ Hs) as Hn. unfold sweep. cbn [_currentCacheSize]. revert Hs. clear Hs'. 
  assert (_currentCacheSize c = u64 (_currentCacheSize c)) as Hc by (rewrite u64_small; lia). clear Hb Ha Hn.
  revert Hc. generalize (_currentCacheSize c) as n. intros n Hc.
  apply (map_fold_weak_ind (fun acc m => map_sized m ->
    acc = u64 (n - (total m - total (omap (kept v) m))) /\ total (omap (kept v) m) <= total m)).
  - intros _. rewrite omap_empty, total_empty. split; [|lia]. by rewrite Z.sub_diag, Z.sub_0_r.
  - intros k e m acc Hk IH Hm.
    destruct IH as [IH Hle]. { intros k' e' Hk'. apply (Hm k'). rewrite lookup_insert_ne by congruence. done. }
    assert (Hse : sized (response e)) by (apply (Hm k); by rewrite lookup_insert_eq).
    assert (Hko : omap (kept v) m !! k = None) by (by rewrite lookup_omap, Hk).
    rewrite omap_insert, total_insert by done. destruct (kept v e) as [e'|] eqn:Ek.
    + pose proof (kept_cost _ _ _ Hv Ek) as [_ Hcost]. rewrite total_insert by done. unfold kept in Ek.
      destruct (v (response e)) as [d r]. cbn [fst]. case_match; [done|]. rewrite Hcost. split; [|lia]. rewrite IH. f_equal. lia.
    + rewrite delete_id by done. unfold kept in Ek. pose proof (Hv (response e)) as [Hd _].
      destruct (v (response e)) as [d r]. cbn [fst] in *. destruct (Z.ltb_spec 0 d) as [Hpos|]; [|done]. unfold sized in *.
      destruct Hd as [->| ->]; [lia|]. unfold cost. split; [|lia]. rewrite IH. unfold u64. rewrite Zminus_mod_idemp_l. f_equal. lia.
Qed.

Definition within (c : Cache) : Prop := accounted c /\ _currentCacheSize c <= _maxCacheSize.
(** The cache after the insertion, before anything is dropped *)
Definition inserted (now : Z) (method : string) (params : json) (r : Response) (c : Cache) : gmap key CacheEntry :=
  <[generateKey method params := mk_CacheEntry r now]> (_cacheMap c).

Lemma settle_trims rank m n : map_sized m -> n = total m -> total m < two64 ->
  exists c', removeOldestEntries rank (mk_Cache m (u64 n)) = Ok c' /\ trimmed (mk_Cache m (u64 n)) c'.
Proof.
  intros Hs -> Hb. pose proof (cost_nonneg _ Hs). rewrite u64_small by lia.
  apply remove_loop_trims; [by split|done|cbn; lia].
Qed.
Lemma add_trims now rank method params r c : within c -> sized r -> isCacheable r = true ->
  exists c0 c', addResponse now rank method params r c = Ok c' /\ _cacheMap c0 = inserted now method params r c
    /\ trimmed c0 c' /\ _currentCacheSize c0 <= _currentCacheSize c + _size r + _entryOverhead.
Proof.
  intros [[Hs Ha] Hmax] Hr Hc. unfold addResponse. rewrite Hc. cbn [negb]. pose proof (cost_nonneg _ Hs). pose proof overhead_range.
  unfold inserted. set (k := generateKey method params).
  assert (map_sized (<[k := mk_CacheEntry r now]> (_cacheMap c))) as Hs'.
  { intros k' e' [[_ <-]|[_ Hk]]%lookup_insert_Some; [done|by eapply Hs]. }
  assert (0 < _size r < 9223372036854775808) as Hr' by exact Hr. assert (two64 = 18446744073709551616) as E by reflexivity.
  assert (_maxCacheSize = 104857600) as E' by reflexivity. rewrite E' in Hmax. pose proof (cost_nonneg _ Hs').
  destruct (_cacheMap c !! k) as [old|] eqn:Ek.
  - assert (0 < _size (response old) < 9223372036854775808) by exact (Hs _ _ Ek).
    pose proof (total_replace k old (mk_CacheEntry r now) _ Ek) as Ht. cbn [response] in Ht.
    destruct (settle_trims rank _ (_currentCacheSize c + (_size r - _size (response old))) Hs') as (c' & Eq & Ht'); [lia|lia|].
    eexists _, c'. split; [exact Eq|]. split; [|split; [exact Ht'|]]; [reflexivity|]. cbn [_currentCacheSize]. rewrite u64_small; lia.
  - pose proof (total_insert k (mk_CacheEntry r now) _ Ek) as Ht. unfold cost in Ht. cbn [response] in Ht.
    destruct (settle_trims rank _ (_currentCacheSize c + (_size r + _entryOverhead)) Hs') as (c' & Eq & Ht'); [lia|lia|].
    eexists _, c'. split; [exact Eq|]. split; [|split; [exact Ht'|]]; [reflexivity|]. cbn [_currentCacheSize]. rewrite u64_small; lia.
Qed.

Lemma fair_address a : fair (fun r => (response_addressChanged a r, r)).
Proof. intros r. unfold response_addressChanged. case_bool_decide; cbn; auto. Qed.
Lemma fair_block : fair response_newBlockAdded.
Proof. intros r. unfold response_newBlockAdded. case_match; cbn; auto. Qed.
Lemma fair_asset : fair (fun r => (response_newAssetIssued r, r)).
Proof. intros r. unfold response_newAssetIssued. case_match; cbn; auto. Qed.

(** ** What a history allows to be served *)
Definition age (e : event) (r : Response) : option Response :=
  match e with
  | Added _ _ _ _ _ => Some r
  | AddressChanged a => if bool_decide (a ∈ _invalidateOnAddressChange r) then None else Some r
  | BlockAdded => if _blocksGoodFor r <=? 0 then None else Some (setBlocksGoodFor (_blocksGoodFor r - 1) r)
  | AssetIssued => if _invalidateOnNewAsset r then None else Some r
  end.
Fixpoint aged (es : list event) (r : Response) : option Response :=
  match es with [] => Some r | e :: es => r ← age e r; aged es r end.
(** The answers that were added and that nothing has invalidated, without a limit
    of the size *)
Definition allowed_step (m : gmap key Response) (e : event) : gmap key Response :=
  match e with
  | Added _ _ method params r => if isCacheable r then <[generateKey method params := r]> m else m
  | _ => omap (age e) m
  end.
Definition allowed (es : list event) : gmap key Response := foldl allowed_step ∅ es.

Definition verdict (e : event) : Response -> Z * Response :=
  match e with
  | AddressChanged a => fun r => (response_addressChanged a r, r)
  | BlockAdded => response_newBlockAdded
  | AssetIssued => fun r => (response_newAssetIssued r, r)
  | Added _ _ _ _ _ => fun r => (0, r)
  end.
Lemma kept_age e x : sized (response x) -> (forall now rank m p r, e <> Added now rank m p r) ->
  response <$> kept (verdict e) x = age e (response x).
Proof.
  intros [Hs _] Hne. unfold kept. destruct e as [| | |]; [by destruct (Hne now rank method params r)|..]; cbn [verdict age].
  - unfold response_addressChanged. case_bool_decide; [|done]. by replace (0 <? _) with true by lia.
  - unfold response_newBlockAdded. cbn [setBlocksGoodFor _blocksGoodFor _size].
    replace (_blocksGoodFor (response x) - 1 <? 0) with (_blocksGoodFor (response x) <=? 0) by lia.
    destruct (_ <=? 0); [|done]. by replace (0 <? _) with true by lia.
  - unfold response_newAssetIssued. destruct (_invalidateOnNewAsset _); [|done]. by replace (0 <? _) with true by lia.
Qed.

(** ** Runs *)
Definition weight (e : event) : Z :=
  match e with Added _ _ _ _ r => if isCacheable r then _size r + _entryOverhead else 0 | _ => 0 end.
Definition load (es : list event) : Z := foldr (fun e n => weight e + n) 0 es.
Definition sound (c : Cache) (m : gmap key Response) : Prop := forall k e, _cacheMap c !! k = Some e -> m !! k = Some (response e).
Definition complete (c : Cache) (m : gmap key Response) : Prop := forall k r, m !! k = Some r -> response <$> _cacheMap c !! k = Some r.

Lemma sweep_step e c m : within c -> sound c m -> (forall now rank mt p r, e <> Added now rank mt p r) -> fair (verdict e) ->
  within (sweep (verdict e) c) /\ sound (sweep (verdict e) c) (omap (age e) m)
  /\ _currentCacheSize (sweep (verdict e) c) <= _currentCacheSize c
  /\ (complete c m -> complete (sweep (verdict e) c) (omap (age e) m)).
Proof.
  intros [Ha Hmax] Hs Hne Hf. pose proof Ha as [Hsz Hc].
  assert (_maxCacheSize < two64) by (vm_compute; reflexivity).
  destruct (sweep_accounted _ c Hf Ha) as [Ha' Hle]; [lia|]. pose proof Ha' as [_ Hc'].
  assert (forall k, _cacheMap (sweep (verdict e) c) !! k = x ← _cacheMap c !! k; kept (verdict e) x) as Hk.
  { intros k. cbn. by rewrite lookup_omap. }
  split; [split; [done|lia]|]. split_and!; [|lia|].
  - intros k x. rewrite Hk. intros (y & Hy & Hkept)%bind_Some. pose proof (kept_age e y (Hsz _ _ Hy) Hne) as E.
    rewrite Hkept in E. rewrite lookup_omap, (Hs _ _ Hy). cbn in *. congruence.
  - intros Hcomp k r. rewrite lookup_omap, Hk. intros (r0 & Hr0 & Hage)%bind_Some. apply Hcomp in Hr0.
    destruct (_cacheMap c !! k) as [y|] eqn:Hy; [|done]. cbn in Hr0. injection Hr0 as <-. cbn.
    by rewrite (kept_age e y (Hsz _ _ Hy) Hne).
Qed.

Lemma step_refines e c m : within c -> sound c m -> event_ok e -> exists c', step e c = Ok c' /\ within c'
  /\ sound c' (allowed_step m e)
  /\ (complete c m -> _currentCacheSize c + weight e <= _maxCacheSize ->
        complete c' (allowed_step m e) /\ _currentCacheSize c' <= _currentCacheSize c + weight e).
Proof.
  intros Hw Hs He. pose proof Hw as [_ Hmax].
  destruct e as [now rank mt p r|a| |]; cbn [step allowed_step weight]; cycle 1.
  1-3: eexists; split; [reflexivity|].
  - destruct (sweep_step (AddressChanged a) c m) as (H1 & H2 & H3 & H4); [done..|apply fair_address|].
    split_and!; [exact H1|exact H2|]. intros Hc _. split; [by apply H4|]. change (cache_addressChanged a c) with (sweep (verdict (AddressChanged a)) c). lia.
  - destruct (sweep_step BlockAdded c m) as (H1 & H2 & H3 & H4); [done..|apply fair_block|].
    split_and!; [exact H1|exact H2|]. intros Hc _. split; [by apply H4|]. change (cache_newBlockAdded c) with (sweep (verdict BlockAdded) c). lia.
  - destruct (sweep_step AssetIssued c m) as (H1 & H2 & H3 & H4); [done..|apply fair_asset|].
    split_and!; [exact H1|exact H2|]. intros Hc _. split; [by apply H4|]. change (cache_newAssetIssued c) with (sweep (verdict AssetIssued) c). lia.
  - destruct (isCacheable r) eqn:Er.
    + destruct (add_trims now rank mt p r c Hw He Er) as (c0 & c' & E & E0 & (Ha & Hm & Hsub & Hid & _) & Hcost).
      exists c'. split; [done|]. split; [done|]. split.
      * intros k x Hk. pose proof (lookup_weaken _ _ _ _ Hk Hsub) as Hk0. rewrite E0 in Hk0. unfold inserted in Hk0.
        apply lookup_insert_Some in Hk0 as [[<- <-]|[Hne Hk0]]; [by rewrite lookup_insert_eq|]. rewrite lookup_insert_ne by done. by apply Hs.
      * intros Hc Hfit. rewrite Hid by lia. split; [|lia]. intros k x. rewrite E0. unfold inserted.
        intros [[<- <-]|[Hne Hk]]%lookup_insert_Some; [by rewrite lookup_insert_eq|]. rewrite lookup_insert_ne by done. by apply Hc.
    + unfold addResponse. rewrite Er. cbn [negb]. exists c. split_and!; [done..|]. intros; split; [done|lia].
Qed.

Lemma load_cons e es : load (e :: es) = weight e + load es.
Proof. reflexivity. Qed.
Lemma weight_nonneg e : event_ok e -> 0 <= weight e.
Proof.
  pose proof overhead_range. destruct e; cbn [event_ok weight]; [|done..]. intros [? _]. destruct (isCacheable r); lia.
Qed.
Lemma load_nonneg es : Forall event_ok es -> 0 <= load es.
Proof. induction 1 as [|e es He _ IH]; [done|]. rewrite load_cons. pose proof (weight_nonneg e He). lia. Qed.

Lemma run_refines es c m : within c -> sound c m -> Forall event_ok es -> exists c', run es c = Ok c' /\ within c'
  /\ sound c' (foldl allowed_step m es)
  /\ (complete c m -> _currentCacheSize c + load es <= _maxCacheSize -> complete c' (foldl allowed_step m es)).
Proof.
  revert c m. induction es as [|e es IH]; intros c m Hw Hs He; [by exists c|]. apply Forall_cons in He as [He Hes].
  destruct (step_refines e c m Hw Hs He) as (c1 & E1 & Hw1 & Hs1 & Hc1).
  destruct (IH c1 (allowed_step m e) Hw1 Hs1 Hes) as (c' & E' & Hw' & Hs' & Hc').
  exists c'. cbn [run foldl]. rewrite E1, load_cons. split_and!; [done..|]. intros Hc Hfit.
  pose proof (load_nonneg es Hes). destruct (Hc1 Hc) as [H1 H2]; [lia|]. apply Hc'; [done|lia].
Qed.
Lemma empty_within : within new_Cache.
Proof. split; [split; [by intros k e ?|cbn; by rewrite total_empty]|by vm_compute]. Qed.

(** ** What is served *)
Definition adds (e : event) : option key :=
  match e with Added _ _ method params r => if isCacheable r then Some (generateKey method params) else None | _ => None end.
Fixpoint blocks (es : list event) : Z :=
  match es with [] => 0 | BlockAdded :: es => 1 + blocks es | _ :: es => blocks es end.

Lemma allowed_app es e : allowed (es ++ [e]) = allowed_step (allowed es) e.
Proof. unfold allowed. by rewrite foldl_app. Qed.
Lemma aged_app es es' r : aged (es ++ es') r = r ← aged es r; aged es' r.
Proof. revert r. induction es as [|e es IH]; intros r; [done|]. cbn [app aged]. destruct (age e r); [apply IH|done]. Qed.
(** The answer that is allowed is the last one added for its key, aged since. *)
Lemma allowed_found es k r : allowed es !! k = Some r ->
  exists before now rank method params r0 later,
    es = before ++ Added now rank method params r0 :: later /\ generateKey method params = k
    /\ isCacheable r0 = true /\ Forall (fun e => adds e <> Some k) later /\ aged later r0 = Some r.
Proof.
  revert r. induction es as [|e es IH] using rev_ind; intros r; [done|]. rewrite allowed_app.
  assert (forall r1, allowed es !! k = Some r1 -> adds e <> Some k -> age e r1 = Some r ->
    exists before now rank method params r0 later, es ++ [e] = before ++ Added now rank method params r0 :: later
      /\ generateKey method params = k /\ isCacheable r0 = true /\ Forall (fun e => adds e <> Some k) later /\ aged later r0 = Some r) as Hold.
  { intros r1 Hr1 Hne Hage. destruct (IH r1 Hr1) as (b & now & rank & mt & p & r0 & l & -> & Hk & Hc & Hf & Ha).
    exists b, now, rank, mt, p, r0, (l ++ [e]). rewrite <- app_assoc. split_and!; [done..| |].
    - apply Forall_app. split; [done|]. by apply Forall_singleton.
    - rewrite aged_app, Ha. cbn. by rewrite Hage. }
  destruct e as [now rank mt p r0|a| |]; cbn [allowed_step].
  - destruct (isCacheable r0) eqn:Er.
    + intros [[<- <-]|[Hne Hk]]%lookup_insert_Some.
      * exists es, now, rank, mt, p, r0, []. split_and!; [done..|constructor|done].
      * apply (Hold r); [done| |done]. cbn. rewrite Er. congruence.
    + intros Hk. apply (Hold r); [done| |done]. cbn. by rewrite Er.
  - rewrite lookup_omap. intros (r1 & H1 & H2)%bind_Some. by apply (Hold r1).
  - rewrite lookup_omap. intros (r1 & H1 & H2)%bind_Some. by apply (Hold r1).
  - rewrite lookup_omap. intros (r1 & H1 & H2)%bind_Some. by apply (Hold r1).
Qed.
Lemma blocks_nonneg es : 0 <= blocks es.
Proof. induction es as [|[] es IH]; cbn; lia. Qed.
Lemma aged_spec es r r' : isCacheable r = true -> aged es r = Some r' ->
  r' = setBlocksGoodFor (_blocksGoodFor r - blocks es) r /\ blocks es <= _blocksGoodFor r
  /\ (forall a, a ∈ _invalidateOnAddressChange r -> AddressChanged a ∉ es)
  /\ (_invalidateOnNewAsset r = true -> AssetIssued ∉ es).
Proof.
  unfold isCacheable. revert r. induction es as [|e es IH]; intros r Hc.
  - cbn. intros [= <-]. split_and!; [rewrite Z.sub_0_r; by destruct r|lia|intros; apply not_elem_of_nil..].
  - cbn [aged]. intros (r1 & Ha & Hes)%bind_Some. destruct e as [now rank mt p r0|a| |]; cbn [age blocks] in *.
    + injection Ha as <-. destruct (IH _ Hc Hes) as (H1 & H2 & H3 & H4).
      split_and!; [done..| |]; intros; apply not_elem_of_cons; (split; [done|auto]).
    + case_bool_decide as Hin; [done|]. injection Ha as <-. destruct (IH _ Hc Hes) as (H1 & H2 & H3 & H4).
      split_and!; [done..| |]; intros; apply not_elem_of_cons; (split; [congruence|auto]).
    + destruct (Z.leb_spec (_blocksGoodFor r) 0) as [|Hpos]; [done|]. injection Ha as <-.
      destruct (IH (setBlocksGoodFor (_blocksGoodFor r - 1) r)) as (H1 & H2 & H3 & H4); [cbn [setBlocksGoodFor _blocksGoodFor]; lia|done|]. cbn [setBlocksGoodFor _blocksGoodFor _invalidateOnAddressChange _invalidateOnNewAsset] in *.
      split_and!; [rewrite H1; unfold setBlocksGoodFor; cbn [_blocksGoodFor _result _error _size _invalidateOnAddressChange _invalidateOnNewAsset]; f_equal; lia|lia| |];
        intros; apply not_elem_of_cons; (split; [done|auto]).
    + destruct (_invalidateOnNewAsset r) eqn:En; [done|]. injection Ha as <-. destruct (IH _ Hc Hes) as (H1 & H2 & H3 & H4).
      split_and!; [done..| |congruence]. intros; apply not_elem_of_cons; (split; [done|auto]).
Qed.

(** C22: The cache serves only answers that are still valid.  In every
    interleaving of additions by the workers and events of the analyzer, an
    answer that is found was added for a request with the same key, nothing
    newer was added for it, and since then none of its addresses changed, no
    asset was issued if it depends on that, and no more blocks came than it is
    good for.  As long as everything that was added fits, nothing valid is
    lost either. *)
Theorem cache_serves_valid es : Forall event_ok es -> exists c, run es new_Cache = Ok c
  /\ (forall method params r, isCached method params c = Some r ->
        exists before now rank method' params' r0 later,
          es = before ++ Added now rank method' params' r0 :: later
          /\ generateKey method' params' = generateKey method params /\ isCacheable r0 = true
          /\ Forall (fun e => adds e <> Some (generateKey method params)) later
          /\ r = setBlocksGoodFor (_blocksGoodFor r0 - blocks later) r0 /\ blocks later <= _blocksGoodFor r0
          /\ (forall a, a ∈ _invalidateOnAddressChange r0 -> AddressChanged a ∉ later)
          /\ (_invalidateOnNewAsset r0 = true -> AssetIssued ∉ later))
  /\ (load es <= _maxCacheSize -> forall method params, isCached method params c = allowed es !! generateKey method params).
Proof.
  intros He. destruct (run_refines es new_Cache ∅ empty_within) as (c & E & Hw & Hs & Hc); [by intros k e ?|done|].
  change (foldl allowed_step ∅ es) with (allowed es) in *. exists c. split_and!; [done| |].
  - intros method params r (x & Hx & ->)%fmap_Some. apply Hs, allowed_found in Hx as (b & now & rank & mt & p & r0 & l & -> & Hk & Hcb & Hf & Ha).
    exists b, now, rank, mt, p, r0, l. by destruct (aged_spec l r0 _ Hcb Ha) as (? & ? & ? & ?).
  - intros Hfit method params. unfold isCached. destruct (allowed es !! _) as [r|] eqn:Er.
    + apply Hc; [by intros k r' ?|cbn; lia|done].
    + destruct (_cacheMap c !! _) as [x|] eqn:Ex; [|done]. apply Hs in Ex. congruence.
Qed.

(** C36: The cache is bounded.  After any history the recorded size is the size of
    the entries and at most the cap, the eviction loop always ends, an addition
    drops nothing when there is room, and otherwise drops no entry that is
    younger than one it keeps. *)
Theorem rpc_cache_bounded es : Forall event_ok es -> exists c, run es new_Cache = Ok c
  /\ _currentCacheSize c = total (_cacheMap c) /\ total (_cacheMap c) <= _maxCacheSize
  /\ forall now rank method params r, sized r -> isCacheable r = true ->
       exists c', addResponse now rank method params r c = Ok c' /\ _currentCacheSize c' <= _maxCacheSize
         /\ _cacheMap c' ⊆ inserted now method params r c
         /\ (_currentCacheSize c + _size r + _entryOverhead <= _maxCacheSize -> _cacheMap c' = inserted now method params r c)
         /\ forall k e k' e', inserted now method params r c !! k = Some e -> _cacheMap c' !! k = None ->
              _cacheMap c' !! k' = Some e' -> timestamp e <= timestamp e'.
Proof.
  intros He. destruct (run_refines es new_Cache ∅ empty_within) as (c & E & Hw & _ & _); [by intros k e ?|done|].
  exists c. destruct Hw as [Ha Hm]. split_and!; [done|apply Ha|rewrite <- (acc_size c Ha); done|].
  intros now rank method params r Hr Hc.
  destruct (add_trims now rank method params r c (conj Ha Hm) Hr Hc) as (c0 & c' & E' & <- & (_ & Hm' & Hsub & Hid & Hage) & Hcost).
  exists c'. split_and!; [done..| |exact Hage]. intros Hfit. rewrite Hid; [done|lia].
Qed.

(** *** Answers as the methods build them *)
Lemma estimate_range v : 0 <= estimateJsonMemoryUsage v < two64.
Proof.
  pose proof sizeof_small. assert (65536 < two64) by (vm_compute; reflexivity).
  assert (forall (A : Type) (f : A -> Z) l, 0 <= foldl (fun n x => u64 (n + f x)) sizeof_Value l < two64) as Hf.
  { intros A f l. assert (0 <= sizeof_Value < two64) as Hn by lia. revert Hn. generalize sizeof_Value as n.
    induction l as [|x l IH]; intros n Hn; [exact Hn|]. apply IH, u64_range. }
  destruct v; cbn [estimateJsonMemoryUsage]; try lia; [apply u64_range|apply Hf|apply (Hf _ (fun kv => estimateJsonMemoryUsage kv.2))].
Qed.
Fixpoint text_size (l : list string) : Z := match l with [] => 0 | a :: l => Z.of_nat (length (chars a)) + text_size l end.
Lemma text_size_nonneg l : 0 <= text_size l.
Proof. induction l; cbn [text_size]; lia. Qed.
(** An answer whose data is below 2^62 bytes in all is counted without wrapping. *)
Lemma small_response v addresses :
  estimateJsonMemoryUsage v + text_size addresses < 2 ^ 62 ->
  sized (foldl (fun r a => addInvalidateOnAddressChange a r) (setResult v new_Response) addresses).
Proof.
  pose proof sizeof_small. pose proof (estimate_range v). intros Hb. pose proof (text_size_nonneg addresses).
  assert (forall l r, 0 < _size r -> _size r + text_size l < 2 ^ 62 + 65536 ->
    sized (foldl (fun r a => addInvalidateOnAddressChange a r) r l)) as Hl.
  { induction l as [|a l IH]; intros r Hr; cbn [foldl text_size].
    - intros Hs. split; [done|]. change (two64 / 2) with 9223372036854775808. lia.
    - intros Hs. pose proof (text_size_nonneg l). unfold addInvalidateOnAddressChange. case_bool_decide; [apply IH; lia|].
      apply IH; cbn [_size]; (rewrite u64_small; [|change two64 with 18446744073709551616]); lia. }
  apply Hl; cbn [setResult new_Response _size]; (rewrite u64_small; [|change two64 with 18446744073709551616]); lia.
Qed.
End cache_theorems.

(** *** Witnesses *)
Definition demo_json : JsonLib :=
  {| sizeof_Value := 40; sizeof_Response := 128; sizeof_time_point := 8;
     toStyledString v := match v with JArray (JInt z :: _) => ("[" ++ int_string z ++ "]")%string | _ => "null"%string end;
     writeString _ := "{}"%string;
     parseFromStream s := if String.eqb s "{}" then inl (JObject [("method", JString "ping")]) else inr "no"%string;
     real_text _ := ""%string;
     not_an_object := ""%string;
     not_convertible := ""%string;
     sizeof_small := conj (conj eq_refl eq_refl) (conj (conj eq_refl eq_refl) (conj eq_refl eq_refl)) |}.
Definition demo_answer : Response :=
  @setInvalidateOnNewAsset (@addInvalidateOnAddressChange "D1" (@setResult demo_json (JInt 5) (@new_Response demo_json))).
Definition demo_events : list event :=
  [Added 1 (fun _ => 0) "listassets" (JArray [JInt 1]) (setBlocksGoodFor 2 demo_answer); BlockAdded; AddressChanged "D2";
   Added 2 (fun _ => 0) "getnodestats" JNull (setBlocksGoodFor (-1) demo_answer); BlockAdded].

Lemma cache_serves_valid_witness : exists c, @run demo_json demo_events new_Cache = Ok c
  /\ @isCached demo_json "listassets" (JArray [JInt 1]) c = Some (setBlocksGoodFor 0 demo_answer)
  /\ @isCached demo_json "getnodestats" JNull c = None.
Proof.
  destruct (@cache_serves_valid demo_json demo_events) as (c & E & _ & Hall).
  { repeat constructor; try exact I; vm_compute; reflexivity. }
  exists c. split; [exact E|]. rewrite !Hall by (vm_compute; congruence). split; vm_compute; reflexivity.
Defined.
Lemma rpc_cache_bounded_witness : exists c, @run demo_json demo_events new_Cache = Ok c /\ _currentCacheSize c = 226
  /\ total (H := demo_json) (_cacheMap c) = 226.
Proof.
  destruct (@rpc_cache_bounded demo_json demo_events) as (c & E & Hs & _).
  { repeat constructor; try exact I; vm_compute; reflexivity. }
  assert (_currentCacheSize c = 226) as H.
  { transitivity (match @run demo_json demo_events new_Cache with Ok c => _currentCacheSize c | _ => 0 end); [by rewrite E|]. vm_compute. reflexivity. }
  exists c. split; [exact E|]. split; [exact H|]. rewrite <- Hs. exact H.
Defined.
