(* ===== verification/RequestTheorems.v ===== *)
(** RequestTheorems: the credentials that a client encodes in base64 are decoded, a
    header is the one of its line, and a well-formed request is read in
    whatever pieces it arrives. *)

From stdpp Require Import gmap strings.
From S2P Require Import Prelude.
From S2P Require Import BitIOCodec.
From S2P Require Import BitIOText.
From S2P Require Import CString.
From S2P Require Import ConfigTheorems.
From S2P Require Import RpcCache.
From S2P Require Import CacheTheorems.
From S2P Require Import RpcServer.
From S2P Require Import RpcTheorems.

Ltac Zify.zify_post_hook ::= Z.div_mod_to_equations.

(** ** Base64, as RFC 4648 encodes it *)
Definition b64 (v : Z) : ascii := nth (Z.to_nat v) (chars base64_charset) "0"%char.
Fixpoint base64 (l : list ascii) : list ascii :=
  match l with
  | a :: b :: c :: l =>
      let '(a, b, c) := (byteZ a, byteZ b, byteZ c) in
      b64 (a / 4) :: b64 (a mod 4 * 16 + b / 16) :: b64 (b mod 16 * 4 + c / 64) :: b64 (c mod 64) :: base64 l
  | [a; b] =>
      let '(a, b) := (byteZ a, byteZ b) in [b64 (a / 4); b64 (a mod 4 * 16 + b / 16); b64 (b mod 16 * 4); ch 61]
  | [a] => let a := byteZ a in [b64 (a / 4); b64 (a mod 4 * 16); ch 61; ch 61]
  | [] => []
  end.

Lemma b64_spec v : 0 <= v < 64 ->
  is_space (b64 v) = false /\ byteZ (b64 v) =? 61 = false /\ find_char (b64 v) (chars base64_charset) = Some v.
Proof.
  intros Hv.
  assert (forallb (fun v => negb (is_space (b64 v)) && negb (byteZ (b64 v) =? 61)
                            && bool_decide (find_char (b64 v) (chars base64_charset) = Some v)) (seqZ 0 64) = true) as H
    by (vm_compute; reflexivity).
  rewrite forallb_forall in H. specialize (H v). rewrite <- list_elem_of_In, elem_of_seqZ in H. specialize (H ltac:(lia)).
  rewrite !andb_true_iff, !negb_true_iff, bool_decide_eq_true in H. tauto.
Qed.
Lemma b64_step v val valb l : 0 <= v < 64 -> exists x, x mod 4096 = (val * 64 + v) mod 4096
  /\ base64_loop val valb (b64 v :: l)
     = if 0 <=? valb + 6 then ch (Z.land (Z.shiftr x (valb + 6)) 255) :: base64_loop x (valb + 6 - 8) l else base64_loop x (valb + 6) l.
Proof.
  intros Hv. destruct (b64_spec v Hv) as (H1 & H2 & H3). exists (i32 (Z.shiftl val 6) + v). split.
  - rewrite Z.shiftl_mul_pow2 by lia. unfold i32, two32. change (2 ^ 6) with 64. lia.
  - cbn [base64_loop]. by rewrite H1, H2, H3.
Qed.
Lemma low_byte x k c : 0 <= k -> x / 2 ^ k mod 256 = byteZ c -> ch (Z.land (Z.shiftr x k) 255) = c.
Proof.
  intros Hk E. unfold ch. apply charZ_eq. rewrite <- E, Z.shiftr_div_pow2 by lia. change 255 with (Z.ones 8). by rewrite Z.land_ones by lia.
Qed.

Lemma b64_first v val l : 0 <= v < 64 -> exists x, x mod 64 = v /\ base64_loop val (-8) (b64 v :: l) = base64_loop x (-2) l.
Proof. intros Hv. destruct (b64_step v val (-8) l Hv) as (x & Hx & E). exists x. split; [lia|exact E]. Qed.
(** A later character, with [k] bits left over, gives a byte. *)
Lemma b64_next v val c k l : 0 <= v < 64 -> k = 4 \/ k = 2 \/ k = 0 -> byteZ c = val mod 2 ^ (k + 2) * 2 ^ (6 - k) + v / 2 ^ k ->
  exists x, x mod 64 = v /\ base64_loop val (k - 6) (b64 v :: l) = c :: base64_loop x (k - 8) l.
Proof.
  intros Hv Hk Hc. destruct (b64_step v val (k - 6) l Hv) as (x & Hx & E). exists x. split; [lia|].
  rewrite E. replace (k - 6 + 6) with k by lia. replace (0 <=? k) with true by lia.
  f_equal. apply low_byte; [lia|]. rewrite Hc. destruct Hk as [->|[->| ->]].
  - change (2 ^ (4 + 2)) with 64. change (2 ^ (6 - 4)) with 4. change (2 ^ 4) with 16. lia.
  - change (2 ^ (2 + 2)) with 16. change (2 ^ (6 - 2)) with 16. change (2 ^ 2) with 4. lia.
  - change (2 ^ (0 + 2)) with 4. change (2 ^ (6 - 0)) with 64. change (2 ^ 0) with 1. lia.
Qed.
Lemma base64_stop val valb l : base64_loop val valb (ch 61 :: l) = [].
Proof. reflexivity. Qed.

Lemma base64_two a v l val : 0 <= v < 16 ->
  exists x, x mod 16 = v /\ base64_loop val (-8) (b64 (byteZ a / 4) :: b64 (byteZ a mod 4 * 16 + v) :: l) = a :: base64_loop x (-4) l.
Proof.
  intros Hv. pose proof (byteZ_range a).
  destruct (b64_first (byteZ a / 4) val (b64 (byteZ a mod 4 * 16 + v) :: l)) as (x1 & H1 & ->); [lia|].
  destruct (b64_next (byteZ a mod 4 * 16 + v) x1 a 4 l) as (x2 & H2 & E); [lia|tauto| |].
  - change (2 ^ (4 + 2)) with 64. change (2 ^ (6 - 4)) with 4. change (2 ^ 4) with 16. lia.
  - exists x2. split; [lia|exact E].
Qed.
Lemma base64_three a b v l val : 0 <= v < 4 ->
  exists x, x mod 4 = v /\ base64_loop val (-8) (b64 (byteZ a / 4) :: b64 (byteZ a mod 4 * 16 + byteZ b / 16) :: b64 (byteZ b mod 16 * 4 + v) :: l)
            = a :: b :: base64_loop x (-6) l.
Proof.
  intros Hv. pose proof (byteZ_range b).
  destruct (base64_two a (byteZ b / 16) (b64 (byteZ b mod 16 * 4 + v) :: l) val) as (x & Hx & ->); [lia|].
  destruct (b64_next (byteZ b mod 16 * 4 + v) x b 2 l) as (x2 & H2 & E); [lia|tauto| |].
  - change (2 ^ (2 + 2)) with 16. change (2 ^ (6 - 2)) with 16. change (2 ^ 2) with 4. lia.
  - exists x2. split; [lia|]. f_equal. exact E.
Qed.
Lemma base64_decodes l : base64Decode (base64 l) = l.
Proof.
  unfold base64Decode. generalize 0 as val. remember (length l) as n eqn:Hn. revert l Hn.
  induction n as [n IH] using lt_wf_ind. intros [|a [|b [|c l]]] Hn val; cbn [base64]; [done|..].
  - destruct (base64_two a 0 [ch 61; ch 61] val) as (x & _ & E); [lia|]. rewrite Z.add_0_r in E. exact E.
  - destruct (base64_three a b 0 [ch 61] val) as (x & _ & E); [lia|]. rewrite Z.add_0_r in E. exact E.
  - pose proof (byteZ_range c).
    destruct (base64_three a b (byteZ c / 64) (b64 (byteZ c mod 64) :: base64 l) val) as (x & Hx & ->); [lia|].
    destruct (b64_next (byteZ c mod 64) x c 0 (base64 l)) as (x2 & _ & E); [lia|tauto| |].
    + change (2 ^ (0 + 2)) with 4. change (2 ^ (6 - 0)) with 64. change (2 ^ 0) with 1. lia.
    + f_equal. f_equal. change (0 - 6) with (-6) in E. rewrite E. f_equal. apply (IH (length l)); [cbn in Hn; lia|done].
Qed.

(** ** Headers *)
Lemma find_sub_least needle l :
  match find_sub needle l with
  | Some p => is_prefix needle (drop p l) = true /\ forall q, (q < p)%nat -> is_prefix needle (drop q l) = false
  | None => needle <> [] -> forall q, is_prefix needle (drop q l) = false
  end.
Proof.
  induction l as [|c l IH]; cbn [find_sub].
  - destruct needle; cbn; [split; [done|lia]|]. intros _ q. by rewrite drop_nil.
  - destruct (is_prefix needle (c :: l)) eqn:E; [split; [done|lia]|]. destruct (find_sub needle l) as [p|]; cbn.
    + destruct IH as [H1 H2]. split; [done|]. intros [|q] Hq; [done|]. apply H2. lia.
    + intros Hn [|q]; [done|]. by apply IH.
Qed.

(** A position where the header starts *)
Definition at_line_start (L : list ascii) (p : nat) : Prop := p = 0%nat \/ (2 <= p)%nat /\ CString.sub (p - 2) 2 L = crlf.
Definition starts_at (needle L : list ascii) (p : nat) : Prop := is_prefix needle (drop p L) = true /\ at_line_start L p.
Definition first_start (needle L : list ascii) (pos : nat) (r : option nat) : Prop :=
  match r with
  | Some p => (pos <= p)%nat /\ starts_at needle L p /\ forall q, (pos <= q < p)%nat -> ~ starts_at needle L q
  | None => forall q, (pos <= q)%nat -> ~ starts_at needle L q
  end.
Lemma first_start_unique needle L pos r r' : first_start needle L pos r -> first_start needle L pos r' -> r = r'.
Proof.
  destruct r as [p|], r' as [p'|]; cbn; [|intros (?&?&?) Hn; by destruct (Hn p)|intros Hn (?&?&?); by destruct (Hn p')|done].
  intros (H1 & H2 & H3) (H1' & H2' & H3'). destruct (Nat.lt_trichotomy p p') as [Hlt|[->|Hlt]]; [|done|].
  - by destruct (H3' p).
  - by destruct (H3 p').
Qed.
Lemma header_start_first fuel needle L pos : needle <> [] -> (length L + 2 <= fuel + pos)%nat -> (0 < fuel)%nat ->
  exists r, header_start fuel needle L pos = Ok r /\ first_start needle L pos r.
Proof.
  intros Hn. revert pos. induction fuel as [|fuel IH]; intros pos Hf Hpos; [lia|]. cbn [header_start]. unfold find_from.
  destruct (Nat.ltb_spec (length L) pos) as [Hlt|Hle].
  { exists None. split; [done|]. intros q Hq [Hp _]. rewrite drop_ge in Hp by lia. by destruct needle. }
  pose proof (find_sub_least needle (drop pos L)) as Hs. destruct (find_sub needle (drop pos L)) as [d|]; cbn [fmap option_fmap option_map].
  - destruct Hs as [H1 H2]. rewrite drop_drop in H1.
    assert (forall q, (pos <= q < pos + d)%nat -> ~ starts_at needle L q) as Hbefore.
    { intros q Hq [Hp _]. specialize (H2 (q - pos)%nat ltac:(lia)). rewrite drop_drop in H2. replace (pos + (q - pos))%nat with q in H2 by lia. congruence. }
    assert (starts_at needle L (pos + d) <-> ((pos + d =? 0)%nat || (2 <=? pos + d)%nat && bool_decide (CString.sub (pos + d - 2) 2 L = crlf)) = true) as Hq.
    { unfold starts_at, at_line_start. rewrite orb_true_iff, andb_true_iff, Nat.eqb_eq, Nat.leb_le, bool_decide_eq_true. tauto. }
    destruct (_ || _).
    + exists (Some (pos + d)%nat). split; [done|]. split_and!; [lia|by apply Hq|done].
    + assert (pos + d <= length L)%nat as Hd.
      { destruct (Nat.le_gt_cases (pos + d) (length L)); [done|]. rewrite drop_ge in H1 by lia. by destruct needle. }
      destruct (IH (pos + d + 1)%nat) as (r & E & Hr); [lia|lia|]. exists r. split; [exact E|].
      assert (forall q, (pos <= q < pos + d + 1)%nat -> ~ starts_at needle L q) as Hb.
      { intros q Hq'. destruct (decide (q = (pos + d)%nat)) as [->|]; [by rewrite Hq|apply Hbefore; lia]. }
      destruct r as [p|]; cbn in Hr |- *.
      * destruct Hr as (Hp & Hs & Hr). split_and!; [lia|done|]. intros q Hq'. destruct (Nat.lt_ge_cases q (pos + d + 1)); [apply Hb; lia|apply Hr; lia].
      * intros q Hq'. destruct (Nat.lt_ge_cases q (pos + d + 1)); [apply Hb; lia|apply Hr; lia].
  - exists None. split; [done|]. intros q Hq [Hp _]. specialize (Hs Hn (q - pos)%nat). rewrite drop_drop in Hs.
    replace (pos + (q - pos))%nat with q in Hs by lia. congruence.
Qed.

Fixpoint header_block (lines : list (list ascii)) : list ascii :=
  match lines with [] => [] | [l] => l | l :: ls => l ++ crlf ++ header_block ls end.
Fixpoint line_pos (needle : list ascii) (lines : list (list ascii)) : option nat :=
  match lines with
  | [] => None
  | l :: ls => if is_prefix needle l then Some 0%nat else (fun n => (length l + 2 + n)%nat) <$> line_pos needle ls
  end.
Lemma header_block_cons l ls : ls <> [] -> header_block (l :: ls) = l ++ crlf ++ header_block ls.
Proof. by destruct ls. Qed.
Lemma prefix_line needle l r : ch 13 ∉ needle -> is_prefix needle (l ++ crlf ++ r) = is_prefix needle l.
Proof.
  revert l. induction needle as [|c needle IH]; intros l; [by destruct l, r|]. intros [Hc Hn]%not_elem_of_cons.
  destruct l as [|d l]; cbn [app is_prefix]; [|by rewrite IH]. cbn. by destruct (Ascii.eqb_spec c (ch 13)).
Qed.
Lemma sub_crlf L p : CString.sub p 2 L = crlf -> L !! p = Some (ch 13) /\ L !! (p + 1)%nat = Some (ch 10).
Proof.
  unfold CString.sub. intros E. split.
  - rewrite <- (Nat.add_0_r p), <- lookup_drop, <- (lookup_take_lt _ 2) by lia. by rewrite E.
  - rewrite <- lookup_drop, <- (lookup_take_lt _ 2) by lia. by rewrite E.
Qed.
Definition ends_line (pre : list ascii) : Prop := pre = [] \/ exists p, pre = p ++ crlf.
(** Inside a line and its end no line starts. *)
Lemma no_line_start pre l r q : ends_line pre -> ch 13 ∉ l -> (length pre < q <= length pre + length l + 1)%nat ->
  ~ at_line_start (pre ++ l ++ r) q.
Proof.
  intros Hpre Hl Hq [->|[H2 Hs]]; [lia|]. apply sub_crlf in Hs as [Hs _].
  destruct (decide (q = length pre + 1)%nat) as [->|].
  - destruct Hpre as [->|[p ->]]; [cbn in *; lia|]. rewrite length_app in *. change (length crlf) with 2%nat in *.
    rewrite <- app_assoc, lookup_app_r in Hs by lia. replace (length p + 2 + 1 - 2 - length p)%nat with 1%nat in Hs by lia. done.
  - rewrite lookup_app_r, lookup_app_l in Hs by lia. apply Hl. by apply list_elem_of_lookup_2 in Hs.
Qed.
Lemma lines_first needle lines pre : needle <> [] -> ch 13 ∉ needle -> lines <> [] -> Forall (fun l => ch 13 ∉ l) lines -> ends_line pre ->
  first_start needle (pre ++ header_block lines) (length pre) (Nat.add (length pre) <$> line_pos needle lines).
Proof.
  intros Hn Hc. revert pre. induction lines as [|l ls IH]; intros pre Hne Hf Hpre; [done|]. apply Forall_cons in Hf as [Hl Hf].
  assert (exists r, header_block (l :: ls) = l ++ r /\ is_prefix needle (l ++ r) = is_prefix needle l) as (r & Er & Hp).
  { destruct ls as [|l' ls]; [exists []; cbn; by rewrite app_nil_r|]. eexists. split; [by apply header_block_cons|by apply prefix_line]. }
  assert (at_line_start (pre ++ header_block (l :: ls)) (length pre)) as Hstart.
  { destruct Hpre as [->|[p ->]]; [by left|right]. rewrite length_app. change (length crlf) with 2%nat. split; [lia|].
    unfold CString.sub. rewrite <- app_assoc, drop_app_ge by lia. by replace (length p + 2 - 2 - length p)%nat with 0%nat by lia. }
  cbn [line_pos]. destruct (is_prefix needle l) eqn:El; cbn [fmap option_fmap option_map].
  - rewrite Nat.add_0_r. split; [lia|]. split; [|lia]. split; [|done]. rewrite drop_app_length, Er. congruence.
  - assert (forall q, (length pre <= q < length pre + length l + 2)%nat -> ~ starts_at needle (pre ++ header_block (l :: ls)) q) as Hb.
    { intros q Hq [Hq1 Hq2]. destruct (decide (q = length pre)) as [->|]; [rewrite drop_app_length, Er in Hq1; congruence|].
      rewrite Er in Hq2. eapply no_line_start; [exact Hpre|exact Hl| |exact Hq2]. lia. }
    destruct (decide (ls = [])) as [->|Hls].
    + cbn [line_pos fmap option_fmap option_map]. intros q Hq Hs. destruct (Nat.lt_ge_cases q (length pre + length l + 2)); [by eapply Hb|].
      destruct Hs as [Hs _]. cbn in Hs. rewrite drop_ge in Hs by (rewrite length_app; lia). by destruct needle.
    + assert (ends_line (pre ++ l ++ crlf)) as Hpre' by (right; exists (pre ++ l); apply app_assoc).
      specialize (IH (pre ++ l ++ crlf) Hls Hf Hpre').
      rewrite header_block_cons in Hb |- * by done. rewrite <- !app_assoc in IH. rewrite !length_app in IH. change (length crlf) with 2%nat in IH.
      destruct (line_pos needle ls) as [p|]; cbn in IH |- *.
      * destruct IH as (H1 & H2 & H3). replace (length pre + (length l + 2) + p)%nat with (length pre + (length l + 2 + p))%nat in * by lia.
        split_and!; [lia|done|]. intros q Hq. destruct (Nat.lt_ge_cases q (length pre + length l + 2)); [apply Hb; lia|apply H3; lia].
      * intros q Hq. destruct (Nat.lt_ge_cases q (length pre + length l + 2)); [apply Hb; lia|apply IH; lia].
Qed.

Lemma find_crlf l r : ch 13 ∉ l -> find_sub crlf (l ++ crlf ++ r) = Some (length l).
Proof.
  induction l as [|c l IH]; intros Hc; [by destruct r|]. apply not_elem_of_cons in Hc as [Hc Hl]. cbn [app find_sub length].
  rewrite IH by done. cbn [is_prefix crlf]. by destruct (Ascii.eqb_spec (ch 13) c).
Qed.
Lemma find_crlf_none l : ch 13 ∉ l -> find_sub crlf l = None.
Proof.
  induction l as [|c l IH]; intros Hc; [done|]. apply not_elem_of_cons in Hc as [Hc Hl]. cbn [find_sub].
  rewrite IH by done. cbn [is_prefix crlf]. by destruct (Ascii.eqb_spec (ch 13) c).
Qed.
Lemma tolower_return l : ch 13 ∉ l -> ch 13 ∉ map tolower l.
Proof.
  intros Hl (c & E & Hc)%list_elem_of_fmap. apply Hl. enough (c = ch 13) as <- by done.
  assert (forallb (fun v => negb (bool_decide (ch 13 = tolower (charZ v))) || bool_decide (charZ v = ch 13)) (seqZ 0 256) = true) as H
    by (vm_compute; reflexivity).
  rewrite forallb_forall in H. specialize (H (byteZ c)). rewrite <- list_elem_of_In, elem_of_seqZ in H.
  pose proof (byteZ_range c). specialize (H ltac:(lia)). rewrite charZ_byteZ, orb_true_iff, negb_true_iff, bool_decide_eq_false, bool_decide_eq_true in H.
  tauto.
Qed.
Lemma header_block_lower lines : map tolower (header_block lines) = header_block (map (map tolower) lines).
Proof.
  induction lines as [|l [|l' ls] IH]; [done..|]. rewrite header_block_cons by done. cbn [map].
  rewrite (header_block_cons (map tolower l)) by done. cbn [map] in IH. rewrite <- IH, !map_app. reflexivity.
Qed.

(** The first line that is the header *)
Definition find_line (needle : list ascii) (lines : list (list ascii)) : option (list ascii) :=
  snd <$> list_find (fun l => is_prefix needle (map tolower l) = true) lines.
Lemma prefix_length p l : is_prefix p l = true -> (length p <= length l)%nat.
Proof. intros (r & ->)%is_prefix_spec. rewrite length_app. lia. Qed.
Lemma line_found needle lines l : Forall (fun l => ch 13 ∉ l) lines -> find_line needle lines = Some l ->
  exists pre ls, header_block lines = pre ++ header_block (l :: ls) /\ line_pos needle (map (map tolower) lines) = Some (length pre)
    /\ is_prefix needle (map tolower l) = true /\ ch 13 ∉ l.
Proof.
  induction lines as [|l' ls IH]; intros Hf; [done|]. apply Forall_cons in Hf as [Hl Hf]. specialize (IH Hf).
  unfold find_line in *. cbn [list_find map line_pos]. destruct (decide (is_prefix needle (map tolower l') = true)) as [E|E].
  - rewrite E. cbn. intros [= <-]. by exists [], ls.
  - rewrite (not_true_is_false _ E). destruct (list_find _ ls) as [[i l1]|]; cbn [snd fmap option_fmap option_map prod_map] in IH |- *; [|done].
    intros Hs. destruct (IH Hs) as (pre & ls2 & Hb & -> & Hp & Hc). exists (l' ++ crlf ++ pre), ls2.
    split_and!; [|cbn; rewrite length_map, !length_app; f_equal; cbn; lia|done|done].
    destruct ls as [|l2 ls]; [|rewrite (header_block_cons l') by done; by rewrite Hb, <- !app_assoc].
    apply (f_equal length) in Hb. rewrite length_app in Hb. cbn in Hb. destruct ls2; [|rewrite !length_app in Hb; cbn in Hb; lia].
    assert (length l = 0%nat) as Hl0 by lia. apply nil_length_inv in Hl0 as ->. cbn in Hp.
    destruct needle; [|done]. by destruct E; destruct l'.
Qed.
Lemma line_missing needle lines : find_line needle lines = None -> line_pos needle (map (map tolower) lines) = None.
Proof.
  unfold find_line. induction lines as [|l ls IH]; [done|]. cbn [list_find map line_pos].
  destruct (decide (is_prefix needle (map tolower l) = true)) as [E|E]; [done|]. rewrite (not_true_is_false _ E).
  destruct (list_find _ ls) as [[i l1]|]; [done|]. cbn. intros _. by rewrite IH.
Qed.

Section requests.
Context `{JsonLib}.
Context {W : Type} `{RpcWorld W}.

(** A header is the one of its line: for a block of lines of ASCII text, the
    value is what follows the first line that begins with the name, in
    whatever case, and never a piece of another header's value. *)
Theorem header_of_its_line wanted lines : lines <> [] -> Forall (fun l => ch 13 ∉ l) lines ->
  Forall (fun l => forallb (fun c => byteZ c <? 128) l = true) lines -> ch 13 ∉ headers_needle wanted ->
  getHeader (header_block lines) wanted
  = match find_line (headers_needle wanted) lines with
    | Some line => Ok (drop (length (headers_needle wanted)) line)
    | None => Throw (thrown HTTP_BAD_REQUEST (wanted ++ " header not found"))
    end.
Proof.
  intros Hne Hf Hascii Hc. set (needle := headers_needle wanted).
  assert (needle <> []) as Hn by (unfold needle, headers_needle; by destruct (map tolower (chars wanted))).
  assert (existsb (fun c => 128 <=? byteZ c) (header_block lines) = false) as Ha.
  { clear -Hascii. apply not_true_is_false. intros (c & Hin & Hc)%existsb_exists.
    assert (forall c, In c (header_block lines) -> byteZ c < 128) as Hlt; [|specialize (Hlt c Hin); lia]. clear c Hin Hc.
    induction Hascii as [|l ls Hl Hls IH]; [done|]. rewrite forallb_forall in Hl.
    destruct ls as [|l' ls]; [intros c Hin; specialize (Hl c Hin); lia|].
    intros c. rewrite header_block_cons by done. rewrite !in_app_iff. intros [Hin|[Hin|Hin]].
    - specialize (Hl c Hin). lia.
    - destruct Hin as [<-|[<-|[]]]; vm_compute; reflexivity.
    - by apply IH. }
  unfold getHeader. rewrite Ha, header_block_lower. fold needle.
  set (low := map (map tolower) lines).
  destruct (header_start_first (S (S (length (header_block low)))) needle (header_block low) 0) as (r & -> & Hr); [done|lia|lia|].
  assert (r = line_pos needle low) as ->.
  { eapply first_start_unique; [exact Hr|].
    pose proof (lines_first needle low []) as Hl. cbn [app length] in Hl.
    replace (line_pos needle low) with (Nat.add 0 <$> line_pos needle low) by (by destruct (line_pos needle low)).
    apply Hl; [done|done|unfold low; by destruct lines| |by left].
    unfold low. apply Forall_map. eapply Forall_impl; [exact Hf|]. intros l. apply tolower_return. }
  destruct (find_line needle lines) as [l|] eqn:El; [|apply line_missing in El; unfold low; by rewrite El].
  apply line_found in El as (pre & ls & Hb & Hpos & Hp & Hl); [|done]. unfold low. rewrite Hpos. unfold mbind, outcome_bind.
  rewrite <- header_block_lower, Hb. pose proof (prefix_length _ _ Hp) as Hlen. rewrite length_map in Hlen.
  rewrite <- drop_drop, drop_app_length. unfold find_from. rewrite map_app.
  replace (length (map tolower pre ++ map tolower (header_block (l :: ls))) <? length pre)%nat with false
    by (rewrite length_app, length_map; symmetry; apply Nat.ltb_ge; lia).
  rewrite drop_app_length' by by rewrite length_map.
  destruct (decide (ls = [])) as [->|Hls].
  - cbn [header_block]. by rewrite find_crlf_none by by apply tolower_return.
  - rewrite header_block_cons, !map_app by done. change (map tolower crlf) with crlf. rewrite find_crlf by by apply tolower_return.
    cbn [fmap option_fmap option_map]. rewrite length_map. replace (length pre + length l <? length pre + length needle)%nat with false
      by (symmetry; apply Nat.ltb_ge; lia).
    rewrite drop_app_le by lia. rewrite take_app_length'; [done|]. rewrite length_drop. lia.
Qed.

(** Any byte outside ASCII, also of a client that is not authenticated, makes the
    search undefined. *)
Lemma foreign_header_undefined headers wanted c : In c headers -> 128 <= byteZ c -> getHeader headers wanted = UB.
Proof.
  intros Hin Hc. unfold getHeader. replace (existsb _ headers) with true; [done|]. symmetry. apply existsb_exists.
  exists c. split; [done|lia].
Qed.

(** ** Pieces *)
Lemma is_prefix_shorter p l r : (length p <= length l)%nat -> is_prefix p (l ++ r) = is_prefix p l.
Proof. revert l. induction p as [|c p IH]; intros [|d l] Hl; cbn in *; [by destruct r|done|lia|]. by rewrite IH by lia. Qed.
Lemma find_sub_app needle l r p : needle <> [] -> find_sub needle (l ++ r) = Some p ->
  find_sub needle l = Some p \/ find_sub needle l = None /\ (length l < p + length needle)%nat.
Proof.
  intros Hn E. assert (0 < length needle)%nat by (destruct needle; [done|cbn; lia]).
  pose proof (find_sub_least needle (l ++ r)) as Hs. rewrite E in Hs. destruct Hs as [Hs1 Hs2].
  assert ((p + length needle <= length l)%nat -> is_prefix needle (drop p l) = true) as Hp.
  { intros Hle. rewrite drop_app_le in Hs1 by lia. rewrite <- Hs1. symmetry. apply is_prefix_shorter. rewrite length_drop. lia. }
  pose proof (find_sub_least needle l) as Hl. destruct (find_sub needle l) as [q|].
  - left. destruct Hl as [Hl1 Hl2]. pose proof (prefix_length _ _ Hl1) as Hq. rewrite length_drop in Hq.
    destruct (Nat.lt_trichotomy p q) as [Hlt|[->|Hlt]]; [|done|].
    + specialize (Hl2 p Hlt). by rewrite Hp in Hl2 by lia.
    + specialize (Hs2 q Hlt). destruct (Nat.le_gt_cases q (length l)).
      * rewrite drop_app_le in Hs2 by lia. rewrite is_prefix_shorter in Hs2 by (rewrite length_drop; lia). congruence.
      * rewrite (drop_ge l) in Hl1 by lia. destruct needle; [|done]. by destruct (drop q (l ++ r)).
  - right. split; [done|]. destruct (Nat.lt_ge_cases (length l) (p + length needle)) as [|Hge]; [done|].
    specialize (Hp Hge). by rewrite (Hl Hn) in Hp.
Qed.

Lemma read_headers_total fuel acc s : (reads_left s <= fuel)%nat -> fst (read_headers fuel acc s) <> Fuel
  /\ (reads_left (snd (read_headers fuel acc s)) <= reads_left s)%nat.
Proof.
  revert acc s. induction fuel as [|fuel IH]; intros acc s Hf; [unfold reads_left in Hf; lia|]. cbn [read_headers].
  unfold mbind, M_bind, try_catch. destruct (read_some_spec 1024 s) as [[-> _]|(data & s1 & -> & _ & Hl & _)].
  - change ((mret [] : M socket (list ascii)) s) with (Ok (@nil ascii), s). cbv iota beta.
    rewrite bool_decide_eq_true_2 by done. by case_bool_decide.
  - specialize (Hl ltac:(lia)). case_bool_decide; [case_bool_decide; cbn; split; (done || lia)|].
    destruct (find_sub _ (acc ++ data)); [cbn; split; (done || lia)|]. case_match; [cbn; split; (done || lia)|].
    destruct (IH (acc ++ data) s1) as [Hs1 Hs2]; [lia|]. split; [done|lia].
Qed.
Lemma read_body_total fuel remaining acc s : (reads_left s <= fuel)%nat -> fst (read_body fuel remaining acc s) <> Fuel.
Proof.
  revert remaining acc s. induction fuel as [|fuel IH]; intros remaining acc s Hf; [unfold reads_left in Hf; lia|]. cbn [read_body].
  destruct (Z.ltb_spec 0 remaining); [|done]. unfold mbind, M_bind.
  destruct (read_some_spec (Z.to_nat (Z.min remaining 1024)) s) as [[-> _]|(data & s1 & -> & _ & Hl & _)]; [done|].
  apply IH. specialize (Hl ltac:(lia)). lia.
Qed.
Lemma getHeader_total headers wanted : getHeader headers wanted <> Fuel.
Proof.
  unfold getHeader. destruct (existsb _ _); [done|]. set (low := map tolower headers). set (needle := headers_needle wanted).
  assert (needle <> []) as Hn by (unfold needle, headers_needle; by destruct (map tolower (chars wanted))).
  destruct (header_start_first (S (S (length low))) needle low 0 Hn) as (r & -> & _); [lia|lia|].
  unfold mbind, outcome_bind. destruct r; [|done]. destruct (find_from _ _ _); [|done]. by case_match.
Qed.
Lemma stoi_total v : stoi v <> Fuel.
Proof. unfold stoi, sto_signed. destruct (read_sign _) as [n l]. destruct (leading_digits l); [done|]. by case_match. Qed.

Variable cfg : settings.
Lemma basicAuth_total headers : basicAuth cfg headers <> Fuel.
Proof.
  unfold basicAuth. pose proof (getHeader_total headers "Authorization") as Hg. destruct (getHeader _ _); try done. cbn. by case_match.
Qed.
(** Reading a request ends, whatever arrives. *)
Lemma parseRequest_total client : fst (parseRequest cfg client) <> Fuel.
Proof.
  unfold parseRequest. unfold mbind at 1, M_bind at 1, gets. unfold mbind at 1, M_bind at 1.
  pose proof (read_headers_total (reads_left client) [] client) as [Ht Hl]; [lia|].
  destruct (read_headers _ [] client) as [[[r [stop|]]|e| |] s1]; try done.
  unfold mbind at 1, M_bind at 1, lift at 1. pose proof (basicAuth_total (take stop r)) as Hb.
  destruct (basicAuth cfg _) as [[]|e| |]; try done. cbn [negb].
  unfold mbind at 1, M_bind at 1, try_catch, lift. unfold mbind at 1, M_bind at 1.
  pose proof (getHeader_total (take stop r) "Content-Length") as Hg. destruct (getHeader _ "Content-Length") as [v|e| |]; try done.
  pose proof (stoi_total (str v)) as Hv. destruct (stoi (str v)) as [n|e| |]; try done.
  destruct (_ || _); [done|]. unfold mbind at 1, M_bind at 1.
  pose proof (read_body_total (reads_left client) (n - Z.of_nat (length (drop (stop + 4) r))) (drop (stop + 4) r) s1) as Hr.
  destruct (read_body _ _ _ s1) as [[j|e| |] s2]; try done; [by destruct (parseFromStream _)|cbn in *; specialize (Hr ltac:(lia)); done].
Qed.

Definition in_pieces (s : socket) : Prop := Forall (fun p => p <> []) (pieces s).
Lemma read_headers_pieces fuel acc s p : in_pieces s -> (reads_left s <= fuel)%nat ->
  find_sub (crlf ++ crlf) acc = None -> find_sub (crlf ++ crlf) (acc ++ incoming s) = Some p -> (p + 4 <= MAX_HEADERS)%nat ->
  exists r s', read_headers fuel acc s = (Ok (r, Some p), s') /\ r ++ incoming s' = acc ++ incoming s
    /\ find_sub (crlf ++ crlf) r = Some p /\ in_pieces s' /\ (reads_left s' <= reads_left s)%nat.
Proof.
  intros Hp Hf Hacc Hall Hmax. revert acc s Hp Hf Hacc Hall. induction fuel as [|fuel IH]; intros acc s Hp Hf Hacc Hall; [unfold reads_left in Hf; lia|].
  cbn [read_headers]. unfold mbind, M_bind, try_catch.
  destruct (read_some_spec 1024 s) as [[_ He]|(data & s1 & -> & Hin & Hl & _ & Hne)].
  { unfold incoming in Hall. rewrite He, app_nil_r in Hall. congruence. }
  specialize (Hl ltac:(lia)). destruct (Hne Hp) as [Hp1 Hd]. specialize (Hd ltac:(lia)). rewrite bool_decide_eq_false_2 by done.
  rewrite Hin, app_assoc in Hall |- *. destruct (find_sub_app (crlf ++ crlf) (acc ++ data) (incoming s1) p) as [E|[E Hlt]]; [done|done|..]; rewrite E.
  - eexists _, s1. split; [reflexivity|]. split_and!; [done|done|done|lia].
  - change (length (crlf ++ crlf)) with 4%nat in Hlt. replace (MAX_HEADERS <? length (acc ++ data))%nat with false by (symmetry; apply Nat.ltb_ge; lia).
    destruct (IH (acc ++ data) s1) as (r & s' & Er & Hr & Hfr & Hp' & Hl'); [done|lia|done|done|].
    exists r, s'. split_and!; [done|done|done|done|lia].
Qed.
Lemma read_body_pieces fuel acc s : (reads_left s <= fuel)%nat ->
  exists s', read_body fuel (Z.of_nat (length (incoming s))) acc s = (Ok (acc ++ incoming s), s').
Proof.
  revert acc s. induction fuel as [|fuel IH]; intros acc s Hf; [unfold reads_left in Hf; lia|]. cbn [read_body].
  destruct (Z.ltb_spec 0 (Z.of_nat (length (incoming s)))) as [Hpos|Hz].
  - unfold mbind, M_bind. destruct (read_some_spec (Z.to_nat (Z.min (Z.of_nat (length (incoming s))) 1024)) s) as [[_ He]|(data & s1 & -> & Hin & Hl & _)].
    { unfold incoming in Hpos. rewrite He in Hpos. cbn in Hpos. lia. }
    specialize (Hl ltac:(lia)). destruct (IH (acc ++ data) s1) as (s' & E); [lia|]. exists s'. rewrite Hin, length_app, app_assoc, <- E. f_equal. lia.
  - exists s. assert (incoming s = []) as -> by (apply nil_length_inv; lia). by rewrite app_nil_r.
Qed.

(** A request whose header block is accepted is parsed from exactly its body, in
    whatever pieces the bytes come. *)
Lemma request_in_pieces client head value body :
  in_pieces client -> incoming client = head ++ (crlf ++ crlf) ++ body ->
      find_sub (crlf ++ crlf) (incoming client) = Some (length head) -> (length head + 4 <= MAX_HEADERS)%nat ->
      basicAuth cfg head = Ok true -> getHeader head "Content-Length" = Ok value ->
      stoi (str value) = Ok (Z.of_nat (length body)) -> Z.of_nat (length body) <= MAX_BODY ->
      fst (parseRequest cfg client)
      = match parseFromStream (str body) with
        | inl doc => Ok doc
        | inr errs => Throw (thrown RPC_PARSE_ERROR ("JSON parsing error: " ++ errs))
        end.
Proof.
  intros Hp Hin Hfind Hmax Hauth Hlen Hstoi Hbody.
  unfold parseRequest. unfold mbind at 1, M_bind at 1, gets. unfold mbind at 1, M_bind at 1.
  destruct (read_headers_pieces (reads_left client) [] client (length head)) as (r & s1 & -> & Hr & Hfr & _ & Hl1); [done|lia|done|done|done|].
  cbn [app] in Hr. rewrite Hin in Hr.
  apply find_sub_spec in Hfr as (r2 & Hr2).
  assert (r = head ++ (crlf ++ crlf) ++ r2) as ->.
  { rewrite <- (take_drop (length head) r), Hr2. f_equal. apply (f_equal (take (length head))) in Hr.
    rewrite take_app_length in Hr. assert (length head <= length r)%nat as Hle.
    { destruct (Nat.le_gt_cases (length head) (length r)); [done|]. rewrite drop_ge in Hr2 by lia. done. }
    by rewrite take_app_le in Hr. }
  rewrite <- !app_assoc in Hr. do 3 apply app_inv_head in Hr. rewrite take_app_length.
  unfold mbind at 1, M_bind at 1, lift at 1. rewrite Hauth. cbn [negb].
  unfold mbind at 1, M_bind at 1, try_catch, lift. unfold mbind at 1, M_bind at 1. rewrite Hlen, Hstoi.
  replace (_ || _) with false by lia.
  replace (drop (length head + 4) (head ++ (crlf ++ crlf) ++ r2)) with r2 by (by rewrite <- drop_drop, drop_app_length).
  unfold mbind at 1, M_bind at 1. rewrite <- Hr, length_app.
  replace (Z.of_nat (length r2 + length (incoming s1)) - Z.of_nat (length r2)) with (Z.of_nat (length (incoming s1))) by lia.
  destruct (read_body_pieces (reads_left client) r2 s1 Hl1) as (s2 & ->). by destruct (parseFromStream _).
Qed.

(** ** Well-formed requests *)
Lemma find_skip c p l r : c ∉ l -> find_sub (c :: p) (l ++ r) = Nat.add (length l) <$> find_sub (c :: p) r.
Proof.
  induction l as [|d l IH]; intros Hc; [cbn [app length]; by destruct (find_sub (c :: p) r)|]. apply not_elem_of_cons in Hc as [Hc Hl].
  cbn [app find_sub is_prefix]. destruct (Ascii.eqb_spec c d); [done|]. cbn [andb]. rewrite IH by done.
  by destruct (find_sub (c :: p) r).
Qed.
Lemma find_sub_here p r : find_sub p (p ++ r) = Some 0%nat.
Proof. pose proof (is_prefix_app p r) as Hp. destruct (p ++ r); cbn [find_sub]; by rewrite Hp. Qed.
Lemma blank_line_found lines rest : lines <> [] -> Forall (fun l => ch 13 ∉ l /\ l <> []) lines ->
  find_sub (crlf ++ crlf) (header_block lines ++ (crlf ++ crlf) ++ rest) = Some (length (header_block lines)).
Proof.
  change (crlf ++ crlf) with [ch 13; ch 10; ch 13; ch 10].
  induction lines as [|l ls IH]; intros Hne Hf; [done|]. apply Forall_cons in Hf as [[Hl _] Hf].
  destruct ls as [|l2 ls].
  - cbn [header_block]. rewrite find_skip by done. 
    rewrite find_sub_here. cbn [fmap option_fmap option_map]. f_equal. lia.
  - specialize (IH ltac:(done) Hf). apply Forall_cons in Hf as [[Hl2 Hn2] Hf].
    rewrite header_block_cons, <- !app_assoc, find_skip by done.
    assert (exists c r, header_block (l2 :: ls) ++ [ch 13; ch 10; ch 13; ch 10] ++ rest = c :: r /\ c <> ch 13) as (c & r & Er & Hc).
    { destruct l2 as [|c l2]; [done|]. apply not_elem_of_cons in Hl2 as [Hc _].
      destruct ls; eexists c, _; (split; [cbn; reflexivity|congruence]). }
    rewrite Er in IH |- *. unfold crlf. cbn [app].
    assert (find_sub [ch 13; ch 10; ch 13; ch 10] (ch 13 :: ch 10 :: c :: r) = S <$> (S <$> find_sub [ch 13; ch 10; ch 13; ch 10] (c :: r))) as ->.
    { cbn [find_sub]. cbn. by destruct (Ascii.eqb_spec (ch 13) c). }
    rewrite IH. cbn [fmap option_fmap option_map]. f_equal. rewrite length_app. cbn [length]. lia.
Qed.

(** The lines a client sends: ASCII text, not empty, without a line end *)
Definition header_lines (lines : list (list ascii)) : Prop :=
  lines <> [] /\ Forall (fun l => (ch 13 ∉ l /\ l <> []) /\ forallb (fun c => byteZ c <? 128) l = true) lines.
Lemma header_lines_check lines : lines <> [] ->
  forallb (fun l => forallb (fun c => negb (Ascii.eqb (ch 13) c)) l && negb (bool_decide (l = [])) && forallb (fun c => byteZ c <? 128) l) lines = true ->
  header_lines lines.
Proof.
  intros Hne Hf. split; [done|]. rewrite forallb_forall in Hf. apply Forall_forall. intros l Hl%list_elem_of_In.
  specialize (Hf l Hl). rewrite !andb_true_iff, negb_true_iff, bool_decide_eq_false in Hf. destruct Hf as [[Hc Hn] Ha].
  split; [|done]. split; [by apply forallb_not_in|done].
Qed.
Definition credentials : list ascii := chars (_username cfg ++ ":" ++ _password cfg).
Lemma header_value name lines v : header_lines lines -> forallb (fun c => negb (Ascii.eqb (ch 13) c)) (headers_needle name) = true ->
  find_line (headers_needle name) lines = Some (chars name ++ chars ": " ++ v) ->
  getHeader (header_block lines) name = Ok v.
Proof.
  intros [Hne Hf] Hc Hl. rewrite header_of_its_line.
  - rewrite Hl, app_assoc. f_equal. apply drop_app_length'. unfold headers_needle. by rewrite !length_app, length_map.
  - done.
  - eapply Forall_impl; [exact Hf|]. by intros l [[? ?] ?].
  - eapply Forall_impl; [exact Hf|]. by intros l [[? ?] ?].
  - by apply forallb_not_in.
Qed.

(** C23: A well-formed request is understood.  Reading ends on every input.  When a
    client sends lines of ASCII text of at most 64 KiB, with its credentials in
    base64 and the length of its body as the values of the first lines of
    these names, then exactly its body is parsed, in whatever pieces the
    bytes arrive and whatever other headers there are. *)
Theorem request_understood client lines body :
  fst (parseRequest cfg client) <> Fuel
  /\ (in_pieces client -> incoming client = header_block lines ++ (crlf ++ crlf) ++ body -> header_lines lines ->
      (length (header_block lines) + 4 <= MAX_HEADERS)%nat -> Z.of_nat (length body) <= MAX_BODY ->
      find_line (headers_needle "Authorization") lines = Some (chars "Authorization" ++ chars ": " ++ chars "Basic " ++ base64 credentials) ->
      find_line (headers_needle "Content-Length") lines
        = Some (chars "Content-Length" ++ chars ": " ++ chars (int_string (Z.of_nat (length body)))) ->
      fst (parseRequest cfg client)
      = match parseFromStream (str body) with
        | inl doc => Ok doc
        | inr errs => Throw (thrown RPC_PARSE_ERROR ("JSON parsing error: " ++ errs))
        end).
Proof.
  split; [apply parseRequest_total|]. intros Hp Hin Hlines Hmax Hbody Hauth Hlen.
  apply (request_in_pieces client (header_block lines) (chars (int_string (Z.of_nat (length body)))) body); try done.
  - rewrite Hin. apply blank_line_found; [apply Hlines|]. eapply Forall_impl; [apply Hlines|]. by intros l [[? ?] ?].
  - unfold basicAuth. rewrite (header_value "Authorization" _ _ Hlines eq_refl Hauth). cbn [mbind outcome_bind].
    rewrite length_app. change (length (chars "Basic ")) with 6%nat. cbn [Nat.add Nat.ltb Nat.leb]. 
    change (drop 6 (chars "Basic " ++ base64 credentials)) with (base64 credentials). by rewrite base64_decodes, bool_decide_eq_true_2.
  - by apply (header_value _ lines _ Hlines).
  - rewrite str_chars. apply stoi_int_string. change MAX_BODY with 16777216 in Hbody. lia.
Qed.
End requests.

(** *** Witnesses *)
#[local] Existing Instance demo_json.
(** A program that counts the calls that reach it, with one method *)
#[local] Instance demo_world : RpcWorld Z :=
  {| methods m := if String.eqb m "ping" then Some (fun _ w => (Ok (setResult (JInt w) new_Response), w + 1)) else None;
     sendcommand _ _ w := (Ok JNull, w + 100);
     steady_now w := w;
     map_order _ _ := 0;
     error_blob _ := None |}.
Definition demo_settings : settings := mk_settings "me" "secret" 14024 {["ping" := true]} false 16.
Definition demo_server : server (W := Z) := mk_server (-1) new_Cache 7.
Definition demo_lines : list (list ascii) :=
  [chars "POST / HTTP/1.1"; chars "X-Trick: content-length: 9"; chars "Authorization: Basic bWU6c2VjcmV0"; chars "Content-Length: 2"].
Fixpoint cut (fuel n : nat) (l : list ascii) : list (list ascii) :=
  match fuel, l with S f, _ :: _ => take n l :: cut f n (drop n l) | _, _ => [] end.
Definition demo_client : socket :=
  mk_socket (cut 200 3 (header_block demo_lines ++ (crlf ++ crlf) ++ chars "{}")) length_error.

Lemma request_understood_witness :
  fst (parseRequest demo_settings demo_client) = Ok (JObject [("method", JString "ping")]).
Proof.
  destruct (request_understood demo_settings demo_client demo_lines (chars "{}")) as [_ H].
  rewrite H; [vm_compute; reflexivity|..].
  - unfold in_pieces. apply Forall_forall. intros p Hp ->. revert Hp.
    assert (forallb (fun p => negb (bool_decide (p = []))) (pieces demo_client) = true) as Hb by (vm_compute; reflexivity).
    rewrite forallb_forall in Hb. intros Hp%list_elem_of_In. by specialize (Hb _ Hp).
  - vm_compute. reflexivity.
  - apply header_lines_check; vm_compute; [congruence|reflexivity].
  - apply Nat.leb_le. vm_compute. reflexivity.
  - vm_compute. congruence.
  - vm_compute. reflexivity.
  - vm_compute. reflexivity.
Defined.
(** The method is carried out once for an authenticated client, and a method that is
    not in the settings is refused. *)
Lemma guarded_calls_witness : exists r s', handleConnection demo_settings demo_client demo_server = (r, s')
  /\ world s' = 8 /\ _allowRPCDefault s' = -1
  /\ exists s'', executeCall demo_settings "stop" JNull JNull s'
        = (Throw (thrown RPC_FORBIDDEN_BY_SAFE_MODE "stop is forbidden"), s'') /\ unchanged s' s''.
Proof.
  destruct (handleConnection demo_settings demo_client demo_server) as [r s'] eqn:E.
  destruct (guarded_calls demo_settings demo_client demo_server r s') as (_ & _ & H); [by left|exact E|].
  exists r, s'. split; [done|].
  assert (world s' = 8 /\ _allowRPCDefault s' = -1) as [H1 H2].
  { replace s' with (snd (handleConnection demo_settings demo_client demo_server)) by (by rewrite E). vm_compute. by split. }
  split; [exact H1|]. split; [exact H2|]. apply (H "stop"%string JNull JNull). vm_compute. reflexivity.
Defined.
