(* ===== verification/PoolClient.v ===== *)
(** PoolClient: the node's side of a storage pool (src/src/PermanentStoragePool/):
    its settings, the price of an issuance, the walk over the pool's permanent
    list, the answer to a storage challenge, keepalives, and the list of bad
    assets.

    The IPFS node, HTTP, DigiByte Core, the database, the file of settings and
    the clock are members of a class; [W] is their state.  The IPFS node is always
    there.  Logging, with its streaks of failures, and sleeping are not modelled.  The two
    threads of a pool run one turn at a time. *)

From Stdlib Require Import Floats.SpecFloat.
From stdpp Require Import gmap strings.
From S2P Require Import Prelude.
From S2P Require Import BitIOCodec.
From S2P Require Import CString.
From S2P Require Import AssetTypes.
From S2P Require Import ConfigFile.
From S2P Require Import ChainDatabase.
From S2P Require Import PoolDatabase.
From S2P Require Import PoolServer.
From S2P Require Import RpcCache.
From S2P Require Import PoolText.

Class PoolWorld (W : Type) := {
  ipfs_getSize : string -> M W Z;
  ipfs_download : string -> M W string;               (** [callOnDownloadSync] *)
  ipfs_pin : string -> M W unit;
  ipfs_isPinned : string -> M W bool;
  ipfs_catRange : string -> Z -> Z -> M W string;
  ipfs_getPeerId : M W string;
  curl_get : string -> M W (string * Z);              (** the body and the status *)
  curl_post : string -> string -> M W (string * Z);
  curl_postJson : string -> string -> M W (Z * string);
  reader_parse : string -> option json;               (** [Json::Reader] *)
  db_repinPermanent : Z -> M W unit;
  db_removeAssetFromPool : Z -> string -> bool -> M W unit;
  db_removeFromPermanent : Z -> string -> bool -> M W unit;
  db_exchangeRate : M W spec_float;
  (** Core throws a [DigiByteException]. *)
  core_addressesByLabel : string -> M W (list string);
  core_newAddress : string -> M W string;
  core_blockCount : M W Z;
  config_read : M W config;                           (** [Config("config.cfg")] *)
  config_write : config -> M W unit;
  random_code : M W string;
  system_time : M W Z
}.

Inductive pool_kind := mctrivia | digistamp | custompool.
Definition defaultSubscribe (kind : pool_kind) : bool := match kind with mctrivia => true | _ => false end.
Definition DEFAULT_POOL_BASE : string := "https://pool.digistamp.co".
Definition defaultServer (kind : pool_kind) : string := match kind with custompool => "" | _ => DEFAULT_POOL_BASE end.

Inductive Health := Health_Unknown | Health_Ok | Health_Broken.
Record client := mk_client {
  _poolIndex : Z;
  _kind : pool_kind;
  _subscribed : bool;
  _autoRemoveBad : bool;
  _payoutAddress : string;
  _visible : bool;
  _secretCode : string;
  _baseUrl : string;
  _permanentPage : Z;
  _costPercent : Z;
  _minCostUsdCents : Z;
  _badAssets : list string;
  _badFiles : list string;
  _badTime : Z;
  _registrationHealth : Health;
  _permanentFetchHealth : Health;
  _daily : string;
  _poolPayoutsEnabled : bool;
  _poolPayoutsEnabledKnown : bool
}.
(** A pool before it is initialised *)
Definition new_client (kind : pool_kind) : client :=
  mk_client 0 kind true true "" true "" "" 23 100 0 [] [] 0 Health_Unknown Health_Unknown "" false false.

Definition set_subscription (index : Z) (subscribed autoRemove : bool) (c : client) : client :=
  mk_client index (_kind c) subscribed autoRemove (_payoutAddress c) (_visible c) (_secretCode c) (_baseUrl c) (_permanentPage c)
    (_costPercent c) (_minCostUsdCents c) (_badAssets c) (_badFiles c) (_badTime c) (_registrationHealth c) (_permanentFetchHealth c)
    (_daily c) (_poolPayoutsEnabled c) (_poolPayoutsEnabledKnown c).
Definition set_payout (address : string) (c : client) : client :=
  mk_client (_poolIndex c) (_kind c) (_subscribed c) (_autoRemoveBad c) address (_visible c) (_secretCode c) (_baseUrl c) (_permanentPage c)
    (_costPercent c) (_minCostUsdCents c) (_badAssets c) (_badFiles c) (_badTime c) (_registrationHealth c) (_permanentFetchHealth c)
    (_daily c) (_poolPayoutsEnabled c) (_poolPayoutsEnabledKnown c).
Definition set_identity (visible : bool) (secret baseUrl : string) (c : client) : client :=
  mk_client (_poolIndex c) (_kind c) (_subscribed c) (_autoRemoveBad c) (_payoutAddress c) visible secret baseUrl (_permanentPage c)
    (_costPercent c) (_minCostUsdCents c) (_badAssets c) (_badFiles c) (_badTime c) (_registrationHealth c) (_permanentFetchHealth c)
    (_daily c) (_poolPayoutsEnabled c) (_poolPayoutsEnabledKnown c).
Definition set_pricing (percent cents : Z) (c : client) : client :=
  mk_client (_poolIndex c) (_kind c) (_subscribed c) (_autoRemoveBad c) (_payoutAddress c) (_visible c) (_secretCode c) (_baseUrl c)
    (_permanentPage c) percent cents (_badAssets c) (_badFiles c) (_badTime c) (_registrationHealth c) (_permanentFetchHealth c)
    (_daily c) (_poolPayoutsEnabled c) (_poolPayoutsEnabledKnown c).
Definition set_page (page : Z) (c : client) : client :=
  mk_client (_poolIndex c) (_kind c) (_subscribed c) (_autoRemoveBad c) (_payoutAddress c) (_visible c) (_secretCode c) (_baseUrl c) page
    (_costPercent c) (_minCostUsdCents c) (_badAssets c) (_badFiles c) (_badTime c) (_registrationHealth c) (_permanentFetchHealth c)
    (_daily c) (_poolPayoutsEnabled c) (_poolPayoutsEnabledKnown c).
Definition set_bad (assets files : list string) (time : Z) (c : client) : client :=
  mk_client (_poolIndex c) (_kind c) (_subscribed c) (_autoRemoveBad c) (_payoutAddress c) (_visible c) (_secretCode c) (_baseUrl c)
    (_permanentPage c) (_costPercent c) (_minCostUsdCents c) assets files time (_registrationHealth c) (_permanentFetchHealth c)
    (_daily c) (_poolPayoutsEnabled c) (_poolPayoutsEnabledKnown c).
Definition set_health (registration fetch : Health) (daily : string) (enabled known : bool) (c : client) : client :=
  mk_client (_poolIndex c) (_kind c) (_subscribed c) (_autoRemoveBad c) (_payoutAddress c) (_visible c) (_secretCode c) (_baseUrl c)
    (_permanentPage c) (_costPercent c) (_minCostUsdCents c) (_badAssets c) (_badFiles c) (_badTime c) registration fetch daily enabled known.
Definition set_fetchHealth (h : Health) (c : client) : client :=
  set_health (_registrationHealth c) h (_daily c) (_poolPayoutsEnabled c) (_poolPayoutsEnabledKnown c) c.
Definition set_daily (daily : string) (c : client) : client :=
  set_health (_registrationHealth c) (_permanentFetchHealth c) daily (_poolPayoutsEnabled c) (_poolPayoutsEnabledKnown c) c.
Definition set_registration (h : Health) (enabled known : bool) (c : client) : client :=
  set_health h (_permanentFetchHealth c) (_daily c) enabled known c.

Definition exceptionInvalidMetaData : exn := class_exception "DigiAsset::exceptionInvalidMetaData" "DigiAsset Exception: MetaData Invalid".
Definition exceptionCantEnablePSP : exn := class_exception "PermanentStoragePool::exceptionCantEnablePSP" "Permanent Storage Pool Exception: Tried to enable PSP on a transaction that wasn't possible to enable".
Definition exceptionCouldntReport : exn := class_exception "PermanentStoragePool::exceptionCouldntReport" "Permanent Storage Pool Exception: Couldn't report to PSP".

(** ** Text and numbers *)
(** [CurlHandler::post] joins the pairs as they are. *)
Definition post_form (pairs : list (string * string)) : string :=
  foldr (fun kv rest => (kv.1 ++ "=" ++ kv.2 ++ (if String.eqb rest "" then "" else "&" ++ rest))%string) ""%string pairs.
(** [while (back() == '/') pop_back()] *)
Fixpoint drop_slashes (reversed : list ascii) : list ascii :=
  match reversed with c :: l => if byteZ c =? 47 then drop_slashes l else reversed | [] => [] end.
Definition strip_slashes (url : string) : string := str (rev (drop_slashes (rev (chars url)))).
Fixpoint ipfs_prefix (prefix url : list ascii) : outcome bool :=
  match prefix, url with
  | [], _ => Ok true
  | p :: prefix, c :: url => if 128 <=? byteZ c then UB else if Ascii.eqb (tolower c) p then ipfs_prefix prefix url else Ok false
  | _, [] => Ok false
  end.
Definition isIPFSurl (url : string) : outcome bool :=
  if (length (chars url) <? 7)%nat then Ok false
  else
    same ← ipfs_prefix (chars "ipfs://") (chars url);
    Ok (if same : bool then isValidCID (str (drop 7 (chars url))) else false).
(** The whole part of a double, and the conversion to [uint64_t] *)
Definition whole (up : bool) (d : spec_float) : option Z :=
  match d with
  | S754_zero _ => Some 0
  | S754_finite s m e =>
      let n := if s then Z.neg m else Z.pos m in
      Some (if 0 <=? e then n * 2 ^ e else if up then - ((- n) / 2 ^ (- e)) else Z.quot n (2 ^ (- e)))
  | _ => None
  end.
Definition to_uint64 (v : option Z) : outcome Z :=
  match v with Some v => if (0 <=? v) && (v <? two64) then Ok v else UB | None => UB end.
Definition asInt64 `{JsonLib} (v : json) : outcome Z :=
  match v with
  | JNull => Ok 0
  | JBool b => Ok (Z.b2z b)
  | JInt z => if (-9223372036854775808 <=? z) && (z <? 9223372036854775808) then Ok z else Throw (json_error not_convertible)
  | JReal d => match to_int64 d with Ok z => Ok z | _ => Throw (json_error not_convertible) end
  | _ => Throw (json_error not_convertible)
  end.
(** [value.get(name, fallback)] *)
Definition get_or `{JsonLib} (name : string) (fallback v : json) : outcome json :=
  has ← isMember name v;
  if has : bool then member name v else Ok fallback.
(** The values that [begin()] to [end()] gives *)
Definition elements (v : json) : list json := match v with JArray l => l | JObject l => map snd l | _ => [] end.

Section pool_client.
Context `{JsonLib}.
Context {W : Type} `{PoolWorld W}.

Record node := mk_node { pool : client; outside : W }.
Definition on_outside {A} (m : M W A) : M node A := fun n => let '(r, w) := m (outside n) in (r, mk_node (pool n) w).
Definition on_pool (f : client -> client) : M node unit := modify (fun n => mk_node (f (pool n)) (outside n)).
Definition the {A} (f : client -> A) : M node A := gets (fun n => f (pool n)).

Definition configPrefix (c : client) : string := "psp" ++ int_string (_poolIndex c).
Definition getURL (c : client) : string := if String.eqb (_baseUrl c) "" then defaultServer (_kind c) else _baseUrl c.

(** ** Price *)
Definition applyPricing (baseCost : Z) (exchangeRate : spec_float) (c : client) : outcome Z :=
  cost ← to_uint64 (whole false (dmul (dbl baseCost) (ddiv (dbl (_costPercent c)) (dbl 100))));
  if 0 <? _minCostUsdCents c then
    if dlt (dbl 0) exchangeRate then
      minSat ← to_uint64 (whole true (dmul (ddiv (dbl (_minCostUsdCents c)) (dbl 100)) exchangeRate));
      Ok (Z.max cost minSat)
    else Ok cost
  else Ok cost.
Definition url_size (obj : json) (size : Z) : M node Z :=
  name ← lift (member_or_null "name" obj);
  url ← lift (match name with JString _ => member_or_null "url" obj | _ => Ok JNull end);
  match url with
  | JString url =>
      ok ← lift (isIPFSurl url);
      if negb ok then throw exceptionCantEnablePSP
      else try_catch (n ← on_outside (ipfs_getSize (str (drop 7 (chars url)))); mret (u64 (size + n))) (fun _ => mret size)
  | _ => mret size
  end.
Fixpoint urls_size (urls : list json) (size : Z) : M node Z :=
  match urls with [] => mret size | obj :: urls => size ← url_size obj size; urls_size urls size end.
Definition metadata_urls (metadata : json) : outcome (list json) :=
  data ← member_or_null "data" metadata;
  match data with
  | JObject _ =>
      urls ← member_or_null "urls" data;
      match urls with JArray l => Ok l | _ => Throw exceptionInvalidMetaData end
  | _ => Throw exceptionInvalidMetaData
  end.
(** [cid] is that of the asset the transaction issues, [None] when it issues none. *)
Definition getCost (cid : option string) : M node Z :=
  match cid with
  | None => mret 0
  | Some cid =>
      size ← try_catch (n ← on_outside (ipfs_getSize cid); mret (Some n)) (fun _ => mret None);
      match size with
      | None => mret 0
      | Some size =>
          text ← on_outside (ipfs_download cid);
          match parseFromStream text with
          | inr _ => throw exceptionInvalidMetaData
          | inl metadata =>
              urls ← lift (metadata_urls metadata);
              size ← urls_size urls size;
              exchangeRate ← on_outside db_exchangeRate;
              baseCost ← lift (to_uint64 (whole true (ddiv (dmul (dmul (dbl size) (dlit 12 10)) exchangeRate) (dbl 1000000))));
              c ← the id;
              lift (applyPricing baseCost exchangeRate c)
          end
      end
  end.

Definition outputAddress : string := "dgb1qjnzadu643tsfzjqjydnh06s9lgzp3m4sg3j68x".
(** The output that the transaction is given; [outputs] are the addresses it pays already. *)
Definition enable (cid : option string) (outputs : list string) : M node (string * Z) :=
  match cid with
  | None => throw exceptionCantEnablePSP
  | Some _ =>
      cost ← getCost cid;
      if existsb (String.eqb outputAddress) outputs then throw exceptionCantEnablePSP
      else mret (outputAddress, Z.max cost DIGIBYTE_DUST)
  end.

(** ** Settings *)
Definition persist (f : config -> config) : M node unit :=
  try_catch (c ← on_outside config_read; on_outside (config_write (f c))) (fun _ => mret tt).
Definition _setConfig (config : ConfigFile.config) : M node unit :=
  prefix ← the configPrefix;
  kind ← the _kind;
  visible ← lift (getBool_default (prefix ++ "visible") true config);
  let baseUrl := strip_slashes (getString_default (prefix ++ "server") (defaultServer kind) config) in
  let secret := getString_default (prefix ++ "secret") "" config in
  on_pool (set_identity visible secret baseUrl);;
  (if String.eqb secret "" then
     secret ← on_outside random_code;
     on_pool (set_identity visible secret baseUrl);;
     persist (setString (prefix ++ "secret") secret)
   else mret tt);;
  page ← lift (getInteger_default (prefix ++ "permanentpage") 23 config);
  on_pool (set_page (u32 page));;
  percent ← lift (getInteger_default (prefix ++ "costpercent") 100 config);
  cents ← the _minCostUsdCents;
  on_pool (set_pricing (Z.max 0 percent) cents);;
  mincents ← lift (getInteger_default (prefix ++ "mincostcents") 0 config);
  on_pool (set_pricing (Z.max 0 percent) (Z.max 0 mincents)).
Definition resolve_payout (payout : string) : M node unit :=
  on_pool (set_payout payout);;
  match chars payout with
  | c :: _ =>
      if byteZ c =? 95 then
        address ← try_catch
          (addresses ← on_outside (core_addressesByLabel payout);
           match addresses with a :: _ => mret a | [] => undefined end)
          (fun _ => on_outside (core_newAddress payout));
        on_pool (set_payout address)
      else mret tt
  | [] => mret tt
  end.
(** Without starting the threads *)
Definition setPoolIndexAndInitialize (index : Z) (config : ConfigFile.config) : M node unit :=
  let prefix := ("psp" ++ int_string index)%string in
  on_pool (fun c => set_subscription index (_subscribed c) (_autoRemoveBad c) c);;
  kind ← the _kind;
  subscribed ← lift (getBool_default (prefix ++ "subscribe") (defaultSubscribe kind) config);
  on_pool (fun c => set_subscription index subscribed (_autoRemoveBad c) c);;
  autoRemove ← lift (getBool_default (prefix ++ "autoremovebad") true config);
  on_pool (set_subscription index subscribed autoRemove);;
  if negb subscribed then mret tt
  else
    resolve_payout (getString_default (prefix ++ "payout") "_psppayout" config);;
    on_outside (db_repinPermanent index);;
    _setConfig config.

(** ** The permanent list *)
Definition pin_or_fail (cid : string) : M node unit := try_catch (on_outside (ipfs_pin cid)) (fun _ => mret tt).
Definition pin_value (v : json) : M node unit :=
  match v with JString cid => if String.eqb cid "" then mret tt else pin_or_fail cid | _ => mret tt end.
Definition pin_list (cidList : json) : M node unit :=
  match cidList with JArray l => for_each l pin_value | _ => mret tt end.
Definition page_url (page : Z) (c : client) : string := _baseUrl c ++ "/permanent/" ++ int_string page ++ ".json".
Definition fetchAndPinPermanentPage (page : Z) : M node bool :=
  url ← the (page_url page);
  reply ← try_catch (r ← on_outside (curl_get url); mret (Some r)) (fun _ => mret None);
  match reply with
  | None => on_pool (set_fetchHealth Health_Broken);; mret false
  | Some (body, status) =>
      match (if 500 <=? status then None else reader_parse body) with
      | None => on_pool (set_fetchHealth Health_Broken);; mret false
      | Some root =>
          failed ← lift (isMember "error" root);
          if failed : bool then
            error ← lift (member "error" root);
            lift (asString error);;
            on_pool (set_fetchHealth Health_Broken);; mret false
          else
            daily ← lift (member_or_null "daily" root);
            match daily with JString d => on_pool (set_daily d) | _ => mret tt end;;
            changes ← lift (member_or_null "changes" root);
            match changes with JObject l => for_each (map snd l) pin_list | _ => mret tt end;;
            on_pool (set_fetchHealth Health_Ok);;
            done ← lift (member_or_null "done" root);
            mret (match done with JBool b => b | _ => false end)
      end
  end.
(** One turn of [permanentFetcherTask] *)
Definition advance_page : M node unit :=
  page ← the _permanentPage;
  let page := u32 (page + 1) in
  on_pool (set_page page);;
  prefix ← the configPrefix;
  persist (setInteger (prefix ++ "permanentpage") (i32 page)).
Definition fetch_turn : M node unit :=
  try_catch
    (page ← the _permanentPage;
     done ← fetchAndPinPermanentPage page;
     if done : bool then advance_page else mret tt)
    (fun _ => on_pool (set_fetchHealth Health_Broken)).

Definition list_body (height : Z) (peerId payout secret : string) : string :=
  let field name v := if String.eqb v "" then ""%string else ("," ++ quoted name ++ ":" ++ quoted v)%string in
  "{" ++ quoted "height" ++ ":" ++ int_string (u32 (height + 1)) ++ "," ++ quoted "version" ++ ":5," ++ quoted "show" ++ ":true"
  ++ field "peerId"%string peerId ++ field "payout"%string payout ++ field "secret"%string secret ++ "}".
Definition payouts_reported (reply : string) : outcome bool :=
  match reader_parse reply with
  | None => Ok false
  | Some root => enabled ← member_or_null "payoutsEnabled" root; Ok (match enabled with JBool b => b | _ => false end)
  end.
Definition probeListEndpoint : M node unit :=
  height ← try_catch (on_outside core_blockCount) (fun _ => mret 23301643);
  peerId ← try_catch (on_outside ipfs_getPeerId) (fun _ => mret ""%string);
  c ← the id;
  let url := (_baseUrl c ++ "/list/" ++ int_string (height / 100000 * 100000) ++ ".json")%string in
  reply ← try_catch (r ← on_outside (curl_postJson url (list_body height peerId (_payoutAddress c) (_secretCode c))); mret (Some r))
            (fun _ => mret None);
  match reply with
  | None => on_pool (set_registration Health_Broken (_poolPayoutsEnabled c) (_poolPayoutsEnabledKnown c))
  | Some (status, body) =>
      if (200 <=? status) && (status <? 300) then
        enabled ← lift (payouts_reported body);
        on_pool (set_registration Health_Ok enabled true)
      else on_pool (set_registration Health_Broken false false)
  end.

(** ** Storage challenges *)
Record question := mk_question { q_id : string; q_cid : string; q_offset : Z; q_length : Z }.
(** What a reply asks, when it asks something that is answered at all *)
Definition challenge_in (reply : string) : outcome (option question) :=
  match parseFromStream reply with
  | inr _ => Ok None
  | inl root =>
      c ← member "challenge" root;
      match c with
      | JObject _ =>
          id ← (v ← get_or "id" (JString "") c; asString v);
          cid ← (v ← get_or "cid" (JString "") c; asString v);
          offset ← (v ← get_or "offset" (JInt (-1)) c; asInt64 v);
          length ← (v ← get_or "length" (JInt 0) c; asInt64 v);
          Ok (if String.eqb id "" || negb (isValidCID cid) || (offset <? 0) || (length <=? 0) || (1024 * 1024 <? length)
              then None else Some (mk_question id cid offset length))
      | _ => Ok None
      end
  end.
Definition proof_form (q : question) (peerId secret bytes : string) : string :=
  post_form [("id"%string, q_id q); ("peerId"%string, peerId); ("secret"%string, secret); ("sha256"%string, sha256_hex bytes)].
Definition answerStorageChallenge (reply peerId : string) : M node unit :=
  try_catch
    (asked ← lift (challenge_in reply);
     match asked with
     | None => mret tt
     | Some q =>
         pinned ← on_outside (ipfs_isPinned (q_cid q));
         if negb pinned then mret tt
         else
           bytes ← on_outside (ipfs_catRange (q_cid q) (q_offset q) (q_length q));
           c ← the id;
           on_outside (curl_post (_baseUrl c ++ "/proof") (proof_form q peerId (_secretCode c) bytes));;
           mret tt
     end)
    (fun _ => mret tt).

(** ** Bad assets *)
Definition reportAssetBad_internal (assetId : string) : M node unit :=
  c ← the id; on_outside (db_removeAssetFromPool (_poolIndex c) assetId (_autoRemoveBad c)).
Definition reportFileBad_internal (cid : string) : M node unit :=
  c ← the id; on_outside (db_removeFromPermanent (_poolIndex c) cid (_autoRemoveBad c)).
Definition learn_asset (value : json) : M node unit :=
  assetId ← lift (asString value);
  known ← the _badAssets;
  if bool_decide (assetId ∈ known) then mret tt
  else reportAssetBad_internal assetId;; on_pool (fun c => set_bad (_badAssets c ++ [assetId]) (_badFiles c) (_badTime c) c).
Definition learn_file (value : json) : M node unit :=
  cid ← lift (asString value);
  known ← the _badFiles;
  if bool_decide (cid ∈ known) then mret tt
  else reportFileBad_internal cid;; on_pool (fun c => set_bad (_badAssets c) (_badFiles c ++ [cid]) (_badTime c) c).
Definition updateBadList : M node unit :=
  now ← on_outside system_time;
  on_pool (fun c => set_bad (_badAssets c) (_badFiles c) (u32 now) c);;
  try_catch
    (url ← the (fun c => (_baseUrl c ++ "/bad.json")%string);
     reply ← on_outside (curl_get url);
     match reader_parse (fst reply) with
     | None => mret tt
     | Some root =>
         assets ← lift (member "assets" root);
         for_each (elements assets) learn_asset;;
         cids ← lift (member "cids" root);
         for_each (elements cids) learn_file
     end)
    (fun _ => mret tt).
Definition isAssetBad (assetId : string) : M node bool :=
  now ← on_outside system_time;
  badTime ← the _badTime;
  (if 1200 <? u32 (now - badTime) then updateBadList else mret tt);;
  bad ← the _badAssets;
  mret (bool_decide (assetId ∈ bad)).

(** ** Calls of the pool server *)
Inductive ServerCalls := KEEP_ALIVE | UNSUBSCRIBE | REPORT.
Definition expectedOk : string := "unsubscribe failed will time out anyways".
Definition callServer (command : ServerCalls) (extra : string) : M node unit :=
  c ← the id;
  let commandStr := match command with UNSUBSCRIBE => "unsubscribe" | KEEP_ALIVE => "keepalive" | REPORT => "report" end%string in
  let address := match command with KEEP_ALIVE => _payoutAddress c | _ => "NA"%string end in
  peerId ← on_outside ipfs_getPeerId;
  let url := (_baseUrl c ++ "/" ++ commandStr ++ (if String.eqb extra "" then "" else "/" ++ extra))%string in
  reply ← on_outside (curl_post url
    (post_form [("address"%string, address); ("peerId"%string, peerId); ("secret"%string, _secretCode c);
                ("visible"%string, (if _visible c then "v" else "h")%string)]));
  match command with
  | KEEP_ALIVE => if contains (chars expectedOk) (chars (fst reply)) then answerStorageChallenge (fst reply) peerId else mret tt
  | _ => mret tt
  end;;
  updateBadList.
(** One turn of [keepAliveTask] *)
Definition keepalive_turn : M node unit := try_catch (callServer KEEP_ALIVE "") (fun _ => mret tt).
Definition report (what : string) : M node unit :=
  try_catch (callServer REPORT what) (fun _ => throw exceptionCouldntReport).
Definition reportAssetBad (assetId : string) (internalOnly : bool) : M node unit :=
  c ← the id;
  on_outside (db_removeAssetFromPool (_poolIndex c) assetId (negb internalOnly || _autoRemoveBad c));;
  if internalOnly then mret tt else report assetId.
Definition reportFileBad (cid : string) (internalOnly : bool) : M node unit :=
  c ← the id;
  on_outside (db_removeFromPermanent (_poolIndex c) cid (negb internalOnly || _autoRemoveBad c));;
  if internalOnly then mret tt else report cid.
End pool_client.
