(* ===== verification/PoolClientTheorems.v ===== *)
(** PoolClientTheorems: the node and the pool together.  A node that stores what
    it was given passes every storage challenge (PoolClient against PoolServer);
    what its list of bad assets, its walk over the permanent list and its
    settings promise. *)

From Stdlib Require Import Floats.SpecFloat.
From stdpp Require Import gmap strings.
From S2P Require Import Prelude.
From S2P Require Import BitIOCodec.
From S2P Require Import CString.
From S2P Require Import BitIOText.
From S2P Require Import Sql.
From S2P Require Import Blob.
From S2P Require Import SHA256.
From S2P Require Import StoragePlan.
From S2P Require Import ConfigFile.
From S2P Require Import ChainDatabase.
From S2P Require Import PoolDatabase.
From S2P Require Import PoolText.
From S2P Require Import PoolServer.
From S2P Require Import PoolTheorems.
From S2P Require Import PoolDiscoveryTheorems.
From S2P Require Import RpcCache.
From S2P Require Import PoolClient.
From S2P Require Import ConfigTheorems.

(** ** A form arrives as it was sent

    [CurlHandler::post] escapes nothing, so this needs text without the
    characters that mean something in a form. *)
Definition form_safe (c : ascii) : bool := negb (bool_decide (byteZ c ∈ [0; 37; 38; 43; 61])).
Definition plain (s : string) : bool := forallb form_safe (chars s).

Lemma form_safe_spec c : form_safe c = true -> byteZ c <> 0 /\ byteZ c <> 37 /\ byteZ c <> 38 /\ byteZ c <> 43 /\ byteZ c <> 61.
Proof. unfold form_safe. rewrite negb_true_iff, bool_decide_eq_false. set_solver. Qed.
Lemma plain_cons c l : forallb form_safe (c :: l) = true -> form_safe c = true /\ forallb form_safe l = true.
Proof. apply andb_true_iff. Qed.
Lemma plain_c_str s : plain s = true -> c_str s = s.
Proof.
  intros H. apply c_str_keeps. unfold plain in H. rewrite forallb_forall in *. intros c Hc.
  destruct (form_safe_spec c (H c Hc)) as [H0 _]. by rewrite (proj2 (Z.eqb_neq _ _) H0).
Qed.
Lemma plain_free l v : forallb form_safe l = true -> v ∈ [38; 61] -> ch v ∉ l.
Proof.
  intros H Hv Hin%list_elem_of_In. rewrite forallb_forall in H. specialize (H _ Hin). revert H.
  repeat (apply elem_of_cons in Hv as [->|Hv]; [by vm_compute|]). by apply elem_of_nil in Hv.
Qed.
Lemma urlDecode_plain l : forallb form_safe l = true -> urlDecode l = l.
Proof.
  induction l as [|c l IH]; intros H; [done|]. apply plain_cons in H as [(_ & H37 & _ & H43 & _)%form_safe_spec Hl].
  cbn [urlDecode]. rewrite (proj2 (Z.eqb_neq _ _) H43), (proj2 (Z.eqb_neq _ _) H37). cbn [andb].
  rewrite (IH Hl). by destruct l as [|? []].
Qed.

Definition plain_pair (kv : string * string) : Prop := kv.1 <> ""%string /\ plain kv.1 = true /\ plain kv.2 = true.
Lemma post_form_cons k v pairs :
  Forall plain_pair pairs ->
  chars (post_form ((k, v) :: pairs))
  = (chars k ++ ch 61 :: chars v) ++ match pairs with [] => [] | _ :: _ => ch 38 :: chars (post_form pairs) end.
Proof.
  intros Hp. change (post_form ((k, v) :: pairs)) with
    (k ++ "=" ++ v ++ (if String.eqb (post_form pairs) "" then "" else "&" ++ post_form pairs))%string.
  rewrite !chars_app, <- app_assoc. change (chars "=") with [ch 61]. cbn [app]. do 3 f_equal.
  destruct pairs as [|[k' v'] pairs]; [done|]. apply Forall_cons in Hp as [(Hk & _) _]. cbn [fst] in Hk.
  destruct (String.eqb_spec (post_form ((k', v') :: pairs)) "") as [E|_]; [|by rewrite chars_app].
  destruct k'; [done|discriminate E].
Qed.
Lemma form_pair_plain k v out :
  plain k = true -> plain v = true -> form_pair (chars k ++ ch 61 :: chars v) out = <[k := v]> out.
Proof.
  intros Hk Hv. unfold form_pair. rewrite split_at_stop by (apply plain_free; [done|set_solver]).
  by rewrite !urlDecode_plain, !str_chars.
Qed.
Lemma split_at_free c l : c ∉ l -> split_at c l = (l, None).
Proof.
  induction l as [|d l IH]; cbn; [done|]. intros [H1 H2]%not_elem_of_cons.
  by rewrite (proj2 (Ascii.eqb_neq _ _) H1), (IH H2).
Qed.
Lemma parse_pairs_one fuel kv out :
  kv <> [] -> ch 38 ∉ kv -> parse_pairs (S fuel) kv out = form_pair kv out.
Proof. intros Hn Hkv. destruct kv; [done|]. cbn [parse_pairs]. by rewrite split_at_free. Qed.
Lemma parse_pairs_more fuel kv rest out :
  ch 38 ∉ kv -> parse_pairs (S fuel) (kv ++ ch 38 :: rest) out = parse_pairs fuel rest (form_pair kv out).
Proof.
  intros Hkv. pose proof (split_at_stop (ch 38) kv rest Hkv) as E.
  destruct (kv ++ ch 38 :: rest) eqn:El; [by destruct kv|]. cbn [parse_pairs]. by rewrite E.
Qed.
Lemma parse_pairs_form pairs : forall fuel out,
  Forall plain_pair pairs -> (length (chars (post_form pairs)) <= fuel)%nat ->
  parse_pairs fuel (chars (post_form pairs)) out = foldl (fun out kv => <[kv.1 := kv.2]> out) out pairs.
Proof.
  induction pairs as [|[k v] pairs IH]; intros fuel out Hp Hf; [by destruct fuel|].
  apply Forall_cons in Hp as [(Hk & Pk & Pv) Hp]. cbn [fst snd] in *. rewrite post_form_cons in * by done.
  assert (ch 38 ∉ chars k ++ ch 61 :: chars v) as Hfree.
  { rewrite not_elem_of_app, not_elem_of_cons. split_and!; try (apply plain_free; [done|set_solver]). by vm_compute. }
  rewrite !length_app in Hf. cbn [length] in Hf. destruct fuel as [|fuel]; [lia|]. destruct pairs as [|[k' v'] pairs].
  - rewrite app_nil_r, parse_pairs_one, form_pair_plain by (try done; by destruct (chars k)). done.
  - rewrite parse_pairs_more, form_pair_plain by done. cbn [length] in Hf. rewrite IH by (done || lia). done.
Qed.
(** What the server finds under a name the client sent. *)
Lemma form_received pairs :
  Forall plain_pair pairs ->
  parseFormBody (post_form pairs) = foldl (fun out kv => <[kv.1 := kv.2]> out) (∅ : gmap string string) pairs.
Proof. intros H. by apply parse_pairs_form. Qed.

(** ** A hash compares equal to itself *)
Lemma hex_digit_in v : hex_digit v ∈ hexmap.
Proof.
  unfold hex_digit. destruct (nth_in_or_default (Z.to_nat v) hexmap "0"%char) as [H| ->]; [by apply list_elem_of_In|].
  by vm_compute; left.
Qed.
Lemma toHex_chars b c : c ∈ chars (Blob.toHex b) -> c ∈ hexmap.
Proof.
  unfold Blob.toHex. rewrite chars_str. intros Hc%list_elem_of_In. apply in_concat in Hc as (l & Hl & Hc).
  apply in_map_iff in Hl as (v & <- & _). destruct Hc as [<-|[<-|[]]]; apply hex_digit_in.
Qed.
Lemma toHex_length b : length (chars (Blob.toHex b)) = (2 * length b)%nat.
Proof. unfold Blob.toHex. rewrite chars_str. induction b; cbn in *; lia. Qed.
Lemma hexmap_good (p : ascii -> bool) b : forallb p hexmap = true -> forallb p (chars (Blob.toHex b)) = true.
Proof.
  rewrite !forallb_forall. intros H c Hc. apply H, list_elem_of_In, (toHex_chars b), list_elem_of_In, Hc.
Qed.
Lemma filter_all {A} (p : A -> bool) l : forallb p l = true -> List.filter p l = l.
Proof. induction l as [|a l IH]; cbn; [done|]. intros [-> H]%andb_true_iff. by rewrite IH. Qed.
Lemma sha256_hex_plain bytes : plain (sha256_hex bytes) = true.
Proof. apply hexmap_good. by vm_compute. Qed.
Lemma sameHash_self bytes : sameHash (sha256_hex bytes) (sha256_hex bytes) = true.
Proof.
  unfold sameHash, sha256_hex. rewrite bool_decide_true, andb_true_r by done.
  rewrite filter_all by (apply hexmap_good; by vm_compute). by rewrite length_map, toHex_length.
Qed.

(** ** The pool accepts the proof *)
Section proof.
Context {HK : Kubo} (cfg : server_config).

(** The database after the pool judged the answer to [r] *)
Definition after_pass (r : challenge_row) (now : Z) (d : pool_db) : pool_db :=
  on_nodes (update_where (is_node (ch_peerId r))
              (fun m => set_proof (nextProofScore (nr_proofScore m) true) (nr_proofAnswered m + 1) m))
    (on_challenges (update_where (fun x => String.eqb (ch_id x) (ch_id r)) (fun x => judge (Some true) (answer now x))) d).

Lemma update_where_twice {R} (p q : R -> bool) (f g : R -> R) l :
  update_where q g (update_where p f l) = map (fun r => let r := if p r then f r else r in if q r then g r else r) l.
Proof. unfold update_where. by rewrite map_map. Qed.

Lemma claim_open (d : pool_db) fl r now :
  challenges_ok (d, fl) -> r ∈ p_challenges d -> unanswered r = true -> now - CHALLENGE_DEADLINE_SECONDS <= ch_issuedAt r ->
  c_str (ch_id r) = ch_id r -> c_str (ch_peerId r) = ch_peerId r ->
  claimChallenge (ch_id r) (ch_peerId r) now d
  = (Ok (Some (readChallenge r)),
     on_challenges (update_where (fun x => String.eqb (ch_id x) (ch_id r) && unanswered x) (answer now)) d).
Proof.
  intros H Hr Hu Ht Hi Hp. pose proof (ids_distinct _ H) as Hn. cbn in Hn.
  unfold claimChallenge, mbind, M_bind, get, modify, mret, M_ret. rewrite Hi, Hp.
  rewrite (select_by_key ch_id (p_challenges d) r) by
    (first [done|by rewrite !String.eqb_refl, Hu, (proj2 (Z.leb_le _ _) Ht)|intros x; rewrite !andb_true_iff, String.eqb_eq; by intros [[[-> _] _] _]]).
  rewrite (select_by_key ch_id (p_challenges d) r) by
    (first [done|by rewrite String.eqb_refl, Hu|intros x; rewrite andb_true_iff, String.eqb_eq; by intros [-> _]]).
  done.
Qed.

Lemma verdict_recorded (d : pool_db) fl r now :
  challenges_ok (d, fl) -> r ∈ p_challenges d -> unanswered r = true ->
  c_str (ch_id r) = ch_id r -> c_str (ch_peerId r) = ch_peerId r ->
  recordProofResult (ch_id r) (ch_peerId r) true
    (on_challenges (update_where (fun x => String.eqb (ch_id x) (ch_id r) && unanswered x) (answer now)) d)
  = (Ok tt, after_pass r now d).
Proof.
  intros H Hr Hu Hi Hp. pose proof (ids_distinct _ H) as Hn. cbn in Hn.
  pose proof (open_no_verdict _ H r Hr Hu) as Hv.
  set (claimed := update_where (fun x => String.eqb (ch_id x) (ch_id r) && unanswered x) (answer now) (p_challenges d)).
  assert (answer now r ∈ claimed) as Hin.
  { apply elem_of_update. exists r. split; [done|]. by rewrite String.eqb_refl, Hu. }
  unfold recordProofResult, update_node, mbind, M_bind, get, modify. cbn [fst snd on_challenges p_challenges]. fold claimed.
  rewrite Hi, (select_by_key ch_id claimed (answer now r)).
  - change (count [answer now r] =? 1) with true. cbn [negb]. f_equal. unfold after_pass, on_nodes, on_challenges.
    cbn -[dbl]. rewrite Hp. f_equal.
    unfold claimed. rewrite update_where_twice. unfold update_where. apply map_ext_in.
    intros x Hx%list_elem_of_In. destruct (String.eqb_spec (ch_id x) (ch_id r)) as [E|E].
    + rewrite (row_unique _ r x Hn Hr Hx E), Hu. cbn. rewrite !String.eqb_refl. by change (no_verdict (answer now r)) with (no_verdict r); rewrite Hv.
    + cbn. by rewrite (proj2 (String.eqb_neq _ _) E).
  - unfold claimed. by rewrite update_ids.
  - done.
  - cbn. rewrite Hp, !String.eqb_refl. done.
  - intros x. rewrite !andb_true_iff, String.eqb_eq. by intros [[-> _] _].
Qed.

(** The form a node with the file posts *)
Definition honest_form (r : challenge_row) (secret bytes : string) : string :=
  proof_form (mk_question (ch_id r) (ch_cid r) (ch_offset r) (ch_length r)) (ch_peerId r) secret bytes.
Lemma honest_form_read r secret bytes :
  plain (ch_id r) = true -> plain (ch_peerId r) = true -> plain secret = true ->
  let form := parseFormBody (honest_form r secret bytes) in
  form !! "id"%string = Some (ch_id r) /\ form !! "peerId"%string = Some (ch_peerId r)
  /\ form !! "secret"%string = Some secret /\ form !! "sha256"%string = Some (sha256_hex bytes).
Proof.
  intros Hi Hp Hs. cbv zeta. unfold honest_form, proof_form. cbn [q_id]. rewrite form_received.
  - cbn [foldl fst snd]. split_and!; by simplify_map_eq.
  - pose proof (sha256_hex_plain bytes). by repeat (constructor; [by split_and!|]).
Qed.

Lemma secret_read p secret d b : (nodeSecretMatches p secret d).1 = Ok b -> nodeSecretMatches p secret d = (Ok b, d).
Proof. unfold nodeSecretMatches. destruct (String.eqb secret ""); cbn; by intros [= <-]. Qed.
Lemma default_some {A} (a x : A) : default a (Some x) = x.
Proof. done. Qed.
Lemma proof_accepted (d : pool_db) fl r secret bytes now :
  challenges_ok (d, fl) -> r ∈ p_challenges d -> unanswered r = true -> now - CHALLENGE_DEADLINE_SECONDS <= ch_issuedAt r ->
  plain (ch_id r) = true -> plain (ch_peerId r) = true -> plain secret = true ->
  ch_id r <> ""%string -> ch_peerId r <> ""%string -> _challengeIpfsApi cfg <> ""%string ->
  (nodeSecretMatches (ch_peerId r) secret d).1 = Ok true ->
  PoolServer.catRange (ch_cid r) (ch_offset r) (ch_length r) = Some bytes ->
  handleProof cfg (honest_form r secret bytes) now d
  = (Ok (200, "{" ++ quoted "ok" ++ ":true," ++ quoted "passed" ++ ":true}")%string, after_pass r now d).
Proof.
  intros H Hr Hu Ht Hi Hp Hs Ni Np Nc Hsec Hcat.
  destruct (honest_form_read r secret bytes Hi Hp Hs) as (Fi & Fp & Fs & Fh).
  apply plain_c_str in Hi, Hp.
  unfold handleProof, proof_claim. rewrite Fi, Fp, Fs. rewrite !default_some.
  rewrite (proj2 (String.eqb_neq _ _) Nc), (proj2 (String.eqb_neq _ _) Ni), (proj2 (String.eqb_neq _ _) Np). cbn [orb].
  apply secret_read in Hsec. unfold mbind, M_bind. rewrite Hsec. cbn [negb].
  rewrite (claim_open d fl r now) by done. cbn [mret M_ret]. unfold proof_judge. rewrite Fp, Fh, !default_some.
  cbn [readChallenge cl_cid cl_offset cl_length cl_id]. rewrite Hcat, sameHash_self.
  unfold mbind, M_bind. rewrite (verdict_recorded d fl) by done. done.
Qed.
End proof.

(** ** The node's side *)
Section node.
Context `{JsonLib} {W : Type} `{PoolWorld W}.

Lemma bind_outcome_ok {A B} (o : outcome A) (f : A -> outcome B) b : (o ≫= f) = Ok b -> exists a, o = Ok a /\ f a = Ok b.
Proof. destruct o; try done. eauto. Qed.

(** Whatever a pool asks, the node only reads a bounded, valid range. *)
Lemma challenge_in_bounds reply q :
  challenge_in reply = Ok (Some q) ->
  q_id q <> ""%string /\ isValidCID (q_cid q) = true /\ 0 <= q_offset q /\ 0 < q_length q <= 1024 * 1024.
Proof.
  unfold challenge_in. destruct (parseFromStream reply) as [root|]; [|done].
  intros (c & _ & Hq)%bind_outcome_ok. destruct c; try done.
  apply bind_outcome_ok in Hq as (i & _ & Hq). apply bind_outcome_ok in Hq as (cid & _ & Hq).
  apply bind_outcome_ok in Hq as (o & _ & Hq). apply bind_outcome_ok in Hq as (n & _ & Hq).
  case_match eqn:E; [done|]. injection Hq as <-. cbn.
  rewrite !orb_false_iff, negb_false_iff, Z.ltb_ge, Z.leb_gt, Z.ltb_ge, String.eqb_neq in E. split_and!; try tauto; lia.
Qed.

Lemma on_outside_ok {A} (m : M W A) (n : node (W := W)) a w : m (outside n) = (Ok a, w) -> on_outside m n = (Ok a, mk_node (pool n) w).
Proof. intros E. unfold on_outside. by rewrite E. Qed.

(** *** The list of bad assets only lists_grow, without repetition *)
Definition extends (l l' : list string) : Prop := (exists k, l' = l ++ k) /\ (NoDup l -> NoDup l').
Definition lists_grown (n n' : node (W := W)) : Prop :=
  extends (_badAssets (pool n)) (_badAssets (pool n')) /\ extends (_badFiles (pool n)) (_badFiles (pool n')).
Definition lists_grow {A} (m : M (node (W := W)) A) : Prop := forall n, lists_grown n (m n).2.

Lemma extends_refl l : extends l l.
Proof. split; [exists []; by rewrite app_nil_r|done]. Qed.
Lemma extends_trans l1 l2 l3 : extends l1 l2 -> extends l2 l3 -> extends l1 l3.
Proof. intros [[k1 ->] H1] [[k2 ->] H2]. split; [exists (k1 ++ k2); by rewrite <- app_assoc|auto]. Qed.
Lemma extends_new l a : a ∉ l -> extends l (l ++ [a]).
Proof.
  intros Ha. split; [by exists [a]|]. intros Hl. apply NoDup_app. split_and!; [done| |apply NoDup_singleton].
  by intros x Hx ->%list_elem_of_singleton.
Qed.
Lemma extends_in l l' a : extends l l' -> a ∈ l -> a ∈ l'.
Proof. intros [[k ->] _] H'. by apply elem_of_app; left. Qed.
Lemma lists_grown_trans (n1 n2 n3 : node (W := W)) : lists_grown n1 n2 -> lists_grown n2 n3 -> lists_grown n1 n3.
Proof. intros [? ?] [? ?]. split; by eapply extends_trans. Qed.
Lemma lists_grow_same {A} (m : M (node (W := W)) A) : keeps (fun n => (_badAssets (pool n), _badFiles (pool n))) m -> lists_grow m.
Proof. intros Hm n. specialize (Hm n). injection Hm as E1 E2. unfold lists_grown. rewrite E1, E2. split; apply extends_refl. Qed.
Lemma lists_grow_bind {A B} (m : M (node (W := W)) A) (f : A -> M (node (W := W)) B) : lists_grow m -> (forall a, lists_grow (f a)) -> lists_grow (m ≫= f).
Proof.
  intros Hm Hf n. unfold mbind, M_bind. specialize (Hm n). destruct (m n) as [[a| | |] n']; try done.
  by eapply lists_grown_trans; [|apply Hf].
Qed.
Lemma lists_grow_try_catch {A} (m : M (node (W := W)) A) h : lists_grow m -> (forall e, lists_grow (h e)) -> lists_grow (try_catch m h).
Proof.
  intros Hm Hh n. unfold try_catch. specialize (Hm n). destruct (m n) as [[a| | |] n']; try done.
  by eapply lists_grown_trans; [|apply Hh].
Qed.
Lemma lists_grow_for_each {A} (l : list A) f : (forall a, lists_grow (f a)) -> lists_grow (for_each l f).
Proof. intros Hf. induction l as [|a l IH]; cbn [for_each]; [by apply lists_grow_same|]. by apply lists_grow_bind. Qed.
Lemma lists_grow_outside {A} (m : M W A) : lists_grow (on_outside m).
Proof. apply lists_grow_same. intros n. unfold on_outside. by destruct (m (outside n)). Qed.
Lemma lists_grow_known {A B} (f : client -> A) (g : A -> M (node (W := W)) B) :
  (forall n, lists_grown n (g (f (pool n)) n).2) -> lists_grow (a ← the f; g a).
Proof. intros Hg n. apply Hg. Qed.
Lemma lists_grow_learn_asset v : lists_grow (learn_asset v).
Proof.
  unfold learn_asset. apply lists_grow_bind; [by apply lists_grow_same|]. intros a. apply lists_grow_known. intros n.
  case_bool_decide as Hin; [by apply (lists_grow_same (mret tt))|].
  unfold reportAssetBad_internal, mbind, M_bind, the, gets, on_outside. cbn.
  destruct (db_removeAssetFromPool _ _ _ _) as [[| | |] w]; try (by split; apply extends_refl).
  split; cbn; [by apply extends_new|apply extends_refl].
Qed.
Lemma lists_grow_learn_file v : lists_grow (learn_file v).
Proof.
  unfold learn_file. apply lists_grow_bind; [by apply lists_grow_same|]. intros a. apply lists_grow_known. intros n.
  case_bool_decide as Hin; [by apply (lists_grow_same (mret tt))|].
  unfold reportFileBad_internal, mbind, M_bind, the, gets, on_outside. cbn.
  destruct (db_removeFromPermanent _ _ _ _) as [[| | |] w]; try (by split; apply extends_refl).
  split; cbn; [apply extends_refl|by apply extends_new].
Qed.
Lemma lists_grow_updateBadList : lists_grow updateBadList.
Proof.
  unfold updateBadList. apply lists_grow_bind; [apply lists_grow_outside|]. intros now'.
  apply lists_grow_bind; [by apply lists_grow_same|]. intros _. apply lists_grow_try_catch; [|by intros e; apply lists_grow_same].
  apply lists_grow_bind; [by apply lists_grow_same|]. intros url. apply lists_grow_bind; [apply lists_grow_outside|]. intros reply.
  destruct (reader_parse reply.1) as [root|]; [|by apply lists_grow_same].
  apply lists_grow_bind; [by apply lists_grow_same|]. intros assets.
  apply lists_grow_bind; [apply lists_grow_for_each, lists_grow_learn_asset|]. intros _.
  apply lists_grow_bind; [by apply lists_grow_same|]. intros cids. apply lists_grow_for_each, lists_grow_learn_file.
Qed.

(** A fetched list whose assets the database lets go is learnt completely. *)
Definition removes : Prop := forall index what unpin w,
  (db_removeAssetFromPool index what unpin w).1 = Ok tt /\ (db_removeFromPermanent index what unpin w).1 = Ok tt.
Lemma learn_one (n : node (W := W)) a : removes ->
  exists n', learn_asset (JString a) n = (Ok tt, n') /\ _badTime (pool n') = _badTime (pool n)
    /\ forall x, x ∈ _badAssets (pool n') <-> x ∈ _badAssets (pool n) \/ x = a.
Proof.
  intros Hrem. unfold learn_asset. rewrite (bind_ok _ _ n a n) by done. cbn beta. unfold the. step_by done.
  case_bool_decide as Hin.
  - exists n. split_and!; try done. intros x. split; [by left|by intros [?| ->]].
  - destruct (Hrem (_poolIndex (pool n)) a (_autoRemoveBad (pool n)) (outside n)) as [E _].
    unfold reportAssetBad_internal, mbind, M_bind, the, gets, on_outside. cbn. unfold id.
    destruct (db_removeAssetFromPool _ _ _ _) as [r w]. cbn in E. subst r. cbn.
    eexists. split_and!; [done|done|]. intros x. cbn. by rewrite elem_of_app, list_elem_of_singleton.
Qed.
Lemma learn_all l : removes -> forall n : node (W := W),
  exists n', for_each (map JString l) learn_asset n = (Ok tt, n') /\ _badTime (pool n') = _badTime (pool n)
    /\ forall x, x ∈ _badAssets (pool n') <-> x ∈ _badAssets (pool n) \/ x ∈ l.
Proof.
  intros Hrem. induction l as [|a l IH]; intros n; cbn [map for_each].
  - exists n. split_and!; try done. intros x. rewrite elem_of_nil. tauto.
  - destruct (learn_one n a Hrem) as (n1 & E1 & T1 & H1). destruct (IH n1) as (n2 & E2 & T2 & H2).
    exists n2. step E1. split_and!; [done|by rewrite T2|]. intros x. rewrite H2, H1, elem_of_cons. tauto.
Qed.
Lemma files_keep_assets l : removes -> forall n : node (W := W),
  exists n', for_each (map JString l) learn_file n = (Ok tt, n') /\ _badTime (pool n') = _badTime (pool n)
    /\ _badAssets (pool n') = _badAssets (pool n).
Proof.
  intros Hrem. induction l as [|a l IH]; intros n; cbn [map for_each]; [by exists n|].
  assert (exists n1, learn_file (JString a) n = (Ok tt, n1) /\ _badTime (pool n1) = _badTime (pool n)
    /\ _badAssets (pool n1) = _badAssets (pool n)) as (n1 & E1 & T1 & H1).
  { unfold learn_file. rewrite (bind_ok _ _ n a n) by done. cbn beta. unfold the. step_by done.
    case_bool_decide as Hin; [by exists n|].
    destruct (Hrem (_poolIndex (pool n)) a (_autoRemoveBad (pool n)) (outside n)) as [_ E].
    unfold reportFileBad_internal, mbind, M_bind, the, gets, on_outside. cbn. unfold id.
    destruct (db_removeFromPermanent _ _ _ _) as [r w]. cbn in E. subst r. by eexists. }
  destruct (IH n1) as (n2 & E2 & T2 & H2). exists n2. step E1. split_and!; [done|by rewrite T2|by rewrite H2].
Qed.

(** What a pool says about an asset.  Asking whether an asset is bad never
    takes an asset or a file off the node's lists and never lists one twice,
    however the pool answers; within 1200 seconds of the last attempt the
    answer comes from the list alone and nothing but the clock is used; after
    that the pool's list is fetched first, and when it arrives whole and the
    database lets the assets go, the answer is whether the asset was known
    before or is on the list now, and the attempt counts from this moment. *)
Theorem bad_list_followed a t w (n : node (W := W)) :
  system_time (outside n) = (Ok t, w) ->
  lists_grown n (isAssetBad a n).2
  /\ (u32 (t - _badTime (pool n)) <= 1200 ->
      isAssetBad a n = (Ok (bool_decide (a ∈ _badAssets (pool n))), mk_node (pool n) w))
  /\ (1200 < u32 (t - _badTime (pool n)) -> removes ->
      forall t' w1 body status w2 root assets cids,
      system_time w = (Ok t', w1) -> curl_get (_baseUrl (pool n) ++ "/bad.json") w1 = (Ok (body, status), w2) ->
      reader_parse body = Some root ->
      member "assets" root = Ok (JArray (map JString assets)) -> member "cids" root = Ok (JArray (map JString cids)) ->
      (isAssetBad a n).1 = Ok (bool_decide (a ∈ _badAssets (pool n) ++ assets))
      /\ _badTime (pool (isAssetBad a n).2) = u32 t').
Proof.
  intros Et. split_and!.
  - unfold isAssetBad. revert n Et. assert (forall b : bool, lists_grow ((if b then updateBadList else mret tt);; (bad ← the _badAssets; mret (bool_decide (a ∈ bad))))) as Hg.
    { intros b. apply lists_grow_bind; [destruct b; [apply lists_grow_updateBadList|by apply lists_grow_same]|]. intros _. by apply lists_grow_same. }
    intros n _. refine (lists_grow_bind _ _ (lists_grow_outside _) _ n). intros now'. apply lists_grow_bind; [by apply lists_grow_same|]. intros bt. apply Hg.
  - intros Hfresh. unfold isAssetBad. step (on_outside_ok _ _ _ _ Et). unfold the. step_by done. cbn [pool].
    by rewrite (proj2 (Z.ltb_ge _ _) Hfresh).
  - intros Hold Hrem t' w1 body status w2 root assets cids Et' Eg Er Ea Ec.
    set (c := set_bad (_badAssets (pool n)) (_badFiles (pool n)) (u32 t') (pool n)).
    destruct (learn_all assets Hrem (mk_node c w2)) as (n1 & E1 & T1 & H1).
    destruct (files_keep_assets cids Hrem n1) as (n2 & E2 & T2 & H2).
    assert (updateBadList (mk_node (pool n) w) = (Ok tt, n2)) as E.
    { unfold updateBadList. step (on_outside_ok _ (mk_node (pool n) w) _ _ Et'). step_by done. fold c.
      unfold try_catch. unfold the. step_by done. cbn [pool].
      step (on_outside_ok _ (mk_node c w1) _ _ Eg). cbn [fst]. rewrite Er.
      rewrite (bind_ok _ _ (mk_node c w2) (JArray (map JString assets)) (mk_node c w2)) by (unfold lift; by rewrite Ea).
      cbn [elements]. step E1. rewrite (bind_ok _ _ n1 (JArray (map JString cids)) n1) by (unfold lift; by rewrite Ec).
      cbn [elements]. by rewrite E2. }
    assert (isAssetBad a n = (Ok (bool_decide (a ∈ _badAssets (pool n2))), n2)) as ->.
    { unfold isAssetBad. step (on_outside_ok _ _ _ _ Et). unfold the. step_by done. cbn [pool].
      rewrite (proj2 (Z.ltb_lt _ _) Hold). by step E. }
    cbn [fst snd]. split; [|by rewrite T2, T1]. f_equal. apply bool_decide_ext. by rewrite H2, H1, elem_of_app.
Qed.

(** *** The walk over the permanent list *)
Lemma page_kept_outside {A} (m : M W A) : keeps (fun n : node (W := W) => _permanentPage (pool n)) (on_outside m).
Proof. intros n. unfold on_outside. by destruct (m (outside n)). Qed.
Lemma page_kept_fetch page : keeps (fun n : node (W := W) => _permanentPage (pool n)) (fetchAndPinPermanentPage page).
Proof.
  unfold fetchAndPinPermanentPage, on_pool, the, pin_list, pin_value, pin_or_fail. keeps_all; try done; apply page_kept_outside.
Qed.

(** A page that is done is passed and the next one is what a restart begins with. *)
Lemma page_read_back key page fallback (c : config) : 0 <= page < two32 ->
  exists z, getInteger_default key fallback (setInteger key (i32 page) c) = Ok z /\ u32 z = page.
Proof.
  intros Hp. exists (i32 page). unfold two32 in *.
  assert (- 2147483648 <= i32 page < 2147483648 /\ u32 (i32 page) = page) as [Hr Hu].
  { unfold i32, u32, two32 in *. Z.div_mod_to_equations. lia. }
  destruct (stoi_int_string (i32 page) Hr) as [E1 E2]. split; [|done].
  unfold getInteger_default, value_at, setInteger. rewrite setString_value, lookup_insert_eq. unfold integer_of. rewrite E1. cbn. by rewrite E2.
Qed.
Lemma advance_moves (n : node (W := W)) :
  _permanentPage (pool (advance_page n).2) = u32 (_permanentPage (pool n) + 1).
Proof.
  unfold advance_page, the, on_pool. step_by done. step_by done. step_by done.
  set (m := persist _). assert (keeps (fun n : node (W := W) => _permanentPage (pool n)) m) as Hm.
  { unfold m, persist. keeps_all; apply page_kept_outside. }
  by rewrite (Hm _).
Qed.
(** A turn passes a page exactly when it was fetched and the pool calls it
    done; a page that failed is asked again. *)
Lemma walk_step (n : node (W := W)) :
  _permanentPage (pool (fetch_turn n).2)
  = match (fetchAndPinPermanentPage (_permanentPage (pool n)) n).1 with
    | Ok true => u32 (_permanentPage (pool n) + 1)
    | _ => _permanentPage (pool n)
    end.
Proof.
  unfold fetch_turn, try_catch, the. pose proof (page_kept_fetch (_permanentPage (pool n)) n) as Hk. cbn beta in Hk.
  rewrite (bind_ok _ _ n (_permanentPage (pool n)) n) by done. unfold mbind, M_bind.
  destruct (fetchAndPinPermanentPage (_permanentPage (pool n)) n) as [[[]|e| |] n1]; cbn [fst snd] in *; try done.
  rewrite <- Hk. pose proof (advance_moves n1) as Ha.
  by destruct (advance_page n1) as [[| | |] n2]; cbn [fst snd] in *.
Qed.

(** The node and the pool meet: a POST to the pool's address reaches the
    handler; [server] is the pool's database as part of the world outside. *)
Context {HK : Kubo} (server : W -> pool_db) (cfg : server_config) (now : Z).
Definition reaches_pool (url : string) : Prop :=
  forall form w, exists answer w', curl_post (url ++ "/proof") form w = (answer, w')
    /\ server w' = (handleProof cfg form now (server w)).2.
(** The node pins the file and reads the asked range as the pool does. *)
Record holds_file (r : challenge_row) (bytes : string) : Prop := mk_holds_file {
  file_pinned w : exists w', ipfs_isPinned (ch_cid r) w = (Ok true, w') /\ server w' = server w;
  file_read w : exists w', ipfs_catRange (ch_cid r) (ch_offset r) (ch_length r) w = (Ok bytes, w') /\ server w' = server w;
  same_copy : PoolServer.catRange (ch_cid r) (ch_offset r) (ch_length r) = Some bytes }.

(** C10: A node that still stores the file of an open challenge passes it.  When
    the reply to its keepalive asks about that challenge in time, the node has
    the file pinned and reads from it what the pool reads, and its registration
    holds, then what the node posts - whatever HTTP returns to it - leaves
    exactly that challenge answered and judged as passed, raises the node's
    score as one more answer, and changes nothing else in the pool's database. *)
Theorem honest_node_passes n reply r bytes fl :
  challenges_ok (server (outside n), fl) -> r ∈ p_challenges (server (outside n)) -> unanswered r = true ->
  now - CHALLENGE_DEADLINE_SECONDS <= ch_issuedAt r ->
  challenge_in reply = Ok (Some (mk_question (ch_id r) (ch_cid r) (ch_offset r) (ch_length r))) ->
  holds_file r bytes -> reaches_pool (_baseUrl (pool n)) -> _challengeIpfsApi cfg <> ""%string ->
  ch_peerId r <> ""%string -> plain (ch_id r) = true -> plain (ch_peerId r) = true -> plain (_secretCode (pool n)) = true ->
  (nodeSecretMatches (ch_peerId r) (_secretCode (pool n)) (server (outside n))).1 = Ok true ->
  let d' := server (outside (answerStorageChallenge reply (ch_peerId r) n).2) in
  d' = after_pass r now (server (outside n))
  /\ (exists r', r' ∈ p_challenges d' /\ ch_id r' = ch_id r /\ ch_passed r' = Some true)
  /\ pool (answerStorageChallenge reply (ch_peerId r) n).2 = pool n.
Proof.
  intros Hok Hr Hu Ht Hask [Hpin Hcat Hsame] Hnet Hcfg Np Hi Hp Hs Hsec d'.
  pose proof (challenge_in_bounds _ _ Hask) as (Ni & _). cbn in Ni.
  destruct (Hpin (outside n)) as (w1 & E1 & S1). destruct (Hcat w1) as (w2 & E2 & S2).
  destruct (Hnet (honest_form r (_secretCode (pool n)) bytes) w2) as (a & w3 & E3 & S3).
  rewrite S2, S1, (proof_accepted cfg _ fl) in S3 by done. cbn in S3.
  assert ((answerStorageChallenge reply (ch_peerId r) n).2 = mk_node (pool n) w3) as E.
  { unfold answerStorageChallenge, try_catch. rewrite (bind_ok _ _ n _ n) by (unfold lift; by rewrite Hask). cbn beta iota.
    step (on_outside_ok _ _ _ _ E1). cbn [negb]. step (on_outside_ok (ipfs_catRange _ _ _) (mk_node (pool n) w1) _ _ E2).
    unfold the. step_by done. cbn [pool outside]. unfold mbind, M_bind, on_outside. cbn [pool outside].
    unfold honest_form in E3. unfold id. rewrite E3. by destruct a. }
  unfold d'. rewrite E. cbn. split_and!; [done| |done].
  rewrite S3. exists (judge (Some true) (answer now r)). split_and!; try done.
  apply elem_of_update. exists r. split; [done|]. by rewrite String.eqb_refl.
Qed.
End node.

(** ** A node, a pool and one challenge *)
Definition asked_reply : string := "{challenge}".
Definition demo_lib : JsonLib :=
  {| sizeof_Value := 40; sizeof_Response := 128; sizeof_time_point := 8;
     toStyledString _ := "null"%string; writeString _ := "null"%string;
     parseFromStream s :=
       if String.eqb s asked_reply
       then inl (JObject [("challenge", JObject [("cid", JString "bafy1"); ("id", JString "c1"); ("length", JInt 1000); ("offset", JInt 0)])])
       else inr "no"%string;
     real_text _ := ""%string; not_an_object := ""%string; not_convertible := ""%string;
     sizeof_small := conj (conj eq_refl eq_refl) (conj (conj eq_refl eq_refl) (conj eq_refl eq_refl)) |}.
Definition demo_file : string := str (repeat "A"%char 1000).
Definition demo_kubo : Kubo := {| kubo_cat := fun _ o n => Some (str (take (Z.to_nat n) (drop (Z.to_nat o) (chars demo_file)))); kubo_stat := fun _ => None |}.
Definition demo_cfg : server_config := mk_server_config (mk_Config 3 10 (dlit 5 10) 1) "" "http://127.0.0.1:5001" false [] "".
(** The world of the node is the pool's database: the pool answers it at time 150. *)
Definition demo_net : PoolWorld pool_db :=
  {| ipfs_getSize _ := mret 1000; ipfs_download _ := mret ""%string; ipfs_pin _ := mret tt; ipfs_isPinned _ := mret true;
     ipfs_catRange _ o n := mret (str (take (Z.to_nat n) (drop (Z.to_nat o) (chars demo_file)))); ipfs_getPeerId := mret "QmA"%string;
     curl_get _ := mret (""%string, 404);
     curl_post _ form := fun d => let '(r, d) := handleProof (HK := demo_kubo) demo_cfg form 150 d in
       (match r with Ok (status, body) => Ok (body, status) | _ => Throw exceptionCouldntReport end, d);
     curl_postJson _ _ := mret (404, ""%string); reader_parse _ := None;
     db_repinPermanent _ := mret tt; db_removeAssetFromPool _ _ _ := mret tt; db_removeFromPermanent _ _ _ := mret tt;
     db_exchangeRate := mret (dbl 1); core_addressesByLabel _ := mret []; core_newAddress _ := mret "D1"%string;
     core_blockCount := mret 0; config_read := mret (reload []); config_write _ := mret tt;
     random_code := mret "s"%string; system_time := mret 150 |}.
Definition demo_client : client := set_identity true "s" "https://pool" (new_client mctrivia).
Definition asked_row : challenge_row := mk_challenge_row "c1" "QmA" "bafy1" 0 1000 100 None None.
Lemma asked_ok : challenges_ok (asked_db, []).
Proof. unfold asked_db. apply insertChallenge_ok, upsert_ok, empty_ok. Qed.

Lemma honest_node_passes_witness :
  let d' := outside (@answerStorageChallenge demo_lib pool_db demo_net asked_reply "QmA" (mk_node demo_client asked_db)).2 in
  d' = after_pass asked_row 150 asked_db /\ map ch_passed (p_challenges d') = [Some true]
  /\ credits d' = [("QmA"%string, 1)].
Proof.
  intros d'.
  pose proof (@honest_node_passes demo_lib pool_db demo_net demo_kubo (fun d => d) demo_cfg 150
              (mk_node demo_client asked_db) asked_reply asked_row demo_file []) as Hpass.
  destruct Hpass as (E & _).
  - exact asked_ok.
  - vm_compute. left.
  - reflexivity.
  - vm_compute. congruence.
  - vm_compute. reflexivity.
  - split; [by intros w; exists w| |vm_compute; reflexivity].
    intros w. exists w. split; [|reflexivity]. change (ipfs_catRange _ _ _ w) with (Ok demo_file, w). reflexivity.
  - intros form w. cbv beta iota delta [curl_post demo_net]. destruct (@handleProof demo_kubo demo_cfg form 150 w) as [r d] eqn:E. by eexists _, _.
  - discriminate.
  - discriminate.
  - reflexivity.
  - reflexivity.
  - reflexivity.
  - vm_compute. reflexivity.
  - change (d' = after_pass asked_row 150 asked_db) in E. rewrite E. split_and!; [reflexivity|vm_compute; reflexivity..].
Defined.
